(* ===== verification/_CoqProject ===== *)
-Q . S2P
Prelude.v
GoErrors.v
VersionRelease.v
ApiTypes.v
Filter.v
Resolve.v
Instances.v
ResolveProps.v
Sanitize.v
ExtStatus.v
ExtSteps.v
ExtLogic.v
ExtProps.v
StatusProps.v
Phase.v
ObjectInstances.v
PhaseProps.v
SecretPacker.v
PackProps.v
RevisionGen.v
Rbac.v
EscalationText.v
RbacProps.v
BoxApply.v
BoxLogic.v
BoxProps.v
BoxAuth.v
ObjectSet.v
SetLogic.v
SetProps.v
CatalogIndex.v
CatalogStore.v
CatalogServe.v
CatalogCtrl.v
CatalogInstances.v
CatalogStoreProps.v
CatalogServeProps.v
CatalogCtrlProps.v
Bundle.v
DeployConfig.v
DeployConfigProps.v
Validate.v
ValidateProps.v
Generate.v
CertProviders.v
GenerateProps.v
Render.v
NameProps.v
RenderProps.v
RenderTotal.v
RenderSamples.v
BundleConfig.v
Source.v
Provider.v
ProviderProps.v
ProviderSamples.v
GoPath.v
ImageFilter.v
DiskFs.v
DiskProps.v
ImageCache.v
ImageCacheProps.v
ImagePull.v
ImagePullProps.v
ImageSamples.v
HelmApply.v
HelmProps.v
CatalogCache.v
CatalogCacheProps.v
CatalogCacheSamples.v
ContentManager.v
ContentProps.v
Admission.v
CrdSafety.v
CrdSafetyProps.v
Auth.v
AuthProps.v
PullSecret.v
Tls.v
EngineFactory.v
