(* ===== verification/Prelude.v ===== *)
(** * A verification library for operator-controller (OLM v1)

    operator-controller installs and upgrades operators on a Kubernetes
    cluster.  A user creates a ClusterExtension that names a package; catalogs
    of packages are ClusterCatalogs.  The repository holds two programs:

    - catalogd (src/cmd/catalogd, src/internal/catalogd) pulls the image of each
      ClusterCatalog, stores its content with an index in a directory, and
      serves both over HTTP;
    - operator-controller (src/cmd/operator-controller,
      src/internal/operator-controller) keeps a copy of the catalogs' contents,
      resolves each ClusterExtension to a bundle, pulls the bundle's image,
      renders its manifests and applies them, either as a ClusterObjectSet (a
      numbered revision that a second controller rolls out with the boxcutter
      engine) or as a Helm release.

    This library translates the code of both into Rocq definitions, file by
    file, and proves what makes it correct.  The theorems whose comments begin
    with a number (C1 to C40) are the properties of the whole development; the
    others are lemmas, further properties, and behaviours worth knowing.

    ** Conventions

    Fallible code returns [result A], an error on the left (GoErrors.v, with
    the tree of wrapped errors); code that can panic returns [go A]
    ([Ret] or [Panic]).  Code with effects is a program in the state monad [IO]
    over the history of what was asked of the outside world ([ask], with the
    rules [wp] below): each answer is a function of that history, so that a
    theorem holds for every way the API server, Helm, the engine or the disk can
    behave, changes between two calls included.  On a disk the history is the
    sequence of its contents, one per system call, so that a crash leaves one
    of them.  What runs concurrently (the token cache, the content caches, the
    certificate watcher) is a step function on a shared state, with an
    [Inductive] reachability.  An [int64] is a [Z], with its wrap-around where
    the code can reach it; times and durations are nanoseconds; Go maps and sets
    are [gmap] and [gset], and where the code depends on the order in which Go
    iterates over them that order is an argument.  Mutation through a pointer is
    the value the function leaves; where two references alias (the containers
    of a deployment, the paths of the certificate watcher) the sharing is
    modelled.

    ** The files, their sources and their theorems

    Shared: Prelude.v (Go strings and integers, sorting, the monad and its
    logic), GoErrors.v (internal/shared/util/error/terminal.go), Sanitize.v
    (error/sanitize.go), ApiTypes.v (api/v1, labels), GoPath.v (path/filepath),
    Instances.v, ObjectInstances.v and CatalogInstances.v (executable instances
    of the interfaces, used by witnesses only).

    Resolution: VersionRelease.v (bundle/versionrelease.go, bundleutil,
    catalogmetadata/compare), Filter.v (catalogmetadata/filter, util/filter),
    Resolve.v (resolve/catalog.go, validation.go).  ResolveProps.v: [Resolve] is
    exactly the declarative selection among the candidates of all catalogs.

    The ClusterExtension controller: ExtStatus.v (controllers/
    common_controller.go and the status part of
    clusterextension_controller.go), ExtSteps.v (the reconcile steps, both
    pipelines and the reconciler), ExtLogic.v (a Hoare logic for pipelines).
    ExtProps.v and StatusProps.v: no panic, the installed workload survives the
    loss of its catalog, what is reported as installed is recorded, the decision
    after a failed resolution.

    Images: ImageFilter.v (image/filters.go), DiskFs.v (util/fs/fs.go),
    ImageCache.v (image/cache.go, helm.go), ImagePull.v (image/pull.go).
    DiskProps.v, ImageCacheProps.v, ImagePullProps.v, ImageSamples.v: the disk
    cache implements the interface [ImageCache] whichever system calls fail, at
    every step; the puller is proved against that interface; what a killed
    process, a special file or a moving tag does.

    Bundles: Source.v (rukpak/bundle/source), Bundle.v and BundleConfig.v
    (bundle/registryv1.go, config/config.go), Validate.v (validators),
    DeployConfig.v and Generate.v (generators, resources.go), CertProviders.v
    (certproviders), Render.v (render.go, registryv1.go, util/hash), Provider.v
    (applier/provider.go).  ValidateProps.v: the thirteen checks against the
    declarative well-formedness; RenderProps.v, RenderTotal.v, GenerateProps.v,
    NameProps.v, DeployConfigProps.v: rendering succeeds exactly when it should,
    grants the permissions that are declared or shipped, and its references
    resolve; ProviderProps.v: the provider returns manifests exactly for the right bundles and
    configurations, and what passes the schema passes the renderer.

    The boxcutter applier: Phase.v (applier/phase.go), SecretPacker.v
    (secretpacker.go and resolveObjectRef), RevisionGen.v and BoxApply.v
    (boxcutter.go, preflight.go), BoxLogic.v (its program logic), Rbac.v and
    EscalationText.v (authorization/rbac.go), CrdSafety.v
    (rukpak/preflights/crdupgradesafety), Admission.v (the validation markers of
    api/v1/clusterobjectset_types.go).  PhaseProps.v, PackProps.v: sorting into
    phases, the round trip through Secrets; BoxProps.v: the order of the calls,
    the completeness of a new revision, garbage collection; RbacProps.v: the
    pre-authorizer is exact; BoxAuth.v and CrdSafetyProps.v: the composition of
    the applier with the pre-authorizer and with the CRD check: nothing is
    created before it was permitted and found safe; Admission.v: which revisions
    the API server admits.

    The ClusterObjectSet controller: ObjectSet.v
    (controllers/clusterobjectset_controller.go), SetLogic.v, EngineFactory.v
    (revision_engine_factory.go).  SetProps.v: what is archived and when, what
    Succeeded means, the finalizer, the deadline, and that the controller hands
    the engine exactly what the applier stored; EngineFactory.v: the engine acts
    as the service account the applier's checks asked about.

    The Helm applier: HelmApply.v (applier/helm.go, action/helm.go,
    action/error), ContentManager.v (contentmanager/), Auth.v
    (authentication/, action/restconfig.go).  HelmProps.v: one change of the
    cluster at most, after every check; ContentProps.v: invariants of the
    content caches in every interleaving; AuthProps.v: which tokens requests
    carry, and that every request returns.

    Catalogs: CatalogIndex.v (storage/index.go), CatalogStore.v
    (storage/localdir.go, garbagecollection), CatalogServe.v (the HTTP
    handlers), CatalogCtrl.v (clustercatalog_controller.go of catalogd, the
    webhook), CatalogCache.v (catalogmetadata/cache, client, and the
    clustercatalog_controller.go of operator-controller).  CatalogStoreProps.v:
    consistency under crashes, the storage interface [StorageInstance];
    CatalogServeProps.v: queries are answered exactly; CatalogCtrlProps.v: the
    catalog controller against any such storage; CatalogCacheProps.v and
    CatalogCacheSamples.v: the client's cache.

    The processes: PullSecret.v (shared/controllers, pullsecretcache, sa),
    Tls.v (tlsprofiles, util/http), each with its properties.

    ** What is outside the source

    Third-party code and the cluster are parameters.  As interfaces with laws:
    [BSemver], [MMSemver], [PackageProperty] (version libraries), [LabelsAPI],
    [ConditionsAPI], [UnstructuredAPI] (apimachinery), [Codec] (JSON, gzip,
    SHA-256), [IndexCodec], [CRFinalizers], [FinalizerPatch] (controller-runtime,
    the API server's patch), [SchemaLaws], [YamlLaws] (JSON Schema, YAML),
    [CertProviderLaws], [StorageLaws] and [ImageCacheLaws] (discharged here by
    the repository's implementations), [UnpackLaws] (containerd, Helm's loader),
    [CrdifyLaws] (crdify), [InlineGenerator] (a revision generator gives inline
    objects; discharged for the repository's), [Honest] (an operating system
    that may fail anywhere, but does not report what is there as missing).  Two
    are for what holds in good conditions only: [Quiet] (an operating system that
    does not fail on its own) and [ReliableUnpack] (layers of files, directories
    and links, which unpacking them does not fail for reasons of its own).  As
    environments of answers, about which nothing is assumed unless a theorem
    says so: [BoxEnv], [SetEnv], [HelmEnv],
    [RbacEnv], [CrdEnv], [FsEnv], [OsEnv], [CatEnv], [PullEnv], [HttpEnv],
    [ConfigEnv], [SourceEnv], [PsEnv], [CertEnv], and the arguments of the
    actions in ContentManager.v, Auth.v and Tls.v.  [RbacEnv], [CrdEnv] and
    [PsEnv] are the cluster as it is during one call; the appliers ask them at
    points of a history, and the cluster may change from point to point.

    ** Fuel

    Recursion is structural but for four functions.  [etag_list] gets the
    length of the header ([etag_list_total]: enough, and more changes nothing);
    [digits36] the bits of the number ([hash_text_roundtrip]); [remove_all_from]
    the length of the string ([remove_all_from_enough]); [js_eval] is the sample
    evaluator of JSON Schema, whose [js_accepts] asks for some fuel.

    ** Not modelled

    - The set-up in cmd/operator-controller/main.go, cmd/catalogd/main.go,
      internal/catalogd/serverutil and features/: flags, listeners, metrics,
      compression, and the construction of managers and clients, which only call
      libraries; of main.go the two step pipelines and the choice of credentials
      are modelled.
    - action/storagedriver.go, the sourcerer's informers, the registration of the
      finalizers, certlog.go, the timer of the garbage collector: they wire up
      or log.
    - The boxcutter engine, Helm, crdify, containers/image, containerd, declcfg,
      the Kubernetes libraries: not in the repository.
    - The CEL rules of ClusterExtension and ClusterCatalog other than those of
      the progress deadline; util.ManifestObjects (a YAML stream reader).
    - The transition times of conditions; time that passes within one
      reconciliation of a ClusterObjectSet, for which the clock is read once.
    - Logging, everywhere.
    - Generated code (deep copies, applyconfigurations), the tools under hack/,
      and test code under test/, testdata/ and internal/shared/util/test. *)

From stdpp Require Export base list gmap strings sorting pretty.
From Stdlib Require Export ZArith Lia Permutation.
From Stdlib Require Import Ascii.

#[export] Set Default Goal Selector "!".

Declare Scope olm_scope.
Delimit Scope olm_scope with olm.
Open Scope Z_scope.
Open Scope list_scope.

(** The hint databases of the development: [olm] collects the lemmas that
    close the routine side goals, the rewrite base [olm_simp] the equations
    of the monad, of the sorting function and of the condition list. *)
Create HintDb olm discriminated.
Create Rewrite HintDb olm_simp.

(** ** Tactics *)

(** Split every [match] and [if] on a term that occurs in the goal. *)
Ltac split_match :=
  repeat match goal with
         | |- context [match ?x with _ => _ end] => destruct x eqn:?
         end.

(** The same for the hypotheses, closing the contradictory branches. *)
Ltac split_match_in H :=
  repeat match type of H with
         | context [match ?x with _ => _ end] =>
             let E := fresh "Hm" in destruct x eqn:E; try discriminate
         end.

(** ** Go strings *)

(** [len(s)], as the [int] the code compares. *)
Definition slen (s : string) : Z := Z.of_nat (String.length s).

(** [strings.Join(l, sep)]. *)
Fixpoint strings_Join (l : list string) (sep : string) : string :=
  match l with
  | [] => ""
  | [x] => x
  | x :: l' => x +:+ sep +:+ strings_Join l' sep
  end.

(** [strings.Split(s, ".")] and, more generally, splitting at one byte: the
    text between separators, always at least one element. *)
Fixpoint strings_Split (c : ascii) (s : string) : list string :=
  match s with
  | EmptyString => [EmptyString]
  | String d s' =>
      if decide (d = c) then EmptyString :: strings_Split c s'
      else match strings_Split c s' with
           | x :: l => String d x :: l
           | [] => [String d EmptyString]
           end
  end.

(** [strings.HasPrefix(s, p)]. *)
Fixpoint strings_HasPrefix (s p : string) : bool :=
  match p, s with
  | EmptyString, _ => true
  | String c p', String d s' => bool_decide (c = d) && strings_HasPrefix s' p'
  | _, _ => false
  end.

(** [strings.Contains(s, p)]. *)
Fixpoint strings_Contains (s p : string) : bool :=
  strings_HasPrefix s p || match s with String _ s' => strings_Contains s' p | EmptyString => false end.

(** [s[:n]] and [s[n:]]. *)
Fixpoint str_take (n : nat) (s : string) : string :=
  match n, s with
  | S n', String c s' => String c (str_take n' s')
  | _, _ => EmptyString
  end.

(** The first [n] bytes, for a length that is not unary. *)
Fixpoint str_takeZ (n : Z) (s : string) : string :=
  match s with
  | EmptyString => EmptyString
  | String c s' => if n <=? 0 then EmptyString else String c (str_takeZ (n - 1) s')
  end.

Fixpoint str_drop (n : nat) (s : string) : string :=
  match n, s with
  | S n', String _ s' => str_drop n' s'
  | _, _ => s
  end.

(** The [%q] verb on ASCII text: double quotes around the string, with the
    quote, the backslash and the usual control characters escaped. *)
Definition quote_char (c : ascii) : string :=
  match nat_of_ascii c with
  | 34%nat => String (ascii_of_nat 92) (String (ascii_of_nat 34) EmptyString)
  | 92%nat => String (ascii_of_nat 92) (String (ascii_of_nat 92) EmptyString)
  | 10%nat => String (ascii_of_nat 92) "n"
  | 13%nat => String (ascii_of_nat 92) "r"
  | 9%nat => String (ascii_of_nat 92) "t"
  | _ => String c EmptyString
  end.

Fixpoint quote_body (s : string) : string :=
  match s with
  | EmptyString => EmptyString
  | String c s' => quote_char c +:+ quote_body s'
  end.

Definition fmt_q (s : string) : string :=
  let dq := String (ascii_of_nat 34) EmptyString in dq +:+ quote_body s +:+ dq.

(** The [%d] verb. *)
Definition fmt_d (n : Z) : string := pretty n.

(** The newline character. *)
Definition nl : string := String (ascii_of_nat 10) EmptyString.

(** [strings.TrimSpace] on ASCII text. *)
Definition is_space (c : ascii) : bool :=
  match nat_of_ascii c with
  | 9%nat | 10%nat | 11%nat | 12%nat | 13%nat | 32%nat => true
  | _ => false
  end.

Fixpoint trim_left (s : string) : string :=
  match s with
  | String c s' => if is_space c then trim_left s' else s
  | EmptyString => EmptyString
  end.

Fixpoint trim_right (s : string) : string :=
  match s with
  | EmptyString => EmptyString
  | String c s' =>
      match trim_right s' with
      | EmptyString => if is_space c then EmptyString else String c EmptyString
      | t => String c t
      end
  end.

Definition strings_TrimSpace (s : string) : string := trim_right (trim_left s).

(** The [%v] verb on a slice of strings. *)
Definition fmt_v_strings (l : list string) : string := "[" +:+ strings_Join l " " +:+ "]".

(** [cmp.Compare] on strings: byte-wise lexicographic order, as -1, 0, +1. *)
Fixpoint string_cmp (a b : string) : Z :=
  match a, b with
  | EmptyString, EmptyString => 0
  | EmptyString, _ => -1
  | _, EmptyString => 1
  | String c a', String d b' =>
      match Nat.compare (nat_of_ascii c) (nat_of_ascii d) with
      | Lt => -1
      | Gt => 1
      | Eq => string_cmp a' b'
      end
  end.

(** [cmp.Compare] on integers. *)
Definition int_cmp (a b : Z) : Z :=
  if a <? b then -1 else if b <? a then 1 else 0.

(** [cmp.Or]: the first non-zero value. *)
Fixpoint cmp_Or (l : list Z) : Z :=
  match l with
  | [] => 0
  | x :: l' => if x =? 0 then cmp_Or l' else x
  end.

(** Two's complement wrap-around of Go's [int64] and [int32] arithmetic. *)
Definition wrap (w : Z) (n : Z) : Z := (n + 2 ^ (w - 1)) `mod` 2 ^ w - 2 ^ (w - 1).
Definition int64 (n : Z) : Z := wrap 64 n.

(** A Go computation that may panic. *)
Inductive go (A : Type) : Type :=
| Ret (a : A)
| Panic (msg : string).
Arguments Ret {A} a.
Arguments Panic {A} msg.

(** ** Comparison functions and stable sorting

    Go's comparison functions return an [int] of which only the sign counts. *)
Class CmpOrder {A} (cmp : A -> A -> Z) : Prop := {
  cmp_anti : forall x y, cmp x y < 0 <-> 0 < cmp y x;
  cmp_trans : forall x y z, cmp x y <= 0 -> cmp y z <= 0 -> cmp x z <= 0;
}.

(** [slices.SortStableFunc] as insertion sort: an element is placed before the
    later elements it does not exceed. *)
Fixpoint insert_by {A} (cmp : A -> A -> Z) (x : A) (l : list A) : list A :=
  match l with
  | [] => [x]
  | y :: l' => if cmp x y <=? 0 then x :: y :: l' else y :: insert_by cmp x l'
  end.

Definition sort_by {A} (cmp : A -> A -> Z) (l : list A) : list A :=
  foldr (insert_by cmp) [] l.

Definition cmp_le {A} (cmp : A -> A -> Z) (x y : A) : Prop := cmp x y <= 0.

Lemma insert_by_perm {A} (cmp : A -> A -> Z) x l : insert_by cmp x l ≡ₚ x :: l.
Proof.
  induction l as [|y l IH]; simpl; [done|].
  case_match; [done|]. by rewrite IH, Permutation_swap.
Qed.

Lemma sort_by_perm {A} (cmp : A -> A -> Z) l : sort_by cmp l ≡ₚ l.
Proof.
  induction l as [|x l IH]; simpl; [done|].
  by rewrite insert_by_perm, IH.
Qed.

Lemma sort_by_length {A} (cmp : A -> A -> Z) l : length (sort_by cmp l) = length l.
Proof. by rewrite (sort_by_perm cmp l). Qed.

Lemma elem_of_sort_by {A} (cmp : A -> A -> Z) l x : x ∈ sort_by cmp l <-> x ∈ l.
Proof. by rewrite (sort_by_perm cmp l). Qed.

Section Sorting.
Context {A : Type} (cmp : A -> A -> Z) `{!CmpOrder cmp}.

Lemma cmp_total x y : cmp x y <= 0 \/ cmp y x <= 0.
Proof.
  destruct (Z.le_gt_cases (cmp x y) 0) as [|H]; [by left|right].
  apply cmp_anti in H. lia.
Qed.

Lemma cmp_refl x : cmp x x = 0.
Proof.
  destruct (Z.lt_trichotomy (cmp x x) 0) as [H|[H|H]]; [|done|].
  - pose proof (proj1 (cmp_anti x x) H). lia.
  - pose proof (proj2 (cmp_anti x x) H). lia.
Qed.

Lemma insert_by_sorted x l :
  StronglySorted (cmp_le cmp) l -> StronglySorted (cmp_le cmp) (insert_by cmp x l).
Proof.
  induction 1 as [|y l Hs IH Hy]; simpl; [repeat constructor|].
  destruct (Z.leb_spec (cmp x y) 0) as [Hle|Hgt].
  - constructor; [by constructor|]. constructor; [done|].
    eapply Forall_impl; [exact Hy|]. intros z Hz. by eapply cmp_trans.
  - constructor; [done|]. rewrite insert_by_perm. constructor; [|done].
    destruct (cmp_total y x); [done|lia].
Qed.

Lemma sort_by_sorted l : StronglySorted (cmp_le cmp) (sort_by cmp l).
Proof. induction l; simpl; [constructor|by apply insert_by_sorted]. Qed.

(** The first element of the sorted list is a minimum of the list. *)
Lemma sort_by_head l x l' :
  sort_by cmp l = x :: l' -> x ∈ l /\ forall y, y ∈ l -> cmp x y <= 0.
Proof.
  intros E. pose proof (sort_by_sorted l) as Hs. rewrite E in Hs.
  inversion Hs as [|? ? _ Hx]; subst.
  assert (Hp : x :: l' ≡ₚ l) by (rewrite <- E; apply sort_by_perm).
  split; [rewrite <- Hp; set_solver|].
  intros y Hy. rewrite <- Hp in Hy. apply elem_of_cons in Hy as [->|Hy].
  - rewrite cmp_refl. lia.
  - rewrite Forall_forall in Hx. by apply Hx.
Qed.

(** Sorting lists without ties is insensitive to the order of the input. *)
Lemma sorted_unique l1 l2 :
  l1 ≡ₚ l2 ->
  StronglySorted (cmp_le cmp) l1 -> StronglySorted (cmp_le cmp) l2 ->
  (forall x y, x ∈ l1 -> y ∈ l1 -> cmp x y = 0 -> x = y) -> l1 = l2.
Proof.
  revert l2. induction l1 as [|x l1 IH]; intros l2 Hp H1 H2 Hu.
  { apply Permutation_nil_l in Hp. done. }
  destruct l2 as [|y l2]; [by apply Permutation_nil_r in Hp|].
  inversion H1 as [|? ? H1' Hx]; inversion H2 as [|? ? H2' Hy]; subst.
  rewrite Forall_forall in Hx, Hy.
  assert (x = y) as ->.
  { assert (x ∈ y :: l2) as Hin by (rewrite <- Hp; set_solver).
    assert (y ∈ x :: l1) as Hin' by (rewrite Hp; set_solver).
    apply elem_of_cons in Hin as [|Hin]; [done|].
    apply elem_of_cons in Hin' as [|Hin']; [done|].
    specialize (Hx _ Hin'). specialize (Hy _ Hin). unfold cmp_le in *.
    apply Hu; [set_solver..|].
    destruct (Z.eq_dec (cmp x y) 0) as [|Hn]; [done|].
    assert (cmp x y < 0) as Hlt by lia. apply cmp_anti in Hlt. lia. }
  f_equal. apply IH; [by eapply Permutation_cons_inv|done..|].
  intros a b Ha Hb. apply Hu; set_solver.
Qed.

Lemma sort_by_permutation l1 l2 :
  l1 ≡ₚ l2 ->
  (forall x y, x ∈ l1 -> y ∈ l1 -> cmp x y = 0 -> x = y) ->
  sort_by cmp l1 = sort_by cmp l2.
Proof.
  intros Hp Hu. apply sorted_unique; [by rewrite !sort_by_perm|apply sort_by_sorted..|].
  intros x y. rewrite !elem_of_sort_by. apply Hu.
Qed.

End Sorting.

#[export] Hint Resolve sort_by_perm insert_by_perm sort_by_sorted : olm.

(** ** Orders on Go's basic types *)

Lemma nat_of_ascii_inj c d : nat_of_ascii c = nat_of_ascii d -> c = d.
Proof. intros H. by rewrite <- (ascii_nat_embedding c), H, ascii_nat_embedding. Qed.

Lemma string_cmp_eq a b : string_cmp a b = 0 <-> a = b.
Proof.
  revert b. induction a as [|c a IH]; intros [|d b]; simpl; try (split; intros; discriminate || done).
  destruct (Nat.compare_spec (nat_of_ascii c) (nat_of_ascii d)) as [E|E|E].
  - rewrite IH. split; [intros ->; f_equal; by apply nat_of_ascii_inj|intros H; by inversion H].
  - split; [discriminate|]. intros H; inversion H; subst; lia.
  - split; [discriminate|]. intros H; inversion H; subst; lia.
Qed.

#[export] Instance string_cmp_order : CmpOrder string_cmp.
Proof.
  split.
  - induction x as [|c x IH]; intros [|d y]; simpl; try lia.
    rewrite (Nat.compare_antisym (nat_of_ascii c) (nat_of_ascii d)).
    destruct (Nat.compare (nat_of_ascii c) (nat_of_ascii d)) eqn:E; simpl; [apply IH|lia..].
  - induction x as [|c x IH]; intros [|d y] [|e z]; simpl; try lia.
    destruct (Nat.compare_spec (nat_of_ascii c) (nat_of_ascii d)) as [E|E|E],
      (Nat.compare_spec (nat_of_ascii d) (nat_of_ascii e)) as [F|F|F],
      (Nat.compare_spec (nat_of_ascii c) (nat_of_ascii e)) as [G|G|G];
      try lia; apply IH.
Qed.

#[export] Instance int_cmp_order : CmpOrder int_cmp.
Proof.
  split; unfold int_cmp; intros.
  - destruct (Z.ltb_spec x y), (Z.ltb_spec y x); lia.
  - destruct (Z.ltb_spec x y), (Z.ltb_spec y x), (Z.ltb_spec y z), (Z.ltb_spec z y),
      (Z.ltb_spec x z), (Z.ltb_spec z x); lia.
Qed.

Lemma int_cmp_le a b : int_cmp a b <= 0 <-> a <= b.
Proof. unfold int_cmp. destruct (Z.ltb_spec a b), (Z.ltb_spec b a); lia. Qed.

Lemma int_cmp_eq a b : int_cmp a b = 0 <-> a = b.
Proof. unfold int_cmp. destruct (Z.ltb_spec a b), (Z.ltb_spec b a); lia. Qed.

(** Comparing by a key inherits the order, ... *)
Lemma cmp_on_order {A B} (f : A -> B) (cmp : B -> B -> Z) `{!CmpOrder cmp} :
  CmpOrder (fun x y => cmp (f x) (f y)).
Proof.
  split; intros.
  - apply (cmp_anti (cmp := cmp)).
  - by eapply (cmp_trans (cmp := cmp)).
Qed.

(** ... and so does comparing first by one function and then by another. *)
Definition cmp_then {A} (c1 c2 : A -> A -> Z) (x y : A) : Z :=
  if c1 x y =? 0 then c2 x y else c1 x y.

Lemma cmp_then_order {A} (c1 c2 : A -> A -> Z) `{!CmpOrder c1} `{!CmpOrder c2} :
  CmpOrder (cmp_then c1 c2).
Proof.
  assert (Hz : forall x y, c1 x y = 0 <-> c1 y x = 0).
  { intros x y. pose proof (cmp_anti (cmp := c1) x y). pose proof (cmp_anti (cmp := c1) y x). lia. }
  split; unfold cmp_then.
  - intros x y. pose proof (Hz x y). pose proof (cmp_anti (cmp := c1) x y).
    pose proof (cmp_anti (cmp := c2) x y).
    destruct (Z.eqb_spec (c1 x y) 0), (Z.eqb_spec (c1 y x) 0); lia.
  - intros x y z Hxy Hyz.
    assert (H1 : c1 x z <= 0).
    { apply (cmp_trans (cmp := c1) x y z);
        [destruct (Z.eqb_spec (c1 x y) 0)|destruct (Z.eqb_spec (c1 y z) 0)]; lia. }
    destruct (Z.eqb_spec (c1 x z) 0) as [E|E]; [|lia].
    (* x and z tie on the first key: so do x, y and y, z *)
    assert (Hyx : c1 y x <= 0).
    { apply (cmp_trans (cmp := c1) y z x); [destruct (Z.eqb_spec (c1 y z) 0); lia|].
      apply Hz in E. lia. }
    assert (Hzy : c1 z y <= 0).
    { apply (cmp_trans (cmp := c1) z x y); [apply Hz in E; lia|].
      destruct (Z.eqb_spec (c1 x y) 0); lia. }
    pose proof (cmp_anti (cmp := c1) x y). pose proof (cmp_anti (cmp := c1) y z).
    destruct (Z.eqb_spec (c1 x y) 0), (Z.eqb_spec (c1 y z) 0); try lia.
    by eapply (cmp_trans (cmp := c2)).
Qed.

(** ** Strings: splitting and joining *)

Lemma strings_Split_nonempty c s : strings_Split c s <> [].
Proof. destruct s; simpl; [done|]. case_decide; [done|]. by case_match. Qed.

(** A string without the separator is one segment. *)
Fixpoint str_has (c : ascii) (s : string) : bool :=
  match s with
  | EmptyString => false
  | String d s' => bool_decide (d = c) || str_has c s'
  end.

Lemma str_drop_length n s : (String.length (str_drop n s) <= String.length s)%nat.
Proof. revert n. induction s as [|c s IH]; intros [|n]; cbn; try lia. specialize (IH n). lia. Qed.

Lemma str_has_app c a b : str_has c (a +:+ b) = str_has c a || str_has c b.
Proof. induction a as [|d a IH]; [done|]. change (String d a +:+ b) with (String d (a +:+ b)). cbn. by rewrite IH, orb_assoc. Qed.

Lemma Split_no_sep c s : str_has c s = false -> strings_Split c s = [s].
Proof.
  induction s as [|d s IH]; simpl; [done|]. intros [H1 H2]%orb_false_iff.
  apply bool_decide_eq_false in H1. rewrite decide_False by done. by rewrite IH.
Qed.

Lemma Split_app_sep c s t :
  str_has c s = false ->
  strings_Split c (s +:+ String c t) = s :: strings_Split c t.
Proof.
  induction s as [|d s IH]; simpl; [intros _; by rewrite decide_True|].
  intros [H1 H2]%orb_false_iff. apply bool_decide_eq_false in H1.
  rewrite decide_False by done. by rewrite IH.
Qed.

(** Joining separator-free segments and splitting again is the identity. *)
Lemma Split_Join c l :
  l <> [] -> Forall (fun s => str_has c s = false) l ->
  strings_Split c (strings_Join l (String c EmptyString)) = l.
Proof.
  intros Hn Hf. induction Hf as [|s l Hs Hf IH]; [done|].
  destruct l as [|s' l]; simpl; [by apply Split_no_sep|].
  change (String c EmptyString +:+ ?x) with (String c x).
  rewrite Split_app_sep by done. f_equal. apply IH. done.
Qed.

(** ** The state monad of effectful code

    [IO W A] threads the part of the world [W] a component acts on; the
    components instantiate [W] with the history of their API calls. *)
Definition IO (W A : Type) : Type := W -> A * W.

Definition io_ret {W A} (a : A) : IO W A := fun w => (a, w).

Definition io_bind {W A B} (m : IO W A) (k : A -> IO W B) : IO W B :=
  fun w => let '(a, w') := m w in k a w'.

Notation "'let*' x ':=' m 'in' k" :=
  (io_bind m (fun x => k)) (at level 10, x pattern, m at level 100, k at level 200) : olm_scope.
Open Scope olm_scope.

Lemma io_bind_ret {W A B} (a : A) (k : A -> IO W B) w : io_bind (io_ret a) k w = k a w.
Proof. done. Qed.

Lemma io_bind_run {W A B} (m : IO W A) (k : A -> IO W B) w :
  io_bind m k w = k (m w).1 (m w).2.
Proof. unfold io_bind. by destruct (m w). Qed.

(** ** Histories

    A component acts on its collaborators by asking them; what was asked is
    appended to the history, and the answer may depend on all that was asked
    before.  [wp h m Q]: run after the history [h], [m] only appends to it, and
    [Q] holds of its result and of what it appended. *)
Definition ask {Ev A} (ev : Ev) (answer : list Ev -> A) : IO (list Ev) A := fun h => (answer h, h ++ [ev]).

Definition wp {Ev A} (h : list Ev) (m : IO (list Ev) A) (Q : A -> list Ev -> Prop) : Prop :=
  exists t, (m h).2 = h ++ t /\ Q (m h).1 t.

Lemma wp_ret {Ev A} (h : list Ev) (a : A) (Q : A -> list Ev -> Prop) : Q a [] -> wp h (io_ret a) Q.
Proof. intros HQ. exists []. by rewrite app_nil_r. Qed.

Lemma wp_ask {Ev A} (h : list Ev) ev (f : list Ev -> A) (Q : A -> list Ev -> Prop) : Q (f h) [ev] -> wp h (ask ev f) Q.
Proof. intros HQ. by exists [ev]. Qed.

Lemma wp_bind {Ev A B} (h : list Ev) (m : IO (list Ev) A) (k : A -> IO (list Ev) B) (R : B -> list Ev -> Prop) :
  wp h m (fun a t => wp (h ++ t) (k a) (fun b t' => R b (t ++ t'))) -> wp h (io_bind m k) R.
Proof.
  intros (t & Et & t' & Et' & HR). exists (t ++ t'). rewrite io_bind_run, Et, Et', app_assoc. done.
Qed.

Lemma wp_weaken {Ev A} (h : list Ev) (m : IO (list Ev) A) (Q R : A -> list Ev -> Prop) :
  wp h m Q -> (forall a t, Q a t -> R a t) -> wp h m R.
Proof. intros (t & Et & HQ) HQR. exists t. auto. Qed.

(** What a run leaves behind. *)
Lemma wp_run {Ev A} (m : IO (list Ev) A) (Q : A -> list Ev -> Prop) h a h' :
  wp h m Q -> m h = (a, h') -> exists t, h' = h ++ t /\ Q a t.
Proof. intros (t & Et & HQ) E. rewrite E in *. by exists t. Qed.

(** ** Lists *)

Lemma last_elem_of {A} (l : list A) x : last l = Some x -> x ∈ l.
Proof. rewrite last_lookup. apply list_elem_of_lookup_2. Qed.

(** The last element of a sorted list is its greatest. *)
Lemma sorted_last {A} (R : A -> A -> Prop) l y :
  StronglySorted R l -> last l = Some y -> forall x, x ∈ l -> x = y \/ R x y.
Proof.
  induction 1 as [|z l Hs IH Hz]; [done|]. intros Hl x Hx. destruct l as [|z' l].
  - injection Hl as ->. left. set_solver.
  - cbn in Hl. apply elem_of_cons in Hx as [->|Hx]; [|by apply IH]. right.
    rewrite Forall_forall in Hz. apply Hz. by apply last_elem_of.
Qed.

Lemma forallb_elem {A} (f : A -> bool) l :
  forallb f l = true <-> forall x, x ∈ l -> f x = true.
Proof. rewrite forallb_forall. by setoid_rewrite list_elem_of_In. Qed.

Lemma existsb_elem {A} (f : A -> bool) l :
  existsb f l = true <-> exists x, x ∈ l /\ f x = true.
Proof. rewrite existsb_exists. by setoid_rewrite list_elem_of_In. Qed.

Lemma StronglySorted_weaken_le {A} (R S : A -> A -> Prop) l :
  (forall x y, R x y -> S x y) -> StronglySorted R l -> StronglySorted S l.
Proof.
  intros H. induction 1 as [|x l _ IH Hx]; constructor; [done|]. eapply Forall_impl; [exact Hx|]. auto.
Qed.

(** ** Strings and machine integers *)

Lemma str_app_assoc a b c : a +:+ (b +:+ c) = (a +:+ b) +:+ c.
Proof. induction a as [|x a IH]; [done|]. exact (f_equal (String x) IH). Qed.

Lemma str_app_nil a : a +:+ EmptyString = a.
Proof. induction a as [|x a IH]; [done|]. exact (f_equal (String x) IH). Qed.

Lemma length_app_str a b : String.length (a +:+ b) = (String.length a + String.length b)%nat.
Proof. induction a; simpl; [done|]. by rewrite IHa. Qed.

Lemma slen_app a b : slen (a +:+ b) = slen a + slen b.
Proof. unfold slen. rewrite length_app_str. lia. Qed.

Lemma slen_nonneg s : 0 <= slen s.
Proof. unfold slen. lia. Qed.

Lemma int64_id n : - 2 ^ 63 <= n < 2 ^ 63 -> int64 n = n.
Proof. intros Hn. unfold int64, wrap. change (64 - 1) with 63. rewrite Z.mod_small; lia. Qed.

Lemma str_takeZ_all n s : slen s <= n -> str_takeZ n s = s.
Proof.
  unfold slen. revert n. induction s as [|c s IH]; intros n H; [done|]. cbn [str_takeZ String.length] in *.
  destruct (Z.leb_spec n 0); [lia|]. rewrite IH; [done|lia].
Qed.

Lemma str_takeZ_length n s : 0 <= n -> slen (str_takeZ n s) = Z.min n (slen s).
Proof.
  unfold slen. revert n. induction s as [|c s IH]; intros n H; cbn [str_takeZ String.length]; [lia|].
  destruct (Z.leb_spec n 0); cbn [String.length]; [lia|]. specialize (IH (n - 1)). lia.
Qed.

(** Keys that occur once determine their entry. *)
Lemma NoDup_fst_unique {A B} (l : list (A * B)) x y :
  NoDup (map fst l) -> x ∈ l -> y ∈ l -> x.1 = y.1 -> x = y.
Proof.
  induction l as [|z l IH]; cbn [map]; [intros _ H; by apply not_elem_of_nil in H|].
  intros [Hz Hn]%NoDup_cons [->|Hx]%elem_of_cons [->|Hy]%elem_of_cons He; [done| | |by apply IH].
  - exfalso. apply Hz. rewrite He. apply list_elem_of_fmap. by exists y.
  - exfalso. apply Hz. rewrite <- He. apply list_elem_of_fmap. by exists x.
Qed.
