(* ===== verification/GoErrors.v ===== *)
(** * Go errors and terminal errors

    The error values the controllers pass around, and the helpers of
    src/internal/shared/util/error/terminal.go that classify them.

    An error is kept as the tree Go builds: [ENew] is a leaf made by
    errors.New, or by fmt.Errorf without a wrapping verb; [EWrap] is
    fmt.Errorf with one wrapped error (the text before and after it);
    [EJoin] is errors.Join of non-nil errors; [ETerminal] is
    reconcile.TerminalError and [EReason] the terminalErrorWithReason of
    terminal.go; [EApi] is an error a library reports with a kind the code
    tests for (IsNotFound, IsAlreadyExists, ...).  A nil error is [None] of
    [option error]. *)

From S2P Require Import Prelude.

(** The error kinds the code distinguishes. *)
Inductive api_kind :=
| KNotFound        (* apierrors.IsNotFound *)
| KAlreadyExists   (* apierrors.IsAlreadyExists *)
| KInvalid         (* apierrors.IsInvalid *)
| KNoMatch         (* apimeta.IsNoMatchError *)
| KReleaseNotFound (* driver.ErrReleaseNotFound *)
| KNotExist        (* fs.ErrNotExist *)
| KPermission      (* fs.ErrPermission *)
| KInvalidParams   (* errInvalidParams of catalogd's storage *)
| KOther.

#[export] Instance api_kind_eq_dec : EqDecision api_kind.
Proof. solve_decision. Defined.

Inductive error :=
| ENew (msg : string)
| EApi (k : api_kind) (msg : string)
| EWrap (pre : string) (e : error) (post : string)
| ETerminal (e : error)
| EReason (reason : string) (e : error)
| EJoin (es : list error).

(** A fallible result: the value or the error. *)
Abbreviation result A := (error + A)%type.

(** [err.Error()]. *)
Fixpoint Error (e : error) : string :=
  match e with
  | ENew m => m
  | EApi _ m => m
  | EWrap pre e post => pre +:+ Error e +:+ post
  | ETerminal e => "terminal error: " +:+ Error e
  | EReason _ e => Error e
  | EJoin es => strings_Join (map Error es) nl
  end.

(** [errors.Unwrap]: the error a wrapping error holds; nil for a joined one. *)
Definition errors_Unwrap (e : error) : option error :=
  match e with
  | ENew _ | EApi _ _ | EJoin _ => None
  | EWrap _ e' _ => Some e'
  | ETerminal e' => Some e'
  | EReason _ e' => Some e'
  end.

(** [errors.Is(err, reconcile.TerminalError(nil))]: a terminal error occurs
    in the tree. *)
Fixpoint is_terminal (e : error) : bool :=
  match e with
  | ENew _ | EApi _ _ => false
  | EWrap _ e' _ => is_terminal e'
  | ETerminal _ => true
  | EReason _ e' => is_terminal e'
  | EJoin es => existsb is_terminal es
  end.

(** [errors.As(err, &terr)] for a terminalErrorWithReason: the reason of the
    first one in a depth-first walk of the tree. *)
Fixpoint as_reason (e : error) : option string :=
  match e with
  | ENew _ | EApi _ _ => None
  | EWrap _ e' _ => as_reason e'
  | ETerminal e' => as_reason e'
  | EReason r _ => Some r
  | EJoin es =>
      (fix go (l : list error) : option string :=
         match l with
         | [] => None
         | x :: l' => match as_reason x with Some r => Some r | None => go l' end
         end) es
  end.

(** The kind tests walk the wrapped errors too ([errors.As] of a status
    error, [errors.Is] of a sentinel). *)
Fixpoint has_kind (k : api_kind) (e : error) : bool :=
  match e with
  | ENew _ => false
  | EApi k' _ => bool_decide (k = k')
  | EWrap _ e' _ | ETerminal e' | EReason _ e' => has_kind k e'
  | EJoin es => existsb (has_kind k) es
  end.

(** [errors.Join]: nil when every argument is nil. *)
Definition errors_Join (es : list (option error)) : option error :=
  match omap id es with
  | [] => None
  | l => Some (EJoin l)
  end.

(** [client.IgnoreNotFound(err)]. *)
Definition IgnoreNotFound (e : error) : option error :=
  if has_kind KNotFound e then None else Some e.

(** ** terminal.go *)

(** func NewTerminalError(reason string, err error) error *)
Definition NewTerminalError (reason : string) (err : error) : error :=
  ETerminal (EReason reason err).

(** func ExtractTerminalReason(err error) (string, bool) *)
Definition ExtractTerminalReason (err : option error) : option string :=
  match err with
  | None => None
  | Some e =>
      match errors_Unwrap e with
      | None => None
      | Some unwrapped => as_reason unwrapped
      end
  end.

(** func WrapTerminal(err error, isTerminal bool) error *)
Definition WrapTerminal (err : option error) (isTerminal : bool) : option error :=
  match err with
  | None => None
  | Some e => if isTerminal then Some (ETerminal e) else Some e
  end.

(** func UnwrapTerminal(err error) error *)
Definition UnwrapTerminal (err : option error) : option error :=
  match err with
  | None => None
  | Some e =>
      if is_terminal e then
        match errors_Unwrap e with
        | Some unwrapped => Some unwrapped
        | None => Some e
        end
      else Some e
  end.

(** ** Properties *)

Lemma omap_id_Some {A} (l : list A) : omap id (map Some l) = l.
Proof. induction l; simpl; [done|]. by f_equal. Qed.

Lemma errors_Join_map l :
  errors_Join (map Some l) = match l with [] => None | _ => Some (EJoin l) end.
Proof. unfold errors_Join. rewrite omap_id_Some. by destruct l. Qed.

(** A reason attached with NewTerminalError is found again, whatever context
    fmt.Errorf added around it. *)
Fixpoint wrap_all (ctx : list (string * string)) (e : error) : error :=
  match ctx with
  | [] => e
  | (pre, post) :: ctx' => EWrap pre (wrap_all ctx' e) post
  end.

Lemma as_reason_wrap_all ctx e : as_reason (wrap_all ctx e) = as_reason e.
Proof. by induction ctx as [|[pre post] ctx IH]. Qed.

Lemma is_terminal_wrap_all ctx e : is_terminal (wrap_all ctx e) = is_terminal e.
Proof. by induction ctx as [|[pre post] ctx IH]. Qed.

Lemma ExtractTerminalReason_wrapped ctx reason err :
  ExtractTerminalReason (Some (wrap_all ctx (NewTerminalError reason err))) = Some reason.
Proof.
  destruct ctx as [|[pre post] ctx]; simpl; [done|]. by rewrite as_reason_wrap_all.
Qed.

(** A terminal error that is not itself wrapped loses exactly the terminal
    wrapper, so that its message carries no prefix. *)
Lemma UnwrapTerminal_direct e : UnwrapTerminal (Some (ETerminal e)) = Some e.
Proof. done. Qed.

Lemma UnwrapTerminal_not_terminal e :
  is_terminal e = false -> UnwrapTerminal (Some e) = Some e.
Proof. simpl. by intros ->. Qed.

(** With context added around the terminal error the helper drops that
    context instead, and the prefix stays in the message. *)
Lemma UnwrapTerminal_wrapped pre e post :
  UnwrapTerminal (Some (EWrap pre (ETerminal e) post)) = Some (ETerminal e).
Proof. done. Qed.

#[export] Hint Rewrite as_reason_wrap_all is_terminal_wrap_all : olm_simp.
