(* ===== verification/VersionRelease.v ===== *)
(** * Versions, releases and the order on bundles

    - src/internal/operator-controller/bundle/versionrelease.go:
      [VersionRelease], [Release], their parsing and comparison;
    - src/internal/operator-controller/bundleutil/bundle.go;
    - src/internal/operator-controller/catalogmetadata/compare/compare.go.

    The semver library blang/semver is not part of the repository: it is the
    interface [BSemver], with the documented facts the code relies on as its
    laws, and the theorems are proved against the interface. *)

From S2P Require Import Prelude GoErrors.

(** ** The interface of blang/semver *)

(** bsemver.PRVersion: one dot-separated identifier. *)
Record PRVersion := mkPR { VersionStr : string; VersionNum : Z; IsNum : bool }.

(** bsemver.Version. *)
Record Version := mkVersion {
  Major : Z;
  Minor : Z;
  Patch : Z;
  Pre : list PRVersion;
  Build : list string;
}.

#[export] Instance PRVersion_eq_dec : EqDecision PRVersion.
Proof. solve_decision. Defined.
#[export] Instance Version_eq_dec : EqDecision Version.
Proof. solve_decision. Defined.

Definition with_Build (v : Version) (b : list string) : Version :=
  mkVersion (Major v) (Minor v) (Patch v) (Pre v) b.

Definition pre_only (p : list PRVersion) : Version := mkVersion 0 0 0 p [].

Definition dot : Ascii.ascii := Ascii.ascii_of_nat 46.
Definition dot_str : string := String dot EmptyString.

Class BSemver := {
  (* operations *)
  semver_Parse : string -> result Version;
  NewPRVersion : string -> result PRVersion;
  PR_String : PRVersion -> string;
  Version_String : Version -> string;
  Version_Compare : Version -> Version -> Z;
  ParseRange : string -> result (Version -> bool);
  (* laws: precedence is a total preorder that ignores build metadata, *)
  Version_Compare_order : CmpOrder Version_Compare;
  Version_Compare_build : forall v w b, Version_Compare (with_Build v b) w = Version_Compare v w;
  (* a longer list of pre-release identifiers has the higher precedence when
     the preceding ones are equal, *)
  Version_Compare_prefix : forall p q,
    p <> [] -> q <> [] -> Version_Compare (pre_only p) (pre_only (p ++ q)) < 0;
  (* an identifier prints as the text it was parsed from, *)
  NewPRVersion_String : forall s p, NewPRVersion s = inr p -> PR_String p = s;
  (* a parsed version holds non-empty, dot-free build identifiers and parses
     back from its own printed form. *)
  Parse_Build : forall s v, semver_Parse s = inr v ->
    Forall (fun b => b <> EmptyString /\ str_has dot b = false) (Build v);
  Parse_String : forall s v, semver_Parse s = inr v -> semver_Parse (Version_String v) = inr v;
}.

#[export] Existing Instance Version_Compare_order.

Section VersionRelease.
Context `{SV : BSemver}.

(** ** versionrelease.go *)

(** type Release []bsemver.PRVersion *)
Definition Release := list PRVersion.

(** type VersionRelease struct *)
Record VersionRelease := mkVR { vr_Version : Version; vr_Release : Release }.

(** One iteration of NewRelease's loop for segment [i]. *)
Definition parse_segment (i : nat) (segment : string) : result PRVersion :=
  match NewPRVersion segment with
  | inl err => inl (ENew ("segment " +:+ fmt_d (Z.of_nat i) +:+ ": " +:+ Error err))
  | inr prVer => inr prVer
  end.

Fixpoint parse_segments (i : nat) (segments : list string) : list error * Release :=
  match segments with
  | [] => ([], [])
  | s :: rest =>
      let '(errs, r) := parse_segments (S i) rest in
      match parse_segment i s with
      | inl e => (e :: errs, r)
      | inr p => (errs, p :: r)
      end
  end.

(** func NewRelease(relStr string) (Release, error) *)
Definition NewRelease (relStr : string) : result Release :=
  if bool_decide (relStr = EmptyString) then inr []
  else
    let segments := strings_Split dot relStr in
    let '(errs, r) := parse_segments 0 segments in
    match errors_Join (map Some errs) with
    | Some err => inl (ENew ("invalid release " +:+ fmt_q relStr +:+ ": " +:+ Error err))
    | None => inr r
    end.

(** func NewLegacyRegistryV1VersionRelease(vStr string) *)
Definition NewLegacyRegistryV1VersionRelease (vStr : string) : result VersionRelease :=
  match semver_Parse vStr with
  | inl err => inl err
  | inr vers =>
      match NewRelease (strings_Join (Build vers) dot_str) with
      | inr rel => inr (mkVR (with_Build vers []) rel)
      | inl _ => inr (mkVR vers [])
      end
  end.

(** func (r Release) Compare(other Release) int *)
Definition Release_Compare (r other : Release) : Z :=
  match r, other with
  | [], _ :: _ => -1
  | _ :: _, [] => 1
  | _, _ => Version_Compare (pre_only r) (pre_only other)
  end.

(** func (vr VersionRelease) Compare(other VersionRelease) int *)
Definition VersionRelease_Compare (vr other : VersionRelease) : Z :=
  let vCmp := Version_Compare (vr_Version vr) (vr_Version other) in
  if vCmp =? 0 then Release_Compare (vr_Release vr) (vr_Release other) else vCmp.

(** func (vr VersionRelease) AsLegacyRegistryV1Version() bsemver.Version *)
Definition AsLegacyRegistryV1Version (vr : VersionRelease) : Version :=
  match vr_Release vr with
  | [] => vr_Version vr
  | rel => with_Build (vr_Version vr) (map PR_String rel)
  end.

(** *** Properties of releases *)

Lemma parse_segments_errs i segs errs r :
  parse_segments i segs = (errs, r) ->
  errs = [] <-> Forall2 (fun s p => NewPRVersion s = inr p) segs r.
Proof.
  revert i errs r. induction segs as [|s segs IH]; intros i errs r; simpl.
  { intros [= <- <-]. split; [constructor|done]. }
  destruct (parse_segments (S i) segs) as [errs' r'] eqn:E. specialize (IH _ _ _ E).
  unfold parse_segment. destruct (NewPRVersion s) as [e|p] eqn:Es; intros [= <- <-].
  - split; [discriminate|]. intros H. apply Forall2_cons_inv_l in H as (p & ? & H & _).
    congruence.
  - rewrite IH. split; [by constructor|]. by intros [_ H]%Forall2_cons.
Qed.

(** A non-empty release string is accepted exactly when every dot-separated
    segment is a valid identifier, and the result lists those identifiers. *)
Lemma NewRelease_ok s r :
  s <> EmptyString ->
  NewRelease s = inr r <->
  Forall2 (fun seg p => NewPRVersion seg = inr p) (strings_Split dot s) r.
Proof.
  intros Hs. unfold NewRelease. rewrite bool_decide_eq_false_2 by done.
  destruct (parse_segments 0 (strings_Split dot s)) as [errs r'] eqn:E.
  pose proof (parse_segments_errs _ _ _ _ E) as H.
  rewrite errors_Join_map. destruct errs as [|e errs].
  - split; [intros [= <-]; by apply H|]. intros Hr. f_equal.
    assert (H' := proj1 H eq_refl). clear -Hr H'. revert Hr.
    generalize dependent r. induction H' as [|a b l k Hab _ IH]; intros r Hr.
    + by inversion Hr.
    + apply Forall2_cons_inv_l in Hr as (c & r' & Hac & Hr & ->). f_equal; [congruence|].
      by apply IH.
  - split; [discriminate|].
    intros Hr. exfalso. clear H.
    assert (Hnil : forall i segs r, Forall2 (fun s p => NewPRVersion s = inr p) segs r ->
                     (parse_segments i segs).1 = []).
    { clear. intros i segs r H. revert i. induction H as [|a b l k Hab _ IH]; intros i; [done|].
      simpl. specialize (IH (S i)). destruct (parse_segments (S i) l) as [x y]; simpl in *.
      unfold parse_segment. rewrite Hab. done. }
    specialize (Hnil 0%nat _ _ Hr). rewrite E in Hnil. done.
Qed.

Lemma strings_of_segments segs r :
  Forall2 (fun s p => NewPRVersion s = inr p) segs r -> map PR_String r = segs.
Proof.
  induction 1 as [|s p segs r H _ IH]; simpl; [done|].
  by rewrite (NewPRVersion_String s p H), IH.
Qed.

(** The release accepted from joined dot-free identifiers prints back as them. *)
Lemma NewRelease_Join b r :
  Forall (fun x => x <> EmptyString /\ str_has dot x = false) b ->
  NewRelease (strings_Join b dot_str) = inr r ->
  map PR_String r = b.
Proof.
  intros Hb H. destruct b as [|x b].
  { unfold NewRelease in H. simpl in H. by inversion H. }
  assert (Hne : strings_Join (x :: b) dot_str <> EmptyString).
  { apply Forall_cons in Hb as [[Hx _] _]. simpl. destruct b; [done|]. by destruct x. }
  apply NewRelease_ok in H; [|done]. apply strings_of_segments in H.
  rewrite H. apply Split_Join; [done|]. eapply Forall_impl; [exact Hb|]. by intros y [_ ?].
Qed.

Lemma with_Build_eta v : with_Build v (Build v) = v.
Proof. by destruct v. Qed.

(** Parsing a bundle version and converting back gives the parsed semver. *)
Lemma NewLegacy_AsLegacy vStr vr :
  NewLegacyRegistryV1VersionRelease vStr = inr vr ->
  semver_Parse vStr = inr (AsLegacyRegistryV1Version vr).
Proof.
  unfold NewLegacyRegistryV1VersionRelease.
  destruct (semver_Parse vStr) as [|v] eqn:Ev; [discriminate|].
  pose proof (Parse_Build _ _ Ev) as Hb.
  destruct (NewRelease _) as [|rel] eqn:Er; intros [= <-]; [done|].
  pose proof (NewRelease_Join _ _ Hb Er) as Hr. unfold AsLegacyRegistryV1Version; simpl.
  destruct rel as [|p rel]; simpl in *.
  - rewrite Hr. f_equal. by destruct v; simpl in *; subst.
  - rewrite Hr. f_equal. by destruct v.
Qed.

(** Re-reading the version recorded for a resolved bundle gives the same
    version and release: an installed bundle is recognised as itself. *)
Lemma NewLegacy_String vStr vr :
  NewLegacyRegistryV1VersionRelease vStr = inr vr ->
  NewLegacyRegistryV1VersionRelease (Version_String (AsLegacyRegistryV1Version vr)) = inr vr.
Proof.
  intros H. pose proof (NewLegacy_AsLegacy _ _ H) as Hp. pose proof (Parse_String _ _ Hp) as Hs.
  revert H. unfold NewLegacyRegistryV1VersionRelease. by rewrite Hs, Hp.
Qed.

#[export] Instance Release_Compare_order : CmpOrder Release_Compare.
Proof.
  split.
  - intros [|p r] [|q s]; simpl; try lia; apply cmp_anti.
  - intros [|p r] [|q s] [|t u]; simpl; try lia; apply cmp_trans.
Qed.

(** A release is lower than any proper extension of it. *)
Lemma Release_Compare_prefix (r s : Release) : s <> [] -> Release_Compare r (r ++ s) < 0.
Proof.
  intros Hs. destruct r as [|p r]; simpl; [destruct s; [done|lia]|].
  by apply (Version_Compare_prefix (p :: r) s).
Qed.

#[export] Instance VersionRelease_Compare_order : CmpOrder VersionRelease_Compare.
Proof.
  exact (@cmp_then_order _ _ _ (cmp_on_order vr_Version Version_Compare)
           (cmp_on_order vr_Release Release_Compare)).
Qed.

End VersionRelease.

(** ** File-based catalog data (operator-registry's declcfg and property)

    The fields the code reads. *)
Record Property := mkProperty { prop_Type : string; prop_Value : string }.

Record Bundle := mkBundle {
  b_Name : string;
  b_Package : string;
  b_Image : string;
  b_Properties : list Property;
}.

Record ChannelEntry := mkEntry {
  ce_Name : string;
  ce_Replaces : string;
  ce_Skips : list string;
  ce_SkipRange : string;
}.

Record Channel := mkChannel { ch_Name : string; ch_Entries : list ChannelEntry }.

Record PackageScopedReference := mkRef { ref_Schema : string; ref_Name : string }.

Record DeprecationEntry := mkDepEntry { de_Reference : PackageScopedReference; de_Message : string }.

Record Deprecation := mkDeprecation { d_Entries : list DeprecationEntry }.

(** declcfg.DeclarativeConfig; of packages and other blobs only the number is
    read. *)
Record DeclarativeConfig := mkFBC {
  fbc_Packages : list string;
  fbc_Channels : list Channel;
  fbc_Bundles : list Bundle;
  fbc_Deprecations : list Deprecation;
  fbc_Others : list string;
}.

Definition TypePackage : string := "olm.package".
Definition TypePackageRequired : string := "olm.package.required".
Definition TypeGVKRequired : string := "olm.gvk.required".
Definition TypeConstraint : string := "olm.constraint".
Definition SchemaPackage : string := "olm.package".
Definition SchemaChannel : string := "olm.channel".
Definition SchemaBundle : string := "olm.bundle".

(** The zero value Go leaves in a slot that slices.DeleteFunc clears. *)
Definition zeroChannel : Channel := mkChannel EmptyString [].

#[export] Instance Property_eq_dec : EqDecision Property.
Proof. solve_decision. Defined.
#[export] Instance Bundle_eq_dec : EqDecision Bundle.
Proof. solve_decision. Defined.

(** The decoder of an olm.package property, json.Unmarshal into
    property.Package, of which the version is read. *)
Class PackageProperty := { unmarshal_package_version : string -> result string }.

Section Bundles.
Context `{SV : BSemver} `{PP : PackageProperty}.

(** ** bundleutil/bundle.go *)

(** func GetVersionAndRelease(b declcfg.Bundle) (..., error) *)
Fixpoint version_of_properties (name : string) (ps : list Property) : result VersionRelease :=
  match ps with
  | [] => inl (ENew ("no package property found in bundle " +:+ fmt_q name))
  | p :: ps' =>
      if bool_decide (prop_Type p = TypePackage) then
        match unmarshal_package_version (prop_Value p) with
        | inl err => inl (EWrap "error unmarshalling package property: " err "")
        | inr version => NewLegacyRegistryV1VersionRelease version
        end
      else version_of_properties name ps'
  end.

Definition GetVersionAndRelease (b : Bundle) : result VersionRelease :=
  version_of_properties (b_Name b) (b_Properties b).

(** ** compare/compare.go *)

(** func compareErrors(err1 error, err2 error) int *)
Definition compareErrors (err1 err2 : option error) : Z :=
  match err1, err2 with
  | Some _, None => -1
  | None, Some _ => 1
  | _, _ => 0
  end.

Definition err_of {A} (r : result A) : option error :=
  match r with inl e => Some e | inr _ => None end.

(** func ByVersionAndRelease(b1, b2 declcfg.Bundle) int *)
Definition ByVersionAndRelease (b1 b2 : Bundle) : Z :=
  match GetVersionAndRelease b1, GetVersionAndRelease b2 with
  | inr vr1, inr vr2 => VersionRelease_Compare vr2 vr1
  | r1, r2 => compareErrors (err_of r2) (err_of r1)
  end.

(** The set ByDeprecationFunc builds from the entries. *)
Definition deprecatedBundles (d : Deprecation) : gset string :=
  list_to_set (omap (fun e => if bool_decide (ref_Schema (de_Reference e) = SchemaBundle)
                              then Some (ref_Name (de_Reference e)) else None) (d_Entries d)).

(** func ByDeprecationFunc(deprecation declcfg.Deprecation) func(a, b declcfg.Bundle) int *)
Definition ByDeprecationFunc (d : Deprecation) (a b : Bundle) : Z :=
  let aDeprecated := bool_decide (b_Name a ∈ deprecatedBundles d) in
  let bDeprecated := bool_decide (b_Name b ∈ deprecatedBundles d) in
  if aDeprecated && negb bDeprecated then 1
  else if negb aDeprecated && bDeprecated then -1
  else 0.

(** *** Properties *)

#[export] Instance ByVersionAndRelease_order : CmpOrder ByVersionAndRelease.
Proof.
  unfold ByVersionAndRelease. split.
  - intros x y. destruct (GetVersionAndRelease x), (GetVersionAndRelease y); simpl; try lia.
    apply cmp_anti.
  - intros x y z.
    destruct (GetVersionAndRelease x), (GetVersionAndRelease y), (GetVersionAndRelease z);
      simpl; try lia.
    intros H1 H2. by eapply cmp_trans.
Qed.

#[export] Instance ByDeprecationFunc_order d : CmpOrder (ByDeprecationFunc d).
Proof.
  unfold ByDeprecationFunc. split.
  - intros x y. repeat case_bool_decide; simpl; lia.
  - intros x y z. repeat case_bool_decide; simpl; lia.
Qed.

End Bundles.
