(* ===== verification/ApiTypes.v ===== *)
(** * The API types of OLM v1

    src/api/v1/*.go (ClusterExtension, ClusterCatalog, ClusterObjectSet), the
    label keys of src/internal/operator-controller/labels/labels.go, the parts
    of Kubernetes' ObjectMeta the controllers read, and the interface
    [ConditionsAPI] of apimachinery's condition helpers.

    Enumerated strings stay strings with named constants, as in Go, so that
    the empty string is the unset value; integers are [Z]; a pointer or an
    optional struct is an [option]; a map is a [gmap].  The transition time of
    a condition is left out: no code of the repository reads it. *)

From S2P Require Import Prelude GoErrors.

(** ** Kubernetes metadata *)

(** The JSON-compatible content of unstructured.Unstructured. *)
Inductive json :=
| JNull
| JBool (b : bool)
| JNum (n : Z)
| JStr (s : string)
| JArr (l : list json)
| JObj (m : gmap string json).

#[export] Instance json_eq_dec : EqDecision json.
Proof.
  refine (fix go (x y : json) {struct x} : Decision (x = y) :=
            let _ : EqDecision json := go in
            match x, y with
            | JNull, JNull => left eq_refl
            | JBool a, JBool b => cast_if (decide (a = b))
            | JNum a, JNum b => cast_if (decide (a = b))
            | JStr a, JStr b => cast_if (decide (a = b))
            | JArr a, JArr b => cast_if (decide (a = b))
            | JObj a, JObj b => cast_if (decide (a = b))
            | _, _ => right _
            end); congruence.
Defined.

(** unstructured.Unstructured: its Object map, which may be nil. *)
Record Unstructured := mkUnstr { u_Object : option (gmap string json) }.

#[export] Instance Unstructured_eq_dec : EqDecision Unstructured.
Proof. solve_decision. Defined.

Record GroupVersionKind := mkGVK { gvk_Group : string; gvk_Version : string; gvk_Kind : string }.

(** Also metav1.GroupKind and schema.GroupKind. *)
Record GroupKind := mkGK { gk_Group : string; gk_Kind : string }.

#[export] Instance GroupVersionKind_eq_dec : EqDecision GroupVersionKind.
Proof. solve_decision. Defined.
#[export] Instance GroupKind_eq_dec : EqDecision GroupKind.
Proof. solve_decision. Defined.
#[export] Instance GroupKind_countable : Countable GroupKind.
Proof.
  refine (inj_countable' (fun g => (gk_Group g, gk_Kind g)) (fun p => mkGK p.1 p.2) _).
  by intros [].
Defined.

Definition GroupKind_of (g : GroupVersionKind) : GroupKind := mkGK (gvk_Group g) (gvk_Kind g).

(** gvk.GroupVersion().String() *)
Definition gv_String (g : GroupVersionKind) : string :=
  if decide (gvk_Group g = EmptyString) then gvk_Version g else gvk_Group g +:+ "/" +:+ gvk_Version g.

Record OwnerReference := mkOwnerRef {
  or_APIVersion : string;
  or_Kind : string;
  or_Name : string;
  or_UID : string;
  or_Controller : option bool;
  or_BlockOwnerDeletion : option bool;
}.

#[export] Instance OwnerReference_eq_dec : EqDecision OwnerReference.
Proof. solve_decision. Defined.

(** metav1.ObjectMeta: the fields read or written.  Times are seconds. *)
Record ObjectMeta := mkMeta {
  m_Name : string;
  m_Namespace : string;
  m_UID : string;
  m_Generation : Z;
  m_Labels : gmap string string;
  m_Annotations : gmap string string;
  m_Finalizers : list string;
  m_OwnerReferences : list OwnerReference;
  m_CreationTimestamp : Z;
  m_DeletionTimestamp : option Z;
}.

#[export] Instance ObjectMeta_eq_dec : EqDecision ObjectMeta.
Proof. solve_decision. Defined.

Definition with_Finalizers (fs : list string) (m : ObjectMeta) : ObjectMeta :=
  mkMeta (m_Name m) (m_Namespace m) (m_UID m) (m_Generation m) (m_Labels m) (m_Annotations m)
    fs (m_OwnerReferences m) (m_CreationTimestamp m) (m_DeletionTimestamp m).

(** Indexing a Go string map: the zero value when the key is absent. *)
Definition map_get (m : gmap string string) (k : string) : string := default EmptyString (m !! k).

(** metav1.LabelSelector. *)
Record LabelSelectorRequirement := mkReq { req_Key : string; req_Operator : string; req_Values : list string }.
Record LabelSelector := mkSelector {
  ls_MatchLabels : gmap string string;
  ls_MatchExpressions : list LabelSelectorRequirement;
}.

#[export] Instance LabelSelectorRequirement_eq_dec : EqDecision LabelSelectorRequirement.
Proof. solve_decision. Defined.
#[export] Instance LabelSelector_eq_dec : EqDecision LabelSelector.
Proof. solve_decision. Defined.

(** ** Conditions *)

Inductive ConditionStatus := ConditionTrue | ConditionFalse | ConditionUnknown.

#[export] Instance ConditionStatus_eq_dec : EqDecision ConditionStatus.
Proof. solve_decision. Defined.

Record Condition := mkCond {
  c_Type : string;
  c_Status : ConditionStatus;
  c_Reason : string;
  c_Message : string;
  c_ObservedGeneration : Z;
}.

#[export] Instance Condition_eq_dec : EqDecision Condition.
Proof. solve_decision. Defined.

Definition with_Message (msg : string) (c : Condition) : Condition :=
  mkCond (c_Type c) (c_Status c) (c_Reason c) msg (c_ObservedGeneration c).
Definition with_ObservedGeneration (g : Z) (c : Condition) : Condition :=
  mkCond (c_Type c) (c_Status c) (c_Reason c) (c_Message c) g.

(** apimachinery's condition helpers: meta.FindStatusCondition and
    meta.SetStatusCondition, which returns the new list and whether it
    changed. *)
Class ConditionsAPI := {
  FindStatusCondition : list Condition -> string -> option Condition;
  meta_SetStatusCondition : list Condition -> Condition -> list Condition * bool;
  find_type : forall cs t c, FindStatusCondition cs t = Some c -> c_Type c = t;
  find_nil : forall t, FindStatusCondition [] t = None;
  find_set : forall cs c, FindStatusCondition (meta_SetStatusCondition cs c).1 (c_Type c) = Some c;
  find_set_ne : forall cs c t, c_Type c <> t ->
    FindStatusCondition (meta_SetStatusCondition cs c).1 t = FindStatusCondition cs t;
  set_changed : forall cs c,
    (meta_SetStatusCondition cs c).2 = false <-> FindStatusCondition cs (c_Type c) = Some c;
  set_unchanged : forall cs c,
    (meta_SetStatusCondition cs c).2 = false -> (meta_SetStatusCondition cs c).1 = cs;
}.

Section Conditions.
Context `{CA : ConditionsAPI}.

(** meta.IsStatusConditionTrue *)
Definition IsStatusConditionTrue (cs : list Condition) (t : string) : bool :=
  match FindStatusCondition cs t with
  | Some c => bool_decide (c_Status c = ConditionTrue)
  | None => false
  end.

Definition set_cond (cs : list Condition) (c : Condition) : list Condition :=
  (meta_SetStatusCondition cs c).1.

Lemma find_set_cond cs c t :
  FindStatusCondition (set_cond cs c) t =
  if decide (c_Type c = t) then Some c else FindStatusCondition cs t.
Proof.
  unfold set_cond. case_decide as E; [subst; apply find_set|by apply find_set_ne].
Qed.

End Conditions.

(** Resolve the lookup of a condition after a sequence of [set_cond]s with
    constant types. *)
Ltac find_cond :=
  repeat (rewrite find_set_cond; simpl; first [rewrite decide_True by done | rewrite decide_False by done]).

(** A concrete implementation of the helpers, a list searched by type and
    updated in place or extended; it shows that the laws can hold. *)
Definition find_impl (cs : list Condition) (t : string) : option Condition :=
  head (filter (fun c => c_Type c = t) cs).

Arguments find_impl : simpl never.

Fixpoint replace_impl (cs : list Condition) (c : Condition) : list Condition :=
  match cs with
  | [] => [c]
  | d :: cs' => if decide (c_Type d = c_Type c) then c :: cs' else d :: replace_impl cs' c
  end.

Definition set_impl (cs : list Condition) (c : Condition) : list Condition * bool :=
  match find_impl cs (c_Type c) with
  | Some d => if decide (d = c) then (cs, false) else (replace_impl cs c, true)
  | None => (cs ++ [c], true)
  end.

Lemma find_impl_cons d cs t :
  find_impl (d :: cs) t = if decide (c_Type d = t) then Some d else find_impl cs t.
Proof. unfold find_impl. rewrite filter_cons. by case_decide. Qed.

Lemma find_replace_impl cs c t :
  find_impl (replace_impl cs c) t =
  if decide (c_Type c = t) then Some c else find_impl cs t.
Proof.
  induction cs as [|d cs IH]; simpl; [apply find_impl_cons|].
  destruct (decide (c_Type d = c_Type c)) as [E|E]; rewrite !find_impl_cons.
  - rewrite E. by case_decide.
  - rewrite IH. repeat case_decide; congruence.
Qed.

Lemma find_app_impl cs c t :
  find_impl cs (c_Type c) = None ->
  find_impl (cs ++ [c]) t = if decide (c_Type c = t) then Some c else find_impl cs t.
Proof.
  induction cs as [|d cs IH]; [intros _; apply find_impl_cons|].
  rewrite find_impl_cons. destruct (decide (c_Type d = c_Type c)); [discriminate|]. intros H.
  simpl. rewrite !find_impl_cons, IH by done. repeat case_decide; congruence.
Qed.

Lemma find_impl_type cs t c : find_impl cs t = Some c -> c_Type c = t.
Proof.
  unfold find_impl. intros H%head_Some_elem_of.
  by apply list_elem_of_filter in H as [? _].
Qed.

Lemma set_impl_find cs c t :
  find_impl (set_impl cs c).1 t = if decide (c_Type c = t) then Some c else find_impl cs t.
Proof.
  unfold set_impl. destruct (find_impl cs (c_Type c)) as [d|] eqn:E; [|by apply find_app_impl].
  case_decide as Ed; simpl; [|apply find_replace_impl].
  subst. case_decide; [by subst|done].
Qed.

#[export] Program Instance conditions_impl : ConditionsAPI := {|
  FindStatusCondition := find_impl;
  meta_SetStatusCondition := set_impl;
|}.
Next Obligation. intros. by eapply find_impl_type. Qed.
Next Obligation. done. Qed.
Next Obligation. intros. rewrite set_impl_find. by rewrite decide_True. Qed.
Next Obligation. intros. rewrite set_impl_find. by rewrite decide_False. Qed.
Next Obligation.
  intros cs c. unfold set_impl.
  destruct (find_impl cs (c_Type c)) as [d|]; [case_decide|]; simpl; split; congruence.
Qed.
Next Obligation.
  intros cs c. unfold set_impl.
  destruct (find_impl cs (c_Type c)) as [d|]; [case_decide|]; simpl; congruence.
Qed.

(** ** Names and constants *)

(** src/api/v1/common_types.go *)
Definition TypeInstalled : string := "Installed".
Definition TypeProgressing : string := "Progressing".
Definition ReasonAbsent : string := "Absent".
Definition ReasonRollingOut : string := "RollingOut".
Definition ReasonRetrying : string := "Retrying".
Definition ReasonBlocked : string := "Blocked".
Definition ReasonInvalidConfiguration : string := "InvalidConfiguration".
Definition ReasonDeprecated : string := "Deprecated".
Definition ReasonNotDeprecated : string := "NotDeprecated".
Definition ReasonDeprecationStatusUnknown : string := "DeprecationStatusUnknown".
Definition ReasonSucceeded : string := "Succeeded".
Definition ReasonFailed : string := "Failed".
Definition ReasonProgressDeadlineExceeded : string := "ProgressDeadlineExceeded".

(** src/api/v1/clusterextension_types.go *)
Definition ClusterExtensionKind : string := "ClusterExtension".
Definition TypeDeprecated : string := "Deprecated".
Definition TypePackageDeprecated : string := "PackageDeprecated".
Definition TypeChannelDeprecated : string := "ChannelDeprecated".
Definition TypeBundleDeprecated : string := "BundleDeprecated".
Definition UpgradeConstraintPolicyCatalogProvided : string := "CatalogProvided".
Definition UpgradeConstraintPolicySelfCertified : string := "SelfCertified".
Definition ClusterExtensionConfigTypeInline : string := "Inline".
Definition CRDUpgradeSafetyEnforcementNone : string := "None".
Definition CRDUpgradeSafetyEnforcementStrict : string := "Strict".

(** src/api/v1/clusterobjectset_types.go *)
Definition ClusterObjectSetKind : string := "ClusterObjectSet".
Definition ClusterObjectSetTypeAvailable : string := "Available".
Definition ClusterObjectSetTypeProgressing : string := "Progressing".
Definition ClusterObjectSetTypeSucceeded : string := "Succeeded".
Definition ClusterObjectSetReasonArchived : string := "Archived".
Definition ClusterObjectSetReasonProbeFailure : string := "ProbeFailure".
Definition ClusterObjectSetReasonProbesSucceeded : string := "ProbesSucceeded".
Definition ClusterObjectSetReasonReconciling : string := "Reconciling".
Definition ClusterObjectSetReasonRetrying : string := "Retrying".
Definition SelectorTypeGroupKind : string := "GroupKind".
Definition SelectorTypeLabel : string := "Label".
Definition ProbeTypeConditionEqual : string := "ConditionEqual".
Definition ProbeTypeFieldsEqual : string := "FieldsEqual".
Definition ProbeTypeFieldValue : string := "FieldValue".
Definition LifecycleStateActive : string := "Active".
Definition LifecycleStateArchived : string := "Archived".
Definition CollisionProtectionPrevent : string := "Prevent".
Definition CollisionProtectionIfNoController : string := "IfNoController".
Definition CollisionProtectionNone : string := "None".

(** src/api/v1/clustercatalog_types.go *)
Definition SourceTypeImage : string := "Image".
Definition AvailabilityModeAvailable : string := "Available".
Definition AvailabilityModeUnavailable : string := "Unavailable".
Definition TypeServing : string := "Serving".
Definition ReasonAvailable : string := "Available".
Definition ReasonUnavailable : string := "Unavailable".
Definition ReasonUserSpecifiedUnavailable : string := "UserSpecifiedUnavailable".
Definition MetadataNameLabel : string := "olm.operatorframework.io/metadata.name".

(** src/api/v1/groupversion_info.go: GroupVersion *)
Definition api_Group : string := "olm.operatorframework.io".
Definition api_Version : string := "v1".
Definition GroupVersion_String : string := "olm.operatorframework.io/v1".

(** src/internal/operator-controller/labels/labels.go *)
Definition SecretTypeObjectData : string := "olm.operatorframework.io/object-data".
Definition OwnerKindKey : string := "olm.operatorframework.io/owner-kind".
Definition OwnerNameKey : string := "olm.operatorframework.io/owner-name".
Definition PackageNameKey : string := "olm.operatorframework.io/package-name".
Definition BundleNameKey : string := "olm.operatorframework.io/bundle-name".
Definition BundleVersionKey : string := "olm.operatorframework.io/bundle-version".
Definition BundleReferenceKey : string := "olm.operatorframework.io/bundle-reference".
Definition ServiceAccountNameKey : string := "olm.operatorframework.io/service-account-name".
Definition ServiceAccountNamespaceKey : string := "olm.operatorframework.io/service-account-namespace".
Definition RevisionNameKey : string := "olm.operatorframework.io/revision-name".
Definition MigratedFromHelmKey : string := "olm.operatorframework.io/migrated-from-helm".

(** ** ClusterExtension *)

Record BundleMetadata := mkBM { bm_Name : string; bm_Version : string }.

Record CatalogFilter := mkCatalogFilter {
  cf_PackageName : string;
  cf_Version : string;
  cf_Channels : list string;
  cf_Selector : option LabelSelector;
  cf_UpgradeConstraintPolicy : string;
}.

Record SourceConfig := mkSource { src_SourceType : string; src_Catalog : option CatalogFilter }.

Record CRDUpgradeSafetyPreflightConfig := mkCRDSafety { cs_Enforcement : string }.
Record PreflightConfig := mkPreflight { pf_CRDUpgradeSafety : option CRDUpgradeSafetyPreflightConfig }.
Record ClusterExtensionInstallConfig := mkInstallConfig { ic_Preflight : option PreflightConfig }.

Record ClusterExtensionConfig := mkExtConfig { cfg_ConfigType : string; cfg_Inline : option string }.

Record ClusterExtensionSpec := mkExtSpec {
  es_Namespace : string;
  es_ServiceAccount : string;  (* ServiceAccountReference.Name *)
  es_Source : SourceConfig;
  es_Install : option ClusterExtensionInstallConfig;
  es_Config : option ClusterExtensionConfig;
  es_ProgressDeadlineMinutes : Z;
}.

Record RevisionStatus := mkRevStatus { rs_Name : string; rs_Conditions : list Condition }.

(** Install is the ClusterExtensionInstallStatus, whose only field is the
    bundle. *)
Record ClusterExtensionStatus := mkExtStatus {
  st_Conditions : list Condition;
  st_Install : option BundleMetadata;
  st_ActiveRevisions : list RevisionStatus;
}.

Record ClusterExtension := mkExt {
  ext_Meta : ObjectMeta;
  ext_Spec : ClusterExtensionSpec;
  ext_Status : ClusterExtensionStatus;
}.

#[export] Instance BundleMetadata_eq_dec : EqDecision BundleMetadata.
Proof. solve_decision. Defined.
#[export] Instance CatalogFilter_eq_dec : EqDecision CatalogFilter.
Proof. solve_decision. Defined.
#[export] Instance SourceConfig_eq_dec : EqDecision SourceConfig.
Proof. solve_decision. Defined.
#[export] Instance CRDSafety_eq_dec : EqDecision CRDUpgradeSafetyPreflightConfig.
Proof. solve_decision. Defined.
#[export] Instance PreflightConfig_eq_dec : EqDecision PreflightConfig.
Proof. solve_decision. Defined.
#[export] Instance InstallConfig_eq_dec : EqDecision ClusterExtensionInstallConfig.
Proof. solve_decision. Defined.
#[export] Instance ExtConfig_eq_dec : EqDecision ClusterExtensionConfig.
Proof. solve_decision. Defined.
#[export] Instance ExtSpec_eq_dec : EqDecision ClusterExtensionSpec.
Proof. solve_decision. Defined.
#[export] Instance RevisionStatus_eq_dec : EqDecision RevisionStatus.
Proof. solve_decision. Defined.
#[export] Instance ExtStatus_eq_dec : EqDecision ClusterExtensionStatus.
Proof. solve_decision. Defined.

Definition ext_Name (e : ClusterExtension) : string := m_Name (ext_Meta e).
Definition ext_Generation (e : ClusterExtension) : Z := m_Generation (ext_Meta e).
Definition ext_Conditions (e : ClusterExtension) : list Condition := st_Conditions (ext_Status e).

Definition with_ExtConditions (cs : list Condition) (e : ClusterExtension) : ClusterExtension :=
  mkExt (ext_Meta e) (ext_Spec e)
    (mkExtStatus cs (st_Install (ext_Status e)) (st_ActiveRevisions (ext_Status e))).
Definition with_ExtInstall (i : option BundleMetadata) (e : ClusterExtension) : ClusterExtension :=
  mkExt (ext_Meta e) (ext_Spec e)
    (mkExtStatus (st_Conditions (ext_Status e)) i (st_ActiveRevisions (ext_Status e))).
Definition with_ExtActive (a : list RevisionStatus) (e : ClusterExtension) : ClusterExtension :=
  mkExt (ext_Meta e) (ext_Spec e)
    (mkExtStatus (st_Conditions (ext_Status e)) (st_Install (ext_Status e)) a).

(** ** ClusterCatalog *)

Record ImageSource := mkImage { img_Ref : string; img_PollIntervalMinutes : option Z }.
Record CatalogSource := mkCatSource { cso_Type : string; cso_Image : option ImageSource }.
Record ClusterCatalogSpec := mkCatSpec {
  ccs_Source : CatalogSource;
  ccs_Priority : Z;
  ccs_AvailabilityMode : string;
}.
Record ResolvedCatalogSource := mkResolvedSource { res_Type : string; res_Image : option string  (* ResolvedImageSource.Ref *) }.
Record ClusterCatalogStatus := mkCatStatus {
  cst_Conditions : list Condition;
  cst_ResolvedSource : option ResolvedCatalogSource;
  cst_URLs : option string;  (* ClusterCatalogURLs.Base *)
  cst_LastUnpacked : option Z;
}.
Record ClusterCatalog := mkCatalog {
  cat_Meta : ObjectMeta;
  cat_Spec : ClusterCatalogSpec;
  cat_Status : ClusterCatalogStatus;
}.

#[export] Instance ImageSource_eq_dec : EqDecision ImageSource.
Proof. solve_decision. Defined.
#[export] Instance CatalogSource_eq_dec : EqDecision CatalogSource.
Proof. solve_decision. Defined.
#[export] Instance ClusterCatalogSpec_eq_dec : EqDecision ClusterCatalogSpec.
Proof. solve_decision. Defined.
#[export] Instance ResolvedCatalogSource_eq_dec : EqDecision ResolvedCatalogSource.
Proof. solve_decision. Defined.
#[export] Instance ClusterCatalogStatus_eq_dec : EqDecision ClusterCatalogStatus.
Proof. solve_decision. Defined.

Definition cat_Name (c : ClusterCatalog) : string := m_Name (cat_Meta c).

(** ** ClusterObjectSet *)

Record ConditionEqualProbe := mkCEP { cep_Type : string; cep_Status : string }.
Record FieldsEqualProbe := mkFEP { fep_FieldA : string; fep_FieldB : string }.
Record FieldValueProbe := mkFVP { fvp_FieldPath : string; fvp_Value : string }.
Record Assertion := mkAssertion {
  as_Type : string;
  as_ConditionEqual : ConditionEqualProbe;
  as_FieldsEqual : FieldsEqualProbe;
  as_FieldValue : FieldValueProbe;
}.
Record ObjectSelector := mkObjSelector {
  os_Type : string;
  os_GroupKind : GroupKind;
  os_Label : LabelSelector;
}.
Record ProgressionProbe := mkProbe { pp_Selector : ObjectSelector; pp_Assertions : list Assertion }.

Record ObjectSourceRef := mkSourceRef { osr_Name : string; osr_Namespace : string; osr_Key : string }.
Record ClusterObjectSetObject := mkCOSObject {
  oo_Object : Unstructured;
  oo_Ref : ObjectSourceRef;
  oo_CollisionProtection : string;
}.
Record ClusterObjectSetPhase := mkCOSPhase {
  ph_Name : string;
  ph_Objects : list ClusterObjectSetObject;
  ph_CollisionProtection : string;
}.
Record ClusterObjectSetSpec := mkCOSSpec {
  os_LifecycleState : string;
  os_Revision : Z;
  os_Phases : list ClusterObjectSetPhase;
  os_ProgressDeadlineMinutes : Z;
  os_ProgressionProbes : list ProgressionProbe;
  os_CollisionProtection : string;
}.
Record ClusterObjectSet := mkCOS {
  cos_Meta : ObjectMeta;
  cos_Spec : ClusterObjectSetSpec;
  cos_Conditions : list Condition;  (* ClusterObjectSetStatus.Conditions *)
}.

#[export] Instance ConditionEqualProbe_eq_dec : EqDecision ConditionEqualProbe.
Proof. solve_decision. Defined.
#[export] Instance FieldsEqualProbe_eq_dec : EqDecision FieldsEqualProbe.
Proof. solve_decision. Defined.
#[export] Instance FieldValueProbe_eq_dec : EqDecision FieldValueProbe.
Proof. solve_decision. Defined.
#[export] Instance Assertion_eq_dec : EqDecision Assertion.
Proof. solve_decision. Defined.
#[export] Instance ObjectSelector_eq_dec : EqDecision ObjectSelector.
Proof. solve_decision. Defined.
#[export] Instance ProgressionProbe_eq_dec : EqDecision ProgressionProbe.
Proof. solve_decision. Defined.
#[export] Instance ObjectSourceRef_eq_dec : EqDecision ObjectSourceRef.
Proof. solve_decision. Defined.
#[export] Instance ClusterObjectSetObject_eq_dec : EqDecision ClusterObjectSetObject.
Proof. solve_decision. Defined.
#[export] Instance ClusterObjectSetPhase_eq_dec : EqDecision ClusterObjectSetPhase.
Proof. solve_decision. Defined.
#[export] Instance ClusterObjectSetSpec_eq_dec : EqDecision ClusterObjectSetSpec.
Proof. solve_decision. Defined.
#[export] Instance ClusterObjectSet_eq_dec : EqDecision ClusterObjectSet.
Proof. solve_decision. Defined.

Definition cos_Name (c : ClusterObjectSet) : string := m_Name (cos_Meta c).
Definition cos_Labels (c : ClusterObjectSet) : gmap string string := m_Labels (cos_Meta c).
Definition cos_Generation (c : ClusterObjectSet) : Z := m_Generation (cos_Meta c).
Definition cos_Revision (c : ClusterObjectSet) : Z := os_Revision (cos_Spec c).
Definition cos_Lifecycle (c : ClusterObjectSet) : string := os_LifecycleState (cos_Spec c).
Definition cos_deleting (c : ClusterObjectSet) : bool :=
  match m_DeletionTimestamp (cos_Meta c) with Some _ => true | None => false end.

Definition with_COSConditions (cs : list Condition) (c : ClusterObjectSet) : ClusterObjectSet :=
  mkCOS (cos_Meta c) (cos_Spec c) cs.
Definition with_COSMeta (m : ObjectMeta) (c : ClusterObjectSet) : ClusterObjectSet :=
  mkCOS m (cos_Spec c) (cos_Conditions c).
Definition with_COSSpec (s : ClusterObjectSetSpec) (c : ClusterObjectSet) : ClusterObjectSet :=
  mkCOS (cos_Meta c) s (cos_Conditions c).

Definition with_Lifecycle (st : string) (s : ClusterObjectSetSpec) : ClusterObjectSetSpec :=
  mkCOSSpec st (os_Revision s) (os_Phases s) (os_ProgressDeadlineMinutes s)
    (os_ProgressionProbes s) (os_CollisionProtection s).

(** *** The validation markers of ClusterObjectSetSpec

    The kubebuilder markers on the fields, as the API server evaluates them:
    for a new object, and for an update of an existing one. *)
Definition ClusterObjectSetSpec_valid (s : ClusterObjectSetSpec) : bool :=
  bool_decide (os_LifecycleState s ∈ [LifecycleStateActive; LifecycleStateArchived]) &&
  (1 <=? os_Revision s) &&
  (Z.of_nat (length (os_Phases s)) <=? 20) &&
  bool_decide (NoDup (map ph_Name (os_Phases s))) &&
  ((os_ProgressDeadlineMinutes s =? 0) ||
   (10 <=? os_ProgressDeadlineMinutes s) && (os_ProgressDeadlineMinutes s <=? 720)) &&
  (Z.of_nat (length (os_ProgressionProbes s)) <=? 20) &&
  bool_decide (os_CollisionProtection s ∈
    [CollisionProtectionPrevent; CollisionProtectionIfNoController; CollisionProtectionNone]).

Definition ClusterObjectSetSpec_update (oldSelf self : ClusterObjectSetSpec) : bool :=
  ClusterObjectSetSpec_valid self &&
  (bool_decide (os_LifecycleState oldSelf = LifecycleStateActive) ||
   (bool_decide (os_LifecycleState oldSelf = LifecycleStateArchived) &&
    bool_decide (os_LifecycleState oldSelf = os_LifecycleState self))) &&
  (os_Revision self =? os_Revision oldSelf) &&
  (bool_decide (os_Phases self = os_Phases oldSelf) || bool_decide (os_Phases oldSelf = [])) &&
  bool_decide (os_CollisionProtection self = os_CollisionProtection oldSelf).

(** The specs reachable from [s] by updates the API server admits. *)
Inductive spec_reach (s : ClusterObjectSetSpec) : ClusterObjectSetSpec -> Prop :=
| spec_reach_refl : spec_reach s s
| spec_reach_step t u : spec_reach s t -> ClusterObjectSetSpec_update t u = true -> spec_reach s u.

Lemma update_facts old new :
  ClusterObjectSetSpec_update old new = true ->
  os_Revision new = os_Revision old /\
  os_CollisionProtection new = os_CollisionProtection old /\
  (os_Phases old <> [] -> os_Phases new = os_Phases old) /\
  (os_LifecycleState old = LifecycleStateArchived -> os_LifecycleState new = LifecycleStateArchived).
Proof.
  unfold ClusterObjectSetSpec_update.
  rewrite !andb_true_iff, !orb_true_iff, andb_true_iff, !bool_decide_eq_true, Z.eqb_eq.
  intros ((((_ & Hl) & Hr) & Hp) & Hc). repeat split; try done.
  - intros Hn. by destruct Hp.
  - intros Ha. destruct Hl as [Hl|[_ Hl]]; [by rewrite Hl in Ha|congruence].
Qed.
