(* ===== verification/Filter.v ===== *)
(** * Predicates on bundles

    - src/internal/shared/util/filter/filter.go: predicate combinators and
      in-place filtering;
    - src/internal/operator-controller/catalogmetadata/filter/*.go: the
      predicates on bundles, among them the upgrade graph. *)

From S2P Require Import Prelude GoErrors VersionRelease ApiTypes.

(** ** filter.go *)

(** type Predicate[T any] func(entity T) bool *)
Definition Predicate (T : Type) : Type := T -> bool.

(** func And[T any](predicates ...Predicate[T]) Predicate[T] *)
Fixpoint And {T} (predicates : list (Predicate T)) (obj : T) : bool :=
  match predicates with
  | [] => true
  | p :: ps => if negb (p obj) then false else And ps obj
  end.

(** func Or[T any](predicates ...Predicate[T]) Predicate[T] *)
Fixpoint Or {T} (predicates : list (Predicate T)) (obj : T) : bool :=
  match predicates with
  | [] => false
  | p :: ps => if p obj then true else Or ps obj
  end.

(** func Not[T any](predicate Predicate[T]) Predicate[T] *)
Definition Not {T} (predicate : Predicate T) (obj : T) : bool := negb (predicate obj).

(** func Filter[T any](s []T, test Predicate[T]) []T *)
Fixpoint Filter {T} (s : list T) (test : Predicate T) : list T :=
  match s with
  | [] => []
  | x :: s' => if test x then x :: Filter s' test else Filter s' test
  end.

(** slices.DeleteFunc(s, del): the returned slice, and what the original
    slice reads afterwards, since the elements kept are moved to the front of
    the shared array and the slots behind them are cleared. *)
Definition DeleteFunc {T} (zero : T) (s : list T) (del : T -> bool) : list T * list T :=
  let kept := Filter s (Not del) in
  (kept, kept ++ replicate (length s - length kept) zero).

(** func InPlace[T any](s []T, test Predicate[T]) []T; its callers overwrite
    the original slice with the result. *)
Definition InPlace {T} (zero : T) (s : list T) (test : Predicate T) : list T :=
  (DeleteFunc zero s (Not test)).1.

Lemma And_spec {T} (ps : list (Predicate T)) x :
  And ps x = true <-> forall p, p ∈ ps -> p x = true.
Proof.
  induction ps as [|p ps IH]; simpl; [split; [set_solver|done]|].
  destruct (p x) eqn:E; simpl.
  - rewrite IH. split; [|set_solver].
    intros H q [->|Hq]%elem_of_cons; auto.
  - split; [discriminate|]. intros H. rewrite <- E. apply H. set_solver.
Qed.

Lemma Or_spec {T} (ps : list (Predicate T)) x :
  Or ps x = true <-> exists p, p ∈ ps /\ p x = true.
Proof.
  induction ps as [|p ps IH]; simpl; [split; [discriminate|set_solver]|].
  destruct (p x) eqn:E.
  - split; [|done]. intros _. exists p. set_solver.
  - rewrite IH. split; [set_solver|]. intros (q & [->|Hq]%elem_of_cons & Hx); [congruence|eauto].
Qed.

Lemma elem_of_Filter {T} (s : list T) test x : x ∈ Filter s test <-> x ∈ s /\ test x = true.
Proof.
  induction s as [|y s IH]; simpl; [set_solver|].
  destruct (test y) eqn:E; rewrite ?elem_of_cons, IH.
  - split; [intros [->|[? ?]]; auto|]. intros [[->|?] ?]; auto.
  - split; [intros [? ?]; auto|]. intros [[->|?] ?]; [congruence|auto].
Qed.

Lemma Filter_ext {T} (s : list T) f g : (forall x, f x = g x) -> Filter s f = Filter s g.
Proof. intros H. induction s as [|x s IH]; simpl; [done|]. by rewrite H, IH. Qed.

Lemma InPlace_Filter {T} zero (s : list T) test : InPlace zero s test = Filter s test.
Proof. apply Filter_ext. intros x. unfold Not. by destruct (test x). Qed.

Section BundleFilters.
Context `{SV : BSemver} `{PP : PackageProperty}.

(** ** bundle_predicates.go *)

(** func ExactVersionRelease(expect bundle.VersionRelease) *)
Definition ExactVersionRelease (expect : VersionRelease) : Predicate Bundle := fun b =>
  match GetVersionAndRelease b with
  | inl _ => false
  | inr actual => VersionRelease_Compare expect actual =? 0
  end.

(** func InSemverRange(versionRange bsemver.Range) *)
Definition InSemverRange (versionRange : Version -> bool) : Predicate Bundle := fun b =>
  match GetVersionAndRelease b with
  | inl _ => false
  | inr vr => versionRange (vr_Version vr)
  end.

(** func InAnyChannel(channels ...declcfg.Channel) *)
Definition InAnyChannel (channels : list Channel) : Predicate Bundle := fun bundle =>
  existsb (fun ch => existsb (fun entry => bool_decide (ce_Name entry = b_Name bundle)) (ch_Entries ch))
    channels.

(** ** successors.go *)

(** The isSuccessor closure of legacySuccessor. *)
Definition isSuccessor (installed : BundleMetadata) (installedVersion : Version) (entry : ChannelEntry) : bool :=
  if bool_decide (ce_Replaces entry = bm_Name installed) then true
  else if existsb (fun skip => bool_decide (skip = bm_Name installed)) (ce_Skips entry) then true
  else if negb (bool_decide (ce_SkipRange entry = EmptyString)) then
    match ParseRange (ce_SkipRange entry) with
    | inr skipRange => skipRange installedVersion
    | inl _ => false
    end
  else false.

(** func legacySuccessor(installedBundle ocv1.BundleMetadata, channels ...declcfg.Channel) *)
Definition legacySuccessor (installed : BundleMetadata) (channels : list Channel)
  : result (Predicate Bundle) :=
  match semver_Parse (bm_Version installed) with
  | inl err => inl (EWrap "error parsing installed bundle version: " err "")
  | inr v =>
      inr (fun candidate =>
        existsb (fun ch =>
          existsb (fun e => bool_decide (b_Name candidate = ce_Name e) && isSuccessor installed v e)
            (ch_Entries ch)) channels)
  end.

(** func SuccessorsOf(installedBundle ocv1.BundleMetadata, channels ...declcfg.Channel) *)
Definition SuccessorsOf (installed : BundleMetadata) (channels : list Channel)
  : result (Predicate Bundle) :=
  match NewLegacyRegistryV1VersionRelease (bm_Version installed) with
  | inl err => inl (ENew ("failed to get version and release of installed bundle: " +:+ Error err))
  | inr installedVersionRelease =>
      match legacySuccessor installed channels with
      | inl err => inl (EWrap "getting successorsPredicate: " err "")
      | inr successorsPredicate =>
          inr (Or [successorsPredicate; ExactVersionRelease installedVersionRelease])
      end
  end.

(** The upgrade graph as a relation: an entry of one of the channels names
    the candidate and replaces, skips or range-skips the installed bundle. *)
Definition entry_replaces (installed : BundleMetadata) (e : ChannelEntry) : Prop :=
  ce_Replaces e = bm_Name installed \/
  bm_Name installed ∈ ce_Skips e \/
  (ce_SkipRange e <> EmptyString /\ exists range v,
     ParseRange (ce_SkipRange e) = inr range /\ semver_Parse (bm_Version installed) = inr v /\
     range v = true).

Definition upgrade_edge (installed : BundleMetadata) (channels : list Channel) (b : Bundle) : Prop :=
  exists ch e, ch ∈ channels /\ e ∈ ch_Entries ch /\ ce_Name e = b_Name b /\ entry_replaces installed e.

Lemma isSuccessor_spec installed v e :
  semver_Parse (bm_Version installed) = inr v ->
  isSuccessor installed v e = true <-> entry_replaces installed e.
Proof.
  intros Hv. unfold isSuccessor, entry_replaces.
  case_bool_decide as E1; [by split; auto|].
  destruct (existsb _ (ce_Skips e)) eqn:E2.
  { split; [|done]. intros _. right; left.
    apply existsb_elem in E2 as (x & Hx & ->%bool_decide_eq_true). done. }
  assert (Hns : bm_Name installed ∉ ce_Skips e).
  { intros Hin. apply not_true_iff_false in E2. apply E2, existsb_elem.
    eexists; split; [done|]. by apply bool_decide_eq_true. }
  case_bool_decide as E3; simpl.
  - split; [discriminate|]. intros [?|[?|[? _]]]; done.
  - destruct (ParseRange (ce_SkipRange e)) as [err|range] eqn:Er.
    + split; [discriminate|]. intros [?|[?|(_ & range & ? & ? & _)]]; done.
    + split.
      * intros H. right; right. split; [done|]. eauto.
      * intros [?|[?|(_ & range' & v' & ? & ? & Hr)]]; [done..|]. congruence.
Qed.

(** SuccessorsOf accepts exactly the successors of the installed bundle in
    the given channels and the bundles of the installed version and release. *)
Lemma SuccessorsOf_spec installed channels p b :
  SuccessorsOf installed channels = inr p ->
  p b = true <->
  upgrade_edge installed channels b \/
  exists vr, NewLegacyRegistryV1VersionRelease (bm_Version installed) = inr vr /\
             ExactVersionRelease vr b = true.
Proof.
  unfold SuccessorsOf.
  destruct (NewLegacyRegistryV1VersionRelease (bm_Version installed)) as [|vr] eqn:Evr; [discriminate|].
  unfold legacySuccessor. destruct (semver_Parse (bm_Version installed)) as [|v] eqn:Ev; [discriminate|].
  intros [= <-]. simpl.
  destruct (existsb _ channels) eqn:Ex.
  - split; [|done]. intros _. left.
    apply existsb_elem in Ex as (ch & Hch & Hx).
    apply existsb_elem in Hx as (e & He & [Hn Hs]%andb_true_iff).
    apply bool_decide_eq_true in Hn. exists ch, e.
    split; [done|split; [done|split; [done|]]]. by apply isSuccessor_spec in Hs.
  - assert (~ upgrade_edge installed channels b) as Hno.
    { intros (ch & e & Hch & He & Hn & Hr). apply not_true_iff_false in Ex. apply Ex.
      apply existsb_elem. exists ch. split; [done|]. apply existsb_elem. exists e.
      split; [done|]. apply andb_true_iff. split; [by apply bool_decide_eq_true|].
      by apply isSuccessor_spec. }
    destruct (ExactVersionRelease vr b) eqn:Ee; [naive_solver|].
    split; [discriminate|]. intros [?|(vr' & ? & ?)]; [done|congruence].
Qed.

(** The slots DeleteFunc clears contribute no upgrade edge. *)
Lemma upgrade_edge_zero installed channels n b :
  upgrade_edge installed (channels ++ replicate n zeroChannel) b <-> upgrade_edge installed channels b.
Proof.
  split.
  - intros (ch & e & [Hch|Hch]%elem_of_app & He & H); [by exists ch, e|].
    apply elem_of_replicate in Hch as [-> _]. by apply not_elem_of_nil in He.
  - intros (ch & e & Hch & H). exists ch, e. split; [set_solver|done].
Qed.

Lemma InAnyChannel_spec channels b :
  InAnyChannel channels b = true <->
  exists ch e, ch ∈ channels /\ e ∈ ch_Entries ch /\ ce_Name e = b_Name b.
Proof.
  unfold InAnyChannel. rewrite existsb_elem. setoid_rewrite existsb_elem.
  setoid_rewrite bool_decide_eq_true. naive_solver.
Qed.

End BundleFilters.
