(* ===== verification/Resolve.v ===== *)
(** * Bundle resolution

    src/internal/operator-controller/resolve/catalog.go, validation.go, and
    the version ranges of catalogmetadata/compare/compare.go: which bundle of
    which catalog a ClusterExtension resolves to.

    The walk over the catalogs is a function that threads the closure state of
    Resolve ([walkState]) through the callback.  Kubernetes' label selectors
    and Masterminds' version constraints are the interfaces [LabelsAPI] and
    [MMSemver]. *)

From S2P Require Import Prelude GoErrors VersionRelease ApiTypes Filter.

(** metav1.LabelSelectorAsSelector and k8s.io/apimachinery/pkg/labels. *)
Class LabelsAPI := {
  Selector : Type;
  Selector_eq_dec : EqDecision Selector;
  labels_Nothing : Selector;
  labels_Everything : Selector;
  LabelSelectorAsSelector : option LabelSelector -> result Selector;
  selector_Matches : Selector -> gmap string string -> bool;
  (* a nil label selector matches no objects, an empty one all of them *)
  as_selector_nil : LabelSelectorAsSelector None = inr labels_Nothing;
  everything_matches : forall m, selector_Matches labels_Everything m = true;
}.
#[export] Existing Instance Selector_eq_dec.

(** mmsemver.NewConstraint and Constraints.Check, on mmsemver.New(major,
    minor, patch, prerelease, metadata). *)
Record mmVersion := mkMM { mm_major : Z; mm_minor : Z; mm_patch : Z; mm_pre : string; mm_meta : string }.
Class MMSemver := { NewConstraint : string -> result (mmVersion -> bool) }.

Section Ranges.
Context `{SV : BSemver} `{MM : MMSemver}.

(** func newMastermindsRange(versionRange string) (bsemver.Range, error) *)
Definition newMastermindsRange (versionRange : string) : result (Version -> bool) :=
  match NewConstraint versionRange with
  | inl err => inl err
  | inr check =>
      inr (fun v =>
        let pre := map PR_String (Pre v) in
        check (mkMM (Major v) (Minor v) (Patch v) (strings_Join pre ".") (strings_Join (Build v) ".")))
  end.

(** func NewVersionRange(versionRange string) (bsemver.Range, error) *)
Definition NewVersionRange (versionRange : string) : result (Version -> bool) :=
  newMastermindsRange versionRange.

(** func MetadataFor(bundleName string, bundleVersion bsemver.Version) (bundleutil/bundle.go) *)
Definition MetadataFor (bundleName : string) (bundleVersion : Version) : BundleMetadata :=
  mkBM bundleName (Version_String bundleVersion).
End Ranges.

(** ** validation.go *)

(** func NoDependencyValidation(bundle declcfg.Bundle) error *)
Fixpoint no_dependency_properties (name : string) (ps : list Property) : option error :=
  match ps with
  | [] => None
  | p :: ps' =>
      if bool_decide (prop_Type p ∈ [TypePackageRequired; TypeGVKRequired; TypeConstraint]) then
        Some (ENew ("bundle " +:+ fmt_q name +:+ " has a dependency declared via property " +:+
                    fmt_q (prop_Type p) +:+ " which is currently not supported"))
      else no_dependency_properties name ps'
  end.

Definition NoDependencyValidation (bundle : Bundle) : option error :=
  no_dependency_properties (b_Name bundle) (b_Properties bundle).

(** ** catalog.go *)

(** type foundBundle struct *)
Record foundBundle := mkFound { fb_bundle : Bundle; fb_catalog : string; fb_priority : Z }.

(** The catStat of the log message. *)
Record catStat := mkStat {
  CatalogName : string;
  PackageFound : bool;
  TotalBundles : nat;
  MatchedBundles : nat;
}.

(** The variables Resolve's callback captures and updates. *)
Record walkState := mkWalk {
  ws_catStats : list catStat;
  ws_resolvedBundles : list foundBundle;
  ws_priorDeprecation : option Deprecation;
}.

Definition walk_init : walkState := mkWalk [] [] None.

(** func isFBCEmpty(fbc *declcfg.DeclarativeConfig) bool *)
Definition isFBCEmpty (fbc : option DeclarativeConfig) : bool :=
  match fbc with
  | None => true
  | Some f =>
      match fbc_Packages f, fbc_Channels f, fbc_Bundles f, fbc_Deprecations f, fbc_Others f with
      | [], [], [], [], [] => true
      | _, _, _, _, _ => false
      end
  end.

(** func isDeprecated(bundle declcfg.Bundle, deprecation *declcfg.Deprecation) bool *)
Definition isDeprecated (bundle : Bundle) (deprecation : option Deprecation) : bool :=
  match deprecation with
  | None => false
  | Some d =>
      existsb (fun entry => bool_decide (ref_Schema (de_Reference entry) = SchemaBundle) &&
                            bool_decide (ref_Name (de_Reference entry) = b_Name bundle)) (d_Entries d)
  end.

(** type resolutionError struct, and its Error method *)
Record resolutionError := mkResErr {
  re_PackageName : string;
  re_Version : string;
  re_Channels : list string;
  re_InstalledBundle : option BundleMetadata;
  re_ResolvedBundles : list foundBundle;
}.

Definition resolutionError_Error (rei : resolutionError) : string :=
  let s1 := match re_InstalledBundle rei with
            | Some ib => "error upgrading from currently installed version " +:+
                         fmt_q (bm_Version ib) +:+ ": "
            | None => EmptyString
            end in
  let s2 := if (1 <? length (re_ResolvedBundles rei))%nat
            then "found bundles for package " +:+ fmt_q (re_PackageName rei) +:+ " "
            else "no bundles found for package " +:+ fmt_q (re_PackageName rei) +:+ " " in
  let s3 := if bool_decide (re_Version rei = EmptyString) then EmptyString
            else "matching version " +:+ fmt_q (re_Version rei) +:+ " " in
  let s4 := match re_Channels rei with
            | [] => EmptyString
            | l => "in channels " +:+ fmt_v_strings l +:+ " "
            end in
  let matchedCatalogs := sort_by string_cmp (map fb_catalog (re_ResolvedBundles rei)) in
  let s5 := if (1 <? length matchedCatalogs)%nat
            then "in multiple catalogs with the same priority " +:+ fmt_v_strings matchedCatalogs +:+ " "
            else EmptyString in
  strings_TrimSpace (s1 +:+ s2 +:+ s3 +:+ s4 +:+ s5).

(** type CatalogWalkFunc, with the captured state made explicit. *)
Definition CatalogWalkFunc (S : Type) : Type :=
  S -> ClusterCatalog -> option DeclarativeConfig -> option error -> S * option error.

Section Resolver.
Context `{SV : BSemver} `{PP : PackageProperty} `{MM : MMSemver} `{LA : LabelsAPI}.

(** The walk over the catalogs left by the availability filter. *)
Fixpoint walk_catalogs {S} (getPackage : ClusterCatalog -> string -> option DeclarativeConfig * option error)
    (packageName : string) (f : CatalogWalkFunc S) (catalogs : list ClusterCatalog) (s : S) : S * option error :=
  match catalogs with
  | [] => (s, None)
  | cat :: rest =>
      let '(fbc, fbcErr) := getPackage cat packageName in
      let '(s', walkErr) := f s cat fbc fbcErr in
      match walkErr with
      | Some e => (s', Some e)
      | None => walk_catalogs getPackage packageName f rest s'
      end
  end.

Definition catalog_disabled (c : ClusterCatalog) : bool :=
  bool_decide (ccs_AvailabilityMode (cat_Spec c) = AvailabilityModeUnavailable).

(** func CatalogWalker(listCatalogs, getPackage) *)
Definition CatalogWalker {S}
    (listCatalogs : Selector -> result (list ClusterCatalog))
    (getPackage : ClusterCatalog -> string -> option DeclarativeConfig * option error)
    (packageName : string) (f : CatalogWalkFunc S) (selector : Selector) (s : S) : S * option error :=
  match listCatalogs selector with
  | inl err => (s, Some (EWrap "error listing catalogs: " err ""))
  | inr catalogs =>
      walk_catalogs getPackage packageName f (Filter catalogs (Not catalog_disabled)) s
  end.

(** type CatalogResolver struct *)
Record CatalogResolver := mkResolver {
  WalkCatalogsFunc : string -> CatalogWalkFunc walkState -> Selector -> walkState -> walkState * option error;
  Validations : list (Bundle -> option error);
}.

(** The predicates the callback collects: by channel, by version range and by
    the upgrade graph.  Filtering the channels rewrites the catalog's channel
    slice in place, and the upgrade graph is read from that slice. *)
Definition channel_filter (channels : list string) (fbc : DeclarativeConfig)
  : list (Predicate Bundle) * list Channel :=
  match channels with
  | [] => ([], fbc_Channels fbc)
  | _ =>
      let '(filtered, rest) :=
        DeleteFunc zeroChannel (fbc_Channels fbc) (fun c => negb (bool_decide (ch_Name c ∈ channels))) in
      ([InAnyChannel filtered], rest)
  end.

Definition catalog_predicates (filter : CatalogFilter) (range : option (Version -> bool))
    (installed : option BundleMetadata) (fbc : DeclarativeConfig) : result (list (Predicate Bundle)) :=
  let '(channelPreds, fbcChannels) := channel_filter (cf_Channels filter) fbc in
  let rangePreds := match range with Some r => [InSemverRange r] | None => [] end in
  match installed with
  | Some ib =>
      if bool_decide (cf_UpgradeConstraintPolicy filter = UpgradeConstraintPolicySelfCertified)
      then inr (channelPreds ++ rangePreds)
      else match SuccessorsOf ib fbcChannels with
           | inl err => inl (EWrap "error finding upgrade edges: " err "")
           | inr p => inr (channelPreds ++ rangePreds ++ [p])
           end
  | None => inr (channelPreds ++ rangePreds)
  end.

Definition zeroBundle : Bundle := mkBundle "" "" "" [].

(** The order the candidates of one catalog are sorted in. *)
Definition candidate_cmp (dep : option Deprecation) (a b : Bundle) : Z :=
  cmp_then (match dep with Some d => ByDeprecationFunc d | None => fun _ _ => 0 end)
    ByVersionAndRelease a b.

(** The callback Resolve passes to the catalog walk. *)
Definition resolve_callback (filter : CatalogFilter) (range : option (Version -> bool))
    (installed : option BundleMetadata) : CatalogWalkFunc walkState := fun s cat packageFBC err =>
  match err with
  | Some e =>
      (s, Some (EWrap ("error getting package " +:+ fmt_q (cf_PackageName filter) +:+ " from catalog " +:+
                       fmt_q (cat_Name cat) +:+ ": ") e ""))
  | None =>
      if isFBCEmpty packageFBC then
        (mkWalk (ws_catStats s ++ [mkStat (cat_Name cat) false 0 0]) (ws_resolvedBundles s)
           (ws_priorDeprecation s), None)
      else
        match packageFBC with
        | None => (s, None)
        | Some fbc =>
            let total := length (fbc_Bundles fbc) in
            match catalog_predicates filter range installed fbc with
            | inl e =>
                (mkWalk (ws_catStats s ++ [mkStat (cat_Name cat) true total 0]) (ws_resolvedBundles s)
                   (ws_priorDeprecation s), Some e)
            | inr predicates =>
                let bundles := InPlace zeroBundle (fbc_Bundles fbc) (And predicates) in
                let stats := ws_catStats s ++ [mkStat (cat_Name cat) true total (length bundles)] in
                let thisDeprecation := head (fbc_Deprecations fbc) in
                match sort_by (candidate_cmp thisDeprecation) bundles with
                | [] => (mkWalk stats (ws_resolvedBundles s) (ws_priorDeprecation s), None)
                | thisBundle :: _ =>
                    let found := mkFound thisBundle (cat_Name cat) (ccs_Priority (cat_Spec cat)) in
                    match last (ws_resolvedBundles s) with
                    | None => (mkWalk stats (ws_resolvedBundles s ++ [found]) thisDeprecation, None)
                    | Some prior =>
                        let currentIsDeprecated := isDeprecated thisBundle thisDeprecation in
                        let priorIsDeprecated := isDeprecated (fb_bundle prior) (ws_priorDeprecation s) in
                        if currentIsDeprecated && negb priorIsDeprecated then
                          (mkWalk stats (ws_resolvedBundles s) (ws_priorDeprecation s), None)
                        else if negb currentIsDeprecated && priorIsDeprecated then
                          (mkWalk stats [found] thisDeprecation, None)
                        else (mkWalk stats (ws_resolvedBundles s ++ [found]) thisDeprecation, None)
                    end
                end
            end
        end
  end.

(** sort.Slice by descending priority. *)
Definition priority_cmp (a b : foundBundle) : Z := int_cmp (fb_priority b) (fb_priority a).

(** What is left of the candidates once sorted by priority. *)
Definition reduce_priority (sorted : list foundBundle) : list foundBundle :=
  match sorted with
  | a :: b :: _ => if negb (fb_priority a =? fb_priority b) then [a] else sorted
  | _ => sorted
  end.

Definition select_priority (l : list foundBundle) : list foundBundle :=
  if (1 <? length l)%nat then reduce_priority (sort_by priority_cmp l) else l.

Fixpoint run_validations (name : string) (vs : list (Bundle -> option error)) (b : Bundle) : option error :=
  match vs with
  | [] => None
  | v :: vs' =>
      match v b with
      | Some err => Some (EWrap ("validating bundle " +:+ fmt_q name +:+ ": ") err "")
      | None => run_validations name vs' b
      end
  end.

(** The part of Resolve after the walk. *)
Definition finish_resolve (r : CatalogResolver) (filter : CatalogFilter)
    (installed : option BundleMetadata) (s : walkState)
  : result (Bundle * VersionRelease * option Deprecation) :=
  match select_priority (ws_resolvedBundles s) with
  | [fb] =>
      let resolvedBundle := fb_bundle fb in
      match GetVersionAndRelease resolvedBundle with
      | inl err =>
          inl (EWrap ("error getting resolved bundle version for bundle " +:+
                      fmt_q (b_Name resolvedBundle) +:+ ": ") err "")
      | inr vr =>
          match run_validations (b_Name resolvedBundle) (Validations r) resolvedBundle with
          | Some err => inl err
          | None => inr (resolvedBundle, vr, ws_priorDeprecation s)
          end
      end
  | resolvedBundles =>
      inl (ENew (resolutionError_Error
                   (mkResErr (cf_PackageName filter) (cf_Version filter) (cf_Channels filter)
                      installed resolvedBundles)))
  end.

(** The selector the catalogs are listed with. *)
Definition catalog_selector (filter : CatalogFilter) : result Selector :=
  match LabelSelectorAsSelector (cf_Selector filter) with
  | inl err => inl (EWrap "desired catalog selector is invalid: " err "")
  | inr sel => inr (if decide (sel = labels_Nothing) then labels_Everything else sel)
  end.

Definition version_range (filter : CatalogFilter) : result (option (Version -> bool)) :=
  if bool_decide (cf_Version filter = EmptyString) then inr None
  else match NewVersionRange (cf_Version filter) with
       | inl err => inl (EWrap ("desired version range " +:+ fmt_q (cf_Version filter) +:+ " is invalid: ") err "")
       | inr r => inr (Some r)
       end.

(** func (r *CatalogResolver) Resolve(ctx, ext, installedBundle); the package
    name is read through ext.Spec.Source.Catalog before that pointer is tested
    for nil. *)
Definition Resolve (r : CatalogResolver) (ext : ClusterExtension) (installed : option BundleMetadata)
  : go (result (Bundle * VersionRelease * option Deprecation)) :=
  match src_Catalog (es_Source (ext_Spec ext)) with
  | None => Panic "nil pointer dereference"
  | Some filter =>
      Ret (match catalog_selector filter with
           | inl err => inl err
           | inr selector =>
               match version_range filter with
               | inl err => inl err
               | inr range =>
                   let '(s, walkErr) :=
                     WalkCatalogsFunc r (cf_PackageName filter)
                       (resolve_callback filter range installed) selector walk_init in
                   match walkErr with
                   | Some err => inl (EWrap "error walking catalogs: " err "")
                   | None => finish_resolve r filter installed s
                   end
               end
           end)
  end.

End Resolver.

(** ** What the walk computes

    An abstract account of the walk: each enabled catalog that has a candidate
    makes one offer, its best candidate; the offers that are not deprecated
    win over the deprecated ones. *)

(** An offer: the best candidate of a catalog with the deprecation data it
    was judged by. *)
Abbreviation offer := (foundBundle * option Deprecation)%type.

Section WalkSpec.
Context `{SV : BSemver} `{PP : PackageProperty} `{MM : MMSemver} `{LA : LabelsAPI}.
Context (filter : CatalogFilter) (range : option (Version -> bool)) (installed : option BundleMetadata).


Definition offer_deprecated (o : offer) : bool := isDeprecated (fb_bundle o.1) o.2.

Definition candidates (fbc : DeclarativeConfig) : list Bundle :=
  match catalog_predicates filter range installed fbc with
  | inr ps => Filter (fbc_Bundles fbc) (And ps)
  | inl _ => []
  end.

Definition catalog_offer (cat : ClusterCatalog) (fbc : option DeclarativeConfig) : option offer :=
  match fbc with
  | None => None
  | Some f =>
      if isFBCEmpty fbc then None
      else match sort_by (candidate_cmp (head (fbc_Deprecations f))) (candidates f) with
           | [] => None
           | b :: _ => Some (mkFound b (cat_Name cat) (ccs_Priority (cat_Spec cat)),
                             head (fbc_Deprecations f))
           end
  end.

(** The offers kept: the ones that are not deprecated, or all if none is. *)
Definition kept_offers (os : list offer) : list offer :=
  match Filter os (Not offer_deprecated) with
  | [] => os
  | l => l
  end.

Definition walk_spec (os : list offer) : list foundBundle * option Deprecation :=
  (map fst (kept_offers os), match last (kept_offers os) with Some o => o.2 | None => None end).

Definition walk_abs (s : walkState) : list foundBundle * option Deprecation :=
  (ws_resolvedBundles s, ws_priorDeprecation s).

Lemma Filter_app {T} (l1 l2 : list T) f : Filter (l1 ++ l2) f = Filter l1 f ++ Filter l2 f.
Proof. induction l1 as [|x l1 IH]; simpl; [done|]. destruct (f x); simpl; by rewrite IH. Qed.

(** The kept offers are all deprecated, or none is. *)
Lemma kept_uniform os o o' :
  o ∈ kept_offers os -> o' ∈ kept_offers os -> offer_deprecated o = offer_deprecated o'.
Proof.
  unfold kept_offers. destruct (Filter os (Not offer_deprecated)) as [|x l] eqn:E.
  - assert (Hd : forall o, o ∈ os -> offer_deprecated o = true).
    { intros p Hp. destruct (offer_deprecated p) eqn:Ep; [done|].
      assert (Hin : p ∈ Filter os (Not offer_deprecated)).
      { apply elem_of_Filter. unfold Not. by rewrite Ep. }
      rewrite E in Hin. set_solver. }
    intros ? ?. by rewrite !Hd.
  - rewrite <- E. intros [_ H1]%elem_of_Filter [_ H2]%elem_of_Filter.
    unfold Not in *. destruct (offer_deprecated o), (offer_deprecated o'); done.
Qed.

Lemma kept_nil os : kept_offers os = [] <-> os = [].
Proof.
  unfold kept_offers. split; [|by intros ->].
  destruct (Filter os (Not offer_deprecated)) eqn:E; [done|discriminate].
Qed.

Lemma last_map_Some {A B} (f : A -> B) l : last (map f l) = f <$> last l.
Proof.
  induction l as [|x l IH]; [done|]. destruct l as [|y l]; [done|]. exact IH.
Qed.

(** Adding an offer at the end, by its deprecation status and that of the
    offers kept so far. *)
Lemma kept_snoc os o :
  kept_offers (os ++ [o]) =
  match last (kept_offers os) with
  | None => [o]
  | Some p =>
      if offer_deprecated o && negb (offer_deprecated p) then kept_offers os
      else if negb (offer_deprecated o) && offer_deprecated p then [o]
      else kept_offers os ++ [o]
  end.
Proof.
  destruct (last (kept_offers os)) as [p|] eqn:El.
  2:{ apply last_None in El. apply kept_nil in El as ->. unfold kept_offers. simpl.
      unfold Not. by destruct (offer_deprecated o). }
  pose proof (last_elem_of _ _ El) as Hp. unfold kept_offers in *.
  rewrite Filter_app. simpl. unfold Not at 2.
  destruct (Filter os (Not offer_deprecated)) as [|x l] eqn:E.
  - assert (Hpd : offer_deprecated p = true).
    { destruct (offer_deprecated p) eqn:Ep; [done|].
      assert (p ∈ Filter os (Not offer_deprecated)) as Hin.
      { apply elem_of_Filter. unfold Not. by rewrite Ep. }
      rewrite E in Hin. set_solver. }
    rewrite Hpd. by destruct (offer_deprecated o).
  - rewrite <- E in Hp |- *.
    apply elem_of_Filter in Hp as [_ Hpd]. unfold Not in Hpd.
    destruct (offer_deprecated p); [done|]. rewrite E.
    destruct (offer_deprecated o); simpl; [by rewrite app_nil_r|done].
Qed.

(** One callback step refines adding the catalog's offer, if any. *)
Lemma callback_refines s cat fbc os s' :
  walk_abs s = walk_spec os ->
  resolve_callback filter range installed s cat fbc None = (s', None) ->
  walk_abs s' = walk_spec (match catalog_offer cat fbc with Some o => os ++ [o] | None => os end).
Proof.
  unfold walk_abs. intros Hs H. pose proof (f_equal fst Hs) as Hr. pose proof (f_equal snd Hs) as Hd.
  simpl in Hr, Hd. unfold resolve_callback in H. unfold catalog_offer.
  destruct fbc as [fbc|]; [|simpl in H; inversion H; subst; exact Hs].
  destruct (isFBCEmpty (Some fbc)) eqn:Ee; [inversion H; subst; exact Hs|].
  unfold candidates. destruct (catalog_predicates filter range installed fbc) as [|ps]; [discriminate|].
  rewrite InPlace_Filter in H.
  destruct (sort_by _ (Filter (fbc_Bundles fbc) (And ps))) as [|b bs];
    [inversion H; subst; exact Hs|].
  rewrite Hr, last_map_Some, Hd in H. unfold walk_spec. rewrite kept_snoc.
  revert H. destruct (last (kept_offers os)) as [p|] eqn:El; simpl; intros H.
  - revert H. rewrite ?El. unfold offer_deprecated in *. simpl.
    destruct (isDeprecated b _ && negb (isDeprecated (fb_bundle p.1) p.2)).
    { intros [= <-]. simpl. by rewrite El. }
    destruct (negb (isDeprecated b _) && isDeprecated (fb_bundle p.1) p.2);
      intros [= <-]; simpl; [done|].
    by rewrite map_app, last_snoc.
  - revert H. rewrite ?El. apply last_None in El. rewrite El. simpl. by intros [= <-].
Qed.

(** The offers of a list of catalogs. *)
Definition offers_of (getPackage : ClusterCatalog -> string -> option DeclarativeConfig * option error)
    (catalogs : list ClusterCatalog) : list offer :=
  omap (fun cat => catalog_offer cat (getPackage cat (cf_PackageName filter)).1) catalogs.

Lemma callback_error s cat fbc e s' r :
  resolve_callback filter range installed s cat fbc (Some e) = (s', r) -> r <> None.
Proof. simpl. by intros [= _ <-]. Qed.

Lemma walk_refines getPackage catalogs os s s' :
  walk_abs s = walk_spec os ->
  walk_catalogs getPackage (cf_PackageName filter) (resolve_callback filter range installed) catalogs s
    = (s', None) ->
  walk_abs s' = walk_spec (os ++ offers_of getPackage catalogs).
Proof.
  revert os s. induction catalogs as [|cat catalogs IH]; intros os s Hs H; simpl in *.
  { inversion H; subst. by rewrite app_nil_r. }
  destruct (getPackage cat (cf_PackageName filter)) as [fbc fbcErr] eqn:Eg.
  destruct (resolve_callback filter range installed s cat fbc fbcErr) as [s1 r] eqn:Ec.
  destruct r as [|]; [discriminate|].
  destruct fbcErr as [e|]; [by apply callback_error in Ec|].
  pose proof (callback_refines _ _ _ _ _ Hs Ec) as H1. specialize (IH _ _ H1 H).
  rewrite IH.
  simpl. destruct (catalog_offer cat fbc); [by rewrite <- app_assoc|done].
Qed.

(** The whole walk, from the initial state. *)
Lemma walk_result getPackage catalogs s :
  walk_catalogs getPackage (cf_PackageName filter) (resolve_callback filter range installed) catalogs walk_init
    = (s, None) ->
  ws_resolvedBundles s = map fst (kept_offers (offers_of getPackage catalogs)).
Proof.
  intros H. assert (Hi : walk_abs walk_init = walk_spec []) by done.
  by pose proof (f_equal fst (walk_refines _ _ [] _ _ Hi H)).
Qed.

(** A walk without error consulted every catalog successfully. *)
Lemma walk_consulted getPackage catalogs s s' cat :
  walk_catalogs getPackage (cf_PackageName filter) (resolve_callback filter range installed) catalogs s
    = (s', None) ->
  cat ∈ catalogs -> (getPackage cat (cf_PackageName filter)).2 = None.
Proof.
  revert s. induction catalogs as [|c catalogs IH]; intros s H Hin; simpl in *; [set_solver|].
  destruct (getPackage c (cf_PackageName filter)) as [fbc fbcErr] eqn:Eg.
  destruct (resolve_callback filter range installed s c fbc fbcErr) as [s1 r] eqn:Ec.
  destruct r as [|]; [discriminate|].
  destruct fbcErr as [e|]; [by apply callback_error in Ec|].
  apply elem_of_cons in Hin as [->|Hin]; [by rewrite Eg|by eapply IH].
Qed.

End WalkSpec.

(** ** Which bundles of a catalog are candidates *)

Section Candidates.
Context `{SV : BSemver} `{PP : PackageProperty} `{MM : MMSemver} `{LA : LabelsAPI}.
Context (filter : CatalogFilter) (range : option (Version -> bool)) (installed : option BundleMetadata).

(** The channels the spec asks for; all of them when it names none. *)
Definition visible_channels (fbc : DeclarativeConfig) : list Channel :=
  match cf_Channels filter with
  | [] => fbc_Channels fbc
  | cs => Filter (fbc_Channels fbc) (fun c => bool_decide (ch_Name c ∈ cs))
  end.

(** The conditions of the spec on a bundle, one by one. *)
Definition selectable (fbc : DeclarativeConfig) (b : Bundle) : Prop :=
  b ∈ fbc_Bundles fbc /\
  (cf_Channels filter <> [] ->
     exists ch e, ch ∈ visible_channels fbc /\ e ∈ ch_Entries ch /\ ce_Name e = b_Name b) /\
  (forall r, range = Some r -> exists vr, GetVersionAndRelease b = inr vr /\ r (vr_Version vr) = true) /\
  (forall ib, installed = Some ib ->
     cf_UpgradeConstraintPolicy filter <> UpgradeConstraintPolicySelfCertified ->
     upgrade_edge ib (visible_channels fbc) b \/
     exists vr, NewLegacyRegistryV1VersionRelease (bm_Version ib) = inr vr /\
                ExactVersionRelease vr b = true).

(** The channel predicate, and the channels the upgrade graph is read from:
    the same as the visible ones up to cleared slots. *)
Lemma channel_filter_spec fbc ps chs b ib :
  channel_filter (cf_Channels filter) fbc = (ps, chs) ->
  (And ps b = true <->
   (cf_Channels filter <> [] ->
    exists ch e, ch ∈ visible_channels fbc /\ e ∈ ch_Entries ch /\ ce_Name e = b_Name b)) /\
  (upgrade_edge ib chs b <-> upgrade_edge ib (visible_channels fbc) b).
Proof.
  unfold channel_filter, visible_channels. destruct (cf_Channels filter) as [|c cs].
  - intros [= <- <-]. split; [|done]. split; [done|]. done.
  - unfold DeleteFunc. rewrite (Filter_ext _ _ (fun ch => bool_decide (ch_Name ch ∈ c :: cs))).
    2:{ intros x. unfold Not. by rewrite negb_involutive. }
    intros [= <- <-]. split; [|apply upgrade_edge_zero].
    rewrite And_spec. setoid_rewrite list_elem_of_singleton. split.
    + intros H _. by apply InAnyChannel_spec, H.
    + intros H p ->. apply InAnyChannel_spec, H. done.
Qed.

Lemma And_app {T} (ps qs : list (Predicate T)) x : And (ps ++ qs) x = And ps x && And qs x.
Proof. induction ps as [|p ps IH]; simpl; [done|]. destruct (p x); simpl; [apply IH|done]. Qed.

Lemma And_single {T} (p : Predicate T) x : And [p] x = p x.
Proof. simpl. by destruct (p x). Qed.

Lemma range_preds_spec b :
  And (match range with Some r => [InSemverRange r] | None => [] end) b = true <->
  (forall r, range = Some r -> exists vr, GetVersionAndRelease b = inr vr /\ r (vr_Version vr) = true).
Proof.
  destruct range as [r|]; [|by split]. rewrite And_single. unfold InSemverRange.
  destruct (GetVersionAndRelease b) as [e|vr].
  - split; [discriminate|]. intros H. destruct (H r eq_refl) as (? & [=] & _).
  - split.
    + intros H r' [= <-]. eauto.
    + intros H. by destruct (H r eq_refl) as (? & [= <-] & ?).
Qed.

(** The candidates of a catalog are exactly the selectable bundles. *)
Lemma candidates_spec fbc ps b :
  catalog_predicates filter range installed fbc = inr ps ->
  b ∈ candidates filter range installed fbc <-> selectable fbc b.
Proof.
  intros Hp. unfold candidates. rewrite Hp, elem_of_Filter. unfold selectable.
  revert Hp. unfold catalog_predicates.
  destruct (channel_filter (cf_Channels filter) fbc) as [cps chs] eqn:Ec.
  pose proof (fun ib => channel_filter_spec _ _ _ b ib Ec) as Hc.
  destruct installed as [ib|]; [case_bool_decide as Epol|].
  - intros [= <-]. rewrite And_app, andb_true_iff, range_preds_spec.
    destruct (Hc ib) as [-> _]. naive_solver.
  - destruct (SuccessorsOf ib chs) as [|p] eqn:Es; [discriminate|]. intros [= <-].
    rewrite !And_app, And_single, !andb_true_iff, range_preds_spec.
    destruct (Hc ib) as [-> Hu].
    rewrite (SuccessorsOf_spec _ _ _ b Es), Hu. naive_solver.
  - intros [= <-]. rewrite And_app, andb_true_iff, range_preds_spec.
    destruct (Hc (mkBM EmptyString EmptyString)) as [-> _]. naive_solver.
Qed.

#[export] Instance no_cmp_order {A} : CmpOrder (fun _ _ : A => 0).
Proof. split; lia. Qed.

#[export] Instance candidate_cmp_order dep : CmpOrder (candidate_cmp dep).
Proof.
  unfold candidate_cmp. destruct dep as [d|].
  - apply (cmp_then_order (ByDeprecationFunc d) ByVersionAndRelease).
  - apply (cmp_then_order (fun _ _ => 0) ByVersionAndRelease).
Qed.

(** An offer is a selectable bundle of the catalog, no worse than any other
    one, by deprecation and then by version. *)
Lemma catalog_offer_sound cat fbc o :
  catalog_offer filter range installed cat fbc = Some o ->
  exists f, fbc = Some f /\ selectable f (fb_bundle o.1) /\ o.2 = head (fbc_Deprecations f) /\
    fb_catalog o.1 = cat_Name cat /\ fb_priority o.1 = ccs_Priority (cat_Spec cat) /\
    forall b, selectable f b -> candidate_cmp o.2 (fb_bundle o.1) b <= 0.
Proof.
  unfold catalog_offer. destruct fbc as [f|]; [|discriminate].
  destruct (isFBCEmpty (Some f)); [discriminate|].
  destruct (sort_by _ _) as [|b bs] eqn:Es; [discriminate|]. intros [= <-]. exists f.
  destruct (catalog_predicates filter range installed f) as [e|ps] eqn:Ep.
  { unfold candidates in Es. rewrite Ep in Es. discriminate. }
  apply (sort_by_head _) in Es as [Hb Hmin].
  pose proof (candidates_spec f ps) as Hc.
  split; [done|]. split; [by apply (Hc _ Ep)|]. repeat split; [done..|].
  intros b' Hb'. by apply Hmin, (Hc _ Ep).
Qed.

End Candidates.

(** ** When the walk succeeds, and its independence of the listing order *)

Section WalkOrder.
Context `{SV : BSemver} `{PP : PackageProperty} `{MM : MMSemver} `{LA : LabelsAPI}.
Context (filter : CatalogFilter) (range : option (Version -> bool)) (installed : option BundleMetadata).
Context (getPackage : ClusterCatalog -> string -> option DeclarativeConfig * option error).

(** A catalog the callback processes without error. *)
Definition catalog_ok (cat : ClusterCatalog) : Prop :=
  let p := getPackage cat (cf_PackageName filter) in
  p.2 = None /\
  (forall fbc, p.1 = Some fbc -> isFBCEmpty (Some fbc) = false ->
     exists ps, catalog_predicates filter range installed fbc = inr ps).

Lemma callback_ok s cat :
  (resolve_callback filter range installed s cat (getPackage cat (cf_PackageName filter)).1
     (getPackage cat (cf_PackageName filter)).2).2 = None <-> catalog_ok cat.
Proof.
  unfold catalog_ok, resolve_callback.
  destruct (getPackage cat (cf_PackageName filter)) as [fbc [e|]]; cbn [fst snd].
  { split; [discriminate|]. by intros [? _]. }
  destruct fbc as [fbc|]; [|split; [|done]; intros _; split; [done|]; discriminate].
  destruct (isFBCEmpty (Some fbc)) eqn:Ee.
  { split; [|done]. intros _. split; [done|]. intros f [= <-]. congruence. }
  destruct (catalog_predicates filter range installed fbc) as [e|ps] eqn:Ep.
  - split; [discriminate|]. intros [_ H]. destruct (H fbc eq_refl Ee) as [ps Hp]. congruence.
  - split; [|by repeat case_match].
    intros _. split; [done|]. intros f [= <-] _. eauto.
Qed.

Lemma walk_ok catalogs s :
  (walk_catalogs getPackage (cf_PackageName filter) (resolve_callback filter range installed)
     catalogs s).2 = None <-> Forall catalog_ok catalogs.
Proof.
  revert s. induction catalogs as [|cat catalogs IH]; intros s; simpl; [by split|].
  pose proof (callback_ok s cat) as Hc.
  destruct (getPackage cat (cf_PackageName filter)) as [fbc fbcErr]; simpl in Hc.
  destruct (resolve_callback filter range installed s cat fbc fbcErr) as [s1 r]; simpl in Hc.
  rewrite Forall_cons, <- Hc. destruct r as [e|].
  - split; [discriminate|]. by intros [? _].
  - rewrite IH. naive_solver.
Qed.

Lemma Filter_permutation {T} (l1 l2 : list T) f : l1 ≡ₚ l2 -> Filter l1 f ≡ₚ Filter l2 f.
Proof.
  induction 1 as [|x l1 l2 _ IH|x y l|l1 l2 l3 _ IH1 _ IH2]; simpl.
  - done.
  - destruct (f x); [by rewrite IH|done].
  - destruct (f x), (f y); try done. apply Permutation_swap.
  - by rewrite IH1.
Qed.

Lemma kept_permutation os os' : os ≡ₚ os' -> kept_offers os ≡ₚ kept_offers os'.
Proof.
  intros H. unfold kept_offers. pose proof (Filter_permutation _ _ (Not offer_deprecated) H) as Hf.
  destruct (Filter os _) as [|x l]; [apply Permutation_nil_l in Hf; by rewrite <- Hf|].
  destruct (Filter os' _) as [|y l']; [by apply Permutation_nil_r in Hf|done].
Qed.

Lemma offers_permutation cats cats' :
  cats ≡ₚ cats' ->
  offers_of filter range installed getPackage cats ≡ₚ offers_of filter range installed getPackage cats'.
Proof. intros H. unfold offers_of. by rewrite H. Qed.

End WalkOrder.

(** ** Selecting by priority *)

#[export] Instance priority_cmp_order : CmpOrder priority_cmp.
Proof.
  unfold priority_cmp. split.
  - intros x y. apply (cmp_anti (cmp := int_cmp)).
  - intros x y z H1 H2. by eapply (cmp_trans (cmp := int_cmp)).
Qed.

Lemma priority_cmp_le a b : priority_cmp a b <= 0 <-> fb_priority b <= fb_priority a.
Proof. apply int_cmp_le. Qed.

(** A single survivor of a sorted list of several has a priority above all
    the others; and conversely. *)
Lemma reduce_priority_singleton l fb :
  (1 < length l)%nat -> StronglySorted (cmp_le priority_cmp) l ->
  reduce_priority l = [fb] <->
  exists l', l = fb :: l' /\ forall x, x ∈ l' -> fb_priority x < fb_priority fb.
Proof.
  intros Hlen Hs. destruct l as [|a [|b l]]; simpl in Hlen; try lia. simpl.
  inversion Hs as [|? ? Hs' Ha]; subst. inversion Hs' as [|? ? _ Hb]; subst.
  rewrite Forall_forall in Ha, Hb.
  assert (Hab : fb_priority b <= fb_priority a) by (apply priority_cmp_le, Ha; set_solver).
  destruct (Z.eqb_spec (fb_priority a) (fb_priority b)) as [E|E]; simpl.
  - split; [discriminate|]. intros (l' & [= -> <-] & H).
    specialize (H b ltac:(set_solver)). lia.
  - split.
    + intros [= <-]. eexists; split; [done|]. intros x [->|Hx]%elem_of_cons; [lia|].
      specialize (Hb x Hx). apply priority_cmp_le in Hb. lia.
    + by intros (l' & [= -> <-] & _).
Qed.

Lemma strict_max_split (l : list foundBundle) fb l' :
  l ≡ₚ fb :: l' -> (forall x, x ∈ l' -> fb_priority x < fb_priority fb) ->
  StronglySorted (cmp_le priority_cmp) l -> exists l'', l = fb :: l'' /\ l'' ≡ₚ l'.
Proof.
  intros Hp Hlt Hs. destruct l as [|a l]; [by apply Permutation_nil_cons in Hp|].
  inversion Hs as [|? ? _ Ha]; subst. rewrite Forall_forall in Ha.
  assert (a = fb) as ->.
  { assert (a ∈ fb :: l') as [|Hin]%elem_of_cons by (rewrite <- Hp; set_solver); [done|].
    assert (fb ∈ a :: l) as [|Hfb]%elem_of_cons by (rewrite Hp; set_solver); [done|].
    specialize (Ha _ Hfb). apply priority_cmp_le in Ha. specialize (Hlt _ Hin). lia. }
  exists l. split; [done|]. by apply Permutation_cons_inv in Hp.
Qed.

(** Whatever order an unstable sort leaves bundles of equal priority in, the
    same single bundle survives. *)
Lemma reduce_priority_any_sort l1 l2 fb :
  l1 ≡ₚ l2 -> (1 < length l1)%nat ->
  StronglySorted (cmp_le priority_cmp) l1 -> StronglySorted (cmp_le priority_cmp) l2 ->
  reduce_priority l1 = [fb] -> reduce_priority l2 = [fb].
Proof.
  intros Hp Hl H1 H2 H. apply reduce_priority_singleton in H as (l' & -> & Hlt); [|done..].
  assert (Hl2 : (1 < length l2)%nat) by (rewrite <- Hp; done).
  symmetry in Hp. destruct (strict_max_split _ _ _ Hp Hlt H2) as (l'' & -> & Hp').
  apply reduce_priority_singleton; [done..|]. exists l''. split; [done|].
  intros x Hx. apply Hlt. by rewrite <- Hp'.
Qed.

(** The bundle selected is in the list and strictly dominates the others. *)
Lemma select_priority_spec l fb :
  select_priority l = [fb] <->
  exists l', l ≡ₚ fb :: l' /\ forall x, x ∈ l' -> fb_priority x < fb_priority fb.
Proof.
  unfold select_priority. destruct (Nat.ltb_spec 1 (length l)) as [Hl|Hl].
  - rewrite reduce_priority_singleton by (rewrite ?sort_by_length; first [exact Hl|apply sort_by_sorted, _]).
    split.
    + intros (l' & E & H). exists l'. split; [|done]. rewrite <- E. symmetry. apply sort_by_perm.
    + intros (l' & Hp & H).
      destruct (strict_max_split (sort_by priority_cmp l) fb l') as (l'' & E & Hp');
        [by rewrite sort_by_perm|done|apply sort_by_sorted, _|].
      exists l''. split; [done|]. intros x Hx. apply H. by rewrite <- Hp'.
  - split.
    + intros ->. exists []. split; [done|set_solver].
    + intros (l' & Hp & _). pose proof (Permutation_length Hp) as Hn. simpl in Hn.
      destruct l' as [|]; simpl in *; [by apply Permutation_singleton_r|lia].
Qed.

(** With a tie at the top nothing is dropped. *)
Lemma equal_top_not_reduced s x y l :
  s ≡ₚ x :: y :: l -> StronglySorted (cmp_le priority_cmp) s ->
  fb_priority x = fb_priority y -> (forall z, z ∈ l -> fb_priority z <= fb_priority x) ->
  reduce_priority s ≡ₚ x :: y :: l.
Proof.
  intros Hp Hs Hxy Hmax.
  destruct s as [|a [|b s]]; [by apply Permutation_nil_cons in Hp|by apply Permutation_length in Hp|].
  simpl. destruct (Z.eqb_spec (fb_priority a) (fb_priority b)) as [E|E]; simpl; [done|].
  exfalso.
  assert (Hsing : reduce_priority (a :: b :: s) = [a])
    by (simpl; destruct (Z.eqb_spec (fb_priority a) (fb_priority b)); done).
  apply reduce_priority_singleton in Hsing as (l' & [= <-] & Hlt); [|simpl; lia|done].
  assert (Ha : a ∈ x :: y :: l) by (rewrite <- Hp; set_solver).
  assert (Hle : fb_priority a <= fb_priority x).
  { apply elem_of_cons in Ha as [->|[->|Ha]%elem_of_cons]; [lia..|by apply Hmax]. }
  assert (Htwo : x ∈ b :: s \/ y ∈ b :: s).
  { apply elem_of_cons in Ha as [->|Ha].
    - apply Permutation_cons_inv in Hp. right. rewrite Hp. set_solver.
    - assert (Hx : x ∈ a :: b :: s) by (rewrite Hp; set_solver).
      apply elem_of_cons in Hx as [->|?]; [|by left].
      apply Permutation_cons_inv in Hp. right. rewrite Hp. set_solver. }
  destruct Htwo as [Hz|Hz]; apply Hlt in Hz; lia.
Qed.
