(* ===== verification/Instances.v ===== *)
(** * Concrete instances of the interfaces

    The interfaces to the libraries outside the repository ([BSemver],
    [MMSemver], [PackageProperty], [LabelsAPI]) are instantiated with small
    executable models.  They show that the laws the theorems rely on can hold
    together, and they run the definitions on the sample inputs of the
    witnesses.  No theorem about the program depends on them. *)

From S2P Require Import Prelude GoErrors VersionRelease ApiTypes Filter Resolve.

(** ** Lexicographic comparison *)
Fixpoint lex_cmp {A} (cmp : A -> A -> Z) (a b : list A) : Z :=
  match a, b with
  | [], [] => 0
  | [], _ :: _ => -1
  | _ :: _, [] => 1
  | x :: a', y :: b' => if cmp x y =? 0 then lex_cmp cmp a' b' else cmp x y
  end.

#[export] Instance lex_cmp_order {A} (cmp : A -> A -> Z) `{!CmpOrder cmp} : CmpOrder (lex_cmp cmp).
Proof.
  assert (Hz : forall x y, cmp x y = 0 <-> cmp y x = 0).
  { intros x y. pose proof (cmp_anti (cmp := cmp) x y). pose proof (cmp_anti (cmp := cmp) y x). lia. }
  split.
  - induction x as [|a x IH]; intros [|b y]; simpl; try lia.
    specialize (IH y). pose proof (Hz a b). pose proof (cmp_anti (cmp := cmp) a b).
    destruct (Z.eqb_spec (cmp a b) 0), (Z.eqb_spec (cmp b a) 0); lia.
  - induction x as [|a x IH]; intros [|b y] [|c z]; simpl; try lia.
    specialize (IH y z).
    pose proof (cmp_trans (cmp := cmp) a b c). pose proof (cmp_trans (cmp := cmp) b c a).
    pose proof (cmp_trans (cmp := cmp) c a b).
    pose proof (Hz a b). pose proof (Hz b c). pose proof (Hz a c).
    pose proof (cmp_anti (cmp := cmp) a b). pose proof (cmp_anti (cmp := cmp) b c).
    pose proof (cmp_anti (cmp := cmp) a c).
    destruct (Z.eqb_spec (cmp a b) 0), (Z.eqb_spec (cmp b c) 0), (Z.eqb_spec (cmp a c) 0); lia.
Qed.

Lemma lex_cmp_prefix {A} (cmp : A -> A -> Z) `{!CmpOrder cmp} p q :
  q <> [] -> lex_cmp cmp p (p ++ q) = -1.
Proof.
  intros Hq. induction p as [|x p IH]; simpl; [by destruct q|].
  by rewrite (cmp_refl cmp), IH.
Qed.

(** ** Semantic versions *)

Definition pr_cmp (a b : PRVersion) : Z := string_cmp (VersionStr a) (VersionStr b).

#[export] Instance pr_cmp_order : CmpOrder pr_cmp.
Proof. apply (cmp_on_order VersionStr string_cmp). Qed.

(** A version without pre-release identifiers comes after one that has some. *)
Definition pre_cmp (a b : list PRVersion) : Z :=
  match a, b with
  | [], [] => 0
  | [], _ :: _ => 1
  | _ :: _, [] => -1
  | _, _ => lex_cmp pr_cmp a b
  end.

#[export] Instance pre_cmp_order : CmpOrder pre_cmp.
Proof.
  split.
  - intros [|a x] [|b y]; unfold pre_cmp; try lia. apply (cmp_anti (cmp := lex_cmp pr_cmp)).
  - intros [|a x] [|b y] [|c z]; unfold pre_cmp; try lia. apply (cmp_trans (cmp := lex_cmp pr_cmp)).
Qed.

Definition version_key_cmp (a b : Version) : Z :=
  cmp_then (fun x y => lex_cmp int_cmp [Major x; Minor x; Patch x] [Major y; Minor y; Patch y])
    (fun x y => pre_cmp (Pre x) (Pre y)) a b.

#[export] Instance version_key_cmp_order : CmpOrder version_key_cmp.
Proof.
  apply cmp_then_order.
  - apply (cmp_on_order (fun v => [Major v; Minor v; Patch v]) (lex_cmp int_cmp)).
  - apply (cmp_on_order Pre pre_cmp).
Qed.

(** The versions the sample parser knows. *)
Definition version_table : list (string * Version) :=
  [("1.0.0", mkVersion 1 0 0 [] []);
   ("1.1.0", mkVersion 1 1 0 [] []);
   ("1.2.0", mkVersion 1 2 0 [] []);
   ("2.0.0", mkVersion 2 0 0 [] []);
   ("1.0.0+1", mkVersion 1 0 0 [] ["1"]);
   ("1.0.0+1.2", mkVersion 1 0 0 [] ["1"; "2"])].

Fixpoint table_find {A B} `{EqDecision A} (t : list (A * B)) (k : A) : option B :=
  match t with
  | [] => None
  | (a, b) :: t' => if decide (a = k) then Some b else table_find t' k
  end.

Definition sample_Parse (s : string) : result Version :=
  match table_find version_table s with
  | Some v => inr v
  | None => inl (ENew ("invalid version " +:+ s))
  end.

Definition sample_String (v : Version) : string :=
  default EmptyString (table_find (map (fun p => (p.2, p.1)) version_table) v).

Definition sample_PR (s : string) : result PRVersion :=
  if decide (s = EmptyString) then inl (ENew "Prerelease is empty") else inr (mkPR s 0 false).

(** The ranges it knows: an upper bound on the version. *)
Definition sample_range (s : string) : result (Version -> bool) :=
  if strings_HasPrefix s "<" then
    match sample_Parse (str_drop 1 s) with
    | inl e => inl e
    | inr v => inr (fun w => version_key_cmp w v <? 0)
    end
  else inl (ENew "invalid range").

Lemma table_find_In {A B} `{EqDecision A} (t : list (A * B)) k v :
  table_find t k = Some v -> (k, v) ∈ t.
Proof.
  induction t as [|[a b] t IH]; simpl; [done|].
  case_decide; [intros [= <-]; subst; set_solver|set_solver].
Qed.

Lemma sample_Parse_In s v : sample_Parse s = inr v -> (s, v) ∈ version_table.
Proof.
  unfold sample_Parse. destruct (table_find version_table s) as [w|] eqn:E; [|discriminate].
  intros [= <-]. by apply table_find_In.
Qed.

(** Check a property of every entry of the table by evaluation. *)
Ltac table_cases H :=
  apply sample_Parse_In in H; unfold version_table in H; rewrite !elem_of_cons in H;
  repeat (destruct H as [[= -> ->]|H]); [..|by apply not_elem_of_nil in H].

#[export] Program Instance semver_sample : BSemver := {|
  semver_Parse := sample_Parse;
  NewPRVersion := sample_PR;
  PR_String := VersionStr;
  Version_String := sample_String;
  Version_Compare := version_key_cmp;
  ParseRange := sample_range;
|}.
Next Obligation. done. Qed.
Next Obligation.
  intros p q Hp Hq. destruct p as [|a p]; [done|]. unfold version_key_cmp, cmp_then. simpl.
  rewrite (cmp_refl pr_cmp). simpl. by rewrite (lex_cmp_prefix pr_cmp p q Hq).
Qed.
Next Obligation. intros s p. unfold sample_PR. case_decide; [done|]. by intros [= <-]. Qed.
Next Obligation.
  intros s v H. table_cases H; simpl; repeat (constructor; try done).
Qed.
Next Obligation. intros s v H. table_cases H; vm_compute; reflexivity. Qed.

#[export] Instance mmsemver_sample : MMSemver := {|
  NewConstraint := fun s =>
    match sample_range s with
    | inl e => inl e
    | inr r => inr (fun m => r (mkVersion (mm_major m) (mm_minor m) (mm_patch m) [] []))
    end;
|}.

(** An olm.package property whose value is the version itself. *)
#[export] Instance package_sample : PackageProperty := {| unmarshal_package_version := inr |}.

(** Selectors by equality of labels. *)
#[export] Program Instance labels_sample : LabelsAPI := {|
  Selector := option (list (string * string));
  labels_Nothing := None;
  labels_Everything := Some [];
  LabelSelectorAsSelector := fun ls =>
    match ls with
    | None => inr None
    | Some l => inr (Some (map_to_list (ls_MatchLabels l)))
    end;
  selector_Matches := fun s m =>
    match s with
    | None => false
    | Some kvs => forallb (fun kv => bool_decide (m !! kv.1 = Some kv.2)) kvs
    end;
|}.
Next Obligation. done. Qed.
Next Obligation. done. Qed.

(** ** Sample objects *)

Definition sample_meta (name : string) : ObjectMeta :=
  mkMeta name "" (name +:+ "-uid") 1 ∅ ∅ [] [] 0 None.

Definition sample_bundle (name version : string) : Bundle :=
  mkBundle name "pkg" (name +:+ "-image") [mkProperty TypePackage version].

Definition sample_filter (version : string) (channels : list string) : CatalogFilter :=
  mkCatalogFilter "pkg" version channels None UpgradeConstraintPolicyCatalogProvided.

Definition sample_catalog (name : string) (priority : Z) (mode : string) : ClusterCatalog :=
  mkCatalog (sample_meta name) (mkCatSpec (mkCatSource SourceTypeImage None) priority mode)
    (mkCatStatus [] None None None).

Definition sample_ext (f : CatalogFilter) : ClusterExtension :=
  mkExt (sample_meta "ext") (mkExtSpec "ns" "sa" (mkSource "Catalog" (Some f)) None None 0)
    (mkExtStatus [] None []).

(** A message of [n] characters. *)
Fixpoint long_message (n : nat) : string :=
  match n with O => EmptyString | S k => "x" +:+ long_message k end.

Lemma long_message_length n : slen (long_message n) = Z.of_nat n.
Proof. unfold slen. f_equal. induction n as [|n IH]; [done|]. exact (f_equal S IH). Qed.
