(* ===== verification/ResolveProps.v ===== *)
(** * Properties of bundle resolution

    What a ClusterExtension is told to install: the theorems about
    [Resolve] with the repository's own catalog walk, and about the versions
    it compares.  The third-party libraries enter through the interfaces
    [BSemver], [MMSemver], [PackageProperty] and [LabelsAPI]; the witnesses use
    the sample instances. *)

From S2P Require Import Prelude GoErrors VersionRelease ApiTypes Filter Resolve Instances.

Section Resolution.
Context `{SV : BSemver} `{PP : PackageProperty} `{MM : MMSemver} `{LA : LabelsAPI}.
Context (listCatalogs : Selector -> result (list ClusterCatalog)).
Context (validations : list (Bundle -> option error)).

Definition catalog_resolver (getPackage : ClusterCatalog -> string -> option DeclarativeConfig * option error)
  : CatalogResolver :=
  mkResolver (CatalogWalker listCatalogs getPackage) validations.

Definition enabled (catalogs : list ClusterCatalog) : list ClusterCatalog :=
  Filter catalogs (Not catalog_disabled).

(** The declarative reading of resolution: the single offer that strictly
    dominates the kept ones by priority, whose version parses and which passes
    the validations. *)
Definition resolves_to (filter : CatalogFilter) (range : option (Version -> bool))
    (installed : option BundleMetadata)
    (getPackage : ClusterCatalog -> string -> option DeclarativeConfig * option error)
    (catalogs : list ClusterCatalog) (b : Bundle) (vr : VersionRelease) : Prop :=
  exists fb rest,
    map fst (kept_offers (offers_of filter range installed getPackage (enabled catalogs))) ≡ₚ fb :: rest /\
    (forall x, x ∈ rest -> fb_priority x < fb_priority fb) /\
    fb_bundle fb = b /\ GetVersionAndRelease b = inr vr /\
    (forall v, v ∈ validations -> v b = None).

Lemma run_validations_ok name vs b :
  run_validations name vs b = None <-> forall v, v ∈ vs -> v b = None.
Proof.
  induction vs as [|v vs IH]; simpl; [split; [set_solver|done]|].
  destruct (v b) eqn:E; [split; [discriminate|]; intros H; specialize (H v); set_solver|].
  rewrite IH. split; [|set_solver]. intros H u [->|Hu]%elem_of_cons; auto.
Qed.

Lemma finish_resolve_ok r filter installed s b vr dep :
  finish_resolve r filter installed s = inr (b, vr, dep) <->
  dep = ws_priorDeprecation s /\ exists fb,
    select_priority (ws_resolvedBundles s) = [fb] /\ fb_bundle fb = b /\
    GetVersionAndRelease b = inr vr /\ (forall v, v ∈ Validations r -> v b = None).
Proof.
  unfold finish_resolve. destruct (select_priority (ws_resolvedBundles s)) as [|fb [|fb' l]];
    [split; [discriminate|]; naive_solver| |split; [discriminate|]; naive_solver].
  destruct (GetVersionAndRelease (fb_bundle fb)) as [e|vr'] eqn:Ev.
  { split; [discriminate|]. intros (_ & fb' & [= <-] & <- & Hv & _). congruence. }
  pose proof (run_validations_ok (b_Name (fb_bundle fb)) (Validations r) (fb_bundle fb)) as Hr.
  destruct (run_validations _ _ _) as [e|].
  - split; [discriminate|]. intros (_ & fb' & [= <-] & <- & _ & Hv). by apply Hr in Hv.
  - split.
    + intros [= <- <- <-]. split; [done|]. exists fb. by repeat split; auto; apply Hr.
    + intros (-> & fb' & [= <-] & <- & Hv & _). rewrite Ev in Hv. by inversion Hv.
Qed.

(** The inputs of the walk, once the selector and the range are accepted. *)
Definition resolve_inputs (ext : ClusterExtension) (filter : CatalogFilter)
    (range : option (Version -> bool)) (catalogs : list ClusterCatalog) : Prop :=
  src_Catalog (es_Source (ext_Spec ext)) = Some filter /\
  version_range filter = inr range /\
  exists selector, catalog_selector filter = inr selector /\ listCatalogs selector = inr catalogs.

Lemma Resolve_run getPackage ext installed filter range catalogs :
  resolve_inputs ext filter range catalogs ->
  Resolve (catalog_resolver getPackage) ext installed =
  Ret (let '(s, walkErr) := walk_catalogs getPackage (cf_PackageName filter)
                              (resolve_callback filter range installed) (enabled catalogs) walk_init in
       match walkErr with
       | Some err => inl (EWrap "error walking catalogs: " err "")
       | None => finish_resolve (catalog_resolver getPackage) filter installed s
       end).
Proof.
  intros (Hf & Hr & sel & Hs & Hl). unfold Resolve. rewrite Hf, Hs, Hr. f_equal. simpl.
  unfold CatalogWalker. by rewrite Hl.
Qed.

Lemma Resolve_inputs_of getPackage ext installed res :
  Resolve (catalog_resolver getPackage) ext installed = Ret (inr res) ->
  exists filter range catalogs, resolve_inputs ext filter range catalogs.
Proof.
  unfold Resolve. destruct (src_Catalog (es_Source (ext_Spec ext))) as [filter|] eqn:Ef; [|discriminate].
  destruct (catalog_selector filter) as [|sel] eqn:Es; [discriminate|].
  destruct (version_range filter) as [|range] eqn:Er; [discriminate|].
  simpl. unfold CatalogWalker. destruct (listCatalogs sel) as [|cats] eqn:El; [discriminate|].
  intros _. exists filter, range, cats. split; [done|split; [done|eauto]].
Qed.

Lemma Resolve_ok_iff getPackage ext installed filter range catalogs b vr :
  resolve_inputs ext filter range catalogs ->
  (exists dep, Resolve (catalog_resolver getPackage) ext installed = Ret (inr (b, vr, dep))) <->
  Forall (catalog_ok filter range installed getPackage) (enabled catalogs) /\
  resolves_to filter range installed getPackage catalogs b vr.
Proof.
  intros Hin. rewrite (Resolve_run getPackage _ installed _ _ _ Hin).
  rewrite <- (walk_ok filter range installed getPackage (enabled catalogs) walk_init).
  destruct (walk_catalogs _ _ _ _ _) as [s [e|]] eqn:Ew; simpl.
  { split; [by intros (? & [=])|by intros [? _]]. }
  apply walk_result in Ew. unfold resolves_to. rewrite <- Ew. split.
  - intros (dep & [= H]). apply finish_resolve_ok in H as (_ & fb & Hs & Hb & Hv & Hval).
    apply select_priority_spec in Hs as (rest & Hp & Hlt). split; [done|]. by exists fb, rest.
  - intros (_ & fb & rest & Hp & Hlt & Hb & Hv & Hval). exists (ws_priorDeprecation s). f_equal.
    apply finish_resolve_ok. split; [done|]. exists fb.
    split; [|by auto]. apply select_priority_spec. eauto.
Qed.

(** *** Facts the properties share *)

Lemma offers_elem filter range installed getPackage cats o :
  o ∈ offers_of filter range installed getPackage cats <->
  exists cat, cat ∈ cats /\
    catalog_offer filter range installed cat (getPackage cat (cf_PackageName filter)).1 = Some o.
Proof. unfold offers_of. apply list_elem_of_omap. Qed.

Lemma kept_subset os o : o ∈ kept_offers os -> o ∈ os.
Proof.
  unfold kept_offers. destruct (Filter os (Not offer_deprecated)) eqn:E; [done|].
  rewrite <- E. by intros [? _]%elem_of_Filter.
Qed.

(** A kept offer that is deprecated means that all of them are. *)
Lemma kept_deprecated os o o' :
  o ∈ kept_offers os -> offer_deprecated o = true -> o' ∈ os -> offer_deprecated o' = true.
Proof.
  intros Hk Hd Ho'. destruct (offer_deprecated o') eqn:E; [done|].
  assert (Hin : o' ∈ Filter os (Not offer_deprecated)).
  { apply elem_of_Filter. unfold Not. by rewrite E. }
  revert Hk. unfold kept_offers. destruct (Filter os (Not offer_deprecated)) eqn:Ef; [set_solver|].
  rewrite <- Ef. intros [_ H]%elem_of_Filter. unfold Not in H. by rewrite Hd in H.
Qed.

Lemma isDeprecated_set b d :
  isDeprecated b (Some d) = bool_decide (b_Name b ∈ deprecatedBundles d).
Proof.
  apply eq_bool_prop_intro. rewrite !Is_true_true, bool_decide_eq_true.
  unfold isDeprecated, deprecatedBundles. rewrite existsb_elem, elem_of_list_to_set.
  rewrite list_elem_of_omap. split.
  - intros (e & He & [Hs Hn]%andb_true_iff). apply bool_decide_eq_true in Hs, Hn.
    exists e. split; [done|]. rewrite bool_decide_eq_true_2 by done. by f_equal.
  - intros (e & He & H). exists e. split; [done|]. case_bool_decide as Es; [|discriminate].
    inversion H as [Hn]. by rewrite (bool_decide_eq_true_2 _ eq_refl).
Qed.

(** The candidate order puts the bundles that are not deprecated first. *)
Lemma candidate_cmp_deprecated dep a b :
  candidate_cmp dep a b <= 0 -> isDeprecated a dep = true -> isDeprecated b dep = true.
Proof.
  unfold candidate_cmp, cmp_then. destruct dep as [d|]; [|done].
  rewrite !isDeprecated_set. unfold ByDeprecationFunc.
  destruct (bool_decide (b_Name a ∈ deprecatedBundles d)),
    (bool_decide (b_Name b ∈ deprecatedBundles d)); simpl; done || lia.
Qed.

(** ... and among the bundles of the same status the highest version first. *)
Lemma candidate_cmp_version dep a b vra vrb :
  candidate_cmp dep a b <= 0 -> isDeprecated a dep = isDeprecated b dep ->
  GetVersionAndRelease a = inr vra -> GetVersionAndRelease b = inr vrb ->
  VersionRelease_Compare vrb vra <= 0.
Proof.
  unfold candidate_cmp, cmp_then. intros H Hd Ha Hb.
  assert (Hz : (match dep with Some d => ByDeprecationFunc d | None => fun _ _ => 0 end) a b = 0).
  { destruct dep as [d|]; [|done]. rewrite !isDeprecated_set in Hd. unfold ByDeprecationFunc.
    rewrite Hd. simpl. by destruct (bool_decide (b_Name b ∈ deprecatedBundles d)). }
  rewrite Hz in H. simpl in H. unfold ByVersionAndRelease in H. by rewrite Ha, Hb in H.
Qed.

(** What a successful resolution tells about the catalog the bundle is from. *)
Lemma Resolve_offer getPackage ext installed b vr dep :
  Resolve (catalog_resolver getPackage) ext installed = Ret (inr (b, vr, dep)) ->
  exists filter range catalogs cat fbc,
    resolve_inputs ext filter range catalogs /\
    cat ∈ enabled catalogs /\ getPackage cat (cf_PackageName filter) = (Some fbc, None) /\
    selectable filter range installed fbc b /\ GetVersionAndRelease b = inr vr /\
    (forall v, v ∈ validations -> v b = None) /\
    (mkFound b (cat_Name cat) (ccs_Priority (cat_Spec cat)), head (fbc_Deprecations fbc))
      ∈ kept_offers (offers_of filter range installed getPackage (enabled catalogs)) /\
    (forall b', selectable filter range installed fbc b' ->
       candidate_cmp (head (fbc_Deprecations fbc)) b b' <= 0).
Proof.
  intros H. destruct (Resolve_inputs_of _ _ _ _ H) as (filter & range & cats & Hin).
  exists filter, range, cats.
  destruct (proj1 (Resolve_ok_iff getPackage _ installed _ _ _ b vr Hin) ltac:(eauto))
    as (Hok & fb & rest & Hp & _ & <- & Hvr & Hval).
  assert (Hfb : fb ∈ map fst (kept_offers (offers_of filter range installed getPackage (enabled cats))))
    by (rewrite Hp; set_solver).
  apply list_elem_of_fmap in Hfb as (o & -> & Hk).
  pose proof (kept_subset _ _ Hk) as Ho. apply offers_elem in Ho as (cat & Hcat & Ho).
  exists cat. rewrite Forall_forall in Hok. destruct (Hok _ Hcat) as [Herr _].
  apply catalog_offer_sound in Ho as (fbc & Hf & Hsel & Hd & Hc & Hpr & Hmin).
  exists fbc. destruct (getPackage cat _) as [x y]; simpl in *. subst x y.
  destruct o as [[ob oc op] od]; simpl in *. subst.
  repeat (split; [done|]). done.
Qed.

(** *** The properties *)

(** C5. Resolution implements its declarative specification: it returns
    bundle [b] with version [vr] exactly when every enabled catalog could be
    read and [b] is the offer that strictly dominates, by catalog priority, the
    offers left once deprecated ones have given way, its version parses and it
    passes every validation. *)
Theorem Resolve_spec getPackage ext installed filter range catalogs b vr :
  resolve_inputs ext filter range catalogs ->
  (exists dep, Resolve (catalog_resolver getPackage) ext installed = Ret (inr (b, vr, dep))) <->
  Forall (catalog_ok filter range installed getPackage) (enabled catalogs) /\
  resolves_to filter range installed getPackage catalogs b vr.
Proof. apply Resolve_ok_iff. Qed.

(** A resolved bundle satisfies the spec it was resolved for: it belongs
    to an enabled catalog that the selector lists, is in one of the requested
    channels, has a version in the requested range and, unless the policy is
    SelfCertified, is the installed version or a successor of the installed
    bundle in the requested channels; and it passed every validation. *)
Theorem Resolve_sound getPackage ext installed b vr dep :
  Resolve (catalog_resolver getPackage) ext installed = Ret (inr (b, vr, dep)) ->
  exists filter range catalogs cat fbc,
    resolve_inputs ext filter range catalogs /\
    cat ∈ catalogs /\ ccs_AvailabilityMode (cat_Spec cat) <> AvailabilityModeUnavailable /\
    getPackage cat (cf_PackageName filter) = (Some fbc, None) /\
    selectable filter range installed fbc b /\ GetVersionAndRelease b = inr vr /\
    (forall v, v ∈ validations -> v b = None).
Proof.
  intros (filter & range & cats & cat & fbc & Hin & Hcat & Hg & Hs & Hv & Hval & _)%Resolve_offer.
  exists filter, range, cats, cat, fbc. apply elem_of_Filter in Hcat as [Hcat He].
  unfold Not, catalog_disabled in He. apply negb_true_iff, bool_decide_eq_false in He.
  repeat (split; [done|]). done.
Qed.

(** A deprecated bundle is resolved only when there is no alternative:
    if the resolved bundle is deprecated in its catalog, every selectable
    bundle of every enabled catalog is deprecated in its own. *)
Theorem Resolve_prefers_non_deprecated getPackage ext installed b vr dep :
  Resolve (catalog_resolver getPackage) ext installed = Ret (inr (b, vr, dep)) ->
  exists filter range catalogs cat fbc,
    resolve_inputs ext filter range catalogs /\
    cat ∈ catalogs /\ getPackage cat (cf_PackageName filter) = (Some fbc, None) /\ b ∈ fbc_Bundles fbc /\
    (isDeprecated b (head (fbc_Deprecations fbc)) = true ->
     forall cat' fbc' b',
       cat' ∈ enabled catalogs -> getPackage cat' (cf_PackageName filter) = (Some fbc', None) ->
       isFBCEmpty (Some fbc') = false ->
       selectable filter range installed fbc' b' ->
       isDeprecated b' (head (fbc_Deprecations fbc')) = true).
Proof.
  intros H. destruct (Resolve_offer _ _ _ _ _ _ H)
    as (filter & range & cats & cat & fbc & Hin & Hcat & Hg & Hs & Hv & Hval & Hk & _).
  exists filter, range, cats, cat, fbc. split; [done|]. split; [by apply elem_of_Filter in Hcat as [? _]|].
  split; [done|]. split; [by destruct Hs|].
  intros Hdep cat' fbc' b' Hc' Hg' He' Hs'.
  destruct (proj1 (Resolve_ok_iff getPackage _ installed _ _ _ b vr Hin) ltac:(eauto)) as (Hok & _).
  rewrite Forall_forall in Hok. destruct (Hok _ Hc') as [_ Hps]. rewrite Hg' in Hps.
  destruct (Hps fbc' eq_refl He') as [ps Hp].
  apply (candidates_spec filter range installed fbc' ps b' Hp) in Hs' as Hcand.
  destruct (catalog_offer filter range installed cat' (Some fbc')) as [o|] eqn:Eo.
  - assert (Ho : offer_deprecated o = true).
    { eapply kept_deprecated; [exact Hk|exact Hdep|]. apply offers_elem. exists cat'.
      split; [done|]. by rewrite Hg'. }
    apply catalog_offer_sound in Eo as (f & [= <-] & _ & Hd & _ & _ & Hmin).
    unfold offer_deprecated in Ho. rewrite Hd in Ho, Hmin.
    by eapply candidate_cmp_deprecated; [apply Hmin|].
  - unfold catalog_offer in Eo. rewrite He' in Eo.
    destruct (sort_by _ (candidates filter range installed fbc')) eqn:Es; [|discriminate].
    assert (Hnil : b' ∈ sort_by (candidate_cmp (head (fbc_Deprecations fbc')))
                          (candidates filter range installed fbc')) by by apply elem_of_sort_by.
    rewrite Es in Hnil. by apply not_elem_of_nil in Hnil.
Qed.

(** Within the catalog it comes from, the resolved bundle has the highest
    version and release among the selectable bundles that are deprecated as
    it is. *)
Theorem Resolve_highest_version getPackage ext installed b vr dep :
  Resolve (catalog_resolver getPackage) ext installed = Ret (inr (b, vr, dep)) ->
  exists filter range catalogs cat fbc,
    resolve_inputs ext filter range catalogs /\
    cat ∈ catalogs /\ getPackage cat (cf_PackageName filter) = (Some fbc, None) /\ b ∈ fbc_Bundles fbc /\
    forall b' vr',
      selectable filter range installed fbc b' -> GetVersionAndRelease b' = inr vr' ->
      isDeprecated b' (head (fbc_Deprecations fbc)) = isDeprecated b (head (fbc_Deprecations fbc)) ->
      VersionRelease_Compare vr' vr <= 0.
Proof.
  intros H. destruct (Resolve_offer _ _ _ _ _ _ H)
    as (filter & range & cats & cat & fbc & Hin & Hcat & Hg & Hs & Hv & Hval & Hk & Hmin).
  exists filter, range, cats, cat, fbc. split; [done|]. split; [by apply elem_of_Filter in Hcat as [? _]|].
  split; [done|]. split; [by destruct Hs|].
  intros b' vr' Hs' Hv' Hd. by eapply candidate_cmp_version; [apply Hmin| | |].
Qed.

(** The order in which the catalogs are listed does not decide which
    bundle is resolved. *)
Theorem Resolve_listing_order getPackage ext installed filter range cats b vr dep
    (listCatalogs' : Selector -> result (list ClusterCatalog)) cats' :
  resolve_inputs ext filter range cats ->
  (forall sel, catalog_selector filter = inr sel -> listCatalogs' sel = inr cats') ->
  cats ≡ₚ cats' ->
  Resolve (catalog_resolver getPackage) ext installed = Ret (inr (b, vr, dep)) ->
  exists dep', Resolve (mkResolver (CatalogWalker listCatalogs' getPackage) validations) ext installed
               = Ret (inr (b, vr, dep')).
Proof.
  intros Hin Hl Hp H.
  destruct (proj1 (Resolve_ok_iff getPackage _ installed _ _ _ b vr Hin) ltac:(eauto))
    as (Hok & fb & rest & Hk & Hlt & Hb & Hv & Hval).
  pose proof (Filter_permutation _ _ (Not catalog_disabled) Hp) as Hpe.
  destruct Hin as (Hf & Hr & sel & Hsel & _).
  assert (Hrun : Resolve (mkResolver (CatalogWalker listCatalogs' getPackage) validations) ext installed =
    Ret (let '(s, walkErr) := walk_catalogs getPackage (cf_PackageName filter)
                              (resolve_callback filter range installed) (enabled cats') walk_init in
       match walkErr with
       | Some err => inl (EWrap "error walking catalogs: " err "")
       | None => finish_resolve (mkResolver (CatalogWalker listCatalogs' getPackage) validations)
                   filter installed s
       end)).
  { unfold Resolve. rewrite Hf, Hsel, Hr. f_equal. simpl. unfold CatalogWalker. by rewrite Hl. }
  rewrite Hrun. unfold enabled in Hok, Hk. rewrite Hpe in Hok.
  apply (walk_ok filter range installed getPackage _ walk_init) in Hok. unfold enabled.
  destruct (walk_catalogs _ _ _ _ _) as [s walkErr] eqn:Ew. simpl in Hok. subst walkErr.
  apply walk_result in Ew. exists (ws_priorDeprecation s). f_equal. apply finish_resolve_ok.
  split; [done|]. exists fb. split; [|done]. apply select_priority_spec. exists rest.
  split; [|done]. rewrite Ew, <- Hk. apply Permutation_map, kept_permutation, offers_permutation.
  by symmetry.
Qed.

(** A catalog whose availability mode is Unavailable takes no part in
    resolution: neither what it contains nor whether it can be read changes
    the outcome. *)
Theorem Resolve_ignores_disabled getPackage getPackage' ext installed :
  (forall cat pkg, ccs_AvailabilityMode (cat_Spec cat) <> AvailabilityModeUnavailable ->
     getPackage cat pkg = getPackage' cat pkg) ->
  Resolve (catalog_resolver getPackage) ext installed = Resolve (catalog_resolver getPackage') ext installed.
Proof.
  intros H. unfold Resolve. destruct (src_Catalog _) as [filter|]; [|done]. f_equal.
  destruct (catalog_selector filter) as [|sel]; [done|].
  destruct (version_range filter) as [|range]; [done|]. simpl. unfold CatalogWalker.
  destruct (listCatalogs sel) as [|cats]; [done|].
  assert (Hw : forall cats s,
    walk_catalogs getPackage (cf_PackageName filter) (resolve_callback filter range installed)
      (Filter cats (Not catalog_disabled)) s =
    walk_catalogs getPackage' (cf_PackageName filter) (resolve_callback filter range installed)
      (Filter cats (Not catalog_disabled)) s).
  { clear cats. induction cats as [|c cats IH]; intros s; simpl; [done|].
    destruct (Not catalog_disabled c) eqn:E; [|apply IH]. simpl.
    rewrite H by (apply negb_true_iff, bool_decide_eq_false in E; exact E). destruct (getPackage' c _) as [fbc err].
    destruct (resolve_callback _ _ _ s c fbc err) as [s' [e|]]; [done|apply IH]. }
  by rewrite Hw.
Qed.

(** Two kept offers of the same, highest priority make resolution fail
    with the ambiguity error that names every kept catalog; no bundle is
    chosen arbitrarily. *)
Theorem Resolve_ambiguous getPackage ext installed filter range catalogs o1 o2 rest :
  resolve_inputs ext filter range catalogs ->
  Forall (catalog_ok filter range installed getPackage) (enabled catalogs) ->
  kept_offers (offers_of filter range installed getPackage (enabled catalogs)) ≡ₚ o1 :: o2 :: rest ->
  fb_priority o1.1 = fb_priority o2.1 ->
  (forall o, o ∈ rest -> fb_priority o.1 <= fb_priority o1.1) ->
  exists found,
    found ≡ₚ map fst (o1 :: o2 :: rest) /\
    Resolve (catalog_resolver getPackage) ext installed =
    Ret (inl (ENew (resolutionError_Error
      (mkResErr (cf_PackageName filter) (cf_Version filter) (cf_Channels filter) installed found)))).
Proof.
  intros Hin Hok Hk Hpr Hmax. rewrite (Resolve_run getPackage _ installed _ _ _ Hin).
  apply (walk_ok filter range installed getPackage _ walk_init) in Hok.
  destruct (walk_catalogs _ _ _ _ _) as [s walkErr] eqn:Ew. simpl in Hok. subst walkErr.
  apply walk_result in Ew. apply (Permutation_map fst) in Hk. rewrite <- Ew in Hk.
  unfold finish_resolve.
  assert (Hlen : (1 < length (ws_resolvedBundles s))%nat) by (rewrite Hk; simpl; lia).
  assert (Hsel : select_priority (ws_resolvedBundles s) ≡ₚ map fst (o1 :: o2 :: rest)).
  { unfold select_priority. destruct (Nat.ltb_spec 1 (length (ws_resolvedBundles s))); [|lia].
    assert (Hp : sort_by priority_cmp (ws_resolvedBundles s) ≡ₚ map fst (o1 :: o2 :: rest))
      by by rewrite sort_by_perm.
    pose proof (sort_by_sorted priority_cmp (ws_resolvedBundles s)) as Hs.
    apply equal_top_not_reduced with (x := o1.1) (y := o2.1) (l := map fst rest); [done..|].
    intros z (o & -> & Ho)%list_elem_of_fmap. by apply Hmax. }
  exists (select_priority (ws_resolvedBundles s)). split; [done|].
  destruct (select_priority (ws_resolvedBundles s)) as [|a [|b l]];
    [by apply Permutation_nil_l in Hsel| |done].
  apply Permutation_length in Hsel. simpl in Hsel. lia.
Qed.

End Resolution.

(** ** Versions *)

Section Versions.
Context `{SV : BSemver} `{PP : PackageProperty}.

Lemma version_of_properties_legacy name ps vr :
  version_of_properties name ps = inr vr ->
  exists s, NewLegacyRegistryV1VersionRelease s = inr vr.
Proof.
  induction ps as [|p ps IH]; simpl; [discriminate|]. case_bool_decide; [|done].
  destruct (unmarshal_package_version (prop_Value p)); [discriminate|eauto].
Qed.

(** The version recorded for an installed bundle identifies it: writing
    a bundle's version and release to a BundleMetadata and reading it back
    gives the same version and release, and the bundle is then always among
    its own successors, so an unchanged spec can resolve to what is
    installed whatever the channels say. *)
Theorem installed_is_own_successor b vr channels :
  GetVersionAndRelease b = inr vr ->
  let ib := MetadataFor (b_Name b) (AsLegacyRegistryV1Version vr) in
  NewLegacyRegistryV1VersionRelease (bm_Version ib) = inr vr /\
  exists p, SuccessorsOf ib channels = inr p /\ p b = true.
Proof.
  intros H ib. destruct (version_of_properties_legacy _ _ _ H) as [s Hs].
  pose proof (NewLegacy_String _ _ Hs) as Hr. split; [done|].
  pose proof (Parse_String _ _ (NewLegacy_AsLegacy _ _ Hs)) as Hp.
  unfold SuccessorsOf, legacySuccessor, ib, MetadataFor. cbn [bm_Version]. rewrite Hr, Hp. eexists. split; [done|].
  apply Or_spec. exists (ExactVersionRelease vr : Predicate Bundle). split; [set_solver|].
  unfold ExactVersionRelease. rewrite H. by rewrite (cmp_refl VersionRelease_Compare).
Qed.

(** Bundles of one version are ordered by their release: a release
    extended by further identifiers is higher, the empty release is the
    lowest, and the version always decides first. *)
Theorem VersionRelease_Compare_spec v w (r s : Release) :
  (s <> [] -> VersionRelease_Compare (mkVR v r) (mkVR v (r ++ s)) < 0) /\
  (Version_Compare v w <> 0 ->
   VersionRelease_Compare (mkVR v r) (mkVR w s) = Version_Compare v w).
Proof.
  unfold VersionRelease_Compare. simpl. split.
  - intros Hs. rewrite (cmp_refl Version_Compare). by apply Release_Compare_prefix.
  - intros Hn. by destruct (Z.eqb_spec (Version_Compare v w) 0).
Qed.

End Versions.

(** ** Sample inputs *)

Definition v100 : Bundle := sample_bundle "pkg.v1.0.0" "1.0.0".
Definition v110 : Bundle := sample_bundle "pkg.v1.1.0" "1.1.0".
Definition v200 : Bundle := sample_bundle "pkg.v2.0.0" "2.0.0".

Definition deprecates (names : list string) : Deprecation :=
  mkDeprecation (map (fun n => mkDepEntry (mkRef SchemaBundle n) (n +:+ " is deprecated")) names).

Definition demo_fbc (deps : list Deprecation) : DeclarativeConfig :=
  mkFBC ["pkg"]
    [mkChannel "stable" [mkEntry "pkg.v1.0.0" "" [] ""; mkEntry "pkg.v1.1.0" "pkg.v1.0.0" [] ""];
     mkChannel "fast" [mkEntry "pkg.v1.0.0" "" [] ""; mkEntry "pkg.v2.0.0" "" [] "<2.0.0"]]
    [v100; v110; v200] deps [].

Definition cat_a : ClusterCatalog := sample_catalog "a" 10 AvailabilityModeAvailable.
Definition cat_b : ClusterCatalog := sample_catalog "b" 5 AvailabilityModeAvailable.
Definition cat_c : ClusterCatalog := sample_catalog "c" 10 AvailabilityModeAvailable.
Definition cat_off : ClusterCatalog := sample_catalog "off" 99 AvailabilityModeUnavailable.

Definition demo_list (cats : list ClusterCatalog) : Selector -> result (list ClusterCatalog) :=
  fun _ => inr cats.
Definition demo_get (cat : ClusterCatalog) (pkg : string) : option DeclarativeConfig * option error :=
  if decide (cat_Name cat = "off") then (None, Some (ENew "not served"))
  else if decide (cat_Name cat = "b") then (Some (demo_fbc [deprecates ["pkg.v1.0.0"]]), None)
  else (Some (demo_fbc []), None).

Definition demo_ext : ClusterExtension := sample_ext (sample_filter "<2.0.0" ["stable"]).
Definition demo_filter : CatalogFilter := sample_filter "<2.0.0" ["stable"].
Definition demo_installed : option BundleMetadata := Some (mkBM "pkg.v1.0.0" "1.0.0").
Definition demo_vr : VersionRelease := mkVR (mkVersion 1 1 0 [] []) [].

Definition demo_range : option (Version -> bool) :=
  match version_range demo_filter with inr r => r | inl _ => None end.

Lemma demo_inputs cats : resolve_inputs (demo_list cats) demo_ext demo_filter demo_range cats.
Proof.
  split; [reflexivity|]. split; [reflexivity|]. exists labels_Everything. split; reflexivity.
Defined.

Lemma demo_resolves cats :
  cats = [cat_b; cat_off; cat_a] ->
  Resolve (catalog_resolver (demo_list cats) [NoDependencyValidation] demo_get) demo_ext demo_installed
  = Ret (inr (v110, demo_vr, None)).
Proof. intros ->. vm_compute. reflexivity. Defined.

Lemma demo_ok cats :
  cats = [cat_b; cat_a] \/ cats = [cat_a; cat_c; cat_b] ->
  Forall (catalog_ok demo_filter demo_range demo_installed demo_get) cats.
Proof.
  intros H. apply (walk_ok demo_filter demo_range demo_installed demo_get cats walk_init).
  destruct H as [-> | ->]; vm_compute; reflexivity.
Defined.

(** The specification of resolution, evaluated on two enabled catalogs. *)
Lemma Resolve_spec_witness :
  Forall (catalog_ok demo_filter demo_range demo_installed demo_get) (enabled [cat_b; cat_off; cat_a]) /\
  resolves_to [NoDependencyValidation] demo_filter demo_range demo_installed demo_get
    [cat_b; cat_off; cat_a] v110 demo_vr.
Proof.
  apply (proj1 (Resolve_spec (demo_list [cat_b; cat_off; cat_a]) [NoDependencyValidation] demo_get
                  demo_ext demo_installed demo_filter demo_range _ v110 demo_vr (demo_inputs _))).
  exists None. vm_compute. reflexivity.
Defined.

Lemma Resolve_sound_witness :
  exists filter range catalogs cat fbc,
    resolve_inputs (demo_list [cat_b; cat_off; cat_a]) demo_ext filter range catalogs /\
    cat ∈ catalogs /\ ccs_AvailabilityMode (cat_Spec cat) <> AvailabilityModeUnavailable /\
    demo_get cat (cf_PackageName filter) = (Some fbc, None) /\
    selectable filter range demo_installed fbc v110 /\ GetVersionAndRelease v110 = inr demo_vr /\
    (forall v, v ∈ [NoDependencyValidation] -> v v110 = None).
Proof.
  apply (Resolve_sound (demo_list [cat_b; cat_off; cat_a]) [NoDependencyValidation] demo_get
           demo_ext demo_installed v110 demo_vr None).
  vm_compute. reflexivity.
Defined.

Lemma Resolve_prefers_non_deprecated_witness :
  exists filter range catalogs cat fbc,
    resolve_inputs (demo_list [cat_b; cat_off; cat_a]) demo_ext filter range catalogs /\
    cat ∈ catalogs /\ demo_get cat (cf_PackageName filter) = (Some fbc, None) /\ v110 ∈ fbc_Bundles fbc /\
    (isDeprecated v110 (head (fbc_Deprecations fbc)) = true ->
     forall cat' fbc' b',
       cat' ∈ enabled catalogs -> demo_get cat' (cf_PackageName filter) = (Some fbc', None) ->
       isFBCEmpty (Some fbc') = false ->
       selectable filter range demo_installed fbc' b' ->
       isDeprecated b' (head (fbc_Deprecations fbc')) = true).
Proof.
  apply (Resolve_prefers_non_deprecated (demo_list [cat_b; cat_off; cat_a]) [NoDependencyValidation]
           demo_get demo_ext demo_installed v110 demo_vr None).
  vm_compute. reflexivity.
Defined.

Lemma Resolve_highest_version_witness :
  exists filter range catalogs cat fbc,
    resolve_inputs (demo_list [cat_b; cat_off; cat_a]) demo_ext filter range catalogs /\
    cat ∈ catalogs /\ demo_get cat (cf_PackageName filter) = (Some fbc, None) /\ v110 ∈ fbc_Bundles fbc /\
    forall b' vr',
      selectable filter range demo_installed fbc b' -> GetVersionAndRelease b' = inr vr' ->
      isDeprecated b' (head (fbc_Deprecations fbc)) = isDeprecated v110 (head (fbc_Deprecations fbc)) ->
      VersionRelease_Compare vr' demo_vr <= 0.
Proof.
  apply (Resolve_highest_version (demo_list [cat_b; cat_off; cat_a]) [NoDependencyValidation]
           demo_get demo_ext demo_installed v110 demo_vr None).
  vm_compute. reflexivity.
Defined.

Lemma Resolve_listing_order_witness :
  exists dep', Resolve (mkResolver (CatalogWalker (demo_list [cat_a; cat_b]) demo_get) [NoDependencyValidation])
                 demo_ext demo_installed = Ret (inr (v110, demo_vr, dep')).
Proof.
  apply (Resolve_listing_order (demo_list [cat_b; cat_a]) [NoDependencyValidation] demo_get demo_ext
           demo_installed demo_filter demo_range [cat_b; cat_a] v110 demo_vr None
           (demo_list [cat_a; cat_b]) [cat_a; cat_b] (demo_inputs _)).
  - intros sel _. reflexivity.
  - apply Permutation_swap.
  - vm_compute. reflexivity.
Defined.

Lemma Resolve_ignores_disabled_witness :
  Resolve (catalog_resolver (demo_list [cat_off; cat_a]) [] demo_get) demo_ext None =
  Resolve (catalog_resolver (demo_list [cat_off; cat_a]) []
    (fun cat pkg => if decide (ccs_AvailabilityMode (cat_Spec cat) = AvailabilityModeUnavailable)
                    then (Some (demo_fbc []), None) else demo_get cat pkg)) demo_ext None.
Proof.
  apply (Resolve_ignores_disabled (demo_list [cat_off; cat_a]) [] demo_get _ demo_ext None).
  intros cat pkg Hn. by rewrite decide_False.
Defined.

Definition demo_offer (name : string) (priority : Z) : foundBundle * option Deprecation :=
  (mkFound v110 name priority, None).

Lemma Resolve_ambiguous_witness :
  exists found,
    found ≡ₚ map fst [demo_offer "a" 10; demo_offer "c" 10;
                       (mkFound v110 "b" 5, Some (deprecates ["pkg.v1.0.0"]))] /\
    Resolve (catalog_resolver (demo_list [cat_a; cat_c; cat_b]) [] demo_get) demo_ext demo_installed =
    Ret (inl (ENew (resolutionError_Error (mkResErr "pkg" "<2.0.0" ["stable"] demo_installed found)))).
Proof.
  apply (Resolve_ambiguous (demo_list [cat_a; cat_c; cat_b]) [] demo_get demo_ext demo_installed
           demo_filter demo_range [cat_a; cat_c; cat_b] (demo_offer "a" 10) (demo_offer "c" 10)
           [(mkFound v110 "b" 5, Some (deprecates ["pkg.v1.0.0"]))] (demo_inputs _)).
  - apply demo_ok. by right.
  - vm_compute. reflexivity.
  - reflexivity.
  - intros o ->%list_elem_of_singleton. by vm_compute.
Defined.

Lemma installed_is_own_successor_witness :
  NewLegacyRegistryV1VersionRelease
    (bm_Version (MetadataFor "pkg.v1.1.0" (AsLegacyRegistryV1Version demo_vr))) = inr demo_vr /\
  exists p, SuccessorsOf (MetadataFor "pkg.v1.1.0" (AsLegacyRegistryV1Version demo_vr)) [] = inr p /\
            p v110 = true.
Proof. apply (installed_is_own_successor v110 demo_vr []). reflexivity. Defined.

(** The deprecation data Resolve returns with a bundle is that of the
    last catalog that made a kept offer, not that of the catalog the bundle
    was selected from: here the bundle comes from catalog a, which deprecates
    it in no way, and the data returned is catalog b's, because catalog b is
    listed after it and loses only by priority. *)
Theorem Resolve_deprecation_of_other_catalog :
  Resolve (catalog_resolver (demo_list [cat_a; cat_b]) [] demo_get) demo_ext demo_installed =
    Ret (inr (v110, demo_vr, Some (deprecates ["pkg.v1.0.0"]))) /\
  catalog_offer demo_filter demo_range demo_installed cat_a (demo_get cat_a "pkg").1 =
    Some (mkFound v110 "a" 10, None) /\
  catalog_offer demo_filter demo_range demo_installed cat_b (demo_get cat_b "pkg").1 =
    Some (mkFound v110 "b" 5, Some (deprecates ["pkg.v1.0.0"])).
Proof. split; [|split]; vm_compute; reflexivity. Qed.
