(* ===== verification/Sanitize.v ===== *)
(** * Stable error messages

    src/internal/shared/util/error/sanitize.go.  The regular expression of
    SanitizeNetworkError is written as a matcher for that pattern; the pattern
    is deterministic under leftmost-first matching, since no choice it leaves
    can be revised with success: a run of digits or of hexadecimal digits ends
    at a character outside the run. *)

From Stdlib Require Import Ascii.
From S2P Require Import Prelude GoErrors.

Definition is_digit (c : ascii) : bool :=
  let n := nat_of_ascii c in (48 <=? n)%nat && (n <=? 57)%nat.

Definition is_hex_colon (c : ascii) : bool :=
  let n := nat_of_ascii c in
  is_digit c || ((97 <=? n)%nat && (n <=? 102)%nat) || ((65 <=? n)%nat && (n <=? 70)%nat) ||
  (n =? 58)%nat.

(** A matcher consumes a prefix and returns what is left. *)
Definition matcher := string -> option string.

Definition m_lit (p : string) : matcher := fun s =>
  if strings_HasPrefix s p then Some (str_drop (String.length p) s) else None.

Definition m_seq (a b : matcher) : matcher := fun s =>
  match a s with Some s' => b s' | None => None end.

Definition m_alt (a b : matcher) : matcher := fun s =>
  match a s with Some s' => Some s' | None => b s end.

Definition m_opt (a : matcher) : matcher := fun s =>
  match a s with Some s' => Some s' | None => Some s end.

(** Between 1 and [n] characters of a class, greedily. *)
Fixpoint m_upto (f : ascii -> bool) (n : nat) (s : string) : string :=
  match n, s with
  | S n', String c s' => if f c then m_upto f n' s' else s
  | _, _ => s
  end.

Definition m_range (f : ascii -> bool) (n : nat) : matcher := fun s =>
  match s with
  | String c s' => if f c then Some (m_upto f (n - 1) s') else None
  | EmptyString => None
  end.

(** One or more characters of a class, greedily. *)
Fixpoint m_star (f : ascii -> bool) (s : string) : string :=
  match s with
  | String c s' => if f c then m_star f s' else s
  | EmptyString => EmptyString
  end.

Definition m_plus (f : ascii -> bool) : matcher := fun s =>
  match s with
  | String c s' => if f c then Some (m_star f s') else None
  | EmptyString => None
  end.

(** [0-9]{1,3}(?:\.[0-9]{1,3}){3} *)
Definition m_ipv4 : matcher :=
  let octet := m_range is_digit 3 in
  let next := m_seq (m_lit ".") octet in
  m_seq octet (m_seq next (m_seq next next)).

(** \[[0-9a-fA-F:]+\] *)
Definition m_ipv6 : matcher := m_seq (m_lit "[") (m_seq (m_plus is_hex_colon) (m_lit "]")).

(** (?:ipv4|ipv6)(?::\d+)? *)
Definition m_addr : matcher :=
  m_seq (m_alt m_ipv4 m_ipv6) (m_opt (m_seq (m_lit ":") (m_plus is_digit))).

(** ephemeralNetworkErrorPattern *)
Definition ephemeralNetworkErrorPattern : matcher :=
  m_seq (m_alt (m_lit "read") (m_lit "write"))
    (m_seq (m_lit " ")
       (m_seq (m_alt (m_lit "tcp") (m_lit "udp"))
          (m_seq (m_lit " ")
             (m_seq m_addr (m_seq (m_lit "->") (m_seq m_addr (m_opt (m_lit ": ")))))))).

(** regexp.ReplaceAllString with the empty string: scan from the left, delete
    each match and go on after it; [skip] counts the characters of the current
    match still to be dropped. *)
Fixpoint remove_matches (m : matcher) (skip : nat) (s : string) : string :=
  match s with
  | EmptyString => EmptyString
  | String c s' =>
      match skip with
      | S k => remove_matches m k s'
      | O =>
          match m s with
          | Some rest => remove_matches m (String.length s' - String.length rest) s'
          | None => String c (remove_matches m 0 s')
          end
      end
  end.

(** func SanitizeNetworkError(err error) string *)
Definition SanitizeNetworkError (err : option error) : string :=
  match err with
  | None => EmptyString
  | Some e => remove_matches ephemeralNetworkErrorPattern 0 (Error e)
  end.

(** ** Lemmas *)

Lemma remove_skip m a b : remove_matches m (String.length a) (a +:+ b) = remove_matches m 0 b.
Proof. induction a as [|c a IH]; simpl; [done|]. apply IH. Qed.

(** A match at the current position is deleted whole. *)
Lemma remove_match m c a b :
  m (String c a +:+ b) = Some b ->
  remove_matches m 0 (String c a +:+ b) = remove_matches m 0 b.
Proof.
  intros H. change (String c a +:+ b) with (String c (a +:+ b)) in *. simpl. rewrite H.
  rewrite length_app_str. replace (_ + _ - _)%nat with (String.length a) by lia. apply remove_skip.
Qed.

Lemma m_lit_app p s : m_lit p (p +:+ s) = Some s.
Proof.
  unfold m_lit.
  assert (H : strings_HasPrefix (p +:+ s) p = true /\ str_drop (String.length p) (p +:+ s) = s).
  { induction p as [|c p IH]; simpl; [by destruct s|]. by rewrite (bool_decide_eq_true_2 _ eq_refl). }
  destruct H as [-> ->]. done.
Qed.

(** An endpoint as the network stack prints it: whatever follows that does
    not extend it is left over. *)
Definition endpoint (a : string) : Prop :=
  forall s, m_upto is_digit 2 s = s -> m_star is_digit s = s ->
            m_seq (m_lit ":") (m_plus is_digit) s = None -> m_addr (a +:+ s) = Some s.

(** The operation and the protocol in front of the addresses. *)
Lemma m_socket_op (k : matcher) op t :
  op = "read udp " \/ op = "read tcp " \/ op = "write udp " \/ op = "write tcp " ->
  m_seq (m_alt (m_lit "read") (m_lit "write"))
    (m_seq (m_lit " ") (m_seq (m_alt (m_lit "tcp") (m_lit "udp")) (m_seq (m_lit " ") k))) (op +:+ t)
  = k t.
Proof. intros [-> | [-> | [-> | ->]]]; vm_compute; by destruct t. Qed.

(** Removing the addresses of a socket error leaves the text after it. *)
Lemma sanitize_socket a b rest (op : string) :
  endpoint a -> endpoint b -> op = "read udp " \/ op = "read tcp " \/ op = "write udp " \/ op = "write tcp " ->
  remove_matches ephemeralNetworkErrorPattern 0 (op +:+ a +:+ "->" +:+ b +:+ ": " +:+ rest) =
  remove_matches ephemeralNetworkErrorPattern 0 rest.
Proof.
  intros Ha Hb Hop.
  assert (Htail : m_seq m_addr (m_seq (m_lit "->") (m_seq m_addr (m_opt (m_lit ": "))))
                    (a +:+ "->" +:+ b +:+ ": " +:+ rest) = Some rest).
  { unfold m_seq at 1. rewrite (Ha _) by done.
    unfold m_seq at 1. rewrite m_lit_app. unfold m_seq at 1.
    rewrite (Hb _) by done.
    unfold m_opt. by rewrite m_lit_app. }
  assert (Hm : ephemeralNetworkErrorPattern (op +:+ a +:+ "->" +:+ b +:+ ": " +:+ rest) = Some rest).
  { unfold ephemeralNetworkErrorPattern.
    rewrite m_socket_op by done. exact Htail. }
  assert (Happ : forall s, op +:+ a +:+ "->" +:+ b +:+ ": " +:+ s = (op +:+ a +:+ "->" +:+ b +:+ ": ") +:+ s).
  { intros s. by rewrite <- !str_app_assoc. }
  rewrite Happ in Hm |- *.
  destruct Hop as [-> | [-> | [-> | ->]]]; by apply remove_match in Hm.
Qed.

(** Endpoints in the form of the comment of SanitizeNetworkError. *)
Lemma endpoint_ipv4 : endpoint "10.244.0.8:46753".
Proof.
  intros s _ H _. transitivity (Some (m_star is_digit s)); [vm_compute; reflexivity|by rewrite H].
Qed.

Lemma endpoint_ipv4_dns : endpoint "10.96.0.10:53".
Proof.
  intros s _ H _. transitivity (Some (m_star is_digit s)); [vm_compute; reflexivity|by rewrite H].
Qed.
