(* ===== verification/ExtStatus.v ===== *)
(** * The status of a ClusterExtension

    - src/internal/operator-controller/controllers/common_controller.go: the
      condition setters;
    - src/internal/operator-controller/controllers/clusterextension_controller.go:
      the fallback conditions, the deprecation conditions and the errors of a
      resolved bundle;
    - src/internal/operator-controller/conditionsets/conditionsets.go.

    The code mutates the extension through a pointer; here each function
    returns the extension it leaves. *)

From S2P Require Import Prelude GoErrors VersionRelease ApiTypes Sanitize.

(** type RevisionMetadata struct; BundleMetadata is embedded. *)
Record RevisionMetadata := mkRM {
  rm_RevisionName : string;
  rm_Package : string;
  rm_Image : string;
  rm_Bundle : BundleMetadata;
  rm_Conditions : list Condition;
}.

(** type RevisionStates struct *)
Record RevisionStates := mkRS { Installed : option RevisionMetadata; RollingOut : list RevisionMetadata }.

(** ** common_controller.go *)

Definition maxConditionMessageLength : Z := 32768.
Definition truncationSuffix : string := nl +:+ nl +:+ "... [message truncated]".

(** func truncateMessage(message string) string *)
Definition truncateMessage (message : string) : string :=
  if slen message <=? maxConditionMessageLength then message
  else
    let maxContent := maxConditionMessageLength - slen truncationSuffix in
    str_take (Z.to_nat maxContent) message +:+ truncationSuffix.

Section Status.
Context `{CA : ConditionsAPI}.

(** func SetStatusCondition(conditions, condition) *)
Definition SetStatusCondition (conditions : list Condition) (condition : Condition) : list Condition :=
  set_cond conditions (with_Message (truncateMessage (c_Message condition)) condition).

(** The calls on &ext.Status.Conditions with the extension's generation. *)
Definition set_ext (t : string) (st : ConditionStatus) (reason message : string) (ext : ClusterExtension)
  : ClusterExtension :=
  with_ExtConditions
    (SetStatusCondition (ext_Conditions ext) (mkCond t st reason message (ext_Generation ext))) ext.

(** func setInstallStatus(ext, installStatus) *)
Definition setInstallStatus (installStatus : option BundleMetadata) (ext : ClusterExtension) : ClusterExtension :=
  with_ExtInstall installStatus ext.

(** func determineFailureReason(rollingRevisions []*RevisionMetadata) string *)
Definition determineFailureReason (rollingRevisions : list RevisionMetadata) : string :=
  match last rollingRevisions with
  | None => ReasonFailed
  | Some latestRevision =>
      match FindStatusCondition (rm_Conditions latestRevision) ClusterObjectSetTypeProgressing with
      | Some progressingCond =>
          if bool_decide (c_Reason progressingCond = ClusterObjectSetReasonRetrying)
          then ReasonFailed else ReasonAbsent
      | None => ReasonAbsent
      end
  end.

(** func setInstalledStatusConditionSuccess(ext, message) *)
Definition setInstalledStatusConditionSuccess (message : string) : ClusterExtension -> ClusterExtension :=
  set_ext TypeInstalled ConditionTrue ReasonSucceeded message.

(** func setInstalledStatusConditionFalse(ext, reason, message) *)
Definition setInstalledStatusConditionFalse (reason message : string) : ClusterExtension -> ClusterExtension :=
  set_ext TypeInstalled ConditionFalse reason message.

(** func setInstalledStatusConditionUnknown(ext, message) *)
Definition setInstalledStatusConditionUnknown (message : string) : ClusterExtension -> ClusterExtension :=
  set_ext TypeInstalled ConditionUnknown ReasonFailed message.

(** func setInstalledStatusFromRevisionStates(ext, revisionStates) *)
Definition setInstalledStatusFromRevisionStates (revisionStates : RevisionStates) (ext : ClusterExtension)
  : ClusterExtension :=
  match Installed revisionStates with
  | None =>
      let ext := setInstallStatus None ext in
      let reason := determineFailureReason (RollingOut revisionStates) in
      setInstalledStatusConditionFalse reason "No bundle installed" ext
  | Some i =>
      let ext := setInstallStatus (Some (rm_Bundle i)) ext in
      setInstalledStatusConditionSuccess ("Installed bundle " +:+ rm_Image i +:+ " successfully") ext
  end.

(** func setStatusProgressing(ext, err) *)
Definition setStatusProgressing (err : option error) (ext : ClusterExtension) : ClusterExtension :=
  let '(reason, message) :=
    match err with
    | None => (ReasonSucceeded, "Desired state reached")
    | Some _ => (ReasonRetrying, SanitizeNetworkError (UnwrapTerminal err))
    end in
  let '(status, reason) :=
    match err with
    | Some e =>
        if is_terminal e then
          (ConditionFalse,
           match ExtractTerminalReason err with Some r => r | None => ReasonBlocked end)
        else (ConditionTrue, reason)
    | None => (ConditionTrue, reason)
    end in
  set_ext TypeProgressing status reason message ext.

(** ** conditionsets.go *)

Definition ConditionTypes : list string :=
  [TypeInstalled; TypeDeprecated; TypePackageDeprecated; TypeChannelDeprecated; TypeBundleDeprecated;
   TypeProgressing].

Definition ConditionReasons : list string :=
  [ReasonSucceeded; ReasonDeprecated; ReasonNotDeprecated; ReasonDeprecationStatusUnknown; ReasonFailed;
   ReasonBlocked; ReasonInvalidConfiguration; ReasonRetrying; ReasonAbsent; ReasonRollingOut;
   ReasonProgressDeadlineExceeded].

(** ** clusterextension_controller.go: conditions *)

(** func isDeprecationCondition(condType string) bool *)
Definition isDeprecationCondition (condType : string) : bool :=
  bool_decide (condType ∈ [TypeDeprecated; TypePackageDeprecated; TypeChannelDeprecated; TypeBundleDeprecated]).

(** func ensureFailureConditionsWithReason(ext, reason, message) *)
Definition ensure_condition (reason message : string) (ext : ClusterExtension) (condType : string)
  : ClusterExtension :=
  if isDeprecationCondition condType then ext
  else match FindStatusCondition (ext_Conditions ext) condType with
       | None => set_ext condType ConditionFalse reason message ext
       | Some _ => ext
       end.

Definition ensureFailureConditionsWithReason (reason message : string) (ext : ClusterExtension)
  : ClusterExtension :=
  fold_left (ensure_condition reason message) ConditionTypes ext.

(** type deprecationInfo struct *)
Record deprecationInfo := mkDepInfo {
  PackageEntries : list DeprecationEntry;
  ChannelEntries : list DeprecationEntry;
  BundleEntries : list DeprecationEntry;
  BundleStatus : ConditionStatus;
}.

(** The entry loop of buildDeprecationInfo. *)
Definition classify_entry (channels : list string) (installedBundleName : string)
    (info : deprecationInfo) (entry : DeprecationEntry) : deprecationInfo :=
  let schema := ref_Schema (de_Reference entry) in
  let name := ref_Name (de_Reference entry) in
  if bool_decide (schema = SchemaPackage) then
    mkDepInfo (PackageEntries info ++ [entry]) (ChannelEntries info) (BundleEntries info) (BundleStatus info)
  else if bool_decide (schema = SchemaChannel) then
    if bool_decide (channels = []) || bool_decide (name ∈ channels) then
      mkDepInfo (PackageEntries info) (ChannelEntries info ++ [entry]) (BundleEntries info) (BundleStatus info)
    else info
  else if bool_decide (schema = SchemaBundle) then
    if negb (bool_decide (installedBundleName = EmptyString)) && bool_decide (name = installedBundleName) then
      mkDepInfo (PackageEntries info) (ChannelEntries info) (BundleEntries info ++ [entry]) (BundleStatus info)
    else info
  else info.

(** func buildDeprecationInfo(ext, installedBundleName, deprecation) deprecationInfo *)
Definition buildDeprecationInfo (ext : ClusterExtension) (installedBundleName : string)
    (deprecation : option Deprecation) : deprecationInfo :=
  let info := mkDepInfo [] [] [] ConditionUnknown in
  let channelSet := match src_Catalog (es_Source (ext_Spec ext)) with
                    | Some c => cf_Channels c
                    | None => []
                    end in
  let info := match deprecation with
              | Some d => fold_left (classify_entry channelSet installedBundleName) (d_Entries d) info
              | None => info
              end in
  if negb (bool_decide (installedBundleName = EmptyString)) then
    mkDepInfo (PackageEntries info) (ChannelEntries info) (BundleEntries info)
      (match BundleEntries info with [] => ConditionFalse | _ => ConditionTrue end)
  else info.

(** func collectDeprecationMessages(entries) []string *)
Fixpoint collectDeprecationMessages (entries : list DeprecationEntry) : list string :=
  match entries with
  | [] => []
  | entry :: entries' =>
      if negb (bool_decide (de_Message entry = EmptyString))
      then de_Message entry :: collectDeprecationMessages entries'
      else collectDeprecationMessages entries'
  end.

Definition unknown_message : string := "deprecation status unknown: catalog data unavailable".

(** One True/False pair of conditions. *)
Definition set_deprecated (t : string) (messages : list string) (none : string) (ext : ClusterExtension)
  : ClusterExtension :=
  match messages with
  | _ :: _ => set_ext t ConditionTrue ReasonDeprecated (strings_Join messages nl) ext
  | [] => set_ext t ConditionFalse ReasonNotDeprecated none ext
  end.

(** func SetDeprecationStatus(ext, installedBundleName, deprecation, hasCatalogData) *)
Definition SetDeprecationStatus (installedBundleName : string) (deprecation : option Deprecation)
    (hasCatalogData : bool) (ext : ClusterExtension) : ClusterExtension :=
  let info := buildDeprecationInfo ext installedBundleName deprecation in
  let packageMessages := collectDeprecationMessages (PackageEntries info) in
  let channelMessages := collectDeprecationMessages (ChannelEntries info) in
  let bundleMessages := collectDeprecationMessages (BundleEntries info) in
  if negb hasCatalogData then
    let '(bundleReason, bundleMessage) :=
      if negb (bool_decide (installedBundleName = EmptyString))
      then (ReasonDeprecationStatusUnknown, unknown_message)
      else (ReasonAbsent, "no bundle installed yet") in
    let ext := set_ext TypeDeprecated ConditionUnknown ReasonDeprecationStatusUnknown unknown_message ext in
    let ext := set_ext TypePackageDeprecated ConditionUnknown ReasonDeprecationStatusUnknown unknown_message ext in
    let ext := set_ext TypeChannelDeprecated ConditionUnknown ReasonDeprecationStatusUnknown unknown_message ext in
    set_ext TypeBundleDeprecated ConditionUnknown bundleReason bundleMessage ext
  else
    let messages := packageMessages ++ channelMessages ++ bundleMessages in
    let ext := set_deprecated TypeDeprecated messages "not deprecated" ext in
    let ext := set_deprecated TypePackageDeprecated packageMessages "package not deprecated" ext in
    let ext := set_deprecated TypeChannelDeprecated channelMessages "channel not deprecated" ext in
    if bool_decide (BundleStatus info = ConditionUnknown) then
      set_ext TypeBundleDeprecated ConditionUnknown ReasonAbsent "no bundle installed yet" ext
    else set_deprecated TypeBundleDeprecated bundleMessages "bundle not deprecated" ext.

End Status.

(** func wrapErrorWithResolutionInfo(resolved, err) error *)
Definition wrapErrorWithResolutionInfo (resolved : BundleMetadata) (err : error) : error :=
  let pre := "error for resolved bundle " +:+ fmt_q (bm_Name resolved) +:+ " with version " +:+
             fmt_q (bm_Version resolved) +:+ ": " in
  if is_terminal err then
    let innerErr := match UnwrapTerminal (Some err) with Some e => e | None => err end in
    let wrappedErr := EWrap pre innerErr "" in
    match ExtractTerminalReason (Some err) with
    | Some reason => NewTerminalError reason wrappedErr
    | None => ETerminal wrappedErr
    end
  else EWrap pre err "".
