(* ===== verification/ExtSteps.v ===== *)
(** * Reconciling a ClusterExtension

    - src/internal/operator-controller/controllers/clusterextension_reconcile_steps.go
    - src/internal/operator-controller/controllers/boxcutter_reconcile_steps.go
    - src/internal/operator-controller/controllers/clusterextension_controller.go
    - src/internal/shared/util/k8s/k8s.go

    A step receives the shared [reconcileState] and the extension and returns
    what it leaves in both, with its [outcome].  The collaborators a step is
    built from (the finalizer, the resolver, the image puller, the applier, the
    API client) are its arguments, as in the code; what a step asks of them is
    recorded in a trace of [call]s, so that theorems can speak of the calls
    that are made and of those that are not. *)

From S2P Require Import Prelude GoErrors VersionRelease ApiTypes Filter Resolve Sanitize ExtStatus.

(** ctrl.Result; the steps only ever return the empty one. *)
Record CtrlResult := mkResult { RequeueAfter : Z }.
Definition emptyResult : CtrlResult := mkResult 0.

(** What a ReconcileStepFunc returns: (nil, nil), a result, an error; or it
    dereferences a nil pointer. *)
Inductive outcome :=
| Continue
| Stop (r : CtrlResult)
| Fail (e : error)
| Crash (msg : string).

(** finalizer.Result of controller-runtime. *)
Record finalizerResult := mkFinResult { Updated : bool; StatusUpdated : bool }.

(** What a resolve.Resolver returns. *)
Record ResolveOut := mkResolveOut {
  ro_bundle : option (Bundle * VersionRelease);
  ro_deprecation : option Deprecation;
  ro_err : option error;
}.

Section Steps.
Context `{SV : BSemver} `{CA : ConditionsAPI} `{LA : LabelsAPI}.
Context {FS : Type}.  (* fs.FS *)

(** The requests made of the collaborators. *)
Inductive call :=
| CallFinalize
| CallValidate (i : nat)
| CallMigrate (objLbls : gmap string string)
| CallGetRevisionStates
| CallResolve (installed : option BundleMetadata)
| CallListCatalogs (selector : option Selector)
| CallPull (ownerID ref : string)
| CallApply (contentFS : option FS) (objLbls revisionAnnotations : gmap string string)
| CallGet
| CallStatusUpdate (status : ClusterExtensionStatus)
| CallPatchFinalizers (finalizers : list string).

Definition W : Type := list call.

Definition tell (c : call) : IO W unit := fun w => (tt, w ++ [c]).

(** type reconcileState struct *)
Record reconcileState := mkState {
  revisionStates : option RevisionStates;
  resolvedRevisionMetadata : option RevisionMetadata;
  imageFS : option FS;
  resolvedDeprecation : option Deprecation;
  hasCatalogData : bool;
}.

Definition state_init : reconcileState := mkState None None None None false.

Definition with_revisionStates (rs : RevisionStates) (s : reconcileState) : reconcileState :=
  mkState (Some rs) (resolvedRevisionMetadata s) (imageFS s) (resolvedDeprecation s) (hasCatalogData s).
Definition with_resolved (rm : RevisionMetadata) (s : reconcileState) : reconcileState :=
  mkState (revisionStates s) (Some rm) (imageFS s) (resolvedDeprecation s) (hasCatalogData s).
Definition with_imageFS (f : option FS) (s : reconcileState) : reconcileState :=
  mkState (revisionStates s) (resolvedRevisionMetadata s) f (resolvedDeprecation s) (hasCatalogData s).
Definition with_deprecation (d : option Deprecation) (h : bool) (s : reconcileState) : reconcileState :=
  mkState (revisionStates s) (resolvedRevisionMetadata s) (imageFS s) d h.

(** type ReconcileStepFunc *)
Definition ReconcileStepFunc : Type :=
  reconcileState -> ClusterExtension -> IO W (reconcileState * ClusterExtension * outcome).

Definition done_with (s : reconcileState) (ext : ClusterExtension) (o : outcome)
  : IO W (reconcileState * ClusterExtension * outcome) := io_ret (s, ext, o).

(** func (steps *ReconcileSteps) Reconcile(ctx, ext) (ctrl.Result, error) *)
Fixpoint run_steps (steps : list ReconcileStepFunc) (s : reconcileState) (ext : ClusterExtension)
  : IO W (reconcileState * ClusterExtension * outcome) :=
  match steps with
  | [] => done_with s ext (Stop emptyResult)
  | step :: rest =>
      let* r := step s ext in
      let '(s, ext, o) := r in
      match o with
      | Continue => run_steps rest s ext
      | _ => done_with s ext o
      end
  end.

Definition ReconcileSteps_Reconcile (steps : list ReconcileStepFunc) (ext : ClusterExtension)
  : IO W (reconcileState * ClusterExtension * outcome) :=
  run_steps steps state_init ext.

(** ** clusterextension_reconcile_steps.go *)

(** func HandleFinalizers(f finalizer.Finalizer) ReconcileStepFunc *)
Definition HandleFinalizers
    (f : ClusterExtension -> ClusterExtension * finalizerResult * option error) : ReconcileStepFunc :=
  fun s ext =>
  let* _ := tell CallFinalize in
  let '(ext, finalizeResult, err) := f ext in
  match err with
  | Some e => done_with s (setStatusProgressing (Some e) ext) (Fail e)
  | None =>
      if Updated finalizeResult || StatusUpdated finalizeResult then done_with s ext (Stop emptyResult)
      else match m_DeletionTimestamp (ext_Meta ext) with
           | Some _ => done_with s ext (Stop emptyResult)
           | None => done_with s ext Continue
           end
  end.

(** type ClusterExtensionValidator *)
Definition ClusterExtensionValidator : Type := ClusterExtension -> option error.

Fixpoint run_validators (i : nat) (validators : list ClusterExtensionValidator) (ext : ClusterExtension)
  : IO W (list error) :=
  match validators with
  | [] => io_ret []
  | v :: vs =>
      let* _ := tell (CallValidate i) in
      let* errs := run_validators (S i) vs ext in
      io_ret (match v ext with Some e => e :: errs | None => errs end)
  end.

(** func ValidateClusterExtension(validators ...) ReconcileStepFunc *)
Definition ValidateClusterExtension (validators : list ClusterExtensionValidator) : ReconcileStepFunc :=
  fun s ext =>
  let* validationErrors := run_validators 0 validators ext in
  match validationErrors with
  | [] => done_with s ext Continue
  | _ =>
      let err := EWrap "operation cannot proceed due to the following validation error(s): "
                   (EJoin validationErrors) "" in
      let ext := setInstalledStatusConditionUnknown (Error err) ext in
      let ext := setStatusProgressing (Some err) ext in
      done_with s ext (Fail err)
  end.

(** func ServiceAccountValidator(saClient) ClusterExtensionValidator *)
Definition ServiceAccountValidator (get : string -> string -> option error) : ClusterExtensionValidator :=
  fun ext =>
  let ns := es_Namespace (ext_Spec ext) in
  let name := es_ServiceAccount (ext_Spec ext) in
  match get ns name with
  | None => None
  | Some err =>
      if has_kind KNotFound err then
        Some (ENew ("service account " +:+ fmt_q name +:+ " not found in namespace " +:+ fmt_q ns))
      else Some (EWrap "error getting service account: " err "")
  end.

(** func RetrieveRevisionStates(r RevisionStatesGetter) ReconcileStepFunc *)
Definition RetrieveRevisionStates (r : ClusterExtension -> result RevisionStates) : ReconcileStepFunc :=
  fun s ext =>
  let* _ := tell CallGetRevisionStates in
  match r ext with
  | inl err =>
      let ext := setInstallStatus None ext in
      let ext := setInstalledStatusConditionUnknown (Error err) ext in
      let ext := setStatusProgressing (Some (ENew "retrying to get installed bundle")) ext in
      done_with s ext (Fail err)
  | inr rs => done_with (with_revisionStates rs s) ext Continue
  end.

(** func getCatalogNameFromSelector(selector) string *)
Definition getCatalogNameFromSelector (selector : option LabelSelector) : string :=
  match selector with
  | None => EmptyString
  | Some sel => map_get (ls_MatchLabels sel) MetadataNameLabel
  end.

(** func getPackageName(ext) string *)
Definition getPackageName (ext : ClusterExtension) : string :=
  match src_Catalog (es_Source (ext_Spec ext)) with
  | None => EmptyString
  | Some c => cf_PackageName c
  end.

(** func CheckCatalogsExist(ctx, c, ext) (bool, error); the list call is
    limited to one item. *)
Definition CheckCatalogsExist (list : option Selector -> result (list ClusterCatalog)) (ext : ClusterExtension)
  : IO W (result bool) :=
  let sel := match src_Catalog (es_Source (ext_Spec ext)) with
             | None => inr None
             | Some c =>
                 match cf_Selector c with
                 | None => inr None
                 | Some ls =>
                     match LabelSelectorAsSelector (Some ls) with
                     | inl err => inl (EWrap "invalid catalog selector: " err "")
                     | inr selector => inr (Some selector)
                     end
                 end
             end in
  match sel with
  | inl err => io_ret (inl err)
  | inr selector =>
      let* _ := tell (CallListCatalogs selector) in
      match list selector with
      | inl listErr =>
          if has_kind KNoMatch listErr then io_ret (inr false)
          else io_ret (inl (EWrap "failed to list ClusterCatalogs: " listErr ""))
      | inr items => io_ret (inr (match items with [] => false | _ => true end))
      end
  end.

(** The three statements every retrying branch of handleResolutionError ends with. *)
Definition resolution_retry (rs : RevisionStates) (err : error) (msg : string) (s : reconcileState)
    (ext : ClusterExtension) : IO W (reconcileState * ClusterExtension * outcome) :=
  let ext := setStatusProgressing (Some err) ext in
  let ext := setInstalledStatusFromRevisionStates rs ext in
  let ext := ensureFailureConditionsWithReason ReasonRetrying msg ext in
  done_with s ext (Fail err).

Definition spec_version (ext : ClusterExtension) : string :=
  match src_Catalog (es_Source (ext_Spec ext)) with Some c => cf_Version c | None => EmptyString end.

(** func handleResolutionError(ctx, c, state, ext, err) *)
Definition handleResolutionError (list : option Selector -> result (list ClusterCatalog))
    (rs : RevisionStates) (s : reconcileState) (ext : ClusterExtension) (err : error)
  : IO W (reconcileState * ClusterExtension * outcome) :=
  match Installed rs with
  | None => resolution_retry rs err ("failed to resolve bundle: " +:+ Error err) s ext
  | Some installed =>
      let specVersion := spec_version ext in
      let installedVersion := bm_Version (rm_Bundle installed) in
      if negb (bool_decide (specVersion = EmptyString)) && negb (bool_decide (specVersion = installedVersion))
      then
        resolution_retry rs err
          ("unable to upgrade to version " +:+ specVersion +:+ ": " +:+ Error err +:+
           " (currently installed: " +:+ installedVersion +:+ ")") s ext
      else
        let* catalogsExist := CheckCatalogsExist list ext in
        match catalogsExist with
        | inl _ => resolution_retry rs err ("failed to resolve bundle: " +:+ Error err) s ext
        | inr true => resolution_retry rs err ("failed to resolve bundle, retrying: " +:+ Error err) s ext
        | inr false =>
            let ext := setInstalledStatusFromRevisionStates rs ext in
            done_with (with_resolved installed s) ext Continue
        end
  end.

Definition installed_name (rs : RevisionStates) : string :=
  match Installed rs with Some i => bm_Name (rm_Bundle i) | None => EmptyString end.

(** hasCatalogData := err == nil || resolvedDeprecation != nil *)
Definition has_data (out : ResolveOut) : bool :=
  match ro_err out, ro_deprecation out with Some _, None => false | _, _ => true end.

(** func ResolveBundle(r resolve.Resolver, c client.Client) ReconcileStepFunc *)
Definition ResolveBundle (r : ClusterExtension -> option BundleMetadata -> go ResolveOut)
    (list : option Selector -> result (list ClusterCatalog)) : ReconcileStepFunc :=
  fun s ext =>
  match revisionStates s with
  | None => done_with s ext (Crash "nil pointer dereference")
  | Some rs =>
      match RollingOut rs with
      | first :: _ =>
          let ext := SetDeprecationStatus (installed_name rs) None false ext in
          done_with (with_resolved first s) ext Continue
      | [] =>
          let bm := rm_Bundle <$> Installed rs in
          let* _ := tell (CallResolve bm) in
          match r ext bm with
          | Panic msg => done_with s ext (Crash msg)
          | Ret out =>
              let s := with_deprecation (ro_deprecation out) (has_data out) s in
              let ext := SetDeprecationStatus (installed_name rs) (ro_deprecation out) (has_data out) ext in
              match ro_err out with
              | Some err => handleResolutionError list rs s ext err
              | None =>
                  match ro_bundle out with
                  | None => done_with s ext (Crash "nil pointer dereference")
                  | Some (resolvedBundle, resolvedBundleVersion) =>
                      let rm := mkRM EmptyString (b_Package resolvedBundle) (b_Image resolvedBundle)
                                  (MetadataFor (b_Name resolvedBundle)
                                     (AsLegacyRegistryV1Version resolvedBundleVersion)) [] in
                      done_with (with_resolved rm s) ext Continue
                  end
              end
          end
      end
  end.

(** func UnpackBundle(i imageutil.Puller, cache imageutil.Cache) ReconcileStepFunc *)
Definition bundleUnchanged (s : reconcileState) (resolved : RevisionMetadata) : bool :=
  match revisionStates s with
  | None => false
  | Some rs =>
      match Installed rs with
      | None => false
      | Some i => bool_decide (bm_Name (rm_Bundle resolved) = bm_Name (rm_Bundle i)) &&
                  bool_decide (bm_Version (rm_Bundle resolved) = bm_Version (rm_Bundle i))
      end
  end.

Definition UnpackBundle (pull : string -> string -> result FS) : ReconcileStepFunc :=
  fun s ext =>
  match resolvedRevisionMetadata s with
  | None => done_with s ext (Fail (ENew "unable to retrieve bundle information"))
  | Some resolved =>
      let* _ := tell (CallPull (ext_Name ext) (rm_Image resolved)) in
      match pull (ext_Name ext) (rm_Image resolved) with
      | inl err =>
          if bundleUnchanged s resolved then done_with (with_imageFS None s) ext Continue
          else
            let ext := setStatusProgressing (Some (wrapErrorWithResolutionInfo (rm_Bundle resolved) err)) ext in
            match revisionStates s with
            | None => done_with s ext (Crash "nil pointer dereference")
            | Some rs => done_with s (setInstalledStatusFromRevisionStates rs ext) (Fail err)
            end
      | inr fs => done_with (with_imageFS (Some fs) s) ext Continue
      end
  end.

(** The annotations and labels both apply steps pass on. *)
Definition revision_annotations (rm : RevisionMetadata) : gmap string string :=
  <[BundleNameKey := bm_Name (rm_Bundle rm)]>
  (<[PackageNameKey := rm_Package rm]>
   (<[BundleVersionKey := bm_Version (rm_Bundle rm)]>
    (<[BundleReferenceKey := rm_Image rm]> ∅))).

Definition object_labels (ext : ClusterExtension) : gmap string string :=
  <[OwnerKindKey := ClusterExtensionKind]> (<[OwnerNameKey := ext_Name ext]> ∅).

(** type Applier interface: Apply(ctx, contentFS, ext, objectLabels,
    revisionAnnotations) (bool, string, error) *)
Definition Applier : Type :=
  option FS -> ClusterExtension -> gmap string string -> gmap string string -> bool * string * option error.

(** func ApplyBundle(a Applier) ReconcileStepFunc *)
Definition ApplyBundle (a : Applier) : ReconcileStepFunc := fun s ext =>
  match resolvedRevisionMetadata s with
  | None => done_with s ext (Crash "nil pointer dereference")
  | Some resolved =>
      let revisionAnnotations := revision_annotations resolved in
      let objLbls := object_labels ext in
      let* _ := tell (CallApply (imageFS s) objLbls revisionAnnotations) in
      let '(rolloutSucceeded, rolloutStatus, err) := a (imageFS s) ext objLbls revisionAnnotations in
      match revisionStates s with
      | None =>
          (* state.revisionStates is only replaced, never read, on success *)
          if rolloutSucceeded then
            let rs := mkRS (Some resolved) [] in
            let s := with_revisionStates rs s in
            let ext := setInstalledStatusFromRevisionStates rs ext in
            let ext := SetDeprecationStatus (bm_Name (rm_Bundle resolved)) (resolvedDeprecation s)
                         (hasCatalogData s) ext in
            match err with
            | Some e =>
                done_with s (setStatusProgressing (Some (wrapErrorWithResolutionInfo (rm_Bundle resolved) e)) ext)
                  (Fail e)
            | None => done_with s (setStatusProgressing None ext) Continue
            end
          else done_with s ext (Crash "nil pointer dereference")
      | Some rs0 =>
          let rs := if rolloutSucceeded then mkRS (Some resolved) []
                    else match err, Installed rs0, RollingOut rs0 with
                         | None, None, [] => mkRS None [resolved]
                         | _, _, _ => rs0
                         end in
          let s := with_revisionStates rs s in
          let ext := setInstalledStatusFromRevisionStates rs ext in
          let ext := match rolloutSucceeded, Installed rs with
                     | true, Some i =>
                         SetDeprecationStatus (bm_Name (rm_Bundle i)) (resolvedDeprecation s)
                           (hasCatalogData s) ext
                     | _, _ => ext
                     end in
          match err with
          | Some e =>
              done_with s (setStatusProgressing (Some (wrapErrorWithResolutionInfo (rm_Bundle resolved) e)) ext)
                (Fail e)
          | None =>
              if negb rolloutSucceeded then
                (* apimeta.SetStatusCondition: the message is not truncated *)
                done_with s
                  (with_ExtConditions
                     (set_cond (ext_Conditions ext)
                        (mkCond TypeProgressing ConditionTrue ReasonRollingOut rolloutStatus (ext_Generation ext)))
                     ext) Continue
              else done_with s (setStatusProgressing None ext) Continue
          end
      end
  end.

(** ** boxcutter_reconcile_steps.go *)

(** func MigrateStorage(m StorageMigrator) ReconcileStepFunc *)
Definition MigrateStorage (m : ClusterExtension -> gmap string string -> option error) : ReconcileStepFunc :=
  fun s ext =>
  let objLbls := object_labels ext in
  let* _ := tell (CallMigrate objLbls) in
  match m ext objLbls with
  | Some err => done_with s ext (Fail (EWrap "migrating storage: " err ""))
  | None => done_with s ext Continue
  end.

(** Copy the conditions of the given types from [src] to [dst] with the
    extension's generation.  FindStatusCondition returns a pointer into [src],
    so the generation is overwritten there too: both lists are returned. *)
Definition mirror_condition (gen : Z) (p : list Condition * list Condition) (cndType : string)
  : list Condition * list Condition :=
  match FindStatusCondition p.1 cndType with
  | Some cnd =>
      let cnd := with_ObservedGeneration gen cnd in (set_cond p.1 cnd, set_cond p.2 cnd)
  | None => p
  end.

Definition mirror_conditions (gen : Z) (types : list string) (src dst : list Condition)
  : list Condition * list Condition :=
  fold_left (mirror_condition gen) types (src, dst).

Definition mirrored : list string := [ClusterObjectSetTypeAvailable; ClusterObjectSetTypeProgressing].

Definition with_rmConditions (cs : list Condition) (r : RevisionMetadata) : RevisionMetadata :=
  mkRM (rm_RevisionName r) (rm_Package r) (rm_Image r) (rm_Bundle r) cs.

(** The loop over state.revisionStates.RollingOut. *)
Fixpoint rolling_status (rolling : list RevisionMetadata) (ext : ClusterExtension)
  : list RevisionMetadata * ClusterExtension :=
  match rolling with
  | [] => ([], ext)
  | r :: rest =>
      let '(src, conds) := mirror_conditions (ext_Generation ext) mirrored (rm_Conditions r) [] in
      let '(src, ext) :=
        match rest with
        | [] =>
            let '(src, dst) := mirror_conditions (ext_Generation ext) [ClusterObjectSetTypeProgressing]
                                 src (ext_Conditions ext) in
            (src, with_ExtConditions dst ext)
        | _ => (src, ext)
        end in
      let ext := with_ExtActive (st_ActiveRevisions (ext_Status ext) ++ [mkRevStatus (rm_RevisionName r) conds]) ext in
      let '(rest, ext) := rolling_status rest ext in
      (with_rmConditions src r :: rest, ext)
  end.

(** What a successful apply reports of the revisions: the conditions of the
    installed one, the install status, and the active revisions. *)
Definition report_revisions (rs : RevisionStates) (ext : ClusterExtension)
  : RevisionStates * ClusterExtension :=
  let ext := with_ExtActive [] ext in
  let '(installed, ext) :=
    match Installed rs with
    | None => (None, ext)
    | Some i =>
        let '(src, dst) := mirror_conditions (ext_Generation ext) mirrored
                             (rm_Conditions i) (ext_Conditions ext) in
        let ext := with_ExtConditions dst ext in
        let ext := with_ExtInstall (Some (rm_Bundle i)) ext in
        (Some (with_rmConditions src i), with_ExtActive [mkRevStatus (rm_RevisionName i) []] ext)
    end in
  let '(rolling, ext) := rolling_status (RollingOut rs) ext in
  (mkRS installed rolling, ext).

(** func ApplyBundleWithBoxcutter(apply) ReconcileStepFunc *)
Definition ApplyBundleWithBoxcutter (apply : Applier) : ReconcileStepFunc := fun s ext =>
  match resolvedRevisionMetadata s with
  | None => done_with s ext (Crash "nil pointer dereference")
  | Some resolved =>
      let revisionAnnotations := revision_annotations resolved in
      let objLbls := object_labels ext in
      let* _ := tell (CallApply (imageFS s) objLbls revisionAnnotations) in
      match (apply (imageFS s) ext objLbls revisionAnnotations).2 with
      | Some err =>
          let ext := setStatusProgressing (Some (wrapErrorWithResolutionInfo (rm_Bundle resolved) err)) ext in
          if negb (is_terminal err) then
            match revisionStates s with
            | None => done_with s ext (Crash "nil pointer dereference")
            | Some rs => done_with s (setInstalledStatusFromRevisionStates rs ext) (Fail err)
            end
          else done_with s ext (Fail err)
      | None =>
          match revisionStates s with
          | None => done_with s ext (Crash "nil pointer dereference")
          | Some rs =>
              let '(rs, ext) := report_revisions rs ext in
              done_with (with_revisionStates rs s) (setInstalledStatusFromRevisionStates rs ext) Continue
          end
      end
  end.

(** func (d *BoxcutterRevisionStatesGetter) GetRevisionStates(ctx, ext) *)
Definition revision_cmp (a b : ClusterObjectSet) : Z := int_cmp (cos_Revision a) (cos_Revision b).

Definition metadata_of (rev : ClusterObjectSet) : RevisionMetadata :=
  let ann := m_Annotations (cos_Meta rev) in
  mkRM (cos_Name rev) (map_get ann PackageNameKey) (map_get ann BundleReferenceKey)
    (mkBM (map_get ann BundleNameKey) (map_get ann BundleVersionKey)) (cos_Conditions rev).

Definition classify_revision (rs : RevisionStates) (rev : ClusterObjectSet) : RevisionStates :=
  if bool_decide (cos_Lifecycle rev = LifecycleStateArchived) then rs
  else
    let rm := metadata_of rev in
    if IsStatusConditionTrue (cos_Conditions rev) ClusterObjectSetTypeSucceeded
    then mkRS (Some rm) (RollingOut rs)
    else mkRS (Installed rs) (RollingOut rs ++ [rm]).

Definition Boxcutter_GetRevisionStates
    (list : gmap string string -> result (list ClusterObjectSet)) (ext : ClusterExtension)
  : result RevisionStates :=
  match list (<[OwnerNameKey := ext_Name ext]> ∅) with
  | inl err => inl (EWrap "listing revisions: " err "")
  | inr items => inr (fold_left classify_revision (sort_by revision_cmp items) (mkRS None []))
  end.

(** A Helm release: its revision number, its status, when it has an Info, its
    labels and its rendered manifest. *)
Record HelmRelease := mkRelease {
  rel_Version : Z;
  rel_Status : option string;
  rel_Labels : gmap string string;
  rel_Manifest : string;
}.

Definition StatusDeployed : string := "deployed".

Fixpoint first_deployed (relhis : list HelmRelease) : option RevisionMetadata :=
  match relhis with
  | [] => None
  | rel :: rest =>
      if bool_decide (rel_Status rel = Some StatusDeployed) then
        Some (mkRM EmptyString (map_get (rel_Labels rel) PackageNameKey)
                (map_get (rel_Labels rel) BundleReferenceKey)
                (mkBM (map_get (rel_Labels rel) BundleNameKey) (map_get (rel_Labels rel) BundleVersionKey)) [])
      else first_deployed rest
  end.

(** func (d *HelmRevisionStatesGetter) GetRevisionStates(ctx, ext) *)
Definition Helm_GetRevisionStates
    (ActionClientFor : ClusterExtension -> result (string -> list HelmRelease * option error))
    (ext : ClusterExtension) : result RevisionStates :=
  match ActionClientFor ext with
  | inl err => inl err
  | inr history =>
      let '(relhis, err) := history (ext_Name ext) in
      match err with
      | Some e => if has_kind KReleaseNotFound e then inr (mkRS (first_deployed relhis) []) else inl e
      | None => inr (mkRS (first_deployed relhis) [])
      end
  end.

(** ** clusterextension_controller.go: the reconciler *)

(** func CheckForUnexpectedFieldChange(a, b metav1.Object) bool (k8s.go) *)
Definition CheckForUnexpectedFieldChange (a b : ClusterExtension) : bool :=
  if negb (bool_decide (m_Annotations (ext_Meta a) = m_Annotations (ext_Meta b))) then true
  else if negb (bool_decide (m_Labels (ext_Meta a) = m_Labels (ext_Meta b))) then true
  else negb (bool_decide (ext_Spec a = ext_Spec b)).

(** The client of the reconciler: Get, Status().Update and CreateOrPatch. *)
Record ExtClient := mkExtClient {
  client_Get : result ClusterExtension;
  client_StatusUpdate : ClusterExtension -> option error;
  client_CreateOrPatch : list string -> option error;
}.

(** errors.Join(reconcileErr, fmt.Errorf(...)) *)
Definition join_err (a : option error) (b : error) : option error := errors_Join [a; Some b].

(** func (r *ClusterExtensionReconciler) Reconcile(ctx, req) (ctrl.Result, error) *)
Definition Reconcile (c : ExtClient) (steps : list ReconcileStepFunc)
  : IO W (go (CtrlResult * option error)) :=
  let* _ := tell CallGet in
  match client_Get c with
  | inl err => io_ret (Ret (emptyResult, IgnoreNotFound err))
  | inr existingExt =>
      let* r := ReconcileSteps_Reconcile steps existingExt in
      let '(_, reconciledExt, o) := r in
      match o with
      | Crash msg => io_ret (Panic msg)
      | _ =>
          let '(res, reconcileErr) := match o with
                                      | Stop res => (res, None)
                                      | Fail e => (emptyResult, Some e)
                                      | _ => (emptyResult, None)
                                      end in
          let updateStatus := negb (bool_decide (ext_Status existingExt = ext_Status reconciledExt)) in
          let finalizers := m_Finalizers (ext_Meta reconciledExt) in
          let updateFinalizers := negb (bool_decide (m_Finalizers (ext_Meta existingExt) = finalizers)) in
          if CheckForUnexpectedFieldChange existingExt reconciledExt then
            io_ret (Panic "spec or metadata changed by reconciler")
          else
            let* reconcileErr :=
              (if updateStatus then
                 let* _ := tell (CallStatusUpdate (ext_Status reconciledExt)) in
                 io_ret (match client_StatusUpdate c reconciledExt with
                         | Some err => join_err reconcileErr (ENew ("error updating status: " +:+ Error err))
                         | None => reconcileErr
                         end)
               else io_ret reconcileErr) in
            let* reconcileErr :=
              (if updateFinalizers then
                 let* _ := tell (CallPatchFinalizers finalizers) in
                 io_ret (match client_CreateOrPatch c finalizers with
                         | Some err => join_err reconcileErr (ENew ("error updating finalizers: " +:+ Error err))
                         | None => reconcileErr
                         end)
               else io_ret reconcileErr) in
            io_ret (Ret (res, reconcileErr))
      end
  end.

(** The UpdateFunc predicate of the catalog watch in SetupWithManager. *)
Definition catalog_update_triggers (old new : ClusterCatalog) : bool :=
  match cst_ResolvedSource (cat_Status old), cst_ResolvedSource (cat_Status new) with
  | Some o, Some n =>
      match res_Image o, res_Image n with
      | Some oref, Some nref => negb (bool_decide (oref = nref))
      | _, _ => true
      end
  | _, _ => true
  end.

(** func clusterExtensionRequestsForCatalog(c, logger) *)
Definition clusterExtensionRequestsForCatalog (listed : result (list ObjectMeta)) : list (string * string)%type :=
  match listed with
  | inl _ => []
  | inr items => map (fun m => (m_Namespace m, m_Name m)) items
  end.

(** ** The two pipelines (cmd/operator-controller/main.go) *)

Definition boxcutter_steps finalizers saGet migrator getStates resolver listCats pull apply
  : list ReconcileStepFunc :=
  [HandleFinalizers finalizers;
   ValidateClusterExtension [ServiceAccountValidator saGet];
   MigrateStorage migrator;
   RetrieveRevisionStates getStates;
   ResolveBundle resolver listCats;
   UnpackBundle pull;
   ApplyBundleWithBoxcutter apply].

Definition helm_steps finalizers saGet getStates resolver listCats pull apply : list ReconcileStepFunc :=
  [HandleFinalizers finalizers;
   ValidateClusterExtension [ServiceAccountValidator saGet];
   RetrieveRevisionStates getStates;
   ResolveBundle resolver listCats;
   UnpackBundle pull;
   ApplyBundle apply].

(** CatalogResolver as a resolve.Resolver. *)
Definition as_resolver (r : go (result (Bundle * VersionRelease * option Deprecation))) : go ResolveOut :=
  match r with
  | Panic msg => Panic msg
  | Ret (inl err) => Ret (mkResolveOut None None (Some err))
  | Ret (inr (b, vr, dep)) => Ret (mkResolveOut (Some (b, vr)) dep None)
  end.

End Steps.

Arguments call {LA} FS.
Arguments reconcileState FS : clear implicits.
