(* ===== verification/ExtLogic.v ===== *)
(** * Reasoning about the reconcile steps

    Lemmas on the condition setters, a small Hoare logic for pipelines of
    [ReconcileStepFunc]s, and the proof rules of the steps that the properties
    share. *)

From S2P Require Import Prelude GoErrors VersionRelease ApiTypes Filter Resolve Sanitize ExtStatus ExtSteps.

(** ** Messages *)

Lemma str_take_length n s : String.length (str_take n s) = Nat.min n (String.length s).
Proof. revert s. induction n; intros [|c s]; simpl; [done..|]. by rewrite IHn. Qed.

Lemma str_take_prefix n s : exists t, s = str_take n s +:+ t.
Proof.
  revert s. induction n as [|n IH]; intros s; [by exists s|]. destruct s as [|c s]; [by exists EmptyString|].
  destruct (IH s) as [t Ht]. exists t. simpl. exact (f_equal (String c) Ht).
Qed.

Lemma truncate_bound m : slen (truncateMessage m) <= maxConditionMessageLength.
Proof.
  unfold truncateMessage. destruct (Z.leb_spec (slen m) maxConditionMessageLength) as [|H]; [done|].
  rewrite slen_app. unfold slen in *. rewrite str_take_length.
  change (Z.of_nat (String.length truncationSuffix)) with 25 in *.
  unfold maxConditionMessageLength in *. lia.
Qed.

Lemma truncate_short m : slen m <= maxConditionMessageLength -> truncateMessage m = m.
Proof. intros H. unfold truncateMessage. by destruct (Z.leb_spec (slen m) maxConditionMessageLength); [|lia]. Qed.

Section Conditions.
Context `{CA : ConditionsAPI}.

(** A condition of the extension, by type. *)
Definition cond_of (ext : ClusterExtension) (t : string) : option Condition :=
  FindStatusCondition (ext_Conditions ext) t.

Lemma cond_set_ext t st r m ext t' :
  cond_of (set_ext t st r m ext) t' =
  if decide (t = t') then Some (mkCond t st r (truncateMessage m) (ext_Generation ext))
  else cond_of ext t'.
Proof. unfold cond_of, set_ext, SetStatusCondition. simpl. apply find_set_cond. Qed.

(** What every setter leaves alone: metadata and spec. *)
Definition same_object (a b : ClusterExtension) : Prop :=
  ext_Meta a = ext_Meta b /\ ext_Spec a = ext_Spec b.

#[export] Instance same_object_equivalence : Equivalence same_object.
Proof. split; unfold same_object; intros ?; intros; intuition congruence. Qed.

Lemma same_set_ext t st r m ext : same_object ext (set_ext t st r m ext).
Proof. done. Qed.

Lemma same_set_deprecated t ms n ext : same_object ext (set_deprecated t ms n ext).
Proof. by destruct ms. Qed.

Lemma same_ensure reason msg ext : same_object ext (ensureFailureConditionsWithReason reason msg ext).
Proof.
  unfold ensureFailureConditionsWithReason. generalize ConditionTypes. intros ts. revert ext.
  induction ts as [|t ts IH]; intros ext; simpl; [done|].
  transitivity (ensure_condition reason msg ext t); [|apply IH].
  unfold ensure_condition. destruct (isDeprecationCondition t); [done|].
  by destruct (FindStatusCondition _ _).
Qed.

Lemma same_installed rs ext : same_object ext (setInstalledStatusFromRevisionStates rs ext).
Proof. unfold setInstalledStatusFromRevisionStates. by destruct (Installed rs). Qed.

Lemma same_progressing err ext : same_object ext (setStatusProgressing err ext).
Proof.
  unfold setStatusProgressing. destruct err as [e|]; [|done]. by destruct (is_terminal e).
Qed.

Lemma same_deprecation n d h ext : same_object ext (SetDeprecationStatus n d h ext).
Proof.
  unfold SetDeprecationStatus. destruct h; simpl; [|by case_bool_decide].
  do 3 (etransitivity; [apply same_set_deprecated|]).
  case_bool_decide; [apply same_set_ext|apply same_set_deprecated].
Qed.

Lemma same_rolling rolling ext : same_object ext (rolling_status rolling ext).2.
Proof.
  revert ext. induction rolling as [|r rest IH]; intros ext; simpl; [done|].
  destruct (mirror_conditions _ mirrored _ []) as [src conds].
  destruct rest as [|r' rest'].
  - by destruct (mirror_conditions _ [_] src _) as [src' dst].
  - match goal with |- context [rolling_status _ ?e] => specialize (IH e); destruct (rolling_status _ e) end.
    etransitivity; [|exact IH]. done.
Qed.

(** The status and the reason setStatusProgressing reports for an error. *)
Definition progressing_status (err : error) : ConditionStatus :=
  if is_terminal err then ConditionFalse else ConditionTrue.
Definition progressing_reason (err : error) : string :=
  if is_terminal err then default ReasonBlocked (ExtractTerminalReason (Some err)) else ReasonRetrying.

Lemma cond_progressing_err err ext :
  cond_of (setStatusProgressing (Some err) ext) TypeProgressing =
  Some (mkCond TypeProgressing (progressing_status err) (progressing_reason err)
          (truncateMessage (SanitizeNetworkError (UnwrapTerminal (Some err)))) (ext_Generation ext)).
Proof.
  unfold setStatusProgressing, progressing_status, progressing_reason.
  destruct (is_terminal err); rewrite cond_set_ext; simpl; [|done].
  by destruct (ExtractTerminalReason (Some err)).
Qed.

Lemma cond_progressing_ne err ext t :
  t <> TypeProgressing -> cond_of (setStatusProgressing err ext) t = cond_of ext t.
Proof.
  intros Ht. unfold setStatusProgressing. destruct err as [e|]; [destruct (is_terminal e)|];
    rewrite cond_set_ext; by rewrite decide_False.
Qed.

(** The Installed condition for given revision states. *)
Definition installed_condition (rs : RevisionStates) (gen : Z) : Condition :=
  match Installed rs with
  | None => mkCond TypeInstalled ConditionFalse (determineFailureReason (RollingOut rs)) "No bundle installed" gen
  | Some i => mkCond TypeInstalled ConditionTrue ReasonSucceeded
                (truncateMessage ("Installed bundle " +:+ rm_Image i +:+ " successfully")) gen
  end.

Lemma cond_installed rs ext t :
  cond_of (setInstalledStatusFromRevisionStates rs ext) t =
  if decide (TypeInstalled = t) then Some (installed_condition rs (ext_Generation ext)) else cond_of ext t.
Proof.
  unfold setInstalledStatusFromRevisionStates, installed_condition.
  destruct (Installed rs); unfold setInstalledStatusConditionSuccess, setInstalledStatusConditionFalse;
    rewrite cond_set_ext; [done|].
  by rewrite truncate_short by done.
Qed.

Lemma install_of rs ext :
  st_Install (ext_Status (setInstalledStatusFromRevisionStates rs ext)) = rm_Bundle <$> Installed rs.
Proof. unfold setInstalledStatusFromRevisionStates. by destruct (Installed rs). Qed.

(** ensureFailureConditionsWithReason fills the missing conditions that are
    not about deprecation and changes no condition that is present. *)
Lemma ensure_condition_find reason msg ext t t' :
  cond_of (ensure_condition reason msg ext t) t' =
  if decide (t = t' /\ isDeprecationCondition t = false /\ cond_of ext t = None)
  then Some (mkCond t ConditionFalse reason (truncateMessage msg) (ext_Generation ext))
  else cond_of ext t'.
Proof.
  unfold ensure_condition. destruct (isDeprecationCondition t) eqn:Ed.
  { rewrite decide_False; [done|]. by intros (_ & ? & _). }
  fold (cond_of ext t). destruct (cond_of ext t) as [c|] eqn:Ec.
  { rewrite decide_False; [done|]. by intros (_ & _ & ?). }
  rewrite cond_set_ext. destruct (decide (t = t')) as [->|].
  - by rewrite decide_True.
  - rewrite decide_False; [done|]. by intros (? & _).
Qed.

Lemma ensure_fold_find reason msg ts ext t :
  cond_of (fold_left (ensure_condition reason msg) ts ext) t =
  match cond_of ext t with
  | Some c => Some c
  | None => if decide (t ∈ ts /\ isDeprecationCondition t = false)
            then Some (mkCond t ConditionFalse reason (truncateMessage msg) (ext_Generation ext))
            else None
  end.
Proof.
  revert ext. induction ts as [|u ts IH]; intros ext; cbn [fold_left].
  { destruct (cond_of ext t) as [c|]; [done|]. rewrite decide_False; [done|].
    intros [H _]. by apply not_elem_of_nil in H. }
  rewrite IH, ensure_condition_find.
  assert (Hg : ext_Generation (ensure_condition reason msg ext u) = ext_Generation ext).
  { unfold ensure_condition. destruct (isDeprecationCondition u); [done|]. by destruct (FindStatusCondition _ _). }
  rewrite Hg. destruct (decide (u = t /\ isDeprecationCondition u = false /\ cond_of ext u = None)) as [(-> & Hd & Hn)|Hno].
  - rewrite Hn, decide_True; [done|]. split; [set_solver|done].
  - destruct (cond_of ext t) as [c|] eqn:Ec; [done|].
    apply decide_ext. rewrite elem_of_cons. split; [tauto|].
    intros [[->|?] ?]; [|done]. exfalso. by apply Hno.
Qed.

(** Which conditions the deprecation setters touch. *)
Lemma cond_set_deprecated t ms n ext t' :
  cond_of (set_deprecated t ms n ext) t' =
  if decide (t = t') then
    Some (match ms with
          | [] => mkCond t ConditionFalse ReasonNotDeprecated (truncateMessage n) (ext_Generation ext)
          | _ => mkCond t ConditionTrue ReasonDeprecated (truncateMessage (strings_Join ms nl)) (ext_Generation ext)
          end)
  else cond_of ext t'.
Proof. unfold set_deprecated. destruct ms; apply cond_set_ext. Qed.

Lemma generation_set_deprecated t ms n ext : ext_Generation (set_deprecated t ms n ext) = ext_Generation ext.
Proof. by destruct ms. Qed.

(** The four deprecation conditions as a function of the inputs. *)
Definition deprecation_condition (ext : ClusterExtension) (name : string) (dep : option Deprecation)
    (has : bool) (t : string) : option Condition :=
  let info := buildDeprecationInfo ext name dep in
  let pm := collectDeprecationMessages (PackageEntries info) in
  let cm := collectDeprecationMessages (ChannelEntries info) in
  let bm := collectDeprecationMessages (BundleEntries info) in
  let gen := ext_Generation ext in
  let verdict ms none :=
    match ms with
    | [] => mkCond t ConditionFalse ReasonNotDeprecated none gen
    | _ => mkCond t ConditionTrue ReasonDeprecated (truncateMessage (strings_Join ms nl)) gen
    end in
  let unknown := mkCond t ConditionUnknown ReasonDeprecationStatusUnknown unknown_message gen in
  let absent := mkCond t ConditionUnknown ReasonAbsent "no bundle installed yet" gen in
  if decide (t = TypeBundleDeprecated) then
    Some (if decide (name = EmptyString) then absent
          else if has then verdict bm "bundle not deprecated" else unknown)
  else if decide (t = TypeChannelDeprecated) then
    Some (if has then verdict cm "channel not deprecated" else unknown)
  else if decide (t = TypePackageDeprecated) then
    Some (if has then verdict pm "package not deprecated" else unknown)
  else if decide (t = TypeDeprecated) then
    Some (if has then verdict (pm ++ cm ++ bm) "not deprecated" else unknown)
  else None.

Lemma build_status ext name dep :
  BundleStatus (buildDeprecationInfo ext name dep) = ConditionUnknown <-> name = EmptyString.
Proof.
  unfold buildDeprecationInfo. case_bool_decide as E; simpl.
  - split; [done|]. intros _. destruct dep as [d|]; [|done].
    match goal with |- context [fold_left ?f _ ?i] => assert (H : forall l i0, BundleStatus i0 = ConditionUnknown ->
      BundleStatus (fold_left f l i0) = ConditionUnknown) end; [|by apply H].
    induction l as [|e l IH]; intros i0 Hi; simpl; [done|]. apply IH. unfold classify_entry.
    repeat case_match; done.
  - split; [|done]. by case_match.
Qed.

(** Split on which of the four conditions [t] is. *)
Ltac by_deprecation_type t :=
  destruct (decide (t = TypeBundleDeprecated)) as [->|]; [done|rewrite decide_False by done];
  destruct (decide (t = TypeChannelDeprecated)) as [->|]; [done|rewrite decide_False by done];
  destruct (decide (t = TypePackageDeprecated)) as [->|]; [done|rewrite decide_False by done];
  destruct (decide (t = TypeDeprecated)) as [->|]; [done|by rewrite decide_False by done].

Lemma cond_deprecation name dep has ext t :
  cond_of (SetDeprecationStatus name dep has ext) t =
  match deprecation_condition ext name dep has t with Some c => Some c | None => cond_of ext t end.
Proof.
  unfold SetDeprecationStatus, deprecation_condition. pose proof (build_status ext name dep) as Hb.
  destruct has; cbn [negb].
  - destruct (decide (name = EmptyString)) as [En|En].
    + rewrite (bool_decide_eq_true_2 _ (proj2 Hb En)). rewrite cond_set_ext, !cond_set_deprecated.
      rewrite !generation_set_deprecated.
      by_deprecation_type t.
    + rewrite bool_decide_eq_false_2 by (by intros ?%Hb). rewrite !cond_set_deprecated.
      rewrite !generation_set_deprecated.
      by_deprecation_type t.
  - destruct (decide (name = EmptyString)) as [En|En];
      [rewrite (bool_decide_eq_true_2 _ En)|rewrite (bool_decide_eq_false_2 _ En)]; cbn [negb];
      rewrite !cond_set_ext; by_deprecation_type t.
Qed.

Lemma deprecation_condition_types ext name dep has t :
  is_Some (deprecation_condition ext name dep has t) <-> isDeprecationCondition t = true.
Proof.
  unfold deprecation_condition, isDeprecationCondition. rewrite bool_decide_eq_true, !elem_of_cons.
  repeat case_decide; subst; split; intros; try (by eexists); try tauto.
  - match goal with H : is_Some None |- _ => by destruct H end.
  - exfalso. match goal with H : _ \/ _ |- _ => destruct H as [?|[?|[?|[?|Hn%not_elem_of_nil]]]] end; done.
Qed.

End Conditions.

#[export] Hint Resolve same_set_ext same_set_deprecated same_ensure same_installed same_progressing
  same_deprecation same_rolling : olm.

(** ** A Hoare logic for pipelines *)

Section Logic.
Context `{SV : BSemver} `{CA : ConditionsAPI} `{LA : LabelsAPI} {FS : Type}.

Abbreviation assertion := (reconcileState FS -> ClusterExtension -> list (call FS) -> Prop).
Abbreviation exit_assertion := (reconcileState FS -> ClusterExtension -> list (call FS) -> outcome -> Prop).

(** From [P], the step continues in [Q] or leaves the pipeline in [E]. *)
Definition hoare (P : assertion) (step : ReconcileStepFunc) (Q : assertion) (E : exit_assertion) : Prop :=
  forall s ext h, P s ext h ->
    let '((s', ext', o), h') := step s ext h in
    match o with
    | Continue => Q s' ext' h'
    | _ => E s' ext' h' o
    end.

(** A pipeline with an assertion in front of every step. *)
Inductive pipeline (E : exit_assertion) : assertion -> list (@ReconcileStepFunc LA FS) -> Prop :=
| pipeline_nil P :
    (forall s ext h, P s ext h -> E s ext h (Stop emptyResult)) -> pipeline E P []
| pipeline_cons P Q step steps :
    hoare P step Q E -> pipeline E Q steps -> pipeline E P (step :: steps).

Lemma pipeline_sound E P steps s ext h :
  pipeline E P steps -> P s ext h ->
  let '((s', ext', o), h') := run_steps steps s ext h in E s' ext' h' o.
Proof.
  intros Hp. revert s ext h. induction Hp as [P H|P Q step steps Hstep _ IH]; intros s ext h HP; simpl.
  - by apply H.
  - specialize (Hstep s ext h HP). unfold io_bind.
    destruct (step s ext h) as [[[s' ext'] o] h']. destruct o; try exact Hstep. by apply IH.
Qed.

Lemma hoare_consequence (P P' Q Q' : assertion) (E E' : exit_assertion) step :
  hoare P step Q E ->
  (forall s ext h, P' s ext h -> P s ext h) -> (forall s ext h, Q s ext h -> Q' s ext h) ->
  (forall s ext h o, E s ext h o -> E' s ext h o) ->
  hoare P' step Q' E'.
Proof.
  intros H HP HQ HE s ext h Hp. specialize (H s ext h (HP _ _ _ Hp)).
  destruct (step s ext h) as [[[s' ext'] o] h']. destruct o; eauto.
Qed.

(** *** Proof rules of the steps

    Each rule gives what a step can do: which outcome, which state, which
    extension, which calls. *)

Lemma finalizers_rule f (P Q : assertion) (E : exit_assertion) :
  (forall s ext h, P s ext h ->
     let '(ext', fr, err) := f ext in
     let h' := h ++ [CallFinalize] in
     match err with
     | Some e => E s (setStatusProgressing (Some e) ext') h' (Fail e)
     | None =>
         if Updated fr || StatusUpdated fr then E s ext' h' (Stop emptyResult)
         else match m_DeletionTimestamp (ext_Meta ext') with
              | Some _ => E s ext' h' (Stop emptyResult)
              | None => Q s ext' h'
              end
     end) ->
  hoare P (HandleFinalizers f) Q E.
Proof.
  intros H s ext h HP. specialize (H s ext h HP). unfold HandleFinalizers, io_bind, tell, done_with, io_ret.
  destruct (f ext) as [[ext' fr] [e|]]; [done|].
  destruct (Updated fr || StatusUpdated fr); [done|]. by destruct (m_DeletionTimestamp (ext_Meta ext')).
Qed.

Definition is_validate (c : call FS) : Prop := exists i, c = CallValidate i.

Lemma run_validators_trace i vs ext h :
  exists t, Forall is_validate t /\
    run_validators i vs ext h = (omap (fun v => v ext) vs, h ++ t).
Proof.
  revert i h. induction vs as [|v vs IH]; intros i h; simpl.
  { exists []. split; [done|]. by rewrite app_nil_r. }
  unfold io_bind, tell. destruct (IH (S i) (h ++ [CallValidate i])) as (t & Ht & ->).
  exists (CallValidate i :: t). split; [constructor; [by exists i|done]|].
  unfold io_ret. rewrite <- app_assoc. by destruct (v ext).
Qed.

Lemma validate_rule vs (P Q : assertion) (E : exit_assertion) :
  (forall s ext h t, P s ext h -> Forall is_validate t ->
     Q s ext (h ++ t) /\
     forall err, E s (setStatusProgressing (Some err) (setInstalledStatusConditionUnknown (Error err) ext))
                   (h ++ t) (Fail err)) ->
  hoare P (ValidateClusterExtension vs) Q E.
Proof.
  intros H s ext h HP. unfold ValidateClusterExtension, io_bind, done_with, io_ret.
  destruct (run_validators_trace 0 vs ext h) as (t & Ht & ->). destruct (H s ext h t HP Ht) as [HQ HE].
  destruct (omap (fun v => v ext) vs); [done|]. apply HE.
Qed.

Lemma migrate_rule m (P Q : assertion) (E : exit_assertion) :
  (forall s ext h, P s ext h ->
     let h' := h ++ [CallMigrate (object_labels ext)] in
     Q s ext h' /\ forall err, E s ext h' (Fail err)) ->
  hoare P (MigrateStorage m) Q E.
Proof.
  intros H s ext h HP. destruct (H s ext h HP) as [HQ HE].
  unfold MigrateStorage, io_bind, tell, done_with, io_ret. by destruct (m ext (object_labels ext)).
Qed.

Lemma retrieve_rule r (P Q : assertion) (E : exit_assertion) :
  (forall s ext h, P s ext h ->
     let h' := h ++ [CallGetRevisionStates] in
     match r ext with
     | inr rs => Q (with_revisionStates rs s) ext h'
     | inl err =>
         E s (setStatusProgressing (Some (ENew "retrying to get installed bundle"))
                (setInstalledStatusConditionUnknown (Error err) (setInstallStatus None ext))) h' (Fail err)
     end) ->
  hoare P (RetrieveRevisionStates r) Q E.
Proof.
  intros H s ext h HP. specialize (H s ext h HP).
  unfold RetrieveRevisionStates, io_bind, tell, done_with, io_ret. by destruct (r ext).
Qed.

(** The calls handleResolutionError and CheckCatalogsExist make. *)
Definition is_list (c : call FS) : Prop := exists sel, c = CallListCatalogs sel.

(** No catalog matches: the list is empty or the kind does not exist. *)
Definition no_catalogs (list : option Selector -> result (list ClusterCatalog)) (ext : ClusterExtension) : Prop :=
  exists sel,
    match src_Catalog (es_Source (ext_Spec ext)) with
    | Some c => match cf_Selector c with
                | Some ls => exists q, LabelSelectorAsSelector (Some ls) = inr q /\ sel = Some q
                | None => sel = None
                end
    | None => sel = None
    end /\
    (list sel = inr [] \/ exists e, list sel = inl e /\ has_kind KNoMatch e = true).

Lemma CheckCatalogsExist_run list ext h :
  exists t r, Forall is_list t /\ CheckCatalogsExist list ext h = (r, h ++ t) /\
    (r = inr false <-> no_catalogs list ext).
Proof.
  unfold CheckCatalogsExist, no_catalogs.
  assert (Hgo : forall sel, exists t r, Forall is_list t /\
    (let* _ := tell (CallListCatalogs sel) in
      match list sel with
      | inl listErr =>
          if has_kind KNoMatch listErr then io_ret (inr false)
          else io_ret (inl (EWrap "failed to list ClusterCatalogs: " listErr ""))
      | inr items => io_ret (inr (match items with [] => false | _ => true end))
      end) h = (r, h ++ t) /\
    (r = inr false <-> (list sel = inr [] \/ exists e, list sel = inl e /\ has_kind KNoMatch e = true))).
  { intros sel. exists [CallListCatalogs sel]. unfold io_bind, tell, io_ret.
    destruct (list sel) as [e|[|c items]].
    - destruct (has_kind KNoMatch e) eqn:Ek; eexists; (split; [repeat constructor; by exists sel|]);
        (split; [reflexivity|]).
      + split; [|done]. intros _. right. by exists e.
      + split; [discriminate|]. intros [?|(e' & [= <-] & ?)]; [done|congruence].
    - eexists; (split; [repeat constructor; by exists sel|]); (split; [reflexivity|]).
      split; [by left|done].
    - eexists; (split; [repeat constructor; by exists sel|]); (split; [reflexivity|]).
      split; [discriminate|]. by intros [?|(e' & ? & _)]. }
  destruct (src_Catalog _) as [c|]; [destruct (cf_Selector c) as [ls|]|].
  - destruct (LabelSelectorAsSelector (Some ls)) as [e|q].
    + exists [], (inl (EWrap "invalid catalog selector: " e "")). split; [done|].
      split; [by rewrite app_nil_r|]. split; [discriminate|]. by intros (? & (? & [=] & _) & _).
    + destruct (Hgo (Some q)) as (t & r & Ht & Hr & Hiff). exists t, r. split; [done|]. split; [done|].
      rewrite Hiff. split; [intros ?; exists (Some q); split; [by exists q|done]|].
      by intros (sel & (q' & [= <-] & ->) & ?).
  - destruct (Hgo None) as (t & r & Ht & Hr & Hiff). exists t, r. split; [done|]. split; [done|].
    rewrite Hiff. split; [by exists None|]. by intros (sel & -> & ?).
  - destruct (Hgo None) as (t & r & Ht & Hr & Hiff). exists t, r. split; [done|]. split; [done|].
    rewrite Hiff. split; [by exists None|]. by intros (sel & -> & ?).
Qed.

(** When resolution failed and the installed bundle may stand in for it. *)
Definition may_fall_back (list : option Selector -> result (list ClusterCatalog)) (ext : ClusterExtension)
    (rs : RevisionStates) (installed : RevisionMetadata) : Prop :=
  Installed rs = Some installed /\
  (spec_version ext = EmptyString \/ spec_version ext = bm_Version (rm_Bundle installed)) /\
  no_catalogs list ext.

(** handleResolutionError either retries with a message, or falls back. *)
Lemma handleResolutionError_run list rs s ext err h :
  exists t, Forall is_list t /\
  ((exists installed, may_fall_back list ext rs installed /\
      handleResolutionError list rs s ext err h =
      ((with_resolved installed s, setInstalledStatusFromRevisionStates rs ext, Continue), h ++ t)) \/
   ((forall installed, ~ may_fall_back list ext rs installed) /\ exists msg,
      handleResolutionError list rs s ext err h =
      ((s, ensureFailureConditionsWithReason ReasonRetrying msg
             (setInstalledStatusFromRevisionStates rs (setStatusProgressing (Some err) ext)), Fail err), h ++ t))).
Proof.
  unfold handleResolutionError, may_fall_back, resolution_retry, done_with, io_ret.
  destruct (Installed rs) as [i|].
  2:{ exists []. split; [done|]. right. split; [by intros ? (? & _)|]. eexists. by rewrite app_nil_r. }
  destruct (negb _ && negb _) eqn:Ev.
  - exists []. split; [done|]. right. rewrite andb_true_iff, !negb_true_iff, !bool_decide_eq_false in Ev.
    split; [|eexists; by rewrite app_nil_r]. intros i' ([= <-] & [?|?] & _); naive_solver.
  - assert (Hv : spec_version ext = EmptyString \/ spec_version ext = bm_Version (rm_Bundle i)).
    { rewrite andb_false_iff, !negb_false_iff, !bool_decide_eq_true in Ev. done. }
    unfold io_bind. destruct (CheckCatalogsExist_run list ext h) as (t & r & Ht & -> & Hr).
    exists t. split; [done|]. destruct r as [e|[|]].
    + right. split; [|by eexists]. intros ? (_ & _ & Hn%Hr). done.
    + right. split; [|by eexists]. intros ? (_ & _ & Hn%Hr). done.
    + left. exists i. split; [|done]. split; [done|]. split; [done|]. by apply Hr.
Qed.

Definition resolved_metadata (b : Bundle) (vr : VersionRelease) : RevisionMetadata :=
  mkRM EmptyString (b_Package b) (b_Image b) (MetadataFor (b_Name b) (AsLegacyRegistryV1Version vr)) [].

Lemma resolve_rule r list (P Q : assertion) (E : exit_assertion) :
  (forall s ext h, P s ext h -> exists rs, revisionStates s = Some rs /\
     match RollingOut rs with
     | first :: _ => Q (with_resolved first s) (SetDeprecationStatus (installed_name rs) None false ext) h
     | [] =>
         let bm := rm_Bundle <$> Installed rs in
         let h' := h ++ [CallResolve bm] in
         match r ext bm with
         | Panic msg => E s ext h' (Crash msg)
         | Ret out =>
             let s' := with_deprecation (ro_deprecation out) (has_data out) s in
             let ext' := SetDeprecationStatus (installed_name rs) (ro_deprecation out) (has_data out) ext in
             match ro_err out, ro_bundle out with
             | Some err, _ => forall t, Forall is_list t ->
                 (forall installed, may_fall_back list ext' rs installed ->
                    Q (with_resolved installed s') (setInstalledStatusFromRevisionStates rs ext') (h' ++ t)) /\
                 (forall msg, (forall installed, ~ may_fall_back list ext' rs installed) ->
                    E s' (ensureFailureConditionsWithReason ReasonRetrying msg
                            (setInstalledStatusFromRevisionStates rs (setStatusProgressing (Some err) ext')))
                      (h' ++ t) (Fail err))
             | None, None => E s' ext' h' (Crash "nil pointer dereference")
             | None, Some (b, vr) => Q (with_resolved (resolved_metadata b vr) s') ext' h'
             end
         end
     end) ->
  hoare P (ResolveBundle r list) Q E.
Proof.
  intros H s ext h HP. destruct (H s ext h HP) as (rs & Hrs & Hres).
  unfold ResolveBundle. rewrite Hrs. revert Hres.
  destruct (RollingOut rs) as [|first rest]; intros Hres; [|exact Hres].
  unfold io_bind, tell. cbv zeta in *. revert Hres.
  destruct (r ext (rm_Bundle <$> Installed rs)) as [out|msg]; intros Hres; [|exact Hres].
  destruct (ro_err out) as [err|]; [|by destruct (ro_bundle out) as [[b vr]|]].
  destruct (handleResolutionError_run list rs (with_deprecation (ro_deprecation out) (has_data out) s)
              (SetDeprecationStatus (installed_name rs) (ro_deprecation out) (has_data out) ext) err
              (h ++ [CallResolve (rm_Bundle <$> Installed rs)]))
    as (t & Ht & [(i & Hi & ->)|(Hno & msg & ->)]); destruct (Hres t Ht) as [H1 H2]; auto.
Qed.

Lemma unpack_rule pull (P Q : assertion) (E : exit_assertion) :
  (forall s ext h, P s ext h -> exists rs resolved,
     revisionStates s = Some rs /\ resolvedRevisionMetadata s = Some resolved /\
     let h' := h ++ [CallPull (ext_Name ext) (rm_Image resolved)] in
     match pull (ext_Name ext) (rm_Image resolved) with
     | inl err =>
         if bundleUnchanged s resolved then Q (with_imageFS None s) ext h'
         else E s (setInstalledStatusFromRevisionStates rs
                     (setStatusProgressing (Some (wrapErrorWithResolutionInfo (rm_Bundle resolved) err)) ext))
                h' (Fail err)
     | inr fs => Q (with_imageFS (Some fs) s) ext h'
     end) ->
  hoare P (UnpackBundle pull) Q E.
Proof.
  intros H s ext h HP. destruct (H s ext h HP) as (rs & resolved & Hrs & Hres & Hgo).
  unfold UnpackBundle. rewrite Hres. unfold io_bind, tell.
  destruct (pull (ext_Name ext) (rm_Image resolved)) as [err|fs]; [|exact Hgo].
  destruct (bundleUnchanged s resolved); [exact Hgo|]. rewrite Hrs. exact Hgo.
Qed.

Lemma boxcutter_apply_rule apply (P Q : assertion) (E : exit_assertion) :
  (forall s ext h, P s ext h -> exists rs resolved,
     revisionStates s = Some rs /\ resolvedRevisionMetadata s = Some resolved /\
     let h' := h ++ [CallApply (imageFS s) (object_labels ext) (revision_annotations resolved)] in
     match (apply (imageFS s) ext (object_labels ext) (revision_annotations resolved)).2 with
     | Some err =>
         let ext' := setStatusProgressing (Some (wrapErrorWithResolutionInfo (rm_Bundle resolved) err)) ext in
         E s (if is_terminal err then ext' else setInstalledStatusFromRevisionStates rs ext') h' (Fail err)
     | None =>
         let r := report_revisions rs ext in
         Q (with_revisionStates r.1 s) (setInstalledStatusFromRevisionStates r.1 r.2) h'
     end) ->
  hoare P (ApplyBundleWithBoxcutter apply) Q E.
Proof.
  intros H s ext h HP. destruct (H s ext h HP) as (rs & resolved & Hrs & Hres & Hgo).
  unfold ApplyBundleWithBoxcutter. rewrite Hres. unfold io_bind, tell.
  destruct (apply _ _ _ _) as [[ok st] [err|]]; simpl in *.
  - rewrite Hrs. by destruct (is_terminal err).
  - rewrite Hrs. by destruct (report_revisions rs ext).
Qed.

(** The revision states and the extension the Helm apply step leaves. *)
Definition applied_states (rs0 : RevisionStates) (resolved : RevisionMetadata) (ok : bool) (err : option error)
  : RevisionStates :=
  if ok then mkRS (Some resolved) []
  else match err, Installed rs0, RollingOut rs0 with
       | None, None, [] => mkRS None [resolved]
       | _, _, _ => rs0
       end.

Definition refresh_deprecation (s : reconcileState FS) (ok : bool) (rs : RevisionStates) (ext : ClusterExtension)
  : ClusterExtension :=
  match ok, Installed rs with
  | true, Some i =>
      SetDeprecationStatus (bm_Name (rm_Bundle i)) (resolvedDeprecation s) (hasCatalogData s) ext
  | _, _ => ext
  end.

Lemma helm_apply_rule a (P Q : assertion) (E : exit_assertion) :
  (forall s ext h, P s ext h -> exists rs0 resolved,
     revisionStates s = Some rs0 /\ resolvedRevisionMetadata s = Some resolved /\
     let h' := h ++ [CallApply (imageFS s) (object_labels ext) (revision_annotations resolved)] in
     let '(ok, status, err) := a (imageFS s) ext (object_labels ext) (revision_annotations resolved) in
     let rs := applied_states rs0 resolved ok err in
     let s' := with_revisionStates rs s in
     let ext' := refresh_deprecation s ok rs (setInstalledStatusFromRevisionStates rs ext) in
     match err with
     | Some e =>
         E s' (setStatusProgressing (Some (wrapErrorWithResolutionInfo (rm_Bundle resolved) e)) ext') h' (Fail e)
     | None =>
         if ok then Q s' (setStatusProgressing None ext') h'
         else Q s' (with_ExtConditions
                      (set_cond (ext_Conditions ext')
                         (mkCond TypeProgressing ConditionTrue ReasonRollingOut status (ext_Generation ext'))) ext') h'
     end) ->
  hoare P (ApplyBundle a) Q E.
Proof.
  intros H s ext h HP. destruct (H s ext h HP) as (rs0 & resolved & Hrs & Hres & Hgo).
  unfold ApplyBundle. rewrite Hres. unfold io_bind, tell. revert Hgo.
  destruct (a _ _ _ _) as [[ok status] err]. rewrite Hrs. intros Hgo.
  unfold refresh_deprecation in Hgo. destruct err as [e|]; [exact Hgo|]. by destruct ok.
Qed.

End Logic.
