(* ===== verification/ExtProps.v ===== *)
(** * Properties of the ClusterExtension controller

    Safety of a reconciliation (no nil dereference, no change of spec or
    metadata, nothing done for a deleted extension), what happens when
    resolution fails, and what the status says. *)

From S2P Require Import Prelude GoErrors VersionRelease ApiTypes Filter Resolve.
From S2P Require Import Sanitize ExtStatus ExtSteps ExtLogic Instances.

Section Reconciliation.
Context `{SV : BSemver} `{PP : PackageProperty} `{MM : MMSemver} `{LA : LabelsAPI} `{CA : ConditionsAPI}.
Context {FS : Type}.

(** ** Spec and metadata *)

Definition unchanged (a b : ClusterExtension) : Prop :=
  m_Annotations (ext_Meta a) = m_Annotations (ext_Meta b) /\
  m_Labels (ext_Meta a) = m_Labels (ext_Meta b) /\ ext_Spec a = ext_Spec b.

Lemma unchanged_check a b : unchanged a b -> CheckForUnexpectedFieldChange a b = false.
Proof.
  intros (H1 & H2 & H3). unfold CheckForUnexpectedFieldChange.
  by rewrite !bool_decide_eq_true_2.
Qed.

Lemma unchanged_same a b c : unchanged a b -> same_object b c -> unchanged a c.
Proof. unfold unchanged, same_object. intros (? & ? & ?) [? ?]. repeat split; congruence. Qed.

Lemma unchanged_trans a b c : unchanged a b -> unchanged b c -> unchanged a c.
Proof. unfold unchanged. intros (? & ? & ?) (? & ? & ?). repeat split; congruence. Qed.

Lemma same_unknown m ext : same_object ext (setInstalledStatusConditionUnknown m ext).
Proof. apply same_set_ext. Qed.

Lemma same_report rs ext : same_object ext (report_revisions rs ext).2.
Proof.
  unfold report_revisions.
  destruct (Installed rs) as [i|];
    [destruct (mirror_conditions _ mirrored (rm_Conditions i) _) as [src dst]|];
    match goal with |- context [rolling_status ?r ?e] =>
      pose proof (same_rolling r e) as H; destruct (rolling_status r e); simpl in *;
      etransitivity; [|exact H] end; done.
Qed.

(** Reporting changes nothing of a revision but the generation its conditions
    were observed at. *)
Lemma report_installed rs ext :
  exists c, Installed (report_revisions rs ext).1 = with_rmConditions c <$> Installed rs.
Proof.
  unfold report_revisions. destruct (Installed rs) as [i|].
  - destruct (mirror_conditions _ mirrored (rm_Conditions i) _) as [src dst].
    destruct (rolling_status _ _). by exists src.
  - destruct (rolling_status _ _). by exists [].
Qed.

Lemma same_refresh (s : reconcileState FS) ok rs ext : same_object ext (refresh_deprecation s ok rs ext).
Proof. unfold refresh_deprecation. destruct ok, (Installed rs); auto with olm; reflexivity. Qed.

Hint Resolve same_unknown same_report same_refresh : olm.

(** ** Invariants of the extension

    A predicate on the extension that every status update of the steps
    preserves; the pipelines then preserve it. *)
Class StatusInvariant (I : ClusterExtension -> Prop) : Prop := {
  inv_progressing : forall err e, I e -> I (setStatusProgressing err e);
  inv_deprecation : forall n d h e, I e -> I (SetDeprecationStatus n d h e);
  inv_unknown : forall m e, I e -> I (setInstalledStatusConditionUnknown m e);
  inv_unknown_none : forall m e, I e -> I (setInstalledStatusConditionUnknown m (setInstallStatus None e));
  inv_installed : forall rs e, I e -> I (setInstalledStatusFromRevisionStates rs e);
  inv_ensure : forall r m e, I e -> I (ensureFailureConditionsWithReason r m e);
  inv_report : forall rs e, I e ->
    I (setInstalledStatusFromRevisionStates (report_revisions rs e).1 (report_revisions rs e).2);
  inv_rolling : forall m e, I e ->
    I (with_ExtConditions
         (set_cond (ext_Conditions e)
            (mkCond TypeProgressing ConditionTrue ReasonRollingOut m (ext_Generation e))) e);
}.

Lemma inv_refresh (I : ClusterExtension -> Prop) `{!StatusInvariant I} (s : reconcileState FS) ok rs e :
  I e -> I (refresh_deprecation s ok rs e).
Proof. intros H. unfold refresh_deprecation. destruct ok, (Installed rs); try done. by apply inv_deprecation. Qed.

#[export] Instance unchanged_invariant ext0 : StatusInvariant (unchanged ext0).
Proof.
  split; intros; (eapply unchanged_same; [eassumption|]); auto with olm; try done.
  etransitivity; [|apply same_installed]. apply same_report.
Qed.

#[export] Instance and_invariant I J `{!StatusInvariant I} `{!StatusInvariant J} :
  StatusInvariant (fun e => I e /\ J e).
Proof.
  split; intros; (match goal with H : _ /\ _ |- _ => destruct H end); split;
    first [by apply inv_progressing|by apply inv_deprecation|by apply inv_unknown|by apply inv_unknown_none
          |by apply inv_installed|by apply inv_ensure|by apply inv_report|by apply inv_rolling].
Qed.

(** Close [I (f (g ... ext))] from [I ext]. *)
Ltac solve_inv :=
  repeat first [assumption|apply inv_progressing|apply inv_deprecation|apply inv_unknown_none|apply inv_unknown
               |apply inv_ensure|apply inv_report|apply inv_installed|apply inv_rolling|apply inv_refresh].

(** ** The pipelines do not crash and keep the invariants *)

Section Pipelines.
Context (I : ClusterExtension -> Prop) `{HI : !StatusInvariant I}.
Context (finalizers : ClusterExtension -> ClusterExtension * finalizerResult * option error).
Context (resolver : ClusterExtension -> option BundleMetadata -> go ResolveOut).

(** What the reconciler relies on: the finalizers keep the invariant, and the
    resolver returns a bundle or an error. *)
Hypothesis finalizers_ok : forall ext, I ext -> I (finalizers ext).1.1.
Hypothesis resolver_ok : forall ext bm, I ext ->
  exists out, resolver ext bm = Ret out /\ (ro_err out = None -> ro_bundle out <> None).

(** The steps themselves never write the extension back. *)
Definition quiet_call (c : call FS) : Prop :=
  match c with CallStatusUpdate _ | CallPatchFinalizers _ => False | _ => True end.
Definition quiet (h : list (call FS)) : Prop := Forall quiet_call h.

Lemma quiet_snoc h c : quiet h -> quiet_call c -> quiet (h ++ [c]).
Proof. intros. apply Forall_app. split; [done|by constructor]. Qed.

Lemma quiet_validate h t : quiet h -> Forall is_validate t -> quiet (h ++ t).
Proof.
  intros Hh Ht. apply Forall_app. split; [done|]. eapply Forall_impl; [exact Ht|].
  by intros c [i ->].
Qed.

Lemma quiet_list h t : quiet h -> Forall is_list t -> quiet (h ++ t).
Proof.
  intros Hh Ht. apply Forall_app. split; [done|]. eapply Forall_impl; [exact Ht|].
  by intros c [i ->].
Qed.

Definition safe_exit (s : reconcileState FS) (ext : ClusterExtension) (h : list (call FS)) (o : outcome) : Prop :=
  I ext /\ quiet h /\ forall msg, o <> Crash msg.

Definition inv0 (s : reconcileState FS) (ext : ClusterExtension) (h : list (call FS)) : Prop :=
  I ext /\ quiet h.
Definition inv1 (s : reconcileState FS) (ext : ClusterExtension) (h : list (call FS)) : Prop :=
  I ext /\ quiet h /\ exists rs, revisionStates s = Some rs.
Definition inv2 (s : reconcileState FS) (ext : ClusterExtension) (h : list (call FS)) : Prop :=
  I ext /\ quiet h /\ exists rs rm, revisionStates s = Some rs /\ resolvedRevisionMetadata s = Some rm.

Ltac finish :=
  split; [solve_inv|split; [first [assumption|by apply quiet_snoc|by apply quiet_list|by apply quiet_validate]|done]].

Lemma finalizers_safe : hoare inv0 (HandleFinalizers finalizers) inv0 safe_exit.
Proof.
  apply finalizers_rule. intros s ext h [Hu Hq]. pose proof (finalizers_ok ext Hu) as Hf.
  destruct (finalizers ext) as [[ext' fr] err]. simpl in Hf.
  assert (Hq' : quiet (h ++ [CallFinalize])) by by apply quiet_snoc.
  unfold safe_exit, inv0. destruct err as [e|]; [finish|].
  destruct (Updated fr || StatusUpdated fr); [finish|]. destruct (m_DeletionTimestamp _); [finish|done].
Qed.

Lemma validate_safe vs : hoare inv0 (ValidateClusterExtension vs) inv0 safe_exit.
Proof.
  apply validate_rule. intros s ext h t [Hu Hq] Ht.
  split; [split; [done|by apply quiet_validate]|]. intros err. finish.
Qed.

Lemma migrate_safe m : hoare inv0 (MigrateStorage m) inv0 safe_exit.
Proof.
  apply migrate_rule. intros s ext h [Hu Hq]. split; [split; [done|by apply quiet_snoc]|].
  intros err. finish.
Qed.

Lemma retrieve_safe r : hoare inv0 (RetrieveRevisionStates r) inv1 safe_exit.
Proof.
  apply retrieve_rule. intros s ext h [Hu Hq].
  assert (Hq' : quiet (h ++ [CallGetRevisionStates])) by by apply quiet_snoc.
  destruct (r ext) as [e|rs]; [finish|].
  split; [done|]. split; [done|]. by exists rs.
Qed.

Lemma resolve_safe list : hoare inv1 (ResolveBundle resolver list) inv2 safe_exit.
Proof.
  apply resolve_rule. intros s ext h (Hu & Hq & rs & Hrs). exists rs. split; [done|]. unfold inv2, safe_exit.
  destruct (RollingOut rs) as [|first rest]; [|split; [solve_inv|split; [done|by exists rs, first]]].
  cbv zeta. set (h' := h ++ _). assert (Hq' : quiet h') by by apply quiet_snoc.
  destruct (resolver_ok ext (rm_Bundle <$> Installed rs) Hu) as (out & -> & Hout).
  destruct (ro_err out) as [err|].
  - intros t Ht. split.
    + intros i _. split; [solve_inv|]. split; [by apply quiet_list|by exists rs, i].
    + intros msg _. finish.
  - destruct (ro_bundle out) as [[b vr]|]; [|by destruct (Hout eq_refl)].
    split; [solve_inv|]. split; [done|]. by exists rs, (resolved_metadata b vr).
Qed.

Lemma unpack_safe pull : hoare inv2 (UnpackBundle pull) inv2 safe_exit.
Proof.
  apply unpack_rule. intros s ext h (Hu & Hq & rs & rm & Hrs & Hrm). exists rs, rm. split; [done|]. split; [done|].
  unfold inv2, safe_exit. cbv zeta. set (h' := h ++ _). assert (Hq' : quiet h') by by apply quiet_snoc.
  destruct (pull (ext_Name ext) (rm_Image rm)) as [e|fs]; [destruct (bundleUnchanged s rm)|].
  - split; [done|]. split; [done|]. by exists rs, rm.
  - finish.
  - split; [done|]. split; [done|]. by exists rs, rm.
Qed.

Lemma boxcutter_apply_safe apply : hoare inv2 (ApplyBundleWithBoxcutter apply) inv2 safe_exit.
Proof.
  apply boxcutter_apply_rule. intros s ext h (Hu & Hq & rs & rm & Hrs & Hrm). exists rs, rm.
  split; [done|]. split; [done|]. unfold inv2, safe_exit. cbv zeta.
  set (h' := h ++ _). assert (Hq' : quiet h') by by apply quiet_snoc.
  destruct (apply _ _ _ _).2 as [err|].
  - split; [destruct (is_terminal err); solve_inv|done].
  - split; [by apply inv_report|]. split; [done|]. by exists (report_revisions rs ext).1, rm.
Qed.

Lemma helm_apply_safe a : hoare inv2 (ApplyBundle a) inv2 safe_exit.
Proof.
  apply helm_apply_rule. intros s ext h (Hu & Hq & rs & rm & Hrs & Hrm). exists rs, rm.
  split; [done|]. split; [done|]. unfold inv2, safe_exit. cbv zeta.
  set (h' := h ++ _). assert (Hq' : quiet h') by by apply quiet_snoc.
  destruct (a _ _ _ _) as [[ok status] err].
  destruct err as [e|]; [finish|].
  destruct ok; (split; [solve_inv|]); (split; [done|]); by eexists _, rm.
Qed.

Lemma boxcutter_pipeline_safe saGet migrator getStates list pull apply :
  pipeline safe_exit inv0 (boxcutter_steps finalizers saGet migrator getStates resolver list pull apply).
Proof.
  do 3 (eapply pipeline_cons; [first [apply finalizers_safe|apply validate_safe|apply migrate_safe]|]).
  eapply pipeline_cons; [apply retrieve_safe|]. eapply pipeline_cons; [apply resolve_safe|].
  eapply pipeline_cons; [apply unpack_safe|]. eapply pipeline_cons; [apply boxcutter_apply_safe|].
  apply pipeline_nil. intros s ext h (Hu & Hq & _). by repeat split.
Qed.

Lemma helm_pipeline_safe saGet getStates list pull apply :
  pipeline safe_exit inv0 (helm_steps finalizers saGet getStates resolver list pull apply).
Proof.
  do 2 (eapply pipeline_cons; [first [apply finalizers_safe|apply validate_safe]|]).
  eapply pipeline_cons; [apply retrieve_safe|]. eapply pipeline_cons; [apply resolve_safe|].
  eapply pipeline_cons; [apply unpack_safe|]. eapply pipeline_cons; [apply helm_apply_safe|].
  apply pipeline_nil. intros s ext h (Hu & Hq & _). by repeat split.
Qed.

(** Both pipelines, run on an extension that satisfies the invariant. *)
Lemma pipelines_safe saGet migrator getStates list pull apply steps ext :
  steps = boxcutter_steps finalizers saGet migrator getStates resolver list pull apply \/
  steps = helm_steps finalizers saGet getStates resolver list pull apply ->
  I ext ->
  let '((_, ext', o), h') := run_steps steps state_init ext [CallGet] in
  I ext' /\ quiet h' /\ forall msg, o <> Crash msg.
Proof.
  intros Hsteps Hi.
  assert (Hp : pipeline safe_exit inv0 steps).
  { destruct Hsteps as [-> | ->]; [apply boxcutter_pipeline_safe|apply helm_pipeline_safe]. }
  assert (H0 : inv0 state_init ext [CallGet]) by (split; [done|by repeat constructor]).
  pose proof (pipeline_sound _ _ _ _ _ _ Hp H0) as H.
  by destruct (run_steps _ _ _ _) as [[[s' ext'] o] h'].
Qed.

End Pipelines.

(** What Reconcile writes and returns when the steps are safe. *)
Lemma Reconcile_run (c : ExtClient) steps existing :
  client_Get c = inr existing ->
  (let '((_, ext', o), h') := run_steps (FS := FS) steps state_init existing [CallGet] in
   unchanged existing ext' /\ quiet h' /\ forall msg, o <> Crash msg) ->
  exists res err w, Reconcile c steps [] = (Ret (res, err), w) /\
  forall st, CallStatusUpdate st ∈ w -> st = ext_Status (run_steps steps state_init existing [CallGet]).1.1.2.
Proof.
  intros Hg H. unfold Reconcile, ReconcileSteps_Reconcile. unfold io_bind at 1. unfold tell at 1.
  simpl ([] ++ _). rewrite Hg. unfold io_bind at 1.
  destruct (run_steps _ _ _ _) as [[[s' ext'] o] h'].
  destruct H as (Hu & Hq & Ho). rewrite (unchanged_check _ _ Hu). cbn [fst snd].
  assert (Hn : forall st, CallStatusUpdate st ∉ h').
  { intros st Hin. unfold quiet in Hq. rewrite Forall_forall in Hq. by apply Hq in Hin. }
  assert (Hc : match o with Crash _ => False | _ => True end) by (destruct o; eauto; by eapply Ho).
  destruct o; try done; unfold io_bind, tell, io_ret;
    destruct (negb (bool_decide (ext_Status existing = ext_Status ext')));
    destruct (negb (bool_decide (m_Finalizers (ext_Meta existing) = m_Finalizers (ext_Meta ext'))));
    cbn -[errors_Join join_err];
    (eexists _, _, _; split; [reflexivity|]); intros st; rewrite ?elem_of_app, ?list_elem_of_singleton;
    intros Hin; repeat match type of Hin with _ \/ _ => destruct Hin as [Hin|Hin] end;
    first [by destruct (Hn _ Hin)|discriminate|by inversion Hin].
Qed.

(** The repository's resolver on an extension with a catalog source. *)
Lemma catalog_resolver_ok (cr : CatalogResolver) ext0 ext bm :
  src_Catalog (es_Source (ext_Spec ext0)) <> None -> unchanged ext0 ext ->
  exists out, as_resolver (Resolve cr ext bm) = Ret out /\ (ro_err out = None -> ro_bundle out <> None).
Proof.
  intros Hc (_ & _ & Hs). rewrite Hs in Hc. unfold Resolve.
  destruct (src_Catalog (es_Source (ext_Spec ext))) as [filter|]; [|done].
  match goal with |- context [as_resolver (Ret ?r)] => destruct r as [e|[[b vr] d]] end; simpl;
    eexists; (split; [reflexivity|done]).
Qed.

(** A reconciliation of an extension that names a catalog source never
    panics, in the Boxcutter and in the Helm configuration alike: no step
    dereferences a nil pointer, and no step changes the spec, the labels or the
    annotations, which Reconcile would answer with a panic. *)
Theorem Reconcile_never_panics c cr finalizers saGet migrator getStates list pull (apply : Applier) steps existing :
  client_Get c = inr existing -> src_Catalog (es_Source (ext_Spec existing)) <> None ->
  (forall ext, unchanged ext (finalizers ext).1.1) ->
  let resolver := fun ext bm => as_resolver (Resolve cr ext bm) in
  steps = boxcutter_steps finalizers saGet migrator getStates resolver list pull apply \/
  steps = helm_steps finalizers saGet getStates resolver list pull apply ->
  exists res err, (Reconcile (FS := FS) c steps []).1 = Ret (res, err).
Proof.
  intros Hg Hsrc Hf resolver Hsteps.
  destruct (Reconcile_run c steps existing Hg) as (res & err & w & -> & _); [|by exists res, err].
  eapply (pipelines_safe (unchanged existing)); [| |exact Hsteps|done].
  - intros ext Hu. by eapply unchanged_trans.
  - intros ext bm. by apply catalog_resolver_ok.
Qed.

(** Once an extension is marked for deletion a reconciliation runs the
    finalizers and nothing else: no validation, migration, resolution, pull or
    apply, in any pipeline that starts with the finalizer step. *)
Theorem deleted_extension_only_finalized f (rest : list (ReconcileStepFunc (FS := FS))) s ext h ts :
  m_DeletionTimestamp (ext_Meta ext) = Some ts ->
  (forall e, m_DeletionTimestamp (ext_Meta (f e).1.1) = m_DeletionTimestamp (ext_Meta e)) ->
  (run_steps (HandleFinalizers f :: rest) s ext h).2 = h ++ [CallFinalize].
Proof.
  intros Hd Hf. specialize (Hf ext). simpl. unfold io_bind, HandleFinalizers, io_bind, tell.
  destruct (f ext) as [[ext' fr] err]. simpl in Hf. rewrite Hd in Hf.
  destruct err as [e|]; [done|]. destruct (Updated fr || StatusUpdated fr); [done|]. by rewrite Hf.
Qed.

(** C37. When resolution fails, the reconciliation goes on with the installed
    bundle exactly when there is one, the spec asks for no other version, and
    no catalog matches any more; in every other case it fails with the
    resolution error, to be retried. *)
Theorem resolution_failure_decision list rs (s : reconcileState FS) ext err h :
  let out := (handleResolutionError list rs s ext err h).1 in
  (out.2 = Continue <-> exists installed, may_fall_back list ext rs installed) /\
  (out.2 <> Continue -> out.2 = Fail err) /\
  (forall installed, may_fall_back list ext rs installed ->
     resolvedRevisionMetadata out.1.1 = Some installed /\
     cond_of out.1.2 TypeInstalled = Some (installed_condition rs (ext_Generation ext))).
Proof.
  destruct (handleResolutionError_run list rs s ext err h)
    as (t & _ & [(i & Hi & Hrun)|(Hno & msg & Hrun)]); rewrite Hrun; simpl.
  - split; [split; [by exists i|done]|]. split; [done|]. intros i' Hi'.
    destruct Hi as [Hi _], Hi' as [Hi' _]. split; [congruence|]. by rewrite cond_installed.
  - split; [|split; [done|]].
    + split; [discriminate|]. intros [i Hi]. by destruct (Hno i).
    + intros i Hi. by destruct (Hno i).
Qed.

(** ** The install status *)

(** An Installed condition that is True comes with the bundle recorded in
    the install status. *)
Definition installed_recorded (e : ClusterExtension) : Prop :=
  IsStatusConditionTrue (ext_Conditions e) TypeInstalled = true -> st_Install (ext_Status e) <> None.

Lemma recorded_frame e e' :
  installed_recorded e -> cond_of e' TypeInstalled = cond_of e TypeInstalled ->
  st_Install (ext_Status e') = st_Install (ext_Status e) -> installed_recorded e'.
Proof.
  unfold installed_recorded, IsStatusConditionTrue. fold (cond_of e TypeInstalled) (cond_of e' TypeInstalled).
  by intros H -> ->.
Qed.

Lemma recorded_not_true e c :
  cond_of e TypeInstalled = Some c -> c_Status c <> ConditionTrue -> installed_recorded e.
Proof.
  unfold installed_recorded, IsStatusConditionTrue. fold (cond_of e TypeInstalled). intros -> Hc.
  by rewrite bool_decide_eq_false_2.
Qed.

Lemma recorded_installed rs e : installed_recorded (setInstalledStatusFromRevisionStates rs e).
Proof.
  destruct (Installed rs) as [i|] eqn:E.
  - intros _. by rewrite install_of, E.
  - eapply recorded_not_true; [rewrite cond_installed; reflexivity|].
    unfold installed_condition. by rewrite E.
Qed.

Lemma install_set_deprecated t ms n e :
  st_Install (ext_Status (set_deprecated t ms n e)) = st_Install (ext_Status e).
Proof. by destruct ms. Qed.

Lemma install_deprecation n d h e :
  st_Install (ext_Status (SetDeprecationStatus n d h e)) = st_Install (ext_Status e).
Proof.
  unfold SetDeprecationStatus. destruct h; cbn [negb]; [|by case_bool_decide].
  case_bool_decide; cbn -[set_deprecated]; by rewrite !install_set_deprecated.
Qed.

Lemma install_ensure r m e :
  st_Install (ext_Status (ensureFailureConditionsWithReason r m e)) = st_Install (ext_Status e).
Proof.
  unfold ensureFailureConditionsWithReason. generalize ConditionTypes. intros ts. revert e.
  induction ts as [|t ts IH]; intros e; simpl; [done|]. rewrite IH. unfold ensure_condition.
  destruct (isDeprecationCondition t); [done|]. by destruct (FindStatusCondition _ _).
Qed.

Lemma install_progressing err e :
  st_Install (ext_Status (setStatusProgressing err e)) = st_Install (ext_Status e).
Proof. unfold setStatusProgressing. destruct err as [x|]; [|done]. by destruct (is_terminal x). Qed.

#[export] Instance installed_recorded_invariant : StatusInvariant installed_recorded.
Proof.
  split.
  - intros err e H. apply (recorded_frame e); [done|by apply cond_progressing_ne|apply install_progressing].
  - intros n d h e H. apply (recorded_frame e); [done| |apply install_deprecation].
    by rewrite cond_deprecation.
  - intros m e _. eapply recorded_not_true; [unfold setInstalledStatusConditionUnknown; by rewrite cond_set_ext|done].
  - intros m e _. eapply recorded_not_true; [unfold setInstalledStatusConditionUnknown; by rewrite cond_set_ext|done].
  - intros. apply recorded_installed.
  - intros r m e H. unfold ensureFailureConditionsWithReason.
    destruct (cond_of e TypeInstalled) as [c|] eqn:Ec.
    + apply (recorded_frame e); [done| |apply install_ensure]. rewrite ensure_fold_find. by rewrite Ec.
    + eapply recorded_not_true; [rewrite ensure_fold_find, Ec; reflexivity|done].
  - intros. apply recorded_installed.
  - intros m e H. apply (recorded_frame e); [done| |done].
    unfold cond_of, ext_Conditions, with_ExtConditions. cbn [ext_Status st_Conditions].
    by rewrite find_set_cond, decide_False.
Qed.

(** C10. The status never claims an installed bundle without naming it: if the
    extension read from the cluster and the finalizers respect it, every
    status a reconciliation writes has the bundle recorded whenever its
    Installed condition is True. *)
Theorem Reconcile_records_installed c cr finalizers saGet migrator getStates list pull (apply : Applier)
    steps existing :
  client_Get c = inr existing -> src_Catalog (es_Source (ext_Spec existing)) <> None ->
  (forall ext, unchanged ext (finalizers ext).1.1) ->
  (forall ext, installed_recorded ext -> installed_recorded (finalizers ext).1.1) ->
  installed_recorded existing ->
  let resolver := fun ext bm => as_resolver (Resolve cr ext bm) in
  steps = boxcutter_steps finalizers saGet migrator getStates resolver list pull apply \/
  steps = helm_steps finalizers saGet getStates resolver list pull apply ->
  forall st, CallStatusUpdate st ∈ (Reconcile (FS := FS) c steps []).2 ->
    IsStatusConditionTrue (st_Conditions st) TypeInstalled = true -> st_Install st <> None.
Proof.
  intros Hg Hsrc Hf Hfr He resolver Hsteps st Hst.
  pose proof (pipelines_safe (fun e => unchanged existing e /\ installed_recorded e) finalizers resolver
                (fun ext '(conj Hu Hr) => conj (unchanged_trans _ _ _ Hu (Hf ext)) (Hfr ext Hr))
                (fun ext bm '(conj Hu _) => catalog_resolver_ok cr existing ext bm Hsrc Hu)
                _ _ _ _ _ _ _ existing Hsteps (conj (conj eq_refl (conj eq_refl eq_refl)) He)) as Hp.
  destruct (Reconcile_run c steps existing Hg) as (res & err & w & Hrun & Hw).
  { destruct (run_steps _ _ _ _) as [[[s' ext'] o] h']. by destruct Hp as ([? _] & ? & ?). }
  rewrite Hrun in Hst. apply Hw in Hst as ->.
  destruct (run_steps _ _ _ _) as [[[s' ext'] o] h']. by destruct Hp as ([_ Hr] & _).
Qed.

(** ** Losing the catalogs *)

Lemma run_cons (step : ReconcileStepFunc (FS := FS)) rest s ext h s' ext' h' :
  step s ext h = ((s', ext', Continue), h') ->
  run_steps (step :: rest) s ext h = run_steps rest s' ext' h'.
Proof. intros H. simpl. unfold io_bind. by rewrite H. Qed.

Lemma no_catalogs_spec list a b : ext_Spec a = ext_Spec b -> no_catalogs list a -> no_catalogs list b.
Proof. unfold no_catalogs. by intros ->. Qed.

(** The apply step, as the last of a pipeline, for the installed bundle. *)
Lemma apply_installed_last (apply : Applier (FS := FS)) s ext i h :
  resolvedRevisionMetadata s = Some i -> revisionStates s = Some (mkRS (Some i) []) -> imageFS s = None ->
  let '((_, ext', o), w) := run_steps [ApplyBundleWithBoxcutter apply] s ext h in
  last w = Some (CallApply None (object_labels ext) (revision_annotations i)) /\
  ((forall e, (apply None e (object_labels ext) (revision_annotations i)).2 = None) ->
   o = Stop emptyResult /\ st_Install (ext_Status ext') = Some (rm_Bundle i) /\
   IsStatusConditionTrue (ext_Conditions ext') TypeInstalled = true).
Proof.
  intros Hres Hrs Hfs. cbn [run_steps]. unfold io_bind at 1. unfold ApplyBundleWithBoxcutter at 1.
  rewrite Hres, Hrs, Hfs. unfold io_bind, tell.
  destruct (apply None ext (object_labels ext) (revision_annotations i)) as [[ok st] [aerr|]] eqn:Ea; cbn [snd].
  - destruct (is_terminal aerr); cbn; (split; [by rewrite last_snoc|]);
      intros Hok; pose proof (Hok ext : (apply None ext (object_labels ext) (revision_annotations i)).2 = None) as H;
      by rewrite Ea in H.
  - destruct (report_revisions _ ext) as [rs' e4] eqn:Er. cbn. split; [by rewrite last_snoc|].
    intros _. split; [done|].
    destruct (report_installed (mkRS (Some i) []) ext) as [c Hi4]. rewrite Er in Hi4. cbn in Hi4.
    split; [by rewrite install_of, Hi4|].
    unfold IsStatusConditionTrue.
    match goal with |- context [FindStatusCondition (ext_Conditions ?e) ?t] => fold (cond_of e t) end.
    rewrite cond_installed. unfold installed_condition. by rewrite Hi4.
Qed.

(** C9. A workload outlives its catalogs: with a bundle installed, no version
    change requested, no matching catalog left and the bundle image no longer
    available, a Boxcutter reconciliation still reaches the apply step, for
    the installed bundle and without content, and reports it installed. *)
Theorem catalog_loss_keeps_workload
    finalizers saGet migrator getStates resolver list pull (apply : Applier) ext i out err perr :
  finalizers ext = (ext, mkFinResult false false, None) -> m_DeletionTimestamp (ext_Meta ext) = None ->
  saGet (es_Namespace (ext_Spec ext)) (es_ServiceAccount (ext_Spec ext)) = None ->
  migrator ext (object_labels ext) = None -> getStates ext = inr (mkRS (Some i) []) ->
  resolver ext (Some (rm_Bundle i)) = Ret out -> ro_err out = Some err ->
  (spec_version ext = EmptyString \/ spec_version ext = bm_Version (rm_Bundle i)) ->
  no_catalogs list ext -> pull (ext_Name ext) (rm_Image i) = inl perr ->
  let '((_, ext', o), w) := run_steps (FS := FS)
     (boxcutter_steps finalizers saGet migrator getStates resolver list pull apply) state_init ext [] in
  last w = Some (CallApply None (object_labels ext) (revision_annotations i)) /\
  ((forall e, (apply None e (object_labels ext) (revision_annotations i)).2 = None) ->
   o = Stop emptyResult /\ st_Install (ext_Status ext') = Some (rm_Bundle i) /\
   IsStatusConditionTrue (ext_Conditions ext') TypeInstalled = true).
Proof.
  intros Hf Hd Hsa Hm Hg Hr Herr Hv Hc Hp. unfold boxcutter_steps.
  erewrite run_cons; [|unfold HandleFinalizers, io_bind, tell; by rewrite Hf, Hd].
  erewrite run_cons; [|unfold ValidateClusterExtension, run_validators, ServiceAccountValidator, io_bind, tell;
                       by rewrite Hsa].
  erewrite run_cons; [|unfold MigrateStorage, io_bind, tell; by rewrite Hm].
  erewrite run_cons; [|unfold RetrieveRevisionStates, io_bind, tell; by rewrite Hg].
  set (h := _ ++ [CallGetRevisionStates]). clearbody h.
  set (s1 := with_revisionStates _ state_init).
  set (s2 := with_deprecation (ro_deprecation out) (has_data out) s1).
  set (e2 := SetDeprecationStatus (bm_Name (rm_Bundle i)) (ro_deprecation out) (has_data out) ext).
  assert (He2 : ext_Meta e2 = ext_Meta ext /\ ext_Spec e2 = ext_Spec ext).
  { destruct (same_deprecation (bm_Name (rm_Bundle i)) (ro_deprecation out) (has_data out) ext). done. }
  destruct He2 as [Hmeta Hspec].
  assert (Hfb : may_fall_back list e2 (mkRS (Some i) []) i).
  { split; [done|]. unfold spec_version in *. rewrite Hspec. split; [done|].
    by apply (no_catalogs_spec list ext). }
  destruct (handleResolutionError_run list (mkRS (Some i) []) s2 e2 err (h ++ [CallResolve (Some (rm_Bundle i))]))
    as (t & _ & [(i' & Hi' & Hrun)|(Hno & _)]); [|by destruct (Hno i)].
  assert (i' = i) as -> by (destruct Hi' as [[= ->] _]; done).
  erewrite run_cons.
  2:{ unfold ResolveBundle, s1. cbn [with_revisionStates revisionStates RollingOut Installed fmap option_fmap option_map].
      unfold io_bind, tell. rewrite Hr, Herr. exact Hrun. }
  set (e3 := setInstalledStatusFromRevisionStates _ e2).
  assert (Hn : ext_Name e3 = ext_Name ext) by (unfold ext_Name; by rewrite <- Hmeta).
  assert (Hol : object_labels e3 = object_labels ext) by (unfold object_labels; by rewrite Hn).
  erewrite run_cons.
  2:{ unfold UnpackBundle, io_bind, tell. cbn [with_resolved resolvedRevisionMetadata]. rewrite Hn, Hp.
      unfold bundleUnchanged. cbn [revisionStates s2 s1 with_deprecation with_revisionStates Installed with_resolved].
      by rewrite !(bool_decide_eq_true_2 _ eq_refl). }
  rewrite <- Hol. apply (apply_installed_last apply _ e3 i); by cbn.
Qed.

End Reconciliation.

(** ** Sample inputs *)

Definition the_ext : ClusterExtension := sample_ext (sample_filter "" []).
Definition the_bundle : RevisionMetadata := mkRM "ext-1" "pkg" "img" (mkBM "pkg.v1.0.0" "1.0.0") [].
Definition no_finalizers (e : ClusterExtension) : ClusterExtension * finalizerResult * option error :=
  (e, mkFinResult false false, None).
Definition the_client : ExtClient := mkExtClient (inr the_ext) (fun _ => None) (fun _ => None).
Definition empty_resolver : CatalogResolver := mkResolver (CatalogWalker (fun _ => inr []) (fun _ _ => (None, None))) [].
Definition the_resolver (ext : ClusterExtension) (bm : option BundleMetadata) : go ResolveOut :=
  as_resolver (Resolve empty_resolver ext bm).
Definition the_apply : Applier (FS := unit) := fun _ _ _ _ => (true, "", None).
Definition the_states (_ : ClusterExtension) : result RevisionStates := inr (mkRS (Some the_bundle) []).
Definition no_image (_ _ : string) : result unit := inl (ENew "manifest unknown").

Definition the_steps : list (ReconcileStepFunc (FS := unit)) :=
  boxcutter_steps no_finalizers (fun _ _ => None) (fun _ _ => None) the_states the_resolver (fun _ => inr [])
    no_image the_apply.

Lemma Reconcile_never_panics_witness :
  exists res err, (Reconcile the_client the_steps []).1 = Ret (res, err).
Proof.
  apply (Reconcile_never_panics the_client empty_resolver no_finalizers (fun _ _ => None) (fun _ _ => None)
           the_states (fun _ => inr []) no_image the_apply the_steps the_ext).
  - reflexivity.
  - discriminate.
  - intros ext. repeat split.
  - left. reflexivity.
Defined.

Definition deleted_ext : ClusterExtension :=
  mkExt (mkMeta "ext" "" "uid" 1 ∅ ∅ [] [] 0 (Some 5)) (ext_Spec the_ext) (ext_Status the_ext).

Lemma deleted_extension_only_finalized_witness :
  (run_steps the_steps state_init deleted_ext []).2 = [CallFinalize].
Proof.
  apply (deleted_extension_only_finalized no_finalizers (tail the_steps) state_init deleted_ext [] 5).
  - reflexivity.
  - intros e. reflexivity.
Defined.

(** The status the sample reconciliation writes, with its last call. *)
Definition the_status : ClusterExtensionStatus :=
  match last (Reconcile the_client the_steps []).2 with
  | Some (CallStatusUpdate st) => st
  | _ => ext_Status the_ext
  end.

Lemma the_status_written :
  last (Reconcile the_client the_steps []).2 = Some (CallStatusUpdate the_status) /\
  IsStatusConditionTrue (st_Conditions the_status) TypeInstalled = true.
Proof. split; vm_compute; reflexivity. Qed.

Lemma Reconcile_records_installed_witness :
  IsStatusConditionTrue (st_Conditions the_status) TypeInstalled = true /\ st_Install the_status <> None.
Proof.
  split; [apply the_status_written|].
  apply (Reconcile_records_installed the_client empty_resolver no_finalizers (fun _ _ => None) (fun _ _ => None)
           the_states (fun _ => inr []) no_image the_apply the_steps the_ext).
  - reflexivity.
  - discriminate.
  - intros ext. repeat split.
  - intros ext H. exact H.
  - discriminate.
  - left. reflexivity.
  - apply last_elem_of, the_status_written.
  - apply the_status_written.
Defined.

Lemma catalog_loss_keeps_workload_witness :
  let '((_, ext', o), w) := run_steps the_steps state_init the_ext [] in
  last w = Some (CallApply None (object_labels the_ext) (revision_annotations the_bundle)) /\
  ((forall e, (the_apply None e (object_labels the_ext) (revision_annotations the_bundle)).2 = None) ->
   o = Stop emptyResult /\ st_Install (ext_Status ext') = Some (rm_Bundle the_bundle) /\
   IsStatusConditionTrue (ext_Conditions ext') TypeInstalled = true).
Proof.
  eapply (catalog_loss_keeps_workload no_finalizers (fun _ _ => None) (fun _ _ => None) the_states the_resolver
           (fun _ => inr []) no_image the_apply the_ext the_bundle).
  - reflexivity.
  - reflexivity.
  - reflexivity.
  - reflexivity.
  - reflexivity.
  - reflexivity.
  - reflexivity.
  - left. reflexivity.
  - exists None. split; [reflexivity|]. left. reflexivity.
  - reflexivity.
Defined.
