(* ===== verification/StatusProps.v ===== *)
(** * Properties of what the controller reports

    The conditions of a ClusterExtension after the setters of
    common_controller.go and clusterextension_controller.go, and the revision
    states the Boxcutter steps read from the cluster. *)

From S2P Require Import Prelude GoErrors VersionRelease ApiTypes Filter Resolve.
From S2P Require Import Sanitize ExtStatus ExtSteps ExtLogic Instances.

Section Reporting.
Context `{SV : BSemver} `{LA : LabelsAPI} `{CA : ConditionsAPI} {FS : Type}.

(** ** Failures *)

(** When ResolveBundle fails, the status is complete: every condition
    type of the API is present, and Progressing carries the verdict on the
    error (True/Retrying, or False with the terminal reason). *)
Theorem resolve_failure_reported r list (s : reconcileState FS) rs ext h s' ext' e h' :
  revisionStates s = Some rs ->
  ResolveBundle r list s ext h = ((s', ext', Fail e), h') ->
  (forall t, t ∈ ConditionTypes -> is_Some (cond_of ext' t)) /\
  exists msg, cond_of ext' TypeProgressing =
    Some (mkCond TypeProgressing (progressing_status e) (progressing_reason e) msg (ext_Generation ext)).
Proof.
  intros Hrs Hrun.
  assert (H : hoare (FS := FS) (fun s1 e1 h1 => revisionStates s1 = Some rs /\ e1 = ext) (ResolveBundle r list)
    (fun _ _ _ => True)
    (fun _ e1 _ o => forall err, o = Fail err ->
       (forall t, t ∈ ConditionTypes -> is_Some (cond_of e1 t)) /\
       exists msg, cond_of e1 TypeProgressing =
         Some (mkCond TypeProgressing (progressing_status err) (progressing_reason err) msg (ext_Generation ext)))).
  { apply resolve_rule. intros s1 e1 h1 [Hs ->]. exists rs. split; [done|].
    destruct (RollingOut rs); [|done]. cbv zeta. destruct (r ext _) as [out|]; [|done].
    destruct (ro_err out) as [err|]; [|by destruct (ro_bundle out) as [[? ?]|]].
    intros t _. split; [done|]. intros msg _ err' [= <-].
    set (d := SetDeprecationStatus _ _ _ ext).
    assert (Hg : ext_Generation d = ext_Generation ext).
    { unfold ext_Generation, d.
      by destruct (same_deprecation (installed_name rs) (ro_deprecation out) (has_data out) ext) as [<- _]. }
    split.
    - intros u Hu. unfold ensureFailureConditionsWithReason. rewrite ensure_fold_find.
      destruct (cond_of _ u) as [c|] eqn:Ec; [by eexists|].
      destruct (isDeprecationCondition u) eqn:Ed; [|rewrite decide_True by done; by eexists].
      exfalso. rewrite cond_installed in Ec. case_decide as E; [done|].
      rewrite cond_progressing_ne in Ec by (by intros ->).
      unfold d in Ec. rewrite cond_deprecation in Ec.
      apply (deprecation_condition_types ext (installed_name rs) (ro_deprecation out) (has_data out)) in Ed as [c Hc].
      by rewrite Hc in Ec.
    - unfold ensureFailureConditionsWithReason. rewrite ensure_fold_find, cond_installed.
      rewrite decide_False by done. rewrite cond_progressing_err, Hg. by eexists. }
  specialize (H s ext h (conj Hrs eq_refl)). rewrite Hrun in H. by apply H.
Qed.

(** Adding the resolved bundle to an error changes its text but not the
    verdict on it: the Progressing condition has the same status and the same
    reason as for the bare error, terminal or not.  (The reason could only
    differ for an errors.Join of reasoned errors, which ExtractTerminalReason
    does not look into unless it is wrapped.) *)
Theorem resolution_info_keeps_verdict bm err :
  (errors_Unwrap err = None -> as_reason err = None) ->
  progressing_status (wrapErrorWithResolutionInfo bm err) = progressing_status err /\
  progressing_reason (wrapErrorWithResolutionInfo bm err) = progressing_reason err.
Proof.
  intros Hj. unfold progressing_status, progressing_reason, wrapErrorWithResolutionInfo.
  destruct (is_terminal err) eqn:Et.
  - destruct (ExtractTerminalReason (Some err)) as [reason|] eqn:Er; [done|].
    split; [done|]. cbn [is_terminal]. cbn [ExtractTerminalReason errors_Unwrap].
    assert (Hn : as_reason (EWrap
       ("error for resolved bundle " +:+ fmt_q (bm_Name bm) +:+ " with version " +:+ fmt_q (bm_Version bm) +:+ ": ")
       (match UnwrapTerminal (Some err) with Some e => e | None => err end) "") = None); [|by rewrite Hn].
    simpl. rewrite Et. simpl in Er. destruct (errors_Unwrap err) as [u|] eqn:Eu; [done|].
    by apply Hj.
  - simpl. by rewrite Et.
Qed.

(** No condition set through the controller's helper can exceed the API's
    limit, and a message that is cut keeps its beginning and says so. *)
Theorem SetStatusCondition_bounded cs c :
  exists m, FindStatusCondition (SetStatusCondition cs c) (c_Type c) = Some (with_Message m c) /\
    slen m <= maxConditionMessageLength /\
    (slen (c_Message c) <= maxConditionMessageLength -> m = c_Message c) /\
    (maxConditionMessageLength < slen (c_Message c) ->
     exists kept dropped, c_Message c = kept +:+ dropped /\ m = kept +:+ truncationSuffix /\
                          slen m = maxConditionMessageLength).
Proof.
  exists (truncateMessage (c_Message c)). split.
  { unfold SetStatusCondition. rewrite find_set_cond. by rewrite decide_True. }
  split; [apply truncate_bound|]. split; [apply truncate_short|].
  intros H. unfold truncateMessage. destruct (Z.leb_spec (slen (c_Message c)) maxConditionMessageLength); [lia|].
  destruct (str_take_prefix (Z.to_nat (maxConditionMessageLength - slen truncationSuffix)) (c_Message c)) as [t Ht].
  exists (str_take (Z.to_nat (maxConditionMessageLength - slen truncationSuffix)) (c_Message c)), t.
  split; [done|]. split; [done|]. rewrite slen_app. unfold slen in *. rewrite str_take_length.
  change (Z.of_nat (String.length truncationSuffix)) with 25. unfold maxConditionMessageLength in *. lia.
Qed.

(** ** Deprecation *)

Definition entry_of (schema : string) (e : DeprecationEntry) : bool :=
  bool_decide (ref_Schema (de_Reference e) = schema).

Definition spec_channels (ext : ClusterExtension) : list string :=
  match src_Catalog (es_Source (ext_Spec ext)) with Some c => cf_Channels c | None => [] end.

Definition channel_relevant (channels : list string) (e : DeprecationEntry) : bool :=
  entry_of SchemaChannel e && (bool_decide (channels = []) || bool_decide (ref_Name (de_Reference e) ∈ channels)).

Definition bundle_relevant (name : string) (e : DeprecationEntry) : bool :=
  entry_of SchemaBundle e && (negb (bool_decide (name = EmptyString)) && bool_decide (ref_Name (de_Reference e) = name)).

Definition dep_entries (d : option Deprecation) : list DeprecationEntry :=
  match d with Some d => d_Entries d | None => [] end.

(** The loop sorts the entries into the three groups. *)
Lemma build_entries ext name dep :
  let info := buildDeprecationInfo ext name dep in
  PackageEntries info = Filter (dep_entries dep) (entry_of SchemaPackage) /\
  ChannelEntries info = Filter (dep_entries dep) (channel_relevant (spec_channels ext)) /\
  BundleEntries info = Filter (dep_entries dep) (bundle_relevant name).
Proof.
  assert (Hfold : forall l i, let info := fold_left (classify_entry (spec_channels ext) name) l i in
    PackageEntries info = PackageEntries i ++ Filter l (entry_of SchemaPackage) /\
    ChannelEntries info = ChannelEntries i ++ Filter l (channel_relevant (spec_channels ext)) /\
    BundleEntries info = BundleEntries i ++ Filter l (bundle_relevant name)).
  { induction l as [|e l IH]; intros i; cbn [fold_left Filter]; [by rewrite !app_nil_r|].
    destruct (IH (classify_entry (spec_channels ext) name i e)) as (-> & -> & ->).
    unfold classify_entry, channel_relevant, bundle_relevant, entry_of.
    destruct (decide (ref_Schema (de_Reference e) = SchemaPackage)) as [Ep|Ep];
      [rewrite (bool_decide_eq_true_2 _ Ep), !Ep; simpl; by rewrite <- app_assoc|
       rewrite (bool_decide_eq_false_2 _ Ep)].
    destruct (decide (ref_Schema (de_Reference e) = SchemaChannel)) as [Ec|Ec];
      [rewrite (bool_decide_eq_true_2 _ Ec), !Ec; simpl|rewrite (bool_decide_eq_false_2 _ Ec)].
    - destruct (_ || _); simpl; by rewrite <- ?app_assoc.
    - destruct (decide (ref_Schema (de_Reference e) = SchemaBundle)) as [Eb|Eb];
        [rewrite (bool_decide_eq_true_2 _ Eb)|by rewrite (bool_decide_eq_false_2 _ Eb)].
      simpl. destruct (negb _ && _); simpl; by rewrite <- ?app_assoc. }
  unfold buildDeprecationInfo, spec_channels in *. cbv zeta.
  destruct dep as [d|]; simpl; [destruct (Hfold (d_Entries d) (mkDepInfo [] [] [] ConditionUnknown)) as (H1 & H2 & H3)|];
    case_bool_decide; done.
Qed.

(** Some selected entry has a text to report. *)
Definition reported (dep : option Deprecation) (sel : DeprecationEntry -> bool) : Prop :=
  exists e, e ∈ dep_entries dep /\ sel e = true /\ de_Message e <> EmptyString.

Lemma messages_reported dep sel :
  collectDeprecationMessages (Filter (dep_entries dep) sel) <> [] <-> reported dep sel.
Proof.
  unfold reported. induction (dep_entries dep) as [|e l IH]; simpl.
  { split; [done|]. intros (e & He & _). by apply not_elem_of_nil in He. }
  setoid_rewrite elem_of_cons. destruct (sel e) eqn:Es; simpl; [case_bool_decide as Em; simpl|].
  - rewrite IH. split; [intros (x & ? & ?); exists x; tauto|]. intros (x & [->|Hx] & ? & ?); [done|eauto].
  - split; [|done]. intros _. exists e. auto.
  - rewrite IH. split; [intros (x & ? & ?); exists x; tauto|]. intros (x & [->|Hx] & ? & ?); [congruence|eauto].
Qed.

Definition has_status (ext : ClusterExtension) (t : string) (st : ConditionStatus) : Prop :=
  exists c, cond_of ext t = Some c /\ c_Status c = st.

(** The deprecation conditions report what the catalog says, and nothing
    else changes: with catalog data, PackageDeprecated is True exactly when the
    package is deprecated with a message, ChannelDeprecated when one of the
    spec's channels (any, if it names none) is, BundleDeprecated when the
    installed bundle is, Deprecated when one of these is, each being False
    otherwise; without catalog data all four are Unknown; and BundleDeprecated
    is Unknown while nothing is installed. *)
Theorem SetDeprecationStatus_spec name dep has ext :
  let ext' := SetDeprecationStatus name dep has ext in
  (forall t, isDeprecationCondition t = false -> cond_of ext' t = cond_of ext t) /\
  (has = false -> forall t, isDeprecationCondition t = true -> has_status ext' t ConditionUnknown) /\
  (has_status ext' TypeBundleDeprecated ConditionUnknown <-> has = false \/ name = EmptyString) /\
  (has = true ->
   (has_status ext' TypePackageDeprecated ConditionTrue <-> reported dep (entry_of SchemaPackage)) /\
   (has_status ext' TypeChannelDeprecated ConditionTrue <->
      reported dep (channel_relevant (spec_channels ext))) /\
   (has_status ext' TypeBundleDeprecated ConditionTrue <-> reported dep (bundle_relevant name)) /\
   (has_status ext' TypeDeprecated ConditionTrue <->
      has_status ext' TypePackageDeprecated ConditionTrue \/
      has_status ext' TypeChannelDeprecated ConditionTrue \/
      has_status ext' TypeBundleDeprecated ConditionTrue)).
Proof.
  cbv zeta. unfold has_status. setoid_rewrite cond_deprecation.
  pose proof (fun sel => messages_reported dep sel) as Hm.
  destruct (build_entries ext name dep) as (Ep & Ec & Eb).
  assert (Hno : name = EmptyString -> ~ reported dep (bundle_relevant name)).
  { intros -> (e & _ & Hs & _). unfold bundle_relevant in Hs. rewrite andb_true_iff in Hs. by destruct Hs. }
  assert (Hv : forall t ms none gen st,
    (exists c, Some (match ms with
       | [] => mkCond t ConditionFalse ReasonNotDeprecated none gen
       | _ => mkCond t ConditionTrue ReasonDeprecated (truncateMessage (strings_Join ms nl)) gen end) = Some c /\
       c_Status c = st) <-> (st = match ms with [] => ConditionFalse | _ :: _ => ConditionTrue end)).
  { intros. split; [intros (c & [= <-] & <-); by destruct ms|]. intros ->. eexists; split; [done|]. by destruct ms. }
  split; [|split; [|split]].
  - intros t Ht. destruct (deprecation_condition ext name dep has t) eqn:E; [|done].
    assert (is_Some (deprecation_condition ext name dep has t)) as Hs by (rewrite E; by eexists).
    apply deprecation_condition_types in Hs. congruence.
  - intros -> t Ht. pose proof (proj2 (deprecation_condition_types ext name dep false t) Ht) as [c Hc].
    rewrite Hc. exists c. split; [done|]. unfold deprecation_condition in Hc.
    repeat case_decide; inversion Hc; done.
  - unfold deprecation_condition. simpl. case_decide as En; [|destruct has].
    + split; [auto|]. intros _. by eexists.
    + split; [|by intros [?|?]]. intros (c & [= <-] & Hc).
      by destruct (collectDeprecationMessages _).
    + split; [by left|]. intros _. by eexists.
  - intros ->.
    assert (HP := Hm (entry_of SchemaPackage)). assert (HC := Hm (channel_relevant (spec_channels ext))).
    assert (HB := Hm (bundle_relevant name)). rewrite <- Ep in HP. rewrite <- Ec in HC. rewrite <- Eb in HB.
    unfold deprecation_condition. cbn -[buildDeprecationInfo].
    setoid_rewrite Hv. rewrite <- HP, <- HC, <- HB in *.
    set (pm := collectDeprecationMessages (PackageEntries _)) in *.
    set (cm := collectDeprecationMessages (ChannelEntries _)) in *.
    set (bm := collectDeprecationMessages (BundleEntries _)) in *.
    destruct (decide (name = EmptyString)) as [En|En].
    + assert (bm = []) as -> by (destruct bm; [done|]; exfalso; by apply (Hno En)).
      destruct pm, cm; simpl; naive_solver.
    + setoid_rewrite Hv. destruct pm, cm, bm; simpl; naive_solver.
Qed.

(** ** Revision states *)

Definition rev_active (r : ClusterObjectSet) : bool :=
  negb (bool_decide (cos_Lifecycle r = LifecycleStateArchived)).
Definition rev_succeeded (r : ClusterObjectSet) : bool :=
  IsStatusConditionTrue (cos_Conditions r) ClusterObjectSetTypeSucceeded.
Definition rev_installed (r : ClusterObjectSet) : bool := rev_active r && rev_succeeded r.
Definition rev_rolling (r : ClusterObjectSet) : bool := rev_active r && negb (rev_succeeded r).

Lemma classify_fold revs rs :
  fold_left classify_revision revs rs =
  mkRS (match last (Filter revs rev_installed) with Some r => Some (metadata_of r) | None => Installed rs end)
    (RollingOut rs ++ map metadata_of (Filter revs rev_rolling)).
Proof.
  revert rs. induction revs as [|r revs IH]; intros rs; cbn [fold_left Filter].
  { destruct rs. by rewrite app_nil_r. }
  assert (Hc : classify_revision rs r =
    if rev_installed r then mkRS (Some (metadata_of r)) (RollingOut rs)
    else if rev_rolling r then mkRS (Installed rs) (RollingOut rs ++ [metadata_of r]) else rs).
  { unfold classify_revision, rev_installed, rev_rolling, rev_active, rev_succeeded.
    case_bool_decide; simpl; [done|]. by destruct (IsStatusConditionTrue _ _). }
  assert (Hx : rev_installed r = true -> rev_rolling r = false).
  { unfold rev_installed, rev_rolling. destruct (rev_active r), (rev_succeeded r); done. }
  rewrite IH, Hc. destruct (rev_installed r).
  - rewrite Hx by done. cbn [Installed RollingOut]. f_equal.
    destruct (Filter revs rev_installed) as [|y l]; [done|].
    destruct (last (y :: l)) eqn:El; [|by apply last_None in El].
    change (last (r :: y :: l)) with (last (y :: l)). by rewrite El.
  - destruct (rev_rolling r); [|done]. cbn [Installed RollingOut map]. by rewrite <- app_assoc.
Qed.

#[export] Instance revision_cmp_order : CmpOrder revision_cmp.
Proof. apply (cmp_on_order cos_Revision int_cmp). Qed.

Lemma Filter_sorted {A} (R : A -> A -> Prop) l f : StronglySorted R l -> StronglySorted R (Filter l f).
Proof.
  induction 1 as [|x l Hs IH Hx]; simpl; [constructor|]. destruct (f x); [|done].
  constructor; [done|]. rewrite Forall_forall in *. intros y [Hy _]%elem_of_Filter. by apply Hx.
Qed.

(** The revision states read from the cluster: the installed revision is
    the newest one that is active and succeeded, if any; the revisions rolling
    out are exactly the active ones that have not succeeded, oldest first; and
    archived revisions are in neither. *)
Theorem GetRevisionStates_spec list ext items rs :
  list (<[OwnerNameKey := ext_Name ext]> ∅) = inr items ->
  Boxcutter_GetRevisionStates list ext = inr rs ->
  (forall rm, Installed rs = Some rm ->
     exists r, r ∈ items /\ rev_installed r = true /\ rm = metadata_of r /\
       forall r', r' ∈ items -> rev_installed r' = true -> cos_Revision r' <= cos_Revision r) /\
  (Installed rs = None -> forall r, r ∈ items -> rev_installed r = false) /\
  exists rolling, RollingOut rs = map metadata_of rolling /\
    StronglySorted (fun a b => cos_Revision a <= cos_Revision b) rolling /\
    forall r, r ∈ rolling <-> r ∈ items /\ rev_rolling r = true.
Proof.
  unfold Boxcutter_GetRevisionStates. intros ->. intros [= <-]. rewrite classify_fold. simpl.
  assert (Hs : StronglySorted (fun a b => cos_Revision a <= cos_Revision b) (sort_by revision_cmp items)).
  { eapply StronglySorted_weaken_le; [|apply (sort_by_sorted revision_cmp)]. intros a b. apply int_cmp_le. }
  assert (Hin : forall r f, r ∈ Filter (sort_by revision_cmp items) f <-> r ∈ items /\ f r = true).
  { intros r f. by rewrite elem_of_Filter, elem_of_sort_by. }
  split; [|split].
  - intros rm. destruct (last (Filter _ rev_installed)) as [r|] eqn:El; [|done]. intros [= <-].
    exists r. pose proof (last_elem_of _ _ El) as Hr. apply Hin in Hr as [Hr1 Hr2].
    do 3 (split; [done|]). intros r' H1 H2.
    destruct (sorted_last _ _ _ (Filter_sorted _ _ rev_installed Hs) El r') as [->|Hle]; [by apply Hin|lia|done].
  - destruct (last (Filter _ rev_installed)) as [r|] eqn:El; [done|]. intros _ r Hr.
    apply last_None in El. destruct (rev_installed r) eqn:E; [|done].
    assert (Hn : r ∈ Filter (sort_by revision_cmp items) rev_installed) by by apply Hin.
    rewrite El in Hn. by apply not_elem_of_nil in Hn.
  - eexists. split; [done|]. split; [by apply Filter_sorted|]. intros r. apply Hin.
Qed.

Lemma rolling_status_active rolling ext :
  map rs_Name (st_ActiveRevisions (ext_Status (rolling_status rolling ext).2)) =
  map rs_Name (st_ActiveRevisions (ext_Status ext)) ++ map rm_RevisionName rolling.
Proof.
  revert ext. induction rolling as [|r rest IH]; intros ext; simpl; [by rewrite app_nil_r|].
  destruct (mirror_conditions _ mirrored _ []) as [src conds].
  destruct rest as [|r' rest'].
  - destruct (mirror_conditions _ [_] src _) as [src' dst]. simpl. by rewrite map_app.
  - match goal with |- context [rolling_status _ ?e] => specialize (IH e); destruct (rolling_status _ e) end.
    simpl in *. rewrite IH, map_app. simpl. by rewrite <- app_assoc.
Qed.

(** The conditions the last rolling revision contributes. *)
Lemma rolling_status_progressing rolling ext r c :
  last rolling = Some r -> FindStatusCondition (rm_Conditions r) ClusterObjectSetTypeProgressing = Some c ->
  cond_of (rolling_status rolling ext).2 TypeProgressing = Some (with_ObservedGeneration (ext_Generation ext) c).
Proof.
  revert ext. induction rolling as [|r0 rest IH]; intros ext Hl Hc; [done|]. cbn [rolling_status].
  destruct rest as [|r' rest'].
  - inversion Hl; subst r0. clear IH.
    assert (Ht : c_Type c = ClusterObjectSetTypeProgressing) by by eapply find_type.
    unfold mirror_conditions, mirrored. cbn [fold_left]. unfold mirror_condition at 2.
    destruct (FindStatusCondition (fst (rm_Conditions r, [])) ClusterObjectSetTypeAvailable) as [a|] eqn:Ea;
      cbn [fst snd] in *.
    + assert (Ha : c_Type a = ClusterObjectSetTypeAvailable) by by eapply find_type.
      unfold mirror_condition at 1. cbn [fst snd]. rewrite find_set_cond. cbn [c_Type with_ObservedGeneration].
      rewrite Ha, decide_False by done. rewrite Hc. cbn [fst snd].
      unfold mirror_condition. cbn [fst snd]. rewrite find_set_cond. cbn [c_Type with_ObservedGeneration].
      rewrite Ht, decide_True by done. cbn. unfold cond_of, ext_Conditions. cbn. rewrite find_set_cond. cbn.
      by rewrite Ht, decide_True.
    + unfold mirror_condition at 1. cbn [fst snd]. rewrite Hc. cbn [fst snd].
      unfold mirror_condition. cbn [fst snd]. rewrite find_set_cond. cbn [c_Type with_ObservedGeneration].
      rewrite Ht, decide_True by done. cbn. unfold cond_of, ext_Conditions. cbn. rewrite find_set_cond. cbn.
      by rewrite Ht, decide_True.
  - destruct (mirror_conditions _ mirrored _ []) as [src conds].
    match goal with |- context [rolling_status (r' :: rest') ?e] =>
      specialize (IH e Hl Hc); destruct (rolling_status (r' :: rest') e) as [x y] end.
    cbn in *. exact IH.
Qed.

(** After a successful Boxcutter apply the extension lists its active
    revisions, the installed one first and then those rolling out in order,
    and while a newer revision rolls out its Progressing condition is the one
    the extension shows, at the extension's own generation. *)
Theorem boxcutter_reports_revisions apply (s : reconcileState FS) rs resolved ext h :
  revisionStates s = Some rs -> resolvedRevisionMetadata s = Some resolved ->
  (apply (imageFS s) ext (object_labels ext) (revision_annotations resolved)).2 = None ->
  exists s' ext', (ApplyBundleWithBoxcutter apply s ext h).1 = (s', ext', Continue) /\
    map rs_Name (st_ActiveRevisions (ext_Status ext')) =
      map rm_RevisionName (match Installed rs with Some i => [i] | None => [] end ++ RollingOut rs) /\
    st_Install (ext_Status ext') = rm_Bundle <$> Installed rs /\
    (forall latest c, last (RollingOut rs) = Some latest ->
       FindStatusCondition (rm_Conditions latest) ClusterObjectSetTypeProgressing = Some c ->
       cond_of ext' TypeProgressing = Some (with_ObservedGeneration (ext_Generation ext) c)).
Proof.
  intros Hrs Hres Happ. unfold ApplyBundleWithBoxcutter. rewrite Hres. unfold io_bind, tell. rewrite Happ, Hrs.
  unfold report_revisions.
  destruct (Installed rs) as [i|] eqn:Ei.
  - destruct (mirror_conditions _ mirrored (rm_Conditions i) _) as [src dst].
    match goal with |- context [rolling_status ?r ?e] =>
      pose proof (rolling_status_active r e) as Ha;
      pose proof (fun l c => rolling_status_progressing r e l c) as Hp;
      destruct (rolling_status r e) as [rolling e'] end.
    eexists _, _. split; [reflexivity|]. split; [done|]. split; [done|].
    intros l c Hl Hc. rewrite cond_installed, decide_False by done. by apply (Hp l c Hl Hc).
  - match goal with |- context [rolling_status ?r ?e] =>
      pose proof (rolling_status_active r e) as Ha;
      pose proof (fun l c => rolling_status_progressing r e l c) as Hp;
      destruct (rolling_status r e) as [rolling e'] end.
    eexists _, _. split; [reflexivity|]. split; [done|]. split; [done|].
    intros l c Hl Hc. rewrite cond_installed, decide_False by done. by apply (Hp l c Hl Hc).
Qed.

End Reporting.

Section Messages.
Context `{CA : ConditionsAPI}.

(** A retried socket error does not rewrite the status: two errors that
    differ only in the addresses and ports of the failing connection give the
    same Progressing condition, so a new ephemeral port causes no update. *)
Theorem network_error_status_stable a b a' b' rest op ext :
  endpoint a -> endpoint b -> endpoint a' -> endpoint b' ->
  op ∈ ["read udp "; "read tcp "; "write udp "; "write tcp "] ->
  setStatusProgressing (Some (ENew (op +:+ a +:+ "->" +:+ b +:+ ": " +:+ rest))) ext =
  setStatusProgressing (Some (ENew (op +:+ a' +:+ "->" +:+ b' +:+ ": " +:+ rest))) ext.
Proof.
  intros Ha Hb Ha' Hb' Hop.
  assert (Hop' : op = "read udp " \/ op = "read tcp " \/ op = "write udp " \/ op = "write tcp ").
  { rewrite !elem_of_cons in Hop. destruct Hop as [?|[?|[?|[?|Hn%not_elem_of_nil]]]]; tauto. }
  unfold setStatusProgressing, SanitizeNetworkError, UnwrapTerminal. cbn [is_terminal Error].
  by rewrite !sanitize_socket.
Qed.

(** The prefix of a terminal error leaks into the Progressing message when
    context was added around the error: the helper meant to remove the prefix
    drops the context instead. *)
Theorem wrapped_terminal_message ext :
  (cond_of (setStatusProgressing (Some (ETerminal (ENew "invalid bundle"))) ext) TypeProgressing =
   Some (mkCond TypeProgressing ConditionFalse ReasonBlocked "invalid bundle" (ext_Generation ext))) /\
  (cond_of (setStatusProgressing (Some (EWrap "applying: " (ETerminal (ENew "invalid bundle")) "")) ext)
     TypeProgressing =
   Some (mkCond TypeProgressing ConditionFalse ReasonBlocked "terminal error: invalid bundle" (ext_Generation ext))).
Proof. split; rewrite cond_progressing_err; vm_compute; reflexivity. Qed.

End Messages.

(** ** Sample inputs *)

Definition sample_rm (name version : string) (conds : list Condition) : RevisionMetadata :=
  mkRM (name +:+ "-rev") "pkg" (name +:+ "-image") (mkBM name version) conds.

Definition plain_ext : ClusterExtension := sample_ext (sample_filter "" []).

Definition state_with (rs : RevisionStates) (rm : option RevisionMetadata) : reconcileState unit :=
  mkState (Some rs) rm None None false.

Definition failing_resolver : ClusterExtension -> option BundleMetadata -> go ResolveOut :=
  fun _ _ => Ret (mkResolveOut None None (Some (ENew "no bundles found"))).

Lemma resolve_failure_reported_witness :
  let ext' := (ResolveBundle failing_resolver (fun _ => inr []) (state_with (mkRS None []) None) plain_ext []).1.1.2 in
  (forall t, t ∈ ConditionTypes -> is_Some (cond_of ext' t)) /\
  exists msg, cond_of ext' TypeProgressing =
    Some (mkCond TypeProgressing ConditionTrue ReasonRetrying msg (ext_Generation plain_ext)).
Proof.
  apply (resolve_failure_reported failing_resolver (fun _ => inr []) (state_with (mkRS None []) None) (mkRS None [])
    plain_ext []
    (ResolveBundle failing_resolver (fun _ => inr []) (state_with (mkRS None []) None) plain_ext []).1.1.1
    _ (ENew "no bundles found")
    (ResolveBundle failing_resolver (fun _ => inr []) (state_with (mkRS None []) None) plain_ext []).2).
  - reflexivity.
  - reflexivity.
Defined.

Lemma resolution_info_keeps_verdict_witness :
  let err := NewTerminalError ReasonInvalidConfiguration (ENew "bad config") in
  progressing_status (wrapErrorWithResolutionInfo (mkBM "b" "1.0.0") err) = progressing_status err /\
  progressing_reason (wrapErrorWithResolutionInfo (mkBM "b" "1.0.0") err) = progressing_reason err.
Proof.
  apply (resolution_info_keeps_verdict (mkBM "b" "1.0.0")
           (NewTerminalError ReasonInvalidConfiguration (ENew "bad config"))).
  discriminate.
Defined.

Definition sample_cos (name : string) (rev : Z) (state : string) (conds : list Condition) : ClusterObjectSet :=
  mkCOS (sample_meta name) (mkCOSSpec state rev [] 0 [] CollisionProtectionPrevent) conds.

Definition succeeded : Condition :=
  mkCond ClusterObjectSetTypeSucceeded ConditionTrue ReasonSucceeded "" 1.

Definition sample_revs : list ClusterObjectSet :=
  [sample_cos "ext-3" 3 LifecycleStateActive [];
   sample_cos "ext-1" 1 LifecycleStateArchived [succeeded];
   sample_cos "ext-2" 2 LifecycleStateActive [succeeded]].

Lemma GetRevisionStates_spec_witness :
  exists rs, Boxcutter_GetRevisionStates (fun _ => inr sample_revs) plain_ext = inr rs /\
  (forall rm, Installed rs = Some rm ->
     exists r, r ∈ sample_revs /\ rev_installed r = true /\ rm = metadata_of r /\
       forall r', r' ∈ sample_revs -> rev_installed r' = true -> cos_Revision r' <= cos_Revision r).
Proof.
  eexists. split; [reflexivity|].
  apply (GetRevisionStates_spec (fun _ => inr sample_revs) plain_ext sample_revs); reflexivity.
Defined.

Lemma boxcutter_reports_revisions_witness :
  let rs := mkRS (Some (sample_rm "a" "1.0.0" [])) [sample_rm "b" "1.1.0" []] in
  let s := state_with rs (Some (sample_rm "b" "1.1.0" [])) in
  exists s' ext',
    (ApplyBundleWithBoxcutter (fun _ _ _ _ => (true, "", None)) s plain_ext []).1 = (s', ext', Continue) /\
    map rs_Name (st_ActiveRevisions (ext_Status ext')) = ["a-rev"; "b-rev"] /\
    st_Install (ext_Status ext') = Some (mkBM "a" "1.0.0") /\
    (forall latest c, last (RollingOut rs) = Some latest ->
       FindStatusCondition (rm_Conditions latest) ClusterObjectSetTypeProgressing = Some c ->
       cond_of ext' TypeProgressing = Some (with_ObservedGeneration (ext_Generation plain_ext) c)).
Proof.
  apply (boxcutter_reports_revisions (fun _ _ _ _ => (true, "", None))
    (state_with (mkRS (Some (sample_rm "a" "1.0.0" [])) [sample_rm "b" "1.1.0" []])
       (Some (sample_rm "b" "1.1.0" [])))
    (mkRS (Some (sample_rm "a" "1.0.0" [])) [sample_rm "b" "1.1.0" []]) (sample_rm "b" "1.1.0" []) plain_ext []);
    reflexivity.
Defined.

Lemma network_error_status_stable_witness :
  setStatusProgressing (Some (ENew ("read udp 10.244.0.8:46753->10.96.0.10:53: i/o timeout"))) plain_ext =
  setStatusProgressing (Some (ENew ("read udp 10.96.0.10:53->10.244.0.8:46753: i/o timeout"))) plain_ext.
Proof.
  apply (network_error_status_stable "10.244.0.8:46753" "10.96.0.10:53" "10.96.0.10:53" "10.244.0.8:46753"
           "i/o timeout" "read udp " plain_ext);
    first [apply endpoint_ipv4|apply endpoint_ipv4_dns|by left].
Defined.

Definition rolling_out (message : string) : ClusterExtension :=
  (ApplyBundle (fun _ _ _ _ => (false, message, None))
     (state_with (mkRS None []) (Some (sample_rm "b" "1.1.0" []))) plain_ext []).1.1.2.

(** A rollout status reported by the Helm applier is written to the
    Progressing condition without the truncation the other messages get: a
    status longer than the API allows is stored as it is. *)
Theorem rollout_status_not_truncated :
  exists message c, cond_of (rolling_out message) TypeProgressing = Some c /\
    c_Message c = message /\ maxConditionMessageLength < slen (c_Message c).
Proof.
  exists (long_message (Z.to_nat (maxConditionMessageLength + 1))).
  generalize (long_message_length (Z.to_nat (maxConditionMessageLength + 1))).
  generalize (long_message (Z.to_nat (maxConditionMessageLength + 1))). intros m Hm.
  eexists. split; [vm_compute; reflexivity|]. split; [reflexivity|]. cbn [c_Message].
  rewrite Hm. rewrite Z2Nat.id; [lia|]. unfold maxConditionMessageLength. lia.
Qed.
