(* ===== verification/Phase.v ===== *)
(** * Phases of a revision

    src/internal/operator-controller/applier/phase.go: which phase an object is
    applied in, and the sorting of a bundle's objects into phases.

    The accessors of unstructured.Unstructured are the interface
    [UnstructuredAPI]. *)

From S2P Require Import Prelude GoErrors ApiTypes.

(** The accessors of unstructured.Unstructured the code uses. *)
Class UnstructuredAPI := {
  u_GVK : Unstructured -> GroupVersionKind;
  u_GetNamespace : Unstructured -> string;
  u_GetName : Unstructured -> string;
  u_GetLabels : Unstructured -> option (gmap string string);  (* the map may be nil *)
  u_SetLabels : option (gmap string string) -> Unstructured -> Unstructured;
  u_GetAnnotations : Unstructured -> option (gmap string string);
  u_SetAnnotations : option (gmap string string) -> Unstructured -> Unstructured;
  u_SetGroupVersionKind : GroupVersionKind -> Unstructured -> Unstructured;
  u_OwnerReferences : Unstructured -> list OwnerReference;
  (* a setter determines what its getter returns and leaves the identity of
     the object and its content map in place *)
  get_set_labels : forall m u, u_GetLabels (u_SetLabels m u) = m;
  set_labels_gvk : forall m u, u_GVK (u_SetLabels m u) = u_GVK u;
  set_labels_name : forall m u, u_GetName (u_SetLabels m u) = u_GetName u;
  set_labels_namespace : forall m u, u_GetNamespace (u_SetLabels m u) = u_GetNamespace u;
  set_labels_annotations : forall m u, u_GetAnnotations (u_SetLabels m u) = u_GetAnnotations u;
  get_set_annotations : forall m u, u_GetAnnotations (u_SetAnnotations m u) = m;
  set_annotations_labels : forall m u, u_GetLabels (u_SetAnnotations m u) = u_GetLabels u;
  set_annotations_gvk : forall m u, u_GVK (u_SetAnnotations m u) = u_GVK u;
  set_annotations_name : forall m u, u_GetName (u_SetAnnotations m u) = u_GetName u;
  set_annotations_namespace : forall m u, u_GetNamespace (u_SetAnnotations m u) = u_GetNamespace u;
}.

(** ** Apply configurations

    The generated builder types of applyconfigurations/api/v1: every field is
    a pointer, nil when it is not part of the configuration. *)
Record ObjectAC := mkObjectAC {
  oa_Object : option Unstructured;
  oa_Ref : option ObjectSourceRef;
  oa_CollisionProtection : option string;
}.

Record PhaseAC := mkPhaseAC { pa_Name : option string; pa_Objects : list ObjectAC }.

#[export] Instance ObjectAC_eq_dec : EqDecision ObjectAC.
Proof. solve_decision. Defined.
#[export] Instance PhaseAC_eq_dec : EqDecision PhaseAC.
Proof. solve_decision. Defined.

(** ** The phases *)

(** type Phase string, and its constants *)
Abbreviation Phase := string.
Definition PhaseNamespaces : Phase := "namespaces".
Definition PhasePolicies : Phase := "policies".
Definition PhaseIdentity : Phase := "identity".
Definition PhaseConfiguration : Phase := "configuration".
Definition PhaseStorage : Phase := "storage".
Definition PhaseCRDs : Phase := "crds".
Definition PhaseRoles : Phase := "roles".
Definition PhaseBindings : Phase := "bindings".
Definition PhaseInfrastructure : Phase := "infrastructure".
Definition PhaseDeploy : Phase := "deploy".
Definition PhaseScaling : Phase := "scaling".
Definition PhasePublish : Phase := "publish".
Definition PhaseAdmission : Phase := "admission".

(** Well known phases ordered. *)
Definition defaultPhaseOrder : list Phase :=
  [PhaseNamespaces; PhasePolicies; PhaseIdentity; PhaseConfiguration; PhaseStorage; PhaseCRDs; PhaseRoles;
   PhaseBindings; PhaseInfrastructure; PhaseDeploy; PhaseScaling; PhasePublish; PhaseAdmission].

(** phaseGKMap, as the list of its entries. *)
Definition phaseGKMap : list (Phase * list GroupKind) :=
  [(PhaseNamespaces, [mkGK "" "Namespace"]);
   (PhasePolicies, [mkGK "networking.k8s.io" "NetworkPolicy"; mkGK "policy" "PodDisruptionBudget";
                    mkGK "scheduling.k8s.io" "PriorityClass"]);
   (PhaseIdentity, [mkGK "" "ServiceAccount"]);
   (PhaseConfiguration, [mkGK "" "Secret"; mkGK "" "ConfigMap"]);
   (PhaseStorage, [mkGK "" "PersistentVolume"; mkGK "" "PersistentVolumeClaim";
                   mkGK "storage.k8s.io" "StorageClass"]);
   (PhaseCRDs, [mkGK "apiextensions.k8s.io" "CustomResourceDefinition"]);
   (PhaseRoles, [mkGK "rbac.authorization.k8s.io" "ClusterRole"; mkGK "rbac.authorization.k8s.io" "Role"]);
   (PhaseBindings, [mkGK "rbac.authorization.k8s.io" "ClusterRoleBinding";
                    mkGK "rbac.authorization.k8s.io" "RoleBinding"]);
   (PhaseInfrastructure, [mkGK "" "Service"; mkGK "cert-manager.io" "Issuer"]);
   (PhaseDeploy, [mkGK "cert-manager.io" "Certificate"; mkGK "apps" "Deployment"]);
   (PhaseScaling, [mkGK "autoscaling.k8s.io" "VerticalPodAutoscaler"]);
   (PhasePublish, [mkGK "monitoring.coreos.com" "PrometheusRule"; mkGK "monitoring.coreos.com" "ServiceMonitor";
                   mkGK "monitoring.coreos.com" "PodMonitor"; mkGK "networking.k8s.io" "Ingress";
                   mkGK "route.openshift.io" "Route"; mkGK "console.openshift.io" "ConsoleYAMLSample";
                   mkGK "console.openshift.io" "ConsoleQuickStart"; mkGK "console.openshift.io" "ConsoleCLIDownload";
                   mkGK "console.openshift.io" "ConsoleLink"; mkGK "console.openshift.io" "ConsolePlugin"]);
   (PhaseAdmission, [mkGK "admissionregistration.k8s.io" "ValidatingWebhookConfiguration";
                     mkGK "admissionregistration.k8s.io" "MutatingWebhookConfiguration"])].

(** The init function: invert the map. *)
Definition invert_phases (m : list (Phase * list GroupKind)) : gmap GroupKind Phase :=
  fold_left (fun acc e => fold_left (fun acc gk => <[gk := e.1]> acc) e.2 acc) m ∅.

Definition gkPhaseMap : gmap GroupKind Phase := invert_phases phaseGKMap.

(** func determinePhase(gk schema.GroupKind) Phase *)
Definition determinePhase (gk : GroupKind) : Phase :=
  match gkPhaseMap !! gk with
  | Some phase => phase
  | None => PhaseDeploy
  end.

Arguments determinePhase : simpl never.

Section Sort.
Context `{UA : UnstructuredAPI}.

(** The object of a configuration; the callers always set it. *)
Definition ac_object (o : ObjectAC) : Unstructured := default (mkUnstr None) (oa_Object o).

(** func compareClusterObjectSetObjectApplyConfigurations(a, b) int *)
Definition compareClusterObjectSetObjectApplyConfigurations (a b : ObjectAC) : Z :=
  let aGVK := u_GVK (ac_object a) in
  let bGVK := u_GVK (ac_object b) in
  cmp_Or [string_cmp (gvk_Group aGVK) (gvk_Group bGVK);
          string_cmp (gvk_Version aGVK) (gvk_Version bGVK);
          string_cmp (gvk_Kind aGVK) (gvk_Kind bGVK);
          string_cmp (u_GetNamespace (ac_object a)) (u_GetNamespace (ac_object b));
          string_cmp (u_GetName (ac_object a)) (u_GetName (ac_object b))].

Definition phase_of (o : ObjectAC) : Phase := determinePhase (GroupKind_of (u_GVK (ac_object o))).

Arguments phase_of : simpl never.

(** The first loop of PhaseSort: group the objects by phase. *)
Definition phase_map (unsortedObjs : list ObjectAC) : gmap Phase (list ObjectAC) :=
  fold_left (fun m obj => <[phase_of obj := default [] (m !! phase_of obj) ++ [obj]]> m) unsortedObjs ∅.

(** func PhaseSort(unsortedObjs) *)
Definition PhaseSort (unsortedObjs : list ObjectAC) : list PhaseAC :=
  let phaseMap := phase_map unsortedObjs in
  omap (fun phaseName =>
          match phaseMap !! phaseName with
          | Some objs =>
              Some (mkPhaseAC (Some phaseName) (sort_by compareClusterObjectSetObjectApplyConfigurations objs))
          | None => None
          end) defaultPhaseOrder.

(** ** Lemmas *)

#[export] Instance compare_objects_order : CmpOrder compareClusterObjectSetObjectApplyConfigurations.
Proof.
  set (key f := fun a b : ObjectAC => string_cmp (f (ac_object a)) (f (ac_object b))).
  assert (Hk : forall f, CmpOrder (key f)) by (intros f; apply (cmp_on_order (fun o => f (ac_object o)) string_cmp)).
  set (last_key := fun a b : ObjectAC => cmp_Or [key u_GetName a b]).
  assert (Hl : CmpOrder last_key).
  { assert (E : forall a b, last_key a b = key u_GetName a b).
    { intros. unfold last_key. simpl. by destruct (Z.eqb_spec (key u_GetName a b) 0). }
    split; intros; rewrite !E in *; [apply (cmp_anti (cmp := key u_GetName))|].
    by eapply (cmp_trans (cmp := key u_GetName)). }
  change (CmpOrder (cmp_then (key (fun u => gvk_Group (u_GVK u)))
           (cmp_then (key (fun u => gvk_Version (u_GVK u)))
              (cmp_then (key (fun u => gvk_Kind (u_GVK u)))
                 (cmp_then (key u_GetNamespace) last_key))))).
  do 4 (apply cmp_then_order; [apply Hk|]). exact Hl.
Qed.

(** Filtering by a phase. *)
Definition in_phase (p : Phase) (objs : list ObjectAC) : list ObjectAC :=
  filter (fun o => phase_of o = p) objs.

Lemma phase_map_lookup objs p :
  phase_map objs !! p = match in_phase p objs with [] => None | l => Some l end.
Proof.
  unfold phase_map, in_phase.
  assert (H : forall l (m : gmap Phase (list ObjectAC)), (fold_left (fun m obj => <[phase_of obj := default [] (m !! phase_of obj) ++ [obj]]> m) l m) !! p =
    match default [] (m !! p) ++ filter (fun o => phase_of o = p) l with
    | [] => m !! p
    | k => Some k
    end).
  { induction l as [|o l IH]; intros m; cbn [fold_left].
    - rewrite filter_nil, app_nil_r. destruct (m !! p) as [[|x k]|]; done.
    - rewrite IH. destruct (decide (phase_of o = p)) as [<-|Hn].
      + rewrite lookup_insert_eq, filter_cons_True by done. cbn [default from_option id]. rewrite <- app_assoc.
        by destruct (default [] (m !! phase_of o)).
      + rewrite lookup_insert_ne by done. by rewrite filter_cons_False. }
  rewrite H, lookup_empty. cbn [default from_option app]. by destruct (filter (fun o => phase_of o = p) objs).
Qed.

Lemma phase_entries_forall (P : GroupKind -> Phase -> Prop) m :
  (forall e gk, e ∈ m -> gk ∈ e.2 -> P gk e.1) ->
  forall gk p, invert_phases m !! gk = Some p -> P gk p.
Proof.
  intros H. unfold invert_phases.
  assert (Hin : forall gks ph acc, (forall gk, gk ∈ gks -> P gk ph) ->
    (forall gk p, acc !! gk = Some p -> P gk p) ->
    forall gk p, fold_left (fun (acc : gmap GroupKind Phase) gk => <[gk := ph]> acc) gks acc !! gk = Some p -> P gk p).
  { induction gks as [|g gks IH]; intros ph acc Hg Hacc; simpl; [done|]. apply IH; [set_solver|].
    intros gk p. destruct (decide (g = gk)) as [->|Hn].
    - rewrite lookup_insert_eq. intros [= <-]. apply Hg. set_solver.
    - rewrite lookup_insert_ne by done. apply Hacc. }
  assert (Hout : forall l acc, (forall e gk, e ∈ l -> gk ∈ e.2 -> P gk e.1) ->
    (forall gk p, acc !! gk = Some p -> P gk p) ->
    forall gk p, fold_left (fun (acc : gmap GroupKind Phase) (e : Phase * list GroupKind) =>
      fold_left (fun acc gk => <[gk := e.1]> acc) e.2 acc) l acc !! gk = Some p -> P gk p).
  { induction l as [|e l IH]; intros acc Hl Hacc; simpl; [done|]. apply IH; [set_solver|].
    apply Hin; [|done]. intros gk Hgk. apply (Hl e); set_solver. }
  apply Hout; [done|]. intros gk p. by rewrite lookup_empty.
Qed.

(** Every phase an object can get is one of the ordered ones. *)
Lemma phaseGKMap_known : Forall (fun e => e.1 ∈ defaultPhaseOrder) phaseGKMap.
Proof. apply (bool_decide_unpack _). vm_compute. exact I. Qed.

Lemma determinePhase_known gk : determinePhase gk ∈ defaultPhaseOrder.
Proof.
  unfold determinePhase. destruct (gkPhaseMap !! gk) as [p|] eqn:E.
  - revert gk p E. apply phase_entries_forall. intros e gk He _.
    pose proof phaseGKMap_known as H. rewrite Forall_forall in H. by apply H.
  - by apply (list_elem_of_lookup_2 _ 9).
Qed.

Lemma phase_order_NoDup : NoDup defaultPhaseOrder.
Proof. apply (bool_decide_unpack _). vm_compute. exact I. Qed.

Lemma in_phase_permutation p objs objs' : objs ≡ₚ objs' -> in_phase p objs ≡ₚ in_phase p objs'.
Proof. intros H. unfold in_phase. by rewrite H. Qed.

Lemma omap_ext_in {A B} (f g : A -> option B) (l : list A) : (forall x, x ∈ l -> f x = g x) -> omap f l = omap g l.
Proof.
  intros H. induction l as [|x l IH]; [done|]. cbn. rewrite (H x) by set_solver.
  destruct (g x); [f_equal|]; apply IH; set_solver.
Qed.

(** PhaseSort, phase by phase. *)
Lemma PhaseSort_unfold objs :
  PhaseSort objs =
  omap (fun p => match in_phase p objs with
                 | [] => None
                 | l => Some (mkPhaseAC (Some p) (sort_by compareClusterObjectSetObjectApplyConfigurations l))
                 end) defaultPhaseOrder.
Proof.
  unfold PhaseSort. apply omap_ext_in. intros p _. rewrite phase_map_lookup. by destruct (in_phase p objs).
Qed.

End Sort.
