(* ===== verification/ObjectInstances.v ===== *)
(** * A concrete model of unstructured objects

    [UnstructuredAPI] instantiated with the nested-field accessors on [json]
    values; used by the witnesses. *)

From S2P Require Import Prelude GoErrors ApiTypes Phase.

Definition content (u : Unstructured) : gmap string json := default ∅ (u_Object u).

Definition obj_field (m : gmap string json) (k : string) : gmap string json :=
  match m !! k with Some (JObj o) => o | _ => ∅ end.

Definition str_field (m : gmap string json) (k : string) : string :=
  match m !! k with Some (JStr s) => s | _ => EmptyString end.

Definition as_str (j : json) : option string := match j with JStr s => Some s | _ => None end.

(** A string map stored as a JSON object. *)
Definition str_map (m : gmap string json) (k : string) : option (gmap string string) :=
  match m !! k with Some (JObj o) => Some (omap as_str o) | _ => None end.

Definition set_field (k : string) (m : option (gmap string string)) (o : gmap string json) : gmap string json :=
  match m with Some m => <[k := JObj (JStr <$> m)]> o | None => delete k o end.

Definition set_meta (k : string) (m : option (gmap string string)) (u : Unstructured) : Unstructured :=
  mkUnstr (Some (<["metadata" := JObj (set_field k m (obj_field (content u) "metadata"))]> (content u))).

Definition set_gvk (g : GroupVersionKind) (u : Unstructured) : Unstructured :=
  mkUnstr (Some (<["apiVersion" := JStr (gv_String g)]> (<["kind" := JStr (gvk_Kind g)]> (content u)))).

Definition gvk_sample (u : Unstructured) : GroupVersionKind :=
  let kind := str_field (content u) "kind" in
  match strings_Split (Ascii.ascii_of_nat 47) (str_field (content u) "apiVersion") with
  | [v] => mkGVK "" v kind
  | [g; v] => mkGVK g v kind
  | _ => mkGVK "" "" ""
  end.

Lemma str_fields m : omap as_str (JStr <$> m : gmap string json) = m.
Proof. apply map_eq. intros i. rewrite lookup_omap, lookup_fmap. by destruct (m !! i). Qed.

Lemma set_field_ne k k' m o : k <> k' -> set_field k m o !! k' = o !! k'.
Proof. intros H. destruct m; cbn; [by rewrite lookup_insert_ne|by rewrite lookup_delete_ne]. Qed.

Lemma meta_set k m u : obj_field (content (set_meta k m u)) "metadata" =
  set_field k m (obj_field (content u) "metadata").
Proof. unfold obj_field at 1, content at 1, set_meta. cbn. by rewrite lookup_insert_eq. Qed.

Lemma str_map_set k m u : str_map (obj_field (content (set_meta k m u)) "metadata") k = m.
Proof.
  unfold str_map. rewrite meta_set. destruct m as [m|]; cbn [set_field].
  - rewrite lookup_insert_eq. f_equal. apply str_fields.
  - by rewrite lookup_delete_eq.
Qed.

Lemma str_map_set_ne k k' m u :
  k <> k' -> str_map (obj_field (content (set_meta k m u)) "metadata") k' =
             str_map (obj_field (content u) "metadata") k'.
Proof. intros H. unfold str_map. rewrite meta_set. by rewrite set_field_ne. Qed.

Lemma str_field_meta k k' m u :
  k <> k' -> str_field (obj_field (content (set_meta k m u)) "metadata") k' =
             str_field (obj_field (content u) "metadata") k'.
Proof. intros H. unfold str_field. rewrite meta_set. by rewrite set_field_ne. Qed.

Lemma str_field_top k k' m u :
  k' <> "metadata" -> str_field (content (set_meta k m u)) k' = str_field (content u) k'.
Proof. intros H. unfold str_field, set_meta, content at 1. cbn. by rewrite lookup_insert_ne. Qed.

Lemma gvk_set_meta k m u : gvk_sample (set_meta k m u) = gvk_sample u.
Proof. unfold gvk_sample. by rewrite !str_field_top. Qed.

#[export] Program Instance unstructured_sample : UnstructuredAPI := {|
  u_GVK := gvk_sample;
  u_GetNamespace u := str_field (obj_field (content u) "metadata") "namespace";
  u_GetName u := str_field (obj_field (content u) "metadata") "name";
  u_GetLabels u := str_map (obj_field (content u) "metadata") "labels";
  u_SetLabels := set_meta "labels";
  u_GetAnnotations u := str_map (obj_field (content u) "metadata") "annotations";
  u_SetAnnotations := set_meta "annotations";
  u_SetGroupVersionKind := set_gvk;
  u_OwnerReferences _ := [];
|}.
Next Obligation. intros. apply str_map_set. Qed.
Next Obligation. intros. apply gvk_set_meta. Qed.
Next Obligation. intros. by apply str_field_meta. Qed.
Next Obligation. intros. by apply str_field_meta. Qed.
Next Obligation. intros. by apply str_map_set_ne. Qed.
Next Obligation. intros. apply str_map_set. Qed.
Next Obligation. intros. by apply str_map_set_ne. Qed.
Next Obligation. intros. apply gvk_set_meta. Qed.
Next Obligation. intros. by apply str_field_meta. Qed.
Next Obligation. intros. by apply str_field_meta. Qed.

(** A manifest. *)
Definition manifest (apiVersion kind namespace name : string) : Unstructured :=
  mkUnstr (Some (<["apiVersion" := JStr apiVersion]> (<["kind" := JStr kind]>
    (<["metadata" := JObj (<["namespace" := JStr namespace]> (<["name" := JStr name]> ∅))]> ∅)))).

Definition manifest_ac (apiVersion kind namespace name : string) : ObjectAC :=
  mkObjectAC (Some (manifest apiVersion kind namespace name)) None None.

Definition sample_crd : ObjectAC := manifest_ac "apiextensions.k8s.io/v1" "CustomResourceDefinition" "" "foos.example.com".
Definition sample_deploy : ObjectAC := manifest_ac "apps/v1" "Deployment" "ns" "controller".
Definition sample_sa : ObjectAC := manifest_ac "v1" "ServiceAccount" "ns" "controller".
Definition sample_cr : ObjectAC := manifest_ac "example.com/v1" "Foo" "ns" "instance".
