(* ===== verification/PhaseProps.v ===== *)
(** * Properties of phase sorting

    PhaseSort loses and invents nothing, puts every object into the phase of
    its kind, keeps the phases in their order, and does not depend on the order
    of its input. *)

From S2P Require Import Prelude GoErrors ApiTypes Phase ObjectInstances.

Section PhaseSorting.
Context `{UA : UnstructuredAPI}.

Lemma filter_cons_class (f : ObjectAC -> Phase) p ps objs :
  p ∉ ps ->
  filter (fun o => f o ∈ p :: ps) objs ≡ₚ filter (fun o => f o = p) objs ++ filter (fun o => f o ∈ ps) objs.
Proof.
  intros Hp. induction objs as [|o objs IH]; [done|]. rewrite !filter_cons.
  destruct (decide (f o = p)) as [E|E].
  - rewrite decide_True by set_solver. rewrite (decide_False (P := f o ∈ ps)) by congruence.
    simpl. by rewrite IH.
  - destruct (decide (f o ∈ ps)).
    + rewrite decide_True by set_solver. rewrite IH. apply Permutation_middle.
    + rewrite decide_False by set_solver. exact IH.
Qed.

Lemma classes_partition (f : ObjectAC -> Phase) ps objs :
  NoDup ps -> concat (map (fun p => filter (fun o => f o = p) objs) ps) ≡ₚ filter (fun o => f o ∈ ps) objs.
Proof.
  induction 1 as [|p ps Hp _ IH]; cbn [map concat].
  - induction objs as [|o objs IH]; [done|]. rewrite filter_cons_False by apply not_elem_of_nil. exact IH.
  - by rewrite filter_cons_class, IH.
Qed.

Lemma phases_objects objs ps :
  concat (map pa_Objects (omap (fun p => match in_phase p objs with
     | [] => None
     | l => Some (mkPhaseAC (Some p) (sort_by compareClusterObjectSetObjectApplyConfigurations l)) end) ps))
  ≡ₚ concat (map (fun p => in_phase p objs) ps).
Proof.
  induction ps as [|p ps IH]; [done|]. cbn [omap list_omap map concat].
  destruct (in_phase p objs) as [|o l]; [exact IH|]. cbn [map concat pa_Objects].
  by rewrite IH, sort_by_perm.
Qed.

(** C35. PhaseSort arranges exactly the given objects: the phases together hold
    each input object once; a phase is never empty, contains only objects whose
    kind belongs to it, in the order by group, version, kind, namespace and
    name; and the phases come in the well-known order, each at most once. *)
Theorem PhaseSort_partitions objs :
  concat (map pa_Objects (PhaseSort objs)) ≡ₚ objs /\
  map pa_Name (PhaseSort objs) = map Some (filter (fun p => in_phase p objs <> []) defaultPhaseOrder) /\
  forall ph, ph ∈ PhaseSort objs -> exists p, pa_Name ph = Some p /\ pa_Objects ph <> [] /\
    (forall o, o ∈ pa_Objects ph -> phase_of o = p) /\
    StronglySorted (cmp_le compareClusterObjectSetObjectApplyConfigurations) (pa_Objects ph).
Proof.
  rewrite PhaseSort_unfold. split; [|split].
  - rewrite phases_objects. etransitivity; [apply classes_partition, phase_order_NoDup|].
    clear. induction objs as [|o objs IH]; [done|].
    rewrite filter_cons_True by apply determinePhase_known. by rewrite IH.
  - induction defaultPhaseOrder as [|p ps IH]; [done|]. rewrite filter_cons. cbn [omap list_omap map].
    destruct (in_phase p objs); [rewrite decide_False by (intros H; by apply H)|rewrite decide_True by done];
      cbn [map pa_Name]; by rewrite IH.
  - intros ph (p & Hp & Hph)%list_elem_of_omap. exists p.
    destruct (in_phase p objs) as [|o l] eqn:E; [done|]. inversion Hph; subst ph. cbn [pa_Name pa_Objects].
    split; [done|]. split; [|split].
    + intros Hnil. pose proof (insert_by_perm compareClusterObjectSetObjectApplyConfigurations o
        (sort_by compareClusterObjectSetObjectApplyConfigurations l)) as Hs.
      rewrite Hnil in Hs. by apply Permutation_nil_cons in Hs.
    + intros x Hx. change (x ∈ sort_by compareClusterObjectSetObjectApplyConfigurations (o :: l)) in Hx.
      rewrite elem_of_sort_by, <- E in Hx. by apply list_elem_of_filter in Hx as [? _].
    + apply (sort_by_sorted compareClusterObjectSetObjectApplyConfigurations (o :: l)).
Qed.

(** The phases do not depend on the order of the input: any two
    arrangements of the same objects give identical phases, as long as
    distinct objects differ in group, version, kind, namespace or name. *)
Theorem PhaseSort_deterministic objs objs' :
  objs ≡ₚ objs' ->
  (forall a b, a ∈ objs -> b ∈ objs -> compareClusterObjectSetObjectApplyConfigurations a b = 0 -> a = b) ->
  PhaseSort objs = PhaseSort objs'.
Proof.
  intros Hp Hu. rewrite !PhaseSort_unfold. apply omap_ext_in. intros p _.
  pose proof (in_phase_permutation p _ _ Hp) as Hpp.
  assert (Hs : sort_by compareClusterObjectSetObjectApplyConfigurations (in_phase p objs) =
               sort_by compareClusterObjectSetObjectApplyConfigurations (in_phase p objs')).
  { apply (sort_by_permutation compareClusterObjectSetObjectApplyConfigurations); [done|].
    intros x y [_ Hx]%list_elem_of_filter [_ Hy]%list_elem_of_filter. by apply Hu. }
  revert Hpp Hs. destruct (in_phase p objs) as [|x l]; intros Hpp Hs.
  - apply Permutation_nil_l in Hpp. by rewrite <- Hpp.
  - destruct (in_phase p objs') as [|y l']; [by apply Permutation_nil_r in Hpp|]. by rewrite Hs.
Qed.

Lemma omap_app_split {A B} (f : A -> option B) (l1 l2 l3 : list A) x y bx by_ :
  f x = Some bx -> f y = Some by_ ->
  omap f (l1 ++ x :: l2 ++ y :: l3) = omap f l1 ++ bx :: omap f l2 ++ by_ :: omap f l3.
Proof.
  intros Hx Hy. rewrite omap_app. f_equal. cbn. rewrite Hx. f_equal. rewrite omap_app. f_equal. cbn. by rewrite Hy.
Qed.

(** [p] comes before [q] in the rollout. *)
Definition earlier (p q : Phase) : Prop :=
  exists l1 l2 l3, defaultPhaseOrder = l1 ++ p :: l2 ++ q :: l3.

Lemma in_phase_elem objs o : o ∈ objs -> exists x l, in_phase (phase_of o) objs = x :: l /\ o ∈ x :: l.
Proof.
  intros Ho. assert (Hin : o ∈ in_phase (phase_of o) objs) by by apply list_elem_of_filter.
  destruct (in_phase (phase_of o) objs) as [|x l]; [by apply not_elem_of_nil in Hin|eauto].
Qed.

(** The rollout respects dependencies: an object whose phase comes earlier
    is in an earlier phase of the result.  In particular namespaces, service
    accounts, CRDs, roles and role bindings precede deployments, custom
    resources (any kind without a phase of its own) follow their CRDs, and
    webhook configurations come after the deployments that serve them. *)
Theorem PhaseSort_respects_order objs a b :
  a ∈ objs -> b ∈ objs -> earlier (phase_of a) (phase_of b) ->
  exists l1 l2 l3 pa pb, PhaseSort objs = l1 ++ pa :: l2 ++ pb :: l3 /\
    a ∈ pa_Objects pa /\ b ∈ pa_Objects pb.
Proof.
  intros Ha Hb (l1 & l2 & l3 & Hord). rewrite PhaseSort_unfold, Hord.
  destruct (in_phase_elem objs a Ha) as (x & lx & Ex & Hx).
  destruct (in_phase_elem objs b Hb) as (y & ly & Ey & Hy).
  eexists _, _, _, _, _. split.
  - apply omap_app_split; [rewrite Ex; reflexivity|rewrite Ey; reflexivity].
  - cbn [pa_Objects]. split; by rewrite elem_of_sort_by.
Qed.

End PhaseSorting.

Lemma earlier_by_index p q i j :
  defaultPhaseOrder !! i = Some p -> defaultPhaseOrder !! j = Some q -> (i < j)%nat -> earlier p q.
Proof.
  intros Hi Hj Hij. apply list_elem_of_split_length in Hi as (l1 & l & Hl & ->).
  rewrite Hl, lookup_app_r in Hj by lia.
  destruct (j - length l1)%nat as [|k] eqn:Ek; [lia|]. cbn in Hj.
  apply list_elem_of_split_length in Hj as (l2 & l3 & -> & _). by exists l1, l2, l3.
Qed.

(** The order of the kinds the documentation singles out. *)
Lemma kinds_order :
  earlier (determinePhase (mkGK "" "Namespace")) (determinePhase (mkGK "" "ServiceAccount")) /\
  earlier (determinePhase (mkGK "" "ServiceAccount")) (determinePhase (mkGK "apps" "Deployment")) /\
  earlier (determinePhase (mkGK "apiextensions.k8s.io" "CustomResourceDefinition"))
          (determinePhase (mkGK "example.com" "Anything")) /\
  earlier (determinePhase (mkGK "rbac.authorization.k8s.io" "ClusterRole"))
          (determinePhase (mkGK "rbac.authorization.k8s.io" "ClusterRoleBinding")) /\
  earlier (determinePhase (mkGK "rbac.authorization.k8s.io" "RoleBinding"))
          (determinePhase (mkGK "apps" "Deployment")) /\
  earlier (determinePhase (mkGK "apps" "Deployment"))
          (determinePhase (mkGK "admissionregistration.k8s.io" "ValidatingWebhookConfiguration")).
Proof.
  repeat split; first
    [apply (earlier_by_index _ _ 0 2); vm_compute; (reflexivity || lia)
    |apply (earlier_by_index _ _ 2 9); vm_compute; (reflexivity || lia)
    |apply (earlier_by_index _ _ 5 9); vm_compute; (reflexivity || lia)
    |apply (earlier_by_index _ _ 6 7); vm_compute; (reflexivity || lia)
    |apply (earlier_by_index _ _ 7 9); vm_compute; (reflexivity || lia)
    |apply (earlier_by_index _ _ 9 12); vm_compute; (reflexivity || lia)].
Qed.

(** ** Sample inputs *)

Lemma PhaseSort_deterministic_witness :
  PhaseSort [sample_deploy; sample_crd; sample_sa] = PhaseSort [sample_crd; sample_deploy; sample_sa].
Proof.
  apply (PhaseSort_deterministic [sample_deploy; sample_crd; sample_sa] [sample_crd; sample_deploy; sample_sa]).
  - apply Permutation_swap.
  - intros a b Ha Hb. rewrite !elem_of_cons in Ha, Hb.
    destruct Ha as [->|[->|[->|Ha%not_elem_of_nil]]]; [..|done];
      destruct Hb as [->|[->|[->|Hb%not_elem_of_nil]]]; [..|done| | | |done| | | |done];
      vm_compute; intros H; first [reflexivity|discriminate].
Defined.

Lemma PhaseSort_respects_order_witness :
  exists l1 l2 l3 pa pb,
    PhaseSort [sample_cr; sample_deploy; sample_crd] = l1 ++ pa :: l2 ++ pb :: l3 /\
    sample_crd ∈ pa_Objects pa /\ sample_cr ∈ pa_Objects pb.
Proof.
  apply (PhaseSort_respects_order [sample_cr; sample_deploy; sample_crd] sample_crd sample_cr).
  - set_solver.
  - set_solver.
  - apply (earlier_by_index _ _ 5 9); vm_compute; [reflexivity|reflexivity|lia].
Defined.
