(* ===== verification/SecretPacker.v ===== *)
(** * Packing objects into Secrets

    src/internal/operator-controller/applier/secretpacker.go: the objects of a
    revision are moved out of the ClusterObjectSet into immutable Secrets, and
    resolveObjectRef of
    src/internal/operator-controller/controllers/clusterobjectset_controller.go
    reads them back.

    Bytes are strings.  encoding/json, compress/gzip and crypto/sha256 are the
    interface [Codec]. *)

From Stdlib Require Import Ascii.
From S2P Require Import Prelude GoErrors ApiTypes.

(** data[0] == 0x1f && data[1] == 0x8b *)
Definition is_gzip (data : string) : bool :=
  match data with
  | String a (String b _) => (nat_of_ascii a =? 31)%nat && (nat_of_ascii b =? 139)%nat
  | _ => false
  end.

Class Codec := {
  json_Marshal : gmap string json -> result string;
  json_Unmarshal : string -> result (option (gmap string json));
  gzip_compress : string -> result string;
  (* gzip.NewReader, and then io.ReadAll of at most n bytes of the stream *)
  gzip_read : Z -> string -> result (result string);
  sha256_base64url : string -> string;   (* the digest, base64url without padding *)
  sha256_hex8 : string -> string;        (* the first 8 bytes of the digest, in hexadecimal *)
  (* every number of the value is exact as a float64, which is what
     json.Unmarshal decodes a number into *)
  representable : gmap string json -> bool;
  unmarshal_marshal : forall m d,
    json_Marshal m = inr d -> representable m = true -> json_Unmarshal d = inr (Some m);
  (* the encoding of a map starts with a brace *)
  marshal_plain : forall m d, json_Marshal m = inr d -> is_gzip d = false;
  gunzip_gzip : forall d c n, gzip_compress d = inr c -> gzip_read n c = inr (inr (str_takeZ n d));
  gzip_magic : forall d c, gzip_compress d = inr c -> is_gzip c = true;
}.

(** corev1.Secret, the fields written. *)
Record Secret := mkSecret {
  sec_Name : string;
  sec_Namespace : string;
  sec_Labels : gmap string string;
  sec_OwnerReferences : list OwnerReference;
  sec_Immutable : bool;
  sec_Type : string;
  sec_Data : gmap string string;
}.

#[export] Instance Secret_eq_dec : EqDecision Secret.
Proof. solve_decision. Defined.

Definition maxSecretDataSize : Z := 900 * 1024.
Definition gzipThreshold : Z := 900 * 1024.

(** type SecretPacker struct *)
Record SecretPacker := mkPacker { RevisionName : string; OwnerName : string; SystemNamespace : string }.

(** type PackResult struct *)
Record PackResult := mkPackResult {
  Secrets : list Secret;
  Refs : gmap (nat * nat) ObjectSourceRef;
}.

Section Packing.
Context `{CO : Codec} (p : SecretPacker).

(** func contentHash(data []byte) string *)
Definition contentHash (data : string) : string := sha256_base64url data.

(** func gzipData(data []byte) ([]byte, error) *)
Definition gzipData (data : string) : result string := gzip_compress data.

(** func (p *SecretPacker) secretNameFromData(data) string *)
Definition secretNameFromData (data : gmap string string) : string :=
  let keys := sort_by string_cmp (elements (dom data)) in
  let bytes := fold_left (fun h k => h +:+ k +:+ map_get data k) keys EmptyString in
  RevisionName p +:+ "-" +:+ sha256_hex8 bytes.

(** func (p *SecretPacker) newSecret(data) corev1.Secret *)
Definition newSecret (data : gmap string string) : Secret :=
  mkSecret (secretNameFromData data) (SystemNamespace p)
    (<[RevisionNameKey := RevisionName p]> (<[OwnerNameKey := OwnerName p]> ∅))
    [] true SecretTypeObjectData data.

(** The variables of Pack; [pk_pending] are the refs of the Secret that is
    being filled. *)
Record packState := mkPack {
  pk_result : PackResult;
  pk_data : gmap string string;
  pk_size : Z;
  pk_pending : list ((nat * nat) * string);
}.

Definition pack_init : packState := mkPack (mkPackResult [] ∅) ∅ 0 [].

(** finalizeCurrent *)
Definition finalizeCurrent (st : packState) : packState :=
  if decide (pk_data st = ∅) then st
  else
    let secret := newSecret (pk_data st) in
    let refs := fold_left (fun m pr => <[pr.1 := mkSourceRef (sec_Name secret) (SystemNamespace p) pr.2]> m)
                  (pk_pending st) (Refs (pk_result st)) in
    mkPack (mkPackResult (Secrets (pk_result st) ++ [secret]) refs) ∅ 0 [].

(** The bytes stored for an object: its JSON, compressed when it is large. *)
Definition encode_object (phaseIdx objIdx : nat) (obj : gmap string json) : result string :=
  let at_ := " object in phase " +:+ fmt_d (Z.of_nat phaseIdx) +:+ " index " +:+ fmt_d (Z.of_nat objIdx) in
  match json_Marshal obj with
  | inl err => inl (EWrap ("serializing" +:+ at_ +:+ ": ") err "")
  | inr data =>
      match (if gzipThreshold <? slen data then gzipData data else inr data) with
      | inl cErr => inl (EWrap ("compressing" +:+ at_ +:+ ": ") cErr "")
      | inr data =>
          if maxSecretDataSize <? slen data then
            inl (ENew ("object in phase " +:+ fmt_d (Z.of_nat phaseIdx) +:+ " index " +:+ fmt_d (Z.of_nat objIdx) +:+
                       " exceeds maximum Secret data size (" +:+ fmt_d (slen data) +:+ " bytes > " +:+
                       fmt_d maxSecretDataSize +:+ " bytes) even after compression"))
          else inr data
      end
  end.

(** Storing encoded data at a position. *)
Definition add_data (pos : nat * nat) (data : string) (st : packState) : packState :=
  let key := contentHash data in
  let st :=
    match pk_data st !! key with
    | Some _ => st
    | None =>
        let st := if (maxSecretDataSize <? pk_size st + slen data) && bool_decide (pk_data st <> ∅)
                  then finalizeCurrent st else st in
        mkPack (pk_result st) (<[key := data]> (pk_data st)) (pk_size st + slen data) (pk_pending st)
    end in
  mkPack (pk_result st) (pk_data st) (pk_size st) (pk_pending st ++ [(pos, key)]).

(** The body of the loop over the objects of a phase. *)
Definition pack_object (phaseIdx objIdx : nat) (obj : ClusterObjectSetObject) (st : packState)
  : result packState :=
  match u_Object (oo_Object obj) with
  | None => inr st
  | Some content =>
      match encode_object phaseIdx objIdx content with
      | inl err => inl err
      | inr data => inr (add_data (phaseIdx, objIdx) data st)
      end
  end.

Fixpoint pack_objects (phaseIdx objIdx : nat) (objs : list ClusterObjectSetObject) (st : packState)
  : result packState :=
  match objs with
  | [] => inr st
  | obj :: rest =>
      match pack_object phaseIdx objIdx obj st with
      | inl err => inl err
      | inr st => pack_objects phaseIdx (S objIdx) rest st
      end
  end.

Fixpoint pack_phases (phaseIdx : nat) (phases : list ClusterObjectSetPhase) (st : packState) : result packState :=
  match phases with
  | [] => inr st
  | phase :: rest =>
      match pack_objects phaseIdx 0 (ph_Objects phase) st with
      | inl err => inl err
      | inr st => pack_phases (S phaseIdx) rest st
      end
  end.

(** func (p *SecretPacker) Pack(phases) *)
Definition Pack (phases : list ClusterObjectSetPhase) : result PackResult :=
  match pack_phases 0 phases pack_init with
  | inl err => inl err
  | inr st => inr (pk_result (finalizeCurrent st))
  end.

(** ** Reading the objects back (clusterobjectset_controller.go) *)

Definition maxDecompressedSize : Z := 10 * 1024 * 1024.

(** The part of resolveObjectRef after the Secret's data was read. *)
Definition decode_object (ref : ObjectSourceRef) (data : string) : result Unstructured :=
  let at_ := "key " +:+ fmt_q (osr_Key ref) +:+ " in Secret " +:+ osr_Namespace ref +:+ "/" +:+ osr_Name ref in
  match (if is_gzip data then
           match gzip_read (maxDecompressedSize + 1) data with
           | inl err => inl (EWrap ("creating gzip reader for " +:+ at_ +:+ ": ") err "")
           | inr (inl err) => inl (EWrap ("decompressing " +:+ at_ +:+ ": ") err "")
           | inr (inr decompressed) =>
               if maxDecompressedSize <? slen decompressed then
                 inl (ENew ("decompressed data for " +:+ at_ +:+ " exceeds maximum size (" +:+
                            fmt_d maxDecompressedSize +:+ " bytes)"))
               else inr decompressed
           end
         else inr data) with
  | inl err => inl err
  | inr data =>
      match json_Unmarshal data with
      | inl err => inl (EWrap ("unmarshaling object from " +:+ at_ +:+ ": ") err "")
      | inr m => inr (mkUnstr m)
      end
  end.

(** func (c *ClusterObjectSetReconciler) resolveObjectRef(ctx, ref) *)
Definition resolveObjectRef (get : string -> string -> result Secret) (ref : ObjectSourceRef)
  : result Unstructured :=
  match get (osr_Namespace ref) (osr_Name ref) with
  | inl err => inl (EWrap ("getting Secret " +:+ osr_Namespace ref +:+ "/" +:+ osr_Name ref +:+ ": ") err "")
  | inr secret =>
      match sec_Data secret !! osr_Key ref with
      | None => inl (ENew ("key " +:+ fmt_q (osr_Key ref) +:+ " not found in Secret " +:+
                           osr_Namespace ref +:+ "/" +:+ osr_Name ref))
      | Some data => decode_object ref data
      end
  end.

End Packing.
