(* ===== verification/PackProps.v ===== *)
(** * Properties of packing

    The Secrets stay within their size limit, and every object is found again,
    unchanged, through the reference that replaces it. *)

From Stdlib Require Import Ascii.
From S2P Require Import Prelude GoErrors ApiTypes Phase SecretPacker Instances ObjectInstances.

Section Packing.
Context `{CO : Codec} (p : SecretPacker).

(** The total size of the values of a Secret. *)
Definition data_size (m : gmap string string) : Z := map_fold (fun _ d n => slen d + n) 0 m.

Lemma data_size_insert k d m : m !! k = None -> data_size (<[k := d]> m) = slen d + data_size m.
Proof.
  intros H. unfold data_size. rewrite map_fold_insert_L; [done| |done]. intros. lia.
Qed.

(** ** The loop as one pass over the positions *)

Definition position : Type := (nat * nat).

Fixpoint object_positions (i j : nat) (objs : list ClusterObjectSetObject)
  : list (nat * nat * ClusterObjectSetObject) :=
  match objs with
  | [] => []
  | o :: objs => (i, j, o) :: object_positions i (S j) objs
  end.

Fixpoint positions (i : nat) (phases : list ClusterObjectSetPhase) : list (nat * nat * ClusterObjectSetObject) :=
  match phases with
  | [] => []
  | ph :: phases => object_positions i 0 (ph_Objects ph) ++ positions (S i) phases
  end.

Fixpoint pack_all (l : list (nat * nat * ClusterObjectSetObject)) (st : packState) : result packState :=
  match l with
  | [] => inr st
  | (i, j, o) :: l =>
      match pack_object p i j o st with
      | inl err => inl err
      | inr st => pack_all l st
      end
  end.

Lemma pack_all_app l1 l2 st :
  pack_all (l1 ++ l2) st = match pack_all l1 st with inl e => inl e | inr st => pack_all l2 st end.
Proof.
  revert st. induction l1 as [|[[i j] o] l1 IH]; intros st; simpl; [done|].
  destruct (pack_object p i j o st); [done|apply IH].
Qed.

Lemma pack_objects_all i j objs st : pack_objects p i j objs st = pack_all (object_positions i j objs) st.
Proof.
  revert j st. induction objs as [|o objs IH]; intros j st; simpl; [done|].
  destruct (pack_object p i j o st); [done|apply IH].
Qed.

Lemma pack_phases_all i phases st : pack_phases p i phases st = pack_all (positions i phases) st.
Proof.
  revert i st. induction phases as [|ph phases IH]; intros i st; simpl; [done|].
  rewrite pack_all_app, <- pack_objects_all. destruct (pack_objects p i 0 _ st); [done|apply IH].
Qed.

Lemma object_positions_elem i j objs a b o :
  (a, b, o) ∈ object_positions i j objs <-> a = i /\ (j <= b)%nat /\ objs !! (b - j)%nat = Some o.
Proof.
  revert j. induction objs as [|x objs IH]; intros j; simpl.
  { split; [by intros ?%not_elem_of_nil|]. by intros (_ & _ & H). }
  rewrite elem_of_cons, IH. split.
  - intros [[= -> -> ->]|(-> & Hle & Hl)].
    + by rewrite Nat.sub_diag.
    + split; [done|]. split; [lia|]. replace (b - j)%nat with (S (b - S j)) by lia. done.
  - intros (-> & Hle & Hl). destruct (decide (b = j)) as [->|Hn].
    + rewrite Nat.sub_diag in Hl. inversion Hl. by left.
    + right. split; [done|]. split; [lia|]. by replace (b - j)%nat with (S (b - S j)) in Hl by lia.
Qed.

Lemma positions_elem i phases a b o :
  (a, b, o) ∈ positions i phases <->
  (i <= a)%nat /\ exists ph, phases !! (a - i)%nat = Some ph /\ ph_Objects ph !! b = Some o.
Proof.
  revert i. induction phases as [|ph phases IH]; intros i; simpl.
  { split; [by intros ?%not_elem_of_nil|]. by intros (_ & x & H & _). }
  rewrite elem_of_app, object_positions_elem, IH, Nat.sub_0_r. split.
  - intros [(-> & _ & Ho)|(Hle & x & Hx & Ho)].
    + rewrite Nat.sub_diag. split; [lia|]. by exists ph.
    + split; [lia|]. exists x. split; [|done]. by replace (a - i)%nat with (S (a - S i)) by lia.
  - intros (Hle & x & Hx & Ho). destruct (decide (a = i)) as [->|Hn].
    + rewrite Nat.sub_diag in Hx. inversion Hx; subst x. left. split; [done|]. split; [lia|done].
    + right. split; [lia|]. exists x. split; [|done]. by replace (a - i)%nat with (S (a - S i)) in Hx by lia.
Qed.

Lemma positions_NoDup i phases : NoDup (map fst (positions i phases)).
Proof.
  assert (Ho : forall objs a j, NoDup (map fst (object_positions a j objs))).
  { induction objs as [|o objs IH]; intros a j; simpl; constructor; [|apply IH].
    intros ([[x y] z] & [= -> ->] & Hin)%list_elem_of_fmap.
    apply object_positions_elem in Hin as (_ & Hle & _). lia. }
  revert i. induction phases as [|ph phases IH]; intros i; simpl; [constructor|].
  rewrite map_app. apply NoDup_app. split; [apply Ho|]. split; [|apply IH].
  intros q ([[x y] z] & -> & H1)%list_elem_of_fmap ([[x' y'] z'] & [= -> ->] & H2)%list_elem_of_fmap.
  apply object_positions_elem in H1 as (-> & _). apply positions_elem in H2 as (Hle & _). simpl in *. lia.
Qed.

(** ** The invariant of the loop *)

(** The data of [x] can be found through the reference at its position. *)
Definition stored (r : PackResult) (x : nat * nat * string) : Prop :=
  exists ref sec, Refs r !! x.1 = Some ref /\ sec ∈ Secrets r /\
    osr_Name ref = sec_Name sec /\ osr_Namespace ref = sec_Namespace sec /\
    osr_Key ref = contentHash x.2 /\ sec_Data sec !! osr_Key ref = Some x.2.

Definition pending_of (x : nat * nat * string) : nat * nat * string := (x.1, contentHash x.2).

Record pack_inv (encs : list (nat * nat * string)) (st : packState) : Prop := {
  pi_size : pk_size st = data_size (pk_data st);
  pi_bound : pk_size st <= maxSecretDataSize;
  pi_secrets : forall s, s ∈ Secrets (pk_result st) ->
    data_size (sec_Data s) <= maxSecretDataSize /\ s = newSecret p (sec_Data s);
  pi_data : forall k d, pk_data st !! k = Some d -> k = contentHash d /\ d ∈ map snd encs;
  pi_split : exists stored_, exists waiting, encs = stored_ ++ waiting /\
    pk_pending st = map pending_of waiting /\ Forall (stored (pk_result st)) stored_ /\
    Forall (fun x => pk_data st !! contentHash x.2 = Some x.2) waiting;
}.

Lemma pack_inv_init : pack_inv [] pack_init.
Proof.
  split; simpl.
  - done.
  - unfold maxSecretDataSize. lia.
  - intros s Hs. by apply not_elem_of_nil in Hs.
  - intros k d. by rewrite lookup_empty.
  - by exists [], [].
Qed.

Lemma refs_fold (name ns : string) (l : list (nat * nat * string)) (m : gmap (nat * nat) ObjectSourceRef) q :
  NoDup (map fst l) ->
  fold_left (fun m pr => <[pr.1 := mkSourceRef name ns pr.2]> m) l m !! q =
  match list_find (fun pr => pr.1 = q) l with
  | Some (_, pr) => Some (mkSourceRef name ns pr.2)
  | None => m !! q
  end.
Proof.
  revert m. induction l as [|[a k] l IH]; intros m Hn; cbn [fold_left map fst list_find]; [done|].
  cbn [map fst] in Hn. apply NoDup_cons in Hn as [Ha Hn]. rewrite IH by done.
  destruct (decide (a = q)) as [->|Hne].
  - destruct (list_find (fun pr => pr.1 = q) l) as [[i [q' k']]|] eqn:E; [|by rewrite lookup_insert_eq].
    apply list_find_Some in E as (Hl & Hq & _). simpl in Hq. subst q'. exfalso. apply Ha.
    apply list_elem_of_fmap. exists (q, k'). split; [done|]. by eapply list_elem_of_lookup_2.
  - rewrite lookup_insert_ne by done.
    by destruct (list_find (fun pr => pr.1 = q) l) as [[i pr]|].
Qed.

Lemma map_fst_pending l : map fst (map pending_of l) = map fst l.
Proof. rewrite map_map. by apply map_ext. Qed.

(** Finalizing a Secret turns the waiting references into stored ones. *)
Lemma finalize_inv encs st :
  NoDup (map fst encs) -> pack_inv encs st ->
  pack_inv encs (finalizeCurrent p st) /\
  (pk_data st <> ∅ -> pk_data (finalizeCurrent p st) = ∅) /\
  (pk_data (finalizeCurrent p st) = ∅ -> Forall (stored (pk_result (finalizeCurrent p st))) encs).
Proof.
  intros Hnd [Hsize Hbound Hsec Hdata (sto & wait & -> & Hpend & Hsto & Hwait)].
  unfold finalizeCurrent. destruct (decide (pk_data st = ∅)) as [He|Hne].
  - assert (wait = []) as ->.
    { destruct wait as [|x wait]; [done|]. apply Forall_cons in Hwait as [Hx _].
      by rewrite He, lookup_empty in Hx. }
    rewrite app_nil_r in *. split; [|done].
    split; try done. exists sto, []. by rewrite app_nil_r.
  - set (secret := newSecret p (pk_data st)).
    rewrite map_app in Hnd. apply NoDup_app in Hnd as (_ & Hdisj & Hndw).
    assert (Hall : Forall (stored (mkPackResult (Secrets (pk_result st) ++ [secret])
       (fold_left (fun m pr => <[pr.1 := mkSourceRef (sec_Name secret) (SystemNamespace p) pr.2]> m)
          (pk_pending st) (Refs (pk_result st))))) (sto ++ wait)).
    { rewrite Hpend. apply Forall_app. split; rewrite Forall_forall in *; intros x Hx.
      - destruct (Hsto x Hx) as (ref & sec & Hr & Hs & Hrest). exists ref, sec. cbn [Refs Secrets].
        split; [|split; [set_solver|done]].
        rewrite refs_fold by (rewrite map_fst_pending; done).
        destruct (list_find _ _) as [[i pr]|] eqn:E; [|done].
        apply list_find_Some in E as (Hl & Hq & _). exfalso. apply (Hdisj x.1).
        + apply list_elem_of_fmap. by exists x.
        + rewrite <- map_fst_pending. apply list_elem_of_fmap. exists pr. split; [done|].
          by eapply list_elem_of_lookup_2.
      - exists (mkSourceRef (sec_Name secret) (SystemNamespace p) (contentHash x.2)), secret. cbn [Refs Secrets].
        split; [|split; [set_solver|]].
        + rewrite refs_fold by (rewrite map_fst_pending; done).
          assert (Hin : pending_of x ∈ map pending_of wait) by (apply list_elem_of_fmap; by exists x).
          destruct (list_find (fun pr => pr.1 = x.1) (map pending_of wait)) as [[i pr]|] eqn:E.
          * apply list_find_Some in E as (Hl & Hq & _). do 2 f_equal.
            apply list_elem_of_lookup_2 in Hl. rewrite <- map_fst_pending in Hndw.
            assert (pr = pending_of x) as ->; [|done].
            by eapply NoDup_fst_unique.
          * exfalso. apply list_find_None in E. rewrite Forall_forall in E. by apply (E _ Hin).
        + cbn. do 3 (split; [done|]). by apply Hwait. }
    split; [|split; [done|done]]. split; cbn [pk_result pk_data pk_size pk_pending Secrets].
    + done.
    + unfold maxSecretDataSize. lia.
    + intros s [Hs| ->%list_elem_of_singleton]%elem_of_app; [by apply Hsec|]. split; [|done].
      cbn. lia.
    + intros k d. by rewrite lookup_empty.
    + exists (sto ++ wait), []. by rewrite app_nil_r.
Qed.


(** Distinct contents have distinct hashes. *)
Definition no_collision (ds : list string) : Prop :=
  forall a b, a ∈ ds -> b ∈ ds -> contentHash a = contentHash b -> a = b.

Lemma add_data_inv encs st pos data :
  NoDup (map fst (encs ++ [(pos, data)])) -> no_collision (map snd (encs ++ [(pos, data)])) ->
  slen data <= maxSecretDataSize -> pack_inv encs st ->
  pack_inv (encs ++ [(pos, data)]) (add_data p pos data st).
Proof.
  intros Hnd Hnc Hlen Hinv. set (x := (pos, data)).
  assert (Hnde : NoDup (map fst encs)) by (rewrite map_app in Hnd; by apply NoDup_app in Hnd as (? & _)).
  assert (Hsub : forall d, d ∈ map snd encs -> d ∈ map snd (encs ++ [x])) by (intros d; rewrite map_app; set_solver).
  assert (Hxin : data ∈ map snd (encs ++ [x])) by (rewrite map_app; set_solver).
  unfold add_data. cbv zeta. destruct (pk_data st !! contentHash data) as [d|] eqn:Ek.
  - destruct Hinv as [Hsize Hbound Hsec Hdata (sto & wait & He & Hpend & Hsto & Hwait)].
    destruct (Hdata _ _ Ek) as [Hk Hd]. assert (d = data) as -> by (apply Hnc; auto).
    split; cbn [pk_result pk_data pk_size pk_pending]; try done.
    + intros k d Hkd. destruct (Hdata k d Hkd). split; [done|]. auto.
    + exists sto, (wait ++ [x]). rewrite He, map_app, Hpend, <- app_assoc. split; [done|]. split; [done|].
      split; [done|]. apply Forall_app. split; [done|]. by constructor.
  - set (st1 := if _ && _ then finalizeCurrent p st else st).
    assert (H1 : pack_inv encs st1 /\ pk_data st1 !! contentHash data = None /\
                 pk_size st1 + slen data <= maxSecretDataSize).
    { unfold st1. destruct ((maxSecretDataSize <? _) && _) eqn:Ef.
      - apply andb_true_iff in Ef as [_ Hne%bool_decide_eq_true].
        destruct (finalize_inv encs st Hnde Hinv) as (Hi & Hempty & _). specialize (Hempty Hne).
        split; [done|]. split; [by rewrite Hempty, lookup_empty|].
        destruct Hi as [Hs _ _ _ _]. rewrite Hs, Hempty. unfold data_size. rewrite map_fold_empty. lia.
      - split; [done|]. split; [done|].
        apply andb_false_iff in Ef as [Hlt|Hne%bool_decide_eq_false].
        + apply Z.ltb_ge in Hlt. lia.
        + destruct Hinv as [Hs _ _ _ _]. rewrite Hs.
          destruct (decide (pk_data st = ∅)) as [->|Hn]; [|by destruct Hne].
          unfold data_size. rewrite map_fold_empty. lia. }
    destruct H1 as ([Hsize Hbound Hsec Hdata (sto & wait & He & Hpend & Hsto & Hwait)] & Hnone & Hfit).
    split; cbn [pk_result pk_data pk_size pk_pending]; try done.
    + rewrite data_size_insert by done. lia.
    + intros k d. destruct (decide (contentHash data = k)) as [<-|Hne].
      * rewrite lookup_insert_eq. by intros [= <-].
      * rewrite lookup_insert_ne by done. intros Hkd. destruct (Hdata k d Hkd). auto.
    + exists sto, (wait ++ [x]). rewrite He, map_app, Hpend, <- app_assoc. split; [done|]. split; [done|].
      split; [done|]. apply Forall_app. split.
      * rewrite Forall_forall in *. intros y Hy. specialize (Hwait y Hy).
        rewrite lookup_insert_ne; [done|]. intros E. rewrite E in Hnone. congruence.
      * constructor; [|done]. cbn. by rewrite lookup_insert_eq.
Qed.

(** What the packed positions hold. *)
Definition encodings (l : list (nat * nat * ClusterObjectSetObject)) : list (nat * nat * string) :=
  omap (fun x => match u_Object (oo_Object x.2) with
                 | Some m => match encode_object x.1.1 x.1.2 m with inr d => Some (x.1, d) | inl _ => None end
                 | None => None
                 end) l.

Lemma encodings_app l1 l2 : encodings (l1 ++ l2) = encodings l1 ++ encodings l2.
Proof. apply omap_app. Qed.

Lemma encodings_fst l q : q ∈ map fst (encodings l) -> q ∈ map fst l.
Proof.
  intros (x & -> & (y & Hy & Hx)%list_elem_of_omap)%list_elem_of_fmap. apply list_elem_of_fmap. exists y.
  split; [|done]. destruct (u_Object _) as [m|]; [|done]. destruct (encode_object _ _ _); [done|].
  by inversion Hx.
Qed.

Lemma encodings_NoDup l : NoDup (map fst l) -> NoDup (map fst (encodings l)).
Proof.
  induction l as [|x l IH]; cbn [map]; [intros _; constructor|]. intros [Hx Hn]%NoDup_cons.
  specialize (IH Hn). unfold encodings. cbn [omap list_omap]. fold (encodings l).
  destruct (u_Object _) as [m|]; [|done]. destruct (encode_object _ _ _) as [e|d]; [done|].
  cbn [map fst]. apply NoDup_cons. split; [|done]. intros ?%encodings_fst. done.
Qed.

Lemma encode_bound i j m d : encode_object i j m = inr d -> slen d <= maxSecretDataSize.
Proof.
  unfold encode_object. destruct (json_Marshal m) as [|d0]; [done|].
  destruct (if gzipThreshold <? slen d0 then _ else _) as [|d1]; [done|].
  destruct (Z.ltb_spec maxSecretDataSize (slen d1)); [done|]. by intros [= <-].
Qed.

Lemma pack_all_inv l done_ st st' :
  NoDup (map fst (done_ ++ l)) -> no_collision (map snd (encodings (done_ ++ l))) ->
  pack_inv (encodings done_) st -> pack_all l st = inr st' ->
  pack_inv (encodings (done_ ++ l)) st'.
Proof.
  revert done_ st. induction l as [|[[i j] o] l IH]; intros done_ st Hnd Hnc Hinv Hp; simpl in Hp.
  { inversion Hp; subst. by rewrite app_nil_r. }
  replace (done_ ++ (i, j, o) :: l) with ((done_ ++ [(i, j, o)]) ++ l) in * by by rewrite <- app_assoc.
  destruct (pack_object p i j o st) as [e|st1] eqn:Eo; [done|]. eapply IH; [done|done| |exact Hp].
  rewrite encodings_app. unfold pack_object in Eo. unfold encodings at 2. cbn [omap list_omap fst snd].
  destruct (u_Object (oo_Object o)) as [m|] eqn:Em; [|inversion Eo; subst; by rewrite app_nil_r].
  destruct (encode_object i j m) as [e|d] eqn:Ed; [done|]. inversion Eo; subst st1.
  assert (Hone : encodings [(i, j, o)] = [(i, j, d)]).
  { unfold encodings. cbn [omap list_omap fst snd]. by rewrite Em, Ed. }
  rewrite !encodings_app, Hone in Hnc. rewrite !map_app in Hnc.
  apply add_data_inv; [| |by eapply encode_bound|done].
  - rewrite map_app in Hnd. apply NoDup_app in Hnd as (Hnd & _).
    apply encodings_NoDup in Hnd. by rewrite encodings_app, Hone in Hnd.
  - intros a b Ha Hb. rewrite map_app in Ha, Hb. apply Hnc; set_solver.
Qed.

(** What a successful Pack guarantees. *)
Lemma Pack_inv phases res :
  no_collision (map snd (encodings (positions 0 phases))) -> Pack p phases = inr res ->
  (forall s, s ∈ Secrets res -> data_size (sec_Data s) <= maxSecretDataSize /\ s = newSecret p (sec_Data s)) /\
  Forall (stored res) (encodings (positions 0 phases)).
Proof.
  intros Hnc. unfold Pack. rewrite pack_phases_all.
  destruct (pack_all (positions 0 phases) pack_init) as [e|st] eqn:E; [done|]. intros [= <-].
  assert (Hinv : pack_inv (encodings ([] ++ positions 0 phases)) st).
  { eapply pack_all_inv; [apply positions_NoDup|exact Hnc|apply pack_inv_init|exact E]. }
  cbn [app] in Hinv.
  pose proof (encodings_NoDup _ (positions_NoDup 0 phases)) as Hnd.
  destruct (finalize_inv _ _ Hnd Hinv) as ([_ _ Hsec _ _] & Hempty & Hall). split; [exact Hsec|].
  apply Hall. destruct (decide (pk_data st = ∅)) as [He|Hne]; [|by apply Hempty].
  unfold finalizeCurrent. by rewrite decide_True.
Qed.

(** Every object of a successful Pack could be encoded. *)
Lemma pack_all_encoded l st st' i j o m :
  pack_all l st = inr st' -> (i, j, o) ∈ l -> u_Object (oo_Object o) = Some m ->
  exists d, encode_object i j m = inr d.
Proof.
  revert st. induction l as [|[[a b] x] l IH]; intros st Hp Hin Hm; simpl in Hp; [by apply not_elem_of_nil in Hin|].
  destruct (pack_object p a b x st) as [e|st1] eqn:Eo; [done|].
  apply elem_of_cons in Hin as [[= <- <- <-]|Hin]; [|by eapply IH].
  unfold pack_object in Eo. rewrite Hm in Eo. destruct (encode_object i j m) as [|d]; [done|eauto].
Qed.

Lemma decode_encode i j m d ref :
  encode_object i j m = inr d -> representable m = true ->
  (forall raw, json_Marshal m = inr raw -> slen raw <= maxDecompressedSize) ->
  decode_object ref d = inr (mkUnstr (Some m)).
Proof.
  unfold encode_object, decode_object. destruct (json_Marshal m) as [|raw] eqn:Em; [done|].
  intros H Hr Hsz. specialize (Hsz raw eq_refl). pose proof (unmarshal_marshal m raw Em Hr) as Hu.
  destruct (gzipThreshold <? slen raw).
  - unfold gzipData in H. destruct (gzip_compress raw) as [|c] eqn:Ec; [done|].
    destruct (maxSecretDataSize <? slen c); [done|]. inversion H; subst d.
    rewrite (gzip_magic _ _ Ec), (gunzip_gzip _ _ _ Ec), str_takeZ_all by lia.
    destruct (Z.ltb_spec maxDecompressedSize (slen raw)); [lia|]. by rewrite Hu.
  - destruct (maxSecretDataSize <? slen raw); [done|]. inversion H; subst d.
    rewrite (marshal_plain _ _ Em). by rewrite Hu.
Qed.

(** Where Pack left an object, and that it can be decoded from there. *)
Lemma Pack_stored phases res i j ph obj m :
  no_collision (map snd (encodings (positions 0 phases))) -> Pack p phases = inr res ->
  phases !! i = Some ph -> ph_Objects ph !! j = Some obj -> u_Object (oo_Object obj) = Some m ->
  representable m = true -> (forall raw, json_Marshal m = inr raw -> slen raw <= maxDecompressedSize) ->
  exists ref s d, Refs res !! (i, j) = Some ref /\ s ∈ Secrets res /\
    osr_Name ref = sec_Name s /\ osr_Namespace ref = sec_Namespace s /\
    sec_Data s !! osr_Key ref = Some d /\ decode_object ref d = inr (oo_Object obj).
Proof.
  intros Hnc Hp Hph Hobj Hm Hr Hsz.
  assert (Hpos : (i, j, obj) ∈ positions 0 phases).
  { apply positions_elem. split; [lia|]. exists ph. by rewrite Nat.sub_0_r. }
  destruct (Pack_inv phases res Hnc Hp) as [_ Hall]. rewrite Forall_forall in Hall.
  unfold Pack in Hp. rewrite pack_phases_all in Hp.
  destruct (pack_all (positions 0 phases) pack_init) as [e|st] eqn:E; [done|].
  destruct (pack_all_encoded _ _ _ _ _ _ _ E Hpos Hm) as [d Hd].
  assert (Hin : (i, j, d) ∈ encodings (positions 0 phases)).
  { apply list_elem_of_omap. exists (i, j, obj). split; [done|]. cbn. by rewrite Hm, Hd. }
  destruct (Hall _ Hin) as (ref & s & Href & Hs & Hn & Hns & Hk & Hdata). cbn in *.
  exists ref, s, d. do 5 (split; [done|]).
  rewrite (decode_encode i j m d ref Hd Hr Hsz). destruct (oo_Object obj); cbn in Hm; by subst.
Qed.

(** The Secrets a revision is packed into respect the size limit: the data
    of each is at most 900 KiB, and each is the immutable, labelled Secret
    named after its content in the system namespace. *)
Theorem Pack_bounded phases res s :
  no_collision (map snd (encodings (positions 0 phases))) -> Pack p phases = inr res -> s ∈ Secrets res ->
  data_size (sec_Data s) <= maxSecretDataSize /\ sec_Name s = secretNameFromData p (sec_Data s) /\
  sec_Namespace s = SystemNamespace p /\ sec_Immutable s = true /\
  sec_Labels s !! RevisionNameKey = Some (RevisionName p).
Proof.
  intros Hnc Hp Hs. destruct (Pack_inv phases res Hnc Hp) as [H _]. destruct (H s Hs) as [Hb ->].
  split; [done|]. cbn. by rewrite lookup_insert_eq.
Qed.

(** C26. Nothing is lost by externalizing: after a successful Pack the object at
    every position is reachable through the reference recorded for that
    position, and reading that reference from the packed Secret gives the very
    object back (for contents whose numbers JSON keeps exactly and whose text
    is at most 10 MiB, and unless SHA-256 collides). *)
Theorem Pack_resolve_roundtrip phases res i j ph obj m :
  no_collision (map snd (encodings (positions 0 phases))) -> Pack p phases = inr res ->
  phases !! i = Some ph -> ph_Objects ph !! j = Some obj -> u_Object (oo_Object obj) = Some m ->
  representable m = true -> (forall raw, json_Marshal m = inr raw -> slen raw <= maxDecompressedSize) ->
  exists ref s, Refs res !! (i, j) = Some ref /\ s ∈ Secrets res /\
    osr_Name ref = sec_Name s /\ osr_Namespace ref = sec_Namespace s /\
    forall get, get (osr_Namespace ref) (osr_Name ref) = inr s ->
      resolveObjectRef get ref = inr (oo_Object obj).
Proof.
  intros Hnc Hp Hph Hobj Hm Hr Hsz.
  destruct (Pack_stored phases res i j ph obj m Hnc Hp Hph Hobj Hm Hr Hsz)
    as (ref & s & d & Href & Hs & Hn & Hns & Hdata & Hdec).
  exists ref, s. do 4 (split; [done|]). intros get Hget. unfold resolveObjectRef. by rewrite Hget, Hdata.
Qed.

(** Packing accepts objects that can never be applied: an object whose JSON
    is larger than 10 MiB but compresses below 900 KiB is packed without
    error, and reading it back fails. *)
Theorem Pack_accepts_unreadable_object name m raw c obj :
  u_Object (oo_Object obj) = Some m -> json_Marshal m = inr raw ->
  maxDecompressedSize < slen raw -> gzip_compress raw = inr c -> slen c <= maxSecretDataSize ->
  exists res ref s, Pack p [mkCOSPhase name [obj] EmptyString] = inr res /\
    Refs res !! (0%nat, 0%nat) = Some ref /\ s ∈ Secrets res /\ osr_Name ref = sec_Name s /\
    forall get, get (osr_Namespace ref) (osr_Name ref) = inr s ->
      exists err, resolveObjectRef get ref = inl err.
Proof.
  intros Hm Hj Hbig Hz Hc.
  assert (Henc : encode_object 0 0 m = inr c).
  { unfold encode_object, gzipData. rewrite Hj.
    destruct (Z.ltb_spec gzipThreshold (slen raw)); [|unfold gzipThreshold, maxDecompressedSize in *; lia].
    rewrite Hz. destruct (Z.ltb_spec maxSecretDataSize (slen c)); [lia|done]. }
  assert (Hres : exists res, Pack p [mkCOSPhase name [obj] EmptyString] = inr res).
  { unfold Pack. cbn [pack_phases ph_Objects pack_objects]. unfold pack_object. rewrite Hm, Henc. eauto. }
  destruct Hres as [res Hres].
  assert (Hencs : encodings (positions 0 [mkCOSPhase name [obj] EmptyString]) = [(0%nat, 0%nat, c)]).
  { unfold encodings. cbn -[encode_object]. by rewrite Hm, Henc. }
  destruct (Pack_inv [mkCOSPhase name [obj] EmptyString] res) as [_ Hall]; [|done|].
  { rewrite Hencs. intros a b. cbn. by intros ->%list_elem_of_singleton ->%list_elem_of_singleton. }
  rewrite Hencs in Hall. apply Forall_cons in Hall as [(ref & s & Href & Hs & Hn & Hns & Hk & Hd) _]. cbn in *.
  exists res, ref, s. do 4 (split; [done|]). intros get Hget. unfold resolveObjectRef. rewrite Hget, Hd.
  unfold decode_object. rewrite (gzip_magic _ _ Hz), (gunzip_gzip _ _ _ Hz).
  assert (Hlen : maxDecompressedSize < slen (str_takeZ (maxDecompressedSize + 1) raw)).
  { rewrite str_takeZ_length by (unfold maxDecompressedSize; lia). lia. }
  destruct (Z.ltb_spec maxDecompressedSize (slen (str_takeZ (maxDecompressedSize + 1) raw))); [eauto|lia].
Qed.

End Packing.

(** ** Sample codecs *)

Definition deploy_content : gmap string json := content (ac_object sample_deploy).
Definition sa_content : gmap string json := content (ac_object sample_sa).
Definition magic : string := String (ascii_of_nat 31) (String (ascii_of_nat 139) EmptyString).

(** Two objects, hashes that are the data itself, and a gzip that only marks
    its input. *)
#[local] Program Instance codec_sample : Codec := {|
  json_Marshal m := if decide (m = deploy_content) then inr "{deploy}"
                    else if decide (m = sa_content) then inr "{sa}" else inl (ENew "unsupported value");
  json_Unmarshal d := if decide (d = "{deploy}") then inr (Some deploy_content)
                      else if decide (d = "{sa}") then inr (Some sa_content) else inl (ENew "invalid character");
  gzip_compress d := inr (magic +:+ d);
  gzip_read n c := inr (inr (str_takeZ n (str_drop 2 c)));
  sha256_base64url d := d;
  sha256_hex8 d := d;
  representable _ := true;
|}.
Next Obligation.
  intros m d. cbv beta. destruct (decide (m = deploy_content)) as [->|]; [by intros [= <-] _|].
  destruct (decide (m = sa_content)) as [->|]; [by intros [= <-] _|done].
Qed.
Next Obligation.
  intros m d. cbv beta. destruct (decide (m = deploy_content)); [by intros [= <-]|].
  by destruct (decide (m = sa_content)); [intros [= <-]|].
Qed.
Next Obligation. by intros d c n [= <-]. Qed.
Next Obligation. by intros d c [= <-]. Qed.

Definition sample_packer : SecretPacker := mkPacker "ext-1" "ext" "olmv1-system".
Definition inline (m : gmap string json) : ClusterObjectSetObject :=
  mkCOSObject (mkUnstr (Some m)) (mkSourceRef "" "" "") "".
Definition sample_phases : list ClusterObjectSetPhase :=
  [mkCOSPhase "identity" [inline sa_content] ""; mkCOSPhase "deploy" [inline deploy_content] ""].

Definition sample_pack : PackResult :=
  match Pack sample_packer sample_phases with inr r => r | inl _ => mkPackResult [] ∅ end.

Lemma sample_no_collision : no_collision (map snd (encodings (positions 0 sample_phases))).
Proof. by intros a b _ _ H. Qed.

Lemma Pack_bounded_witness :
  let s := newSecret sample_packer (<["{sa}" := "{sa}"]> (<["{deploy}" := "{deploy}"]> ∅)) in
  data_size (sec_Data s) <= maxSecretDataSize /\ sec_Name s = secretNameFromData sample_packer (sec_Data s) /\
  sec_Namespace s = SystemNamespace sample_packer /\ sec_Immutable s = true /\
  sec_Labels s !! RevisionNameKey = Some (RevisionName sample_packer).
Proof.
  apply (Pack_bounded sample_packer sample_phases sample_pack
           (newSecret sample_packer (<["{sa}" := "{sa}"]> (<["{deploy}" := "{deploy}"]> ∅)))).
  - apply sample_no_collision.
  - vm_compute. reflexivity.
  - apply (list_elem_of_lookup_2 _ 0). vm_compute. reflexivity.
Defined.

Lemma Pack_resolve_roundtrip_witness :
  exists ref s, Refs sample_pack !! (1%nat, 0%nat) = Some ref /\ s ∈ Secrets sample_pack /\
    osr_Name ref = sec_Name s /\ osr_Namespace ref = sec_Namespace s /\
    forall get, get (osr_Namespace ref) (osr_Name ref) = inr s ->
      resolveObjectRef get ref = inr (mkUnstr (Some deploy_content)).
Proof.
  apply (Pack_resolve_roundtrip sample_packer sample_phases sample_pack 1 0
           (mkCOSPhase "deploy" [inline deploy_content] "") (inline deploy_content) deploy_content).
  - apply sample_no_collision.
  - vm_compute. reflexivity.
  - reflexivity.
  - reflexivity.
  - reflexivity.
  - reflexivity.
  - intros raw H. assert (raw = "{deploy}") as -> by (revert H; vm_compute; by intros [= <-]). by vm_compute.
Defined.

(** A codec whose only value encodes to a text above 10 MiB that compresses
    well; the text is never evaluated. *)
Definition big_text : string := long_message (Z.to_nat (maxDecompressedSize + 1)).

Lemma big_text_length : slen big_text = maxDecompressedSize + 1.
Proof. unfold big_text. rewrite long_message_length, Z2Nat.id; [done|]. unfold maxDecompressedSize. lia. Qed.

Lemma big_text_plain : is_gzip big_text = false.
Proof.
  unfold big_text. destruct (Z.to_nat (maxDecompressedSize + 1)) as [|[|n]]; [done..|]. done.
Qed.

Definition big_codec : Codec.
Proof.
  refine {|
    json_Marshal _ := inr big_text;
    json_Unmarshal _ := inl (ENew "not needed");
    gzip_compress d := if decide (d = big_text) then inr (magic +:+ "1") else inr (magic +:+ "0" +:+ d);
    gzip_read n c := if decide (c = magic +:+ "1") then inr (inr (str_takeZ n big_text))
                     else inr (inr (str_takeZ n (str_drop 3 c)));
    sha256_base64url d := d;
    sha256_hex8 d := d;
    representable _ := false;
  |}.
  - done.
  - intros m d [= <-]. apply big_text_plain.
  - intros d c n. destruct (decide (d = big_text)) as [->|Hd]; intros [= <-]; [by rewrite decide_True|].
    by rewrite decide_False.
  - intros d c. by destruct (decide (d = big_text)); intros [= <-].
Defined.

Lemma Pack_accepts_unreadable_object_witness :
  exists res ref s, @Pack big_codec sample_packer [mkCOSPhase "deploy" [inline deploy_content] EmptyString] = inr res /\
    Refs res !! (0%nat, 0%nat) = Some ref /\ s ∈ Secrets res /\ osr_Name ref = sec_Name s /\
    forall get, get (osr_Namespace ref) (osr_Name ref) = inr s ->
      exists err, @resolveObjectRef big_codec get ref = inl err.
Proof.
  apply (@Pack_accepts_unreadable_object big_codec sample_packer "deploy" deploy_content big_text (magic +:+ "1")
           (inline deploy_content)).
  - reflexivity.
  - reflexivity.
  - rewrite big_text_length. lia.
  - cbn. by rewrite decide_True.
  - by vm_compute.
Defined.
