(* ===== verification/RevisionGen.v ===== *)
(** * Generating the revision of a bundle

    src/internal/operator-controller/applier/boxcutter.go: the
    SimpleRevisionGenerator, which turns the manifests of a bundle, or of a
    Helm release, into the apply configuration of a ClusterObjectSet, and
    stripAnnotations of src/internal/shared/util/cache/transform.go.

    A client.Object, its conversion to unstructured content, the scheme, the
    manifest provider and the YAML decoder are arguments.  The configurations
    handled here are those of buildClusterObjectSet, which always sets the
    spec, so that the spec is not optional. *)

From Stdlib Require Import Ascii.
From S2P Require Import Prelude GoErrors ApiTypes Phase ExtSteps.

(** ** Apply configurations of a ClusterObjectSet *)

Record COSSpecAC := mkSpecAC {
  sa_LifecycleState : option string;
  sa_Revision : option Z;
  sa_Phases : list PhaseAC;
  sa_ProgressDeadlineMinutes : option Z;
  sa_ProgressionProbes : list ProgressionProbe;
  sa_CollisionProtection : option string;
}.

Record COSAC := mkCOSAC {
  ca_Name : option string;
  ca_Labels : gmap string string;
  ca_Annotations : gmap string string;
  ca_OwnerReferences : list OwnerReference;
  ca_Spec : COSSpecAC;
}.

#[export] Instance COSSpecAC_eq_dec : EqDecision COSSpecAC.
Proof. solve_decision. Defined.
#[export] Instance COSAC_eq_dec : EqDecision COSAC.
Proof. solve_decision. Defined.

Definition ca_Phases (rev : COSAC) : list PhaseAC := sa_Phases (ca_Spec rev).

(** The builder methods: WithName, WithLabels (adds the entries),
    WithOwnerReferences (appends), and those of the spec. *)
Definition WithSpec (spec : COSSpecAC) (r : COSAC) : COSAC :=
  mkCOSAC (ca_Name r) (ca_Labels r) (ca_Annotations r) (ca_OwnerReferences r) spec.
Definition WithName (n : string) (r : COSAC) : COSAC :=
  mkCOSAC (Some n) (ca_Labels r) (ca_Annotations r) (ca_OwnerReferences r) (ca_Spec r).
Definition WithLabels (l : gmap string string) (r : COSAC) : COSAC :=
  mkCOSAC (ca_Name r) (l ∪ ca_Labels r) (ca_Annotations r) (ca_OwnerReferences r) (ca_Spec r).
Definition WithOwnerReferences (o : list OwnerReference) (r : COSAC) : COSAC :=
  mkCOSAC (ca_Name r) (ca_Labels r) (ca_Annotations r) (ca_OwnerReferences r ++ o) (ca_Spec r).
Definition WithRevision (n : Z) (r : COSAC) : COSAC :=
  let s := ca_Spec r in
  WithSpec (mkSpecAC (sa_LifecycleState s) (Some n) (sa_Phases s) (sa_ProgressDeadlineMinutes s)
              (sa_ProgressionProbes s) (sa_CollisionProtection s)) r.
Definition WithCollisionProtection (cp : string) (r : COSAC) : COSAC :=
  let s := ca_Spec r in
  WithSpec (mkSpecAC (sa_LifecycleState s) (sa_Revision s) (sa_Phases s) (sa_ProgressDeadlineMinutes s)
              (sa_ProgressionProbes s) (Some cp)) r.

(** Assigning to the phases in place. *)
Definition set_phases (ps : list PhaseAC) (r : COSAC) : COSAC :=
  let s := ca_Spec r in
  WithSpec (mkSpecAC (sa_LifecycleState s) (sa_Revision s) ps (sa_ProgressDeadlineMinutes s)
              (sa_ProgressionProbes s) (sa_CollisionProtection s)) r.

(** ** The default probes *)

Definition no_ce : ConditionEqualProbe := mkCEP "" "".
Definition no_fe : FieldsEqualProbe := mkFEP "" "".
Definition no_fv : FieldValueProbe := mkFVP "" "".

Definition condition_equal (t s : string) : Assertion := mkAssertion ProbeTypeConditionEqual (mkCEP t s) no_fe no_fv.
Definition field_value (f v : string) : Assertion := mkAssertion ProbeTypeFieldValue no_ce no_fe (mkFVP f v).

Definition readyConditionAssertion : Assertion := condition_equal "Ready" "True".
Definition availableConditionAssertion : Assertion := condition_equal "Available" "True".
Definition replicasUpdatedAssertion : Assertion :=
  mkAssertion ProbeTypeFieldsEqual no_ce (mkFEP "status.updatedReplicas" "status.replicas") no_fv.

Definition kind_probe (group kind : string) (assertions : list Assertion) : ProgressionProbe :=
  mkProbe (mkObjSelector SelectorTypeGroupKind (mkGK group kind) (mkSelector ∅ [])) assertions.

Definition defaultProgressionProbes : list ProgressionProbe :=
  [kind_probe "apiextensions.k8s.io" "CustomResourceDefinition" [condition_equal "Established" "True"];
   kind_probe "cert-manager.io" "Certificate" [readyConditionAssertion];
   kind_probe "cert-manager.io" "Issuer" [readyConditionAssertion];
   kind_probe "" "Namespace" [field_value "status.phase" "Active"];
   kind_probe "" "PersistentVolumeClaim" [field_value "status.phase" "Bound"];
   kind_probe "apps" "StatefulSet" [replicasUpdatedAssertion; availableConditionAssertion];
   kind_probe "apps" "Deployment" [replicasUpdatedAssertion; availableConditionAssertion]].

(** ** Helpers *)

(** func mergeStringMaps(m1, m2): the entries of m2 win; a nil map has none. *)
Definition mergeStringMaps (m1 : option (gmap string string)) (m2 : gmap string string) : gmap string string :=
  m2 ∪ default ∅ m1.

(** func splitManifestDocuments(file string) []string *)
Definition splitManifestDocuments (file : string) : list string :=
  filter (fun doc => doc <> EmptyString) (map strings_TrimSpace (strings_Split (ascii_of_nat 10) file)).

Definition lastAppliedConfig : string := "kubectl.kubernetes.io/last-applied-configuration".

Definition allowedMetadata : list string := ["annotations"; "labels"; "name"; "namespace"].

(** The loop over allowedMetadata. *)
Definition metadata_sanitized (metadata : gmap string json) : gmap string json :=
  fold_left (fun acc key => match metadata !! key with Some val => <[key := val]> acc | None => acc end)
    allowedMetadata ∅.

(** func sanitizedUnstructured(ctx, unstr) *)
Definition sanitizedUnstructured (unstr : Unstructured) : Unstructured :=
  match u_Object unstr with
  | None => unstr
  | Some obj =>
      let obj := delete "status" obj in
      match obj !! "metadata" with
      | Some (JObj metadata) => mkUnstr (Some (<["metadata" := JObj (metadata_sanitized metadata)]> obj))
      | _ => mkUnstr (Some obj)
      end
  end.

(** source.PropertyOLMProperties *)
Definition PropertyOLMProperties : string := "olm.properties".

(** annotationUpdates: the version and the package, when set. *)
Definition annotation_updates (src : gmap string string) : gmap string string :=
  let put k (m : gmap string string) :=
    if decide (map_get src k = EmptyString) then m else <[k := map_get src k]> m in
  put PackageNameKey (put BundleVersionKey ∅).

Section Generator.
Context `{UA : UnstructuredAPI}.

(** func stripAnnotations(obj interface{}) *)
Definition stripAnnotations (u : Unstructured) : Unstructured :=
  match u_GetAnnotations u with
  | None => u
  | Some annotations =>
      let annotations := delete lastAppliedConfig annotations in
      if decide (annotations = ∅) then u_SetAnnotations None u else u_SetAnnotations (Some annotations) u
  end.

(** What both generators do last with an object. *)
Definition finish_object (src : gmap string string) (u : Unstructured) : Unstructured :=
  let u := sanitizedUnstructured (stripAnnotations u) in
  let annotationUpdates := annotation_updates src in
  if decide (annotationUpdates = ∅) then u
  else u_SetAnnotations (Some (mergeStringMaps (u_GetAnnotations u) annotationUpdates)) u.

(** ocv1ac.ClusterObjectSetObject().WithObject(u) *)
Definition object_ac (u : Unstructured) : ObjectAC := mkObjectAC (Some u) None None.

(** func (r *SimpleRevisionGenerator) buildClusterObjectSet(objects, ext, annotations) *)
Definition buildClusterObjectSet (objects : list ObjectAC) (ext : ClusterExtension)
    (annotations : gmap string string) : COSAC :=
  let annotations :=
    <[ServiceAccountNamespaceKey := es_Namespace (ext_Spec ext)]>
    (<[ServiceAccountNameKey := es_ServiceAccount (ext_Spec ext)]> annotations) in
  let phases := PhaseSort objects in
  let p := es_ProgressDeadlineMinutes (ext_Spec ext) in
  let spec := mkSpecAC (Some LifecycleStateActive) None phases
                (if 0 <? p then Some p else None) defaultProgressionProbes None in
  mkCOSAC (Some EmptyString)
    (<[OwnerKindKey := ClusterExtensionKind]> (<[OwnerNameKey := ext_Name ext]> ∅))
    annotations [] spec.

(** client.Object as the generator uses it: its labels, its kind in the scheme
    and its conversion to unstructured content. *)
Context {Obj : Type} (obj_GetLabels : Obj -> option (gmap string string))
  (obj_SetLabels : option (gmap string string) -> Obj -> Obj)
  (GVKForObject : Obj -> result GroupVersionKind)
  (ToUnstructured : Obj -> result (gmap string json)).

(** One iteration of the loop of GenerateRevision. *)
Definition generate_object (objectLabels revisionAnnotations : gmap string string) (obj : Obj)
  : result ObjectAC :=
  let obj := obj_SetLabels (Some (mergeStringMaps (obj_GetLabels obj) objectLabels)) obj in
  match GVKForObject obj with
  | inl err => inl err
  | inr gvk =>
      match ToUnstructured obj with
      | inl err => inl err
      | inr unstrObj =>
          let unstr := u_SetGroupVersionKind gvk (mkUnstr (Some unstrObj)) in
          inr (object_ac (finish_object revisionAnnotations unstr))
      end
  end.

Fixpoint generate_objects (f : Obj -> result ObjectAC) (plain : list Obj) : result (list ObjectAC) :=
  match plain with
  | [] => inr []
  | obj :: rest =>
      match f obj with
      | inl err => inl err
      | inr o => match generate_objects f rest with inl err => inl err | inr os => inr (o :: os) end
      end
  end.

Context {FS : Type}
  (ManifestProvider_Get : FS -> ClusterExtension -> result (list Obj))
  (getBundleAnnotations : FS -> result (gmap string string)).

(** func (r *SimpleRevisionGenerator) GenerateRevision(ctx, bundleFS, ext, objectLabels, revisionAnnotations) *)
Definition GenerateRevision (bundleFS : FS) (ext : ClusterExtension)
    (objectLabels revisionAnnotations : gmap string string) : result COSAC :=
  match ManifestProvider_Get bundleFS ext with
  | inl err => inl err
  | inr plain =>
      match getBundleAnnotations bundleFS with
      | inl err => inl (EWrap "error getting bundle annotations: " err "")
      | inr bundleAnnotations =>
          let revisionAnnotations :=
            match bundleAnnotations !! PropertyOLMProperties with
            | Some value => <[PropertyOLMProperties := value]> revisionAnnotations
            | None => revisionAnnotations
            end in
          match generate_objects (generate_object objectLabels revisionAnnotations) plain with
          | inl err => inl err
          | inr objs =>
              inr (WithCollisionProtection CollisionProtectionPrevent
                     (buildClusterObjectSet objs ext revisionAnnotations))
          end
      end
  end.

End Generator.

Section HelmGenerator.
Context `{UA : UnstructuredAPI} (yaml_Unmarshal : string -> result Unstructured).

(** One iteration of the loop of GenerateRevisionFromHelmRelease. *)
Definition generate_document (relLabels objectLabels : gmap string string) (doc : string) : result ObjectAC :=
  match yaml_Unmarshal doc with
  | inl err => inl err
  | inr obj =>
      let obj := u_SetLabels (Some (mergeStringMaps (u_GetLabels obj) objectLabels)) obj in
      inr (object_ac (finish_object relLabels obj))
  end.

Definition release_annotations (rel : gmap string string) : gmap string string :=
  <[BundleNameKey := map_get rel BundleNameKey]>
  (<[PackageNameKey := map_get rel PackageNameKey]>
   (<[BundleVersionKey := map_get rel BundleVersionKey]>
    (<[BundleReferenceKey := map_get rel BundleReferenceKey]> ∅))).

(** func (r *SimpleRevisionGenerator) GenerateRevisionFromHelmRelease(ctx, helmRelease, ext, objectLabels) *)
Definition GenerateRevisionFromHelmRelease (helmRelease : HelmRelease) (ext : ClusterExtension)
    (objectLabels : gmap string string) : result COSAC :=
  let docs := splitManifestDocuments (rel_Manifest helmRelease) in
  match generate_objects (generate_document (rel_Labels helmRelease) objectLabels) docs with
  | inl err => inl err
  | inr objs =>
      let rev := buildClusterObjectSet objs ext (release_annotations (rel_Labels helmRelease)) in
      inr (WithCollisionProtection CollisionProtectionNone
             (WithRevision 1 (WithName (ext_Name ext +:+ "-1") rev)))
  end.

End HelmGenerator.
