(* ===== verification/Rbac.v ===== *)
(** * The RBAC pre-authorizer

    src/internal/operator-controller/authorization/rbac.go: whether a user may
    manage the objects of a manifest, and which rules are missing.

    Kubernetes' authorizer, its rule resolver and escalation checks, the REST
    mapper and the YAML decoder answer through [RbacEnv], as the cluster is at
    the time of the call.  Go iterates over a map in any order: [ra_range] is
    that order.  The regular expressions are written as matchers that try the
    choices of their patterns in the order Go's leftmost-first semantics
    prefers. *)

From Stdlib Require Import Ascii.
From S2P Require Import Prelude GoErrors ApiTypes Phase.

(** ** Data *)

(** rbacv1.PolicyRule *)
Record PolicyRule := mkRule {
  pr_Verbs : list string;
  pr_APIGroups : list string;
  pr_Resources : list string;
  pr_ResourceNames : list string;
  pr_NonResourceURLs : list string;
}.

Definition empty_rule : PolicyRule := mkRule [] [] [] [] [].

(** type ScopedPolicyRules struct *)
Record ScopedPolicyRules := mkScoped { sp_Namespace : string; sp_MissingRules : list PolicyRule }.

(** authorizer.AttributesRecord *)
Record AttributesRecord := mkAttributes {
  at_User : string;
  at_Namespace : string;
  at_Name : string;
  at_APIGroup : string;
  at_APIVersion : string;
  at_Resource : string;
  at_Subresource : string;
  at_ResourceRequest : bool;
  at_Path : string;
  at_Verb : string;
}.

(** schema.GroupVersionResource *)
Record GroupVersionResource := mkGVR { gvr_Group : string; gvr_Version : string; gvr_Resource : string }.

#[export] Instance GVR_eq_dec : EqDecision GroupVersionResource.
Proof. solve_decision. Defined.
#[export] Instance GVR_countable : Countable GroupVersionResource.
Proof.
  refine (inj_countable' (fun g => (gvr_Group g, gvr_Version g, gvr_Resource g)) (fun p => mkGVR p.1.1 p.1.2 p.2) _).
  by intros [].
Defined.

(** types.NamespacedName, also client.ObjectKey *)
Record NamespacedName := mkNN { nn_Namespace : string; nn_Name : string }.

#[export] Instance NN_eq_dec : EqDecision NamespacedName.
Proof. solve_decision. Defined.
#[export] Instance NN_countable : Countable NamespacedName.
Proof. refine (inj_countable' (fun n => (nn_Namespace n, nn_Name n)) (fun p => mkNN p.1 p.2) _). by intros []. Defined.

(** The kinds of rbacv1: what the code reads of them. *)
Record RoleRef := mkRoleRef { rr_APIGroup : string; rr_Kind : string; rr_Name : string }.
Record ClusterRole := mkClusterRole {
  cr_Key : NamespacedName;
  cr_Rules : list PolicyRule;
  cr_AggregationRule : option (list LabelSelector);      (* ClusterRoleSelectors *)
}.
Record Role := mkRole { ro_Key : NamespacedName; ro_Rules : list PolicyRule }.
Record ClusterRoleBinding := mkCRB { crb_Key : NamespacedName; crb_RoleRef : RoleRef }.
Record RoleBinding := mkRB { rb_Key : NamespacedName; rb_RoleRef : RoleRef }.

(** client.Object, as rbacObjects returns it. *)
Inductive rbac_object :=
| OClusterRole (o : ClusterRole)
| ORole (o : Role)
| OClusterRoleBinding (o : ClusterRoleBinding)
| ORoleBinding (o : RoleBinding).

Definition rbac_key (o : rbac_object) : NamespacedName :=
  match o with
  | OClusterRole o => cr_Key o
  | ORole o => ro_Key o
  | OClusterRoleBinding o => crb_Key o
  | ORoleBinding o => rb_Key o
  end.

(** type decodedManifest struct *)
Record decodedManifest := mkDecoded {
  dm_gvrs : gmap GroupVersionResource (list NamespacedName);
  dm_clusterRoles : gmap NamespacedName ClusterRole;
  dm_roles : gmap NamespacedName Role;
  dm_clusterRoleBindings : gmap NamespacedName ClusterRoleBinding;
  dm_roleBindings : gmap NamespacedName RoleBinding;
}.

Definition empty_manifest : decodedManifest := mkDecoded ∅ ∅ ∅ ∅ ∅.

(** var objectVerbs, namespacedCollectionVerbs, fullAuthority *)
Definition objectVerbs : list string := ["get"; "patch"; "update"; "delete"].
Definition namespacedCollectionVerbs : list string := ["create"].
Definition fullAuthority : list PolicyRule :=
  [mkRule ["*"] ["*"] ["*"] [] []; mkRule ["*"] [] [] [] ["*"]].

(** authorizer.Decision *)
Inductive AuthDecision := DecisionDeny | DecisionAllow | DecisionNoOpinion.

#[export] Instance AuthDecision_eq_dec : EqDecision AuthDecision.
Proof. solve_decision. Defined.

(** The request context of an escalation check: user, namespace and resource. *)
Record RequestCtx := mkCtx { ctx_User : string; ctx_Namespace : string; ctx_Resource : string }.

(** ** What the escalation errors say *)

(** A greedy [.*] under the flag s: the rest of the pattern is tried on the
    shortest suffix first. *)
Fixpoint any_then {A} (k : string -> option A) (s : string) : option A :=
  match s with
  | EmptyString => k EmptyString
  | String _ s' => match any_then k s' with Some r => Some r | None => k s end
  end.

Definition lit_then {A} (p : string) (k : string -> option A) (s : string) : option A :=
  if strings_HasPrefix s p then k (str_drop (String.length p) s) else None.

(** The longest prefix without a character, and what follows. *)
Fixpoint span_not (c : ascii) (s : string) : string * string :=
  match s with
  | EmptyString => (EmptyString, EmptyString)
  | String d s' => if bool_decide (d = c) then (EmptyString, s) else let '(a, b) := span_not c s' in (String d a, b)
  end.

Definition dq : ascii := ascii_of_nat 34.

Definition lit_user : string := "user " +:+ String dq EmptyString.
Definition lit_groups : string := String dq " (groups=".
Definition lit_held : string := ") is attempting to grant RBAC permissions not currently held:" +:+ nl.
Definition lit_resolution : string := "; resolution errors: ".

(** The two groups of errRegex at the end of the text: one or more characters
    that are no semicolon, and optionally the resolution errors. *)
Definition match_rights (s : string) : option (string * string) :=
  let '(rights, rest) := span_not ";"%char s in
  if bool_decide (rights = EmptyString) then None
  else match rest with
       | EmptyString => Some (rights, EmptyString)
       | _ => lit_then lit_resolution (fun errs => Some (rights, errs)) rest
       end.

(** errRegex.FindStringSubmatch *)
Definition errRegex (s : string) : option (string * string) :=
  lit_then lit_user (any_then (lit_then lit_groups (any_then (lit_then lit_held match_rights)))) s.

(** ruleRegex.FindAllString: texts from an opening brace to the next closing
    one, without the braces ([inside] is what was read since the brace). *)
Fixpoint rule_texts (inside : option string) (s : string) : list string :=
  match s, inside with
  | EmptyString, _ => []
  | String c s', None => rule_texts (if bool_decide (c = "{"%char) then Some EmptyString else None) s'
  | String c s', Some t =>
      if bool_decide (c = "}"%char) then t :: rule_texts None s' else rule_texts (Some (t +:+ String c EmptyString)) s'
  end.

(** itemRegex.FindAllString, each without its quotes: texts between a quote and
    the next one. *)
Fixpoint item_texts (inside : option string) (s : string) : list string :=
  match s, inside with
  | EmptyString, _ => []
  | String c s', None => item_texts (if bool_decide (c = dq) then Some EmptyString else None) s'
  | String c s', Some t =>
      if bool_decide (c = dq) then t :: item_texts None s' else item_texts (Some (t +:+ String c EmptyString)) s'
  end.

(** strings.Cut at a character *)
Definition strings_Cut (s : string) (c : ascii) : option (string * string) :=
  match span_not c s with
  | (a, String _ b) => Some (a, b)
  | (_, EmptyString) => None
  end.

(** One field of a rule. *)
Definition parse_item (pr : PolicyRule) (item : string) : result PolicyRule :=
  match strings_Cut item ":"%char with
  | None => inl (ENew ("unexpected item " +:+ fmt_q item +:+ ": expected <Type>:[<values>...]"))
  | Some (field, valuesStr) =>
      let values := item_texts None valuesStr in
      let '(mkRule v g r n u) := pr in
      if bool_decide (field = "APIGroups") then inr (mkRule v values r n u)
      else if bool_decide (field = "Resources") then inr (mkRule v g values n u)
      else if bool_decide (field = "ResourceNames") then inr (mkRule v g r values u)
      else if bool_decide (field = "NonResourceURLs") then inr (mkRule v g r n values)
      else if bool_decide (field = "Verbs") then inr (mkRule values g r n u)
      else inl (ENew ("unexpected item " +:+ fmt_q item +:+ ": unknown field: " +:+ fmt_q field))
  end.

Fixpoint parse_items (pr : PolicyRule) (items : list string) : result PolicyRule :=
  match items with
  | [] => inr pr
  | item :: rest => match parse_item pr item with inl err => inl err | inr pr => parse_items pr rest end
  end.

(** func parseCompactRuleString(rule) (PolicyRule, error); the argument is the
    text between the braces. *)
Definition parseCompactRuleString (ruleText : string) : result PolicyRule :=
  let fields := if bool_decide (ruleText = EmptyString) then [] else map strings_TrimSpace (strings_Split ","%char ruleText) in
  parse_items empty_rule fields.

(** type parseResult struct *)
Record parseResult := mkParsed { ps_MissingRules : list PolicyRule; ps_ResolutionErrors : option error }.

Definition rights_of {A B} (l : list (A + B)) : list B := omap (fun r => match r with inr b => Some b | inl _ => None end) l.
Definition lefts_of {A B} (l : list (A + B)) : list A := omap (fun r => match r with inl a => Some a | inr _ => None end) l.

(** func parseEscalationErrorForMissingRules(ecError) (parseResult, error) *)
Definition parseEscalationErrorForMissingRules (ecError : error) : parseResult * option error :=
  match errRegex (Error ecError) with
  | None =>
      (mkParsed [] None, Some (ENew ("unexpected format of escalation check error string: " +:+ fmt_q (Error ecError))))
  | Some (missingPermissionsStr, resolutionErrorsStr) =>
      let parsed := map parseCompactRuleString (rule_texts None missingPermissionsStr) in
      (mkParsed (rights_of parsed)
         (if bool_decide (resolutionErrorsStr = EmptyString) then None else Some (ENew resolutionErrorsStr)),
       errors_Join (map Some (lefts_of parsed)))
  end.

(** ** The cluster *)

Record RbacEnv := mkRbacEnv {
  (* the decoder's answers, until io.EOF *)
  ra_Decode : string -> list (result Unstructured);
  ra_RESTMapping : GroupKind -> string -> result GroupVersionResource;
  (* runtime.DefaultUnstructuredConverter.FromUnstructured *)
  ra_AsClusterRole : Unstructured -> result ClusterRole;
  ra_AsClusterRoleBinding : Unstructured -> result ClusterRoleBinding;
  ra_AsRole : Unstructured -> result Role;
  ra_AsRoleBinding : Unstructured -> result RoleBinding;
  (* the authorizer: decision, reason, error *)
  ra_Authorize : AttributesRecord -> AuthDecision * string * option error;
  (* rbacregistry and validation *)
  ra_EscalationAllowed : RequestCtx -> bool;
  ra_RoleEscalationAuthorized : RequestCtx -> bool;
  ra_BindingAuthorized : RequestCtx -> RoleRef -> string -> bool;
  ra_GetRoleReferenceRules : RoleRef -> string -> list PolicyRule * option error;
  ra_ConfirmNoEscalation : RequestCtx -> list PolicyRule -> option error;
  ra_CompactRules : list PolicyRule -> result (list PolicyRule);
  ra_RuleString : PolicyRule -> string;                      (* PolicyRule.String *)
  ra_range : forall A, list A -> list A;                   (* the order of a map *)
}.

Section PreAuthorizer.
Context `{UA : UnstructuredAPI} (E : RbacEnv).

Definition rbac_group : string := "rbac.authorization.k8s.io".

(** GroupVersionKind.String *)
Definition gvk_String (g : GroupVersionKind) : string :=
  gvk_Group g +:+ "/" +:+ gvk_Version g +:+ ", Kind=" +:+ gvk_Kind g.

(** What an object adds to the decoded manifest; [i] is the index in messages. *)
Definition manifest_object (i : Z) (dm : decodedManifest) (uObj : Unstructured) : decodedManifest * option error :=
  let gvk := u_GVK uObj in
  match ra_RESTMapping E (GroupKind_of gvk) (gvk_Version gvk) with
  | inl err =>
      let objName := if bool_decide (u_GetName uObj = EmptyString) then EmptyString
                     else " (name: " +:+ u_GetName uObj +:+ ")" in
      (dm, Some (EWrap ("could not get REST mapping for object " +:+ fmt_d i +:+ " in manifest with GVK " +:+
                        gvk_String gvk +:+ objName +:+ ": ") err ""))
  | inr gvr =>
      let key := mkNN (u_GetNamespace uObj) (u_GetName uObj) in
      let '(mkDecoded gvrs crs rs crbs rbs) := dm in
      let gvrs := <[gvr := default [] (gvrs !! gvr) ++ [key]]> gvrs in
      let failed kind err := Some (EWrap ("could not decode object " +:+ fmt_d i +:+ " in manifest as " +:+ kind +:+ ": ") err "") in
      if bool_decide (gvr_Group gvr = rbac_group) then
        if bool_decide (gvr_Resource gvr = "clusterroles") then
          match ra_AsClusterRole E uObj with
          | inl err => (mkDecoded gvrs crs rs crbs rbs, failed "ClusterRole" err)
          | inr obj => (mkDecoded gvrs (<[cr_Key obj := obj]> crs) rs crbs rbs, None)
          end
        else if bool_decide (gvr_Resource gvr = "clusterrolebindings") then
          match ra_AsClusterRoleBinding E uObj with
          | inl err => (mkDecoded gvrs crs rs crbs rbs, failed "ClusterRoleBinding" err)
          | inr obj => (mkDecoded gvrs crs rs (<[crb_Key obj := obj]> crbs) rbs, None)
          end
        else if bool_decide (gvr_Resource gvr = "roles") then
          match ra_AsRole E uObj with
          | inl err => (mkDecoded gvrs crs rs crbs rbs, failed "Role" err)
          | inr obj => (mkDecoded gvrs crs (<[ro_Key obj := obj]> rs) crbs rbs, None)
          end
        else if bool_decide (gvr_Resource gvr = "rolebindings") then
          match ra_AsRoleBinding E uObj with
          | inl err => (mkDecoded gvrs crs rs crbs rbs, failed "RoleBinding" err)
          | inr obj => (mkDecoded gvrs crs rs crbs (<[rb_Key obj := obj]> rbs), None)
          end
        else (mkDecoded gvrs crs rs crbs rbs, None)
      else (mkDecoded gvrs crs rs crbs rbs, None)
  end.

(** The loop of decodeManifest; its counter i is never advanced. *)
Fixpoint manifest_objects (dm : decodedManifest) (decoded : list (result Unstructured)) : decodedManifest * list error :=
  match decoded with
  | [] => (dm, [])
  | inl err :: rest =>
      let '(dm, errs) := manifest_objects dm rest in
      (dm, EWrap ("could not decode object " +:+ fmt_d 0 +:+ " in manifest: ") err "" :: errs)
  | inr uObj :: rest =>
      let '(dm, err) := manifest_object 0 dm uObj in
      let '(dm, errs) := manifest_objects dm rest in
      (dm, match err with Some e => e :: errs | None => errs end)
  end.

(** func (a *rbacPreAuthorizer) decodeManifest(manifestReader) (decodedManifest, error) *)
Definition decodeManifest (manifests : string) : result decodedManifest :=
  let '(dm, errs) := manifest_objects empty_manifest (ra_Decode E manifests) in
  match errs with [] => inr dm | _ => inl (EJoin errs) end.

(** maps.Values *)
Definition values {V} (m : gmap NamespacedName V) : list V := map snd (ra_range E _ (map_to_list m)).

(** func (dm *decodedManifest) rbacObjects() []client.Object *)
Definition rbacObjects (dm : decodedManifest) : list rbac_object :=
  map OClusterRole (values (dm_clusterRoles dm)) ++ map ORole (values (dm_roles dm)) ++
  map OClusterRoleBinding (values (dm_clusterRoleBindings dm)) ++ map ORoleBinding (values (dm_roleBindings dm)).

(** ** Required permissions *)

Definition resource_record (user namespace name : string) (gvr : GroupVersionResource) (verb : string) : AttributesRecord :=
  mkAttributes user namespace name (gvr_Group gvr) (gvr_Version gvr) (gvr_Resource gvr) "" true "" verb.

(** The records of one resource. *)
Definition gvr_records (user : string) (clusterCollectionVerbs namespacedCollectionVerbs : list string)
    (gvr : GroupVersionResource) (keys : list NamespacedName) : list AttributesRecord :=
  let namespaces := sort_by string_cmp (remove_dups (map nn_Namespace keys)) in
  concat (map (fun k => map (resource_record user (nn_Namespace k) (nn_Name k) gvr) objectVerbs) keys) ++
  concat (map (fun ns => map (resource_record user ns "" gvr) namespacedCollectionVerbs) namespaces) ++
  map (resource_record user "" "" gvr) clusterCollectionVerbs.

(** func (dm *decodedManifest) asAuthorizationAttributesRecordsForUser(...) *)
Definition asAuthorizationAttributesRecordsForUser (dm : decodedManifest) (user : string)
    (clusterCollectionVerbs namespacedCollectionVerbs : list string) : list AttributesRecord :=
  concat (map (fun kv => gvr_records user clusterCollectionVerbs namespacedCollectionVerbs kv.1 kv.2)
            (ra_range E _ (map_to_list (dm_gvrs dm)))).

(** func policyRuleFromAttributesRecord(attributesRecord) PolicyRule *)
Definition policyRuleFromAttributesRecord (ar : AttributesRecord) : PolicyRule :=
  let verbs := if bool_decide (at_Verb ar = EmptyString) then [] else [at_Verb ar] in
  if at_ResourceRequest ar then
    mkRule verbs [at_APIGroup ar]
      [at_Resource ar +:+ (if bool_decide (at_Subresource ar = EmptyString) then EmptyString else "/" +:+ at_Subresource ar)]
      (if bool_decide (at_Name ar = EmptyString) then [] else [at_Name ar]) []
  else mkRule verbs [] [] [] [at_Path ar].

(** func (a *rbacPreAuthorizer) attributesAllowed(ctx, attributesRecord) (bool, error) *)
Definition attributesAllowed (ar : AttributesRecord) : result bool :=
  let '(decision, reason, err) := ra_Authorize E ar in
  match err with
  | Some err => inl (if bool_decide (reason = EmptyString) then err else EWrap (reason +:+ ": ") err "")
  | None => inr (bool_decide (decision = DecisionAllow))
  end.

(** append(m[k], l...) *)
Definition append_at {V} (k : string) (l : list V) (m : gmap string (list V)) : gmap string (list V) :=
  <[k := default [] (m !! k) ++ l]> m.

Fixpoint authorize_records (records : list AttributesRecord) (missingRules : gmap string (list PolicyRule))
  : gmap string (list PolicyRule) * list error :=
  match records with
  | [] => (missingRules, [])
  | ar :: rest =>
      match attributesAllowed ar with
      | inl err => let '(m, errs) := authorize_records rest missingRules in (m, err :: errs)
      | inr true => authorize_records rest missingRules
      | inr false =>
          authorize_records rest (append_at (at_Namespace ar) [policyRuleFromAttributesRecord ar] missingRules)
      end
  end.

(** func (a *rbacPreAuthorizer) authorizeAttributesRecords(ctx, attributesRecords) *)
Definition authorizeAttributesRecords (records : list AttributesRecord)
  : gmap string (list PolicyRule) * option error :=
  let '(m, errs) := authorize_records records ∅ in (m, errors_Join (map Some errs)).

(** ** Escalation *)

(** func hasAggregationRule(clusterRole) bool *)
Definition hasAggregationRule (clusterRole : ClusterRole) : bool :=
  match cr_AggregationRule clusterRole with Some (_ :: _) => true | _ => false end.

(** func (ec *escalationChecker) checkClusterRoleEscalation(ctx, clusterRole) error *)
Definition checkClusterRoleEscalation (ctx : RequestCtx) (clusterRole : ClusterRole) : option error :=
  if ra_EscalationAllowed E ctx || ra_RoleEscalationAuthorized E ctx then None
  else
    match (if hasAggregationRule clusterRole then ra_ConfirmNoEscalation E ctx fullAuthority else None) with
    | Some err => Some (EWrap "must have cluster-admin privileges to use an aggregationRule: " err "")
    | None => ra_ConfirmNoEscalation E ctx (cr_Rules clusterRole)
    end.

(** The rules a binding refers to in the cluster; a role that is not found has none. *)
Definition referenced_rules (ref : RoleRef) (namespace : string) : result (list PolicyRule) :=
  let '(rules, err) := ra_GetRoleReferenceRules E ref namespace in
  match err with
  | Some e => if has_kind KNotFound e then inr rules else inl e
  | None => inr rules
  end.

(** func (ec *escalationChecker) checkClusterRoleBindingEscalation(ctx, clusterRoleBinding) error *)
Definition checkClusterRoleBindingEscalation (dm : decodedManifest) (ctx : RequestCtx) (b : ClusterRoleBinding) : option error :=
  let ref := crb_RoleRef b in
  if ra_EscalationAllowed E ctx then None
  else if ra_BindingAuthorized E ctx ref "" then None
  else
    match referenced_rules ref "" with
    | inl err => Some err
    | inr rules =>
        let extra := if bool_decide (rr_Kind ref = "ClusterRole") then
                       match dm_clusterRoles dm !! mkNN "" (rr_Name ref) with Some r => cr_Rules r | None => [] end
                     else [] in
        ra_ConfirmNoEscalation E ctx (rules ++ extra)
    end.

(** func (ec *escalationChecker) checkRoleEscalation(ctx, role) error *)
Definition checkRoleEscalation (ctx : RequestCtx) (role : Role) : option error :=
  if ra_EscalationAllowed E ctx || ra_RoleEscalationAuthorized E ctx then None
  else ra_ConfirmNoEscalation E ctx (ro_Rules role).

(** func (ec *escalationChecker) checkRoleBindingEscalation(ctx, roleBinding) error *)
Definition checkRoleBindingEscalation (dm : decodedManifest) (ctx : RequestCtx) (b : RoleBinding) : option error :=
  let ref := rb_RoleRef b in
  let namespace := nn_Namespace (rb_Key b) in
  if ra_EscalationAllowed E ctx then None
  else if ra_BindingAuthorized E ctx ref namespace then None
  else
    match referenced_rules ref namespace with
    | inl err => Some err
    | inr rules =>
        let extra :=
          if bool_decide (rr_Kind ref = "ClusterRole") then
            match dm_clusterRoles dm !! mkNN "" (rr_Name ref) with Some r => cr_Rules r | None => [] end
          else if bool_decide (rr_Kind ref = "Role") then
            match dm_roles dm !! mkNN namespace (rr_Name ref) with Some r => ro_Rules r | None => [] end
          else [] in
        ra_ConfirmNoEscalation E ctx (rules ++ extra)
    end.

(** func (ec *escalationChecker) checkEscalation(ctx, manifestManager, obj) error *)
Definition checkEscalation (dm : decodedManifest) (user : string) (obj : rbac_object) : option error :=
  let ctx resource := mkCtx user (nn_Namespace (rbac_key obj)) resource in
  match obj with
  | ORole v => checkRoleEscalation (ctx "roles") v
  | ORoleBinding v => checkRoleBindingEscalation dm (ctx "rolebindings") v
  | OClusterRole v => checkClusterRoleEscalation (ctx "clusterroles") v
  | OClusterRoleBinding v => checkClusterRoleBindingEscalation dm (ctx "clusterrolebindings") v
  end.

(** The loop over the RBAC objects: the missing rules, the evaluation errors
    and the parse errors, nil ones included. *)
Fixpoint check_objects (dm : decodedManifest) (user : string) (objs : list rbac_object)
    (missingRules : gmap string (list PolicyRule))
  : gmap string (list PolicyRule) * list (option error) * list (option error) :=
  match objs with
  | [] => (missingRules, [], [])
  | obj :: rest =>
      match checkEscalation dm user obj with
      | None => check_objects dm user rest missingRules
      | Some err =>
          let '(result, perr) := parseEscalationErrorForMissingRules err in
          let '(m, evals, parses) :=
            check_objects dm user rest (append_at (nn_Namespace (rbac_key obj)) (ps_MissingRules result) missingRules) in
          (m, ps_ResolutionErrors result :: evals, perr :: parses)
      end
  end.

(** ** The answer *)

(** The verbs of a missing rule, without duplicates. *)
Definition dedup_verbs (rule : PolicyRule) : PolicyRule :=
  mkRule (if bool_decide ("*" ∈ pr_Verbs rule) then ["*"] else sort_by string_cmp (remove_dups (pr_Verbs rule)))
    (pr_APIGroups rule) (pr_Resources rule) (pr_ResourceNames rule) (pr_NonResourceURLs rule).

Definition rule_cmp (a b : PolicyRule) : Z := string_cmp (ra_RuleString E a) (ra_RuleString E b).

Definition scoped (ns : string) (rules : list PolicyRule) : ScopedPolicyRules :=
  let rules := match ra_CompactRules E rules with inr compact => compact | inl _ => rules end in
  mkScoped ns (sort_by rule_cmp (map dedup_verbs rules)).

Definition scoped_cmp (a b : ScopedPolicyRules) : Z := string_cmp (sp_Namespace a) (sp_Namespace b).

(** func (a *rbacPreAuthorizer) PreAuthorize(ctx, user, manifestReader, additionalRequiredPerms...) *)
Definition PreAuthorize (clusterCollectionVerbs : list string) (user : string) (manifests : string)
    (additionalRequiredPerms : list AttributesRecord) : list ScopedPolicyRules * option error :=
  match decodeManifest manifests with
  | inl err => ([], Some err)
  | inr dm =>
      let records := asAuthorizationAttributesRecordsForUser dm user clusterCollectionVerbs namespacedCollectionVerbs ++
                     additionalRequiredPerms in
      let '(missingRules, err) := authorizeAttributesRecords records in
      let '(missingRules, evals, parseErrors) := check_objects dm user (rbacObjects dm) missingRules in
      let preAuthEvaluationErrors := (match err with Some _ => [err] | None => [] end) ++ evals in
      let all := map (fun kv => scoped kv.1 kv.2) (ra_range E _ (map_to_list missingRules)) in
      let allMissingPolicyRules := sort_by scoped_cmp all in
      let errs :=
        (match errors_Join parseErrors with
         | Some e => [ENew ("failed to parse escalation check error strings: " +:+ Error e)] | None => [] end) ++
        (match errors_Join preAuthEvaluationErrors with
         | Some e => [ENew ("failed to resolve or evaluate permissions: " +:+ Error e)] | None => [] end) in
      (allMissingPolicyRules,
       match errs with [] => None | _ => Some (EWrap "missing rules may be incomplete: " (EJoin errs) "") end)
  end.

End PreAuthorizer.
