(* ===== verification/EscalationText.v ===== *)
(** * Reading escalation errors

    Kubernetes' escalation check reports the rules that are missing only as the
    text of an error.  [escalation_message] is that text (ConfirmNoEscalation
    and CompactString); the pre-authorizer's regular expressions recover the
    rules from it. *)

From Stdlib Require Import Ascii.
From S2P Require Import Prelude GoErrors ApiTypes Phase Rbac.

(** ** The text *)

(** The [%q] verb on a slice. *)
Definition fmt_qs (l : list string) : string := "[" +:+ strings_Join (map fmt_q l) " " +:+ "]".

Definition compact_part (name : string) (l : list string) : list string :=
  match l with [] => [] | _ => [name +:+ ":" +:+ fmt_qs l] end.

(** rbacv1helpers.CompactString *)
Definition compact_parts (r : PolicyRule) : list string :=
  compact_part "APIGroups" (pr_APIGroups r) ++ compact_part "Resources" (pr_Resources r) ++
  compact_part "NonResourceURLs" (pr_NonResourceURLs r) ++ compact_part "ResourceNames" (pr_ResourceNames r) ++
  compact_part "Verbs" (pr_Verbs r).

Definition compact_body (r : PolicyRule) : string := strings_Join (compact_parts r) ", ".
Definition CompactString (r : PolicyRule) : string := "{" +:+ compact_body r +:+ "}".

Definition rights_text (rules : list PolicyRule) : string := strings_Join (map CompactString rules) nl.

Definition resolution_text (res : string) : string :=
  if bool_decide (res = EmptyString) then EmptyString else lit_resolution +:+ res.

(** The error of validation.ConfirmNoEscalation. *)
Definition escalation_message (user : string) (groups : list string) (rules : list PolicyRule) (res : string) : string :=
  "user " +:+ fmt_q user +:+ " (groups=" +:+ fmt_qs groups +:+ lit_held +:+ rights_text rules +:+ resolution_text res.

(** Characters of names, verbs and paths that mean nothing to the patterns. *)
Definition plain_char (c : ascii) : bool :=
  negb (bool_decide (c = dq)) && negb (bool_decide (quote_char c <> String c EmptyString)) &&
  negb (bool_decide (c = ","%char)) && negb (bool_decide (c = "}"%char)) && negb (bool_decide (c = ";"%char)) &&
  negb (bool_decide (c = ")"%char)).

Fixpoint plain (s : string) : bool := match s with EmptyString => true | String c s' => plain_char c && plain s' end.

Definition plain_rule (r : PolicyRule) : bool :=
  forallb plain (pr_APIGroups r ++ pr_Resources r ++ pr_NonResourceURLs r ++ pr_ResourceNames r ++ pr_Verbs r).

(** ** Strings *)

Lemma str_has_Join c l sep :
  Forall (fun s => str_has c s = false) l -> str_has c sep = false -> str_has c (strings_Join l sep) = false.
Proof.
  intros Hl Hs. induction Hl as [|s l H _ IH]; [done|]. destruct l as [|s' l]; cbn; [done|].
  rewrite !str_has_app, H, Hs. apply IH.
Qed.

Lemma HasPrefix_cat p s : strings_HasPrefix (p +:+ s) p = true.
Proof. induction p as [|c p IH]; [by destruct s|]. change (String c p +:+ s) with (String c (p +:+ s)). cbn. by rewrite (bool_decide_eq_true_2 _ eq_refl). Qed.

Lemma drop_cat p s : str_drop (String.length p) (p +:+ s) = s.
Proof. induction p as [|c p IH]; [done|]. exact IH. Qed.

Lemma lit_then_cat {A} p (k : string -> option A) s : lit_then p k (p +:+ s) = k s.
Proof. unfold lit_then. by rewrite HasPrefix_cat, drop_cat. Qed.

Lemma str_has_drop c n s : str_has c s = false -> str_has c (str_drop n s) = false.
Proof. revert s. induction n as [|n IH]; intros [|d s]; cbn; try done. intros [_ H]%orb_false_iff. by apply IH. Qed.

(** What is dropped from a text with a marked end is before the mark, or the mark is gone. *)
Lemma drop_cat_cases c n x q :
  str_has c q = false -> exists y, str_drop n (x +:+ String c q) = y +:+ String c q \/
                                   (str_drop n (x +:+ String c q) = y /\ str_has c y = false).
Proof.
  intros Hq. revert n. induction x as [|d x IH]; intros [|n].
  - exists EmptyString. by left.
  - exists (str_drop n q). right. split; [done|]. by apply str_has_drop.
  - exists (String d x). by left.
  - apply IH.
Qed.

(** ** Plain values *)

Lemma plain_char_spec c :
  plain_char c = true -> c <> dq /\ quote_char c = String c EmptyString /\ c <> ","%char /\ c <> "}"%char /\ c <> ";"%char /\ c <> ")"%char.
Proof.
  unfold plain_char. rewrite !andb_true_iff, !negb_true_iff, !bool_decide_eq_false.
  intros (((((H1 & H2) & H3) & H4) & H5) & H6). split_and!; try done. by destruct (decide (quote_char c = String c EmptyString)).
Qed.

Lemma plain_quote s : plain s = true -> quote_body s = s.
Proof.
  induction s as [|c s IH]; [done|]. cbn. intros [Hc Hs]%andb_true_iff. apply plain_char_spec in Hc as (_ & -> & _).
  by rewrite IH.
Qed.

Lemma plain_no c s : plain s = true -> c = dq \/ c = ","%char \/ c = "}"%char \/ c = ";"%char \/ c = ")"%char -> str_has c s = false.
Proof.
  intros Hp Hc. induction s as [|d s IH]; [done|]. cbn in *. apply andb_true_iff in Hp as [Hd Hs].
  apply plain_char_spec in Hd as (H1 & _ & H2 & H3 & H4 & H5). rewrite IH by done. rewrite orb_false_r.
  apply bool_decide_eq_false. intros ->. intuition congruence.
Qed.

(** The quoted values, as text. *)
Definition dqs : string := String dq EmptyString.

Lemma fmt_q_plain s : plain s = true -> fmt_q s = dqs +:+ s +:+ dqs.
Proof. intros H. unfold fmt_q. cbv zeta. by rewrite plain_quote. Qed.

Lemma fmt_qs_no c l :
  Forall (fun s => plain s = true) l -> c = ","%char \/ c = "}"%char \/ c = ";"%char \/ c = ")"%char -> str_has c (fmt_qs l) = false.
Proof.
  intros Hl Hc. unfold fmt_qs. rewrite !str_has_app.
  assert (Hj : str_has c (strings_Join (map fmt_q l) " ") = false).
  { apply str_has_Join; [|by intuition subst]. rewrite Forall_map. eapply Forall_impl; [exact Hl|]. intros s Hs. cbn.
    rewrite (fmt_q_plain s Hs), !str_has_app, (plain_no c s Hs) by tauto. by intuition subst. }
  rewrite Hj. by intuition subst.
Qed.

(** ** The matchers *)

Lemma item_texts_inside t s u :
  str_has dq s = false -> item_texts (Some t) (s +:+ dqs +:+ u) = (t +:+ s) :: item_texts None u.
Proof.
  revert t. induction s as [|c s IH]; intros t Hs.
  - change (EmptyString +:+ dqs +:+ u) with (String dq u). cbn [item_texts]. rewrite bool_decide_true by done. by rewrite str_app_nil.
  - cbn in Hs. apply orb_false_iff in Hs as [Hc Hs]. change (String c s +:+ dqs +:+ u) with (String c (s +:+ dqs +:+ u)).
    cbn [item_texts]. rewrite Hc, IH by done. f_equal. by rewrite <- str_app_assoc.
Qed.

Lemma item_texts_values l rest :
  Forall (fun s => plain s = true) l -> item_texts None (strings_Join (map fmt_q l) " " +:+ rest) = l ++ item_texts None rest.
Proof.
  intros Hl. induction Hl as [|s l Hs Hl IH]; [done|].
  assert (Hone : forall u, item_texts None (fmt_q s +:+ u) = s :: item_texts None u).
  { intros u. rewrite fmt_q_plain by done. rewrite <- !str_app_assoc. change (dqs +:+ ?x) with (String dq x) at 1.
    cbn [item_texts]. rewrite bool_decide_true by done. rewrite item_texts_inside; [done|]. apply plain_no; [done|by left]. }
  destruct l as [|s' l]; [apply Hone|].
  change (strings_Join (map fmt_q (s :: s' :: l)) " ") with (fmt_q s +:+ " " +:+ strings_Join (map fmt_q (s' :: l)) " ").
  rewrite <- !str_app_assoc, Hone. change (" " +:+ ?x) with (String " "%char x). cbn [item_texts].
  rewrite bool_decide_false by done. by rewrite IH.
Qed.

Lemma item_texts_fmt_qs l : Forall (fun s => plain s = true) l -> item_texts None (fmt_qs l) = l.
Proof.
  intros Hl. unfold fmt_qs. change ("[" +:+ ?x) with (String "["%char x). cbn [item_texts]. rewrite bool_decide_false by done.
  rewrite item_texts_values by done. cbn. by rewrite app_nil_r.
Qed.

Lemma rule_texts_inside t s u :
  str_has "}"%char s = false -> rule_texts (Some t) (s +:+ "}" +:+ u) = (t +:+ s) :: rule_texts None u.
Proof.
  revert t. induction s as [|c s IH]; intros t Hs.
  - change (EmptyString +:+ "}" +:+ u) with (String "}"%char u). cbn [rule_texts]. rewrite bool_decide_true by done. by rewrite str_app_nil.
  - cbn in Hs. apply orb_false_iff in Hs as [Hc Hs]. change (String c s +:+ "}" +:+ u) with (String c (s +:+ "}" +:+ u)).
    cbn [rule_texts]. rewrite Hc, IH by done. f_equal. by rewrite <- str_app_assoc.
Qed.

Lemma rule_texts_rights rules :
  Forall (fun r => str_has "}"%char (compact_body r) = false) rules ->
  rule_texts None (rights_text rules) = map compact_body rules.
Proof.
  intros H. unfold rights_text. induction H as [|r rules Hr _ IH]; [done|].
  assert (Hone : forall u, rule_texts None (CompactString r +:+ u) = compact_body r :: rule_texts None u).
  { intros u. unfold CompactString. rewrite <- !str_app_assoc. change ("{" +:+ ?x) with (String "{"%char x). cbn [rule_texts].
    rewrite bool_decide_true by done. by rewrite rule_texts_inside. }
  destruct rules as [|r' rules].
  - cbn [map strings_Join]. rewrite <- (str_app_nil (CompactString r)), Hone. done.
  - change (strings_Join (map CompactString (r :: r' :: rules)) nl)
      with (CompactString r +:+ nl +:+ strings_Join (map CompactString (r' :: rules)) nl).
    rewrite Hone. cbn [map]. f_equal. change (nl +:+ ?x) with (String (ascii_of_nat 10) x). cbn [rule_texts]. rewrite bool_decide_false by done. exact IH.
Qed.

(** ** Rules *)

(** A text that trimming leaves alone. *)
Definition trimmed (s : string) : Prop :=
  strings_TrimSpace s = s /\ strings_TrimSpace (String " "%char s) = s.

Lemma trim_right_last s c : is_space c = false -> trim_right (s +:+ String c EmptyString) = s +:+ String c EmptyString.
Proof.
  intros Hc. induction s as [|d s IH].
  - change (EmptyString +:+ ?x) with x. cbn. by rewrite Hc.
  - change (String d s +:+ ?x) with (String d (s +:+ x)). cbn [trim_right]. rewrite IH. by destruct s.
Qed.

Lemma part_trimmed c name l : is_space c = false -> trimmed (String c name +:+ ":" +:+ fmt_qs l).
Proof.
  intros Hc.
  assert (H : exists t, String c name +:+ ":" +:+ fmt_qs l = String c t +:+ "]").
  { exists (name +:+ ":" +:+ "[" +:+ strings_Join (map fmt_q l) " "). unfold fmt_qs. change (String c ?x +:+ ?y) with (String c (x +:+ y)).
    f_equal. by rewrite <- !str_app_assoc. }
  destruct H as [t ->]. unfold trimmed, strings_TrimSpace. change (String c t +:+ "]") with (String c (t +:+ "]")).
  cbn [trim_left]. replace (is_space " "%char) with true by done. cbn [trim_left]. rewrite Hc. change (String c (t +:+ "]")) with (String c t +:+ "]").
  by rewrite trim_right_last.
Qed.

Lemma Split_parts parts :
  parts <> [] -> Forall (fun p => str_has ","%char p = false /\ trimmed p) parts ->
  map strings_TrimSpace (strings_Split ","%char (strings_Join parts ", ")) = parts.
Proof.
  intros Hne Hp.
  assert (Hsp : forall parts, Forall (fun p => str_has ","%char p = false /\ trimmed p) parts ->
    forall p, str_has ","%char p = false ->
    map strings_TrimSpace (strings_Split ","%char (strings_Join (p :: parts) ", ")) = strings_TrimSpace p :: parts).
  { clear. intros parts Hp. induction Hp as [|q parts [Hq1 [Hq2 Hq3]] _ IH]; intros p Hc.
    - cbn [strings_Join]. by rewrite Split_no_sep.
    - change (strings_Join (p :: q :: parts) ", ") with (p +:+ String ","%char (" " +:+ strings_Join (q :: parts) ", ")).
      rewrite Split_app_sep by done. cbn [map]. f_equal.
      specialize (IH (String " "%char q)). cbn [str_has] in IH. rewrite Hq1 in IH. specialize (IH eq_refl).
      rewrite Hq3 in IH. etransitivity; [|exact IH]. by destruct parts. }
  destruct Hp as [|p parts [H1 [H2 H3]] Hp]; [done|]. rewrite Hsp by done. by rewrite H2.
Qed.

(** Setting a field of a rule. *)
Definition set_field_of (name : string) (l : list string) (pr : PolicyRule) : PolicyRule :=
  let '(mkRule v g r n u) := pr in
  if bool_decide (name = "APIGroups") then mkRule v l r n u
  else if bool_decide (name = "Resources") then mkRule v g l n u
  else if bool_decide (name = "ResourceNames") then mkRule v g r l u
  else if bool_decide (name = "NonResourceURLs") then mkRule v g r n l
  else mkRule l g r n u.

Definition field_names : list string := ["APIGroups"; "Resources"; "NonResourceURLs"; "ResourceNames"; "Verbs"].

Ltac field_cases Hn :=
  unfold field_names in Hn; repeat (apply elem_of_cons in Hn as [->|Hn]; [done|]); by apply not_elem_of_nil in Hn.

Lemma Cut_name name s : str_has ":"%char name = false -> strings_Cut (name +:+ ":" +:+ s) ":"%char = Some (name, s).
Proof.
  intros H. unfold strings_Cut.
  assert (Hs : span_not ":"%char (name +:+ ":" +:+ s) = (name, String ":"%char s)).
  { induction name as [|c name IH]; [done|]. cbn in H. apply orb_false_iff in H as [Hc H].
    change (String c name +:+ ?x) with (String c (name +:+ x)). cbn [span_not]. by rewrite Hc, IH. }
  by rewrite Hs.
Qed.

Lemma parse_part name l pr rest :
  name ∈ field_names -> Forall (fun s => plain s = true) l -> (l = [] -> set_field_of name [] pr = pr) ->
  parse_items pr (compact_part name l ++ rest) = parse_items (set_field_of name l pr) rest.
Proof.
  intros Hn Hl He. destruct l as [|s l]; [cbn [compact_part app]; by rewrite He|].
  change (compact_part name (s :: l) ++ rest) with ((name +:+ ":" +:+ fmt_qs (s :: l)) :: rest). cbn [parse_items].
  unfold parse_item. rewrite Cut_name by (clear He Hl; field_cases Hn).
  rewrite item_texts_fmt_qs by done. destruct pr as [v g r n u]. clear He. field_cases Hn.
Qed.

Lemma plain_rule_fields r :
  plain_rule r = true ->
  Forall (fun s => plain s = true) (pr_APIGroups r) /\ Forall (fun s => plain s = true) (pr_Resources r) /\
  Forall (fun s => plain s = true) (pr_NonResourceURLs r) /\ Forall (fun s => plain s = true) (pr_ResourceNames r) /\
  Forall (fun s => plain s = true) (pr_Verbs r).
Proof.
  unfold plain_rule. rewrite !forallb_app, !andb_true_iff. intros H.
  assert (Hf : forall l, forallb plain l = true -> Forall (fun s => plain s = true) l).
  { intros l Hl. apply Forall_forall. intros s Hs. by apply (proj1 (forallb_elem plain l) Hl). }
  split_and!; apply Hf; tauto.
Qed.

Lemma compact_parts_spec c r :
  plain_rule r = true -> c = ","%char \/ c = "}"%char \/ c = ";"%char \/ c = ")"%char ->
  Forall (fun p => str_has c p = false /\ trimmed p) (compact_parts r).
Proof.
  intros (H1 & H2 & H3 & H4 & H5)%plain_rule_fields Hc. unfold compact_parts.
  assert (Hp : forall d name l, is_space d = false -> str_has c (String d name +:+ ":") = false ->
    Forall (fun s => plain s = true) l -> Forall (fun p => str_has c p = false /\ trimmed p) (compact_part (String d name) l)).
  { intros d name l Hd Hn Hl. destruct l as [|s l]; [constructor|]. constructor; [|constructor]. split; [|by apply part_trimmed].
    rewrite str_app_assoc, str_has_app, Hn. by apply fmt_qs_no. }
  rewrite !Forall_app. split_and!; apply Hp; try done; by intuition subst.
Qed.

Lemma parse_compact r : plain_rule r = true -> parseCompactRuleString (compact_body r) = inr r.
Proof.
  intros Hr. unfold parseCompactRuleString.
  assert (Hparts : (if bool_decide (compact_body r = EmptyString) then []
                    else map strings_TrimSpace (strings_Split ","%char (compact_body r))) = compact_parts r).
  { pose proof (compact_parts_spec ","%char r Hr (or_introl eq_refl)) as Hp. unfold compact_body.
    destruct (compact_parts r) as [|p parts] eqn:Ep; [done|].
    rewrite bool_decide_false; [by apply Split_parts|].
    unfold compact_parts in Ep.
    assert (Hne : exists d x, p = String d x).
    { unfold compact_part in Ep. repeat (case_match; cbn [app] in Ep; try (injection Ep as <- _; by do 2 eexists)). done. }
    destruct Hne as (d & x & ->). by destruct parts. }
  rewrite Hparts. destruct (plain_rule_fields r Hr) as (H1 & H2 & H3 & H4 & H5). unfold compact_parts.
  rewrite !parse_part by first [done|unfold field_names; set_solver].
  rewrite <- (app_nil_r (compact_part "Verbs" _)), parse_part by first [done|unfold field_names; set_solver].
  by destruct r.
Qed.

(** ** The whole error *)

Lemma any_then_cat {A} (k : string -> option A) a s r : any_then k s = Some r -> any_then k (a +:+ s) = Some r.
Proof.
  intros H. induction a as [|c a IH]; [done|]. change (String c a +:+ s) with (String c (a +:+ s)). cbn [any_then]. by rewrite IH.
Qed.

Notation held_then := (lit_then lit_held match_rights).
Notation groups_then := (lit_then lit_groups (any_then held_then)).

Lemma held_absent s : str_has ")"%char s = false -> any_then held_then s = None.
Proof.
  induction s as [|c s IH]; [done|]. cbn [str_has]. intros [Hc Hs]%orb_false_iff. cbn [any_then]. rewrite IH by done.
  unfold lit_then. change lit_held with (String ")"%char (str_drop 1 lit_held)) at 1. cbn [strings_HasPrefix].
  apply bool_decide_eq_false in Hc. rewrite (bool_decide_false (")"%char = c)) by congruence. done.
Qed.

Lemma groups_absent s : str_has ")"%char s = false -> any_then groups_then s = None.
Proof.
  induction s as [|c s IH]; [done|]. intros H. cbn [any_then]. rewrite IH by (cbn [str_has] in H; by apply orb_false_iff in H as [_ H]).
  unfold lit_then at 1. destruct (strings_HasPrefix _ _); [|done]. by apply held_absent, str_has_drop.
Qed.

Definition held_tail : string := str_drop 1 lit_held.

Section Message.
Context (rest : string) (r : string * string).
Context (Hrest : str_has ")"%char rest = false) (Hr : match_rights rest = Some r).

Let Q : string := String ")"%char (held_tail +:+ rest).

Lemma tail_no : str_has ")"%char (held_tail +:+ rest) = false.
Proof. by rewrite str_has_app, Hrest. Qed.

Lemma Q_held : Q = lit_held +:+ rest.
Proof. done. Qed.

Lemma held_found x : any_then held_then (x +:+ Q) = Some r.
Proof.
  apply any_then_cat. unfold Q. cbn [any_then]. rewrite held_absent by apply tail_no. fold Q. by rewrite Q_held, lit_then_cat.
Qed.

(** However the groups are cut off, the rights are the same. *)
Lemma groups_same x : groups_then (x +:+ Q) = None \/ groups_then (x +:+ Q) = Some r.
Proof.
  unfold lit_then at 1 3. destruct (strings_HasPrefix _ _); [|by left].
  destruct (drop_cat_cases ")"%char (String.length lit_groups) x (held_tail +:+ rest) tail_no) as [y [H|[H Hy]]]; fold Q in H.
  - right. rewrite H. apply held_found.
  - left. rewrite H. by apply held_absent.
Qed.

Lemma any_groups_same x : any_then groups_then (x +:+ Q) = None \/ any_then groups_then (x +:+ Q) = Some r.
Proof.
  induction x as [|c x IH].
  - change (EmptyString +:+ Q) with Q. unfold Q at 1 2. cbn [any_then]. rewrite groups_absent by apply tail_no. apply (groups_same EmptyString).
  - change (String c x +:+ Q) with (String c (x +:+ Q)). cbn [any_then].
    destruct IH as [-> | ->]; [apply (groups_same (String c x))|by right].
Qed.

Lemma groups_found x g : any_then groups_then (x +:+ lit_groups +:+ g +:+ Q) = Some r.
Proof.
  apply any_then_cat. destruct (any_groups_same (lit_groups +:+ g)) as [H|H]; rewrite <- str_app_assoc in H; [|done].
  exfalso. change lit_groups with (String dq " (groups=") in H at 2. change (String dq ?a +:+ ?b) with (String dq (a +:+ b)) in H.
  cbn [any_then] in H. destruct (any_then groups_then (" (groups=" +:+ g +:+ Q)); [done|].
  change (String dq (" (groups=" +:+ g +:+ Q)) with (lit_groups +:+ g +:+ Q) in H. rewrite lit_then_cat, held_found in H. done.
Qed.
End Message.

Lemma span_not_cat c a b : str_has c a = false -> span_not c (a +:+ b) = (a +:+ (span_not c b).1, (span_not c b).2).
Proof.
  intros H. induction a as [|d a IH].
  - change (EmptyString +:+ b) with b. by destruct (span_not c b).
  - cbn [str_has] in H. apply orb_false_iff in H as [Hd H]. change (String d a +:+ b) with (String d (a +:+ b)). cbn [span_not].
    rewrite Hd, IH by done. done.
Qed.

Lemma match_rights_text rights res :
  rights <> EmptyString -> str_has ";"%char rights = false ->
  match_rights (rights +:+ resolution_text res) = Some (rights, res).
Proof.
  intros Hne Hs. unfold match_rights. rewrite span_not_cat by done.
  assert (Hr : span_not ";"%char (resolution_text res) = (EmptyString, resolution_text res))
    by (unfold resolution_text; by case_bool_decide).
  rewrite Hr. cbn [fst snd]. rewrite str_app_nil, bool_decide_false by done. unfold resolution_text.
  destruct (bool_decide (res = EmptyString)) eqn:Eb; [apply bool_decide_eq_true in Eb; by rewrite Eb|].
  change (lit_resolution +:+ res) with (String ";"%char (" resolution errors: " +:+ res)) at 1. cbv iota. by rewrite lit_then_cat.
Qed.

Lemma rights_no c rules :
  Forall (fun r => plain_rule r = true) rules -> c = ";"%char \/ c = ")"%char -> str_has c (rights_text rules) = false.
Proof.
  intros H Hc. apply str_has_Join; [|by destruct Hc as [-> | ->]]. rewrite Forall_map. eapply Forall_impl; [exact H|]. intros r Hr. cbn.
  unfold CompactString. rewrite !str_has_app.
  assert (Hb : str_has c (compact_body r) = false).
  { apply str_has_Join; [|by destruct Hc as [-> | ->]]. eapply Forall_impl; [apply (compact_parts_spec c r Hr); tauto|]. by intros p [? _]. }
  rewrite Hb. by destruct Hc as [-> | ->].
Qed.

Lemma rights_nonempty rules : rules <> [] -> rights_text rules <> EmptyString.
Proof.
  destruct rules as [|r [|r' rules]]; [done| |]; intros _; unfold rights_text; cbn [map strings_Join]; unfold CompactString;
    rewrite <- ?str_app_assoc; change ("{" +:+ ?x) with (String "{"%char x); discriminate.
Qed.

Lemma map_parse rules :
  Forall (fun r => plain_rule r = true) rules -> map parseCompactRuleString (map compact_body rules) = map inr rules.
Proof. induction 1 as [|r rules Hr _ IH]; [done|]. cbn. by rewrite parse_compact, IH. Qed.

Lemma rights_of_inr {A B} (l : list B) : rights_of (map (@inr A B) l) = l /\ lefts_of (map (@inr A B) l) = [].
Proof. induction l as [|x l [IH1 IH2]]; [done|]. unfold rights_of, lefts_of in *. cbn. by rewrite IH1, IH2. Qed.

(** C36. Escalation errors are read back exactly: from the text in which
    Kubernetes reports the missing rules, whatever the user and the groups are
    called, the pre-authorizer recovers the very rules and the resolution
    errors, as long as no name in a rule has a quote, backslash, comma,
    semicolon, closing brace or parenthesis in it. *)
Theorem escalation_error_roundtrip user groups rules res :
  rules <> [] -> Forall (fun r => plain_rule r = true) rules -> str_has ")"%char res = false ->
  parseEscalationErrorForMissingRules (ENew (escalation_message user groups rules res)) =
  (mkParsed rules (if bool_decide (res = EmptyString) then None else Some (ENew res)), None).
Proof.
  intros Hne Hp Hres.
  assert (Hm : errRegex (escalation_message user groups rules res) = Some (rights_text rules, res)).
  { unfold errRegex, escalation_message.
    assert (Ht : "user " +:+ fmt_q user +:+ " (groups=" +:+ fmt_qs groups +:+ lit_held +:+ rights_text rules +:+ resolution_text res =
      lit_user +:+ quote_body user +:+ lit_groups +:+ fmt_qs groups +:+ lit_held +:+ rights_text rules +:+ resolution_text res).
    { unfold fmt_q, lit_user. cbv zeta. rewrite <- !str_app_assoc. done. }
    rewrite Ht, lit_then_cat. apply groups_found.
    - rewrite str_has_app, rights_no by tauto. unfold resolution_text. case_bool_decide; [done|]. by rewrite str_has_app, Hres.
    - apply match_rights_text; [by apply rights_nonempty|]. apply rights_no; tauto. }
  unfold parseEscalationErrorForMissingRules. cbn [Error]. rewrite Hm. rewrite rule_texts_rights.
  - rewrite map_parse by done. destruct (@rights_of_inr error PolicyRule rules) as [-> ->]. done.
  - eapply Forall_impl; [exact Hp|]. intros r Hr. apply str_has_Join; [|done].
    eapply Forall_impl; [apply (compact_parts_spec "}"%char r Hr); tauto|]. by intros p [? _].
Qed.

Lemma escalation_error_roundtrip_witness :
  parseEscalationErrorForMissingRules
    (ENew (escalation_message "sa" ["system:authenticated"] [mkRule ["list"; "watch"] [""] ["pods"] [] []; mkRule ["get"] [] [] [] ["/healthz"]] "[role not found]")) =
  (mkParsed [mkRule ["list"; "watch"] [""] ["pods"] [] []; mkRule ["get"] [] [] [] ["/healthz"]] (Some (ENew "[role not found]")), None).
Proof.
  apply (escalation_error_roundtrip "sa" ["system:authenticated"]
           [mkRule ["list"; "watch"] [""] ["pods"] [] []; mkRule ["get"] [] [] [] ["/healthz"]] "[role not found]").
  - discriminate.
  - repeat constructor.
  - reflexivity.
Defined.
