(* ===== verification/RbacProps.v ===== *)
(** * Correctness of the pre-authorizer

    An answer without missing rules and without error means that every
    permission needed is held, and conversely; a permission that is denied is
    reported; the escalation errors are read back as the rules they list. *)

From Stdlib Require Import Ascii.
From S2P Require Import Prelude GoErrors ApiTypes Phase ObjectInstances Rbac EscalationText.

Section PreAuthorizer.
Context `{UA : UnstructuredAPI} (E : RbacEnv).
Context (range_perm : forall A (l : list A), ra_range E A l ≡ₚ l).

(** ** Decoding *)

(** The resource of an object, and its key. *)
Definition resource_of (u : Unstructured) : result GroupVersionResource :=
  ra_RESTMapping E (GroupKind_of (u_GVK u)) (gvk_Version (u_GVK u)).
Definition key_of (u : Unstructured) : NamespacedName := mkNN (u_GetNamespace u) (u_GetName u).

Definition keys_at (dm : decodedManifest) (gvr : GroupVersionResource) : list NamespacedName :=
  default [] (dm_gvrs dm !! gvr).

Lemma manifest_object_gvrs i dm u dm' :
  manifest_object E i dm u = (dm', None) ->
  exists gvr, resource_of u = inr gvr /\ dm_gvrs dm' = <[gvr := keys_at dm gvr ++ [key_of u]]> (dm_gvrs dm).
Proof.
  unfold manifest_object, resource_of, keys_at. destruct (ra_RESTMapping _ _ _) as [err|gvr]; [done|].
  destruct dm as [gvrs crs rs crbs rbs]. intros H. exists gvr. split; [done|]. cbn [dm_gvrs].
  repeat (case_match; simplify_eq); done.
Qed.

Lemma manifest_objects_gvrs l : forall dm dm',
  manifest_objects E dm l = (dm', []) ->
  exists objs, l = map inr objs /\ Forall (fun u => exists gvr, resource_of u = inr gvr) objs /\
    forall gvr key, key ∈ keys_at dm' gvr <-> key ∈ keys_at dm gvr \/ exists u, u ∈ objs /\ resource_of u = inr gvr /\ key = key_of u.
Proof.
  induction l as [|[err|u] l IH]; intros dm dm'; cbn [manifest_objects].
  - intros [= <-]. exists []. split; [done|]. split; [constructor|]. intros gvr key. split; [by left|].
    intros [H|(u & H & _)]; [done|]. by apply not_elem_of_nil in H.
  - by destruct (manifest_objects E dm l).
  - destruct (manifest_object E 0 dm u) as [dm1 [e|]] eqn:Eo; destruct (manifest_objects E dm1 l) as [dm2 errs] eqn:El; [done|].
    intros [= <- ->]. destruct (IH _ _ El) as (objs & -> & Hobjs & Hk). apply manifest_object_gvrs in Eo as (gvr & Hg & Heq).
    exists (u :: objs). split; [done|]. split; [constructor; [by exists gvr|done]|]. intros g key. rewrite Hk.
    unfold keys_at at 1. rewrite Heq. destruct (decide (g = gvr)) as [->|Hne].
    + rewrite lookup_insert_eq. cbn. rewrite elem_of_app, list_elem_of_singleton. split.
      * intros [[H| ->]|(v & Hv & Hr)]; [by left|right; exists u; split; [left|done]|right; exists v; split; [by right|done]].
      * intros [H|(v & [->|Hv]%elem_of_cons & Hr & ->)]; [by left; left|by left; right|right; by exists v].
    + rewrite lookup_insert_ne by done. split.
      * intros [H|(v & Hv & Hr)]; [by left|right; exists v; split; [by right|done]].
      * intros [H|(v & [->|Hv]%elem_of_cons & Hr & ->)]; [by left|congruence|right; by exists v].
Qed.

Lemma manifest_object_nonempty i dm u :
  (forall g, dm_gvrs dm !! g <> Some []) -> forall g, dm_gvrs (manifest_object E i dm u).1 !! g <> Some [].
Proof.
  intros H g. unfold manifest_object. destruct (ra_RESTMapping _ _ _) as [err|gvr]; [apply H|].
  destruct dm as [gvrs crs rs crbs rbs]. cbn in H.
  assert (Hi : <[gvr := default [] (gvrs !! gvr) ++ [key_of u]]> gvrs !! g <> Some []).
  { destruct (decide (g = gvr)) as [->|Hne]; [rewrite lookup_insert_eq; by destruct (default [] _)|].
    rewrite lookup_insert_ne by done. apply H. }
  repeat case_match; exact Hi.
Qed.

Lemma manifest_objects_nonempty l : forall dm,
  (forall g, dm_gvrs dm !! g <> Some []) -> forall g, dm_gvrs (manifest_objects E dm l).1 !! g <> Some [].
Proof.
  induction l as [|[err|u] l IH]; intros dm H; cbn [manifest_objects]; [done| |].
  - specialize (IH dm H). by destruct (manifest_objects E dm l).
  - pose proof (manifest_object_nonempty 0 dm u H) as H1. destruct (manifest_object E 0 dm u) as [dm1 err].
    specialize (IH dm1 H1). by destruct (manifest_objects E dm1 l).
Qed.

(** What decodes is a list of objects with a resource each, and the manifest
    holds their keys by resource. *)
Lemma decodeManifest_spec manifests dm :
  decodeManifest E manifests = inr dm ->
  exists objs, ra_Decode E manifests = map inr objs /\ Forall (fun u => exists gvr, resource_of u = inr gvr) objs /\
    (forall g, dm_gvrs dm !! g <> Some []) /\
    forall gvr key, key ∈ keys_at dm gvr <-> exists u, u ∈ objs /\ resource_of u = inr gvr /\ key = key_of u.
Proof.
  unfold decodeManifest. destruct (manifest_objects E empty_manifest (ra_Decode E manifests)) as [dm1 [|e errs]] eqn:Ed; [|done].
  intros [= <-]. pose proof (manifest_objects_nonempty (ra_Decode E manifests) empty_manifest) as Hn. rewrite Ed in Hn.
  destruct (manifest_objects_gvrs _ _ _ Ed) as (objs & -> & Ho & Hk). exists objs. split; [done|]. split; [done|].
  split; [apply Hn; intros g; cbn; by rewrite lookup_empty|].
  intros gvr key. rewrite Hk. unfold keys_at at 1. cbn. rewrite lookup_empty. cbn. split; [|by right].
  intros [H|H]; [by apply not_elem_of_nil in H|done].
Qed.

(** ** The permissions required *)

(** What managing an object takes: each object verb on it, the collection verbs
    in its namespace, and the cluster-wide ones on its resource. *)
Definition needed_for (ccv : list string) (user : string) (gvr : GroupVersionResource) (key : NamespacedName)
    (ar : AttributesRecord) : Prop :=
  (exists v, v ∈ objectVerbs /\ ar = resource_record user (nn_Namespace key) (nn_Name key) gvr v) \/
  (exists v, v ∈ namespacedCollectionVerbs /\ ar = resource_record user (nn_Namespace key) "" gvr v) \/
  (exists v, v ∈ ccv /\ ar = resource_record user "" "" gvr v).

Lemma elem_concat_map {A B} (f : A -> list B) (l : list A) y : y ∈ concat (map f l) <-> exists x, x ∈ l /\ y ∈ f x.
Proof.
  rewrite list_elem_of_In, in_concat. split.
  - intros (ys & Hys & Hy). apply in_map_iff in Hys as (x & <- & Hx). exists x. by rewrite !list_elem_of_In.
  - intros (x & Hx & Hy). exists (f x). rewrite <- !list_elem_of_In. split; [by apply list_elem_of_fmap_2|done].
Qed.

Lemma elem_map {A B} (f : A -> B) (l : list A) y : y ∈ map f l <-> exists x, x ∈ l /\ y = f x.
Proof. rewrite list_elem_of_fmap. naive_solver. Qed.

Lemma gvr_records_spec ccv user gvr keys ar :
  keys <> [] ->
  ar ∈ gvr_records user ccv namespacedCollectionVerbs gvr keys <-> exists key, key ∈ keys /\ needed_for ccv user gvr key ar.
Proof.
  intros Hne. unfold gvr_records, needed_for. rewrite !elem_of_app, !elem_concat_map, elem_map. split.
  - intros [(k & Hk & Ha)|[(ns & Hns & Ha)|(v & Hv & ->)]].
    + apply elem_map in Ha as (v & Hv & ->). exists k. split; [done|]. left. by exists v.
    + apply elem_map in Ha as (v & Hv & ->). rewrite elem_of_sort_by, elem_of_remove_dups, elem_map in Hns.
      destruct Hns as (k & Hk & ->). exists k. split; [done|]. right. left. by exists v.
    + destruct keys as [|k keys]; [done|]. exists k. split; [by left|]. right. right. by exists v.
  - intros (k & Hk & [(v & Hv & ->)|[(v & Hv & ->)|(v & Hv & ->)]]).
    + left. exists k. split; [done|]. apply elem_map. by exists v.
    + right. left. exists (nn_Namespace k). split; [|apply elem_map; by exists v].
      rewrite elem_of_sort_by, elem_of_remove_dups, elem_map. by exists k.
    + right. right. by exists v.
Qed.

Lemma records_spec dm ccv user ar :
  (forall g, dm_gvrs dm !! g <> Some []) ->
  ar ∈ asAuthorizationAttributesRecordsForUser E dm user ccv namespacedCollectionVerbs <->
  exists gvr key, key ∈ keys_at dm gvr /\ needed_for ccv user gvr key ar.
Proof.
  intros Hn. unfold asAuthorizationAttributesRecordsForUser, keys_at. rewrite elem_concat_map. split.
  - intros ([gvr keys] & Hin & Ha). rewrite range_perm, elem_of_map_to_list in Hin. cbn [fst snd] in Ha.
    apply gvr_records_spec in Ha as (key & Hk & Ha); [|intros ->; by eapply Hn]. exists gvr, key. by rewrite Hin.
  - intros (gvr & key & Hk & Ha). destruct (dm_gvrs dm !! gvr) as [keys|] eqn:El; [|by apply not_elem_of_nil in Hk].
    exists (gvr, keys). rewrite range_perm, elem_of_map_to_list. split; [done|]. cbn [fst snd].
    apply gvr_records_spec; [intros ->; by eapply Hn|by exists key].
Qed.

(** ** Authorizing *)

Definition allowed (ar : AttributesRecord) : Prop := exists reason, ra_Authorize E ar = (DecisionAllow, reason, None).
Definition denied (ar : AttributesRecord) : Prop :=
  exists d reason, ra_Authorize E ar = (d, reason, None) /\ d <> DecisionAllow.

Lemma attributesAllowed_spec ar :
  (attributesAllowed E ar = inr true <-> allowed ar) /\ (attributesAllowed E ar = inr false <-> denied ar).
Proof.
  unfold attributesAllowed, allowed, denied. destruct (ra_Authorize E ar) as [[d reason] [err|]].
  - split; split; try done; naive_solver.
  - destruct (decide (d = DecisionAllow)) as [->|Hd].
    + rewrite bool_decide_true by done. split; split; try done; naive_solver.
    + rewrite bool_decide_false by done. split; split; try done; naive_solver.
Qed.

Definition rules_at (m : gmap string (list PolicyRule)) (ns : string) : list PolicyRule := default [] (m !! ns).

Lemma append_at_ne {V} k (l : list V) m : append_at k l m <> ∅.
Proof. apply insert_non_empty. Qed.

Lemma rules_append_at k l m ns :
  rules_at (append_at k l m) ns = if decide (ns = k) then rules_at m ns ++ l else rules_at m ns.
Proof.
  unfold rules_at, append_at. destruct (decide (ns = k)) as [->|Hne]; [by rewrite lookup_insert_eq|].
  by rewrite lookup_insert_ne.
Qed.

(** Missing rules are only added. *)
Definition grows (m m' : gmap string (list PolicyRule)) : Prop := forall ns r, r ∈ rules_at m ns -> r ∈ rules_at m' ns.

Lemma grows_append k l m : grows m (append_at k l m).
Proof. intros ns r H. rewrite rules_append_at. case_decide; [apply elem_of_app; by left|done]. Qed.

Lemma authorize_records_spec records : forall m m' errs,
  authorize_records E records m = (m', errs) ->
  grows m m' /\ (forall ar, ar ∈ records -> denied ar -> policyRuleFromAttributesRecord ar ∈ rules_at m' (at_Namespace ar)) /\
  (m' = ∅ /\ errs = [] <-> m = ∅ /\ Forall allowed records).
Proof.
  induction records as [|ar records IH]; intros m m' errs; cbn [authorize_records].
  { intros [= <- <-]. split; [by intros ns r|]. split; [by intros ar ?%not_elem_of_nil|]. naive_solver. }
  destruct (attributesAllowed_spec ar) as [Ht Hf]. destruct (attributesAllowed E ar) as [err|[|]].
  - destruct (authorize_records E records m) as [m1 errs1] eqn:Er. intros [= <- <-]. destruct (IH _ _ _ Er) as (H1 & H2 & H3).
    split; [done|]. split.
    + intros a [->|Ha]%elem_of_cons Hd; [|by apply H2]. by apply Hf in Hd.
    + split; [by intros [_ ?]|]. intros [_ Hal]. inversion Hal as [|? ? Ha _]. by apply Ht in Ha.
  - intros Er. destruct (IH _ _ _ Er) as (H1 & H2 & H3). split; [done|]. split.
    + intros a [->|Ha]%elem_of_cons Hd; [|by apply H2]. by apply Hf in Hd.
    + rewrite H3. rewrite Forall_cons. assert (allowed ar) by by apply Ht. tauto.
  - intros Er. destruct (IH _ _ _ Er) as (H1 & H2 & H3). split.
    { intros ns r H. apply H1, grows_append, H. }
    split.
    + intros a [->|Ha]%elem_of_cons Hd; [|by apply H2]. apply H1. rewrite rules_append_at, decide_True by done.
      apply elem_of_app. right. by left.
    + rewrite H3. split; [intros [Hm _]; by apply append_at_ne in Hm|].
      intros [_ Hal]. inversion Hal as [|? ? Ha _]. by apply Ht in Ha.
Qed.

Lemma check_objects_spec dm user objs : forall m m' evals parses,
  check_objects E dm user objs m = (m', evals, parses) ->
  grows m m' /\
  (forall o err, o ∈ objs -> checkEscalation E dm user o = Some err ->
     (forall r, r ∈ ps_MissingRules (parseEscalationErrorForMissingRules err).1 -> r ∈ rules_at m' (nn_Namespace (rbac_key o))) /\
     (parseEscalationErrorForMissingRules err).2 ∈ parses) /\
  (m' = ∅ -> m = ∅ /\ Forall (fun o => checkEscalation E dm user o = None) objs) /\
  (Forall (fun o => checkEscalation E dm user o = None) objs -> m' = m /\ evals = [] /\ parses = []).
Proof.
  induction objs as [|o objs IH]; intros m m' evals parses; cbn [check_objects].
  { intros [= <- <- <-]. split; [by intros ns r|]. split; [by intros o err ?%not_elem_of_nil|]. done. }
  destruct (checkEscalation E dm user o) as [err|] eqn:Ec.
  - destruct (parseEscalationErrorForMissingRules err) as [result perr] eqn:Ep.
    destruct (check_objects E dm user objs _) as [[m1 ev1] ps1] eqn:Er. intros [= <- <- <-].
    destruct (IH _ _ _ _ Er) as (H1 & H2 & H3 & H4). split.
    { intros ns r H. apply H1, grows_append, H. }
    split; [|split].
    + intros o' err' [->|Ho]%elem_of_cons He.
      * rewrite Ec in He. injection He as <-. rewrite Ep. split; [|by left]. intros r Hr. apply H1.
        rewrite rules_append_at, decide_True by done. apply elem_of_app. by right.
      * destruct (H2 o' err' Ho He). split; [done|by right].
    + intros Hm. apply H3 in Hm as [Hm _]. by apply append_at_ne in Hm.
    + intros Hal. inversion Hal as [|? ? Ha _]. congruence.
  - intros Er. destruct (IH _ _ _ _ Er) as (H1 & H2 & H3 & H4). split; [done|]. split; [|split].
    + intros o' err' [->|Ho]%elem_of_cons He; [congruence|by apply H2].
    + rewrite Forall_cons. intros Hm. apply H3 in Hm. tauto.
    + rewrite Forall_cons. intros [_ Hal]. by apply H4.
Qed.

Lemma errors_Join_nil es : errors_Join es = None <-> Forall (fun e => e = None) es.
Proof.
  unfold errors_Join. induction es as [|[e|] es IH]; cbn; [split; constructor| |].
  - split; [done|]. intros H. by inversion H.
  - rewrite IH, Forall_cons. tauto.
Qed.

Lemma PreAuthorize_granted ccv user manifests perms :
  PreAuthorize E ccv user manifests perms = ([], None) <->
  exists dm objs, decodeManifest E manifests = inr dm /\ ra_Decode E manifests = map inr objs /\
    (forall u, u ∈ objs -> exists gvr, resource_of u = inr gvr /\
       forall ar, needed_for ccv user gvr (key_of u) ar -> allowed ar) /\
    Forall allowed perms /\ Forall (fun o => checkEscalation E dm user o = None) (rbacObjects E dm).
Proof.
  unfold PreAuthorize. destruct (decodeManifest E manifests) as [err|dm] eqn:Ed.
  { split; [done|]. by intros (dm & objs & ? & _). }
  destruct (decodeManifest_spec _ _ Ed) as (objs & Hdec & Hres & Hne & Hk).
  unfold authorizeAttributesRecords. destruct (authorize_records E _ ∅) as [m1 errs1] eqn:Ea.
  destruct (check_objects E dm user (rbacObjects E dm) m1) as [[m2 evals] parses] eqn:Ec.
  destruct (authorize_records_spec _ _ _ _ Ea) as (_ & _ & Hauth).
  destruct (check_objects_spec _ _ _ _ _ _ _ Ec) as (_ & _ & Hc1 & Hc2).
  assert (Hneed : Forall allowed (asAuthorizationAttributesRecordsForUser E dm user ccv namespacedCollectionVerbs) <->
    forall u, u ∈ objs -> exists gvr, resource_of u = inr gvr /\ forall ar, needed_for ccv user gvr (key_of u) ar -> allowed ar).
  { rewrite Forall_forall. split.
    - intros H u Hu. rewrite Forall_forall in Hres. destruct (Hres u Hu) as [gvr Hg]. exists gvr. split; [done|].
      intros ar Ha. apply H, records_spec; [done|]. exists gvr, (key_of u). split; [|done]. apply Hk. by exists u.
    - intros H ar Ha. apply records_spec in Ha as (gvr & key & Hkey & Ha); [|done]. apply Hk in Hkey as (u & Hu & Hg & ->).
      destruct (H u Hu) as (gvr' & Hg' & Hal). apply Hal. congruence. }
  split.
  - intros [= Hall Herr].
    assert (Hm2 : m2 = ∅).
    { apply (f_equal length) in Hall. rewrite sort_by_length, length_map, range_perm in Hall. cbn in Hall.
      apply map_to_list_empty_iff. by destruct (map_to_list m2). }
    subst m2. destruct (Hc1 eq_refl) as [-> Hesc]. destruct (Hc2 Hesc) as (_ & -> & ->). cbn in Herr.
    destruct errs1 as [|e errs1].
    + destruct Hauth as [Hauth _]. destruct (Hauth (conj eq_refl eq_refl)) as [_ Hal]. apply Forall_app in Hal as [Hal Hp].
      exists dm, objs. split_and!; try done. by apply Hneed.
    + rewrite errors_Join_map in Herr. done.
  - intros (dm' & objs' & [= <-] & Hdec' & Hu & Hp & Hesc). rewrite Hdec in Hdec'.
    assert (objs' = objs) as ->. { apply (inj (fmap inr) _ _ (eq_sym Hdec')). }
    destruct (Hc2 Hesc) as (-> & -> & ->). destruct Hauth as [_ Hauth].
    destruct Hauth as [-> ->]; [split; [done|]; apply Forall_app; by rewrite Hneed|].
    assert (Hr : ra_range E _ (map_to_list (∅ : gmap string (list PolicyRule))) = []).
    { rewrite map_to_list_empty. by apply Permutation_nil_r. }
    rewrite Hr. done.
Qed.

(** C21. The pre-authorizer is exact: it answers with no missing rule and no
    error precisely when the whole manifest can be read, the user holds every
    permission that managing each of its objects takes as well as the
    additional ones, and no RBAC object of the manifest grants what the user
    does not hold. *)
Theorem PreAuthorize_exact ccv user manifests perms :
  PreAuthorize E ccv user manifests perms = ([], None) <->
  exists dm objs, decodeManifest E manifests = inr dm /\ ra_Decode E manifests = map inr objs /\
    (forall u, u ∈ objs -> exists gvr, resource_of u = inr gvr /\
       forall ar, needed_for ccv user gvr (key_of u) ar -> allowed ar) /\
    Forall allowed perms /\ Forall (fun o => checkEscalation E dm user o = None) (rbacObjects E dm).
Proof. apply PreAuthorize_granted. Qed.

(** ** What is reported *)

(** The same rule but for its verbs. *)
Definition same_scope (a b : PolicyRule) : Prop :=
  pr_APIGroups b = pr_APIGroups a /\ pr_Resources b = pr_Resources a /\ pr_ResourceNames b = pr_ResourceNames a /\
  pr_NonResourceURLs b = pr_NonResourceURLs a.

(** validation.CompactRules only joins rules that differ by their verbs. *)
Definition compacts : Prop :=
  forall rules compact r, ra_CompactRules E rules = inr compact -> r ∈ rules ->
    exists r', r' ∈ compact /\ same_scope r r' /\ pr_Verbs r ⊆ pr_Verbs r'.

(** The answer names the rule's namespace and, in it, its verbs on its resources. *)
Definition reports (answer : list ScopedPolicyRules) (ns : string) (rule : PolicyRule) : Prop :=
  exists sp r, sp ∈ answer /\ sp_Namespace sp = ns /\ r ∈ sp_MissingRules sp /\ same_scope rule r /\
    forall v, v ∈ pr_Verbs rule -> v ∈ pr_Verbs r \/ "*" ∈ pr_Verbs r.

Lemma dedup_reports r : same_scope r (dedup_verbs r) /\
  forall v, v ∈ pr_Verbs r -> v ∈ pr_Verbs (dedup_verbs r) \/ "*" ∈ pr_Verbs (dedup_verbs r).
Proof.
  split; [done|]. intros v Hv. unfold dedup_verbs. cbn. case_bool_decide; [right; by left|]. left.
  by rewrite elem_of_sort_by, elem_of_remove_dups.
Qed.

Lemma scoped_reports (m : gmap string (list PolicyRule)) ns rule :
  compacts -> rule ∈ rules_at m ns ->
  reports (sort_by scoped_cmp (map (fun kv => scoped E kv.1 kv.2) (ra_range E _ (map_to_list m)))) ns rule.
Proof.
  intros Hc Hin. unfold rules_at in Hin. destruct (m !! ns) as [rules|] eqn:El; [|by apply not_elem_of_nil in Hin]. cbn in Hin.
  assert (Hr : exists r, r ∈ (match ra_CompactRules E rules with inr compact => compact | inl _ => rules end) /\
    same_scope rule r /\ pr_Verbs rule ⊆ pr_Verbs r).
  { destruct (ra_CompactRules E rules) as [err|compact] eqn:Ec; [by exists rule|]. by eapply Hc. }
  destruct Hr as (r & Hr & Hs & Hv). destruct (dedup_reports r) as [Hs' Hv'].
  exists (scoped E ns rules), (dedup_verbs r). split; [|split; [done|split; [|split]]].
  - rewrite elem_of_sort_by, elem_map. exists (ns, rules). by rewrite range_perm, elem_of_map_to_list.
  - unfold scoped. cbn [sp_MissingRules]. rewrite elem_of_sort_by, elem_map. by exists r.
  - unfold same_scope in *. intuition congruence.
  - intros v Hin'. by apply Hv', Hv.
Qed.

(** What is denied is reported: a permission that managing an object of
    the manifest takes, or an additional one, and that the authorizer does not
    grant, is listed among the missing rules of its namespace; so is every rule
    an escalation check names. *)
Theorem denied_is_reported ccv user manifests perms dm objs :
  compacts -> decodeManifest E manifests = inr dm -> ra_Decode E manifests = map inr objs ->
  let answer := (PreAuthorize E ccv user manifests perms).1 in
  (forall u gvr ar, u ∈ objs -> resource_of u = inr gvr -> needed_for ccv user gvr (key_of u) ar -> denied ar ->
     reports answer (at_Namespace ar) (policyRuleFromAttributesRecord ar)) /\
  (forall ar, ar ∈ perms -> denied ar -> reports answer (at_Namespace ar) (policyRuleFromAttributesRecord ar)) /\
  (forall o err r, o ∈ rbacObjects E dm -> checkEscalation E dm user o = Some err ->
     r ∈ ps_MissingRules (parseEscalationErrorForMissingRules err).1 -> reports answer (nn_Namespace (rbac_key o)) r).
Proof.
  intros Hc Hdm Hobjs answer. destruct (decodeManifest_spec _ _ Hdm) as (objs' & Hdec & Hres & Hne & Hk).
  rewrite Hobjs in Hdec. apply (inj (fmap inr)) in Hdec as <-. unfold answer, PreAuthorize. rewrite Hdm.
  unfold authorizeAttributesRecords. destruct (authorize_records E _ ∅) as [m1 errs1] eqn:Ea.
  destruct (check_objects E dm user (rbacObjects E dm) m1) as [[m2 evals] parses] eqn:Ec. cbn [fst].
  destruct (authorize_records_spec _ _ _ _ Ea) as (_ & Hden & _).
  destruct (check_objects_spec _ _ _ _ _ _ _ Ec) as (Hg & Hesc & _). split; [|split].
  - intros u gvr ar Hu Hgvr Hn Hd. apply scoped_reports; [done|]. apply Hg, Hden; [|done]. apply elem_of_app. left.
    apply records_spec; [done|]. exists gvr, (key_of u). split; [|done]. apply Hk. by exists u.
  - intros ar Ha Hd. apply scoped_reports; [done|]. apply Hg, Hden; [|done]. apply elem_of_app. by right.
  - intros o err r Ho He Hr. apply scoped_reports; [done|]. by apply (proj1 (Hesc o err Ho He)).
Qed.

(** The parse of an error that does not begin as an escalation error. *)
Lemma unparsed_error err :
  strings_HasPrefix (Error err) lit_user = false ->
  parseEscalationErrorForMissingRules err =
  (mkParsed [] None, Some (ENew ("unexpected format of escalation check error string: " +:+ fmt_q (Error err)))).
Proof. intros H. unfold parseEscalationErrorForMissingRules, errRegex, lit_then at 1. by rewrite H. Qed.

(** The rules missing for an aggregation rule are never reported: the
    check of a cluster role with aggregation prefixes the escalation error, so
    that its text no longer has the expected form; the pre-authorizer then
    reports an evaluation error instead of the missing rules. *)
Theorem aggregation_rule_unread ccv user manifests perms dm cr err :
  let ctx := mkCtx user (nn_Namespace (cr_Key cr)) "clusterroles" in
  decodeManifest E manifests = inr dm -> OClusterRole cr ∈ rbacObjects E dm -> hasAggregationRule cr = true ->
  ra_EscalationAllowed E ctx || ra_RoleEscalationAuthorized E ctx = false ->
  ra_ConfirmNoEscalation E ctx fullAuthority = Some err ->
  exists wrapped, checkEscalation E dm user (OClusterRole cr) = Some wrapped /\
    ps_MissingRules (parseEscalationErrorForMissingRules wrapped).1 = [] /\
    (PreAuthorize E ccv user manifests perms).2 <> None.
Proof.
  intros ctx Hdm Hin Hag Hna Hcon.
  assert (He : checkEscalation E dm user (OClusterRole cr) =
    Some (EWrap "must have cluster-admin privileges to use an aggregationRule: " err "")).
  { cbn. unfold checkClusterRoleEscalation. fold ctx. by rewrite Hna, Hag, Hcon. }
  eexists. split; [exact He|].
  pose proof (unparsed_error (EWrap "must have cluster-admin privileges to use an aggregationRule: " err "") eq_refl) as Hp.
  split; [by rewrite Hp|]. unfold PreAuthorize. rewrite Hdm.
  unfold authorizeAttributesRecords. destruct (authorize_records E _ ∅) as [m1 errs1].
  destruct (check_objects E dm user (rbacObjects E dm) m1) as [[m2 evals] parses] eqn:Ec. cbn [snd].
  destruct (check_objects_spec _ _ _ _ _ _ _ Ec) as (_ & Hesc & _). destruct (Hesc _ _ Hin He) as [_ Hps]. rewrite Hp in Hps. cbn [snd] in Hps.
  destruct (errors_Join parses) as [e|] eqn:Ej; [done|]. apply errors_Join_nil in Ej. rewrite Forall_forall in Ej. by apply Ej in Hps.
Qed.

End PreAuthorizer.

(** ** Runs *)

Module RbacSamples.

Definition crs : GroupVersionResource := mkGVR rbac_group "v1" "clusterroles".

(** A manifest of a deployment and a cluster role that reads pods, with or
    without aggregation, on a cluster that denies the given verbs and lets no
    one grant more than their own rights. *)
Definition cluster (aggregated : bool) (denies : list string) (guarded : bool) : RbacEnv := {|
  ra_Decode _ := [inr (manifest "apps/v1" "Deployment" "ns" "controller"); inr (manifest "rbac/v1" "ClusterRole" "" "reader")];
  ra_RESTMapping gk v := inr (if bool_decide (gk_Kind gk = "ClusterRole") then crs else mkGVR (gk_Group gk) v "deployments");
  ra_AsClusterRole u := inr (mkClusterRole (mkNN "" "reader") [mkRule ["get"] [""] ["pods"] [] []]
                               (if aggregated then Some [mkSelector ∅ []] else None));
  ra_AsClusterRoleBinding u := inl (ENew "not a binding");
  ra_AsRole u := inl (ENew "not a role");
  ra_AsRoleBinding u := inl (ENew "not a binding");
  ra_Authorize ar := (if bool_decide (at_Verb ar ∈ denies) then DecisionNoOpinion else DecisionAllow, "", None);
  ra_EscalationAllowed _ := negb guarded;
  ra_RoleEscalationAuthorized _ := false;
  ra_BindingAuthorized _ _ _ := false;
  ra_GetRoleReferenceRules _ _ := ([], None);
  ra_ConfirmNoEscalation ctx rules := Some (ENew (escalation_message (ctx_User ctx) ["system:authenticated"] rules ""));
  ra_CompactRules rules := inr rules;
  ra_RuleString := CompactString;
  ra_range _ l := l;
|}.

Lemma cluster_range a d g A (l : list A) : ra_range (cluster a d g) A l ≡ₚ l.
Proof. done. Qed.

Lemma cluster_compacts a d g : compacts (cluster a d g).
Proof. intros rules compact r [= <-] Hr. by exists r. Qed.

Definition decoded (a g : bool) : decodedManifest := (manifest_objects (cluster a [] g) empty_manifest (ra_Decode (cluster a [] g) "")).1.

Lemma PreAuthorize_exact_witness :
  exists dm objs, decodeManifest (cluster false [] false) "" = inr dm /\ ra_Decode (cluster false [] false) "" = map inr objs /\
    (forall u, u ∈ objs -> exists gvr, resource_of (cluster false [] false) u = inr gvr /\
       forall ar, needed_for ["list"] "sa" gvr (key_of u) ar -> allowed (cluster false [] false) ar) /\
    Forall (allowed (cluster false [] false)) [] /\
    Forall (fun o => checkEscalation (cluster false [] false) dm "sa" o = None) (rbacObjects (cluster false [] false) dm).
Proof.
  apply (PreAuthorize_exact (cluster false [] false) (cluster_range _ _ _) ["list"] "sa" "" []).
  vm_compute. reflexivity.
Defined.

(** The verb delete is denied, on the deployment among others. *)
Lemma denied_is_reported_witness :
  reports (PreAuthorize (cluster false ["delete"] true) [] "sa" "" []).1 "ns"
    (mkRule ["delete"] ["apps"] ["deployments"] ["controller"] []) /\
  reports (PreAuthorize (cluster false ["delete"] true) [] "sa" "" []).1 "" (mkRule ["get"] [""] ["pods"] [] []).
Proof.
  destruct (denied_is_reported (cluster false ["delete"] true) (cluster_range _ _ _) [] "sa" "" []
              (decoded false true) [manifest "apps/v1" "Deployment" "ns" "controller"; manifest "rbac/v1" "ClusterRole" "" "reader"])
    as (H1 & _ & H3); [apply cluster_compacts|vm_compute; reflexivity|reflexivity|]. split.
  - apply (H1 (manifest "apps/v1" "Deployment" "ns" "controller") (mkGVR "apps" "v1" "deployments")
             (resource_record "sa" "ns" "controller" (mkGVR "apps" "v1" "deployments") "delete")).
    + apply list_elem_of_here.
    + vm_compute. reflexivity.
    + left. exists "delete". split; [do 3 right; apply list_elem_of_here|vm_compute; reflexivity].
    + exists DecisionNoOpinion, "". split; [reflexivity|discriminate].
  - apply (H3 (OClusterRole (mkClusterRole (mkNN "" "reader") [mkRule ["get"] [""] ["pods"] [] []] None))
             (ENew (escalation_message "sa" ["system:authenticated"] [mkRule ["get"] [""] ["pods"] [] []] ""))).
    + vm_compute. apply list_elem_of_here.
    + reflexivity.
    + vm_compute. apply list_elem_of_here.
Defined.

Lemma aggregation_rule_unread_witness :
  exists err, (PreAuthorize (cluster true [] true) [] "sa" "" []).2 = Some err.
Proof.
  destruct (aggregation_rule_unread (cluster true [] true) [] "sa" "" [] (decoded true true)
              (mkClusterRole (mkNN "" "reader") [mkRule ["get"] [""] ["pods"] [] []] (Some [mkSelector ∅ []]))
              (ENew (escalation_message "sa" ["system:authenticated"] fullAuthority ""))) as (_ & _ & _ & H).
  - vm_compute. reflexivity.
  - vm_compute. apply list_elem_of_here.
  - reflexivity.
  - reflexivity.
  - reflexivity.
  - destruct ((PreAuthorize (cluster true [] true) [] "sa" "" []).2) as [err|]; [by exists err|by destruct H].
Defined.

End RbacSamples.
