(* ===== verification/BoxApply.v ===== *)
(** * Applying a bundle as a ClusterObjectSet revision

    src/internal/operator-controller/applier/boxcutter.go, the Boxcutter
    applier and the BoxcutterStorageMigrator, with shouldSkipPreflight of
    applier/preflight.go and the pre-authorization helpers of applier/helm.go.

    The API server, Helm, the pre-authorizer and the preflights answer through
    [BoxEnv]: an answer may depend on everything that was asked before (the
    history of [event]s), and nothing is assumed of it unless a theorem says
    so.  A server-side apply also writes the server's answer into the
    configuration; the code reads nothing of that answer but the name, which
    an apply cannot change, so that only the error is kept. *)

From S2P Require Import Prelude GoErrors ApiTypes Phase SecretPacker ExtSteps RevisionGen Rbac.

(** ** Preflights and pre-authorization *)

(** preflight.go: the states of an apply. *)
Definition StateNeedsInstall : string := "NeedsInstall".
Definition StateNeedsUpgrade : string := "NeedsUpgrade".
Definition StateUnchanged : string := "Unchanged".

(** func shouldSkipPreflight(ctx, preflight, ext, state) bool; the argument is
    whether the preflight is a *crdupgradesafety.Preflight. *)
Definition shouldSkipPreflight (isCRDUpgradeSafetyInstance : bool) (ext : ClusterExtension) : bool :=
  match es_Install (ext_Spec ext) with
  | Some (mkInstallConfig (Some (mkPreflight (Some c)))) =>
      isCRDUpgradeSafetyInstance && bool_decide (cs_Enforcement c = CRDUpgradeSafetyEnforcementNone)
  | _ => false
  end.

(** func ruleDescription(ns string, rule rbacv1.PolicyRule) string *)
Definition rule_part (name : string) (l : list string) : string :=
  match l with
  | [] => EmptyString
  | _ => " " +:+ name +:+ ":[" +:+ strings_Join (sort_by string_cmp l) "," +:+ "]"
  end.

Definition ruleDescription (ns : string) (rule : PolicyRule) : string :=
  "Namespace:" +:+ fmt_q ns +:+ rule_part "APIGroups" (pr_APIGroups rule) +:+
  rule_part "Resources" (pr_Resources rule) +:+ rule_part "ResourceNames" (pr_ResourceNames rule) +:+
  rule_part "Verbs" (pr_Verbs rule) +:+ rule_part "NonResourceURLs" (pr_NonResourceURLs rule).

(** func formatPreAuthorizerOutput(missingRules, authErr) error *)
Definition formatPreAuthorizerOutput (missingRules : list ScopedPolicyRules) (authErr : option error)
  : option error :=
  let missing :=
    match missingRules with
    | [] => None
    | _ =>
        let descriptions :=
          concat (map (fun pr => map (ruleDescription (sp_Namespace pr)) (sp_MissingRules pr)) missingRules) in
        Some (ENew ("service account requires the following permissions to manage cluster extension:" +:+ nl +:+
                    "  " +:+ strings_Join (sort_by string_cmp descriptions) (nl +:+ "  ")))
    end in
  let evaluation := (fun e => EWrap "authorization evaluation error: " e "") <$> authErr in
  match errors_Join [missing; evaluation] with
  | Some joined => Some (ENew ("pre-authorization failed: " +:+ Error joined))
  | None => None
  end.

(** func getUserInfo(ext) user.Info: the user's name. *)
Definition getUserInfo (ext : ClusterExtension) : string :=
  "system:serviceaccount:" +:+ es_Namespace (ext_Spec ext) +:+ ":" +:+ es_ServiceAccount (ext_Spec ext).

(** func revisionManagementPerms(rev) *)
Definition revisionManagementPerms (rev : COSAC) (user : string) : list AttributesRecord :=
  [mkAttributes user "" (default EmptyString (ca_Name rev)) api_Group api_Version "clusterobjectsets/finalizers" "" true ""
     "update"].

(** ** Inline objects and references *)

(** func saveInlineObjects(rev) *)
Definition saveInlineObjects (rev : COSAC) : list (list (option Unstructured)) :=
  map (fun p => map oa_Object (pa_Objects p)) (ca_Phases rev).

(** func restoreInlineObjects(rev, saved) *)
Definition restore_object (o : ObjectAC) (saved : option Unstructured) : ObjectAC :=
  mkObjectAC saved None (oa_CollisionProtection o).

(** Objects beyond the saved ones stay as they are. *)
Fixpoint restore_objects (objs : list ObjectAC) (saved : list (option Unstructured)) : list ObjectAC :=
  match objs, saved with
  | o :: objs, s :: saved => restore_object o s :: restore_objects objs saved
  | _, _ => objs
  end.

Fixpoint restore_phases (ps : list PhaseAC) (saved : list (list (option Unstructured))) : list PhaseAC :=
  match ps, saved with
  | p :: ps, s :: saved => mkPhaseAC (pa_Name p) (restore_objects (pa_Objects p) s) :: restore_phases ps saved
  | _, _ => ps
  end.

Definition restoreInlineObjects (rev : COSAC) (saved : list (list (option Unstructured))) : COSAC :=
  set_phases (restore_phases (ca_Phases rev) saved) rev.

(** func extractPhasesForPacking(phases) *)
Definition extract_object (o : ObjectAC) : ClusterObjectSetObject :=
  mkCOSObject (default (mkUnstr None) (oa_Object o)) (mkSourceRef "" "" "")
    (default EmptyString (oa_CollisionProtection o)).

Definition extractPhasesForPacking (phases : list PhaseAC) : list ClusterObjectSetPhase :=
  map (fun p => mkCOSPhase (default EmptyString (pa_Name p)) (map extract_object (pa_Objects p)) EmptyString) phases.

(** func replaceInlineWithRefs(rev, pack) *)
Definition replace_object (refs : gmap (nat * nat) ObjectSourceRef) (phaseIdx objIdx : nat) (o : ObjectAC)
  : ObjectAC :=
  match refs !! (phaseIdx, objIdx) with
  | None => o
  | Some ref => mkObjectAC None (Some ref) (oa_CollisionProtection o)
  end.

Definition replaceInlineWithRefs (rev : COSAC) (pack : PackResult) : COSAC :=
  set_phases
    (imap (fun i p => mkPhaseAC (pa_Name p) (imap (replace_object (Refs pack) i) (pa_Objects p))) (ca_Phases rev))
    rev.

(** func getObjects(rev) []client.Object *)
Definition getObjects (rev : COSAC) : list Unstructured :=
  concat (map (fun p => omap oa_Object (pa_Objects p)) (ca_Phases rev)).

(** ** The environment *)

Inductive event :=
| EvListRevisions (owner : string)
| EvApply (rev : COSAC)
| EvCreate (s : Secret)
| EvDelete (name : string)
| EvGet (name : string)
| EvListSecrets (namespace revision : string)
| EvPatch (s : Secret)
| EvStatusUpdate (rev : ClusterObjectSet)
| EvPreAuthorize (user : string) (manifests : string) (perms : list AttributesRecord)
| EvPreflightInstall (objs : list Unstructured)
| EvPreflightUpgrade (objs : list Unstructured)
| EvActionClient
| EvHelmGet (name : string)
| EvHelmHistory (name : string).

Definition H : Type := list event.

(** A preflight: whether it is the CRD upgrade safety one, and its checks. *)
Record Preflight := mkPreflightCheck {
  pf_isCRDUpgradeSafety : bool;
  pf_Install : H -> list Unstructured -> option error;
  pf_Upgrade : H -> list Unstructured -> option error;
}.

Record BoxEnv := mkEnv {
  be_ListRevisions : H -> string -> result (list ClusterObjectSet);
  be_Apply : H -> COSAC -> option error;
  (* the Secret as the server returned it, or the error *)
  be_Create : H -> Secret -> result Secret;
  be_Delete : H -> string -> option error;
  be_Get : H -> string -> result ClusterObjectSet;
  be_ListSecrets : H -> string -> string -> result (list Secret);
  be_Patch : H -> Secret -> option error;
  be_StatusUpdate : H -> ClusterObjectSet -> option error;
  (* nil when the feature is off *)
  be_PreAuthorize : option (H -> string -> string -> list AttributesRecord -> list ScopedPolicyRules * option error);
  be_PrintObj : Unstructured -> result string;
  be_ActionClientFor : H -> option error;
  be_HelmGet : H -> string -> option HelmRelease * option error;
  be_HelmHistory : H -> string -> list (option HelmRelease) * option error;
  be_ExtGVK : result GroupVersionKind;
}.

Definition revisions_cmp (a b : ClusterObjectSet) : Z := int_cmp (cos_Revision a) (cos_Revision b).

(** func latestRevisionNumber(prevRevisions) int64 *)
Definition latestRevisionNumber (prevRevisions : list ClusterObjectSet) : Z :=
  match last prevRevisions with
  | None => 0
  | Some r => cos_Revision r
  end.

Definition ClusterObjectSetRetentionLimit : Z := 5.

(** Fallible effectful code: continue on success. *)
Definition io_try {A B} (m : IO H (result A)) (k : A -> IO H (result B)) : IO H (result B) :=
  let* r := m in match r with inl e => io_ret (inl e) | inr a => k a end.

Notation "'let?' x ':=' m 'in' k" :=
  (io_try m (fun x => k)) (at level 10, x pattern, m at level 100, k at level 200) : olm_scope.

(** [if err := m; err != nil { return ctx(err) }] *)
Definition check (ctx : error -> error) (m : IO H (option error)) : IO H (result unit) :=
  let* r := m in io_ret (match r with Some e => inl (ctx e) | None => inr tt end).

Definition context {A} (ctx : error -> error) (m : IO H (result A)) : IO H (result A) :=
  let* r := m in io_ret (match r with inl e => inl (ctx e) | inr a => inr a end).

Definition wrapping (pre : string) (e : error) : error := EWrap pre e "".

Section Boxcutter.
Context `{CA : ConditionsAPI} `{CO : Codec}.
Context {FS : Type} (E : BoxEnv).
(* the fields of the Boxcutter *)
Context (GenerateRevision : FS -> ClusterExtension -> gmap string string -> gmap string string -> result COSAC)
  (Preflights : list Preflight) (bc_SystemNamespace : string).

(** func (bc *Boxcutter) getExistingRevisions(ctx, extName) *)
Definition getExistingRevisions (extName : string) : IO H (result (list ClusterObjectSet)) :=
  let* r := ask (EvListRevisions extName) (fun h => be_ListRevisions E h extName) in
  match r with
  | inl err => io_ret (inl (wrapping "listing revisions: " err))
  | inr items => io_ret (inr (sort_by revisions_cmp items))
  end.

(** func (bc *Boxcutter) garbageCollectOldRevisions(ctx, revisionList) error *)
Fixpoint gc_from (index len : Z) (revisionList : list ClusterObjectSet) : IO H (result unit) :=
  match revisionList with
  | [] => io_ret (inr tt)
  | r :: rest =>
      let? _ :=
        (if (index <? len - ClusterObjectSetRetentionLimit) && bool_decide (cos_Lifecycle r = LifecycleStateArchived)
         then
           let* err := ask (EvDelete (cos_Name r)) (fun h => be_Delete E h (cos_Name r)) in
           io_ret (match err with
                   | Some e => if has_kind KNotFound e then inr tt
                               else inl (wrapping "deleting archived revision: " e)
                   | None => inr tt
                   end)
         else io_ret (inr tt)) in
      gc_from (index + 1) len rest
  end.

Definition garbageCollectOldRevisions (revisionList : list ClusterObjectSet) : IO H (result unit) :=
  gc_from 0 (Z.of_nat (length revisionList)) revisionList.

(** func revisionManifestReader(rev) (io.Reader, error) *)
Fixpoint print_objects (objs : list Unstructured) (buf : string) : result string :=
  match objs with
  | [] => inr buf
  | obj :: rest =>
      match be_PrintObj E obj with
      | inl err => inl err
      | inr text => print_objects rest (buf +:+ "---" +:+ nl +:+ text)
      end
  end.

Definition revisionManifestReader (rev : COSAC) : result string := print_objects (getObjects rev) EmptyString.

(** func (bc *Boxcutter) runPreAuthorizationChecks(ctx, user, rev) error *)
Definition runPreAuthorizationChecks (user : string) (rev : COSAC) : IO H (option error) :=
  match be_PreAuthorize E with
  | None => io_ret None
  | Some PreAuthorize =>
      match revisionManifestReader rev with
      | inl err => io_ret (Some err)
      | inr manifests =>
          let perms := revisionManagementPerms rev user in
          let* r := ask (EvPreAuthorize user manifests perms) (fun h => PreAuthorize h user manifests perms) in
          io_ret (formatPreAuthorizerOutput r.1 r.2)
      end
  end.

(** The test for an owner reference to the set. *)
Definition owned_by (cosUID : string) (s : Secret) : bool :=
  existsb (fun ref => bool_decide (or_UID ref = cosUID)) (sec_OwnerReferences s).

Definition add_owner (ref : OwnerReference) (s : Secret) : Secret :=
  mkSecret (sec_Name s) (sec_Namespace s) (sec_Labels s) (sec_OwnerReferences s ++ [ref]) (sec_Immutable s)
    (sec_Type s) (sec_Data s).

Definition cos_owner_ref (cosName cosUID : string) : OwnerReference :=
  mkOwnerRef GroupVersion_String ClusterObjectSetKind cosName cosUID (Some true) (Some true).

(** func (bc *Boxcutter) patchOwnerRefsOnSecrets(ctx, cosName, cosUID, secrets) error *)
Fixpoint patchOwnerRefsOnSecrets (cosName cosUID : string) (secrets : list Secret) : IO H (result unit) :=
  match secrets with
  | [] => io_ret (inr tt)
  | s :: rest =>
      let? _ :=
        (if owned_by cosUID s then io_ret (inr tt)
         else
           let s := add_owner (cos_owner_ref cosName cosUID) s in
           check (wrapping ("patching ownerReference on Secret " +:+ sec_Namespace s +:+ "/" +:+ sec_Name s +:+ ": "))
             (ask (EvPatch s) (fun h => be_Patch E h s))) in
      patchOwnerRefsOnSecrets cosName cosUID rest
  end.

(** func (bc *Boxcutter) patchSecretOwnerReferences(ctx, rev, secrets) error *)
Definition patchSecretOwnerReferences (rev : COSAC) (secrets : list Secret) : IO H (result unit) :=
  match secrets with
  | [] => io_ret (inr tt)
  | _ =>
      let name := default EmptyString (ca_Name rev) in
      let? cos := context (wrapping ("getting COS " +:+ fmt_q name +:+ " for ownerReference: "))
                    (ask (EvGet name) (fun h => be_Get E h name)) in
      patchOwnerRefsOnSecrets (cos_Name cos) (m_UID (cos_Meta cos)) secrets
  end.

(** func (bc *Boxcutter) ensureSecretOwnerReferences(ctx, cos) error *)
Definition ensureSecretOwnerReferences (cos : ClusterObjectSet) : IO H (result unit) :=
  let? secretList :=
    context (wrapping ("listing ref Secrets for revision " +:+ fmt_q (cos_Name cos) +:+ ": "))
      (ask (EvListSecrets bc_SystemNamespace (cos_Name cos))
         (fun h => be_ListSecrets E h bc_SystemNamespace (cos_Name cos))) in
  let needsPatch := filter (fun s => owned_by (m_UID (cos_Meta cos)) s = false) secretList in
  match needsPatch with
  | [] => io_ret (inr tt)
  | _ => patchOwnerRefsOnSecrets (cos_Name cos) (m_UID (cos_Meta cos)) needsPatch
  end.

(** Step 1 of createExternalizedRevision: create the Secrets, which become
    what the server returns. *)
Fixpoint create_secrets (secrets : list Secret) : IO H (result (list Secret)) :=
  match secrets with
  | [] => io_ret (inr [])
  | s :: rest =>
      let* r := ask (EvCreate s) (fun h => be_Create E h s) in
      let? s' :=
        io_ret (match r with
                | inl err => if has_kind KAlreadyExists err then inr s
                             else inl (wrapping ("creating ref Secret " +:+ fmt_q (sec_Name s) +:+ ": ") err)
                | inr s' => inr s'
                end) in
      let? rest' := create_secrets rest in
      io_ret (inr (s' :: rest'))
  end.

(** func (bc *Boxcutter) createExternalizedRevision(ctx, ext, desiredRevision, existingRevisions) error *)
Definition createExternalizedRevision (ext : ClusterExtension) (desiredRevision : COSAC)
    (existingRevisions : list ClusterObjectSet) : IO H (result unit) :=
  let prevRevisions := existingRevisions in
  let revisionNumber := int64 (latestRevisionNumber prevRevisions + 1) in
  let revisionName := ext_Name ext +:+ "-" +:+ fmt_d revisionNumber in
  let desiredRevision := WithRevision revisionNumber (WithName revisionName desiredRevision) in
  let? _ := context (wrapping "garbage collecting old revisions: ") (garbageCollectOldRevisions prevRevisions) in
  let? _ := check (wrapping "creating new Revision: ")
              (runPreAuthorizationChecks (getUserInfo ext) desiredRevision) in
  let packer := mkPacker revisionName (ext_Name ext) bc_SystemNamespace in
  match Pack packer (extractPhasesForPacking (ca_Phases desiredRevision)) with
  | inl err => io_ret (inl (wrapping "packing objects into Secrets: " err))
  | inr packResult =>
      let desiredRevision := replaceInlineWithRefs desiredRevision packResult in
      let? secrets := create_secrets (Secrets packResult) in
      let? _ := check (wrapping "creating new Revision: ")
                  (ask (EvApply desiredRevision) (fun h => be_Apply E h desiredRevision)) in
      context (wrapping "patching ownerReferences on ref Secrets: ")
        (patchSecretOwnerReferences desiredRevision secrets)
  end.

(** The owner reference to the extension. *)
Definition ext_owner_ref (gvk : GroupVersionKind) (ext : ClusterExtension) : OwnerReference :=
  mkOwnerRef (gv_String gvk) (gvk_Kind gvk) (ext_Name ext) (m_UID (ext_Meta ext)) (Some true) (Some true).

(** The comparison of the desired configuration with the newest revision, by
    a server-side apply of the externalized configuration. *)
Definition compare_with_current (ext : ClusterExtension) (desiredRevision : COSAC)
    (currentRevision : ClusterObjectSet) : IO H (result (string * COSAC)) :=
  let desiredRevision :=
    WithName (cos_Name currentRevision) (WithRevision (cos_Revision currentRevision) desiredRevision) in
  let savedInline := saveInlineObjects desiredRevision in
  let packer := mkPacker (cos_Name currentRevision) (ext_Name ext) bc_SystemNamespace in
  match Pack packer (extractPhasesForPacking (ca_Phases desiredRevision)) with
  | inl err => io_ret (inl (wrapping "packing for SSA comparison: " err))
  | inr packResult =>
      let desiredRevision := replaceInlineWithRefs desiredRevision packResult in
      let* err := ask (EvApply desiredRevision) (fun h => be_Apply E h desiredRevision) in
      let desiredRevision := restoreInlineObjects desiredRevision savedInline in
      io_ret (match err with
              | None => inr (StateUnchanged, desiredRevision)
              | Some e => if has_kind KInvalid e then inr (StateNeedsUpgrade, desiredRevision)
                          else inl (wrapping ("patching " +:+ cos_Name currentRevision +:+ " Revision: ") e)
              end)
  end.

Fixpoint run_preflights (ext : ClusterExtension) (state : string) (plainObjs : list Unstructured)
    (preflights : list Preflight) : IO H (result unit) :=
  match preflights with
  | [] => io_ret (inr tt)
  | pf :: rest =>
      let? _ :=
        (if shouldSkipPreflight (pf_isCRDUpgradeSafety pf) ext then io_ret (inr tt)
         else if decide (state = StateNeedsInstall) then
           check id (ask (EvPreflightInstall plainObjs) (fun h => pf_Install pf h plainObjs))
         else if decide (state = StateNeedsUpgrade) then
           check id (ask (EvPreflightUpgrade plainObjs) (fun h => pf_Upgrade pf h plainObjs))
         else io_ret (inr tt)) in
      run_preflights ext state plainObjs rest
  end.

(** Apply once the content is there and the revisions are listed. *)
Definition apply_content (fs : FS) (ext : ClusterExtension) (objectLabels revisionAnnotations : gmap string string)
    (existingRevisions : list ClusterObjectSet) : IO H (result unit) :=
  match GenerateRevision fs ext objectLabels revisionAnnotations with
  | inl err => io_ret (inl err)
  | inr desiredRevision =>
      match be_ExtGVK E with
      | inl err => io_ret (inl (wrapping "get GVK for owner: " err))
      | inr gvk =>
          let desiredRevision := WithOwnerReferences [ext_owner_ref gvk ext] desiredRevision in
          let? sd :=
            (match last existingRevisions with
             | None => io_ret (inr (StateNeedsInstall, desiredRevision))
             | Some currentRevision => compare_with_current ext desiredRevision currentRevision
             end) in
          let '(state, desiredRevision) := sd in
          let? _ := run_preflights ext state (getObjects desiredRevision) Preflights in
          if decide (state = StateUnchanged) then
            match last existingRevisions with
            | Some currentRevision =>
                if decide (cos_Name currentRevision = EmptyString) then io_ret (inr tt)
                else context (wrapping "ensuring ownerReferences on ref Secrets: ")
                       (ensureSecretOwnerReferences currentRevision)
            | None => io_ret (inr tt)
            end
          else createExternalizedRevision ext desiredRevision existingRevisions
      end
  end.

(** func (bc *Boxcutter) Apply(ctx, contentFS, ext, objectLabels, revisionAnnotations) (bool, string, error):
    the error, or success; the message is always empty. *)
Definition Boxcutter_apply (contentFS : option FS) (ext : ClusterExtension)
    (objectLabels revisionAnnotations : gmap string string) : IO H (result unit) :=
  let? existingRevisions := getExistingRevisions (ext_Name ext) in
  match contentFS with
  | None =>
      match existingRevisions with
      | [] => io_ret (inl (ENew "catalog content unavailable and no revision installed"))
      | _ => io_ret (inr tt)
      end
  | Some fs => apply_content fs ext objectLabels revisionAnnotations existingRevisions
  end.

(** The (bool, string, error) the method returns. *)
Definition Boxcutter_Apply (contentFS : option FS) (ext : ClusterExtension)
    (objectLabels revisionAnnotations : gmap string string) : IO H (bool * string * option error) :=
  let* r := Boxcutter_apply contentFS ext objectLabels revisionAnnotations in
  io_ret (match r with inl err => (false, EmptyString, Some err) | inr _ => (true, EmptyString, None) end).

End Boxcutter.

(** ** Migration from Helm storage *)

Section Migrator.
Context `{CA : ConditionsAPI} (E : BoxEnv).
Context (GenerateRevisionFromHelmRelease : HelmRelease -> ClusterExtension -> gmap string string -> result COSAC).

Definition migrated_condition (generation : Z) : Condition :=
  mkCond ClusterObjectSetTypeSucceeded ConditionTrue ReasonSucceeded
    "Revision succeeded - migrated from Helm release" generation.

(** func (m *BoxcutterStorageMigrator) ensureRevisionStatus(ctx, name) error *)
Definition ensureRevisionStatus (name : string) : IO H (result unit) :=
  let? rev := context (wrapping "getting existing revision for status check: ")
                (ask (EvGet name) (fun h => be_Get E h name)) in
  if negb (bool_decide (map_get (cos_Labels rev) MigratedFromHelmKey = "true")) then io_ret (inr tt)
  else if IsStatusConditionTrue (cos_Conditions rev) ClusterObjectSetTypeSucceeded then io_ret (inr tt)
  else
    let rev := with_COSConditions (set_cond (cos_Conditions rev) (migrated_condition (cos_Generation rev))) rev in
    check (wrapping "updating migrated revision status: ")
      (ask (EvStatusUpdate rev) (fun h => be_StatusUpdate E h rev)).

(** func (m *BoxcutterStorageMigrator) ensureMigratedRevisionStatus(ctx, revisions) error *)
Fixpoint ensureMigratedRevisionStatus (revisions : list ClusterObjectSet) : IO H (result unit) :=
  match revisions with
  | [] => io_ret (inr tt)
  | r :: rest =>
      if negb (cos_Revision r =? 1) then ensureMigratedRevisionStatus rest
      else if IsStatusConditionTrue (cos_Conditions r) ClusterObjectSetTypeSucceeded then io_ret (inr tt)
      else ensureRevisionStatus (cos_Name r)
  end.

(** The loop of findLatestDeployedRelease. *)
Definition later_deployed (latestDeployed : option HelmRelease) (rel : option HelmRelease) : option HelmRelease :=
  match rel with
  | None => latestDeployed
  | Some r =>
      if bool_decide (rel_Status r = Some StatusDeployed) then
        match latestDeployed with
        | None => Some r
        | Some l => if rel_Version l <? rel_Version r then Some r else latestDeployed
        end
      else latestDeployed
  end.

(** func (m *BoxcutterStorageMigrator) findLatestDeployedRelease(ac, name) *)
Definition findLatestDeployedRelease (name : string) : IO H (result (option HelmRelease)) :=
  let* r := ask (EvHelmHistory name) (fun h => be_HelmHistory E h name) in
  let '(history, err) := r in
  io_ret (match err with
          | Some e => if has_kind KReleaseNotFound e then inr None else inl e
          | None => inr (fold_left later_deployed history None)
          end).

(** The release to migrate from: the newest one when it is deployed, or the
    most recent deployed one of the history. *)
Definition release_to_migrate (name : string) (helmRelease : option HelmRelease)
  : IO H (result (option HelmRelease)) :=
  match helmRelease with
  | Some r => if bool_decide (rel_Status r = Some StatusDeployed) then io_ret (inr helmRelease)
              else findLatestDeployedRelease name
  | None => findLatestDeployedRelease name
  end.

(** The last part of Migrate: create the revision and mark it succeeded. *)
Definition migrate_release (rel : HelmRelease) (ext : ClusterExtension) (objectLabels : gmap string string)
  : IO H (result unit) :=
  match GenerateRevisionFromHelmRelease rel ext objectLabels with
  | inl err => io_ret (inl err)
  | inr rev =>
      let rev := WithLabels (<[MigratedFromHelmKey := "true"]> ∅) rev in
      match be_ExtGVK E with
      | inl err => io_ret (inl (wrapping "get GVK for owner: " err))
      | inr gvk =>
          let rev := WithOwnerReferences [ext_owner_ref gvk ext] rev in
          let? _ := check id (ask (EvApply rev) (fun h => be_Apply E h rev)) in
          ensureRevisionStatus (default EmptyString (ca_Name rev))
      end
  end.

(** func (m *BoxcutterStorageMigrator) Migrate(ctx, ext, objectLabels) error *)
Definition Migrate (ext : ClusterExtension) (objectLabels : gmap string string) : IO H (result unit) :=
  let? items := context (wrapping "listing ClusterObjectSets before attempting migration: ")
                  (ask (EvListRevisions (ext_Name ext)) (fun h => be_ListRevisions E h (ext_Name ext))) in
  match items with
  | _ :: _ => ensureMigratedRevisionStatus items
  | [] =>
      let? _ := check id (ask EvActionClient (fun h => be_ActionClientFor E h)) in
      let* r := ask (EvHelmGet (ext_Name ext)) (fun h => be_HelmGet E h (ext_Name ext)) in
      let '(helmRelease, err) := r in
      match err with
      | Some e => io_ret (if has_kind KReleaseNotFound e then inr tt else inl e)
      | None =>
          let? rel := release_to_migrate (ext_Name ext) helmRelease in
          match rel with
          | None => io_ret (inr tt)
          | Some rel => migrate_release rel ext objectLabels
          end
      end
  end.

End Migrator.
