(* ===== verification/BoxLogic.v ===== *)
(** * A program logic for the applier's histories

    The rules of [wp] (Prelude.v) for the fallible code of BoxApply.v, and for
    its operations lemmas that give the shape of what they append to the
    history. *)

From S2P Require Import Prelude GoErrors ApiTypes Phase SecretPacker PackProps ExtSteps RevisionGen Rbac BoxApply.

(** An error ends a sequence; otherwise the rest runs. *)
Lemma wp_try {A B} h (m : IO H (result A)) (k : A -> IO H (result B)) (R : result B -> H -> Prop) :
  wp h m (fun r t => match r with
                     | inl e => R (inl e) t
                     | inr a => wp (h ++ t) (k a) (fun b t' => R b (t ++ t'))
                     end) -> wp h (io_try m k) R.
Proof.
  intros Hm. apply wp_bind. eapply wp_weaken; [exact Hm|]. intros [e|a] t Ht; [|done].
  apply wp_ret. by rewrite app_nil_r.
Qed.

Lemma wp_context {A} h ctx (m : IO H (result A)) (R : result A -> H -> Prop) :
  wp h m (fun r t => match r with inl e => R (inl (ctx e)) t | inr a => R (inr a) t end) ->
  wp h (context ctx m) R.
Proof.
  intros Hm. apply wp_bind. eapply wp_weaken; [exact Hm|]. intros [e|a] t Ht; apply wp_ret; by rewrite app_nil_r.
Qed.

Lemma wp_check h ctx (m : IO H (option error)) (R : result unit -> H -> Prop) :
  wp h m (fun r t => match r with Some e => R (inl (ctx e)) t | None => R (inr tt) t end) ->
  wp h (check ctx m) R.
Proof.
  intros Hm. apply wp_bind. eapply wp_weaken; [exact Hm|]. intros [e|] t Ht; apply wp_ret; by rewrite app_nil_r.
Qed.

Section Shapes.
Context `{CA : ConditionsAPI} `{CO : Codec}.
Context {FS : Type} (E : BoxEnv).

(** ** Garbage collection *)

(** [name] is an archived revision of the list with at least
    [ClusterObjectSetRetentionLimit] later ones. *)
Definition collectable (revisions : list ClusterObjectSet) (name : string) : Prop :=
  exists i r, revisions !! i = Some r /\ cos_Name r = name /\ cos_Lifecycle r = LifecycleStateArchived /\
    Z.of_nat i + ClusterObjectSetRetentionLimit < Z.of_nat (length revisions).

Definition deletion (revisions : list ClusterObjectSet) (ev : event) : Prop :=
  exists name, ev = EvDelete name /\ collectable revisions name.

Lemma gc_shape revisions i rest h :
  drop i revisions = rest ->
  wp h (gc_from E (Z.of_nat i) (Z.of_nat (length revisions)) rest)
    (fun r t => Forall (deletion revisions) t).
Proof.
  revert i h. induction rest as [|r rest IH]; intros i h Hd; cbn [gc_from]; [by apply wp_ret|].
  assert (Hr : revisions !! i = Some r).
  { rewrite <- (Nat.add_0_r i), <- lookup_drop, Hd. done. }
  assert (Hd' : drop (S i) revisions = rest).
  { rewrite <- Nat.add_1_r, <- drop_drop, Hd. done. }
  specialize (IH (S i)). rewrite Nat2Z.inj_succ, <- Z.add_1_r in IH.
  apply wp_try. destruct (_ && _) eqn:Eg.
  - apply andb_true_iff in Eg as [Hi Ha]. apply Z.ltb_lt in Hi. apply bool_decide_eq_true in Ha.
    assert (Hdel : deletion revisions (EvDelete (cos_Name r))).
    { exists (cos_Name r). split; [done|]. exists i, r. repeat split; [done|done|lia]. }
    apply wp_bind, wp_ask, wp_ret.
    assert (Hgo : wp (h ++ [EvDelete (cos_Name r)])
                    (gc_from E (Z.of_nat i + 1) (Z.of_nat (length revisions)) rest)
                    (fun _ t' => Forall (deletion revisions) ([EvDelete (cos_Name r)] ++ t'))).
    { eapply wp_weaken; [by apply IH|]. intros x t Ht. by constructor. }
    destruct (be_Delete E h (cos_Name r)) as [e|]; [|done]. destruct (has_kind KNotFound e); [done|].
    by repeat constructor.
  - apply wp_ret. rewrite app_nil_r. by apply IH.
Qed.

(** ** Owner references *)

Definition ownership (ev : event) : Prop :=
  match ev with EvGet _ | EvListSecrets _ _ | EvPatch _ => True | _ => False end.

(** [t] are the first of the calls [all], and all of them on success. *)
Definition carried_out {A} (all : H) (r : result A) (t : H) : Prop :=
  exists rest, all = t ++ rest /\ match r with inr _ => rest = [] | inl _ => True end.

Lemma carried_out_cons {A} ev all (r : result A) t : carried_out all r t -> carried_out (ev :: all) r (ev :: t).
Proof. intros (rest & -> & Hr). by exists rest. Qed.

Lemma carried_out_nil {A} (a : A) : carried_out [] (inr a) [].
Proof. by exists []. Qed.

Lemma carried_out_stop {A} ev all e : carried_out (A := A) (ev :: all) (inl e) [ev].
Proof. by exists all. Qed.

Definition owner_patches (cosName cosUID : string) (secrets : list Secret) : H :=
  map (fun s => EvPatch (add_owner (cos_owner_ref cosName cosUID) s))
    (filter (fun s => owned_by cosUID s = false) secrets).

Lemma patch_shape cosName cosUID secrets h :
  wp h (patchOwnerRefsOnSecrets E cosName cosUID secrets) (carried_out (owner_patches cosName cosUID secrets)).
Proof.
  unfold owner_patches. revert h. induction secrets as [|s secrets IH]; intros h; cbn [patchOwnerRefsOnSecrets].
  { apply wp_ret. apply carried_out_nil. }
  apply wp_try. destruct (owned_by cosUID s) eqn:Eo.
  - apply wp_ret. rewrite app_nil_r, filter_cons_False by congruence. apply IH.
  - rewrite filter_cons_True by done. cbn [map]. apply wp_check, wp_ask.
    destruct (be_Patch E h _) as [e|]; [apply carried_out_stop|].
    eapply wp_weaken; [apply IH|]. intros r t. apply carried_out_cons.
Qed.

Lemma patch_refs_shape rev secrets h :
  wp h (patchSecretOwnerReferences E rev secrets) (fun r t => Forall ownership t).
Proof.
  unfold patchSecretOwnerReferences. destruct secrets as [|s secrets]; [by apply wp_ret|].
  apply wp_try, wp_context, wp_ask. destruct (be_Get E h _) as [e|cos]; [by repeat constructor|].
  eapply wp_weaken; [apply patch_shape|]. intros r t (rest & Hall & _).
  assert (Hf : Forall ownership (owner_patches (cos_Name cos) (m_UID (cos_Meta cos)) (s :: secrets))).
  { apply Forall_map, Forall_true. done. }
  rewrite Hall in Hf. apply Forall_app in Hf as [Hf _]. by constructor.
Qed.

(** ** Creating a revision *)

Lemma create_secrets_shape secrets h :
  wp h (create_secrets E secrets) (carried_out (map EvCreate secrets)).
Proof.
  revert h. induction secrets as [|s secrets IH]; intros h; cbn [create_secrets map].
  { apply wp_ret, carried_out_nil. }
  apply wp_bind, wp_ask, wp_try, wp_ret. cbn [app].
  assert (Hgo : forall s', wp ((h ++ [EvCreate s]) ++ []) (io_try (create_secrets E secrets)
                   (fun rest' => io_ret (inr (s' :: rest'))))
                   (fun b t' => carried_out (EvCreate s :: map EvCreate secrets) b (EvCreate s :: t'))).
  { intros s'. apply wp_try. eapply wp_weaken; [apply IH|]. intros [e|rest'] t Ht.
    - by apply carried_out_cons.
    - apply wp_ret. rewrite app_nil_r. by apply carried_out_cons. }
  destruct (be_Create E h s) as [err|s']; [|apply Hgo].
  destruct (has_kind KAlreadyExists err); [apply Hgo|apply carried_out_stop].
Qed.

(** The number, the name and the configuration of the next revision. *)
Definition next_revision (existing : list ClusterObjectSet) : Z := int64 (latestRevisionNumber existing + 1).

Definition next_name (ext : ClusterExtension) (existing : list ClusterObjectSet) : string :=
  ext_Name ext +:+ "-" +:+ fmt_d (next_revision existing).

Definition numbered (ext : ClusterExtension) (existing : list ClusterObjectSet) (desired : COSAC) : COSAC :=
  WithRevision (next_revision existing) (WithName (next_name ext existing) desired).

(** The pre-authorization: the call, and that nothing follows unless it was
    granted. *)
Definition gate (h : H) (user : string) (rev : COSAC) (pa : H) (proceeds : Prop) : Prop :=
  match be_PreAuthorize E with
  | None => pa = []
  | Some PreAuthorize =>
      (pa = [] /\ ~ proceeds) \/
      exists manifests, revisionManifestReader E rev = inr manifests /\
        pa = [EvPreAuthorize user manifests (revisionManagementPerms rev user)] /\
        let answer := PreAuthorize h user manifests (revisionManagementPerms rev user) in
        (proceeds -> formatPreAuthorizerOutput answer.1 answer.2 = None)
  end.

Lemma preauth_shape user rev h :
  wp h (runPreAuthorizationChecks E user rev) (fun r t => gate h user rev t (r = None)).
Proof.
  unfold runPreAuthorizationChecks, gate. destruct (be_PreAuthorize E) as [PreAuthorize|]; [|by apply wp_ret].
  destruct (revisionManifestReader E rev) as [err|manifests].
  - apply wp_ret. left. by split.
  - apply wp_bind, wp_ask, wp_ret. right. exists manifests. by rewrite app_nil_r.
Qed.

Lemma gate_weaken h user rev pa (P Q : Prop) : (Q -> P) -> gate h user rev pa P -> gate h user rev pa Q.
Proof.
  intros HQP. unfold gate. destruct (be_PreAuthorize E); [|done].
  intros [[-> HP]|(m & Hm & -> & HP)]; [left; tauto|right; exists m; tauto].
Qed.

Definition failed {A} (r : result A) : Prop := match r with inl _ => True | inr _ => False end.

(** What is asked once the service account is authorized: the Secrets are
    created, then the set that refers to them, then the owner references. *)
Inductive creation (rev : COSAC) (pack : PackResult) (r : result unit) : H -> Prop :=
| creation_secrets t rest : map EvCreate (Secrets pack) = t ++ rest -> failed r -> creation rev pack r t
| creation_applied owns : Forall ownership owns ->
    creation rev pack r (map EvCreate (Secrets pack) ++ EvApply (replaceInlineWithRefs rev pack) :: owns).

Definition created (ns : string) (ext : ClusterExtension) (rev : COSAC) (name : string) (r : result unit) (t : H)
  : Prop :=
  (t = [] /\ failed r) \/
  exists pack, Pack (mkPacker name (ext_Name ext) ns) (extractPhasesForPacking (ca_Phases rev)) = inr pack /\
    creation rev pack r t.

(** createExternalizedRevision: deletions, the gate, the creation. *)
Definition revision_created (ns : string) (ext : ClusterExtension) (desired : COSAC)
    (existing : list ClusterObjectSet) (h : H) (r : result unit) (t : H) : Prop :=
  exists dels pa tail, t = dels ++ pa ++ tail /\ Forall (deletion existing) dels /\
    gate (h ++ dels) (getUserInfo ext) (numbered ext existing desired) pa (tail <> [] \/ ~ failed r) /\
    created ns ext (numbered ext existing desired) (next_name ext existing) r tail.

Lemma gate_closed h user rev (P : Prop) : ~ P -> gate h user rev [] P.
Proof. intros HP. unfold gate. destruct (be_PreAuthorize E); [by left|done]. Qed.

Lemma stopped_early {A} (e : error) : ~ (([] : H) <> [] \/ ~ failed (inl e : result A)).
Proof. intros [H1|H1]; [done|by apply H1]. Qed.

Lemma create_shape ns ext desired existing h :
  wp h (createExternalizedRevision E ns ext desired existing) (revision_created ns ext desired existing h).
Proof.
  unfold createExternalizedRevision. fold (next_revision existing). fold (next_name ext existing).
  fold (numbered ext existing desired).
  apply wp_try, wp_context. eapply wp_weaken; [by apply (gc_shape existing 0 existing)|]. intros [e|[]] dels Hd.
  { exists dels, [], []. rewrite app_nil_r. split; [done|]. split; [done|].
    split; [apply gate_closed, stopped_early|by left]. }
  apply wp_try, wp_check. eapply wp_weaken; [apply preauth_shape|]. intros [e|] pa Hpa.
  { exists dels, pa, []. rewrite app_nil_r. split; [done|]. split; [done|]. split; [|by left].
    eapply gate_weaken; [|exact Hpa]. intros Hs. by apply stopped_early in Hs. }
  assert (Hgate : forall P, gate (h ++ dels) (getUserInfo ext) (numbered ext existing desired) pa P).
  { intros P. eapply gate_weaken; [|exact Hpa]. done. }
  destruct (Pack _ _) as [err|pack] eqn:Ep.
  { apply wp_ret. exists dels, pa, []. split; [done|]. split; [done|]. split; [apply Hgate|by left]. }
  assert (Hend : forall r t, creation (numbered ext existing desired) pack r t ->
            revision_created ns ext desired existing h r (dels ++ pa ++ t)).
  { intros r t Hc. exists dels, pa, t. split; [done|]. split; [done|]. split; [apply Hgate|].
    right. by exists pack. }
  apply wp_try. eapply wp_weaken; [apply create_secrets_shape|]. intros [e|secrets] t (rest & Hc & Hr).
  { apply Hend. by eapply creation_secrets. }
  subst rest. rewrite app_nil_r in Hc. subst t.
  apply wp_try, wp_check, wp_ask. destruct (be_Apply E _ _) as [e|].
  { apply Hend. by apply creation_applied. }
  apply wp_context. eapply wp_weaken; [apply patch_refs_shape|].
  intros r owns Ho. destruct r as [e|[]]; cbn [app]; apply Hend; by apply creation_applied.
Qed.

(** ** Restoring the inline objects *)

(** A generated configuration: its objects are inline, none is a reference. *)
Definition inline_only (rev : COSAC) : Prop :=
  Forall (fun p => Forall (fun o => oa_Ref o = None) (pa_Objects p)) (ca_Phases rev).

Lemma restore_replace_objects refs i k objs :
  Forall (fun o => oa_Ref o = None) objs ->
  restore_objects (imap (fun n => replace_object refs i (k + n)) objs) (map oa_Object objs) = objs.
Proof.
  revert k. induction objs as [|o objs IH]; intros k Ho; [done|]. inversion Ho as [|? ? Hr Ho']; subst.
  cbn [imap map restore_objects]. f_equal.
  - unfold restore_object, replace_object. destruct o as [obj ref cp]; simpl in *; subst.
    by destruct (refs !! _).
  - etransitivity; [|by apply (IH (S k))]. f_equal. apply imap_ext. intros n x _. simpl. f_equal. lia.
Qed.

Lemma restore_replace_phases refs k ps :
  Forall (fun p => Forall (fun o => oa_Ref o = None) (pa_Objects p)) ps ->
  restore_phases
    (imap (fun n p => mkPhaseAC (pa_Name p) (imap (replace_object refs (k + n)) (pa_Objects p))) ps)
    (map (fun p => map oa_Object (pa_Objects p)) ps) = ps.
Proof.
  revert k. induction ps as [|p ps IH]; intros k Hp; [done|]. inversion Hp as [|? ? Ho Hp']; subst.
  cbn [imap map restore_phases pa_Name pa_Objects]. f_equal.
  - rewrite (restore_replace_objects refs (k + 0) 0) by done. by destruct p.
  - etransitivity; [|by apply (IH (S k))]. f_equal. apply imap_ext. intros n x _. simpl.
    f_equal. apply imap_ext. intros m y _. do 2 f_equal. lia.
Qed.

Lemma set_phases_twice ps qs rev : set_phases ps (set_phases qs rev) = set_phases ps rev.
Proof. done. Qed.

Lemma set_phases_same rev : set_phases (ca_Phases rev) rev = rev.
Proof. by destruct rev as [? ? ? ? []]. Qed.

Lemma restore_replace rev pack :
  inline_only rev -> restoreInlineObjects (replaceInlineWithRefs rev pack) (saveInlineObjects rev) = rev.
Proof.
  intros Hi. unfold restoreInlineObjects, replaceInlineWithRefs, saveInlineObjects.
  rewrite set_phases_twice. etransitivity; [|apply set_phases_same]. f_equal.
  apply (restore_replace_phases (Refs pack) 0 (ca_Phases rev) Hi).
Qed.

(** ** The whole apply *)

Definition preflight_call (ev : event) : Prop :=
  match ev with EvPreflightInstall _ | EvPreflightUpgrade _ => True | _ => False end.

Lemma preflights_shape ext state objs preflights h :
  wp h (run_preflights ext state objs preflights)
    (fun r t => Forall preflight_call t /\ (state = StateUnchanged -> r = inr tt /\ t = [])).
Proof.
  revert h. induction preflights as [|pf rest IH]; intros h; cbn [run_preflights]; [by apply wp_ret|].
  assert (Hgo : forall ev, preflight_call ev -> state <> StateUnchanged -> forall h',
            wp h' (run_preflights ext state objs rest) (fun r t => Forall preflight_call ([ev] ++ t) /\
              (state = StateUnchanged -> r = inr tt /\ [ev] ++ t = []))).
  { intros ev Hev Hs h'. eapply wp_weaken; [apply IH|]. intros r t [Ht _]. split; [by constructor|done]. }
  apply wp_try. destruct (shouldSkipPreflight _ _); [apply wp_ret; rewrite app_nil_r; apply IH|].
  destruct (decide (state = StateNeedsInstall)) as [->|Hi].
  { apply wp_check, wp_ask. destruct (pf_Install _ _ _); [split; [by repeat constructor|done]|by apply Hgo]. }
  destruct (decide (state = StateNeedsUpgrade)) as [->|Hu].
  { apply wp_check, wp_ask. destruct (pf_Upgrade _ _ _); [split; [by repeat constructor|done]|by apply Hgo]. }
  apply wp_ret. rewrite app_nil_r. apply IH.
Qed.

(** The desired configuration under the name of the current revision. *)
Definition as_current (cur : ClusterObjectSet) (desired : COSAC) : COSAC :=
  WithName (cos_Name cur) (WithRevision (cos_Revision cur) desired).

(** The Secrets of an unchanged revision get their owner reference. *)
Definition ensured (ns : string) (cur : ClusterObjectSet) (h : H) (r : result unit) (own : H) : Prop :=
  match be_ListSecrets E h ns (cos_Name cur) with
  | inl _ => own = [EvListSecrets ns (cos_Name cur)] /\ failed r
  | inr secrets => exists t, own = EvListSecrets ns (cos_Name cur) :: t /\
      carried_out (owner_patches (cos_Name cur) (m_UID (cos_Meta cur)) secrets) r t
  end.

Lemma owner_patches_filter name uid secrets :
  owner_patches name uid (filter (fun s => owned_by uid s = false) secrets) = owner_patches name uid secrets.
Proof.
  unfold owner_patches. f_equal. rewrite list_filter_filter. apply list_filter_iff. tauto.
Qed.

Lemma ensure_shape ns cur h :
  wp h (ensureSecretOwnerReferences E ns cur) (ensured ns cur h).
Proof.
  unfold ensureSecretOwnerReferences, ensured. apply wp_try, wp_context, wp_ask.
  destruct (be_ListSecrets E h ns (cos_Name cur)) as [e|secrets]; [done|].
  assert (Hgo : wp (h ++ [EvListSecrets ns (cos_Name cur)])
            (patchOwnerRefsOnSecrets E (cos_Name cur) (m_UID (cos_Meta cur))
               (filter (fun s => owned_by (m_UID (cos_Meta cur)) s = false) secrets))
            (fun r t => exists t0, [EvListSecrets ns (cos_Name cur)] ++ t = EvListSecrets ns (cos_Name cur) :: t0 /\
               carried_out (owner_patches (cos_Name cur) (m_UID (cos_Meta cur)) secrets) r t0)).
  { eapply wp_weaken; [apply patch_shape|]. intros r t Ht. exists t. split; [done|].
    by rewrite owner_patches_filter in Ht. }
  by destruct (filter _ secrets).
Qed.

(** The four ways an apply with content can go. *)
Inductive applied (ns : string) (ext : ClusterExtension) (desired : COSAC) (existing : list ClusterObjectSet)
    (h : H) (r : result unit) : H -> Prop :=
| applied_failed pre : Forall preflight_call pre -> failed r ->
    applied ns ext desired existing h r pre
| applied_compared cur pack pre : last existing = Some cur -> Forall preflight_call pre -> failed r ->
    applied ns ext desired existing h r (EvApply (replaceInlineWithRefs (as_current cur desired) pack) :: pre)
| applied_unchanged cur pack own : last existing = Some cur ->
    let ac := replaceInlineWithRefs (as_current cur desired) pack in
    be_Apply E h ac = None -> (own = [] /\ cos_Name cur = EmptyString \/ ensured ns cur (h ++ [EvApply ac]) r own) ->
    applied ns ext desired existing h r (EvApply ac :: own)
| applied_install pre tail : last existing = None -> Forall preflight_call pre ->
    revision_created ns ext desired existing (h ++ pre) r tail ->
    applied ns ext desired existing h r (pre ++ tail)
| applied_upgrade cur pack e pre tail : last existing = Some cur ->
    let ac := replaceInlineWithRefs (as_current cur desired) pack in
    be_Apply E h ac = Some e -> has_kind KInvalid e = true -> Forall preflight_call pre ->
    revision_created ns ext desired existing (h ++ EvApply ac :: pre) r tail ->
    applied ns ext desired existing h r (EvApply ac :: pre ++ tail).

Lemma numbered_as_current ext existing cur desired :
  numbered ext existing (as_current cur desired) = numbered ext existing desired.
Proof. done. Qed.

Lemma ensured_error ns cur h e e' t : ensured ns cur h (inl e) t -> ensured ns cur h (inl e') t.
Proof. unfold ensured. by destruct (be_ListSecrets E h ns (cos_Name cur)). Qed.

Section Generated.
Context (gen : FS -> ClusterExtension -> gmap string string -> gmap string string -> result COSAC).
Context (preflights : list Preflight) (ns : string).

Lemma apply_shape fs ext ol ra existing desired gvk h :
  gen fs ext ol ra = inr desired -> be_ExtGVK E = inr gvk -> inline_only desired ->
  wp h (apply_content E gen preflights ns fs ext ol ra existing)
    (applied ns ext (WithOwnerReferences [ext_owner_ref gvk ext] desired) existing h).
Proof.
  intros Hg Hk Hin. unfold apply_content. rewrite Hg, Hk.
  set (d := WithOwnerReferences _ desired).
  destruct (last existing) as [cur|] eqn:El.
  - unfold compare_with_current. fold (as_current cur d). apply wp_try.
    destruct (Pack _ _) as [err|pack]; [by apply wp_ret, applied_failed|].
    rewrite restore_replace by done. set (ac := replaceInlineWithRefs (as_current cur d) pack).
    apply wp_bind, wp_ask, wp_ret. destruct (be_Apply E h ac) as [e|] eqn:Ea.
    + destruct (has_kind KInvalid e) eqn:Ei; [|by apply applied_compared].
      apply wp_try. eapply wp_weaken; [apply preflights_shape|]. intros [e'|[]] pre [Hp _].
      { by apply applied_compared. }
      rewrite decide_False by done. eapply wp_weaken; [apply create_shape|].
      intros r tail Ht. rewrite app_nil_r in *. cbn [app].
      eapply applied_upgrade; [done..|]. by rewrite <- app_assoc in Ht.
    + apply wp_try. eapply wp_weaken; [apply preflights_shape|]. intros r pre [Hp Hu].
      destruct (Hu eq_refl) as [-> ->]. rewrite decide_True by done.
      destruct (decide (cos_Name cur = EmptyString)).
      { apply wp_ret. apply applied_unchanged; auto. }
      apply wp_context. eapply wp_weaken; [apply ensure_shape|]. intros r t Ht. rewrite !app_nil_r in Ht.
      destruct r as [e|[]]; apply applied_unchanged; eauto using ensured_error.
  - apply wp_try, wp_ret. apply wp_try. eapply wp_weaken; [apply preflights_shape|]. intros [e'|[]] pre [Hp _].
    { by apply applied_failed. }
    rewrite decide_False by done. eapply wp_weaken; [apply create_shape|].
    intros r tail Ht. rewrite app_nil_r in Ht. cbn [app]. apply applied_install; [done|done|].
    exact Ht.
Qed.

(** Without a configuration nothing happens. *)
Lemma apply_shape_fails fs ext ol ra existing h :
  (forall desired gvk, gen fs ext ol ra = inr desired -> be_ExtGVK E = inr gvk -> False) ->
  wp h (apply_content E gen preflights ns fs ext ol ra existing) (fun r t => failed r /\ t = []).
Proof.
  intros Hf. unfold apply_content. destruct (gen fs ext ol ra) as [|desired]; [by apply wp_ret|].
  destruct (be_ExtGVK E) as [|gvk]; [by apply wp_ret|]. by destruct (Hf desired gvk).
Qed.

End Generated.

End Shapes.
