(* ===== verification/BoxProps.v ===== *)
(** * Correctness of the boxcutter applier

    What holds of every run of [Boxcutter_apply] and [Migrate] (BoxApply.v),
    whatever the API server, Helm and the pre-authorizer answer. *)

From S2P Require Import Prelude GoErrors ApiTypes Phase ObjectInstances PhaseProps SecretPacker PackProps.
From S2P Require Import ExtSteps RevisionGen Rbac BoxApply BoxLogic Instances.

(** ** The generator

    What the applier needs of a ClusterObjectSetGenerator: the configurations
    it generates hold their objects inline. *)
Class InlineGenerator {FS}
    (gen : FS -> ClusterExtension -> gmap string string -> gmap string string -> result COSAC) : Prop :=
  generated_inline : forall fs ext ol ra rev, gen fs ext ol ra = inr rev -> inline_only rev.

Section Generated.
Context `{UA : UnstructuredAPI}.

Lemma PhaseSort_members objs p o : p ∈ PhaseSort objs -> o ∈ pa_Objects p -> o ∈ objs.
Proof.
  rewrite PhaseSort_unfold. intros (q & _ & Hq)%list_elem_of_omap Ho.
  destruct (in_phase q objs) as [|x l] eqn:Ei; [done|]. apply (inj Some) in Hq. rewrite <- Hq in Ho.
  cbn [pa_Objects] in Ho. rewrite elem_of_sort_by, <- Ei in Ho. unfold in_phase in Ho. by apply list_elem_of_filter in Ho as [_ ?].
Qed.

Lemma generate_objects_map {A} (f : A -> result ObjectAC) plain objs :
  generate_objects f plain = inr objs -> Forall2 (fun x o => f x = inr o) plain objs.
Proof.
  revert objs. induction plain as [|x plain IH]; intros objs; cbn [generate_objects].
  { intros [= <-]. constructor. }
  destruct (f x) as [|o] eqn:Ex; [done|]. destruct (generate_objects f plain) as [|os]; [done|].
  intros [= <-]. constructor; [done|]. by apply IH.
Qed.

#[export] Instance simple_generator_inline {Obj FS} (get_l : Obj -> option (gmap string string)) set_l gvk_of to_u
    (provider : FS -> ClusterExtension -> result (list Obj)) annots :
  InlineGenerator (GenerateRevision get_l set_l gvk_of to_u provider annots).
Proof.
  intros fs ext ol ra rev. unfold GenerateRevision. destruct (provider fs ext) as [|plain]; [done|].
  destruct (annots fs) as [|ba]; [done|]. destruct (generate_objects _ plain) as [|objs] eqn:Eo; [done|].
  intros [= <-]. apply generate_objects_map in Eo.
  apply Forall_forall. intros p Hp. apply Forall_forall. intros o Ho. cbn in Hp.
  apply (PhaseSort_members objs) in Ho; [|done].
  apply list_elem_of_lookup in Ho as [i Hi]. destruct (Forall2_lookup_r _ _ _ _ _ Eo Hi) as (x & _ & Hx).
  unfold generate_object in Hx. destruct (gvk_of _) as [|g]; [done|]. destruct (to_u _); [done|].
  by injection Hx as <-.
Qed.

End Generated.

(** ** The order of the calls *)

(** The stage of an apply a call belongs to, for the revision number [next]
    that a new revision would get: the listing, the comparison with the
    current revision, the preflights, the garbage collection, the
    pre-authorization, the Secrets, the new revision, the owner references. *)
Definition stage (next : Z) (ev : event) : nat :=
  match ev with
  | EvListRevisions _ => 0
  | EvApply rev => if decide (sa_Revision (ca_Spec rev) = Some next) then 6 else 1
  | EvPreflightInstall _ | EvPreflightUpgrade _ => 2
  | EvDelete _ => 3
  | EvPreAuthorize _ _ _ => 4
  | EvCreate _ => 5
  | EvGet _ | EvListSecrets _ _ | EvPatch _ => 7
  | EvStatusUpdate _ | EvActionClient | EvHelmGet _ | EvHelmHistory _ => 8
  end.

(** The calls come in the order of their stages, which are between [a] and [b]. *)
Definition staged (next : Z) (a b : nat) (t : H) : Prop :=
  StronglySorted le (map (stage next) t) /\ Forall (fun ev => (a <= stage next ev <= b)%nat) t.

Section Staged.
Context (next : Z).

Lemma staged_nil a b : staged next a b [].
Proof. split; constructor. Qed.

Lemma staged_app a b c t t' : (a <= b <= c)%nat -> staged next a b t -> staged next b c t' -> staged next a c (t ++ t').
Proof.
  intros Habc [Hs Hf] [Hs' Hf']. split.
  - rewrite map_app. clear Habc. induction t as [|ev t IH]; [done|]. inversion Hs as [|? ? Hs1 Hev]; subst.
    inversion Hf as [|? ? Hr Hf1]; subst. cbn [map app]. constructor; [by apply IH|]. apply Forall_app.
    split; [done|]. apply Forall_map. eapply Forall_impl; [exact Hf'|]. intros x Hx. simpl in *. lia.
  - apply Forall_app. split; (eapply Forall_impl; [eassumption|]); intros x Hx; simpl in *; lia.
Qed.

Lemma staged_weaken a b a' b' t : (a' <= a)%nat -> (b <= b')%nat -> staged next a b t -> staged next a' b' t.
Proof.
  intros Ha Hb [Hs Hf]. split; [done|]. eapply Forall_impl; [exact Hf|]. intros x Hx. simpl in *. lia.
Qed.

Lemma staged_same n t : Forall (fun ev => stage next ev = n) t -> staged next n n t.
Proof.
  intros Hf. split; [|eapply Forall_impl; [exact Hf|]; intros x ->; lia].
  induction Hf as [|ev t He Hf IH]; [constructor|]. cbn [map]. constructor; [done|].
  apply Forall_map. eapply Forall_impl; [exact Hf|]. intros x Hx. simpl in *. lia.
Qed.

(** A call that is later than everything before it in a sequence. *)
Lemma staged_split pre rest t1 ev t2 n :
  pre ++ rest = t1 ++ ev :: t2 -> Forall (fun x => (stage next x < n)%nat) pre -> (n <= stage next ev)%nat ->
  exists t1', t1 = pre ++ t1' /\ rest = t1' ++ ev :: t2.
Proof.
  revert t1. induction pre as [|x pre IH]; intros t1 He Hf Hev; [by exists t1|].
  inversion Hf as [|? ? Hx Hf']; subst. destruct t1 as [|y t1]; injection He as -> He; [lia|].
  destruct (IH t1 He Hf' Hev) as (t1' & -> & Hr). by exists t1'.
Qed.

Lemma below_app n t t' :
  Forall (fun x => (stage next x < n)%nat) t -> Forall (fun x => (stage next x < n)%nat) t' ->
  Forall (fun x => (stage next x < n)%nat) (t ++ t').
Proof. intros. by apply Forall_app. Qed.

End Staged.

Lemma int64_succ n : int64 (n + 1) <> n.
Proof.
  unfold int64, wrap. intros He.
  assert (Hm : (n + 1 + 2 ^ 63) `mod` 2 ^ 64 = (n + 2 ^ 63) `mod` 2 ^ 64).
  { replace (n + 2 ^ 63) with ((n + 1 + 2 ^ (64 - 1)) `mod` 2 ^ 64) by (change (64 - 1) with 63 in *; lia).
    change (64 - 1) with 63. rewrite Z.mod_mod by lia. done. }
  pose proof (Z.div_mod (n + 1 + 2 ^ 63) (2 ^ 64)). pose proof (Z.div_mod (n + 2 ^ 63) (2 ^ 64)). lia.
Qed.

Section Runs.
Context `{CO : Codec}.
Context {FS : Type} (E : BoxEnv).
Context (gen : FS -> ClusterExtension -> gmap string string -> gmap string string -> result COSAC).
Context `{IG : !InlineGenerator gen}.
Context (preflights : list Preflight) (ns : string).
Context (ext : ClusterExtension) (ol ra : gmap string string) (fs : FS).

(** The revisions an apply finds, oldest first. *)
Definition revisions_at (h : H) : list ClusterObjectSet :=
  match be_ListRevisions E h (ext_Name ext) with inr items => sort_by revisions_cmp items | inl _ => [] end.

(** The configuration the apply wants. *)
Definition wanted (desired : COSAC) : Prop :=
  exists generated gvk, gen fs ext ol ra = inr generated /\ be_ExtGVK E = inr gvk /\
    desired = WithOwnerReferences [ext_owner_ref gvk ext] generated.

Lemma run_shape h r h' :
  Boxcutter_apply E gen preflights ns (Some fs) ext ol ra h = (r, h') ->
  exists t, h' = h ++ EvListRevisions (ext_Name ext) :: t /\
    (failed r /\ t = [] \/ exists desired, wanted desired /\
       applied E ns ext desired (revisions_at h) (h ++ [EvListRevisions (ext_Name ext)]) r t).
Proof.
  intros Hrun. eapply wp_run in Hrun as (t & -> & Ht); cycle 1.
  - unfold Boxcutter_apply, getExistingRevisions. apply wp_try, wp_bind, wp_ask.
    instantiate (1 := fun r t => exists t', t = EvListRevisions (ext_Name ext) :: t' /\
      (failed r /\ t' = [] \/ exists desired, wanted desired /\
        applied E ns ext desired (revisions_at h) (h ++ [EvListRevisions (ext_Name ext)]) r t')).
    unfold revisions_at. destruct (be_ListRevisions E h (ext_Name ext)) as [e|items]; apply wp_ret.
    { eexists; split; [done|]. by left. }
    rewrite app_nil_r. destruct (gen fs ext ol ra) as [eg|generated] eqn:Eg.
    { eapply wp_weaken; [apply apply_shape_fails; by rewrite Eg|]. intros r' t' [Hf ->]. eexists; split; [done|]. by left. }
    destruct (be_ExtGVK E) as [ek|gvk] eqn:Ek.
    { eapply wp_weaken; [apply apply_shape_fails; by rewrite Ek|]. intros r' t' [Hf ->]. eexists; split; [done|]. by left. }
    eapply wp_weaken; [by apply (apply_shape E gen preflights ns fs ext ol ra _ generated gvk); [..|eapply IG]|].
    intros r' t' Ht. exists t'. split; [done|]. right. eexists. split; [|exact Ht]. by exists generated, gvk.
  - destruct Ht as (t' & -> & Ht). by exists t'.
Qed.

Section Applied.
Context (existing : list ClusterObjectSet).
Let next := next_revision existing.

Lemma preflight_stage pre : Forall preflight_call pre -> Forall (fun ev => stage next ev = 2%nat) pre.
Proof. intros Hf. eapply Forall_impl; [exact Hf|]. by intros []. Qed.

Lemma deletion_stage dels : Forall (deletion existing) dels -> Forall (fun ev => stage next ev = 3%nat) dels.
Proof. intros Hf. eapply Forall_impl; [exact Hf|]. by intros ? (? & -> & _). Qed.

Lemma ownership_stage own : Forall ownership own -> Forall (fun ev => stage next ev = 7%nat) own.
Proof. intros Hf. eapply Forall_impl; [exact Hf|]. by intros []. Qed.

Lemma compare_stage cur desired pack :
  last existing = Some cur -> stage next (EvApply (replaceInlineWithRefs (as_current cur desired) pack)) = 1%nat.
Proof.
  intros Hl. cbn. rewrite decide_False; [done|]. intros [= He]. subst next.
  unfold next_revision, latestRevisionNumber in He. rewrite Hl in He. by apply (int64_succ (cos_Revision cur)).
Qed.

Lemma apply_stage desired pack : stage next (EvApply (replaceInlineWithRefs (numbered ext existing desired) pack)) = 6%nat.
Proof. cbn. by rewrite decide_True. Qed.

Lemma gate_stage h user rev pa P : gate E h user rev pa P -> Forall (fun ev => stage next ev = 4%nat) pa.
Proof.
  unfold gate. destruct (be_PreAuthorize E); [|by intros ->]. intros [[-> _]|(m & _ & -> & _)]; by repeat constructor.
Qed.

Lemma creates_stage secrets : Forall (fun ev => stage next ev = 5%nat) (map EvCreate secrets).
Proof. apply Forall_map, Forall_true. done. Qed.

Lemma ensured_ownership cur h r own : ensured E ns cur h r own -> Forall ownership own.
Proof.
  unfold ensured. destruct (be_ListSecrets E h ns _) as [e|secrets]; [intros [-> _]; by repeat constructor|].
  intros (t & -> & rest & Hall & _). constructor; [done|].
  assert (Hf : Forall ownership (owner_patches (cos_Name cur) (m_UID (cos_Meta cur)) secrets)).
  { apply Forall_map, Forall_true. done. }
  rewrite Hall in Hf. by apply Forall_app in Hf as [? _].
Qed.

Lemma created_staged rev name r t :
  created ns ext (numbered ext existing rev) name r t -> staged next 5 7 t.
Proof.
  intros [[-> _]|(pack & _ & Hc)]; [apply staged_nil|]. inversion Hc as [? rest Hall|owns Ho]; subst.
  - pose proof (creates_stage (Secrets pack)) as Hs. rewrite Hall in Hs. apply Forall_app in Hs as [Hs _].
    eapply staged_weaken; [| |by apply staged_same]; lia.
  - apply (staged_app _ 5 5 7); [lia|apply staged_same, creates_stage|].
    apply (staged_app _ 5 6 7 [_]); [lia| |].
    + eapply (staged_weaken _ 6 6); [lia..|]. apply staged_same. repeat constructor. apply apply_stage.
    + eapply (staged_weaken _ 7 7); [lia..|]. by apply staged_same, ownership_stage.
Qed.

Lemma revision_created_staged desired h r t : revision_created E ns ext desired existing h r t -> staged next 3 7 t.
Proof.
  intros (dels & pa & tail & -> & Hd & Hg & Hc).
  apply (staged_app _ 3 3 7); [lia|by apply staged_same, deletion_stage|].
  apply (staged_app _ 3 4 7); [lia| |].
  - eapply (staged_weaken _ 4 4); [lia..|]. by eapply staged_same, gate_stage.
  - eapply (staged_weaken _ 5 7); [lia..|]. by eapply created_staged.
Qed.

Lemma applied_staged desired h r t : applied E ns ext desired existing h r t -> staged next 1 7 t.
Proof.
  assert (Hpre : forall pre, Forall preflight_call pre -> staged next 1 2 pre).
  { intros pre Hp. eapply (staged_weaken _ 2 2); [lia..|]. by apply staged_same, preflight_stage. }
  assert (Hcmp : forall cur pack, last existing = Some cur ->
            staged next 1 1 [EvApply (replaceInlineWithRefs (as_current cur desired) pack)]).
  { intros cur pack Hl. apply staged_same. repeat constructor. by apply compare_stage. }
  assert (Hrev : forall h r t, revision_created E ns ext desired existing h r t -> staged next 2 7 t).
  { intros h0 r0 t0 Ht. eapply (staged_weaken _ 3 7); [lia..|]. by eapply revision_created_staged. }
  intros Ha. inversion Ha as [pre Hp Hf|cur pack pre Hl Hp Hf|cur pack own Hl ac Hn Ho|pre tail Hl Hp Hr
    |cur pack e pre tail Hl ac Hn Hi Hp Hr]; subst; clear Ha.
  - eapply (staged_weaken _ 1 2); [lia..|]. by apply Hpre.
  - apply (staged_app _ 1 1 7 [_]); [lia|by apply Hcmp|]. eapply (staged_weaken _ 1 2); [lia..|]. by apply Hpre.
  - apply (staged_app _ 1 1 7 [_]); [lia|by apply Hcmp|]. eapply (staged_weaken _ 7 7); [lia..|].
    apply staged_same, ownership_stage. destruct Ho as [[-> _]|He]; [constructor|by eapply ensured_ownership].
  - apply (staged_app _ 1 2 7); [lia|by apply Hpre|by eapply Hrev].
  - apply (staged_app _ 1 1 7 [_]); [lia|by apply Hcmp|].
    apply (staged_app _ 1 2 7); [lia|by apply Hpre|by eapply Hrev].
Qed.

Lemma stage_not t ev n : Forall (fun x => stage next x = n) t -> ev ∈ t -> stage next ev = n.
Proof. intros Hf. rewrite Forall_forall in Hf. apply Hf. Qed.

(** A Secret or a new revision is only created in the last part of a run. *)
Lemma created_split desired h r t1 ev t2 :
  revision_created E ns ext desired existing h r (t1 ++ ev :: t2) -> (5 <= stage next ev)%nat ->
  exists dels pa tail pack t1', t1 = dels ++ pa ++ t1' /\ tail = t1' ++ ev :: t2 /\
    Forall (deletion existing) dels /\
    gate E (h ++ dels) (getUserInfo ext) (numbered ext existing desired) pa True /\
    Pack (mkPacker (next_name ext existing) (ext_Name ext) ns)
      (extractPhasesForPacking (ca_Phases (numbered ext existing desired))) = inr pack /\
    creation (numbered ext existing desired) pack r tail.
Proof.
  intros (dels & pa & tail & He & Hd & Hg & Hc) Hev. rewrite app_assoc in He. symmetry in He.
  eapply (staged_split next (dels ++ pa) tail t1 ev t2 5) in He as (t1' & -> & ->); [|apply below_app|done].
  - destruct Hc as [[Hn _]|(pack & Hp & Hc)]; [by destruct t1'|].
    exists dels, pa, (t1' ++ ev :: t2), pack, t1'. rewrite app_assoc. do 3 (split; [done|]).
    split; [|done]. eapply gate_weaken; [|exact Hg]. intros _. left. by destruct t1'.
  - eapply Forall_impl; [by apply deletion_stage|]. intros x Hx. cbn in Hx. lia.
  - eapply Forall_impl; [by eapply gate_stage|]. intros x Hx. cbn in Hx. lia.
Qed.

Lemma applied_split desired h r t1 ev t2 :
  applied E ns ext desired existing h r (t1 ++ ev :: t2) -> (5 <= stage next ev <= 6)%nat ->
  exists pre t1', t1 = pre ++ t1' /\ revision_created E ns ext desired existing (h ++ pre) r (t1' ++ ev :: t2).
Proof.
  intros Ha Hev. remember (t1 ++ ev :: t2) as t eqn:Et.
  assert (Hin : ev ∈ t) by (subst; set_solver).
  assert (Hbelow : forall pre, Forall preflight_call pre -> Forall (fun x => (stage next x < 3)%nat) pre).
  { intros pre Hp. eapply Forall_impl; [by apply preflight_stage|]. intros x Hx. cbn in Hx. lia. }
  destruct Ha as [pre Hp Hf|cur pack pre Hl Hp Hf|cur pack own Hl ac Hn Ho|pre tail Hl Hp Hr
    |cur pack e pre tail Hl ac Hn Hi Hp Hr].
  - apply preflight_stage in Hp. apply (stage_not _ _ _ Hp) in Hin. lia.
  - apply elem_of_cons in Hin as [->|Hin]; [rewrite compare_stage in Hev by done; lia|].
    apply preflight_stage in Hp. apply (stage_not _ _ _ Hp) in Hin. lia.
  - apply elem_of_cons in Hin as [->|Hin]; [subst ac; rewrite compare_stage in Hev by done; lia|].
    assert (Hown : Forall ownership own) by (destruct Ho as [[-> _]|?]; [constructor|by eapply ensured_ownership]).
    apply ownership_stage in Hown. apply (stage_not _ _ _ Hown) in Hin. lia.
  - eapply (staged_split next pre tail t1 ev t2 3) in Et as (t1' & -> & ->);
      [|by apply Hbelow|lia]. exists pre, t1'. done.
  - rewrite app_comm_cons in Et.
    eapply (staged_split next (EvApply ac :: pre) tail t1 ev t2 3) in Et as (t1' & -> & ->); [| |lia].
    + by exists (EvApply ac :: pre), t1'.
    + constructor; [subst ac; rewrite compare_stage by done; lia|by apply Hbelow].
Qed.

Lemma creates_then_apply secrets x owns t1 rev t2 :
  Forall ownership owns -> map EvCreate secrets ++ EvApply x :: owns = t1 ++ EvApply rev :: t2 ->
  rev = x /\ t1 = map EvCreate secrets.
Proof.
  intros Ho. revert t1. induction secrets as [|s secrets IH]; intros [|ev t1]; cbn; intros He.
  - by injection He as ->.
  - injection He as <- ->. exfalso. apply Forall_app in Ho as [_ Ho]. by inversion Ho.
  - done.
  - injection He as <- He. destruct (IH t1 He) as [-> ->]. done.
Qed.

Lemma creation_apply rev0 pack r t1 rev t2 :
  creation rev0 pack r (t1 ++ EvApply rev :: t2) ->
  rev = replaceInlineWithRefs rev0 pack /\ t1 = map EvCreate (Secrets pack).
Proof.
  intros Hc. remember (t1 ++ EvApply rev :: t2) as t eqn:Et. destruct Hc as [t rest Hall _|owns Ho].
  - assert (Hin : EvApply rev ∈ map EvCreate (Secrets pack)) by (rewrite Hall, Et; set_solver).
    by apply list_elem_of_fmap in Hin as (? & ? & _).
  - by eapply creates_then_apply.
Qed.

(** A successful creation applied the next revision. *)
Lemma success_applies desired h t :
  revision_created E ns ext desired existing h (inr tt) t ->
  exists rev, EvApply rev ∈ t /\ sa_Revision (ca_Spec rev) = Some next.
Proof.
  intros (dels & pa & tail & -> & _ & _ & [[_ []]|(pack & _ & Hc)]).
  inversion Hc as [? ? ? []|owns Ho]; subst.
  exists (replaceInlineWithRefs (numbered ext existing desired) pack). split; [set_solver|done].
Qed.

(** Only the garbage collection deletes. *)
Lemma created_deletes desired h r t name :
  revision_created E ns ext desired existing h r t -> EvDelete name ∈ t -> collectable existing name.
Proof.
  intros (dels & pa & tail & -> & Hd & Hg & Hc) Hin.
  assert (Hst : stage next (EvDelete name) = 3%nat) by done.
  rewrite !elem_of_app in Hin. destruct Hin as [Hin|[Hin|Hin]].
  - rewrite Forall_forall in Hd. destruct (Hd _ Hin) as (n & [= <-] & Hok). done.
  - apply gate_stage in Hg. apply (stage_not _ _ _ Hg) in Hin. lia.
  - apply created_staged in Hc as [_ Hc]. rewrite Forall_forall in Hc. specialize (Hc _ Hin). cbn in Hc. lia.
Qed.

Lemma applied_deletes desired h r t name :
  applied E ns ext desired existing h r t -> EvDelete name ∈ t -> collectable existing name.
Proof.
  assert (Hpre : forall pre, Forall preflight_call pre -> EvDelete name ∉ pre).
  { intros pre Hp Hin. rewrite Forall_forall in Hp. by apply Hp in Hin. }
  destruct 1 as [pre Hp Hf|cur pack pre Hl Hp Hf|cur pack own Hl ac Hn Ho|pre tail Hl Hp Hr
    |cur pack e pre tail Hl ac Hn Hi Hp Hr]; rewrite ?elem_of_cons, ?elem_of_app; intros Hin.
  - by apply Hpre in Hin.
  - destruct Hin as [|Hin]; [done|]. by apply Hpre in Hin.
  - destruct Hin as [|Hin]; [done|]. destruct Ho as [[-> _]|Ho]; [by apply not_elem_of_nil in Hin|].
    apply ensured_ownership in Ho. rewrite Forall_forall in Ho. by apply Ho in Hin.
  - destruct Hin as [Hin|Hin]; [by apply Hpre in Hin|]. by eapply created_deletes.
  - destruct Hin as [|[Hin|Hin]]; [done|by apply Hpre in Hin|]. by eapply created_deletes.
Qed.

End Applied.

(** The part of a run after the listing. *)
Lemma run_split h r t1 ev t2 :
  Boxcutter_apply E gen preflights ns (Some fs) ext ol ra h = (r, h ++ t1 ++ ev :: t2) ->
  (1 <= stage (next_revision (revisions_at h)) ev)%nat ->
  exists desired t1', wanted desired /\ t1 = EvListRevisions (ext_Name ext) :: t1' /\
    applied E ns ext desired (revisions_at h) (h ++ [EvListRevisions (ext_Name ext)]) r (t1' ++ ev :: t2).
Proof.
  intros Hrun Hev. apply run_shape in Hrun as (t & Ht & Hs). apply app_inv_head in Ht.
  destruct t1 as [|ev0 t1]; injection Ht as -> Ht; [cbn in Hev; lia|]. subst t.
  destruct Hs as [[_ Hn]|(desired & Hw & Ha)]; [by destruct t1|]. by exists desired, t1.
Qed.

(** A Secret or the new revision is created: where, and what was done before. *)
Lemma run_created h r t1 ev t2 :
  Boxcutter_apply E gen preflights ns (Some fs) ext ol ra h = (r, h ++ t1 ++ ev :: t2) ->
  (5 <= stage (next_revision (revisions_at h)) ev <= 6)%nat ->
  exists desired pre pa pack t1', wanted desired /\ t1 = pre ++ pa ++ t1' /\
    gate E (h ++ pre) (getUserInfo ext) (numbered ext (revisions_at h) desired) pa True /\
    Pack (mkPacker (next_name ext (revisions_at h)) (ext_Name ext) ns)
      (extractPhasesForPacking (ca_Phases desired)) = inr pack /\
    creation (numbered ext (revisions_at h) desired) pack r (t1' ++ ev :: t2).
Proof.
  intros Hrun Hev. apply run_split in Hrun as (desired & t & Hw & -> & Ha); [|lia].
  apply applied_split in Ha as (pre & t1' & -> & Hr); [|done].
  apply created_split in Hr as (dels & pa & tail & pack & t1'' & -> & -> & _ & Hg & Hp & Hc); [|lia].
  exists desired, (EvListRevisions (ext_Name ext) :: pre ++ dels), pa, pack, t1''.
  split; [done|]. split; [cbn [app]; by rewrite <- app_assoc|]. split; [|done].
  by rewrite <- !app_assoc in Hg.
Qed.

(** The number of the next revision exceeds those in use. *)
Lemma sorted_lookup {A} (R : A -> A -> Prop) l i k x y :
  StronglySorted R l -> (i < k)%nat -> l !! i = Some x -> l !! k = Some y -> R x y.
Proof.
  intros Hs. revert i k. induction Hs as [|z l Hs IH Hz]; intros i k Hik Hi Hk; [done|].
  destruct i as [|i], k as [|k]; cbn in *; try lia; [|by apply (IH i k); [lia|..]].
  injection Hi as ->. rewrite Forall_forall in Hz. apply Hz. by eapply list_elem_of_lookup_2.
Qed.

#[local] Instance revisions_cmp_order : CmpOrder revisions_cmp.
Proof. apply (cmp_on_order cos_Revision int_cmp). Qed.

Lemma next_revision_above items :
  (forall x, x ∈ items -> 0 <= cos_Revision x < 2 ^ 63 - 1) ->
  forall x, x ∈ items -> cos_Revision x < next_revision (sort_by revisions_cmp items).
Proof.
  intros Hb x Hx. unfold next_revision, latestRevisionNumber.
  destruct (last (sort_by revisions_cmp items)) as [y|] eqn:El.
  - assert (Hy : y ∈ items) by (apply last_elem_of in El; by rewrite elem_of_sort_by in El).
    rewrite int64_id by (specialize (Hb y Hy); lia).
    rewrite <- (elem_of_sort_by revisions_cmp) in Hx.
    destruct (sorted_last _ _ _ (sort_by_sorted revisions_cmp items) El x Hx) as [->|Hle]; [lia|].
    unfold cmp_le, revisions_cmp in Hle. rewrite int_cmp_le in Hle. lia.
  - apply last_None in El. rewrite <- (elem_of_sort_by revisions_cmp), El in Hx. by apply not_elem_of_nil in Hx.
Qed.

Lemma replaced_object rev pack i j p o ref :
  ca_Phases rev !! i = Some p -> pa_Objects p !! j = Some o -> Refs pack !! (i, j) = Some ref ->
  exists p', ca_Phases (replaceInlineWithRefs rev pack) !! i = Some p' /\ pa_Name p' = pa_Name p /\
    pa_Objects p' !! j = Some (mkObjectAC None (Some ref) (oa_CollisionProtection o)).
Proof.
  intros Hp Ho Hr.
  exists (mkPhaseAC (pa_Name p) (imap (replace_object (Refs pack) i) (pa_Objects p))).
  change (ca_Phases (replaceInlineWithRefs rev pack)) with
    (imap (fun i p => mkPhaseAC (pa_Name p) (imap (replace_object (Refs pack) i) (pa_Objects p))) (ca_Phases rev)).
  rewrite list_lookup_imap, Hp. split; [done|]. split; [done|].
  cbn [pa_Objects]. rewrite list_lookup_imap, Ho. cbn. unfold replace_object. by rewrite Hr.
Qed.

(** C4. A new revision is complete before it is visible: when the applier
    applies the set of the next revision, its number is above that of every
    existing revision, and for every manifest of the bundle it refers to a
    Secret that was created before, from which the ClusterObjectSet controller
    reads that very manifest back, whatever the API server answers.  (Barring
    hash collisions, manifests above 10 MiB and inexact JSON numbers; revision
    numbers do not reach the largest 64-bit integer.) *)
Theorem new_revision_complete h r t1 rev t2 generated items :
  be_ListRevisions E h (ext_Name ext) = inr items ->
  (forall x, x ∈ items -> 0 <= cos_Revision x < 2 ^ 63 - 1) ->
  gen fs ext ol ra = inr generated ->
  no_collision (map snd (encodings (positions 0 (extractPhasesForPacking (ca_Phases generated))))) ->
  Boxcutter_apply E gen preflights ns (Some fs) ext ol ra h = (r, h ++ t1 ++ EvApply rev :: t2) ->
  sa_Revision (ca_Spec rev) = Some (next_revision (revisions_at h)) ->
  (forall x, x ∈ items -> cos_Revision x < next_revision (revisions_at h)) /\
  ca_Name rev = Some (next_name ext (revisions_at h)) /\
  forall i j p o u m, ca_Phases generated !! i = Some p -> pa_Objects p !! j = Some o ->
    oa_Object o = Some u -> u_Object u = Some m -> representable m = true ->
    (forall raw, json_Marshal m = inr raw -> slen raw <= maxDecompressedSize) ->
    exists p' ref s, ca_Phases rev !! i = Some p' /\ pa_Name p' = pa_Name p /\
      pa_Objects p' !! j = Some (mkObjectAC None (Some ref) (oa_CollisionProtection o)) /\
      EvCreate s ∈ t1 /\ osr_Name ref = sec_Name s /\ osr_Namespace ref = sec_Namespace s /\
      forall get, get (osr_Namespace ref) (osr_Name ref) = inr s -> resolveObjectRef get ref = inr u.
Proof.
  intros Hl Hb Hg Hnc Hrun Hrev.
  assert (Hst : stage (next_revision (revisions_at h)) (EvApply rev) = 6%nat) by (cbn; by rewrite decide_True).
  apply run_created in Hrun as (desired & pre & pa & pack & t1' & Hw & -> & _ & Hp & Hc); [|lia].
  destruct Hw as (generated' & gvk & Hg' & _ & ->). rewrite Hg in Hg'. injection Hg' as <-.
  apply creation_apply in Hc as [-> ->].
  split. { unfold revisions_at in *. rewrite Hl in *. by apply next_revision_above. }
  split; [done|]. intros i j p o u m Hph Ho Hu Hm Hr Hsz.
  set (q := mkCOSPhase (default EmptyString (pa_Name p)) (map extract_object (pa_Objects p)) EmptyString).
  destruct (Pack_stored _ _ _ i j q (extract_object o) m Hnc Hp) as (ref & s & d & Href & Hs & Hn & Hns & Hd & Hdec).
  - unfold extractPhasesForPacking. rewrite list_lookup_fmap, Hph. done.
  - cbn. by rewrite list_lookup_fmap, Ho.
  - cbn. by rewrite Hu.
  - done.
  - done.
  - destruct (replaced_object (numbered ext (revisions_at h) (WithOwnerReferences [ext_owner_ref gvk ext] generated))
                pack i j p o ref Hph Ho Href) as (p' & H1 & H2 & H3).
    exists p', ref, s. do 3 (split; [done|]). split; [|split; [done|split; [done|]]].
    + rewrite !elem_of_app. right; right. apply list_elem_of_fmap. by exists s.
    + intros get Hget. unfold resolveObjectRef. rewrite Hget, Hd, Hdec. cbn. by rewrite Hu.
Qed.

(** C22. The calls of an apply come in the crash-safe order: list, compare with
    the current revision, preflights, garbage collection, pre-authorization,
    Secrets, the new revision, owner references.  No call of an earlier stage
    follows one of a later stage. *)
Theorem Apply_order h r h' :
  Boxcutter_apply E gen preflights ns (Some fs) ext ol ra h = (r, h') ->
  exists t, h' = h ++ t /\ StronglySorted le (map (stage (next_revision (revisions_at h))) t).
Proof.
  intros (t & -> & Hs)%run_shape. eexists. split; [done|]. cbn [map].
  assert (Ht : staged (next_revision (revisions_at h)) 1 7 t).
  { destruct Hs as [[_ ->]|(desired & _ & Ha)]; [apply staged_nil|by eapply applied_staged]. }
  destruct Ht as [Hsort Hf]. constructor; [done|]. apply Forall_map. eapply Forall_impl; [exact Hf|].
  intros x Hx. cbn in *. lia.
Qed.

Lemma format_granted missing err : formatPreAuthorizerOutput missing err = None -> missing = [] /\ err = None.
Proof. unfold formatPreAuthorizerOutput. by destruct missing, err. Qed.

(** Nothing is created for a service account that may not manage it: when
    pre-authorization is on, every Secret and every new revision an apply
    creates comes after a pre-authorization request for the extension's service
    account and the manifests of that revision, to which the authorizer
    answered with no missing rule and no error. *)
Theorem creation_is_authorized PreAuthorize h r t1 ev t2 :
  be_PreAuthorize E = Some PreAuthorize ->
  Boxcutter_apply E gen preflights ns (Some fs) ext ol ra h = (r, h ++ t1 ++ ev :: t2) ->
  (match ev with
   | EvCreate _ => True
   | EvApply rev => sa_Revision (ca_Spec rev) = Some (next_revision (revisions_at h))
   | _ => False
   end) ->
  exists t0 t0' desired manifests perms,
    t1 = t0 ++ EvPreAuthorize (getUserInfo ext) manifests perms :: t0' /\ wanted desired /\
    revisionManifestReader E (numbered ext (revisions_at h) desired) = inr manifests /\
    PreAuthorize (h ++ t0) (getUserInfo ext) manifests perms = ([], None).
Proof.
  intros Hpa Hrun Hev.
  assert (Hst : (5 <= stage (next_revision (revisions_at h)) ev <= 6)%nat).
  { destruct ev; try done; cbn; [rewrite decide_True by done|]; lia. }
  apply run_created in Hrun as (desired & pre & pa & pack & t1' & Hw & -> & Hg & _); [|done].
  unfold gate in Hg. rewrite Hpa in Hg. destruct Hg as [[_ Hf]|(m & Hm & -> & Hok)]; [by destruct Hf|].
  exists pre, t1', desired, m. eexists. split; [done|]. split; [done|]. split; [done|].
  apply format_granted in Hok as [H1 H2]; [|done]. by destruct (PreAuthorize _ _ _ _); cbn in *; subst.
Qed.

(** C23. Garbage collection is safe: an apply deletes a revision only if it is
    archived and at least [ClusterObjectSetRetentionLimit] revisions with the
    same or a higher number are listed after it; it never deletes an active
    revision. *)
Theorem gc_only_old_archived h r t name :
  Boxcutter_apply E gen preflights ns (Some fs) ext ol ra h = (r, h ++ t) -> EvDelete name ∈ t ->
  exists i x, revisions_at h !! i = Some x /\ cos_Name x = name /\ cos_Lifecycle x = LifecycleStateArchived /\
    Z.of_nat i + ClusterObjectSetRetentionLimit < Z.of_nat (length (revisions_at h)) /\
    forall k y, (i < k)%nat -> revisions_at h !! k = Some y -> cos_Revision x <= cos_Revision y.
Proof.
  intros Hrun Hin. apply run_shape in Hrun as (t' & Ht%app_inv_head & Hs). subst t.
  apply elem_of_cons in Hin as [|Hin]; [done|].
  destruct Hs as [[_ ->]|(desired & _ & Ha)]; [by apply not_elem_of_nil in Hin|].
  destruct (applied_deletes _ _ _ _ _ _ Ha Hin) as (i & x & Hi & Hn & Hl & Hlen).
  exists i, x. do 4 (split; [done|]). intros k y Hik Hk.
  assert (Hsort : StronglySorted (cmp_le revisions_cmp) (revisions_at h)).
  { unfold revisions_at. destruct (be_ListRevisions _ _ _); [constructor|apply sort_by_sorted; apply _]. }
  pose proof (sorted_lookup _ _ i k x y Hsort Hik Hi Hk) as Hle. unfold cmp_le, revisions_cmp in Hle.
  by rewrite int_cmp_le in Hle.
Qed.

(** What a successful apply achieved: either it applied the next
    revision, or the configuration was already that of the newest revision; in
    that case it created and deleted nothing, and every Secret of the revision
    that lacked the owner reference got it. *)
Theorem Apply_outcome h t :
  Boxcutter_apply E gen preflights ns (Some fs) ext ol ra h = (inr tt, h ++ t) ->
  (exists rev, EvApply rev ∈ t /\ sa_Revision (ca_Spec rev) = Some (next_revision (revisions_at h))) \/
  exists cur, last (revisions_at h) = Some cur /\
    (forall s name, EvCreate s ∉ t /\ EvDelete name ∉ t) /\
    (cos_Name cur = EmptyString \/ exists h1 secrets, be_ListSecrets E h1 ns (cos_Name cur) = inr secrets /\
       forall s, s ∈ secrets -> owned_by (m_UID (cos_Meta cur)) s = false ->
         EvPatch (add_owner (cos_owner_ref (cos_Name cur) (m_UID (cos_Meta cur))) s) ∈ t).
Proof.
  intros Hrun. apply run_shape in Hrun as (t' & Ht%app_inv_head & [[[] _]|(desired & _ & Ha)]). subst t.
  destruct Ha as [pre Hp []|cur pack pre Hl Hp []|cur pack own Hl ac Hn Ho|pre tail Hl Hp Hr
    |cur pack e pre tail Hl ac Hn Hi Hp Hr].
  - right. exists cur. split; [done|]. split.
    + assert (Hown : Forall ownership own) by (destruct Ho as [[-> _]|?]; [constructor|by eapply ensured_ownership]).
      rewrite Forall_forall in Hown. intros s name. rewrite !elem_of_cons.
      split; intros [|[|Hin]]; try done; by apply Hown in Hin.
    + destruct Ho as [[_ ?]|Ho]; [by left|right]. unfold ensured in Ho.
      destruct (be_ListSecrets E _ ns (cos_Name cur)) as [|secrets] eqn:Es; [by destruct Ho|].
      destruct Ho as (t & -> & rest & Hall & ->). rewrite app_nil_r in Hall. eexists _, secrets. split; [done|].
      intros s Hs Hu. rewrite !elem_of_cons. do 3 right. rewrite <- Hall. apply list_elem_of_fmap.
      exists s. split; [done|]. by apply list_elem_of_filter.
  - left. destruct (success_applies _ _ _ _ Hr) as (rev & Hin & Hrev). exists rev. split; [set_solver|done].
  - left. destruct (success_applies _ _ _ _ Hr) as (rev & Hin & Hrev). exists rev. split; [set_solver|done].
Qed.

(** Losing the catalog content leaves the workload alone: without content
    an apply only lists the revisions; it reports success when there is one,
    and an error when there is none or the listing fails. *)
Theorem Apply_without_content h :
  Boxcutter_Apply E gen preflights ns None ext ol ra h =
  (match be_ListRevisions E h (ext_Name ext) with
   | inl err => (false, EmptyString, Some (EWrap "listing revisions: " err EmptyString))
   | inr [] => (false, EmptyString, Some (ENew "catalog content unavailable and no revision installed"))
   | inr (_ :: _) => (true, EmptyString, None)
   end, h ++ [EvListRevisions (ext_Name ext)]).
Proof.
  unfold Boxcutter_Apply, Boxcutter_apply, getExistingRevisions, io_try, io_bind, ask. cbn.
  destruct (be_ListRevisions E h (ext_Name ext)) as [err|items]; cbn; [done|].
  destruct items as [|x items]; [done|]. pose proof (sort_by_length revisions_cmp (x :: items)) as Hlen.
  by destruct (sort_by revisions_cmp (x :: items)).
Qed.

End Runs.

(** ** Migration from Helm *)

Section Migration.
Context `{CA : ConditionsAPI} (E : BoxEnv).
Context (gen : HelmRelease -> ClusterExtension -> gmap string string -> result COSAC).
Context (ext : ClusterExtension) (ol : gmap string string).

(** A revision with the migration's status. *)
Definition marked (rev : ClusterObjectSet) : ClusterObjectSet :=
  with_COSConditions (set_cond (cos_Conditions rev) (migrated_condition (cos_Generation rev))) rev.

(** [rev] as the server returned it may be marked as succeeded. *)
Definition markable (h : H) (rev : ClusterObjectSet) : Prop :=
  exists name, be_Get E h name = inr rev /\ map_get (cos_Labels rev) MigratedFromHelmKey = "true" /\
    IsStatusConditionTrue (cos_Conditions rev) ClusterObjectSetTypeSucceeded = false.

Definition marking (h : H) (t : H) : Prop :=
  exists name, t = [EvGet name] \/
    exists rev, markable h rev /\ t = [EvGet name; EvStatusUpdate (marked rev)].

Lemma status_shape name h : wp h (ensureRevisionStatus E name) (fun r t => marking h t).
Proof.
  unfold ensureRevisionStatus. apply wp_try, wp_context, wp_ask.
  destruct (be_Get E h name) as [e|rev] eqn:Eg; [by exists name; left|].
  destruct (bool_decide _) eqn:Eb; cbn; [|apply wp_ret; by exists name; left].
  apply bool_decide_eq_true in Eb.
  destruct (IsStatusConditionTrue _ _) eqn:Es; [apply wp_ret; by exists name; left|].
  apply wp_check, wp_ask. assert (Hm : marking h [EvGet name; EvStatusUpdate (marked rev)]).
  { exists name. right. exists rev. split; [by exists name|done]. }
  by destruct (be_StatusUpdate E _ _).
Qed.

Lemma migrated_status_shape items h :
  wp h (ensureMigratedRevisionStatus E items) (fun r t => t = [] \/ marking h t).
Proof.
  induction items as [|x items IH]; cbn [ensureMigratedRevisionStatus]; [apply wp_ret; by left|].
  destruct (negb _); [exact IH|]. destruct (IsStatusConditionTrue _ _); [apply wp_ret; by left|].
  eapply wp_weaken; [apply status_shape|]. intros r t Ht. by right.
Qed.

(** The release a migration starts from. *)
Definition deployed (rel : HelmRelease) : Prop := rel_Status rel = Some StatusDeployed.

Lemma later_deployed_max history acc rel :
  fold_left later_deployed history acc = Some rel -> (forall a, acc = Some a -> deployed a) ->
  deployed rel /\ (acc = Some rel \/ Some rel ∈ history) /\
  (forall a, acc = Some a -> rel_Version a <= rel_Version rel) /\
  forall x, Some x ∈ history -> deployed x -> rel_Version x <= rel_Version rel.
Proof.
  revert acc. induction history as [|y history IH]; intros acc Hf Hacc; cbn in Hf.
  { subst acc. split; [by apply Hacc|]. split; [by left|]. split; [by intros a [= ->]|].
    intros x Hx. by apply not_elem_of_nil in Hx. }
  assert (Hnext : forall a, later_deployed acc y = Some a -> deployed a).
  { intros a. unfold later_deployed. destruct y as [y|]; [|apply Hacc].
    case_bool_decide as Hd; [|apply Hacc]. destruct acc as [l|]; [|by intros [= <-]].
    destruct (_ <? _); [by intros [= <-]|apply Hacc]. }
  destruct (IH _ Hf Hnext) as (Hd & Hfrom & Hge & Hmax). clear IH. split; [done|].
  unfold later_deployed in Hfrom, Hge. split; [|split].
  - destruct Hfrom as [Hfrom|]; [|set_solver]. destruct y as [y|]; [|by left].
    case_bool_decide; [|by left]. destruct acc as [l|]; [|set_solver].
    destruct (_ <? _); [set_solver|by left].
  - intros a ->. destruct y as [y|]; [|by apply Hge]. case_bool_decide; [|by apply Hge].
    destruct (Z.ltb_spec (rel_Version a) (rel_Version y)); [|by apply Hge].
    specialize (Hge y eq_refl). lia.
  - intros x [Hx|Hx]%elem_of_cons Hdx; [|by apply Hmax]. subst y.
    rewrite bool_decide_true in Hge by done. destruct acc as [l|]; [|by apply Hge].
    destruct (Z.ltb_spec (rel_Version l) (rel_Version x)); [by apply Hge|].
    specialize (Hge l eq_refl). lia.
Qed.

(** The newest release when it is deployed, or else the deployed one of the
    history with the highest version. *)
Definition migrated_from (rel : HelmRelease) : Prop :=
  deployed rel /\
  ((exists h, be_HelmGet E h (ext_Name ext) = (Some rel, None)) \/
   exists h history, be_HelmHistory E h (ext_Name ext) = (history, None) /\ Some rel ∈ history /\
     forall x, Some x ∈ history -> deployed x -> rel_Version x <= rel_Version rel).

(** What a migration may ask when it starts after [h]. *)
Definition migration_call (h : H) (ev : event) : Prop :=
  match ev with
  | EvApply rev =>
      be_ListRevisions E h (ext_Name ext) = inr [] /\
      exists rel generated gvk, migrated_from rel /\ gen rel ext ol = inr generated /\ be_ExtGVK E = inr gvk /\
        rev = WithOwnerReferences [ext_owner_ref gvk ext]
                (WithLabels (<[MigratedFromHelmKey := "true"]> ∅) generated)
  | EvStatusUpdate rev' => exists h1 rev, markable h1 rev /\ rev' = marked rev
  | EvListRevisions _ | EvGet _ | EvActionClient | EvHelmGet _ | EvHelmHistory _ => True
  | _ => False
  end.

Lemma marking_calls h h1 t : marking h1 t -> Forall (migration_call h) t.
Proof. intros (name & [->|(rev & Hm & ->)]); repeat constructor. by exists h1, rev. Qed.

Lemma release_shape helmRelease h h1 :
  be_HelmGet E h1 (ext_Name ext) = (helmRelease, None) ->
  wp h (release_to_migrate E (ext_Name ext) helmRelease) (fun r t =>
    Forall (migration_call []) t /\ Forall (fun ev => exists n, ev = EvHelmHistory n) t /\
    match r with inr (Some rel) => migrated_from rel | _ => True end).
Proof.
  intros Hget.
  assert (Hhist : wp h (findLatestDeployedRelease E (ext_Name ext)) (fun r t =>
    Forall (migration_call []) t /\ Forall (fun ev => exists n, ev = EvHelmHistory n) t /\
    match r with inr (Some rel) => migrated_from rel | _ => True end)).
  { unfold findLatestDeployedRelease. apply wp_bind, wp_ask.
    destruct (be_HelmHistory E h (ext_Name ext)) as [history err] eqn:Eh. apply wp_ret.
    split; [by repeat constructor|]. split; [repeat constructor; by eexists|].
    destruct err as [e|]; [by destruct (has_kind _ _)|].
    destruct (fold_left later_deployed history None) as [rel|] eqn:Ef; [|done].
    apply later_deployed_max in Ef as (Hd & [Hn|Hin] & _ & Hmax); [done| |done].
    split; [done|]. right. by exists h, history. }
  unfold release_to_migrate. destruct helmRelease as [rel|]; [|done].
  case_bool_decide as Hd; [|done]. apply wp_ret. split; [constructor|]. split; [constructor|].
  split; [done|]. left. by exists h1.
Qed.

Lemma release_calls h t : Forall (fun ev => exists n, ev = EvHelmHistory n) t -> Forall (migration_call h) t.
Proof. intros Hf. eapply Forall_impl; [exact Hf|]. by intros ? [? ->]. Qed.

Lemma migrate_release_shape rel h h1 :
  be_ListRevisions E h (ext_Name ext) = inr [] -> migrated_from rel ->
  wp h1 (migrate_release E gen rel ext ol) (fun r t => Forall (migration_call h) t).
Proof.
  intros Hl Hrel. unfold migrate_release. destruct (gen rel ext ol) as [|generated] eqn:Eg; [by apply wp_ret|].
  destruct (be_ExtGVK E) as [|gvk] eqn:Ek; [by apply wp_ret|].
  set (rev := WithOwnerReferences _ _).
  assert (Hap : migration_call h (EvApply rev)) by (split; [done|]; by exists rel, generated, gvk).
  apply wp_try, wp_check, wp_ask. destruct (be_Apply E h1 rev); [constructor; [done|constructor]|].
  eapply wp_weaken; [apply status_shape|]. intros r t Ht. constructor; [done|].
  eapply marking_calls; exact Ht.
Qed.

Lemma migrate_shape h : wp h (Migrate E gen ext ol) (fun r t => Forall (migration_call h) t).
Proof.
  unfold Migrate. apply wp_try, wp_context, wp_ask.
  destruct (be_ListRevisions E h (ext_Name ext)) as [e|items] eqn:El; [by repeat constructor|].
  destruct items as [|x items].
  - apply wp_try, wp_check, wp_ask. destruct (be_ActionClientFor E _); [by repeat constructor|].
    apply wp_bind, wp_ask. destruct (be_HelmGet E _ (ext_Name ext)) as [helmRelease err] eqn:Eg.
    destruct err as [e|]; [apply wp_ret; by repeat constructor|].
    apply wp_try. eapply wp_weaken; [by eapply release_shape|]. intros r t (_ & Ht & Hr).
    apply (release_calls h) in Ht. destruct r as [e|[rel|]].
    + by repeat constructor.
    + eapply wp_weaken; [by apply (migrate_release_shape rel h)|]. intros r' t' Ht'.
      do 3 (constructor; [done|]). by apply Forall_app.
    + apply wp_ret. rewrite app_nil_r. by repeat constructor.
  - eapply wp_weaken; [apply migrated_status_shape|]. intros r t [->|Ht]; [by repeat constructor|].
    constructor; [done|]. by eapply marking_calls.
Qed.

(** Migration is idempotent and only migrates what works: a run applies a
    revision only if the extension has none, and only one generated from a
    deployed Helm release (the newest one, or the deployed one of the highest
    version), labelled as migrated; it marks as succeeded only revisions that
    carry that label and are not yet succeeded; and it makes no other change. *)
Theorem Migrate_only_deployed h r t ev :
  Migrate E gen ext ol h = (r, h ++ t) -> ev ∈ t -> migration_call h ev.
Proof.
  intros Hrun Hin. destruct (wp_run _ _ _ _ _ (migrate_shape h) Hrun) as (t' & Ht%app_inv_head & Hf).
  subst t'. rewrite Forall_forall in Hf. by apply Hf.
Qed.

End Migration.

(** ** Witnesses *)

Module Samples.

#[local] Existing Instance codec_sample.

(** A generator of two manifests, and a cluster that holds [items] and admits
    every request but an in-place change of the current revision. *)
Definition sample_generate (_ : unit) (ext : ClusterExtension) (_ _ : gmap string string) : result COSAC :=
  inr (buildClusterObjectSet [sample_deploy; sample_sa] ext ∅).

#[local] Instance sample_generate_inline : InlineGenerator sample_generate.
Proof.
  intros fs ext ol ra rev [= <-]. unfold inline_only.
  change (ca_Phases _) with (PhaseSort [sample_deploy; sample_sa]).
  apply (bool_decide_unpack _). vm_compute. exact I.
Qed.

Definition sample_revision (n : Z) : ClusterObjectSet :=
  mkCOS (mkMeta (fmt_d n) "" "uid" 1 ∅ ∅ [] [] 0 None)
    (mkCOSSpec (if n =? 7 then LifecycleStateActive else LifecycleStateArchived) n [] 0 [] CollisionProtectionNone) [].

Definition sample_env (items : list ClusterObjectSet) : BoxEnv := {|
  be_ListRevisions _ _ := inr items;
  be_Apply _ rev := if bool_decide (sa_Revision (ca_Spec rev) = Some (Z.of_nat (length items) + 1)) then None
                    else Some (EApi KInvalid "spec.phases is immutable");
  be_Create _ s := inr s;
  be_Delete _ _ := None;
  be_Get _ _ := inr (sample_revision 8);
  be_ListSecrets _ _ _ := inr [];
  be_Patch _ _ := None;
  be_StatusUpdate _ _ := None;
  be_PreAuthorize := Some (fun _ _ _ _ => ([], None));
  be_PrintObj _ := inr "manifest";
  be_ActionClientFor _ := None;
  be_HelmGet _ _ := (Some (mkRelease 3 (Some StatusDeployed) ∅ ""), None);
  be_HelmHistory _ _ := ([], None);
  be_ExtGVK := inr (mkGVK api_Group api_Version ClusterExtensionKind);
|}.

Definition seven : list ClusterObjectSet := map sample_revision [1; 2; 3; 4; 5; 6; 7].

Definition the_ext : ClusterExtension := sample_ext (sample_filter EmptyString []).

Definition sample_run (items : list ClusterObjectSet) : result unit * H :=
  Boxcutter_apply (sample_env items) sample_generate [] "olmv1-system" (Some tt) the_ext ∅ ∅ [].

Definition applied_rev (ev : event) : COSAC :=
  match ev with EvApply rev => rev | _ => buildClusterObjectSet [] the_ext ∅ end.

Definition run7 : H := (sample_run seven).2.
Definition new7 : COSAC := match run7 !! 6%nat with Some ev => applied_rev ev | None => applied_rev EvActionClient end.
Definition generated7 : COSAC := buildClusterObjectSet [sample_deploy; sample_sa] the_ext ∅.

Lemma run7_split :
  Boxcutter_apply (sample_env seven) sample_generate [] "olmv1-system" (Some tt) the_ext ∅ ∅ [] =
  (inr tt, [] ++ take 6 run7 ++ EvApply new7 :: drop 7 run7).
Proof. vm_compute. reflexivity. Qed.

Lemma new_revision_complete_witness :
  let E := sample_env seven in
  let next := next_revision (revisions_at E the_ext []) in
  (forall x, x ∈ seven -> cos_Revision x < next) /\ ca_Name new7 = Some (next_name the_ext (revisions_at E the_ext [])) /\
  forall i j p o u m, ca_Phases generated7 !! i = Some p -> pa_Objects p !! j = Some o ->
    oa_Object o = Some u -> u_Object u = Some m -> representable m = true ->
    (forall raw, json_Marshal m = inr raw -> slen raw <= maxDecompressedSize) ->
    exists p' ref s, ca_Phases new7 !! i = Some p' /\ pa_Name p' = pa_Name p /\
      pa_Objects p' !! j = Some (mkObjectAC None (Some ref) (oa_CollisionProtection o)) /\
      EvCreate s ∈ take 6 run7 /\ osr_Name ref = sec_Name s /\ osr_Namespace ref = sec_Namespace s /\
      forall get, get (osr_Namespace ref) (osr_Name ref) = inr s -> resolveObjectRef get ref = inr u.
Proof.
  apply (new_revision_complete (sample_env seven) sample_generate [] "olmv1-system" the_ext ∅ ∅ tt [] (inr tt)
           (take 6 run7) new7 (drop 7 run7) generated7 seven).
  - reflexivity.
  - intros x Hx. unfold seven in Hx. apply list_elem_of_fmap in Hx as (n & -> & Hn). cbn.
    repeat (apply elem_of_cons in Hn as [->|Hn]; [lia|]). by apply not_elem_of_nil in Hn.
  - reflexivity.
  - by intros a b _ _ H.
  - exact run7_split.
  - vm_compute. reflexivity.
Defined.

Lemma Apply_order_witness :
  exists t, [] ++ take 6 run7 ++ EvApply new7 :: drop 7 run7 = [] ++ t /\
    StronglySorted le (map (stage (next_revision (revisions_at (sample_env seven) the_ext []))) t).
Proof.
  apply (Apply_order (sample_env seven) sample_generate [] "olmv1-system" the_ext ∅ ∅ tt [] (inr tt)).
  exact run7_split.
Defined.

Lemma creation_is_authorized_witness :
  exists t0 t0' desired manifests perms,
    take 6 run7 = t0 ++ EvPreAuthorize (getUserInfo the_ext) manifests perms :: t0' /\
    wanted (sample_env seven) sample_generate the_ext ∅ ∅ tt desired /\
    revisionManifestReader (sample_env seven)
      (numbered the_ext (revisions_at (sample_env seven) the_ext []) desired) = inr manifests /\
    (([], None) : list ScopedPolicyRules * option error) = ([], None).
Proof.
  apply (creation_is_authorized (sample_env seven) sample_generate [] "olmv1-system" the_ext ∅ ∅ tt
           (fun _ _ _ _ => ([], None)) [] (inr tt) (take 6 run7) (EvApply new7) (drop 7 run7)).
  - reflexivity.
  - exact run7_split.
  - vm_compute. reflexivity.
Defined.

Lemma gc_only_old_archived_witness :
  let revs := revisions_at (sample_env seven) the_ext [] in
  exists i x, revs !! i = Some x /\ cos_Name x = "2" /\ cos_Lifecycle x = LifecycleStateArchived /\
    Z.of_nat i + ClusterObjectSetRetentionLimit < Z.of_nat (length revs) /\
    forall k y, (i < k)%nat -> revs !! k = Some y -> cos_Revision x <= cos_Revision y.
Proof.
  apply (gc_only_old_archived (sample_env seven) sample_generate [] "olmv1-system" the_ext ∅ ∅ tt [] (inr tt)
           (take 6 run7 ++ EvApply new7 :: drop 7 run7) "2").
  - exact run7_split.
  - vm_compute. do 3 right. left.
Defined.

Lemma Apply_outcome_witness :
  let t := take 6 run7 ++ EvApply new7 :: drop 7 run7 in
  let revs := revisions_at (sample_env seven) the_ext [] in
  (exists rev, EvApply rev ∈ t /\ sa_Revision (ca_Spec rev) = Some (next_revision revs)) \/
  exists cur, last revs = Some cur /\ (forall s name, EvCreate s ∉ t /\ EvDelete name ∉ t) /\
    (cos_Name cur = EmptyString \/ exists h1 secrets,
       be_ListSecrets (sample_env seven) h1 "olmv1-system" (cos_Name cur) = inr secrets /\
       forall s, s ∈ secrets -> owned_by (m_UID (cos_Meta cur)) s = false ->
         EvPatch (add_owner (cos_owner_ref (cos_Name cur) (m_UID (cos_Meta cur))) s) ∈ t).
Proof.
  apply (Apply_outcome (sample_env seven) sample_generate [] "olmv1-system" the_ext ∅ ∅ tt []). exact run7_split.
Defined.

(** A migration of a deployed release. *)
Definition sample_migrate (rel : HelmRelease) (ext : ClusterExtension) (_ : gmap string string) : result COSAC :=
  inr (WithName "ext-1" (buildClusterObjectSet [sample_deploy] ext ∅)).

Definition migrate_run : result unit * H := Migrate (sample_env []) sample_migrate the_ext ∅ [].

Lemma Migrate_only_deployed_witness :
  match migrate_run.2 !! 3%nat with
  | Some ev => migration_call (sample_env []) sample_migrate the_ext ∅ [] ev
  | None => False
  end.
Proof.
  destruct (migrate_run.2 !! 3%nat) as [ev|] eqn:Hev; [|vm_compute in Hev; discriminate].
  apply (Migrate_only_deployed (sample_env []) sample_migrate the_ext ∅ [] migrate_run.1 migrate_run.2 ev).
  - apply surjective_pairing.
  - by eapply list_elem_of_lookup_2.
Defined.

End Samples.
