(* ===== verification/BoxAuth.v ===== *)
(** * The applier and the pre-authorizer together

    The applier of BoxApply.v with the pre-authorizer of Rbac.v in the place of
    its interface: what the cluster's authorizer granted before anything is
    created. *)

From S2P Require Import Prelude GoErrors ApiTypes Phase ObjectInstances SecretPacker PackProps ExtSteps RevisionGen.
From S2P Require Import Rbac RbacProps BoxApply BoxLogic BoxProps Instances.

Section Composed.
Context `{CO : Codec}.
Context {FS : Type} (E : BoxEnv).
Context (gen : FS -> ClusterExtension -> gmap string string -> gmap string string -> result COSAC).
Context `{IG : !InlineGenerator gen}.
Context (preflights : list Preflight) (ns : string).
Context (ext : ClusterExtension) (ol ra : gmap string string) (fs : FS).
(** The cluster, as it is after each history, and the verbs of main.go. *)
Context (R : H -> RbacEnv) (clusterCollectionVerbs : list string).
Context (range_perm : forall h A (l : list A), ra_range (R h) A l ≡ₚ l).

(** A user may manage the objects of a manifest and do what else is asked. *)
Definition may_manage (C : RbacEnv) (user manifests : string) (perms : list AttributesRecord) : Prop :=
  exists dm objs, decodeManifest C manifests = inr dm /\ ra_Decode C manifests = map inr objs /\
    (forall u, u ∈ objs -> exists gvr, resource_of C u = inr gvr /\
       forall ar, needed_for clusterCollectionVerbs user gvr (key_of u) ar -> allowed C ar) /\
    Forall (allowed C) perms /\ Forall (fun o => checkEscalation C dm user o = None) (rbacObjects C dm).

(** C8. Nothing is created that the service account may not manage: with the
    pre-authorizer on, every Secret and every new revision an apply creates
    comes after a point at which, for the very manifests of that revision, the
    cluster granted the extension's service account each verb on each object,
    creation in each namespace and the collection verbs, and at which no RBAC
    object among them grants more than the account holds. *)
Theorem created_objects_permitted h r t1 ev t2 :
  be_PreAuthorize E = Some (fun h user manifests perms => PreAuthorize (R h) clusterCollectionVerbs user manifests perms) ->
  Boxcutter_apply E gen preflights ns (Some fs) ext ol ra h = (r, h ++ t1 ++ ev :: t2) ->
  (match ev with
   | EvCreate _ => True
   | EvApply rev => sa_Revision (ca_Spec rev) = Some (next_revision (revisions_at E ext h))
   | _ => False
   end) ->
  exists t0 t0' desired manifests perms,
    t1 = t0 ++ EvPreAuthorize (getUserInfo ext) manifests perms :: t0' /\ wanted E gen ext ol ra fs desired /\
    revisionManifestReader E (numbered ext (revisions_at E ext h) desired) = inr manifests /\
    may_manage (R (h ++ t0)) (getUserInfo ext) manifests perms.
Proof.
  intros Hpa Hrun Hev.
  destruct (creation_is_authorized E gen preflights ns ext ol ra fs _ h r t1 ev t2 Hpa Hrun Hev)
    as (t0 & t0' & desired & manifests & perms & -> & Hw & Hm & Hok).
  exists t0, t0', desired, manifests, perms. do 3 (split; [done|]).
  by apply PreAuthorize_granted in Hok; [|apply range_perm].
Qed.
End Composed.

(** ** A run *)

Module AuthSamples.
Import Samples RbacSamples.
#[local] Existing Instance codec_sample.
#[local] Existing Instance sample_generate_inline.

Definition permissive : RbacEnv := cluster false [] false.

(** The cluster of the applier's runs, with the pre-authorizer in place. *)
Definition auth_env : BoxEnv :=
  let E := sample_env seven in {|
  be_ListRevisions := be_ListRevisions E; be_Apply := be_Apply E; be_Create := be_Create E; be_Delete := be_Delete E;
  be_Get := be_Get E; be_ListSecrets := be_ListSecrets E; be_Patch := be_Patch E; be_StatusUpdate := be_StatusUpdate E;
  be_PreAuthorize := Some (fun _ user manifests perms => PreAuthorize permissive ["list"; "watch"] user manifests perms);
  be_PrintObj := be_PrintObj E; be_ActionClientFor := be_ActionClientFor E; be_HelmGet := be_HelmGet E;
  be_HelmHistory := be_HelmHistory E; be_ExtGVK := be_ExtGVK E;
|}.

Lemma auth_run :
  Boxcutter_apply auth_env sample_generate [] "olmv1-system" (Some tt) the_ext ∅ ∅ [] =
  (inr tt, [] ++ take 6 run7 ++ EvApply new7 :: drop 7 run7).
Proof. vm_compute. reflexivity. Qed.

Lemma created_objects_permitted_witness :
  exists t0 t0' desired manifests perms,
    take 6 run7 = t0 ++ EvPreAuthorize (getUserInfo the_ext) manifests perms :: t0' /\
    wanted auth_env sample_generate the_ext ∅ ∅ tt desired /\
    revisionManifestReader auth_env (numbered the_ext (revisions_at auth_env the_ext []) desired) = inr manifests /\
    may_manage ["list"; "watch"] permissive (getUserInfo the_ext) manifests perms.
Proof.
  apply (created_objects_permitted auth_env sample_generate [] "olmv1-system" the_ext ∅ ∅ tt (fun _ => permissive)
           ["list"; "watch"] (fun _ => cluster_range _ _ _) [] (inr tt) (take 6 run7) (EvApply new7) (drop 7 run7)).
  - reflexivity.
  - exact auth_run.
  - vm_compute. reflexivity.
Defined.

End AuthSamples.
