(* ===== verification/ObjectSet.v ===== *)
(** * Reconciling a ClusterObjectSet

    src/internal/operator-controller/controllers/clusterobjectset_controller.go
    and getServiceAccount of controllers/revision_engine_factory.go.

    The boxcutter engine, the tracking cache and the API server answer through
    [SetEnv]; an answer may depend on the history of [svent]s.  A patch of the
    finalizers overwrites the object with the server's answer, as the client
    does.  Durations are in nanoseconds, as in Go. *)

From S2P Require Import Prelude GoErrors ApiTypes Resolve Phase SecretPacker ExtSteps.

Definition clusterObjectSetTeardownFinalizer : string := "olm.operatorframework.io/teardown".

(** ** Durations *)

Definition Second : Z := 1000000000.
Definition Minute : Z := 60 * Second.
Definition maxDuration : Z := 2 ^ 63 - 1.
Definition minDuration : Z := - 2 ^ 63.

(** t.Sub(u): the difference, saturated. *)
Definition time_Sub (t u : Z) : Z := Z.max minDuration (Z.min maxDuration (t - u)).

(** d.Round(m): to the nearest multiple, halves away from zero. *)
Definition duration_Round (d m : Z) : Z :=
  if m <=? 0 then d
  else
    let r := Z.rem d m in
    if d <? 0 then
      let r := - r in
      if r + r <? m then d + r
      else let d1 := int64 (d - m + r) in if d1 <? d then d1 else minDuration
    else if r + r <? m then d - r
    else let d1 := int64 (d + m - r) in if d <? d1 then d1 else maxDuration.

(** ** Probes (pkg.package-operator.run/boxcutter/probing) *)

Section ObjectSet.
Context `{CA : ConditionsAPI} `{LA : LabelsAPI} `{UA : UnstructuredAPI} `{CO : Codec}.

Inductive Prober :=
| ConditionProbe (p : ConditionEqualProbe)
| FieldsEqual (p : FieldsEqualProbe)
| FieldValue (p : FieldValueProbe)
| And (ps : list Prober)
| GroupKindSelector (gk : GroupKind) (p : Prober)
| LabelSelectorProbe (s : Selector) (p : Prober)
| ObservedGenerationProbe (p : Prober).

(** The inner loop of buildProgressionProbes. *)
Fixpoint build_assertions (probes : list Assertion) : result (list Prober) :=
  match probes with
  | [] => inr []
  | probe :: rest =>
      match (if decide (as_Type probe = ProbeTypeConditionEqual) then inr (ConditionProbe (as_ConditionEqual probe))
             else if decide (as_Type probe = ProbeTypeFieldsEqual) then inr (FieldsEqual (as_FieldsEqual probe))
             else if decide (as_Type probe = ProbeTypeFieldValue) then inr (FieldValue (as_FieldValue probe))
             else inl (ENew ("unknown progressionProbe assertion probe type: " +:+ as_Type probe))) with
      | inl err => inl err
      | inr p => match build_assertions rest with inl err => inl err | inr ps => inr (p :: ps) end
      end
  end.

(** The %v of a label selector, in the error message. *)
Context (selector_text : LabelSelector -> string).

(** func buildProgressionProbes(progressionProbes) (probing.And, error) *)
Fixpoint buildProgressionProbes (progressionProbes : list ProgressionProbe) : result (list Prober) :=
  match progressionProbes with
  | [] => inr []
  | pp :: rest =>
      match build_assertions (pp_Assertions pp) with
      | inl err => inl err
      | inr assertions =>
          let sel := pp_Selector pp in
          match (if decide (os_Type sel = SelectorTypeGroupKind) then
                   inr (GroupKindSelector (os_GroupKind sel) (And assertions))
                 else if decide (os_Type sel = SelectorTypeLabel) then
                   match LabelSelectorAsSelector (Some (os_Label sel)) with
                   | inl err => inl (EWrap ("invalid label selector in progressionProbe (" +:+
                                            selector_text (os_Label sel) +:+ "): ") err "")
                   | inr selector => inr (LabelSelectorProbe selector (And assertions))
                   end
                 else inl (ENew ("unknown progressionProbe selector type: " +:+ os_Type sel))) with
          | inl err => inl err
          | inr selectorProbe =>
              match buildProgressionProbes rest with
              | inl err => inl err
              | inr userProbes => inr (ObservedGenerationProbe selectorProbe :: userProbes)
              end
          end
      end
  end.

(** ** What the engine is given and answers *)

(** boxcutter.Phase, the options of a reconcile, and a revision. *)
Record BoxPhase := mkBoxPhase { bp_Name : string; bp_Objects : list Unstructured }.

Record BoxOpts := mkBoxOpts {
  bo_PreviousOwners : list ClusterObjectSet;
  bo_Probes : list Prober;
  bo_Collision : list (Unstructured * string);
}.

Record BoxRevision := mkBoxRevision { br_Name : string; br_Revision : Z; br_Phases : list BoxPhase }.

(** machinery.Action: the two actions the controller looks for. *)
Inductive Action := ActionCollision | ActionProgressed | ActionOther (name : string).

Record ObjectResult := mkObjectResult {
  ores_Action : Action;
  ores_String : string;
  ores_Object : Unstructured;
  (* ProbeResults()[ProgressProbeType]: whether the status is true, the messages *)
  ores_ProbeTrue : bool;
  ores_ProbeMessages : list string;
}.

Record PhaseResult := mkPhaseResult {
  pres_ValidationError : option error;
  pres_Objects : list ObjectResult;
  pres_IsComplete : bool;
}.

Record RevisionResult := mkRevisionResult {
  rres_ValidationError : option error;
  rres_Phases : list PhaseResult;
  rres_InTransition : bool;
  rres_IsComplete : bool;
}.

Inductive svent :=
| SvGet
| SvListRevisions (owner : string)
| SvGetSecret (namespace name : string)
| SvCreateEngine
| SvFree
| SvWatch (gvks : list GroupVersionKind)
| SvReconcile (rev : BoxRevision) (opts : BoxOpts)
| SvTeardown (rev : BoxRevision)
| SvPatchFinalizers (finalizers : list string)
| SvArchive (name : string)
| SvStatusUpdate (conditions : list Condition).

Definition HS : Type := list svent.

Record SetEnv := mkSetEnv {
  se_Get : HS -> result ClusterObjectSet;
  se_ListRevisions : HS -> string -> result (list ClusterObjectSet);
  se_GetSecret : HS -> string -> string -> result Secret;
  se_CreateEngine : HS -> ClusterObjectSet -> option error;
  se_Free : HS -> option error;
  se_Watch : HS -> list GroupVersionKind -> option error;
  se_Reconcile : HS -> BoxRevision -> BoxOpts -> result RevisionResult;
  (* nil, or whether the teardown is complete *)
  se_Teardown : HS -> BoxRevision -> result (option bool);
  se_PatchFinalizers : HS -> ClusterObjectSet -> list string -> result ClusterObjectSet;
  se_Archive : HS -> string -> option error;
  se_StatusUpdate : HS -> ClusterObjectSet -> option error;
  se_Now : HS -> Z;
  (* OwnerReference.String() *)
  se_OwnerRefString : OwnerReference -> string;
}.

(** ** Conditions *)

Definition set_on (cos : ClusterObjectSet) (t : string) (st : ConditionStatus) (reason message : string)
  : ClusterObjectSet * bool :=
  let '(cs, changed) := meta_SetStatusCondition (cos_Conditions cos) (mkCond t st reason message (cos_Generation cos)) in
  (with_COSConditions cs cos, changed).

(** func markAsProgressing(cos, reason, message) *)
Definition markAsProgressing (reason message : string) (cos : ClusterObjectSet) : ClusterObjectSet :=
  (set_on cos ClusterObjectSetTypeProgressing ConditionTrue reason message).1.

(** func markAsNotProgressing(cos, reason, message) bool *)
Definition markAsNotProgressing (reason message : string) (cos : ClusterObjectSet) : ClusterObjectSet * bool :=
  set_on cos ClusterObjectSetTypeProgressing ConditionFalse reason message.

(** func markAsAvailable(cos, reason, message) bool *)
Definition markAsAvailable (reason message : string) (cos : ClusterObjectSet) : ClusterObjectSet * bool :=
  set_on cos ClusterObjectSetTypeAvailable ConditionTrue reason message.

(** func markAsUnavailable(cos, reason, message) *)
Definition markAsUnavailable (reason message : string) (cos : ClusterObjectSet) : ClusterObjectSet :=
  (set_on cos ClusterObjectSetTypeAvailable ConditionFalse reason message).1.

(** func markAsAvailableUnknown(cos, reason, message) bool *)
Definition markAsAvailableUnknown (reason message : string) (cos : ClusterObjectSet) : ClusterObjectSet * bool :=
  set_on cos ClusterObjectSetTypeAvailable ConditionUnknown reason message.

(** func markAsArchived(cos) bool *)
Definition markAsArchived (cos : ClusterObjectSet) : ClusterObjectSet * bool :=
  let msg := "revision is archived" in
  let '(cos, updated) := markAsNotProgressing ClusterObjectSetReasonArchived msg cos in
  let '(cos, changed) := markAsAvailableUnknown ClusterObjectSetReasonArchived msg cos in
  (cos, changed || updated).

(** func setRetryingConditions(cos, message) *)
Definition setRetryingConditions (message : string) (cos : ClusterObjectSet) : ClusterObjectSet :=
  let cos := markAsProgressing ClusterObjectSetReasonRetrying message cos in
  match FindStatusCondition (cos_Conditions cos) ClusterObjectSetTypeAvailable with
  | Some _ => (markAsAvailableUnknown ClusterObjectSetReasonReconciling message cos).1
  | None => cos
  end.

(** ** Helpers *)

(** fmt.Errorf("pre: %v", err): the text, without the wrapped error. *)
Definition errorf_v (pre : string) (err : error) : error := ENew (pre +:+ Error err).

(** func EffectiveCollisionProtection(cp ...) *)
Definition EffectiveCollisionProtection (cp : list string) : string :=
  fold_left (fun ecp c => if decide (c = EmptyString) then ecp else c) cp CollisionProtectionPrevent.

(** func foreignRevisionController(obj, siblings) *)
Definition foreign_ref (siblings : gset string) (ref : OwnerReference) : bool :=
  bool_decide (or_Controller ref = Some true) && bool_decide (or_Kind ref = ClusterObjectSetKind) &&
  bool_decide (or_APIVersion ref = GroupVersion_String) && negb (bool_decide (or_Name ref ∈ siblings)).

Definition foreignRevisionController (obj : Unstructured) (siblings : gset string) : option OwnerReference :=
  head (filter (fun ref => foreign_ref siblings ref = true) (u_OwnerReferences obj)).

(** func checkForUnexpectedClusterObjectSetFieldChange(a, b) bool *)
Definition checkForUnexpectedClusterObjectSetFieldChange (a b : ClusterObjectSet) : bool :=
  negb (bool_decide (cos_Spec a = cos_Spec b)).

(** The UpdateFunc of skipProgressDeadlineExceededPredicate, on a ClusterObjectSet. *)
Definition skipProgressDeadlineExceededPredicate (rev : ClusterObjectSet) : bool :=
  if cos_deleting rev then true
  else match FindStatusCondition (cos_Conditions rev) ClusterObjectSetTypeProgressing with
       | Some cnd => negb (bool_decide (c_Status cnd = ConditionFalse) &&
                           bool_decide (c_Reason cnd = ReasonProgressDeadlineExceeded))
       | None => true
       end.

(** func (f *defaultRevisionEngineFactory) getServiceAccount(rev): namespace
    and name. *)
Definition getServiceAccount (rev : ClusterObjectSet) : result (string * string) :=
  let annotations := m_Annotations (cos_Meta rev) in
  let missing what := inl (ENew ("revision " +:+ fmt_q (cos_Name rev) +:+ " is missing " +:+ what)) in
  if decide (annotations = ∅) then missing "required annotations"
  else
    let saName := strings_TrimSpace (map_get annotations ServiceAccountNameKey) in
    let saNamespace := strings_TrimSpace (map_get annotations ServiceAccountNamespaceKey) in
    if decide (saName = EmptyString) then missing "ServiceAccount name annotation"
    else if decide (saNamespace = EmptyString) then missing "ServiceAccount namespace annotation"
    else inr (saNamespace, saName).

Section Controller.
Context (E : SetEnv).

(** func (c *ClusterObjectSetReconciler) listPreviousRevisions(ctx, cos) *)
Definition is_previous (cos r : ClusterObjectSet) : bool :=
  negb (bool_decide (cos_Name r = cos_Name cos)) &&
  negb (bool_decide (cos_Lifecycle r = LifecycleStateArchived) || cos_deleting r) &&
  (cos_Revision r <? cos_Revision cos).

Definition listPreviousRevisions (cos : ClusterObjectSet) : IO HS (result (list ClusterObjectSet)) :=
  match cos_Labels cos !! OwnerNameKey with
  | None => io_ret (inr [])
  | Some ownerLabel =>
      let* r := ask (SvListRevisions ownerLabel) (fun h => se_ListRevisions E h ownerLabel) in
      io_ret (match r with
              | inl err => inl (EWrap "listing revisions: " err "")
              | inr items => inr (filter (fun x => is_previous cos x = true) items)
              end)
  end.

(** func (c *ClusterObjectSetReconciler) siblingRevisionNames(ctx, cos) *)
Definition siblingRevisionNames (cos : ClusterObjectSet) : IO HS (result (option (gset string))) :=
  match cos_Labels cos !! OwnerNameKey with
  | None => io_ret (inr None)
  | Some ownerLabel =>
      let* r := ask (SvListRevisions ownerLabel) (fun h => se_ListRevisions E h ownerLabel) in
      io_ret (match r with
              | inl err => inl (EWrap "listing sibling revisions: " err "")
              | inr items => inr (Some (list_to_set (map cos_Name items)))
              end)
  end.

(** The object of a position: inline, or read from its Secret. *)
Definition object_of (phaseName : string) (specObj : ClusterObjectSetObject) : IO HS (result Unstructured) :=
  match u_Object (oo_Object specObj) with
  | Some _ => io_ret (inr (oo_Object specObj))
  | None =>
      let ref := oo_Ref specObj in
      if decide (osr_Name ref = EmptyString) then
        io_ret (inl (ENew ("object in phase " +:+ fmt_q phaseName +:+ " has neither object nor ref")))
      else
        let* s := ask (SvGetSecret (osr_Namespace ref) (osr_Name ref))
                    (fun h => se_GetSecret E h (osr_Namespace ref) (osr_Name ref)) in
        io_ret (match resolveObjectRef (fun _ _ => s) ref with
                | inl err => inl (EWrap ("resolving ref in phase " +:+ fmt_q phaseName +:+ ": ") err "")
                | inr obj => inr obj
                end)
  end.

(** The label every object gets. *)
Definition label_object (cos : ClusterObjectSet) (obj : Unstructured) : Unstructured :=
  u_SetLabels (Some (<[OwnerNameKey := map_get (cos_Labels cos) OwnerNameKey]> (default ∅ (u_GetLabels obj)))) obj.

(** The collision option of an object, when it is not the engine's default. *)
Definition collision_option (cos : ClusterObjectSet) (phase : ClusterObjectSetPhase)
    (specObj : ClusterObjectSetObject) (obj : Unstructured) : list (Unstructured * string) :=
  let cp := EffectiveCollisionProtection [os_CollisionProtection (cos_Spec cos); ph_CollisionProtection phase;
                                          oo_CollisionProtection specObj] in
  if decide (cp = CollisionProtectionIfNoController \/ cp = CollisionProtectionNone) then [(obj, cp)] else [].

Fixpoint build_objects (cos : ClusterObjectSet) (phase : ClusterObjectSetPhase)
    (specObjs : list ClusterObjectSetObject) : IO HS (result (list Unstructured * list (Unstructured * string))) :=
  match specObjs with
  | [] => io_ret (inr ([], []))
  | specObj :: rest =>
      let* r := object_of (ph_Name phase) specObj in
      match r with
      | inl err => io_ret (inl err)
      | inr obj =>
          let obj := label_object cos obj in
          let opt := collision_option cos phase specObj obj in
          let* r := build_objects cos phase rest in
          io_ret (match r with
                  | inl err => inl err
                  | inr (objs, opts) => inr (obj :: objs, opt ++ opts)
                  end)
      end
  end.

Fixpoint build_phases (cos : ClusterObjectSet) (specPhases : list ClusterObjectSetPhase)
  : IO HS (result (list BoxPhase * list (Unstructured * string))) :=
  match specPhases with
  | [] => io_ret (inr ([], []))
  | phase :: rest =>
      let* r := build_objects cos phase (ph_Objects phase) in
      match r with
      | inl err => io_ret (inl err)
      | inr (objs, opts) =>
          let* r := build_phases cos rest in
          io_ret (match r with
                  | inl err => inl err
                  | inr (phases, opts') => inr (mkBoxPhase (ph_Name phase) objs :: phases, opts ++ opts')
                  end)
      end
  end.

(** func (c *ClusterObjectSetReconciler) buildBoxcutterPhases(ctx, cos) *)
Definition buildBoxcutterPhases (cos : ClusterObjectSet) : IO HS (result (list BoxPhase * BoxOpts)) :=
  let* r := listPreviousRevisions cos in
  match r with
  | inl err => io_ret (inl (EWrap "listing previous revisions: " err ""))
  | inr previous =>
      match buildProgressionProbes (os_ProgressionProbes (cos_Spec cos)) with
      | inl err => io_ret (inl err)
      | inr progressionProbes =>
          let* r := build_phases cos (os_Phases (cos_Spec cos)) in
          io_ret (match r with
                  | inl err => inl err
                  | inr (phases, collision) => inr (phases, mkBoxOpts previous progressionProbes collision)
                  end)
      end
  end.

(** func (c *ClusterObjectSetReconciler) establishWatch(ctx, cos, revision):
    the kinds of all objects, as a set. *)
Definition establishWatch (revision : BoxRevision) : IO HS (option error) :=
  let gvks := remove_dups (concat (map (fun p => map u_GVK (bp_Objects p)) (br_Phases revision))) in
  ask (SvWatch gvks) (fun h => se_Watch E h gvks).

(** func (c *ClusterObjectSetReconciler) ensureFinalizer / removeFinalizer:
    the object after the patch, or the error with the object as changed. *)
Definition with_finalizers (fs : list string) (cos : ClusterObjectSet) : ClusterObjectSet :=
  with_COSMeta (with_Finalizers fs (cos_Meta cos)) cos.

Definition patch_finalizers (what : string) (fs : list string) (cos : ClusterObjectSet)
  : IO HS (ClusterObjectSet * option error) :=
  let cos := with_finalizers fs cos in
  let* r := ask (SvPatchFinalizers fs) (fun h => se_PatchFinalizers E h cos fs) in
  io_ret (match r with
          | inl err => (cos, Some (EWrap what err ""))
          | inr cos => (cos, None)
          end).

Definition ensureFinalizer (finalizer : string) (cos : ClusterObjectSet) : IO HS (ClusterObjectSet * option error) :=
  if bool_decide (finalizer ∈ m_Finalizers (cos_Meta cos)) then io_ret (cos, None)
  else patch_finalizers "adding finalizer: " (m_Finalizers (cos_Meta cos) ++ [finalizer]) cos.

Definition removeFinalizer (finalizer : string) (cos : ClusterObjectSet) : IO HS (ClusterObjectSet * option error) :=
  if bool_decide (finalizer ∈ m_Finalizers (cos_Meta cos)) then
    patch_finalizers "removing finalizer: " (filter (fun f => f <> finalizer) (m_Finalizers (cos_Meta cos))) cos
  else io_ret (cos, None).

(** What the handlers return: the object, the result and the error. *)
Definition handled : Type := ClusterObjectSet * CtrlResult * option error.

Definition finish (cos : ClusterObjectSet) (res : CtrlResult) (err : option error) : IO HS handled :=
  io_ret (cos, res, err).

(** func (c *ClusterObjectSetReconciler) delete(ctx, cos) *)
Definition delete_set (cos : ClusterObjectSet) : IO HS handled :=
  let* err := ask SvFree (fun h => se_Free E h) in
  match err with
  | Some e => finish (markAsAvailableUnknown ClusterObjectSetReasonReconciling (Error e) cos).1 emptyResult
                (Some (errorf_v "error stopping informers: " e))
  | None =>
      let* r := removeFinalizer clusterObjectSetTeardownFinalizer cos in
      let '(cos, err) := r in
      finish cos emptyResult (errorf_v "error removing teardown finalizer: " <$> err)
  end.

(** func (c *ClusterObjectSetReconciler) archive(ctx, revisionEngine, cos, revision) *)
Definition archive (cos : ClusterObjectSet) (revision : BoxRevision) : IO HS handled :=
  let* r := ask (SvTeardown revision) (fun h => se_Teardown E h revision) in
  match r with
  | inl e =>
      let err := errorf_v "error archiving revision: " e in
      finish (setRetryingConditions (Error err) cos) emptyResult (Some err)
  | inr (Some false) =>
      finish (setRetryingConditions "removing revision resources that are not owned by another revision" cos)
        (mkResult (5 * Second)) None
  | inr _ =>
      let '(cos, updated) := markAsArchived cos in
      if updated then finish cos emptyResult None
      else
        let* r := removeFinalizer clusterObjectSetTeardownFinalizer cos in
        let '(cos, err) := r in
        finish cos emptyResult (errorf_v "error removing teardown finalizer: " <$> err)
  end.

(** The collisions of a phase. *)
Definition colliding (siblings : option (gset string)) (ores : ObjectResult) : list string :=
  match ores_Action ores with
  | ActionCollision => [ores_String ores]
  | ActionProgressed =>
      match siblings with
      | None => []
      | Some names =>
          match foreignRevisionController (ores_Object ores) names with
          | Some ref => [ores_String ores +:+ nl +:+ "Conflicting Owner: " +:+ se_OwnerRefString E ref]
          | None => []
          end
      end
  | ActionOther _ => []
  end.

(** The loop over the phase results: the message of the first phase that
    failed its validation or holds collisions. *)
Fixpoint phase_problem (i : Z) (siblings : option (gset string)) (phases : list PhaseResult) : option string :=
  match phases with
  | [] => None
  | pres :: rest =>
      match pres_ValidationError pres with
      | Some verr => Some ("phase " +:+ fmt_d i +:+ " validation error: " +:+ Error verr)
      | None =>
          match concat (map (colliding siblings) (pres_Objects pres)) with
          | [] => phase_problem (i + 1) siblings rest
          | collidingObjs => Some ("revision object collisions in phase " +:+ fmt_d i +:+ nl +:+
                                   strings_Join collidingObjs (nl +:+ nl))
          end
      end
  end.

(** The first object of an incomplete phase whose probe is not true. *)
Definition probe_failure (pres : PhaseResult) : option string :=
  if pres_IsComplete pres then None
  else match filter (fun o => ores_ProbeTrue o = false) (pres_Objects pres) with
       | [] => None
       | ores :: _ =>
           let obj := ores_Object ores in
           let gvk := u_GVK obj in
           Some ("Object " +:+ gvk_Kind gvk +:+ "." +:+ gv_String gvk +:+ " " +:+ u_GetNamespace obj +:+ "/" +:+
                 u_GetName obj +:+ ": " +:+ strings_Join (ores_ProbeMessages ores) " and ")
       end.

Definition rolling_out_message (revVersion : string) : string := "Revision " +:+ revVersion +:+ " is rolling out.".

(** The loop that archives the previous revisions. *)
Fixpoint archive_previous (previous : list ClusterObjectSet) : IO HS (option error) :=
  match previous with
  | [] => io_ret None
  | a :: rest =>
      let* err := ask (SvArchive (cos_Name a)) (fun h => se_Archive E h (cos_Name a)) in
      match err with
      | Some e => io_ret (Some (EWrap "archive previous Revision: " e ""))
      | None => archive_previous rest
      end
  end.

Definition succeeded_condition (generation : Z) : Condition :=
  mkCond ClusterObjectSetTypeSucceeded ConditionTrue ReasonSucceeded "Revision succeeded rolling out." generation.

(** The part of reconcile for a revision the engine reports complete. *)
Definition complete_revision (revVersion : string) (cos : ClusterObjectSet) : IO HS handled :=
  let* r := listPreviousRevisions cos in
  match r with
  | inl err => finish cos emptyResult (Some (errorf_v "listing previous revisions: " err))
  | inr previous =>
      let* err := archive_previous previous in
      match err with
      | Some e => finish cos emptyResult (Some e)
      | None =>
          let cos := markAsProgressing ReasonSucceeded ("Revision " +:+ revVersion +:+ " has rolled out.") cos in
          let cos := (markAsAvailable ClusterObjectSetReasonProbesSucceeded
                        "Objects are available and pass all probes." cos).1 in
          let cos := with_COSConditions
                       (set_cond (cos_Conditions cos) (succeeded_condition (cos_Generation cos))) cos in
          finish cos emptyResult None
      end
  end.

(** The part of reconcile for a revision that is not complete. *)
Definition incomplete_revision (revVersion : string) (rres : RevisionResult) (cos : ClusterObjectSet)
  : ClusterObjectSet :=
  let probeFailureMsgs := omap probe_failure (rres_Phases rres) in
  let cos :=
    match probeFailureMsgs with
    | _ :: _ => markAsUnavailable ClusterObjectSetReasonProbeFailure (strings_Join probeFailureMsgs nl) cos
    | [] => markAsUnavailable ReasonRollingOut (rolling_out_message revVersion) cos
    end in
  match FindStatusCondition (cos_Conditions cos) ClusterObjectSetTypeProgressing with
  | None => markAsProgressing ReasonRollingOut (rolling_out_message revVersion) cos
  | Some _ => cos
  end.

(** What reconcile does with the engine's result. *)
Definition report_result (siblings : option (gset string)) (rres : RevisionResult) (cos : ClusterObjectSet)
  : IO HS handled :=
  match rres_ValidationError rres with
  | Some verr =>
      finish (setRetryingConditions ("revision validation error: " +:+ Error verr) cos) (mkResult (10 * Second)) None
  | None =>
      match phase_problem 0 siblings (rres_Phases rres) with
      | Some msg => finish (setRetryingConditions msg cos) (mkResult (10 * Second)) None
      | None =>
          let revVersion := map_get (m_Annotations (cos_Meta cos)) BundleVersionKey in
          let cos := if rres_InTransition rres
                     then markAsProgressing ReasonRollingOut (rolling_out_message revVersion) cos else cos in
          if rres_IsComplete rres then complete_revision revVersion cos
          else finish (incomplete_revision revVersion rres cos) emptyResult None
      end
  end.

(** The retry every failing step before the rollout ends with. *)
Definition retry (what : string) (err : error) (cos : ClusterObjectSet) : IO HS handled :=
  finish (setRetryingConditions (Error err) cos) emptyResult (Some (errorf_v what err)).

(** Reconcile of an active set once its phases are built. *)
Definition roll_out (siblings : option (gset string)) (revision : BoxRevision) (opts : BoxOpts)
    (cos : ClusterObjectSet) : IO HS handled :=
  let* r := ensureFinalizer clusterObjectSetTeardownFinalizer cos in
  let '(cos, err) := r in
  match err with
  | Some e => finish cos emptyResult (Some (errorf_v "error ensuring teardown finalizer: " e))
  | None =>
      let* err := establishWatch revision in
      match err with
      | Some e =>
          let werr := errorf_v "establish watch: " e in
          finish (setRetryingConditions (Error werr) cos) emptyResult (Some werr)
      | None =>
          let* r := ask (SvReconcile revision opts) (fun h => se_Reconcile E h revision opts) in
          match r with
          | inl err => retry "revision reconcile: " err cos
          | inr rres => report_result siblings rres cos
          end
      end
  end.

(** func (c *ClusterObjectSetReconciler) reconcile(ctx, cos) (ctrl.Result, error) *)
Definition reconcile (cos : ClusterObjectSet) : IO HS handled :=
  if cos_deleting cos then delete_set cos
  else
    let* r := buildBoxcutterPhases cos in
    match r with
    | inl err => retry "converting to boxcutter revision: " err cos
    | inr (phases, opts) =>
        let* r := siblingRevisionNames cos in
        match r with
        | inl err => retry "listing sibling revisions: " err cos
        | inr siblings =>
            let* err := ask SvCreateEngine (fun h => se_CreateEngine E h cos) in
            match err with
            | Some err => retry "failed to create revision engine: " err cos
            | None =>
                let revision := mkBoxRevision (cos_Name cos) (cos_Revision cos) phases in
                if bool_decide (cos_Lifecycle cos = LifecycleStateArchived) then
                  let* err := ask SvFree (fun h => se_Free E h) in
                  match err with
                  | Some e => finish (markAsAvailableUnknown ClusterObjectSetReasonReconciling (Error e) cos).1
                                emptyResult (Some (errorf_v "error stopping informers: " e))
                  | None => archive cos revision
                  end
                else roll_out siblings revision opts cos
            end
        end
    end.

(** The deadline of a revision: what Reconcile does after reconcile. *)
Definition still_progressing (cos : ClusterObjectSet) : bool :=
  match FindStatusCondition (cos_Conditions cos) ClusterObjectSetTypeProgressing with
  | Some cnd => bool_decide (c_Status cnd = ConditionTrue) && negb (bool_decide (c_Reason cnd = ReasonSucceeded))
  | None => false
  end && negb (IsStatusConditionTrue (cos_Conditions cos) ClusterObjectSetTypeSucceeded).

Definition deadline_timeout (pd : Z) : Z := int64 (pd * Minute).

Definition deadline_message (pd : Z) : string := "Revision has not rolled out for " +:+ fmt_d pd +:+ " minute(s).".

Definition apply_deadline (existingRev : ClusterObjectSet) (now : Z) (r : handled) : handled :=
  let '(cos, res, err) := r in
  let pd := os_ProgressDeadlineMinutes (cos_Spec existingRev) in
  if (0 <? pd) && still_progressing cos then
    let timeout := deadline_timeout pd in
    let created := m_CreationTimestamp (cos_Meta existingRev) * Second in
    if timeout <? time_Sub now created then
      ((markAsNotProgressing ReasonProgressDeadlineExceeded (deadline_message pd) cos).1, emptyResult, None)
    else match err with
         | Some _ => r
         | None =>
             let drift := 2 * Second in
             (cos, mkResult (duration_Round (time_Sub (created + timeout + drift) now) Second), None)
         end
  else r.

(** func (c *ClusterObjectSetReconciler) Reconcile(ctx, req) (ctrl.Result, error) *)
Definition Set_Reconcile : IO HS (go (CtrlResult * option error)) :=
  let* g := ask SvGet (fun h => se_Get E h) in
  match g with
  | inl err => io_ret (Ret (emptyResult, IgnoreNotFound err))
  | inr existingRev =>
      let* r := reconcile existingRev in
      fun h =>
      let '(reconciledRev, res, reconcileErr) := apply_deadline existingRev (se_Now E h) r in
      let updateStatus := negb (bool_decide (cos_Conditions existingRev = cos_Conditions reconciledRev)) in
      if checkForUnexpectedClusterObjectSetFieldChange existingRev reconciledRev then
        (Panic "spec or metadata changed by reconciler", h)
      else if updateStatus then
        let err := se_StatusUpdate E h reconciledRev in
        (Ret (res, match err with
                   | Some e => join_err reconcileErr (ENew ("error updating status: " +:+ Error e))
                   | None => reconcileErr
                   end), h ++ [SvStatusUpdate (cos_Conditions reconciledRev)])
      else (Ret (res, reconcileErr), h)
  end.

End Controller.

End ObjectSet.
