(* ===== verification/SetLogic.v ===== *)
(** * The shape of a ClusterObjectSet reconciliation

    The lemmas that say how a run of the controller (ObjectSet.v) can go,
    whatever the engine, the caches and the API server answer. *)

From S2P Require Import Prelude GoErrors ApiTypes Resolve Phase SecretPacker PackProps ExtSteps.
From S2P Require Import RevisionGen Rbac BoxApply BoxLogic ObjectSet.

(** What the controller relies on when it patches the finalizers: the patch
    carries the resource version, so that an accepted one changes nothing but
    the finalizers it sets. *)
Class FinalizerPatch `{LA : LabelsAPI} (E : SetEnv) : Prop :=
  patched : forall h cos fs cos', se_PatchFinalizers E h cos fs = inr cos' -> cos' = cos.

Section Runs.
Context `{CA : ConditionsAPI} `{LA : LabelsAPI} `{UA : UnstructuredAPI} `{CO : Codec}.
Context (selector_text : LabelSelector -> string) (E : SetEnv) `{FP : !FinalizerPatch E}.

(** ** Conditions *)

Lemma set_on_spec cos t st reason msg : cos_Spec (set_on cos t st reason msg).1 = cos_Spec cos.
Proof. unfold set_on. by destruct (meta_SetStatusCondition _ _). Qed.

Lemma set_on_meta cos t st reason msg : cos_Meta (set_on cos t st reason msg).1 = cos_Meta cos.
Proof. unfold set_on. by destruct (meta_SetStatusCondition _ _). Qed.

Lemma set_on_find cos t st reason msg t' :
  FindStatusCondition (cos_Conditions (set_on cos t st reason msg).1) t' =
  if decide (t = t') then Some (mkCond t st reason msg (cos_Generation cos))
  else FindStatusCondition (cos_Conditions cos) t'.
Proof.
  unfold set_on. pose proof (find_set_cond (cos_Conditions cos) (mkCond t st reason msg (cos_Generation cos)) t') as Hf.
  unfold set_cond in Hf. by destruct (meta_SetStatusCondition _ _).
Qed.

(** Marking leaves the spec and the metadata alone, and the conditions of
    the other types. *)
Definition same_but_status (cos cos' : ClusterObjectSet) : Prop :=
  cos_Spec cos' = cos_Spec cos /\ cos_Meta cos' = cos_Meta cos.

Lemma set_on_same cos t st reason msg : same_but_status cos (set_on cos t st reason msg).1.
Proof. split; [apply set_on_spec|apply set_on_meta]. Qed.

Lemma same_trans a b c : same_but_status a b -> same_but_status b c -> same_but_status a c.
Proof. intros [] []. split; congruence. Qed.

Lemma same_refl a : same_but_status a a.
Proof. done. Qed.

Lemma retrying_same msg cos : same_but_status cos (setRetryingConditions msg cos).
Proof.
  unfold setRetryingConditions. destruct (FindStatusCondition _ _); [eapply same_trans|]; apply set_on_same.
Qed.

Lemma retrying_succeeded msg cos :
  FindStatusCondition (cos_Conditions (setRetryingConditions msg cos)) ClusterObjectSetTypeSucceeded =
  FindStatusCondition (cos_Conditions cos) ClusterObjectSetTypeSucceeded.
Proof.
  unfold setRetryingConditions, markAsAvailableUnknown, markAsProgressing.
  destruct (FindStatusCondition _ ClusterObjectSetTypeAvailable); rewrite !set_on_find; by rewrite ?decide_False by done.
Qed.

Lemma archived_same cos : same_but_status cos (markAsArchived cos).1.
Proof.
  unfold markAsArchived, markAsNotProgressing, markAsAvailableUnknown.
  pose proof (set_on_same cos ClusterObjectSetTypeProgressing ConditionFalse ClusterObjectSetReasonArchived
                "revision is archived") as H1.
  destruct (set_on cos _ _ _ _) as [c1 u1]. cbn in H1.
  pose proof (set_on_same c1 ClusterObjectSetTypeAvailable ConditionUnknown ClusterObjectSetReasonArchived
                "revision is archived") as H2.
  destruct (set_on c1 _ _ _ _) as [c2 u2]. by eapply same_trans.
Qed.

Lemma set_on_unchanged cos t st reason msg :
  (set_on cos t st reason msg).2 = false ->
  (set_on cos t st reason msg).1 = cos /\
  FindStatusCondition (cos_Conditions cos) t = Some (mkCond t st reason msg (cos_Generation cos)).
Proof.
  unfold set_on. set (c := mkCond _ _ _ _ _). pose proof (set_changed (cos_Conditions cos) c) as Hc.
  pose proof (set_unchanged (cos_Conditions cos) c) as Hu.
  destruct (meta_SetStatusCondition (cos_Conditions cos) c) as [cs b]. cbn in *. intros ->.
  rewrite Hu by done. split; [by destruct cos|]. by apply Hc.
Qed.

(** The conditions of an archived revision are in place. *)
Definition archived_status (cos : ClusterObjectSet) : Prop :=
  let cond t st := mkCond t st ClusterObjectSetReasonArchived "revision is archived" (cos_Generation cos) in
  FindStatusCondition (cos_Conditions cos) ClusterObjectSetTypeProgressing =
    Some (cond ClusterObjectSetTypeProgressing ConditionFalse) /\
  FindStatusCondition (cos_Conditions cos) ClusterObjectSetTypeAvailable =
    Some (cond ClusterObjectSetTypeAvailable ConditionUnknown).

Lemma archived_unchanged cos :
  (markAsArchived cos).2 = false -> (markAsArchived cos).1 = cos /\ archived_status cos.
Proof.
  unfold markAsArchived, markAsNotProgressing, markAsAvailableUnknown, archived_status.
  pose proof (set_on_unchanged cos ClusterObjectSetTypeProgressing ConditionFalse ClusterObjectSetReasonArchived
                "revision is archived") as H1.
  destruct (set_on cos _ _ _ _) as [c1 u1]. cbn in H1.
  pose proof (set_on_unchanged c1 ClusterObjectSetTypeAvailable ConditionUnknown ClusterObjectSetReasonArchived
                "revision is archived") as H2.
  destruct (set_on c1 _ _ _ _) as [c2 u2]. cbn in *. intros [-> ->]%orb_false_iff.
  destruct (H1 eq_refl) as [-> Hp]. destruct (H2 eq_refl) as [-> Ha]. done.
Qed.

(** ** The shape of a run *)

(** A call that neither archives a revision nor releases the finalizer. *)
Definition safe_call (ev : svent) : Prop :=
  match ev with
  | SvArchive _ | SvStatusUpdate _ => False
  | SvPatchFinalizers fs => clusterObjectSetTeardownFinalizer ∈ fs
  | _ => True
  end.

(** [x] is a revision that [cos] replaces: listed for the same owner, active,
    not being deleted, with a lower number. *)
Definition superseded (cos x : ClusterObjectSet) : Prop :=
  exists owner h items, cos_Labels cos !! OwnerNameKey = Some owner /\ se_ListRevisions E h owner = inr items /\
    x ∈ items /\ cos_Name x <> cos_Name cos /\ cos_Lifecycle x <> LifecycleStateArchived /\
    cos_deleting x = false /\ cos_Revision x < cos_Revision cos.

Lemma is_previous_facts cos x :
  is_previous cos x = true -> cos_Name x <> cos_Name cos /\ cos_Lifecycle x <> LifecycleStateArchived /\
    cos_deleting x = false /\ cos_Revision x < cos_Revision cos.
Proof.
  unfold is_previous. rewrite !andb_true_iff, !negb_true_iff, orb_false_iff, !bool_decide_eq_false, Z.ltb_lt. tauto.
Qed.

(** All the revisions [cos] replaces, as the cache listed them. *)
Definition previous_of (cos : ClusterObjectSet) (previous : list ClusterObjectSet) : Prop :=
  match cos_Labels cos !! OwnerNameKey with
  | None => previous = []
  | Some owner => exists h items, se_ListRevisions E h owner = inr items /\
      previous = filter (fun x => is_previous cos x = true) items
  end.

Lemma previous_superseded cos previous : previous_of cos previous -> Forall (superseded cos) previous.
Proof.
  unfold previous_of. destruct (cos_Labels cos !! OwnerNameKey) as [owner|] eqn:Eo; [|by intros ->].
  intros (h & items & Hl & ->). apply Forall_forall. intros x [Hp Hx]%list_elem_of_filter.
  apply is_previous_facts in Hp. by exists owner, h, items.
Qed.

Lemma previous_shape cos h :
  wp h (listPreviousRevisions E cos) (fun r t =>
    Forall safe_call t /\ match r with inr previous => previous_of cos previous | inl _ => True end).
Proof.
  unfold listPreviousRevisions, previous_of.
  destruct (cos_Labels cos !! OwnerNameKey) as [owner|] eqn:Eo; [|by apply wp_ret].
  apply wp_bind, wp_ask, wp_ret. split; [by repeat constructor|].
  destruct (se_ListRevisions E h owner) as [e|items] eqn:El; [done|]. by exists h, items.
Qed.

(** The names of the revisions of the same extension, when it is known. *)
Definition sibling_names (cos : ClusterObjectSet) (siblings : option (gset string)) : Prop :=
  match cos_Labels cos !! OwnerNameKey with
  | None => siblings = None
  | Some owner => exists h items, se_ListRevisions E h owner = inr items /\
      siblings = Some (list_to_set (map cos_Name items))
  end.

Lemma siblings_shape cos h :
  wp h (siblingRevisionNames E cos) (fun r t =>
    Forall safe_call t /\ match r with inr siblings => sibling_names cos siblings | inl _ => True end).
Proof.
  unfold siblingRevisionNames, sibling_names.
  destruct (cos_Labels cos !! OwnerNameKey) as [owner|]; [|by apply wp_ret].
  apply wp_bind, wp_ask, wp_ret. split; [by repeat constructor|].
  destruct (se_ListRevisions E h owner) as [|items] eqn:El; [done|]. by exists h, items.
Qed.

Lemma object_shape name specObj h : wp h (object_of E name specObj) (fun r t => Forall safe_call t).
Proof.
  unfold object_of. destruct (u_Object _); [by apply wp_ret|]. destruct (decide _); [by apply wp_ret|].
  apply wp_bind, wp_ask, wp_ret. by repeat constructor.
Qed.

Lemma objects_shape cos phase objs h : wp h (build_objects E cos phase objs) (fun r t => Forall safe_call t).
Proof.
  revert h. induction objs as [|o objs IH]; intros h; cbn [build_objects]; [by apply wp_ret|].
  apply wp_bind. eapply wp_weaken; [apply object_shape|]. intros [e|obj] t Ht; [apply wp_ret; by rewrite app_nil_r|].
  apply wp_bind. eapply wp_weaken; [apply IH|]. intros r t' Ht'. apply wp_ret. rewrite app_nil_r. by apply Forall_app.
Qed.

Lemma phases_shape cos phases h : wp h (build_phases E cos phases) (fun r t => Forall safe_call t).
Proof.
  revert h. induction phases as [|p phases IH]; intros h; cbn [build_phases]; [by apply wp_ret|].
  apply wp_bind. eapply wp_weaken; [apply objects_shape|].
  intros [e|[objs opts]] t Ht; [apply wp_ret; by rewrite app_nil_r|].
  apply wp_bind. eapply wp_weaken; [apply IH|]. intros r t' Ht'. apply wp_ret. rewrite app_nil_r. by apply Forall_app.
Qed.

Lemma build_shape cos h : wp h (buildBoxcutterPhases selector_text E cos) (fun r t => Forall safe_call t).
Proof.
  unfold buildBoxcutterPhases. apply wp_bind. eapply wp_weaken; [apply previous_shape|].
  intros [e|previous] t [Ht _]; [apply wp_ret; by rewrite app_nil_r|].
  destruct (buildProgressionProbes _ _); [apply wp_ret; by rewrite app_nil_r|].
  apply wp_bind. eapply wp_weaken; [apply phases_shape|]. intros r t' Ht'. apply wp_ret. rewrite app_nil_r.
  by apply Forall_app.
Qed.

(** The finalizer is released. *)
Definition release_call (cos : ClusterObjectSet) : svent :=
  SvPatchFinalizers (filter (fun f => f <> clusterObjectSetTeardownFinalizer) (m_Finalizers (cos_Meta cos))).

Definition same_spec_status (cos cos' : ClusterObjectSet) : Prop :=
  cos_Spec cos' = cos_Spec cos /\ cos_Conditions cos' = cos_Conditions cos.

Lemma remove_shape cos h :
  wp h (removeFinalizer E clusterObjectSetTeardownFinalizer cos) (fun r t =>
    (t = [] \/ t = [release_call cos]) /\ same_spec_status cos r.1).
Proof.
  unfold removeFinalizer. destruct (bool_decide _); [|apply wp_ret; by split; [left|]].
  unfold patch_finalizers. apply wp_bind, wp_ask, wp_ret. rewrite app_nil_r. split; [by right|].
  destruct (se_PatchFinalizers E _ _ _) as [e|cos'] eqn:Ep; [done|]. by apply FP in Ep as ->.
Qed.

Definition succeeded_in (cos : ClusterObjectSet) : option Condition :=
  FindStatusCondition (cos_Conditions cos) ClusterObjectSetTypeSucceeded.

Definition archive_calls (previous : list ClusterObjectSet) : HS := map (fun x => SvArchive (cos_Name x)) previous.

(** The engine rolled the revision out and reported no problem with it. *)
Definition rolled_out (cos : ClusterObjectSet) (h : HS) (rev : BoxRevision) (opts : BoxOpts) : Prop :=
  exists rres siblings, se_Reconcile E h rev opts = inr rres /\ rres_IsComplete rres = true /\
    rres_ValidationError rres = None /\ sibling_names cos siblings /\
    phase_problem E 0 siblings (rres_Phases rres) = None.

(** How the reconciliation of [cos] can go: without consequence for other
    revisions, with the release of its finalizer, or with the completion of
    its rollout. *)
Inductive reconciled (cos : ClusterObjectSet) (h : HS) : handled -> HS -> Prop :=
| rec_quiet cos' res err t : Forall safe_call t -> cos_Spec cos' = cos_Spec cos ->
    succeeded_in cos' = succeeded_in cos -> reconciled cos h (cos', res, err) t
| rec_deleted cos' err : cos_deleting cos = true -> same_spec_status cos cos' ->
    reconciled cos h (cos', emptyResult, err) [SvFree; release_call cos]
| rec_archived cos' err pre rev td : cos_deleting cos = false -> cos_Lifecycle cos = LifecycleStateArchived ->
    Forall safe_call pre -> se_Teardown E (h ++ pre) rev = inr td -> td <> Some false -> archived_status cos ->
    same_spec_status cos cos' ->
    reconciled cos h (cos', emptyResult, err) (pre ++ [SvTeardown rev; release_call cos])
| rec_promoted cos' err pre rev opts mid previous archived rest :
    cos_deleting cos = false -> cos_Lifecycle cos <> LifecycleStateArchived ->
    Forall safe_call pre -> rolled_out cos (h ++ pre) rev opts -> Forall safe_call mid ->
    previous_of cos previous -> previous = archived ++ rest -> cos_Spec cos' = cos_Spec cos ->
    match err with
    | None => rest = [] /\ succeeded_in cos' = Some (succeeded_condition (cos_Generation cos))
    | Some _ => succeeded_in cos' = succeeded_in cos
    end ->
    reconciled cos h (cos', emptyResult, err) (pre ++ SvReconcile rev opts :: mid ++ archive_calls archived).

Lemma archive_previous_shape previous h :
  wp h (archive_previous E previous) (fun r t => exists archived rest,
    previous = archived ++ rest /\ t = archive_calls archived /\ (r = None -> rest = [])).
Proof.
  revert h. induction previous as [|a previous IH]; intros h; cbn [archive_previous].
  { apply wp_ret. by exists [], []. }
  apply wp_bind, wp_ask. destruct (se_Archive E h (cos_Name a)).
  { apply wp_ret. exists [a], previous. by rewrite app_nil_r. }
  eapply wp_weaken; [apply IH|]. intros r t (archived & rest & -> & -> & Hr). by exists (a :: archived), rest.
Qed.

Lemma retry_shape what err cos0 cos h (t : HS) h0 :
  Forall safe_call t -> cos_Spec cos = cos_Spec cos0 -> succeeded_in cos = succeeded_in cos0 ->
  wp h (retry what err cos) (fun r t' => reconciled cos0 h0 r (t ++ t')).
Proof.
  intros Ht Hs Hsu. apply wp_ret. rewrite app_nil_r. apply rec_quiet; [done| |].
  - rewrite (proj1 (retrying_same _ _)). done.
  - unfold succeeded_in in *. by rewrite retrying_succeeded.
Qed.

Lemma delete_shape cos h : cos_deleting cos = true -> wp h (delete_set E cos) (reconciled cos h).
Proof.
  intros Hd. unfold delete_set. apply wp_bind, wp_ask. destruct (se_Free E h) as [e|].
  { apply wp_ret. apply rec_quiet; [by repeat constructor|apply set_on_spec|].
    unfold succeeded_in, markAsAvailableUnknown. rewrite set_on_find. by rewrite decide_False. }
  apply wp_bind. eapply wp_weaken; [apply remove_shape|]. intros [cos' err] t [Ht Hs]. cbn in Hs. apply wp_ret.
  rewrite app_nil_r. destruct Ht as [->| ->].
  - apply rec_quiet; [by repeat constructor|apply Hs|]. unfold succeeded_in. by rewrite (proj2 Hs).
  - by apply rec_deleted.
Qed.

Lemma archive_shape cos rev pre h :
  cos_deleting cos = false -> cos_Lifecycle cos = LifecycleStateArchived -> Forall safe_call pre ->
  wp (h ++ pre) (archive E cos rev) (fun r t => reconciled cos h r (pre ++ t)).
Proof.
  intros Hd Hl Hpre. unfold archive. apply wp_bind, wp_ask.
  assert (Hsafe : Forall safe_call (pre ++ [SvTeardown rev])) by (apply Forall_app; by repeat constructor).
  assert (Hretry : forall msg res err, reconciled cos h (setRetryingConditions msg cos, res, err)
                                         (pre ++ [SvTeardown rev] ++ [])).
  { intros msg res err. apply rec_quiet; [done|apply retrying_same|apply retrying_succeeded]. }
  assert (Hdone : forall td, se_Teardown E (h ++ pre) rev = inr td -> td <> Some false ->
    wp ((h ++ pre) ++ [SvTeardown rev]) (let '(cos, updated) := markAsArchived cos in
       if updated then finish cos emptyResult None
       else let* r := removeFinalizer E clusterObjectSetTeardownFinalizer cos in
            let '(cos, err) := r in
            finish cos emptyResult (errorf_v "error removing teardown finalizer: " <$> err))
      (fun b t' => reconciled cos h b (pre ++ [SvTeardown rev] ++ t'))).
  { intros td Htd Hn. pose proof (archived_unchanged cos) as Hu. pose proof (archived_same cos) as Hs.
    assert (Hsu : succeeded_in (markAsArchived cos).1 = succeeded_in cos).
    { unfold markAsArchived, markAsNotProgressing, markAsAvailableUnknown, succeeded_in.
      pose proof (set_on_find cos ClusterObjectSetTypeProgressing ConditionFalse ClusterObjectSetReasonArchived
                    "revision is archived" ClusterObjectSetTypeSucceeded) as H1.
      destruct (set_on cos _ _ _ _) as [c1 u1].
      pose proof (set_on_find c1 ClusterObjectSetTypeAvailable ConditionUnknown ClusterObjectSetReasonArchived
                    "revision is archived" ClusterObjectSetTypeSucceeded) as H2.
      destruct (set_on c1 _ _ _ _) as [c2 u2]. cbn in *.
      rewrite decide_False in H1 by done. rewrite decide_False in H2 by done. congruence. }
    destruct (markAsArchived cos) as [cos1 updated]. cbn in *. destruct updated.
    - apply wp_ret. by apply rec_quiet; [|apply Hs|].
    - destruct (Hu eq_refl) as [-> Hst]. apply wp_bind. eapply wp_weaken; [apply remove_shape|].
      intros [cos' err] t [Ht Hss]. cbn in Hss. apply wp_ret. rewrite app_nil_r. destruct Ht as [->| ->].
      + apply rec_quiet; [done|apply Hss|]. unfold succeeded_in. by rewrite (proj2 Hss).
      + by eapply (rec_archived cos h cos'). }
  destruct (se_Teardown E (h ++ pre) rev) as [e|[[]|]] eqn:Et; [by apply wp_ret|by eapply Hdone| |by eapply Hdone].
  by apply wp_ret.
Qed.

(** Marks of another type keep the Succeeded condition. *)
Lemma set_on_succeeded cos t st reason msg :
  t <> ClusterObjectSetTypeSucceeded -> succeeded_in (set_on cos t st reason msg).1 = succeeded_in cos.
Proof. intros Ht. unfold succeeded_in. rewrite set_on_find. by rewrite decide_False. Qed.

Lemma previous_same cos cos1 previous :
  cos_Labels cos1 = cos_Labels cos -> cos_Name cos1 = cos_Name cos -> cos_Spec cos1 = cos_Spec cos ->
  previous_of cos1 previous -> previous_of cos previous.
Proof.
  unfold previous_of, is_previous, cos_Revision. intros -> -> -> Hs. exact Hs.
Qed.

(** The object a rollout works on: only its status and finalizers differ. *)
Definition in_progress (cos cos1 : ClusterObjectSet) : Prop :=
  cos_Spec cos1 = cos_Spec cos /\ cos_Labels cos1 = cos_Labels cos /\ cos_Name cos1 = cos_Name cos /\
  cos_Generation cos1 = cos_Generation cos /\ succeeded_in cos1 = succeeded_in cos.

Lemma ensure_finalizer_shape cos h :
  wp h (ensureFinalizer E clusterObjectSetTeardownFinalizer cos) (fun r t =>
    Forall safe_call t /\ in_progress cos r.1).
Proof.
  unfold ensureFinalizer. destruct (bool_decide _); [by apply wp_ret|].
  unfold patch_finalizers. apply wp_bind, wp_ask, wp_ret. rewrite app_nil_r.
  split; [repeat constructor; cbn; set_solver|].
  destruct (se_PatchFinalizers E _ _ _) as [e|cos'] eqn:Ep; [done|]. by apply FP in Ep as ->.
Qed.

Lemma in_progress_marked cos cos1 reason msg :
  in_progress cos cos1 -> in_progress cos (markAsProgressing reason msg cos1).
Proof.
  intros (H1 & H2 & H3 & H4 & H5). unfold markAsProgressing. repeat split.
  - by rewrite set_on_spec.
  - unfold cos_Labels in *. by rewrite set_on_meta.
  - unfold cos_Name in *. by rewrite set_on_meta.
  - unfold cos_Generation in *. by rewrite set_on_meta.
  - by rewrite set_on_succeeded.
Qed.

Lemma complete_shape cos cos1 pre rev opts revVersion h :
  cos_deleting cos = false -> cos_Lifecycle cos <> LifecycleStateArchived -> Forall safe_call pre ->
  rolled_out cos (h ++ pre) rev opts -> in_progress cos cos1 ->
  wp ((h ++ pre) ++ [SvReconcile rev opts]) (complete_revision E revVersion cos1)
    (fun r t => reconciled cos h r (pre ++ SvReconcile rev opts :: t)).
Proof.
  intros Hd Hl Hpre Hro (Hs & Hlab & Hname & Hgen & Hsu). unfold complete_revision.
  assert (Hsafe : forall t, Forall safe_call t -> Forall safe_call (pre ++ SvReconcile rev opts :: t)).
  { intros t Ht. apply Forall_app. split; [done|]. by constructor. }
  apply wp_bind. eapply wp_weaken; [apply previous_shape|]. intros [e|previous] mid [Hmid Hprev].
  { apply wp_ret. rewrite app_nil_r. apply rec_quiet; auto. }
  apply wp_bind. eapply wp_weaken; [apply archive_previous_shape|].
  intros err t (archived & rest & -> & -> & Hr).
  apply (previous_same cos) in Hprev; [|done..].
  destruct err as [e|]; apply wp_ret; rewrite app_nil_r.
  - by eapply (rec_promoted cos h cos1 (Some e)).
  - eapply (rec_promoted cos h _ None pre rev opts mid (archived ++ rest)); try done.
    + cbn. unfold markAsAvailable, markAsProgressing. by rewrite !set_on_spec.
    + split; [by apply Hr|]. unfold succeeded_in. cbn. rewrite find_set_cond.
      rewrite decide_True by done. do 2 f_equal. unfold markAsAvailable, markAsProgressing, cos_Generation in *.
      by rewrite !set_on_meta.
Qed.

Lemma incomplete_same revVersion rres cos1 :
  cos_Spec (incomplete_revision revVersion rres cos1) = cos_Spec cos1 /\
  succeeded_in (incomplete_revision revVersion rres cos1) = succeeded_in cos1.
Proof.
  unfold incomplete_revision, markAsUnavailable, markAsProgressing.
  destruct (omap probe_failure _); destruct (FindStatusCondition _ _);
    rewrite ?set_on_spec; (split; [done|]); rewrite ?set_on_succeeded; done.
Qed.

Lemma report_shape siblings rres cos cos1 pre rev opts h :
  cos_deleting cos = false -> cos_Lifecycle cos <> LifecycleStateArchived -> Forall safe_call pre ->
  se_Reconcile E (h ++ pre) rev opts = inr rres -> sibling_names cos siblings -> in_progress cos cos1 ->
  wp ((h ++ pre) ++ [SvReconcile rev opts]) (report_result E siblings rres cos1)
    (fun r t => reconciled cos h r (pre ++ SvReconcile rev opts :: t)).
Proof.
  intros Hd Hl Hpre Hrec Hsib Hip. pose proof Hip as (Hs & Hlab & Hname & Hgen & Hsu).
  assert (Hsafe : Forall safe_call (pre ++ [SvReconcile rev opts])).
  { apply Forall_app. split; [done|]. by repeat constructor. }
  assert (Hretry : forall msg res, reconciled cos h (setRetryingConditions msg cos1, res, None)
                                     (pre ++ [SvReconcile rev opts])).
  { intros msg res. apply rec_quiet; [done| |].
    - by rewrite (proj1 (retrying_same msg cos1)).
    - unfold succeeded_in. by rewrite retrying_succeeded. }
  unfold report_result. destruct (rres_ValidationError rres) as [verr|] eqn:Ev; [by apply wp_ret|].
  destruct (phase_problem E 0 siblings (rres_Phases rres)) as [msg|] eqn:Ep; [by apply wp_ret|].
  set (cos2 := if rres_InTransition rres then _ else cos1).
  assert (Hip2 : in_progress cos cos2).
  { subst cos2. destruct (rres_InTransition rres); [by apply in_progress_marked|done]. }
  destruct (rres_IsComplete rres) eqn:Ec.
  - apply complete_shape; try done. by exists rres, siblings.
  - apply wp_ret. destruct Hip2 as (H1 & _ & _ & _ & H5).
    destruct (incomplete_same (map_get (m_Annotations (cos_Meta cos1)) BundleVersionKey) rres cos2) as [H6 H7].
    apply rec_quiet; [done|congruence|congruence].
Qed.

Lemma rollout_shape siblings rev opts cos pre h :
  cos_deleting cos = false -> cos_Lifecycle cos <> LifecycleStateArchived -> Forall safe_call pre ->
  sibling_names cos siblings ->
  wp (h ++ pre) (roll_out E siblings rev opts cos) (fun r t => reconciled cos h r (pre ++ t)).
Proof.
  intros Hd Hl Hpre Hsib. unfold roll_out. apply wp_bind. eapply wp_weaken; [apply ensure_finalizer_shape|].
  intros [cos1 err] fin [Hfin Hip]. cbn in Hip. pose proof Hip as (Hs & _ & _ & _ & Hsu).
  assert (Hsafe : Forall safe_call (pre ++ fin)) by by apply Forall_app.
  destruct err as [e|]; [apply wp_ret; rewrite app_nil_r; by apply rec_quiet|].
  set (gvks := remove_dups (concat (map (fun p => map u_GVK (bp_Objects p)) (br_Phases rev)))).
  assert (Hsafe' : Forall safe_call (pre ++ fin ++ [SvWatch gvks])).
  { rewrite app_assoc. apply Forall_app. split; [done|]. by repeat constructor. }
  apply wp_bind. unfold establishWatch. apply wp_ask. fold gvks.
  destruct (se_Watch E _ gvks) as [e|].
  { apply wp_ret. apply rec_quiet; [done| |].
    - by rewrite (proj1 (retrying_same _ cos1)).
    - unfold succeeded_in. by rewrite retrying_succeeded. }
  apply wp_bind, wp_ask. rewrite <- !app_assoc.
  destruct (se_Reconcile E (h ++ pre ++ fin ++ [SvWatch gvks]) rev opts) as [e|rres] eqn:Er.
  - apply wp_ret. apply rec_quiet.
    + rewrite app_nil_r, (app_assoc fin), (app_assoc pre). apply Forall_app. split; [done|]. by repeat constructor.
    + by rewrite (proj1 (retrying_same _ cos1)).
    + unfold succeeded_in. by rewrite retrying_succeeded.
  - pose proof (report_shape siblings rres cos cos1 (pre ++ fin ++ [SvWatch gvks]) rev opts h Hd Hl Hsafe' Er Hsib Hip)
      as Hw. rewrite <- !app_assoc in Hw. eapply wp_weaken; [exact Hw|]. intros r t Ht. cbn beta in Ht.
    rewrite <- !app_assoc in Ht. exact Ht.
Qed.

Lemma reconcile_shape cos h : wp h (reconcile selector_text E cos) (reconciled cos h).
Proof.
  unfold reconcile. destruct (cos_deleting cos) eqn:Hd; [by apply delete_shape|].
  apply wp_bind. eapply wp_weaken; [apply build_shape|]. intros [e|[phases opts]] t1 H1; [by apply retry_shape|].
  apply wp_bind. eapply wp_weaken; [apply siblings_shape|]. intros [e|siblings] t2 [H2 Hsib].
  { eapply wp_weaken; [by apply (retry_shape _ _ cos cos _ (t1 ++ t2) h); [apply Forall_app|..]|].
    intros r t Ht. cbn beta in Ht. by rewrite <- app_assoc in Ht. }
  apply wp_bind, wp_ask.
  assert (Hpre : Forall safe_call (t1 ++ t2 ++ [SvCreateEngine])).
  { repeat (apply Forall_app; split; [done|]). by repeat constructor. }
  destruct (se_CreateEngine E _ cos) as [e|].
  { eapply wp_weaken; [by apply (retry_shape _ _ cos cos _ (t1 ++ t2 ++ [SvCreateEngine]) h)|].
    intros r t Ht. cbn beta in Ht. by rewrite <- !app_assoc in Ht. }
  case_bool_decide as Hl.
  - apply wp_bind, wp_ask. set (rev := mkBoxRevision _ _ _).
    assert (Hpre' : Forall safe_call ((t1 ++ t2 ++ [SvCreateEngine]) ++ [SvFree])).
    { apply Forall_app. split; [done|]. by repeat constructor. }
    destruct (se_Free E _) as [e|].
    + apply wp_ret. apply rec_quiet.
      * rewrite app_nil_r. by rewrite <- !app_assoc in Hpre'.
      * apply set_on_spec.
      * by apply set_on_succeeded.
    + pose proof (archive_shape cos rev ((t1 ++ t2 ++ [SvCreateEngine]) ++ [SvFree]) h Hd Hl Hpre') as Hw.
      rewrite <- !app_assoc in Hw. rewrite <- !app_assoc. eapply wp_weaken; [exact Hw|]. intros r t Ht.
    cbn beta in Ht. rewrite <- !app_assoc in Ht. exact Ht.
  - set (rev := mkBoxRevision _ _ _).
    pose proof (rollout_shape siblings rev opts cos (t1 ++ t2 ++ [SvCreateEngine]) h Hd Hl Hpre Hsib) as Hw.
    rewrite <- !app_assoc. eapply wp_weaken; [exact Hw|]. intros r t Ht.
    cbn beta in Ht. rewrite <- !app_assoc in Ht. exact Ht.
Qed.

End Runs.
