(* ===== verification/SetProps.v ===== *)
(** * Correctness of the ClusterObjectSet controller

    What holds of every reconciliation (ObjectSet.v), whatever the engine, the
    caches and the API server answer: which revisions are archived and when a
    revision counts as rolled out, when the finalizer is released, the progress
    deadline, collisions; and that the controller hands the engine the very
    manifests the applier (BoxApply.v) stored. *)

From S2P Require Import Prelude GoErrors ApiTypes Resolve Phase ObjectInstances SecretPacker PackProps ExtSteps.
From S2P Require Import RevisionGen Rbac BoxApply BoxLogic ObjectSet SetLogic Instances.

(** ** The API's own rules *)

(** The lifecycle of a set as the API server enforces it: along any
    sequence of admitted updates the revision number and the collision
    protection never change, the phases never change once there are any, and
    an archived set stays archived. *)
Theorem spec_immutable s u :
  spec_reach s u ->
  os_Revision u = os_Revision s /\ os_CollisionProtection u = os_CollisionProtection s /\
  (os_Phases s <> [] -> os_Phases u = os_Phases s) /\
  (os_LifecycleState s = LifecycleStateArchived -> os_LifecycleState u = LifecycleStateArchived).
Proof.
  induction 1 as [|t u _ IH Hup]; [done|]. destruct IH as (H1 & H2 & H3 & H4).
  apply update_facts in Hup as (U1 & U2 & U3 & U4). repeat split; [congruence|congruence| |].
  - intros Hn. rewrite U3, H3; [done..|]. by rewrite H3.
  - intros Ha. by apply U4, H4.
Qed.

Section Runs.
Context `{CA : ConditionsAPI} `{LA : LabelsAPI} `{UA : UnstructuredAPI} `{CO : Codec}.
Context (selector_text : LabelSelector -> string) (E : SetEnv) `{FP : !FinalizerPatch E}.

Lemma reconcile_run cos h r h' :
  reconcile selector_text E cos h = (r, h') -> exists t, h' = h ++ t /\ reconciled E cos h r t.
Proof. intros Hrun. exact (wp_run _ _ _ _ _ (reconcile_shape selector_text E cos h) Hrun). Qed.

Lemma reconciled_spec cos h r t : reconciled E cos h r t -> cos_Spec r.1.1 = cos_Spec cos.
Proof. destruct 1 as [| ? ? ? Hs|? ? ? ? ? ? ? ? ? ? ? Hs|]; cbn; [done|apply Hs|apply Hs|done]. Qed.

Lemma deadline_spec existing now r : cos_Spec (apply_deadline existing now r).1.1 = cos_Spec r.1.1.
Proof.
  destruct r as [[cos res] err]. unfold apply_deadline. destruct (_ && _); [|done].
  destruct (_ <? _); [apply set_on_spec|]. by destruct err.
Qed.

(** The controller never panics: whatever happens, its check that
    nothing but status and finalizers was changed passes. *)
Theorem Set_Reconcile_never_panics h :
  exists r, (Set_Reconcile selector_text E h).1 = Ret r.
Proof.
  unfold Set_Reconcile. rewrite io_bind_run. cbn [ask fst snd]. destruct (se_Get E h) as [err|existing]; [by eexists|].
  rewrite io_bind_run. destruct (reconcile selector_text E existing (h ++ [SvGet])) as [r h'] eqn:Er.
  apply reconcile_run in Er as (t & -> & Hr). cbn [fst snd].
  pose proof (deadline_spec existing (se_Now E ((h ++ [SvGet]) ++ t)) r) as Hs.
  rewrite (reconciled_spec _ _ _ _ Hr) in Hs.
  destruct (apply_deadline existing _ r) as [[rec res] err]. cbn in Hs.
  unfold checkForUnexpectedClusterObjectSetFieldChange. rewrite bool_decide_true by done. cbn.
  destruct (bool_decide _); by eexists.
Qed.

Lemma safe_not_archive t name : Forall safe_call t -> SvArchive name ∉ t.
Proof. intros Hf Hin. rewrite Forall_forall in Hf. by apply Hf in Hin. Qed.

(** C6. Only superseded revisions are archived, and only when their
    replacement works: a reconciliation archives a revision only if it is a
    lower numbered, active revision of the same extension, and only after the
    engine reported the reconciled revision complete, without validation error
    and without collision. *)
Theorem archives_only_superseded cos r h t name :
  reconcile selector_text E cos h = (r, h ++ t) -> SvArchive name ∈ t ->
  cos_deleting cos = false /\ cos_Lifecycle cos <> LifecycleStateArchived /\
  (exists x, superseded E cos x /\ cos_Name x = name) /\
  exists t1 rev opts t2, t = t1 ++ SvReconcile rev opts :: t2 /\ SvArchive name ∉ t1 /\
    rolled_out E cos (h ++ t1) rev opts.
Proof.
  intros Hrun Hin. apply reconcile_run in Hrun as (t' & ->%app_inv_head & Hr).
  destruct Hr as [cos' res err t' Ht _ _|cos' err _ _|cos' err pre rev td _ _ Hpre|
                  cos' err pre rev opts mid previous archived rest Hd Hl Hpre Hro Hmid Hprev -> _ _].
  - by apply (safe_not_archive _ name) in Ht.
  - set_solver.
  - apply (safe_not_archive _ name) in Hpre. set_solver.
  - split; [done|]. split; [done|]. split.
    + apply previous_superseded in Hprev. apply Forall_app in Hprev as [Hprev _]. rewrite Forall_forall in Hprev.
      apply (safe_not_archive _ name) in Hpre, Hmid.
      rewrite elem_of_app, elem_of_cons, elem_of_app in Hin. destruct Hin as [|[|[|Hin]]]; try done.
      apply list_elem_of_fmap in Hin as (x & [= ->] & Hx). exists x. split; [by apply Hprev|done].
    + exists pre, rev, opts. eexists. split; [done|]. split; [by apply safe_not_archive|done].
Qed.

(** C7. Succeeded means rolled out: when a reconciliation sets the Succeeded
    condition, the engine reported the revision complete without problems in
    that very run, every active revision it replaces was archived after that,
    and no error is returned. *)
Theorem succeeded_means_rolled_out cos cos' res err h t :
  reconcile selector_text E cos h = ((cos', res, err), h ++ t) ->
  IsStatusConditionTrue (cos_Conditions cos) ClusterObjectSetTypeSucceeded = false ->
  IsStatusConditionTrue (cos_Conditions cos') ClusterObjectSetTypeSucceeded = true ->
  err = None /\ exists t1 rev opts t2 previous, t = t1 ++ SvReconcile rev opts :: t2 /\
    rolled_out E cos (h ++ t1) rev opts /\ previous_of E cos previous /\
    forall x, x ∈ previous -> SvArchive (cos_Name x) ∈ t2.
Proof.
  intros Hrun Hno Hyes. apply reconcile_run in Hrun as (t' & ->%app_inv_head & Hr).
  assert (Hdiff : succeeded_in cos' <> succeeded_in cos).
  { unfold succeeded_in, IsStatusConditionTrue in *. intros He. rewrite He in Hyes. congruence. }
  inversion Hr as [? ? ? ? _ _ Hs|? ? _ Hs|? ? ? ? ? _ _ _ _ _ _ Hs|
                  ? ? pre rev opts mid previous archived rest Hd Hl Hpre Hro Hmid Hprev Happ _ Herr]; subst.
  - done.
  - destruct Hdiff. unfold succeeded_in. by rewrite (proj2 Hs).
  - destruct Hdiff. unfold succeeded_in. by rewrite (proj2 Hs).
  - destruct err as [e|]; [done|]. split; [done|]. destruct Herr as [-> _]. rewrite app_nil_r in Hprev.
    exists pre, rev, opts. do 2 eexists. split; [done|]. split; [done|]. split; [exact Hprev|].
    intros x Hx. apply elem_of_app. right. apply list_elem_of_fmap. by exists x.
Qed.

(** C24. The teardown finalizer is released only when nothing is left behind:
    either the set is being deleted (after its informers were stopped), or it
    is archived, its objects were torn down completely in that run, and its
    status already said so when the run started. *)
Theorem finalizer_released_last cos r h t fs :
  reconcile selector_text E cos h = (r, h ++ t) -> SvPatchFinalizers fs ∈ t ->
  clusterObjectSetTeardownFinalizer ∉ fs ->
  (cos_deleting cos = true /\ t = [SvFree; SvPatchFinalizers fs]) \/
  (cos_Lifecycle cos = LifecycleStateArchived /\ archived_status cos /\
   exists pre rev td, t = pre ++ [SvTeardown rev; SvPatchFinalizers fs] /\
     se_Teardown E (h ++ pre) rev = inr td /\ td <> Some false).
Proof.
  intros Hrun Hin Hn. apply reconcile_run in Hrun as (t' & ->%app_inv_head & Hr).
  assert (Hsafe : forall l, Forall safe_call l -> SvPatchFinalizers fs ∉ l).
  { intros l Hl Hi. rewrite Forall_forall in Hl. by apply Hl in Hi. }
  destruct Hr as [cos' res err t' Ht _ _|cos' err Hd _|cos' err pre rev td Hd Hl Hpre Htd Hc Hs _|
                  cos' err pre rev opts mid previous archived rest Hd Hl Hpre Hro Hmid Hprev _ _ _].
  - by apply Hsafe in Ht.
  - left. split; [done|]. rewrite !elem_of_cons in Hin. destruct Hin as [|[->|Hin]]; [done|done|].
    by apply not_elem_of_nil in Hin.
  - right. split; [done|]. split; [done|]. exists pre, rev, td. apply Hsafe in Hpre.
    rewrite elem_of_app, !elem_of_cons in Hin. destruct Hin as [|[|[->|Hin]]]; [done|done|done|].
    by apply not_elem_of_nil in Hin.
  - apply Hsafe in Hpre, Hmid. rewrite elem_of_app, elem_of_cons, elem_of_app in Hin.
    destruct Hin as [|[|[|Hin]]]; try done. by apply list_elem_of_fmap in Hin as (? & ? & _).
Qed.

(** ** The progress deadline *)

Lemma round_second d : 0 <= d < 2 ^ 62 -> 2 * Z.abs (duration_Round d Second - d) <= Second.
Proof.
  intros Hd. unfold duration_Round, Second. cbn [Z.leb]. destruct (Z.ltb_spec d 0); [lia|].
  pose proof (Z.rem_bound_pos d 1000000000 ltac:(lia) ltac:(lia)) as Hr.
  change (1000000000 <=? 0) with false. cbn iota.
  destruct (Z.ltb_spec (Z.rem d 1000000000 + Z.rem d 1000000000) 1000000000); [lia|].
  assert (Hi : int64 (d + 1000000000 - Z.rem d 1000000000) = d + 1000000000 - Z.rem d 1000000000).
  { unfold int64, wrap. change (64 - 1) with 63. rewrite Z.mod_small; lia. }
  rewrite Hi. destruct (Z.ltb_spec d (d + 1000000000 - Z.rem d 1000000000)); lia.
Qed.

Lemma timeout_exact pd : 0 < pd <= 720 -> deadline_timeout pd = pd * Minute.
Proof.
  intros Hp. unfold deadline_timeout, int64, wrap, Minute, Second. change (64 - 1) with 63.
  rewrite Z.mod_small; lia.
Qed.

(** C25. The progress deadline is enforced: while a revision is progressing and
    has not succeeded, a reconciliation after the deadline reports
    ProgressDeadlineExceeded, drops the error and the requeue, and later
    updates of the set no longer trigger the controller (unless it is being
    deleted); before the deadline it changes nothing but the requeue, which is
    set between one and three seconds after the deadline when there is no
    error.  (For the deadlines the API admits and clocks less than a century
    apart.) *)
Theorem deadline_enforced existing cos res err now :
  let pd := os_ProgressDeadlineMinutes (cos_Spec existing) in
  let created := m_CreationTimestamp (cos_Meta existing) * Second in
  let deadline := created + pd * Minute in
  0 < pd <= 720 -> created - now <= 2 ^ 61 -> still_progressing cos = true ->
  let '(cos', res', err') := apply_deadline existing now (cos, res, err) in
  if deadline <? now then
    res' = emptyResult /\ err' = None /\
    FindStatusCondition (cos_Conditions cos') ClusterObjectSetTypeProgressing =
      Some (mkCond ClusterObjectSetTypeProgressing ConditionFalse ReasonProgressDeadlineExceeded
              (deadline_message pd) (cos_Generation cos)) /\
    (cos_deleting cos = false -> skipProgressDeadlineExceededPredicate cos' = false)
  else
    cos' = cos /\ err' = err /\
    match err with
    | Some _ => res' = res
    | None => deadline + Second <= now + RequeueAfter res' <= deadline + 3 * Second
    end.
Proof.
  intros pd created deadline Hpd Hskew Hsp. unfold apply_deadline. fold pd. fold created.
  rewrite Hsp, (proj2 (Z.ltb_lt 0 pd)) by lia. cbn [andb]. rewrite timeout_exact by done.
  assert (Hlate : (pd * Minute <? time_Sub now created) = (deadline <? now)).
  { unfold time_Sub, maxDuration, minDuration, deadline, Minute, Second in *.
    destruct (Z.ltb_spec (created + pd * (60 * 1000000000)) now); [apply Z.ltb_lt|apply Z.ltb_ge]; lia. }
  rewrite Hlate. destruct (Z.ltb_spec deadline now) as [Hl|Hl].
  - unfold markAsNotProgressing. split; [done|]. split; [done|]. rewrite set_on_find, decide_True by done.
    split; [done|]. intros Hd. unfold skipProgressDeadlineExceededPredicate.
    unfold cos_deleting in *. rewrite set_on_meta. destruct (m_DeletionTimestamp (cos_Meta cos)); [done|].
    rewrite set_on_find, decide_True by done. done.
  - destruct err as [e|]; [done|]. split; [done|]. split; [done|]. cbn [RequeueAfter].
    set (d := time_Sub (created + pd * Minute + 2 * Second) now).
    assert (Hd : d = deadline + 2 * Second - now).
    { unfold d, time_Sub, maxDuration, minDuration, deadline, Minute, Second in *. lia. }
    assert (Hb : 0 <= d < 2 ^ 62) by (rewrite Hd; unfold deadline, Minute, Second in *; lia).
    pose proof (round_second d Hb) as Hr. unfold Second in *. lia.
Qed.

(** ** Collisions *)

Lemma phase_problem_collision i siblings phases pres o :
  pres ∈ phases -> o ∈ pres_Objects pres -> colliding E siblings o <> [] ->
  exists msg, phase_problem E i siblings phases = Some msg.
Proof.
  intros Hp Ho Hc. revert i. induction phases as [|x phases IH]; intros i; [by apply not_elem_of_nil in Hp|].
  cbn [phase_problem]. destruct (pres_ValidationError x); [by eexists|].
  destruct (concat (map (colliding E siblings) (pres_Objects x))) eqn:Ec; [|by eexists].
  apply elem_of_cons in Hp as [->|Hp]; [|by apply IH]. exfalso.
  destruct (colliding E siblings o) as [|s l] eqn:Eo; [done|].
  assert (Hin : s ∈ concat (map (colliding E siblings) (pres_Objects x))).
  { apply list_elem_of_In, in_concat. exists (colliding E siblings o). split.
    - by apply in_map, list_elem_of_In.
    - rewrite Eo. by left. }
  rewrite Ec in Hin. by apply not_elem_of_nil in Hin.
Qed.

(** An object the engine reports as taken: it collides, or it has moved on
    under the control of a revision of another extension. *)
Definition taken (siblings : option (gset string)) (o : ObjectResult) : Prop :=
  ores_Action o = ActionCollision \/
  exists names ref, ores_Action o = ActionProgressed /\ siblings = Some names /\
    ref ∈ u_OwnerReferences (ores_Object o) /\ or_Controller ref = Some true /\
    or_Kind ref = ClusterObjectSetKind /\ or_APIVersion ref = GroupVersion_String /\ or_Name ref ∉ names.

Lemma taken_colliding siblings o : taken siblings o -> colliding E siblings o <> [].
Proof.
  unfold colliding. intros [->|(names & ref & -> & -> & Hin & H1 & H2 & H3 & H4)]; [done|].
  unfold foreignRevisionController.
  assert (Hf : ref ∈ filter (fun r => foreign_ref names r = true) (u_OwnerReferences (ores_Object o))).
  { apply list_elem_of_filter. split; [|done]. unfold foreign_ref.
    rewrite !bool_decide_true by done. rewrite bool_decide_false by done. done. }
  destruct (filter _ _); [by apply not_elem_of_nil in Hf|done].
Qed.

(** Objects of others stop a rollout: when the engine reports an object
    that collides, or one controlled by a revision of another extension, the
    set is reported as retrying, it is reconciled again after ten seconds, and
    nothing else happens: no revision is archived and it does not succeed. *)
Theorem collision_stops_rollout siblings rres cos pres o h :
  pres ∈ rres_Phases rres -> o ∈ pres_Objects pres -> taken siblings o ->
  exists msg, report_result E siblings rres cos h =
    ((setRetryingConditions msg cos, mkResult (10 * Second), None), h) /\
    succeeded_in (setRetryingConditions msg cos) = succeeded_in cos.
Proof.
  intros Hp Ho Ht. apply taken_colliding in Ht.
  destruct (phase_problem_collision 0 siblings (rres_Phases rres) pres o Hp Ho Ht) as [msg Hm].
  unfold report_result, finish, io_ret. rewrite Hm.
  destruct (rres_ValidationError rres); eexists; (split; [done|]); apply retrying_succeeded.
Qed.

(** ** From the applier to the engine *)

(** What the API server stores of an applied configuration: the fields that
    are not set have their zero value. *)
Definition stored_object (o : ObjectAC) : ClusterObjectSetObject :=
  mkCOSObject (default (mkUnstr None) (oa_Object o)) (default (mkSourceRef "" "" "") (oa_Ref o))
    (default EmptyString (oa_CollisionProtection o)).

Definition stored_phases (ps : list PhaseAC) : list ClusterObjectSetPhase :=
  map (fun p => mkCOSPhase (default EmptyString (pa_Name p)) (map stored_object (pa_Objects p)) EmptyString) ps.

(** The manifest as the engine gets it. *)
Definition manifest_for (cos : ClusterObjectSet) (o : ObjectAC) : Unstructured := label_object cos (ac_object o).

(** The reference recorded for a position leads back to the object. *)
Definition backed (pack : PackResult) (i j : nat) (o : ObjectAC) : Prop :=
  exists ref, Refs pack !! (i, j) = Some ref /\ osr_Name ref <> EmptyString /\
    forall h, resolveObjectRef (fun _ _ => se_GetSecret E h (osr_Namespace ref) (osr_Name ref)) ref = inr (ac_object o).

Lemma object_backed pack i j o name h :
  backed pack i j o ->
  exists h', object_of E name (stored_object (replace_object (Refs pack) i j o)) h = (inr (ac_object o), h').
Proof.
  intros (ref & Hr & Hn & Hres). unfold replace_object. rewrite Hr. unfold object_of. cbn.
  rewrite decide_False by done. rewrite io_bind_run. cbn. rewrite Hres. by eexists.
Qed.

Lemma objects_backed pack i cos phase objs k h :
  (forall j o, objs !! j = Some o -> backed pack i (k + j) o) ->
  exists opts h', build_objects E cos phase
    (map stored_object (imap (fun n => replace_object (Refs pack) i (k + n)) objs)) h =
    (inr (map (manifest_for cos) objs, opts), h').
Proof.
  revert k h. induction objs as [|o objs IH]; intros k h Hb; [by eexists _, _|].
  cbn [imap map build_objects]. rewrite io_bind_run.
  destruct (object_backed pack i (k + 0) o (ph_Name phase) h) as [h1 ->]; [by apply (Hb 0%nat)|]. cbn [fst snd].
  rewrite io_bind_run.
  assert (He : imap ((fun n => replace_object (Refs pack) i (k + n)) ∘ S) objs =
               imap (fun n => replace_object (Refs pack) i (S k + n)) objs).
  { apply imap_ext. intros n x _. cbn. f_equal. lia. }
  rewrite He. destruct (IH (S k) h1) as (opts & h2 & ->).
  - intros j x Hx. replace (S k + j)%nat with (k + S j)%nat by lia. by apply Hb.
  - by eexists _, _.
Qed.

Lemma phases_backed pack cos ps k h :
  (forall i j p o, ps !! i = Some p -> pa_Objects p !! j = Some o -> backed pack (k + i) j o) ->
  exists opts h', build_phases E cos (stored_phases
    (imap (fun n p => mkPhaseAC (pa_Name p) (imap (replace_object (Refs pack) (k + n)) (pa_Objects p))) ps)) h =
    (inr (map (fun p => mkBoxPhase (default EmptyString (pa_Name p)) (map (manifest_for cos) (pa_Objects p))) ps,
          opts), h').
Proof.
  revert k h. induction ps as [|p ps IH]; intros k h Hb; [by eexists _, _|].
  cbn [imap]. unfold stored_phases. cbn [map build_phases ph_Objects pa_Objects pa_Name]. rewrite io_bind_run.
  destruct (objects_backed pack (k + 0) cos
              (mkCOSPhase (default EmptyString (pa_Name p))
                 (map stored_object (imap (replace_object (Refs pack) (k + 0)) (pa_Objects p))) EmptyString)
              (pa_Objects p) 0 h) as (opts & h1 & Ho).
  { intros j o Hj. by apply (Hb 0%nat j p o). }
  change (fun n => replace_object (Refs pack) (k + 0) (0 + n)) with (replace_object (Refs pack) (k + 0)) in Ho.
  rewrite Ho. cbn [fst snd]. rewrite io_bind_run.
  assert (He : imap ((fun n p => mkPhaseAC (pa_Name p) (imap (replace_object (Refs pack) (k + n)) (pa_Objects p))) ∘ S) ps =
               imap (fun n p => mkPhaseAC (pa_Name p) (imap (replace_object (Refs pack) (S k + n)) (pa_Objects p))) ps).
  { apply imap_ext. intros n x _. cbn. f_equal. apply imap_ext. intros m y _. do 2 f_equal. lia. }
  rewrite He. destruct (IH (S k) h1) as (opts' & h2 & Hp).
  - intros i j q o Hq Hj. replace (S k + i)%nat with (k + S i)%nat by lia. by apply (Hb (S i) j q o).
  - unfold stored_phases in Hp. rewrite Hp. by eexists _, _.
Qed.

(** The content of a manifest survives the way through a Secret. *)
Definition readable (o : ObjectAC) : Prop :=
  exists u m, oa_Object o = Some u /\ u_Object u = Some m /\ representable m = true /\
    forall raw, json_Marshal m = inr raw -> slen raw <= maxDecompressedSize.

Lemma secret_name_nonempty p data : secretNameFromData p data <> EmptyString.
Proof. unfold secretNameFromData. by destruct (RevisionName p). Qed.

Lemma pack_backed p ps pack :
  no_collision (map snd (encodings (positions 0 (extractPhasesForPacking ps)))) ->
  Pack p (extractPhasesForPacking ps) = inr pack ->
  (forall h s, s ∈ Secrets pack -> se_GetSecret E h (sec_Namespace s) (sec_Name s) = inr s) ->
  forall i j q o, ps !! i = Some q -> pa_Objects q !! j = Some o -> readable o -> backed pack i j o.
Proof.
  intros Hnc Hp Hget i j q o Hq Ho (u & m & Hu & Hm & Hr & Hsz).
  set (q' := mkCOSPhase (default EmptyString (pa_Name q)) (map extract_object (pa_Objects q)) EmptyString).
  destruct (Pack_stored p _ _ i j q' (extract_object o) m Hnc Hp) as (ref & s & d & Href & Hs & Hn & Hns & Hd & Hdec).
  - unfold extractPhasesForPacking. rewrite list_lookup_fmap, Hq. done.
  - cbn. by rewrite list_lookup_fmap, Ho.
  - cbn. by rewrite Hu.
  - done.
  - done.
  - destruct (Pack_inv p _ _ Hnc Hp) as [Hall _]. destruct (Hall s Hs) as [_ Hsec].
    exists ref. split; [done|]. split.
    + rewrite Hn, Hsec. apply secret_name_nonempty.
    + intros h. unfold resolveObjectRef. rewrite Hn, Hns, Hget by done. rewrite Hd, Hdec. done.
Qed.

Lemma default_probes_build : exists ps, buildProgressionProbes selector_text defaultProgressionProbes = inr ps.
Proof. by eexists. Qed.

(** C3. The controller applies what was generated: from a set whose phases are
    those of an applied configuration with its manifests packed into Secrets,
    and whose Secrets can be read, the controller rebuilds for the engine
    exactly the generated phases, in order, each manifest unchanged but for the
    owner label.  (Barring hash collisions, manifests above 10 MiB and inexact
    JSON numbers.) *)
Theorem controller_rebuilds_revision p rev pack cos owner h :
  no_collision (map snd (encodings (positions 0 (extractPhasesForPacking (ca_Phases rev))))) ->
  Pack p (extractPhasesForPacking (ca_Phases rev)) = inr pack ->
  Forall (fun q => Forall readable (pa_Objects q)) (ca_Phases rev) ->
  os_Phases (cos_Spec cos) = stored_phases (ca_Phases (replaceInlineWithRefs rev pack)) ->
  os_ProgressionProbes (cos_Spec cos) = defaultProgressionProbes ->
  cos_Labels cos !! OwnerNameKey = Some owner ->
  (forall h', exists items, se_ListRevisions E h' owner = inr items) ->
  (forall h' s, s ∈ Secrets pack -> se_GetSecret E h' (sec_Namespace s) (sec_Name s) = inr s) ->
  exists opts h', buildBoxcutterPhases selector_text E cos h =
    (inr (map (fun q => mkBoxPhase (default EmptyString (pa_Name q)) (map (manifest_for cos) (pa_Objects q)))
            (ca_Phases rev), opts), h').
Proof.
  intros Hnc Hp Hread Hph Hpr Hl Hlist Hget. unfold buildBoxcutterPhases, listPreviousRevisions.
  rewrite Hl, Hph, Hpr, !io_bind_run. cbn [ask fst snd]. destruct (Hlist h) as [items ->]. cbn [io_ret fst snd].
  destruct default_probes_build as [ps ->]. rewrite io_bind_run.
  destruct (phases_backed pack cos (ca_Phases rev) 0 (h ++ [SvListRevisions owner])) as (opts & h' & Hb).
  - intros i j q o Hq Ho. apply (pack_backed p (ca_Phases rev) pack Hnc Hp Hget i j q o Hq Ho).
    rewrite Forall_forall in Hread. apply list_elem_of_lookup_2, Hread in Hq. rewrite Forall_forall in Hq.
    by eapply Hq, list_elem_of_lookup_2.
  - unfold replaceInlineWithRefs, set_phases, ca_Phases at 1. cbn [ca_Spec sa_Phases WithSpec].
    cbn [Nat.add] in Hb. rewrite Hb. by eexists _, _.
Qed.

End Runs.

(** ** Witnesses *)

Module SetSamples.

#[local] Existing Instance codec_sample.

Definition no_text (_ : LabelSelector) : string := "selector".

(** Revision [n] of the extension, with a finalizer. *)
Definition revision_with (probes : list ProgressionProbe) (state : string) (phases : list ClusterObjectSetPhase)
    (n : Z) : ClusterObjectSet :=
  mkCOS (mkMeta ("ext-" +:+ fmt_d n) "" ("uid-" +:+ fmt_d n) 1 (<[OwnerNameKey := "ext"]> ∅) ∅
           [clusterObjectSetTeardownFinalizer] [] 0 None)
    (mkCOSSpec state n phases 10 probes CollisionProtectionPrevent) [].

Definition revision_of := revision_with [].

Definition complete_result : RevisionResult := mkRevisionResult None [mkPhaseResult None [] true] true true.

(** Two active revisions; the engine completes everything it is asked. *)
Definition set_env (secrets : list Secret) : SetEnv := {|
  se_Get _ := inr (revision_of LifecycleStateActive [] 2);
  se_ListRevisions _ _ := inr [revision_of LifecycleStateActive [] 1; revision_of LifecycleStateActive [] 2];
  se_GetSecret _ ns n := match secrets with s :: _ => inr s | [] => inl (EApi KNotFound "not found") end;
  se_CreateEngine _ _ := None;
  se_Free _ := None;
  se_Watch _ _ := None;
  se_Reconcile _ _ _ := inr complete_result;
  se_Teardown _ _ := inr (Some true);
  se_PatchFinalizers _ cos _ := inr cos;
  se_Archive _ _ := None;
  se_StatusUpdate _ _ := None;
  se_Now _ := 0;
  se_OwnerRefString _ := "owner";
|}.

#[local] Instance set_env_patch secrets : FinalizerPatch (set_env secrets).
Proof. intros h cos fs cos' [= <-]. done. Qed.

Lemma spec_immutable_witness :
  let s := cos_Spec (revision_of LifecycleStateActive [] 2) in
  let u := with_Lifecycle LifecycleStateArchived s in
  os_Revision u = os_Revision s /\ os_CollisionProtection u = os_CollisionProtection s /\
  (os_Phases s <> [] -> os_Phases u = os_Phases s) /\
  (os_LifecycleState s = LifecycleStateArchived -> os_LifecycleState u = LifecycleStateArchived).
Proof.
  apply spec_immutable. eapply spec_reach_step; [apply spec_reach_refl|]. vm_compute. reflexivity.
Defined.

Lemma Set_Reconcile_never_panics_witness : exists r, (Set_Reconcile no_text (set_env []) []).1 = Ret r.
Proof. apply (Set_Reconcile_never_panics no_text (set_env [])). Defined.

Definition rev2 : ClusterObjectSet := revision_of LifecycleStateActive [] 2.
Definition run2 : handled * HS := reconcile no_text (set_env []) rev2 [].

Lemma run2_eq : reconcile no_text (set_env []) rev2 [] = ((run2.1.1.1, run2.1.1.2, None), [] ++ run2.2).
Proof. vm_compute. reflexivity. Qed.

Lemma run2_archives : SvArchive "ext-1" ∈ run2.2.
Proof. apply (list_elem_of_lookup_2 _ 6). vm_compute. reflexivity. Qed.

Lemma archives_only_superseded_witness :
  cos_deleting rev2 = false /\ cos_Lifecycle rev2 <> LifecycleStateArchived /\
  (exists x, superseded (set_env []) rev2 x /\ cos_Name x = "ext-1") /\
  exists t1 rev opts t2, run2.2 = t1 ++ SvReconcile rev opts :: t2 /\ SvArchive "ext-1" ∉ t1 /\
    rolled_out (set_env []) rev2 ([] ++ t1) rev opts.
Proof.
  apply (archives_only_superseded no_text (set_env []) rev2 (run2.1.1.1, run2.1.1.2, None) [] run2.2 "ext-1").
  - exact run2_eq.
  - exact run2_archives.
Defined.

Lemma succeeded_means_rolled_out_witness :
  (None : option error) = None /\ exists t1 rev opts t2 previous, run2.2 = t1 ++ SvReconcile rev opts :: t2 /\
    rolled_out (set_env []) rev2 ([] ++ t1) rev opts /\ previous_of (set_env []) rev2 previous /\
    forall x, x ∈ previous -> SvArchive (cos_Name x) ∈ t2.
Proof.
  apply (succeeded_means_rolled_out no_text (set_env []) rev2 run2.1.1.1 run2.1.1.2 None [] run2.2).
  - exact run2_eq.
  - reflexivity.
  - vm_compute. reflexivity.
Defined.

(** An archived revision whose status is in place. *)
Definition rev1 : ClusterObjectSet := (markAsArchived (revision_of LifecycleStateArchived [] 1)).1.
Definition run1 : handled * HS := reconcile no_text (set_env []) rev1 [].

Lemma run1_eq : reconcile no_text (set_env []) rev1 [] = (run1.1, [] ++ run1.2).
Proof. vm_compute. reflexivity. Qed.

Lemma run1_releases : SvPatchFinalizers [] ∈ run1.2.
Proof. apply (list_elem_of_lookup_2 _ 5). vm_compute. reflexivity. Qed.

Lemma finalizer_released_last_witness :
  (cos_deleting rev1 = true /\ run1.2 = [SvFree; SvPatchFinalizers []]) \/
  (cos_Lifecycle rev1 = LifecycleStateArchived /\ archived_status rev1 /\
   exists pre rev td, run1.2 = pre ++ [SvTeardown rev; SvPatchFinalizers []] /\
     se_Teardown (set_env []) ([] ++ pre) rev = inr td /\ td <> Some false).
Proof.
  apply (finalizer_released_last no_text (set_env []) rev1 run1.1 [] run1.2 []).
  - exact run1_eq.
  - exact run1_releases.
  - apply not_elem_of_nil.
Defined.

Lemma deadline_enforced_witness :
  let cos := markAsProgressing ReasonRollingOut "rolling out" rev2 in
  let '(cos', res', err') := apply_deadline rev2 0 (cos, emptyResult, None) in
  cos' = cos /\ err' = None /\
  10 * Minute + Second <= 0 + RequeueAfter res' <= 10 * Minute + 3 * Second.
Proof.
  pose proof (deadline_enforced rev2 (markAsProgressing ReasonRollingOut "rolling out" rev2) emptyResult None 0) as Hd.
  apply Hd; [cbn; lia|cbn; lia|reflexivity].
Defined.

Definition taken_object : ObjectResult := mkObjectResult ActionCollision "collision" (mkUnstr None) false [].
Definition taken_result : RevisionResult := mkRevisionResult None [mkPhaseResult None [taken_object] false] true false.

Lemma collision_stops_rollout_witness :
  exists msg, report_result (set_env []) None taken_result rev2 [] =
    ((setRetryingConditions msg rev2, mkResult (10 * Second), None), []) /\
    succeeded_in (setRetryingConditions msg rev2) = succeeded_in rev2.
Proof.
  apply (collision_stops_rollout (set_env []) None taken_result rev2 (mkPhaseResult None [taken_object] false)
           taken_object []).
  - by left.
  - by left.
  - by left.
Defined.

(** A configuration of two manifests, packed. *)
Definition rev_ac : COSAC :=
  buildClusterObjectSet [sample_deploy; sample_sa] (sample_ext (sample_filter EmptyString [])) ∅.
Definition rev_pack : PackResult :=
  match Pack sample_packer (extractPhasesForPacking (ca_Phases rev_ac)) with inr r => r | inl _ => mkPackResult [] ∅ end.
Definition rev_set : ClusterObjectSet :=
  revision_with defaultProgressionProbes LifecycleStateActive
    (stored_phases (ca_Phases (replaceInlineWithRefs rev_ac rev_pack))) 2.

Lemma rev_readable : Forall (fun q => Forall readable (pa_Objects q)) (ca_Phases rev_ac).
Proof.
  assert (Hph : ca_Phases rev_ac = [mkPhaseAC (Some PhaseIdentity) [sample_sa];
                                    mkPhaseAC (Some PhaseDeploy) [sample_deploy]]) by (vm_compute; reflexivity).
  rewrite Hph. repeat constructor.
  - exists (ac_object sample_sa), sa_content. repeat split. intros raw Hr. vm_compute in Hr. injection Hr as <-.
    vm_compute. discriminate.
  - exists (ac_object sample_deploy), deploy_content. repeat split. intros raw Hr. vm_compute in Hr. injection Hr as <-.
    vm_compute. discriminate.
Qed.

Lemma controller_rebuilds_revision_witness :
  exists opts h', buildBoxcutterPhases no_text (set_env (Secrets rev_pack)) rev_set [] =
    (inr (map (fun q => mkBoxPhase (default EmptyString (pa_Name q)) (map (manifest_for rev_set) (pa_Objects q)))
            (ca_Phases rev_ac), opts), h').
Proof.
  apply (controller_rebuilds_revision no_text (set_env (Secrets rev_pack)) sample_packer rev_ac rev_pack rev_set "ext" []).
  - by intros a b _ _ H.
  - vm_compute. reflexivity.
  - exact rev_readable.
  - reflexivity.
  - reflexivity.
  - reflexivity.
  - intros h'. by eexists.
  - intros h' s Hs.
    assert (He : exists s0, Secrets rev_pack = [s0]) by (vm_compute; eexists; reflexivity).
    destruct He as [s0 He]. rewrite He in *. apply list_elem_of_singleton in Hs as ->. reflexivity.
Defined.

End SetSamples.
