(* ===== verification/CatalogIndex.v ===== *)
(** * The index of a catalog

    src/internal/catalogd/storage/index.go: the index catalogd writes next to
    a stored catalog, and the selection of the blobs that match a query.

    A catalog is a list of [Meta]s; the stored file is the concatenation of
    their blobs, and the index remembers where each blob lies.  Go's
    sets.Set.UnsortedList returns the elements in an arbitrary order, and
    slices.SortFunc may reorder equal elements: the order is the argument
    [UnsortedList], of which only that it permutes the elements is used. *)

From S2P Require Import Prelude GoErrors.

(** declcfg.Meta: a blob of a file-based catalog with the fields it is found by. *)
Record Meta := mkBlob {
  mt_Schema : string;
  mt_Package : string;
  mt_Name : string;
  mt_Blob : string;
}.

(** type section struct *)
Record section := mkSection { s_offset : Z; s_length : Z }.

#[export] Instance section_eq_dec : EqDecision section.
Proof. solve_decision. Defined.

#[export] Instance section_countable : Countable section.
Proof.
  apply (inj_countable' (fun s => (s_offset s, s_length s)) (fun p => mkSection p.1 p.2)). by intros [].
Defined.

(** type index struct *)
Record index := mkIndex {
  BySchema : gmap string (list section);
  ByPackage : gmap string (list section);
  ByName : gmap string (list section);
}.

Definition empty_index : index := mkIndex ∅ ∅ ∅.

(** The three conditional appends of newIndex. *)
Definition add_section (key : string) (s : section) (m : gmap string (list section))
  : gmap string (list section) :=
  if decide (key = EmptyString) then m else <[key := default [] (m !! key) ++ [s]]> m.

(** One turn of the loop of newIndex, on the index and the running offset. *)
Definition index_meta (st : index * Z) (meta : Meta) : index * Z :=
  let '(idx, offset) := st in
  let start := offset in
  let length := slen (mt_Blob meta) in
  let offset := int64 (offset + length) in
  let s := mkSection start length in
  (mkIndex (add_section (mt_Schema meta) s (BySchema idx))
           (add_section (mt_Package meta) s (ByPackage idx))
           (add_section (mt_Name meta) s (ByName idx)), offset).

(** func newIndex(metasChan) *index *)
Definition newIndex (metas : list Meta) : index := (fold_left index_meta metas (empty_index, 0)).1.

(** The sections of every schema, for a query without a schema. *)
Definition all_sections (m : gmap string (list section)) : gset section :=
  foldr (fun kv acc => list_to_set kv.2 ∪ acc) ∅ (map_to_list m).

Definition sections_of (m : gmap string (list section)) (key : string) : gset section :=
  list_to_set (default [] (m !! key)).

(** func (i *index) getSectionSet(schema, packageName, name) sets.Set[section] *)
Definition getSectionSet (i : index) (schema packageName name : string) : gset section :=
  let sectionSet :=
    if decide (schema = EmptyString) then all_sections (BySchema i) else sections_of (BySchema i) schema in
  let sectionSet :=
    if decide (packageName = EmptyString) then sectionSet
    else sectionSet ∩ sections_of (ByPackage i) packageName in
  if decide (name = EmptyString) then sectionSet else sectionSet ∩ sections_of (ByName i) name.

Definition section_cmp (a b : section) : Z := int_cmp (s_offset a) (s_offset b).

(** What io.NewSectionReader yields: at most [s_length] bytes from
    [s_offset]; reading at a negative offset is an error. *)
Definition read_section (file : string) (s : section) : result string :=
  if s_length s <=? 0 then inr EmptyString
  else if s_offset s <? 0 then inl (ENew "negative offset")
  else inr (str_takeZ (s_length s) (str_drop (Z.to_nat (s_offset s)) file)).

(** What copying from io.MultiReader yields: the bytes read, and the error
    that ended the reading, if any. *)
Fixpoint read_sections (file : string) (l : list section) : string * option error :=
  match l with
  | [] => (EmptyString, None)
  | s :: rest =>
      match read_section file s with
      | inl err => (EmptyString, Some err)
      | inr text => let '(more, err) := read_sections file rest in (text +:+ more, err)
      end
  end.

(** func (i index) Get(r, schema, packageName, name) io.Reader *)
Definition Get (UnsortedList : gset section -> list section) (i : index) (file : string)
    (schema packageName name : string) : string * option error :=
  let sections := sort_by section_cmp (UnsortedList (getSectionSet i schema packageName name)) in
  read_sections file sections.

(** storeCatalogData writes the blobs one after the other. *)
Definition blobs (metas : list Meta) : string := foldr (fun m acc => mt_Blob m +:+ acc) EmptyString metas.

(** ** The reference: selecting the metas themselves

    A meta without a schema is in no schema list, so that no query finds it. *)
Definition query_matches (schema packageName name : string) (m : Meta) : bool :=
  negb (bool_decide (mt_Schema m = EmptyString)) &&
  (bool_decide (schema = EmptyString) || bool_decide (mt_Schema m = schema)) &&
  (bool_decide (packageName = EmptyString) || bool_decide (mt_Package m = packageName)) &&
  (bool_decide (name = EmptyString) || bool_decide (mt_Name m = name)).

Definition select_metas (schema packageName name : string) (metas : list Meta) : list Meta :=
  List.filter (query_matches schema packageName name) metas.

(** ** Where the blobs lie *)

(** Each meta with its section, from a running offset. *)
Fixpoint located (offset : Z) (metas : list Meta) : list (Meta * section) :=
  match metas with
  | [] => []
  | m :: rest =>
      (m, mkSection offset (slen (mt_Blob m))) :: located (int64 (offset + slen (mt_Blob m))) rest
  end.

(** The list of sections kept under each value of a key. *)
Definition by_key (key : Meta -> string) (l : list (Meta * section)) (m : gmap string (list section))
  : gmap string (list section) :=
  fold_left (fun m ms => add_section (key ms.1) ms.2 m) l m.

Lemma newIndex_by_key metas idx offset :
  (fold_left index_meta metas (idx, offset)).1 =
  mkIndex (by_key mt_Schema (located offset metas) (BySchema idx))
          (by_key mt_Package (located offset metas) (ByPackage idx))
          (by_key mt_Name (located offset metas) (ByName idx)).
Proof.
  revert idx offset. induction metas as [|m metas IH]; intros idx offset; [by destruct idx|].
  cbn [fold_left located]. unfold index_meta at 2. by rewrite IH.
Qed.

Lemma add_section_lookup key s m k :
  k <> EmptyString ->
  default [] (add_section key s m !! k) = default [] (m !! k) ++ (if decide (key = k) then [s] else []).
Proof.
  intros Hk. unfold add_section. destruct (decide (key = EmptyString)) as [->|].
  - rewrite decide_False; [by rewrite app_nil_r|congruence].
  - destruct (decide (key = k)) as [->|Hne]; [by rewrite lookup_insert_eq|].
    by rewrite lookup_insert_ne, app_nil_r.
Qed.

Lemma by_key_lookup key l m k :
  k <> EmptyString ->
  default [] (by_key key l m !! k) =
  default [] (m !! k) ++ map snd (List.filter (fun ms => bool_decide (key ms.1 = k)) l).
Proof.
  intros Hk. revert m. induction l as [|[x s] l IH]; intros m; cbn [by_key fold_left]; [by rewrite app_nil_r|].
  unfold by_key in IH. rewrite IH, add_section_lookup by done. rewrite <- app_assoc. f_equal. cbn.
  destruct (decide (key x = k)); [rewrite bool_decide_true by done|rewrite bool_decide_false by done]; done.
Qed.

(** The empty key is never stored. *)
Lemma by_key_empty key l m : m !! EmptyString = None -> by_key key l m !! EmptyString = None.
Proof.
  revert m. induction l as [|[x s] l IH]; intros m Hm; [done|]. cbn. apply IH.
  unfold add_section. destruct (decide _); [done|]. by rewrite lookup_insert_ne.
Qed.

Lemma elem_of_sections key l k s :
  k <> EmptyString ->
  s ∈ sections_of (by_key key l ∅) k <-> exists m, (m, s) ∈ l /\ key m = k.
Proof.
  intros Hk. unfold sections_of. rewrite by_key_lookup, lookup_empty by done. cbn [default app].
  rewrite elem_of_list_to_set, list_elem_of_fmap. setoid_rewrite list_elem_of_In. setoid_rewrite filter_In. split.
  - intros ([m s'] & -> & Hin & Hk'). exists m. apply bool_decide_eq_true in Hk'. done.
  - intros (m & Hin & Hm). exists (m, s). rewrite bool_decide_true by done. done.
Qed.

Lemma elem_of_union_list (kvs : list (string * list section)) s :
  s ∈ foldr (fun kv acc => list_to_set (C := gset section) kv.2 ∪ acc) ∅ kvs <->
  exists k l, (k, l) ∈ kvs /\ s ∈ l.
Proof.
  induction kvs as [|[k l] kvs IH]; cbn [foldr]; [set_solver|].
  rewrite elem_of_union, elem_of_list_to_set, IH. set_solver.
Qed.

Lemma elem_of_all_sections m s :
  s ∈ all_sections m <-> exists k l, m !! k = Some l /\ s ∈ l.
Proof.
  unfold all_sections. rewrite elem_of_union_list.
  split; intros (k & l & H & Hs); exists k, l; (split; [by apply elem_of_map_to_list|done]).
Qed.

Lemma elem_of_every_section key l s :
  s ∈ all_sections (by_key key l ∅) <-> exists m, (m, s) ∈ l /\ key m <> EmptyString.
Proof.
  rewrite elem_of_all_sections. split.
  - intros (k & ss & Hk & Hs).
    assert (Hne : k <> EmptyString) by (intros ->; by rewrite by_key_empty in Hk).
    destruct (proj1 (elem_of_sections key l k s Hne)) as (m & Hm & <-); [|by exists m].
    unfold sections_of. by rewrite Hk, elem_of_list_to_set.
  - intros (m & Hm & Hne). assert (Hs : s ∈ sections_of (by_key key l ∅) (key m)).
    { apply elem_of_sections; [done|]. by exists m. }
    unfold sections_of in Hs. rewrite elem_of_list_to_set in Hs.
    destruct (by_key key l ∅ !! key m) as [ss|] eqn:E; [|cbn in Hs; by apply not_elem_of_nil in Hs].
    by exists (key m), ss.
Qed.

(** ** Reading the blobs back *)

Lemma str_drop_cat a b : str_drop (Z.to_nat (slen a)) (a +:+ b) = b.
Proof.
  unfold slen. rewrite Nat2Z.id. induction a as [|c a IH]; [by destruct b|exact IH].
Qed.

Lemma str_takeZ_cat a b : str_takeZ (slen a) (a +:+ b) = a.
Proof.
  induction a as [|c a IH]; [by destruct b|]. change (String c a +:+ b) with (String c (a +:+ b)).
  unfold slen in *. cbn [String.length str_takeZ].
  destruct (Z.leb_spec (Z.of_nat (S (String.length a))) 0); [lia|]. f_equal.
  replace (Z.of_nat (S (String.length a)) - 1) with (Z.of_nat (String.length a)) by lia. exact IH.
Qed.

Lemma blobs_cons m metas : blobs (m :: metas) = mt_Blob m +:+ blobs metas.
Proof. done. Qed.

(** The catalog is small enough for its offsets to be int64. *)
Definition fits (offset : Z) (metas : list Meta) : Prop :=
  0 <= offset /\ offset + slen (blobs metas) < 2 ^ 63.

Lemma fits_next offset m metas :
  fits offset (m :: metas) ->
  int64 (offset + slen (mt_Blob m)) = offset + slen (mt_Blob m) /\ fits (offset + slen (mt_Blob m)) metas.
Proof.
  unfold fits. rewrite blobs_cons, slen_app. intros [H1 H2].
  pose proof (slen_nonneg (mt_Blob m)). pose proof (slen_nonneg (blobs metas)).
  split; [apply int64_id|]; lia.
Qed.

Lemma located_bounds offset metas m s :
  fits offset metas -> (m, s) ∈ located offset metas ->
  m ∈ metas /\ offset <= s_offset s /\ s_length s = slen (mt_Blob m).
Proof.
  revert offset. induction metas as [|x metas IH]; intros offset Hf; cbn [located]; [set_solver|].
  apply fits_next in Hf as [-> Hf]. rewrite elem_of_cons. intros [[= -> ->]|Hin]; cbn; [split; [set_solver|lia]|].
  apply IH in Hin as (? & ? & ?); [|done]. pose proof (slen_nonneg (mt_Blob x)). split; [set_solver|lia].
Qed.

(** Sections that hold something are told apart by their offset. *)
Lemma located_unique offset metas m1 s1 m2 s2 :
  fits offset metas -> (m1, s1) ∈ located offset metas -> (m2, s2) ∈ located offset metas ->
  0 < s_length s1 -> 0 < s_length s2 -> s_offset s1 = s_offset s2 -> m1 = m2 /\ s1 = s2.
Proof.
  revert offset. induction metas as [|x metas IH]; intros offset Hf; cbn [located]; [set_solver|].
  apply fits_next in Hf as [-> Hf]. rewrite !elem_of_cons.
  intros [[= -> ->]|H1] [[= -> ->]|H2] L1 L2 E; cbn in *; [done| | |by eapply IH].
  - apply located_bounds in H2 as (_ & ? & _); [lia|done].
  - apply located_bounds in H1 as (_ & ? & _); [lia|done].
Qed.

Lemma located_sorted offset metas :
  fits offset metas -> StronglySorted (cmp_le section_cmp) (map snd (located offset metas)).
Proof.
  revert offset. induction metas as [|x metas IH]; intros offset Hf; cbn [located map]; [constructor|].
  pose proof Hf as [-> Hf']%fits_next. constructor; [by apply IH|]. apply Forall_forall.
  intros s ([m s'] & -> & Hin)%list_elem_of_fmap. apply located_bounds in Hin as (_ & Hle & _); [|done].
  unfold cmp_le, section_cmp. apply int_cmp_le. cbn. pose proof (slen_nonneg (mt_Blob x)). lia.
Qed.

Lemma read_located pre metas f :
  fits (slen pre) metas ->
  read_sections (pre +:+ blobs metas) (map snd (List.filter (fun ms => f ms.1) (located (slen pre) metas))) =
  (blobs (List.filter f metas), None).
Proof.
  revert pre. induction metas as [|m metas IH]; intros pre Hf; [done|].
  pose proof Hf as [Hn Hf']%fits_next. cbn [located List.filter fst]. rewrite Hn.
  specialize (IH (pre +:+ mt_Blob m)). rewrite slen_app in IH. specialize (IH Hf').
  rewrite blobs_cons. rewrite <- str_app_assoc in IH. destruct (f m); [|exact IH].
  cbn [map snd read_sections]. rewrite IH.
  unfold read_section. cbn [s_length s_offset].
  destruct (Z.leb_spec (slen (mt_Blob m)) 0) as [Hz|Hz].
  - rewrite blobs_cons. destruct (mt_Blob m); [done|unfold slen in Hz; cbn in Hz; lia].
  - destruct (Z.ltb_spec (slen pre) 0); [destruct Hf; lia|].
    by rewrite str_drop_cat, str_takeZ_cat, blobs_cons.
Qed.

(** Empty sections contribute nothing. *)
Lemma read_nonempty file l :
  read_sections file (List.filter (fun s => 0 <? s_length s) l) = read_sections file l.
Proof.
  induction l as [|s l IH]; [done|]. cbn [List.filter]. destruct (Z.ltb_spec 0 (s_length s)) as [Hs|Hs].
  - cbn [read_sections]. by rewrite IH.
  - rewrite IH. cbn [read_sections]. unfold read_section. destruct (Z.leb_spec (s_length s) 0); [|lia].
    by destruct (read_sections file l).
Qed.

(** ** The index answers queries as the reference does *)

Lemma query_matches_spec schema packageName name m :
  query_matches schema packageName name m = true <->
  mt_Schema m <> EmptyString /\ (schema = EmptyString \/ mt_Schema m = schema) /\
  (packageName = EmptyString \/ mt_Package m = packageName) /\ (name = EmptyString \/ mt_Name m = name).
Proof.
  unfold query_matches. rewrite !andb_true_iff, negb_true_iff, !orb_true_iff, !bool_decide_eq_true, bool_decide_eq_false.
  tauto.
Qed.

(** A section that holds something is selected exactly if its meta matches.
    (Two empty blobs at the same offset have the same section, and one may be
    selected for the other; this shows in no answer.) *)
Lemma elem_of_getSectionSet metas schema packageName name s :
  fits 0 metas -> 0 < s_length s ->
  s ∈ getSectionSet (newIndex metas) schema packageName name <->
  exists m, (m, s) ∈ located 0 metas /\ query_matches schema packageName name m = true.
Proof.
  intros Hf Hs. unfold newIndex, getSectionSet. rewrite newIndex_by_key.
  cbn [BySchema ByPackage ByName empty_index]. setoid_rewrite query_matches_spec.
  set (l := located 0 metas).
  assert (Hu : forall m m', (m, s) ∈ l -> (m', s) ∈ l -> m = m').
  { intros m m' H1 H2. by destruct (located_unique 0 metas m s m' s). }
  assert (H1 : s ∈ (if decide (schema = EmptyString) then all_sections (by_key mt_Schema l ∅)
                    else sections_of (by_key mt_Schema l ∅) schema) <->
               exists m, (m, s) ∈ l /\ mt_Schema m <> EmptyString /\ (schema = EmptyString \/ mt_Schema m = schema)).
  { destruct (decide (schema = EmptyString)) as [E|E].
    - rewrite elem_of_every_section. split; intros (m & ? & ?); exists m; tauto.
    - rewrite elem_of_sections by done. split; intros (m & ? & ?); exists m; intuition congruence. }
  set (S1 := if decide (schema = EmptyString) then _ else _) in *.
  assert (Hkey : forall key k (S : gset section) P,
    (s ∈ S <-> exists m, (m, s) ∈ l /\ P m) ->
    (s ∈ (if decide (k = EmptyString) then S else S ∩ sections_of (by_key key l ∅) k) <->
     exists m, (m, s) ∈ l /\ P m /\ (k = EmptyString \/ key m = k))).
  { intros key k S P HS. destruct (decide (k = EmptyString)) as [E|E].
    - rewrite HS. split; intros (m & ? & ?); exists m; tauto.
    - rewrite elem_of_intersection, HS, elem_of_sections by done. split.
      + intros [(m & Hm & HP) (m' & Hm' & Hk)]. assert (m' = m) as -> by (by apply Hu). exists m. tauto.
      + intros (m & Hm & HP & [?|?]); [done|]. split; exists m; done. }
  rewrite (Hkey _ _ _ _ (Hkey _ _ _ _ H1)). split; intros (m & ? & ?); exists m; tauto.
Qed.

#[export] Instance section_cmp_order : CmpOrder section_cmp := cmp_on_order s_offset int_cmp.

Lemma StronglySorted_filter {A} (R : A -> A -> Prop) f l :
  StronglySorted R l -> StronglySorted R (List.filter f l).
Proof.
  induction 1 as [|x l Hs IH Hx]; cbn [List.filter]; [constructor|]. destruct (f x); [|done].
  constructor; [done|]. rewrite Forall_forall in *. intros y Hy. apply Hx.
  apply list_elem_of_In in Hy. apply filter_In in Hy as [Hy _]. by apply list_elem_of_In.
Qed.

Lemma StronglySorted_map_filter {A B} (R : B -> B -> Prop) (g : A -> B) f l :
  StronglySorted R (map g l) -> StronglySorted R (map g (List.filter f l)).
Proof.
  induction l as [|x l IH]; cbn [map List.filter]; [done|]. intros [Hs Hx]%StronglySorted_inv.
  destruct (f x); [|by apply IH]. cbn [map]. constructor; [by apply IH|].
  rewrite Forall_forall in *. intros y (z & -> & Hz)%list_elem_of_fmap. apply Hx, list_elem_of_fmap.
  exists z. split; [done|]. apply list_elem_of_In in Hz. apply filter_In in Hz as [Hz _]. by apply list_elem_of_In.
Qed.

Lemma elem_of_bfilter {A} (f : A -> bool) l x : x ∈ List.filter f l <-> x ∈ l /\ f x = true.
Proof. by rewrite !list_elem_of_In, filter_In. Qed.

(** The sections of the metas that [f] selects, without the empty ones. *)
Definition nonempty_located (f : Meta -> bool) (metas : list Meta) : list section :=
  List.filter (fun s => 0 <? s_length s) (map snd (List.filter (fun ms => f ms.1) (located 0 metas))).

Lemma elem_of_nonempty_located f metas s :
  s ∈ nonempty_located f metas <-> 0 < s_length s /\ exists m, (m, s) ∈ located 0 metas /\ f m = true.
Proof.
  unfold nonempty_located. rewrite elem_of_bfilter, list_elem_of_fmap, Z.ltb_lt. split.
  - intros [([m s'] & -> & [Hin Hf]%elem_of_bfilter) Hs]. split; [done|]. by exists m.
  - intros (Hs & m & Hin & Hf). split; [|done]. exists (m, s). split; [done|]. by apply elem_of_bfilter.
Qed.

Lemma NoDup_nonempty_located f offset metas :
  fits offset metas ->
  NoDup (List.filter (fun s => 0 <? s_length s) (map snd (List.filter (fun ms => f ms.1) (located offset metas)))).
Proof.
  revert offset. induction metas as [|m metas IH]; intros offset Hf; cbn [located List.filter map fst]; [constructor|].
  pose proof Hf as [-> Hf']%fits_next. specialize (IH _ Hf'). destruct (f m); [|done]. cbn [map List.filter snd].
  destruct (Z.ltb_spec 0 (s_length (mkSection offset (slen (mt_Blob m))))) as [Hl|]; [|done].
  constructor; [|done]. intros [Hs _]%elem_of_bfilter.
  apply list_elem_of_fmap in Hs as ([m' s'] & E & [Hin _]%elem_of_bfilter).
  apply located_bounds in Hin as (_ & Hle & _); [|done]. cbn in *. subst s'. cbn in Hle. lia.
Qed.

(** The sections found, sorted, spell the matching blobs. *)
Lemma Get_newIndex UnsortedList metas schema packageName name :
  (forall X, UnsortedList X ≡ₚ elements X) -> slen (blobs metas) < 2 ^ 63 ->
  Get UnsortedList (newIndex metas) (blobs metas) schema packageName name =
  (blobs (select_metas schema packageName name metas), None).
Proof.
  intros HU Hb. assert (Hf : fits 0 metas) by (split; lia). unfold Get, select_metas.
  rewrite <- read_nonempty. pose proof (read_located EmptyString metas (query_matches schema packageName name) Hf) as Hr.
  change (EmptyString +:+ blobs metas) with (blobs metas) in Hr. change (slen EmptyString) with 0 in Hr.
  rewrite <- Hr, <- (read_nonempty _ (map snd _)). f_equal.
  change (List.filter (fun s => 0 <? s_length s) (map snd _))
    with (nonempty_located (query_matches schema packageName name) metas).
  set (X := getSectionSet (newIndex metas) schema packageName name).
  assert (Hin : forall s, s ∈ List.filter (fun s => 0 <? s_length s) (sort_by section_cmp (UnsortedList X)) <->
                          s ∈ nonempty_located (query_matches schema packageName name) metas).
  { intros s. rewrite elem_of_bfilter, elem_of_sort_by, HU, elem_of_elements, Z.ltb_lt, elem_of_nonempty_located.
    split; intros [H1 H2]; split; try done; by apply elem_of_getSectionSet. }
  apply sorted_unique with (cmp := section_cmp).
  - apply _.
  - apply list.NoDup_Permutation; [|by apply NoDup_nonempty_located|exact Hin].
    apply NoDup_ListNoDup, List.NoDup_filter, NoDup_ListNoDup. rewrite sort_by_perm, HU. apply NoDup_elements.
  - apply StronglySorted_filter, (sort_by_sorted section_cmp).
  - apply StronglySorted_filter, StronglySorted_map_filter. by apply located_sorted.
  - intros s1 s2 H1 H2 E. apply Hin, elem_of_nonempty_located in H1 as (L1 & m1 & H1 & _).
    apply Hin, elem_of_nonempty_located in H2 as (L2 & m2 & H2 & _).
    by destruct (located_unique 0 metas m1 s1 m2 s2 Hf H1 H2 L1 L2 (proj1 (int_cmp_eq _ _) E)).
Qed.

(** C28. The index is equivalent to a scan of the catalog: whatever the order
    in which the section set is enumerated, a query by schema, package and name
    is answered with the blobs of exactly the metas that match, in the order of
    the catalog, as long as the catalog is smaller than 2^63 bytes. *)
Theorem Get_equiv_scan UnsortedList metas schema packageName name :
  (forall X, UnsortedList X ≡ₚ elements X) -> slen (blobs metas) < 2 ^ 63 ->
  Get UnsortedList (newIndex metas) (blobs metas) schema packageName name =
  (blobs (select_metas schema packageName name metas), None).
Proof. apply Get_newIndex. Qed.

(** Three blobs, two of which are of the package foo. *)
Definition sample_metas : list Meta :=
  [mkBlob "olm.package" "" "foo" "P"; mkBlob "olm.channel" "foo" "stable" "CC"; mkBlob "olm.bundle" "foo" "foo.v1" "BBB"].

Lemma Get_equiv_scan_witness :
  Get elements (newIndex sample_metas) (blobs sample_metas) "" "foo" "" = ("CCBBB", None) /\
  Get elements (newIndex sample_metas) (blobs sample_metas) "olm.bundle" "foo" "stable" = ("", None).
Proof. split; (rewrite Get_equiv_scan; [reflexivity|done|done]). Defined.
