(* ===== verification/CatalogStore.v ===== *)
(** * The storage of catalogd

    src/internal/catalogd/storage/localdir.go, writing: [Store], [Delete] and
    [ContentExists] of LocalDirV1, and
    src/internal/catalogd/garbagecollection/garbage_collector.go.

    The storage is a directory with one subdirectory per catalog.  The
    operations are programs over the history of its contents ([W], the current
    contents last): each change of the directory appends one state, so that a
    crash leaves some state of the history.  Failures of the operating system
    are decided by [FsEnv], and may depend on everything that happened before;
    so is what a garbage collection deletes while the code runs, since it takes
    no lock.

    Store runs under a lock, and the goroutines that write catalog.jsonl and
    index.json write different files of a directory nothing else looks at:
    they are written one after the other here.  The walk over the catalog's
    own files is an argument, as the metas it delivers and the error that ended
    it. *)

From S2P Require Import Prelude GoErrors CatalogIndex.

(** ** The directory *)

(** A file of a catalog directory; [mtime] is the modification time, in nanoseconds. *)
Inductive file :=
| Regular (data : string) (mtime : Z)
| Irregular.

(** An entry of the storage directory: a subdirectory, or anything else. *)
Inductive entry :=
| EDir (files : gmap string file)
| EOther.

(** The storage directory, if it exists. *)
Definition disk : Type := option (gmap string entry).

Definition entries (d : disk) : gmap string entry := default ∅ d.

Definition dir_files (d : disk) (name : string) : gmap string file :=
  match entries d !! name with Some (EDir fs) => fs | _ => ∅ end.

(** ** Programs over the directory *)

Definition W : Type := list disk.

Definition cur (h : W) : disk := default None (last h).

(** What the operating system answers. *)
Record FsEnv := mkFsEnv {
  fe_MkdirAll : W -> option error;
  fe_ReadDir : W -> option error;
  fe_MkdirTemp : W -> result string;                         (* the random suffix *)
  fe_Create : W -> string -> option error;
  fe_Write : W -> string -> option error;
  fe_Encode : W -> option error;
  (* the error, and the files of the entry that are still there *)
  fe_RemoveAll : W -> string -> option (error * gset string);
  fe_Rename : W -> option error;
  fe_Now : W -> Z;
  fe_Cancelled : W -> bool;             (* the walk notices that a writer failed *)
  (* what a garbage collection deleted meanwhile: whole entries, or files *)
  fe_Gone : W -> gset (string * option string);
}.

(** encoding/json on an index: what an encoder writes, a decoder reads back,
    if the keys are text (valid UTF-8). *)
Class IndexCodec := {
  encode_index : index -> string;
  decode_index : string -> result index;
  is_text : string -> Prop;
  decode_encode : forall metas,
    Forall (fun m => is_text (mt_Schema m) /\ is_text (mt_Package m) /\ is_text (mt_Name m)) metas ->
    decode_index (encode_index (newIndex metas)) = inr (newIndex metas);
}.

Definition observe {A} (f : W -> A) : IO W A := fun h => (f h, h).

(** What is left when others deleted entries, or files of entries. *)
Definition shrink_entry (gone : gset (string * option string)) (name : string) (e : entry) : option entry :=
  if decide ((name, None) ∈ gone) then None
  else match e with
       | EDir fs => Some (EDir (filter (fun kv => (name, Some kv.1) ∉ gone) fs))
       | EOther => Some EOther
       end.

Definition shrink (gone : gset (string * option string)) (d : disk) : disk :=
  match d with None => None | Some es => Some (map_imap (shrink_entry gone) es) end.

(** [if err := m; err != nil { return ctx(err) }], and then [k]. *)
Definition unless_err (ctx : error -> error) (m : IO W (option error)) (k : IO W (option error))
  : IO W (option error) :=
  let* err := m in match err with Some e => io_ret (Some (ctx e)) | None => k end.

Notation "'try' ctx 'of' m ';' k" :=
  (unless_err ctx m k) (at level 10, ctx at level 9, m at level 100, k at level 200) : olm_scope.

Section Store.
Context `{IC : IndexCodec} (E : FsEnv).

(** One call of the operating system: what a garbage collection deleted
    meanwhile is gone, then the call happens. *)
Definition os_op {A} (f : W -> disk -> A * disk) : IO W A :=
  fun h => let d := shrink (fe_Gone E h) (cur h) in let '(a, d') := f h d in (a, h ++ [d; d']).

(** os.MkdirAll of the storage directory. *)
Definition MkdirAll : IO W (option error) :=
  os_op (fun h d => match fe_MkdirAll E h with
                    | Some e => (Some e, d)
                    | None => (None, Some (entries d))
                    end).

(** os.RemoveAll of an entry: what is not there is no error. *)
Definition remove_entry (name : string) (left : option (gset string)) (d : disk) : disk :=
  (fun es => match left, es !! name with
             | Some keep, Some (EDir fs) => <[name := EDir (filter (fun kv => kv.1 ∈ keep) fs)]> es
             | Some _, Some EOther => es
             | _, _ => delete name es
             end) <$> d.

Definition RemoveAll (name : string) : IO W (option error) :=
  os_op (fun h d => match fe_RemoveAll E h name with
                    | Some (e, keep) => (Some e, remove_entry name (Some keep) d)
                    | None => (None, remove_entry name None d)
                    end).

(** os.ReadDir: the entries, sorted by name. *)
Definition ReadDir (d : disk) : list (string * entry) :=
  sort_by (fun a b => string_cmp a.1 b.1) (map_to_list (entries d)).

Definition temp_prefix (catalog : string) : string := "." +:+ catalog +:+ "-".

Fixpoint remove_orphans (prefix : string) (es : list (string * entry)) : IO W (option error) :=
  match es with
  | [] => io_ret None
  | (name, _) :: rest =>
      try id of
        (if strings_HasPrefix name prefix then
           try (fun e => EWrap ("error removing orphaned temp directory " +:+ fmt_q name +:+ ": ") e "")
           of RemoveAll name; io_ret None
         else io_ret None);
      remove_orphans prefix rest
  end.

Definition no_such_file : error := EApi KNotExist "no such file or directory".

(** The directory listing, or why there is none. *)
Definition list_entries : IO W (result (list (string * entry))) :=
  os_op (fun h d => (match d, fe_ReadDir E h with
                     | None, _ => inl no_such_file
                     | Some _, Some e => inl e
                     | Some _, None => inr (ReadDir d)
                     end, d)).

(** func (s *LocalDirV1) removeOrphanedTempDirs(catalog) error *)
Definition removeOrphanedTempDirs (catalog : string) : IO W (option error) :=
  let* r := list_entries in
  match r with
  | inl e => io_ret (if has_kind KNotExist e then None else Some (EWrap "error reading storage directory: " e ""))
  | inr es => remove_orphans (temp_prefix catalog) es
  end.

(** os.MkdirTemp(s.RootDir, fmt.Sprintf(".%s-*", catalog)): a new directory. *)
Definition MkdirTemp (catalog : string) : IO W (result string) :=
  os_op (fun h d =>
    match fe_MkdirTemp E h, d with
    | inl e, _ => (inl e, d)
    | inr _, None => (inl no_such_file, d)
    | inr suffix, Some es =>
        let name := temp_prefix catalog +:+ suffix in
        match es !! name with
        | Some _ => (inl (ENew "file exists"), d)
        | None => (inr name, Some (<[name := EDir ∅]> es))
        end
    end).

Definition catalogFile : string := "catalog.jsonl".
Definition indexFile : string := "index.json".

(** Put a file into a subdirectory that is there. *)
Definition put_file (dir f : string) (x : file) (d : disk) : disk :=
  (fun es => match es !! dir with
             | Some (EDir fs) => <[dir := EDir (<[f := x]> fs)]> es
             | _ => es
             end) <$> d.

(** os.Create *)
Definition Create (dir f : string) : IO W (option error) :=
  os_op (fun h d =>
    match fe_Create E h f, entries d !! dir with
    | Some e, _ => (Some e, d)
    | None, Some (EDir _) => (None, put_file dir f (Regular EmptyString (fe_Now E h)) d)
    | None, _ => (Some no_such_file, d)
    end).

(** Append to an open file that holds [written] already; a file that was
    deleted meanwhile is written without trace. *)
Definition Write (dir f : string) (fails : W -> option error) (written data : string) : IO W (option error) :=
  os_op (fun h d =>
    match fails h, dir_files d dir !! f with
    | Some e, _ => (Some e, d)
    | None, Some _ => (None, put_file dir f (Regular (written +:+ data) (fe_Now E h)) d)
    | None, None => (None, d)
    end).

Fixpoint write_blobs (dir : string) (written : string) (metas : list Meta) : IO W (option error) :=
  match metas with
  | [] => io_ret None
  | m :: rest =>
      try id of Write dir catalogFile (fun h => fe_Write E h (mt_Blob m)) written (mt_Blob m);
      write_blobs dir (written +:+ mt_Blob m) rest
  end.

(** func storeCatalogData(catalogDir, metas) error *)
Definition storeCatalogData (dir : string) (metas : list Meta) : IO W (option error) :=
  try id of Create dir catalogFile; write_blobs dir EmptyString metas.

(** func storeIndexData(catalogDir, metas) error *)
Definition storeIndexData (dir : string) (metas : list Meta) : IO W (option error) :=
  let idx := newIndex metas in
  try id of Create dir indexFile;
  Write dir indexFile (fe_Encode E) EmptyString (encode_index idx).

(** The writers of Store, with or without the index. *)
Definition run_writers (EnableMetasHandler : bool) (dir : string) (metas : list Meta) : IO W (option error) :=
  try id of storeCatalogData dir metas;
  if EnableMetasHandler then storeIndexData dir metas else io_ret None.

(** os.Rename of a subdirectory. *)
Definition Rename (old new : string) : IO W (option error) :=
  os_op (fun h d =>
    match fe_Rename E h, entries d !! old with
    | Some e, _ => (Some e, d)
    | None, None => (Some no_such_file, d)
    | None, Some x => (None, (fun es => <[new := x]> (delete old es)) <$> d)
    end).

(** The part of Store between the creation of the temporary directory and its
    deferred removal. *)
Definition store_temp (EnableMetasHandler : bool) (catalog tmpCatalogDir : string)
    (walk : list Meta * option error) : IO W (option error) :=
  let* werr := run_writers EnableMetasHandler tmpCatalogDir walk.1 in
  let* cancelled := observe (fe_Cancelled E) in
  match walk.2, werr with
  | Some e, _ => io_ret (Some (EWrap "error walking FBC root: " e ""))
  | None, Some e =>
      io_ret (Some (if cancelled then EWrap "error walking FBC root: " (ENew "context canceled") "" else e))
  | None, None =>
      let catalogDir := catalog in
      let* e1 := RemoveAll catalogDir in
      let* e2 := Rename tmpCatalogDir catalogDir in
      io_ret (errors_Join [e1; e2])
  end.

(** func (s *LocalDirV1) Store(ctx, catalog, fsys) error *)
Definition Store (EnableMetasHandler : bool) (catalog : string) (walk : list Meta * option error)
  : IO W (option error) :=
  try id of MkdirAll;
  try (fun e => EWrap "error removing orphaned temp directories: " e "") of removeOrphanedTempDirs catalog;
  let* r := MkdirTemp catalog in
  match r with
  | inl e => io_ret (Some e)
  | inr tmpCatalogDir =>
      let* err := store_temp EnableMetasHandler catalog tmpCatalogDir walk in
      let* _ := RemoveAll tmpCatalogDir in
      io_ret err
  end.

(** func (s *LocalDirV1) Delete(catalog) error *)
Definition Delete (catalog : string) : IO W (option error) := RemoveAll catalog.

(** The loop of runGarbageCollection. *)
Fixpoint collect (expectedCatalogs : gset string) (es : list (string * entry)) (removed : list string)
  : IO W (result (list string)) :=
  match es with
  | [] => io_ret (inr removed)
  | (name, e) :: rest =>
      if match e with EDir _ => bool_decide (name ∈ expectedCatalogs) | EOther => false end
      then collect expectedCatalogs rest removed
      else
        let* err := RemoveAll name in
        match err with
        | Some e => io_ret (inl (EWrap ("error removing cache directory entry " +:+ fmt_q name +:+ ": ") e "  "))
        | None => collect expectedCatalogs rest (removed ++ [name])
        end
  end.

(** func runGarbageCollection(ctx, cachePath, metaClient) ([]string, error);
    [catalogs] is what listing the ClusterCatalogs returns. *)
Definition runGarbageCollection (catalogs : result (list string)) : IO W (result (list string)) :=
  match catalogs with
  | inl err => io_ret (inl (EWrap "error listing clustercatalogs: " err ""))
  | inr names =>
      let expectedCatalogs : gset string := list_to_set names in
      let* r := list_entries in
      match r with
      | inl e => io_ret (inl (EWrap "error reading cache directory: " e ""))
      | inr es => collect expectedCatalogs es []
      end
  end.

End Store.

(** func (s *LocalDirV1) ContentExists(catalog) bool; [stat_fails] are the
    files whose os.Stat fails although they exist. *)
Definition is_regular (stat_fails : string -> bool) (d : disk) (catalog f : string) : bool :=
  match dir_files d catalog !! f with
  | Some (Regular _ _) => negb (stat_fails f)
  | _ => false
  end.

Definition ContentExists (EnableMetasHandler : bool) (stat_fails : string -> bool) (d : disk) (catalog : string) : bool :=
  is_regular stat_fails d catalog catalogFile &&
  (negb EnableMetasHandler || is_regular stat_fails d catalog indexFile).

(** ** The interface

    type Instance interface of src/internal/catalogd/storage/storage.go, as the
    ClusterCatalog controller uses it. *)
Class StorageInstance (S FS : Type) := {
  inst_Store : string -> FS -> IO S (option error);
  inst_Delete : string -> IO S (option error);
  inst_ContentExists : S -> string -> bool;
  inst_BaseURL : string -> string;
}.

(** What the interface promises for the names in [valid], from a state with
    its invariant [inv]. *)
Class StorageLaws {S FS} (I : StorageInstance S FS) (valid : string -> Prop) (inv : S -> Prop) : Prop := {
  store_inv : forall c fsys s, valid c -> inv s -> inv (inst_Store c fsys s).2;
  delete_inv : forall c s, valid c -> inv s -> inv (inst_Delete c s).2;
  store_exists : forall c fsys s, valid c -> inv s ->
    (inst_Store c fsys s).1 = None -> inst_ContentExists (inst_Store c fsys s).2 c = true;
  delete_gone : forall c s, valid c -> inv s ->
    (inst_Delete c s).1 = None -> inst_ContentExists (inst_Delete c s).2 c = false;
  store_others : forall c c' fsys s, valid c -> valid c' -> inv s -> c' <> c ->
    inst_ContentExists (inst_Store c fsys s).2 c' = inst_ContentExists s c';
  delete_others : forall c c' s, valid c -> valid c' -> inv s -> c' <> c ->
    inst_ContentExists (inst_Delete c s).2 c' = inst_ContentExists s c';
}.

(** LocalDirV1, over the files [walk] finds in a file system; [JoinPath] is
    url.URL's on the root URL. *)
#[export] Instance LocalDirV1 {FS} `{IC : IndexCodec} (E : FsEnv) (EnableMetasHandler : bool)
    (walk : FS -> list Meta * option error) (JoinPath : string -> string) : StorageInstance W FS := {
  inst_Store c fsys := Store E EnableMetasHandler c (walk fsys);
  inst_Delete c := Delete E c;
  inst_ContentExists h c := ContentExists EnableMetasHandler (fun _ => false) (cur h) c;
  inst_BaseURL := JoinPath;
}.
