(* ===== verification/CatalogServe.v ===== *)
(** * Serving catalogs over HTTP

    src/internal/catalogd/storage/localdir.go, reading: the handlers of
    LocalDirV1, and src/internal/catalogd/storage/http_preconditions_check.go.

    A response is what the handler wrote: the header fields, the status line
    once it is sent (with the header fields of that moment), and the body.
    Parsing and formatting of times, and http.ServeContent, are arguments.
    Times are nanoseconds since the Unix epoch.  A file that was opened can be
    read to its end. *)

From Stdlib Require Import Ascii.
From S2P Require Import Prelude GoErrors CatalogIndex CatalogStore.

(** ** net/http *)

Definition Header : Type := gmap string (list string).

Definition header_Get (h : Header) (k : string) : string :=
  match h !! k with Some (v :: _) => v | _ => EmptyString end.
Definition header_Set (k v : string) (h : Header) : Header := <[k := [v]]> h.
Definition header_Add (k v : string) (h : Header) : Header := <[k := default [] (h !! k) ++ [v]]> h.

(** http.Request: what the handlers read of it. *)
Record Request := mkRequest {
  rq_Method : string;
  rq_Header : Header;
  rq_Query : gmap string (list string);    (* r.URL.Query() *)
  rq_catalog : string;                     (* r.PathValue("catalog") *)
}.

(** http.ResponseWriter *)
Record Response := mkResponse {
  rw_Header : Header;
  rw_Sent : option (Z * Header);           (* the status line and the header fields sent *)
  rw_Body : string;
}.

Definition new_response : Response := mkResponse ∅ None EmptyString.

Definition on_header (f : Header -> Header) (w : Response) : Response :=
  mkResponse (f (rw_Header w)) (rw_Sent w) (rw_Body w).

(** Only the first call sends a status line. *)
Definition WriteHeader (code : Z) (w : Response) : Response :=
  match rw_Sent w with
  | Some _ => w
  | None => mkResponse (rw_Header w) (Some (code, rw_Header w)) (rw_Body w)
  end.

Definition StatusOK : Z := 200.
Definition StatusNotModified : Z := 304.
Definition StatusBadRequest : Z := 400.
Definition StatusForbidden : Z := 403.
Definition StatusNotFound : Z := 404.
Definition StatusMethodNotAllowed : Z := 405.
Definition StatusPreconditionFailed : Z := 412.
Definition StatusInternalServerError : Z := 500.

Definition body_Write (data : string) (w : Response) : Response :=
  let w := WriteHeader StatusOK w in mkResponse (rw_Header w) (rw_Sent w) (rw_Body w +:+ data).

(** http.StatusText *)
Definition StatusText (code : Z) : string :=
  if code =? StatusBadRequest then "Bad Request"
  else if code =? StatusForbidden then "Forbidden"
  else if code =? StatusNotFound then "Not Found"
  else if code =? StatusMethodNotAllowed then "Method Not Allowed"
  else if code =? StatusInternalServerError then "Internal Server Error"
  else EmptyString.

(** http.Error *)
Definition http_Error (msg : string) (code : Z) (w : Response) : Response :=
  let w := on_header (fun h =>
             header_Set "X-Content-Type-Options" "nosniff"
               (header_Set "Content-Type" "text/plain; charset=utf-8" (delete "Content-Length" h))) w in
  body_Write (msg +:+ nl) (WriteHeader code w).

(** ** http_preconditions_check.go *)

(** type condResult int *)
Inductive condResult := condNone | condTrue | condFalse.

#[export] Instance condResult_eq_dec : EqDecision condResult.
Proof. solve_decision. Defined.

(** textproto.TrimString *)
Definition is_lws (c : ascii) : bool :=
  bool_decide (c = " "%char) || bool_decide (c = "009"%char) || bool_decide (c = "010"%char) ||
  bool_decide (c = "013"%char).

Fixpoint trim_lws_left (s : string) : string :=
  match s with
  | EmptyString => EmptyString
  | String c s' => if is_lws c then trim_lws_left s' else s
  end.

Fixpoint trim_lws_right (s : string) : string :=
  match s with
  | EmptyString => EmptyString
  | String c s' =>
      match trim_lws_right s' with
      | EmptyString => if is_lws c then EmptyString else String c EmptyString
      | t => String c t
      end
  end.

Definition TrimString (s : string) : string := trim_lws_right (trim_lws_left s).

(** Character values allowed in ETags. *)
Definition etag_char (c : ascii) : bool :=
  let n := Z.of_nat (nat_of_ascii c) in
  (n =? 33) || ((35 <=? n) && (n <=? 126)) || (128 <=? n).

(** The loop of scanETag after the opening quote: the text up to the closing
    quote, and what follows it. *)
Fixpoint scan_text (s : string) : option (string * string) :=
  match s with
  | EmptyString => None
  | String c s' =>
      if etag_char c then
        match scan_text s' with Some (t, remain) => Some (String c t, remain) | None => None end
      else if bool_decide (c = "034"%char) then Some (String c EmptyString, s')
      else None
  end.

(** func scanETag(s string) (etag string, remain string) *)
Definition scanETag (s : string) : string * string :=
  let s := TrimString s in
  let '(weak, t) := if strings_HasPrefix s "W/" then ("W/", str_drop 2 s) else ("", s) in
  match t with
  | String c t' =>
      if (slen t <? 2) || negb (bool_decide (c = "034"%char)) then ("", "")
      else match scan_text t' with
           | Some (text, remain) => (weak +:+ String c text, remain)
           | None => ("", "")
           end
  | EmptyString => ("", "")
  end.

(** The loop over a list of ETags, shared by checkIfMatch and
    checkIfNoneMatch: [star] is the answer for an asterisk, [none] the answer
    when the list ends.  The number of turns is bounded by [fuel]. *)
Fixpoint etag_list (star none : condResult) (fuel : nat) (buf : string) : option condResult :=
  match fuel with
  | O => None
  | S fuel =>
      match TrimString buf with
      | EmptyString => Some none
      | String c rest =>
          if bool_decide (c = ","%char) then etag_list star none fuel rest
          else if bool_decide (c = "*"%char) then Some star
          else
            let '(etag, remain) := scanETag (String c rest) in
            if bool_decide (etag = EmptyString) then Some none
            else etag_list star none fuel remain
      end
  end.

(** One more turn than the header has bytes is enough ([etag_list_total] in
    CatalogServeProps.v), so that the default is never taken. *)
Definition etag_condition (star none : condResult) (buf : string) : condResult :=
  default none (etag_list star none (S (String.length buf)) buf).

(** func checkIfMatch(r) condResult *)
Definition checkIfMatch (r : Request) : condResult :=
  let im := header_Get (rq_Header r) "If-Match" in
  if bool_decide (im = EmptyString) then condNone else etag_condition condTrue condFalse im.

(** func checkIfNoneMatch(r) condResult *)
Definition checkIfNoneMatch (r : Request) : condResult :=
  let inm := header_Get (rq_Header r) "If-None-Match" in
  if bool_decide (inm = EmptyString) then condNone else etag_condition condFalse condTrue inm.

Definition Second : Z := 1000000000.

(** time.Time.Truncate(time.Second) *)
Definition truncate_second (t : Z) : Z := t - t `mod` Second.

(** time.Time{} *)
Definition zero_time : Z := -62135596800 * Second.

(** func isZeroTime(t time.Time) bool *)
Definition isZeroTime (t : Z) : bool := (t =? zero_time) || (t =? 0).

(** The layouts of parseTime. *)
Inductive layout := timeFormat | RFC850 | ANSIC.

Definition errInvalidParams : error := EApi KInvalidParams "invalid parameters".

(** func httpError(w, err) *)
Definition error_code (err : error) : Z :=
  if has_kind KNotExist err then StatusNotFound
  else if has_kind KPermission err then StatusForbidden
  else if has_kind KInvalidParams err then StatusBadRequest
  else StatusInternalServerError.

Definition httpError (err : error) (w : Response) : Response :=
  let code := error_code err in http_Error (fmt_d code +:+ " " +:+ StatusText code) code w.

(** func writeNotModified(w) *)
Definition writeNotModified (w : Response) : Response :=
  let w := on_header (fun h =>
             let h := delete "Content-Encoding" (delete "Content-Length" (delete "Content-Type" h)) in
             if bool_decide (header_Get h "Etag" = EmptyString) then h else delete "Last-Modified" h) w in
  WriteHeader StatusNotModified w.

Section Serve.
Context `{IC : IndexCodec}.
(** time.Parse, time.Time.Format in UTC, and http.ServeContent *)
Context (time_Parse : layout -> string -> result Z) (time_Format : Z -> string).
Context (ServeContent : Request -> Z -> string -> Response -> Response).
Context (UnsortedList : gset section -> list section).

(** func parseTime(text) (t time.Time, err error) *)
Definition parseTime (text : string) : result Z :=
  match time_Parse timeFormat text with
  | inr t => inr t
  | inl _ =>
      match time_Parse RFC850 text with
      | inr t => inr t
      | inl _ => time_Parse ANSIC text
      end
  end.

(** func checkIfModifiedSince(r, w, modtime) condResult *)
Definition checkIfModifiedSince (r : Request) (modtime : Z) (w : Response) : condResult * Response :=
  let ims := header_Get (rq_Header r) "If-Modified-Since" in
  if bool_decide (ims = EmptyString) || isZeroTime modtime then (condTrue, w)
  else match parseTime ims with
       | inl err => (condNone, httpError err w)
       | inr t => (if truncate_second modtime <=? t then condFalse else condTrue, w)
       end.

(** func checkIfUnmodifiedSince(r, modtime) condResult *)
Definition checkIfUnmodifiedSince (r : Request) (modtime : Z) : condResult :=
  let ius := header_Get (rq_Header r) "If-Unmodified-Since" in
  if bool_decide (ius = EmptyString) || isZeroTime modtime then condNone
  else match parseTime ius with
       | inl _ => condNone
       | inr t => if truncate_second modtime <=? t then condTrue else condFalse
       end.

(** func checkPreconditions(w, r, modtime) bool *)
Definition checkPreconditions (r : Request) (modtime : Z) (w : Response) : bool * Response :=
  let ch := checkIfMatch r in
  let ch := if decide (ch = condNone) then checkIfUnmodifiedSince r modtime else ch in
  if decide (ch = condFalse) then (true, WriteHeader StatusPreconditionFailed w)
  else match checkIfNoneMatch r with
       | condFalse =>
           if bool_decide (rq_Method r = "GET") || bool_decide (rq_Method r = "HEAD")
           then (true, writeNotModified w)
           else (true, WriteHeader StatusPreconditionFailed w)
       | condNone =>
           let '(c, w) := checkIfModifiedSince r modtime w in
           if decide (c = condFalse) then (true, writeNotModified w) else (false, w)
       | condTrue => (false, w)
       end.

(** ** The handlers *)

(** func (s *LocalDirV1) catalogData(catalog): the content and the time of
    modification of the catalog file; [fails] is a failure of os.Open or Stat. *)
Definition open_file (fails : string -> option error) (d : disk) (catalog f : string) : result (string * Z) :=
  match fails f, dir_files d catalog !! f with
  | Some e, _ => inl e
  | None, Some (Regular data t) => inr (data, t)
  | None, Some Irregular => inl (ENew "is a directory")
  | None, None => inl no_such_file
  end.

Definition catalogData (fails : string -> option error) (d : disk) (catalog : string) : result (string * Z) :=
  open_file fails d catalog catalogFile.

(** func (s *LocalDirV1) getIndex(catalog); callers that run at
    the same time share one reading. *)
Definition getIndex (fails : string -> option error) (d : disk) (catalog : string) : result index :=
  match open_file fails d catalog indexFile with
  | inl e => inl e
  | inr (data, _) => decode_index data
  end.

(** func serveJSONLines(w, r, rs) *)
Definition serveJSONLines (r : Request) (rs : string * option error) (w : Response) : Response :=
  let w := on_header (header_Add "Content-Type" "application/jsonl") w in
  if bool_decide (rq_Method r = "HEAD") then w
  else
    let w := if bool_decide (rs.1 = EmptyString) then w else body_Write rs.1 w in
    match rs.2 with
    | None => w
    | Some err => httpError err w
    end.

(** func (s *LocalDirV1) handleV1All(w, r) *)
Definition handleV1All (fails : string -> option error) (d : disk) (r : Request) (w : Response) : Response :=
  match catalogData fails d (rq_catalog r) with
  | inl err => httpError err w
  | inr (content, modtime) =>
      ServeContent r modtime content (on_header (header_Add "Content-Type" "application/jsonl") w)
  end.

Definition expectedParams : gset string := {["schema"; "package"; "name"]}.

Definition query_Get (r : Request) (k : string) : string := header_Get (rq_Query r) k.

(** func (s *LocalDirV1) handleV1Metas(w, r) *)
Definition handleV1Metas (fails : string -> option error) (d : disk) (r : Request) (w : Response) : Response :=
  if decide (dom (rq_Query r) ⊆ expectedParams) then
    let catalog := rq_catalog r in
    match catalogData fails d catalog with
    | inl err => httpError err w
    | inr (content, modtime) =>
        let w := on_header (header_Set "Last-Modified" (time_Format modtime)) w in
        let '(stop, w) := checkPreconditions r modtime w in
        if stop then w
        else
          let schema := query_Get r "schema" in
          let pkg := query_Get r "package" in
          let name := query_Get r "name" in
          if bool_decide (schema = EmptyString) && bool_decide (pkg = EmptyString) && bool_decide (name = EmptyString)
          then serveJSONLines r (content, None) w
          else match getIndex fails d catalog with
               | inl err => httpError err w
               | inr idx => serveJSONLines r (Get UnsortedList idx content schema pkg name) w
               end
    end
  else httpError errInvalidParams w.

(** What the multiplexer of StorageServerHandler makes of the path. *)
Inductive route := RouteAll | RouteMetas | RouteOther.

(** func (s *LocalDirV1) StorageServerHandler() http.Handler *)
Definition StorageServerHandler (EnableMetasHandler : bool) (fails : string -> option error) (d : disk)
    (path : route) (r : Request) (w : Response) : Response :=
  if bool_decide (rq_Method r = "GET") || bool_decide (rq_Method r = "HEAD") then
    match path with
    | RouteAll => handleV1All fails d r w
    | RouteMetas =>
        if EnableMetasHandler then handleV1Metas fails d r w
        else http_Error "404 page not found" StatusNotFound w
    | RouteOther => http_Error "404 page not found" StatusNotFound w
    end
  else http_Error (StatusText StatusMethodNotAllowed) StatusMethodNotAllowed w.

End Serve.
