(* ===== verification/CatalogCtrl.v ===== *)
(** * Reconciling a ClusterCatalog

    src/internal/catalogd/controllers/core/clustercatalog_controller.go and the
    defaulting webhook of src/internal/catalogd/webhook/cluster_catalog_webhook.go.

    The reconciler keeps, for each catalog it stored, what it needs to tell
    whether the status is still right ([storedCatalogData]); its state is that
    map, the state of the storage, and the history of the calls it made.  The
    storage is any [StorageInstance]; the image puller, the clock, the jitter
    and the API server answer through [CatEnv], and may depend on the whole
    state.  controller-runtime's finalizers are the interface [CRFinalizers].
    The code mutates the catalog through a pointer; here each function returns
    the catalog it leaves.  Times and durations are nanoseconds. *)

From S2P Require Import Prelude GoErrors ApiTypes Sanitize ExtSteps CatalogIndex CatalogStore CatalogServe.

Definition fbcDeletionFinalizer : string := "olm.operatorframework.io/delete-server-cache".

(** type storedCatalogData struct *)
Record storedCatalogData := mkStored {
  sc_ref : string;
  sc_lastUnpack : Z;
  sc_lastSuccessfulPoll : Z;
  sc_observedGeneration : Z;
}.

(** What the reconciler asks of its collaborators. *)
Inductive catcall :=
| CPull (name ref : string)
| CStore (name : string)
| CDelete (name : string)
| CCacheDelete (name : string)
| CStatusUpdate (st : ClusterCatalogStatus)
| CPatchFinalizers (fs : list string).

Record cstate {S : Type} := mkCState {
  cs_stored : gmap string storedCatalogData;
  cs_storage : S;
  cs_trace : list catcall;
}.
Arguments cstate : clear implicits.
Arguments mkCState {S}.

Definition with_CatMeta (m : ObjectMeta) (c : ClusterCatalog) : ClusterCatalog :=
  mkCatalog m (cat_Spec c) (cat_Status c).
Definition with_CatStatus (st : ClusterCatalogStatus) (c : ClusterCatalog) : ClusterCatalog :=
  mkCatalog (cat_Meta c) (cat_Spec c) st.
Definition with_CatConditions (cs : list Condition) (st : ClusterCatalogStatus) : ClusterCatalogStatus :=
  mkCatStatus cs (cst_ResolvedSource st) (cst_URLs st) (cst_LastUnpacked st).
Definition cat_Generation (c : ClusterCatalog) : Z := m_Generation (cat_Meta c).
Definition cat_finalizers (c : ClusterCatalog) : list string := m_Finalizers (cat_Meta c).

(** controllerutil.RemoveFinalizer and AddFinalizer *)
Definition RemoveFinalizer (key : string) (c : ClusterCatalog) : ClusterCatalog :=
  with_CatMeta (with_Finalizers (List.filter (fun f => negb (bool_decide (f = key))) (cat_finalizers c)) (cat_Meta c)) c.
Definition AddFinalizer (key : string) (c : ClusterCatalog) : ClusterCatalog :=
  with_CatMeta (with_Finalizers (cat_finalizers c ++ [key]) (cat_Meta c)) c.

(** crfinalizer.Finalizers with one registered finalizer: it is added to an
    object that is not being deleted, and run for one that is; it is removed
    when it has run without error. *)
Class CRFinalizers := {
  Finalize : forall {W : Type}, string -> (ClusterCatalog -> IO W (ClusterCatalog * finalizerResult * option error)) ->
    ClusterCatalog -> IO W (ClusterCatalog * finalizerResult * option error);
  finalize_idle : forall W key f c (w : W),
    (m_DeletionTimestamp (cat_Meta c) = None <-> key ∈ cat_finalizers c) ->
    Finalize key f c w = ((c, mkFinResult false false, None), w);
  finalize_add : forall W key f c (w : W),
    m_DeletionTimestamp (cat_Meta c) = None -> key ∉ cat_finalizers c ->
    Finalize key f c w = ((AddFinalizer key c, mkFinResult true false, None), w);
  finalize_run : forall W key f c (w : W),
    m_DeletionTimestamp (cat_Meta c) <> None -> key ∈ cat_finalizers c ->
    let '((c', fr, err), w') := f c w in
    match err with
    | None => Finalize key f c w = ((RemoveFinalizer key c', mkFinResult true (StatusUpdated fr), None), w')
    | Some e => exists e', Finalize key f c w = ((c', fr, Some e'), w')
    end;
}.

(** ** The status *)

Section Status.
Context `{CA : ConditionsAPI}.

(** func clearUnknownConditions(status) *)
Definition clearUnknownConditions (st : ClusterCatalogStatus) : ClusterCatalogStatus :=
  with_CatConditions
    (List.filter (fun c => bool_decide (c_Type c = TypeServing) || bool_decide (c_Type c = TypeProgressing)) (cst_Conditions st)) st.

(** func updateStatusProgressing(status, generation, err) *)
Definition progressing_condition (generation : Z) (err : option error) : Condition :=
  match err with
  | None => mkCond TypeProgressing ConditionTrue ReasonSucceeded
              "Successfully unpacked and stored content from resolved source" generation
  | Some e =>
      if is_terminal e
      then mkCond TypeProgressing ConditionFalse ReasonBlocked (SanitizeNetworkError err) generation
      else mkCond TypeProgressing ConditionTrue ReasonRetrying (SanitizeNetworkError err) generation
  end.

Definition updateStatusProgressing (generation : Z) (err : option error) (st : ClusterCatalogStatus)
  : ClusterCatalogStatus :=
  with_CatConditions (set_cond (cst_Conditions st) (progressing_condition generation err)) st.

(** func updateStatusServing(status, ref, modTime, baseURL, generation) *)
Definition serving_condition (generation : Z) : Condition :=
  mkCond TypeServing ConditionTrue ReasonAvailable "Serving desired content from resolved source" generation.

Definition updateStatusServing (ref : string) (modTime : Z) (baseURL : string) (generation : Z)
    (st : ClusterCatalogStatus) : ClusterCatalogStatus :=
  mkCatStatus (set_cond (cst_Conditions st) (serving_condition generation))
    (Some (mkResolvedSource SourceTypeImage (Some ref))) (Some baseURL) (Some (truncate_second modTime)).

(** func updateStatusProgressingUserSpecifiedUnavailable(status, generation) *)
Definition updateStatusProgressingUserSpecifiedUnavailable (generation : Z) (st : ClusterCatalogStatus)
  : ClusterCatalogStatus :=
  let message := "Catalog availability mode is set to Unavailable" in
  let progressingCond := mkCond TypeProgressing ConditionTrue ReasonSucceeded message generation in
  let servingCond := mkCond TypeServing ConditionFalse ReasonUserSpecifiedUnavailable message generation in
  with_CatConditions (set_cond (set_cond (cst_Conditions st) progressingCond) servingCond) st.

(** func updateStatusNotServing(status, generation) *)
Definition updateStatusNotServing (generation : Z) (st : ClusterCatalogStatus) : ClusterCatalogStatus :=
  mkCatStatus
    (set_cond (cst_Conditions st) (mkCond TypeServing ConditionFalse ReasonUnavailable "" generation)) None None None.

End Status.

(** ** The reconciler *)

(** The collaborators besides the storage. *)
Record CatEnv {S FS : Type} := mkCatEnv {
  (* ImagePuller.Pull: the file system, the canonical reference, the modification time *)
  ce_Pull : cstate S -> string -> string -> result (FS * string * Z);
  ce_CacheDelete : cstate S -> string -> option error;      (* ImageCache.Delete *)
  ce_Now : cstate S -> Z;                                   (* time.Now *)
  ce_Jitter : cstate S -> Z -> Z;                           (* wait.Jitter(d, 0.01) *)
  ce_StatusUpdate : ClusterCatalog -> option error;         (* Status().Update *)
  ce_CreateOrPatch : list string -> option error;           (* of the finalizers *)
}.
Arguments CatEnv : clear implicits.

Section Controller.
Context {S FS : Type} {I : StorageInstance S FS} `{CA : ConditionsAPI} `{CF : CRFinalizers} (E : CatEnv S FS).

Notation CIO := (IO (cstate S)).

Definition tell_cat (c : catcall) : CIO unit :=
  fun s => (tt, mkCState (cs_stored s) (cs_storage s) (cs_trace s ++ [c])).

(** A call of the storage. *)
Definition on_storage {A} (c : catcall) (m : IO S A) : CIO A :=
  fun s => let '(a, st) := m (cs_storage s) in (a, mkCState (cs_stored s) st (cs_trace s ++ [c])).

Definition ask_cat {A} (f : cstate S -> A) : CIO A := fun s => (f s, s).

Definition update_stored (f : gmap string storedCatalogData -> gmap string storedCatalogData) : CIO unit :=
  fun s => (tt, mkCState (f (cs_stored s)) (cs_storage s) (cs_trace s)).

(** func (r *ClusterCatalogReconciler) deleteStoredCatalog(catalogName) *)
Definition deleteStoredCatalog (catalogName : string) : CIO unit := update_stored (delete catalogName).

(** func (r *ClusterCatalogReconciler) deleteCatalogCache(ctx, catalog) error *)
Definition deleteCatalogCache (catalog : ClusterCatalog) : CIO (ClusterCatalog * option error) :=
  let failed e c := io_ret (with_CatStatus (updateStatusProgressing (cat_Generation c) (Some e) (cat_Status c)) c, Some e) in
  let* err := on_storage (CDelete (cat_Name catalog)) (inst_Delete (cat_Name catalog)) in
  match err with
  | Some e => failed e catalog
  | None =>
      let catalog := with_CatStatus (updateStatusNotServing (cat_Generation catalog) (cat_Status catalog)) catalog in
      let* err := ask_cat (fun s => ce_CacheDelete E s (cat_Name catalog)) in
      let* _ := tell_cat (CCacheDelete (cat_Name catalog)) in
      match err with
      | Some e => failed e catalog
      | None => let* _ := deleteStoredCatalog (cat_Name catalog) in io_ret (catalog, None)
      end
  end.

(** The finalizer registered by setupFinalizers. *)
Definition fbc_finalizer (catalog : ClusterCatalog) : CIO (ClusterCatalog * finalizerResult * option error) :=
  let* r := deleteCatalogCache catalog in io_ret (r.1, mkFinResult false true, r.2).

Definition Minute : Z := 60 * Second.

(** time.Duration of the poll interval *)
Definition poll_duration (minutes : Z) : Z := int64 (minutes * Minute).

(** func nextPollResult(lastSuccessfulPoll, catalog) ctrl.Result *)
Definition nextPollResult (lastSuccessfulPoll : Z) (catalog : ClusterCatalog) : CIO CtrlResult :=
  ask_cat (fun s =>
    mkResult
      (if bool_decide (cso_Type (ccs_Source (cat_Spec catalog)) = SourceTypeImage) then
         match cso_Image (ccs_Source (cat_Spec catalog)) with
         | Some img =>
             match img_PollIntervalMinutes img with
             | Some minutes => lastSuccessfulPoll + ce_Jitter E s (poll_duration minutes) - ce_Now E s
             | None => 0
             end
         | None => 0
         end
       else 0)).

(** func (r *ClusterCatalogReconciler) needsPoll(lastSuccessfulPoll, catalog) bool *)
Definition needsPoll (now lastSuccessfulPoll : Z) (catalog : ClusterCatalog) : go bool :=
  match cso_Image (ccs_Source (cat_Spec catalog)) with
  | None => Panic "nil pointer dereference"
  | Some img =>
      Ret (match img_PollIntervalMinutes img with
           | None => false
           | Some minutes => lastSuccessfulPoll + poll_duration minutes <? now
           end)
  end.

(** func (r *ClusterCatalogReconciler) getCurrentState(catalog) *)
Definition getCurrentState (s : cstate S) (catalog : ClusterCatalog)
  : ClusterCatalogStatus * option storedCatalogData :=
  let storedCatalog := cs_stored s !! cat_Name catalog in
  let expectedStatus := clearUnknownConditions (cat_Status catalog) in
  (match storedCatalog with
   | Some sc =>
       if inst_ContentExists (cs_storage s) (cat_Name catalog) then
         updateStatusProgressing (sc_observedGeneration sc) None
           (updateStatusServing (sc_ref sc) (sc_lastUnpack sc) (inst_BaseURL (cat_Name catalog))
              (sc_observedGeneration sc) expectedStatus)
       else expectedStatus
   | None => expectedStatus
   end, storedCatalog).

(** The switch that decides whether the catalog has to be unpacked. *)
Definition needsUnpack (s : cstate S) (catalog : ClusterCatalog) : go bool :=
  let '(expectedStatus, storedCatalog) := getCurrentState s catalog in
  match storedCatalog with
  | None => Ret true
  | Some sc =>
      if negb (inst_ContentExists (cs_storage s) (cat_Name catalog)) then Ret true
      else if negb (bool_decide (cat_Status catalog = expectedStatus)) then Ret true
      else if negb (cat_Generation catalog =? sc_observedGeneration sc) then Ret true
      else needsPoll (ce_Now E s) (sc_lastSuccessfulPoll sc) catalog
  end.

Definition cat_failed (catalog : ClusterCatalog) (err : error) : CIO (go (ClusterCatalog * CtrlResult * option error)) :=
  let catalog := with_CatStatus (updateStatusProgressing (cat_Generation catalog) (Some err) (cat_Status catalog)) catalog in
  io_ret (Ret (catalog, emptyResult, Some err)).

(** Pulling and storing the content, and recording that it is served. *)
Definition unpack (catalog : ClusterCatalog) : CIO (go (ClusterCatalog * CtrlResult * option error)) :=
  let source := ccs_Source (cat_Spec catalog) in
  if negb (bool_decide (cso_Type source = SourceTypeImage)) then
    cat_failed catalog (ETerminal (ENew ("unknown source type " +:+ fmt_q (cso_Type source))))
  else match cso_Image source with
  | None =>
      cat_failed catalog
        (ETerminal (ENew ("error parsing ClusterCatalog " +:+ fmt_q (cat_Name catalog) +:+ ", image source is nil")))
  | Some img =>
      let* pulled := ask_cat (fun s => ce_Pull E s (cat_Name catalog) (img_Ref img)) in
      let* _ := tell_cat (CPull (cat_Name catalog) (img_Ref img)) in
      match pulled with
      | inl err => cat_failed catalog (EWrap "source catalog content: " err "")
      | inr (fsys, canonicalRef, unpackTime) =>
          let* err := on_storage (CStore (cat_Name catalog)) (inst_Store (cat_Name catalog) fsys) in
          match err with
          | Some err => cat_failed catalog (ENew ("error storing fbc: " +:+ Error err))
          | None =>
              let baseURL := inst_BaseURL (cat_Name catalog) in
              let st := updateStatusProgressing (cat_Generation catalog) None (cat_Status catalog) in
              let st := updateStatusServing canonicalRef unpackTime baseURL (cat_Generation catalog) st in
              let catalog := with_CatStatus st catalog in
              let* lastSuccessfulPoll := ask_cat (ce_Now E) in
              let* _ := update_stored (<[cat_Name catalog :=
                           mkStored canonicalRef unpackTime lastSuccessfulPoll (cat_Generation catalog)]>) in
              let* res := nextPollResult lastSuccessfulPoll catalog in
              io_ret (Ret (catalog, res, None))
          end
      end
  end.

(** func (r *ClusterCatalogReconciler) reconcile(ctx, catalog) (ctrl.Result, error) *)
Definition cat_reconcile (catalog : ClusterCatalog) : CIO (go (ClusterCatalog * CtrlResult * option error)) :=
  if bool_decide (ccs_AvailabilityMode (cat_Spec catalog) = AvailabilityModeUnavailable) then
    let* r := deleteCatalogCache catalog in
    let '(catalog, err) := r in
    match err with
    | Some e => io_ret (Ret (catalog, emptyResult, Some e))
    | None =>
        let st := updateStatusProgressingUserSpecifiedUnavailable (cat_Generation catalog) (cat_Status catalog) in
        let catalog := RemoveFinalizer fbcDeletionFinalizer (with_CatStatus st catalog) in
        io_ret (Ret (catalog, emptyResult, None))
    end
  else
    let* r := Finalize fbcDeletionFinalizer fbc_finalizer catalog in
    let '(catalog, finalizeResult, err) := r in
    match err with
    | Some e => io_ret (Ret (catalog, emptyResult, Some e))
    | None =>
        if Updated finalizeResult || StatusUpdated finalizeResult then io_ret (Ret (catalog, emptyResult, None))
        else match m_DeletionTimestamp (cat_Meta catalog) with
        | Some _ => io_ret (Ret (catalog, emptyResult, None))
        | None =>
            let* needed := ask_cat (fun s => (needsUnpack s catalog, cs_stored s !! cat_Name catalog)) in
            match needed with
            | (Panic msg, _) => io_ret (Panic msg)
            | (Ret true, _) => unpack catalog
            | (Ret false, sc) =>
                let* res := nextPollResult (match sc with Some sc => sc_lastSuccessfulPoll sc | None => 0 end) catalog in
                io_ret (Ret (catalog, res, None))
            end
        end
    end.

(** CheckForUnexpectedFieldChange (k8s.go) on catalogs *)
Definition catalog_field_change (a b : ClusterCatalog) : bool :=
  if negb (bool_decide (m_Annotations (cat_Meta a) = m_Annotations (cat_Meta b))) then true
  else if negb (bool_decide (m_Labels (cat_Meta a) = m_Labels (cat_Meta b))) then true
  else negb (bool_decide (cat_Spec a = cat_Spec b)).

(** func (r *ClusterCatalogReconciler) Reconcile(ctx, req) (ctrl.Result, error);
    [got] is what reading the catalog returned. *)
Definition Cat_Reconcile (got : result ClusterCatalog) : CIO (go (CtrlResult * option error)) :=
  match got with
  | inl err => io_ret (Ret (emptyResult, IgnoreNotFound err))
  | inr existing =>
      let* out := cat_reconcile existing in
      match out with
      | Panic msg => io_ret (Panic msg)
      | Ret (reconciled, res, reconcileErr) =>
          let* _ := (match reconcileErr with
                     | Some _ => deleteStoredCatalog (cat_Name reconciled)
                     | None => io_ret tt
                     end) in
          let updateStatus := negb (bool_decide (cat_Status existing = cat_Status reconciled)) in
          let finalizers := cat_finalizers reconciled in
          let updateFinalizers := negb (bool_decide (cat_finalizers existing = finalizers)) in
          if catalog_field_change existing reconciled then io_ret (Panic "spec or metadata changed by reconciler")
          else
            let* reconcileErr :=
              (if updateStatus then
                 let* _ := tell_cat (CStatusUpdate (cat_Status reconciled)) in
                 io_ret (match ce_StatusUpdate E reconciled with
                         | Some err => join_err reconcileErr (ENew ("error updating status: " +:+ Error err))
                         | None => reconcileErr
                         end)
               else io_ret reconcileErr) in
            let* reconcileErr :=
              (if updateFinalizers then
                 let* _ := tell_cat (CPatchFinalizers finalizers) in
                 io_ret (match ce_CreateOrPatch E finalizers with
                         | Some err => join_err reconcileErr (ENew ("error updating finalizers: " +:+ Error err))
                         | None => reconcileErr
                         end)
               else io_ret reconcileErr) in
            io_ret (Ret (res, reconcileErr))
      end
  end.

End Controller.

(** func (r *ClusterCatalog) Default(ctx, obj) error: the webhook adds a label
    with the catalog's name. *)
Definition catalog_Default (obj : ClusterCatalog) : ClusterCatalog :=
  let m := cat_Meta obj in
  with_CatMeta (mkMeta (m_Name m) (m_Namespace m) (m_UID m) (m_Generation m)
                  (<[MetadataNameLabel := m_Name m]> (m_Labels m)) (m_Annotations m) (m_Finalizers m)
                  (m_OwnerReferences m) (m_CreationTimestamp m) (m_DeletionTimestamp m)) obj.
