(* ===== verification/CatalogInstances.v ===== *)
(** * Concrete collaborators of catalogd

    Implementations of the interfaces the catalogd model takes as parameters:
    an index codec, controller-runtime's finalizers, an operating system without
    failures, a clock.  The witnesses of the catalogd theorems run on them. *)

From Stdlib Require Import Ascii.
From S2P Require Import Prelude GoErrors ApiTypes ExtSteps CatalogIndex CatalogStore CatalogServe CatalogCtrl.

(** ** A codec for indexes: the bits of stdpp's encoding, as text. *)

Fixpoint pos_to_string (p : positive) : string :=
  match p with
  | xH => "."
  | xO p => String "0"%char (pos_to_string p)
  | xI p => String "1"%char (pos_to_string p)
  end.

Fixpoint string_to_pos (s : string) : option positive :=
  match s with
  | String c s' =>
      if bool_decide (c = "."%char) then (if bool_decide (s' = EmptyString) then Some xH else None)
      else match string_to_pos s' with
           | Some p => if bool_decide (c = "0"%char) then Some (xO p) else if bool_decide (c = "1"%char) then Some (xI p) else None
           | None => None
           end
  | EmptyString => None
  end.

Lemma string_to_pos_of p : string_to_pos (pos_to_string p) = Some p.
Proof. by induction p as [p IH|p IH|]; cbn; rewrite ?IH. Qed.

Definition index_lists (i : index) : list (list (string * list section)) :=
  [map_to_list (BySchema i); map_to_list (ByPackage i); map_to_list (ByName i)].

Definition lists_index (l : list (list (string * list section))) : option index :=
  match l with
  | [a; b; c] => Some (mkIndex (list_to_map a) (list_to_map b) (list_to_map c))
  | _ => None
  end.

Lemma lists_index_of i : lists_index (index_lists i) = Some i.
Proof. destruct i as [a b c]. cbn. by rewrite !list_to_map_to_list. Qed.

Definition bad_index : error := ENew "invalid index".

Definition sample_decode (s : string) : result index :=
  match string_to_pos s ≫= decode with
  | Some l => match lists_index l with Some i => inr i | None => inl bad_index end
  | None => inl bad_index
  end.

#[export] Program Instance codec_sample : IndexCodec := {|
  encode_index i := pos_to_string (encode (index_lists i));
  decode_index := sample_decode;
  is_text _ := True;
|}.
Next Obligation.
  intros metas _. unfold sample_decode. rewrite string_to_pos_of. cbn [mbind option_bind].
  rewrite countable.decode_encode, lists_index_of. done.
Qed.

(** ** An operating system *)

(** No failure, no interference. *)
Definition fs_sample : FsEnv :=
  {| fe_MkdirAll _ := None; fe_ReadDir _ := None; fe_MkdirTemp _ := inr "1"; fe_Create _ _ := None;
     fe_Write _ _ := None; fe_Encode _ := None; fe_RemoveAll _ _ := None; fe_Rename _ := None;
     fe_Now _ := 5000000001; fe_Cancelled _ := false; fe_Gone _ := ∅ |}.

(** A garbage collection that deletes the temporary directory of catalog "c"
    just before it is renamed: from the given length of the history on. *)
Definition fs_collecting (n : nat) : FsEnv :=
  {| fe_MkdirAll _ := None; fe_ReadDir _ := None; fe_MkdirTemp _ := inr "1"; fe_Create _ _ := None;
     fe_Write _ _ := None; fe_Encode _ := None; fe_RemoveAll _ _ := None; fe_Rename _ := None;
     fe_Now _ := 5000000001; fe_Cancelled _ := false;
     fe_Gone h := if (length h <? n)%nat then ∅ else {[(".c-1", Some catalogFile)]} |}.

(** A clock that prints seconds in unary. *)
Fixpoint ticks (n : nat) : string := match n with O => "s" | S n => String "i"%char (ticks n) end.
Fixpoint unticks (s : string) : option nat :=
  match s with
  | "s" => Some 0%nat
  | String c s' => if bool_decide (c = "i"%char) then S <$> unticks s' else None
  | _ => None
  end.

Definition format_sample (t : Z) : string := ticks (Z.to_nat (t / Second)).
Definition parse_sample (l : layout) (s : string) : result Z :=
  match unticks s with Some n => inr (Z.of_nat n * Second) | None => inl (ENew "cannot parse") end.

(** ** controller-runtime's finalizers *)

Definition finalize_sample {W : Type} (key : string)
    (f : ClusterCatalog -> IO W (ClusterCatalog * finalizerResult * option error)) (c : ClusterCatalog)
  : IO W (ClusterCatalog * finalizerResult * option error) :=
  if decide (key ∈ cat_finalizers c) then
    match m_DeletionTimestamp (cat_Meta c) with
    | None => io_ret (c, mkFinResult false false, None)
    | Some _ =>
        let* r := f c in
        let '(c', fr, err) := r in
        match err with
        | None => io_ret (RemoveFinalizer key c', mkFinResult true (StatusUpdated fr), None)
        | Some e => io_ret (c', fr, Some (EWrap "finalizer failed: " e ""))
        end
    end
  else match m_DeletionTimestamp (cat_Meta c) with
       | None => io_ret (AddFinalizer key c, mkFinResult true false, None)
       | Some _ => io_ret (c, mkFinResult false false, None)
       end.

#[export] Program Instance finalizers_sample : CRFinalizers := {| Finalize _ := finalize_sample |}.
Next Obligation.
  intros W key f c w [H1 H2]. cbn. unfold finalize_sample. destruct (decide (key ∈ cat_finalizers c)) as [Hin|Hin].
  - by rewrite (H2 Hin).
  - destruct (m_DeletionTimestamp _); [done|]. by destruct Hin; apply H1.
Qed.
Next Obligation.
  intros W key f c w H1 H2. cbn. unfold finalize_sample. rewrite decide_False by done. by rewrite H1.
Qed.
Next Obligation.
  intros W key f c w H1 H2. cbn. unfold finalize_sample. rewrite decide_True by done.
  destruct (m_DeletionTimestamp _); [|done]. rewrite io_bind_run. destruct (f c w) as [[[c' fr] [e|]] w']; cbn; [|done].
  by eexists.
Qed.
