(* ===== verification/CatalogStoreProps.v ===== *)
(** * Correctness of catalogd's storage

    Every state the storage passes through, also one a crash or a concurrent
    garbage collection leaves behind, holds for each catalog only files of one
    and the same store: catalog.jsonl with the blobs and index.json with the
    index of those blobs. *)

From Stdlib Require Import Ascii.
From S2P Require Import Prelude GoErrors CatalogIndex CatalogStore CatalogServe CatalogCtrl CatalogInstances.

(** ** Triples

    [triple I P m Q]: run in a state with [P], [m] passes only through states
    with [I], and leaves a result and a state with [Q]. *)
Definition triple (I P : disk -> Prop) {A} (m : IO W A) (Q : A -> disk -> Prop) : Prop :=
  forall h, P (cur h) -> exists t, (m h).2 = h ++ t /\ Forall I t /\ Q (m h).1 (cur (h ++ t)).

Lemma triple_ret (I P : disk -> Prop) {A} (a : A) (Q : A -> disk -> Prop) :
  (forall d, P d -> Q a d) -> triple I P (io_ret a) Q.
Proof. intros H h HP. exists []. rewrite app_nil_r. split_and!; [done|constructor|by apply H]. Qed.

Lemma triple_bind (I P : disk -> Prop) {A B} (m : IO W A) (k : A -> IO W B) (Q : A -> disk -> Prop) R :
  triple I P m Q -> (forall a, triple I (Q a) (k a) R) -> triple I P (io_bind m k) R.
Proof.
  intros Hm Hk h HP. destruct (Hm h HP) as (t & Et & Ht & HQ). destruct (Hk _ _ HQ) as (t' & Et' & Ht' & HR).
  exists (t ++ t'). rewrite io_bind_run, Et, Et', <- app_assoc. rewrite <- app_assoc in HR.
  split_and!; [done|by apply Forall_app|done].
Qed.

Lemma triple_conseq (I P P' : disk -> Prop) {A} (m : IO W A) (Q Q' : A -> disk -> Prop) :
  triple I P m Q -> (forall d, P' d -> P d) -> (forall a d, Q a d -> Q' a d) -> triple I P' m Q'.
Proof. intros Hm HP HQ h H. destruct (Hm h (HP _ H)) as (t & ? & ? & ?). exists t. auto. Qed.

Lemma triple_observe (I P : disk -> Prop) {A} (f : W -> A) (Q : A -> disk -> Prop) :
  (forall h, P (cur h) -> Q (f h) (cur h)) -> triple I P (observe f) Q.
Proof. intros H h HP. exists []. rewrite app_nil_r. split_and!; [done|constructor|by apply H]. Qed.

Lemma cur_snoc h d : cur (h ++ [d]) = d.
Proof. unfold cur. by rewrite last_snoc. Qed.

Lemma triple_op E (I P : disk -> Prop) {A} (f : W -> disk -> A * disk) (Q : A -> disk -> Prop) :
  (forall h d, P d -> let d' := shrink (fe_Gone E h) d in I d' /\ I (f h d').2 /\ Q (f h d').1 (f h d').2) ->
  triple I P (os_op E f) Q.
Proof.
  intros H h HP. specialize (H h (cur h) HP). unfold os_op. set (d := shrink _ _) in *. cbv zeta in H.
  destruct (f h d) as [a d'] eqn:E'. cbn in H. destruct H as (Hd & Hd' & HQ). exists [d; d'].
  change (h ++ [d; d']) with (h ++ ([d] ++ [d'])). rewrite app_assoc, cur_snoc. split_and!; [done| |done].
  repeat constructor; done.
Qed.

Lemma triple_try (I P : disk -> Prop) ctx m k (Q R : option error -> disk -> Prop) :
  triple I P m Q -> (forall e d, Q (Some e) d -> R (Some (ctx e)) d) -> triple I (Q None) k R ->
  triple I P (unless_err ctx m k) R.
Proof.
  intros Hm He Hk. apply (triple_bind I P m _ Q); [done|]. intros [e|]; [|done]. apply triple_ret. auto.
Qed.

(** ** Consistent states *)

Definition hidden (name : string) : bool := strings_HasPrefix name ".".

(** The files of a catalog directory hold nothing but the given contents. *)
Definition files_are (c i : option string) (fs : gmap string file) : Prop :=
  forall f x, fs !! f = Some x -> exists data t, x = Regular data t /\
    ((f = catalogFile /\ c = Some data) \/ (f = indexFile /\ i = Some data)).

Section Consistency.
Context `{IC : IndexCodec} (good : list Meta -> Prop).

Definition consistent_files (fs : gmap string file) : Prop :=
  exists metas, good metas /\ files_are (Some (blobs metas)) (Some (encode_index (newIndex metas))) fs.

Definition consistent (d : disk) : Prop :=
  forall name fs, hidden name = false -> entries d !! name = Some (EDir fs) -> consistent_files fs.

Lemma files_are_sub c i fs fs' : files_are c i fs -> fs' ⊆ fs -> files_are c i fs'.
Proof. intros H Hs f x Hf. apply H. by apply (lookup_weaken fs' fs). Qed.

Lemma consistent_files_sub fs fs' : consistent_files fs -> fs' ⊆ fs -> consistent_files fs'.
Proof. intros (metas & Hg & H) Hs. exists metas. split; [done|]. by apply (files_are_sub _ _ fs). Qed.

(** *** What others delete *)

Lemma shrink_lookup gone d name fs :
  entries (shrink gone d) !! name = Some (EDir fs) ->
  exists fs0, entries d !! name = Some (EDir fs0) /\ fs ⊆ fs0.
Proof.
  destruct d as [es|]; cbn; [|done]. rewrite map_lookup_imap. destruct (es !! name) as [e|]; cbn; [|done].
  unfold shrink_entry. destruct (decide _); [done|]. destruct e as [fs0|]; [|done]. intros [= <-].
  exists fs0. split; [done|]. apply map_filter_subseteq.
Qed.

Lemma shrink_empty d : shrink ∅ d = d.
Proof.
  destruct d as [es|]; cbn; [|done]. f_equal. apply map_eq. intros name. rewrite map_lookup_imap.
  destruct (es !! name) as [e|]; cbn; [|done]. unfold shrink_entry. rewrite decide_False by set_solver.
  destruct e as [fs|]; [|done]. do 2 f_equal. apply map_filter_id. intros f x _. set_solver.
Qed.

Lemma consistent_shrink gone d : consistent d -> consistent (shrink gone d).
Proof.
  intros H name fs Hh (fs0 & H0 & Hs)%shrink_lookup. eapply consistent_files_sub; [by eapply H|done].
Qed.

(** A state whose catalog directories are those of another, or parts of them. *)
Lemma consistent_le d d' :
  (forall name fs, hidden name = false -> entries d' !! name = Some (EDir fs) ->
     exists fs0, entries d !! name = Some (EDir fs0) /\ fs ⊆ fs0) ->
  consistent d -> consistent d'.
Proof.
  intros Hle H name fs Hh Hl. destruct (Hle _ _ Hh Hl) as (fs0 & H0 & Hs).
  eapply consistent_files_sub; [by eapply H|done].
Qed.

Lemma remove_entry_lookup name left d n fs :
  entries (remove_entry name left d) !! n = Some (EDir fs) ->
  exists fs0, entries d !! n = Some (EDir fs0) /\ fs ⊆ fs0.
Proof.
  destruct d as [es|]; cbn; [|done]. destruct (decide (n = name)) as [->|Hne].
  - destruct left as [keep|], (es !! name) as [[fs0|]|] eqn:E; rewrite ?lookup_delete_eq; try done.
    + rewrite lookup_insert_eq. intros [= <-]. exists fs0. split; [done|]. apply map_filter_subseteq.
    + by rewrite E.
  - assert (Hsame : es !! n = Some (EDir fs) -> exists fs0, es !! n = Some (EDir fs0) /\ fs ⊆ fs0) by (intros; by exists fs).
    destruct left as [keep|], (es !! name) as [[fs0|]|]; rewrite ?lookup_delete_ne, ?lookup_insert_ne by done; done.
Qed.

Lemma remove_entry_other name left d n : n <> name -> entries (remove_entry name left d) !! n = entries d !! n.
Proof.
  intros Hn. destruct d as [es|]; cbn; [|done].
  destruct left as [keep|], (es !! name) as [[fs0|]|]; rewrite ?lookup_delete_ne, ?lookup_insert_ne by done; done.
Qed.

Lemma put_file_other dir f x d n : n <> dir -> entries (put_file dir f x d) !! n = entries d !! n.
Proof.
  intros Hn. destruct d as [es|]; cbn; [|done].
  destruct (es !! dir) as [[fs|]|]; rewrite ?lookup_insert_ne by done; done.
Qed.

Lemma put_file_lookup dir f x d :
  entries (put_file dir f x d) !! dir =
  match entries d !! dir with Some (EDir fs) => Some (EDir (<[f := x]> fs)) | o => o end.
Proof.
  destruct d as [es|]; cbn; [|done]. destruct (es !! dir) as [[fs|]|] eqn:E; [|done..]. apply lookup_insert_eq.
Qed.

(** ** A store *)

Section OneStore.
Context (E : FsEnv) (catalog : string) (d0 : disk) (Hcat : hidden catalog = false).

(** No garbage collection meanwhile. *)
Definition quiet : Prop := forall h, fe_Gone E h = ∅.

(** The other catalogs are as they were. *)
Definition frame (d : disk) : Prop :=
  quiet -> forall n, hidden n = false -> n <> catalog -> entries d !! n = entries d0 !! n.

Definition Base (d : disk) : Prop := consistent d /\ frame d.

Definition has_file (f : string) (c : option string) (fs : gmap string file) : Prop :=
  forall data, c = Some data -> exists t, fs !! f = Some (Regular data t).

(** The directory holds at most the given contents, and exactly them if
    nothing is deleted meanwhile. *)
Definition holding (dir : string) (c i : option string) (d : disk) : Prop :=
  (forall fs, entries d !! dir = Some (EDir fs) -> files_are c i fs) /\
  (quiet -> exists fs, entries d !! dir = Some (EDir fs) /\ has_file catalogFile c fs /\ has_file indexFile i fs).

Lemma shrink_quiet h d : quiet -> shrink (fe_Gone E h) d = d.
Proof. intros Hq. by rewrite Hq, shrink_empty. Qed.

Lemma Base_shrink h d : Base d -> Base (shrink (fe_Gone E h) d).
Proof.
  intros [H1 H2]. split; [by apply consistent_shrink|]. intros Hq. rewrite shrink_quiet by done. by apply H2.
Qed.

Lemma holding_shrink h dir c i d : holding dir c i d -> holding dir c i (shrink (fe_Gone E h) d).
Proof.
  intros [H1 H2]. split.
  - intros fs (fs0 & H0 & Hs)%shrink_lookup. eapply files_are_sub; [by apply H1|done].
  - intros Hq. rewrite shrink_quiet by done. by apply H2.
Qed.

(** Nothing but the entry [name] changed, which is not a catalog's or is the
    catalog's own. *)
Lemma Base_touch name d d' :
  (hidden name = true \/ name = catalog) ->
  (forall n, n <> name -> entries d' !! n = entries d !! n) ->
  (name = catalog -> forall fs, entries d' !! catalog = Some (EDir fs) -> consistent_files fs) ->
  Base d -> Base d'.
Proof.
  intros Hn Hsame Hcat' [H1 H2]. split.
  - intros n fs Hh Hl. destruct (decide (n = name)) as [->|Hne].
    + destruct Hn as [Hn| ->]; [congruence|by apply Hcat'].
    + apply (H1 n fs Hh). by rewrite <- Hsame.
  - intros Hq n Hh Hne. rewrite Hsame; [by apply H2|]. intros ->. destruct Hn; congruence.
Qed.

Lemma Base_remove name left d :
  (hidden name = true \/ name = catalog) -> Base d -> Base (remove_entry name left d).
Proof.
  intros Hn HB. apply (Base_touch name d); [done|intros; by apply remove_entry_other| |done].
  intros -> fs (fs0 & H0 & Hs)%remove_entry_lookup. eapply consistent_files_sub; [by eapply HB|done].
Qed.

Lemma holding_other dir c i d d' :
  entries d' !! dir = entries d !! dir -> holding dir c i d -> holding dir c i d'.
Proof. intros E1 [H1 H2]. split; [intros fs; rewrite E1; apply H1|intros Hq; rewrite E1; by apply H2]. Qed.

Lemma hidden_dot (s : string) : hidden ("." +:+ s) = true.
Proof. by destruct s. Qed.

Lemma prefix_hidden name : strings_HasPrefix name (temp_prefix catalog) = true -> hidden name = true.
Proof.
  unfold hidden, temp_prefix. change ("." +:+ catalog +:+ "-") with (String "."%char (catalog +:+ "-")).
  destruct name as [|x name]; [done|]. cbn. rewrite !andb_true_iff. by destruct name; intuition.
Qed.

(** *** The calls of a store *)

Lemma MkdirAll_ok : triple Base Base (MkdirAll E) (fun _ => Base).
Proof.
  apply triple_op. intros h d HB d'. pose proof (Base_shrink h _ HB) as HB'. fold d' in HB'.
  destruct (fe_MkdirAll E h); cbn; [done|]. split_and!; [done|destruct d'; exact HB'..].
Qed.

Lemma RemoveAll_ok name (P : disk -> Prop) :
  (hidden name = true \/ name = catalog) ->
  (forall h d, P d -> P (shrink (fe_Gone E h) d)) -> (forall left d, P d -> P (remove_entry name left d)) ->
  triple Base (fun d => Base d /\ P d) (RemoveAll E name) (fun _ d => Base d /\ P d).
Proof.
  intros Hn HS HR. apply triple_op. intros h d [HB HP] d'. pose proof (Base_shrink h _ HB) as HB'. fold d' in HB'.
  pose proof (HS h _ HP) as HP'. fold d' in HP'.
  destruct (fe_RemoveAll E h name) as [[e keep]|]; cbn; split_and!; auto using Base_remove.
Qed.

Lemma RemoveAll_base name : (hidden name = true \/ name = catalog) -> triple Base Base (RemoveAll E name) (fun _ => Base).
Proof.
  intros Hn. eapply triple_conseq; [apply (RemoveAll_ok name (fun _ => True)); done| |]; cbn; tauto.
Qed.

Lemma remove_orphans_ok es : triple Base Base (remove_orphans E (temp_prefix catalog) es) (fun _ => Base).
Proof.
  induction es as [|[name e] es IH]; cbn [remove_orphans]; [by apply triple_ret|].
  apply triple_try with (Q := fun _ => Base); [|done|done].
  destruct (strings_HasPrefix name (temp_prefix catalog)) eqn:Hp; [|by apply triple_ret].
  apply triple_try with (Q := fun _ => Base); [|done|by apply triple_ret].
  apply RemoveAll_base. left. by apply prefix_hidden.
Qed.

Lemma list_entries_ok : triple Base Base (list_entries E) (fun _ => Base).
Proof. apply triple_op. intros h d HB d'. cbn. split_and!; by apply Base_shrink. Qed.

Lemma removeOrphanedTempDirs_ok : triple Base Base (removeOrphanedTempDirs E catalog) (fun _ => Base).
Proof.
  eapply triple_bind; [apply list_entries_ok|]. intros [e|es]; [by apply triple_ret|apply remove_orphans_ok].
Qed.

Lemma MkdirTemp_ok :
  triple Base Base (MkdirTemp E catalog)
    (fun r d => match r with
                | inl _ => Base d
                | inr dir => hidden dir = true /\ Base d /\ holding dir None None d
                end).
Proof.
  apply triple_op. intros h d HB d'. pose proof (Base_shrink h _ HB) as HB'. fold d' in HB'. clearbody d'.
  destruct (fe_MkdirTemp E h) as [e|suffix]; cbn; [done|]. destruct d' as [es|]; cbn; [|done].
  set (name := temp_prefix catalog +:+ suffix). assert (Hh : hidden name = true) by apply hidden_dot.
  destruct (es !! name) eqn:El; cbn; [done|].
  assert (HB2 : Base (Some (<[name := EDir ∅]> es))).
  { apply (Base_touch name (Some es)); [by left| | |done].
    - intros n Hn. cbn. by rewrite lookup_insert_ne.
    - intros ->. congruence. }
  assert (Hl : entries (Some (<[name := EDir ∅]> es)) !! name = Some (EDir ∅)) by apply lookup_insert_eq.
  do 4 (split; [done|]). split.
  - intros fs. rewrite Hl. intros [= <-] f x. by rewrite lookup_empty.
  - intros _. by exists ∅.
Qed.
(** Content of the two files by name. *)
Definition set_content (f : string) (data : string) (ci : option string * option string)
  : option string * option string :=
  if decide (f = catalogFile) then (Some data, ci.2) else (ci.1, Some data).

Definition staged (dir : string) (ci : option string * option string) (d : disk) : Prop :=
  Base d /\ holding dir ci.1 ci.2 d.

Definition data_file (f : string) : Prop := f = catalogFile \/ f = indexFile.

Lemma Base_put dir f x d : hidden dir = true -> Base d -> Base (put_file dir f x d).
Proof.
  intros Hh HB. apply (Base_touch dir d); [by left|intros; by apply put_file_other| |done]. intros ->. congruence.
Qed.

(** Writing a file, or one that is gone. *)
Lemma files_are_set f data t ci fs :
  data_file f -> files_are ci.1 ci.2 fs ->
  files_are (set_content f data ci).1 (set_content f data ci).2 (<[f := Regular data t]> fs).
Proof.
  intros Hf H g x. destruct (decide (g = f)) as [->|Hne].
  - rewrite lookup_insert_eq. intros [= <-]. exists data, t. split; [done|]. unfold set_content.
    destruct (decide (f = catalogFile)) as [->|]; [by left|]. right. destruct Hf; [done|]. done.
  - rewrite lookup_insert_ne by done. intros Hg. destruct (H _ _ Hg) as (dat & t' & -> & Ho). exists dat, t'.
    split; [done|]. unfold set_content. destruct (decide (f = catalogFile)) as [->|Hn]; cbn.
    + destruct Ho as [[-> _]|Ho]; [done|by right].
    + destruct Ho as [Ho|[-> _]]; [by left|]. destruct Hf as [->| ->]; done.
Qed.

Lemma has_file_set f data t ci fs :
  data_file f -> has_file catalogFile ci.1 fs -> has_file indexFile ci.2 fs ->
  has_file catalogFile (set_content f data ci).1 (<[f := Regular data t]> fs) /\
  has_file indexFile (set_content f data ci).2 (<[f := Regular data t]> fs).
Proof.
  intros Hf Hc Hi. unfold set_content.
  assert (Hnew : forall g, g = f -> has_file g (Some data) (<[f := Regular data t]> fs)).
  { intros g -> dat [= <-]. exists t. apply lookup_insert_eq. }
  assert (Hold : forall g c, g <> f -> has_file g c fs -> has_file g c (<[f := Regular data t]> fs)).
  { intros g c Hg H dat Hd. rewrite lookup_insert_ne by done. by apply H. }
  destruct Hf as [->| ->].
  - rewrite decide_True by done. cbn. split; [by apply Hnew|by apply Hold].
  - rewrite decide_False by done. cbn. split; [by apply Hold|by apply Hnew].
Qed.

Lemma staged_put dir f data t ci d fs0 :
  hidden dir = true -> data_file f -> entries d !! dir = Some (EDir fs0) ->
  staged dir ci d -> staged dir (set_content f data ci) (put_file dir f (Regular data t) d).
Proof.
  intros Hh Hf H0 [HB [H1 H2]]. split; [by apply Base_put|]. split.
  - intros fs. rewrite put_file_lookup, H0. intros [= <-]. apply files_are_set; [done|by apply H1].
  - intros Hq. destruct (H2 Hq) as (fs & Hfs & Hc & Hi). rewrite H0 in Hfs. injection Hfs as ->.
    exists (<[f := Regular data t]> fs). rewrite put_file_lookup, H0. split; [done|]. by apply has_file_set.
Qed.

Lemma files_are_gone f data ci fs :
  data_file f -> fs !! f = None -> files_are ci.1 ci.2 fs ->
  files_are (set_content f data ci).1 (set_content f data ci).2 fs.
Proof.
  intros Hf Hn H g x Hg. destruct (H g x Hg) as (dat & t & -> & Ho). exists dat, t. split; [done|].
  unfold set_content. destruct (decide (f = catalogFile)) as [->|Hc]; cbn.
  - destruct Ho as [[-> _]|Ho]; [congruence|by right].
  - destruct Ho as [Ho|[-> Ho]]; [by left|]. destruct Hf as [->| ->]; congruence.
Qed.

(** After a call that may fail: the expected content on success. *)
Definition staged_or (dir : string) (ci : option string * option string) (err : option error) (d : disk) : Prop :=
  Base d /\ (err = None -> holding dir ci.1 ci.2 d).

Lemma Create_ok dir f ci :
  hidden dir = true -> data_file f ->
  triple Base (staged dir ci) (Create E dir f) (staged_or dir (set_content f EmptyString ci)).
Proof.
  intros Hh Hf. apply triple_op. intros h d [HB HH] d'.
  pose proof (Base_shrink h _ HB) as HB'. pose proof (holding_shrink h _ _ _ _ HH) as HH'. fold d' in HB', HH'. clearbody d'.
  destruct (fe_Create E h f); cbn; [done|]. destruct (entries d' !! dir) as [[fs|]|] eqn:El; [|done..]. cbn.
  destruct (staged_put dir f EmptyString (fe_Now E h) ci d' fs Hh Hf El (conj HB' HH')) as [HB2 HH2]. done.
Qed.

Lemma Write_ok dir f ci fails written data :
  hidden dir = true -> data_file f ->
  triple Base (staged dir (set_content f written ci)) (Write E dir f fails written data)
    (staged_or dir (set_content f (written +:+ data) ci)).
Proof.
  intros Hh Hf. apply triple_op. intros h d [HB HH] d'.
  pose proof (Base_shrink h _ HB) as HB'. pose proof (holding_shrink h _ _ _ _ HH) as HH'. fold d' in HB', HH'. clearbody d'.
  assert (Hci : set_content f (written +:+ data) (set_content f written ci) = set_content f (written +:+ data) ci).
  { unfold set_content. by destruct (decide (f = catalogFile)). }
  destruct (fails h); cbn; [done|]. destruct (dir_files d' dir !! f) as [x|] eqn:Ef; cbn.
  - unfold dir_files in Ef. destruct (entries d' !! dir) as [[fs|]|] eqn:El; [|done..].
    destruct (staged_put dir f (written +:+ data) (fe_Now E h) _ d' fs Hh Hf El (conj HB' HH')) as [HB2 HH2].
    rewrite Hci in HH2. done.
  - do 3 (split; [done|]). intros _. destruct HH' as [H1 H2]. split.
    + intros fs El. unfold dir_files in Ef. rewrite El in Ef. rewrite <- Hci. apply files_are_gone; auto.
    + intros Hq. destruct (H2 Hq) as (fs & El & Hc & Hi). exfalso. unfold dir_files in Ef. rewrite El in Ef.
      destruct Hf as [->| ->]; [destruct (Hc written eq_refl) as [t Ht]|destruct (Hi written eq_refl) as [t Ht]]; congruence.
Qed.
Lemma write_blobs_ok dir metas written ci :
  hidden dir = true ->
  triple Base (staged dir (set_content catalogFile written ci)) (write_blobs E dir written metas)
    (staged_or dir (set_content catalogFile (written +:+ blobs metas) ci)).
Proof.
  intros Hh. revert written. induction metas as [|m metas IH]; intros written; cbn [write_blobs].
  - apply triple_ret. intros d [HB HH]. split; [done|]. intros _. change (blobs []) with EmptyString.
    by rewrite str_app_nil.
  - eapply triple_try; [by apply Write_ok; [|left]|intros e d [HB _]; by split|].
    rewrite blobs_cons, str_app_assoc. eapply triple_conseq; [apply IH| |done].
    intros d [HB HH]. split; [done|by apply HH].
Qed.

Lemma storeCatalogData_ok dir metas :
  hidden dir = true ->
  triple Base (staged dir (None, None)) (storeCatalogData E dir metas) (staged_or dir (Some (blobs metas), None)).
Proof.
  intros Hh. eapply triple_try; [by apply Create_ok; [|left]|intros e d [HB _]; by split|].
  eapply triple_conseq; [by apply (write_blobs_ok dir metas EmptyString (None, None))| |done].
  intros d [HB HH]. split; [done|by apply HH].
Qed.

Lemma storeIndexData_ok dir metas c :
  hidden dir = true ->
  triple Base (staged dir (c, None)) (storeIndexData E dir metas)
    (staged_or dir (c, Some (encode_index (newIndex metas)))).
Proof.
  intros Hh. eapply triple_try; [by apply Create_ok; [|right]|intros e d [HB _]; by split|].
  eapply triple_conseq; [apply (Write_ok dir indexFile (c, None) _ EmptyString)| |]; [done|by right| |].
  - intros d [HB HH]. split; [done|by apply HH].
  - done.
Qed.

Definition stored_content (enable : bool) (metas : list Meta) : option string * option string :=
  (Some (blobs metas), if enable then Some (encode_index (newIndex metas)) else None).

Lemma run_writers_ok enable dir metas :
  hidden dir = true ->
  triple Base (staged dir (None, None)) (run_writers E enable dir metas) (staged_or dir (stored_content enable metas)).
Proof.
  intros Hh. eapply triple_try; [by apply storeCatalogData_ok|intros e d [HB _]; by split|].
  destruct enable.
  - eapply triple_conseq; [by apply (storeIndexData_ok dir metas (Some (blobs metas)))| |done].
    intros d [HB HH]. split; [done|by apply HH].
  - apply triple_ret. intros d [HB HH]. split; [done|]. intros _. by apply HH.
Qed.

(** The catalog is there. *)
Definition stored (enable : bool) (metas : list Meta) (d : disk) : Prop :=
  exists fs, entries d !! catalog = Some (EDir fs) /\
    has_file catalogFile (stored_content enable metas).1 fs /\ has_file indexFile (stored_content enable metas).2 fs.

Lemma Rename_ok dir enable metas :
  hidden dir = true -> good metas ->
  triple Base (staged dir (stored_content enable metas)) (Rename E dir catalog)
    (fun r d => Base d /\ (r = None -> quiet -> stored enable metas d)).
Proof.
  intros Hh Hg. apply triple_op. intros h d [HB HH] d'.
  pose proof (Base_shrink h _ HB) as HB'. pose proof (holding_shrink h _ _ _ _ HH) as HH'. fold d' in HB', HH'. clearbody d'.
  destruct (fe_Rename E h); cbn; [done|]. destruct (entries d' !! dir) as [x|] eqn:El; cbn; [|done].
  destruct d' as [es|]; [|done]. cbn in El. set (d2 := Some (<[catalog := x]> (delete dir es)) : disk).
  assert (Hne : catalog <> dir) by congruence.
  assert (Hl : entries d2 !! catalog = Some x) by apply lookup_insert_eq.
  assert (HB2 : Base d2).
  { apply (Base_touch catalog (Some (delete dir es))); [by right| | |].
    - intros n Hn. cbn. by rewrite lookup_insert_ne.
    - intros _ fs. rewrite Hl. intros [= ->]. destruct HH' as [H1 _]. exists metas. split; [done|].
      intros f y Hf. destruct (H1 fs El f y Hf) as (dat & t & -> & Ho). exists dat, t. split; [done|].
      destruct Ho as [Ho|[-> Ho]]; [by left|]. right. split; [done|]. destruct enable; [done|discriminate Ho].
    - apply (Base_touch dir (Some es)); [by left| | |done].
      + intros n Hn. cbn. by rewrite lookup_delete_ne.
      + congruence. }
  do 3 (split; [done|]). intros _ Hq. destruct (proj2 HH' Hq) as (fs & Hfs & Hc & Hi). cbn in Hfs.
  exists fs. split; [|done]. transitivity (Some x); [exact Hl|congruence].
Qed.
Lemma stored_remove dir enable metas left d :
  dir <> catalog -> stored enable metas d -> stored enable metas (remove_entry dir left d).
Proof. intros Hn (fs & Hfs & H). exists fs. split; [|done]. rewrite remove_entry_other by congruence. done. Qed.

(** What holds when Store returns. *)
Definition store_post (enable : bool) (metas : list Meta) (r : option error) (d : disk) : Prop :=
  Base d /\ (r = None -> quiet -> stored enable metas d).

Lemma store_temp_ok enable dir walk :
  hidden dir = true -> (walk.2 = None -> good walk.1) ->
  triple Base (staged dir (None, None)) (store_temp E enable catalog dir walk) (store_post enable walk.1).
Proof.
  intros Hh Hg. eapply triple_bind; [by apply run_writers_ok|]. intros werr.
  apply triple_bind with (Q := fun _ => staged_or dir (stored_content enable walk.1) werr); [by apply triple_observe|].
  intros cancelled. destruct walk as [metas [e|]]; cbn [fst snd] in *; [apply triple_ret; intros d [HB _]; by split|].
  destruct werr as [e|]; [apply triple_ret; intros d [HB _]; by split|].
  assert (Hne : dir <> catalog) by congruence.
  apply triple_bind with (Q := fun _ => staged dir (stored_content enable metas)).
  - eapply triple_conseq; [apply (RemoveAll_ok catalog (holding dir (stored_content enable metas).1 (stored_content enable metas).2))| |].
    + by right.
    + intros h d. apply holding_shrink.
    + intros left d. apply holding_other. by apply remove_entry_other.
    + intros d [HB HH]. split; [done|by apply HH].
    + done.
  - intros e1. eapply triple_bind; [apply (Rename_ok dir enable metas); auto|]. intros e2. apply triple_ret.
    intros d [HB HS]. split; [done|]. intros Hj. apply HS. by destruct e1, e2.
Qed.

Lemma Store_ok enable walk :
  (walk.2 = None -> good walk.1) -> triple Base Base (Store E enable catalog walk) (store_post enable walk.1).
Proof.
  intros Hg. eapply triple_try; [apply MkdirAll_ok|intros e d HB; by split|].
  eapply triple_try; [apply removeOrphanedTempDirs_ok|intros e d HB; by split|].
  eapply triple_bind; [apply MkdirTemp_ok|]. intros [e|dir]; [apply triple_ret; intros d HB; by split|].
  intros h (Hh & HB & HH). revert h HB HH.
  assert (Hne : dir <> catalog) by congruence.
  enough (HT : triple Base (staged dir (None, None))
     (io_bind (store_temp E enable catalog dir walk) (fun err => io_bind (RemoveAll E dir) (fun _ => io_ret err)))
     (store_post enable walk.1)) by (intros h HB HH; by apply HT).
  eapply triple_bind; [by apply store_temp_ok|]. intros r.
  apply triple_bind with (Q := fun _ => store_post enable walk.1 r); [|intros a; by apply triple_ret].
  eapply triple_conseq; [apply (RemoveAll_ok dir (fun d => r = None -> quiet -> stored enable walk.1 d))|done|done].
  - by left.
  - intros h d HS Hr Hq. rewrite shrink_quiet by done. by apply HS.
  - intros left d HS Hr Hq. by apply stored_remove; [|apply HS].
Qed.

Lemma Delete_ok : triple Base Base (Delete E catalog)
  (fun r d => Base d /\ (r = None -> entries d !! catalog = None)).
Proof.
  apply triple_op. intros h d HB d'. pose proof (Base_shrink h _ HB) as HB'. fold d' in HB'. clearbody d'.
  destruct (fe_RemoveAll E h catalog) as [[e keep]|]; cbn; (do 2 (split; [auto using Base_remove|])).
  - split; [auto using Base_remove|done].
  - split; [auto using Base_remove|]. intros _. destruct d' as [es|]; [|done]. apply lookup_delete_eq.
Qed.
End OneStore.
End Consistency.

(** ** Every reachable state *)

Section Reachability.
Context `{IC : IndexCodec} (good : list Meta -> Prop).

(** The states the storage passes through: whole stores, deletions and garbage
    collections from a reachable state, each left at any point by a crash. *)
Inductive reach : disk -> Prop :=
| reach_none : reach None
| reach_empty : reach (Some ∅)
| reach_store E enable catalog walk h t d :
    reach (cur h) -> hidden catalog = false -> (walk.2 = None -> good walk.1) ->
    (Store E enable catalog walk h).2 = h ++ t -> d ∈ t -> reach d
| reach_delete E catalog h t d :
    reach (cur h) -> hidden catalog = false -> (Delete E catalog h).2 = h ++ t -> d ∈ t -> reach d
| reach_gc E catalogs h t d :
    reach (cur h) -> (runGarbageCollection E catalogs h).2 = h ++ t -> d ∈ t -> reach d.

Lemma triple_states (I P : disk -> Prop) {A} (m : IO W A) Q h t d :
  triple I P m Q -> P (cur h) -> (m h).2 = h ++ t -> d ∈ t -> I d.
Proof.
  intros Hm HP E Hd. destruct (Hm h HP) as (t' & E' & Ht & _). rewrite E in E'. apply app_inv_head in E' as ->.
  rewrite Forall_forall in Ht. by apply Ht.
Qed.

Lemma remove_consistent E name :
  triple (consistent good) (consistent good) (RemoveAll E name) (fun _ => consistent good).
Proof.
  assert (Hr : forall left d, consistent good d -> consistent good (remove_entry name left d)).
  { intros left d. apply consistent_le. intros n fs _. apply remove_entry_lookup. }
  apply triple_op. intros h d H d'. pose proof (consistent_shrink good (fe_Gone E h) d H) as H'. fold d' in H'.
  destruct (fe_RemoveAll E h name) as [[e keep]|]; cbn; auto.
Qed.

Lemma collect_consistent E names es removed :
  triple (consistent good) (consistent good) (collect E names es removed) (fun _ => consistent good).
Proof.
  revert removed. induction es as [|[name e] es IH]; intros removed; cbn [collect]; [by apply triple_ret|].
  destruct (match e with EDir _ => _ | EOther => _ end); [done|].
  eapply triple_bind; [apply remove_consistent|]. intros [err|]; [by apply triple_ret|done].
Qed.

Lemma gc_consistent E catalogs :
  triple (consistent good) (consistent good) (runGarbageCollection E catalogs) (fun _ => consistent good).
Proof.
  destruct catalogs as [err|names]; cbn; [by apply triple_ret|].
  apply triple_bind with (Q := fun _ => consistent good); [|intros [e|es]; [by apply triple_ret|apply collect_consistent]].
  apply triple_op. intros h d H d'. cbn. pose proof (consistent_shrink good (fe_Gone E h) d H). done.
Qed.

Lemma reach_consistent d : reach d -> consistent good d.
Proof.
  induction 1 as [| |E enable catalog walk h t d _ IH Hc Hg E' Hd|E catalog h t d _ IH Hc E' Hd|E catalogs h t d _ IH E' Hd].
  - intros name fs _. cbn. by rewrite lookup_empty.
  - intros name fs _. cbn. by rewrite lookup_empty.
  - eapply (triple_states _ _ _ _ h t d (Store_ok good E catalog (cur h) Hc enable walk Hg)) in E'; [apply E'| |done].
    split; [done|]. intros _ n _ _. done.
  - eapply (triple_states _ _ _ _ h t d (Delete_ok good E catalog (cur h) Hc)) in E'; [apply E'| |done].
    split; [done|]. intros _ n _ _. done.
  - by eapply (triple_states _ _ _ _ h t d (gc_consistent E catalogs)) in E'.
Qed.

(** C2. The storage is consistent in every state it can be found in: after
    any sequence of stores, deletions and garbage collections, each of which
    may fail, run against a garbage collection, or end in a crash at any point,
    the files of a catalog's directory all come from one complete store of it:
    catalog.jsonl, if there, holds all its blobs, and index.json, if there,
    the index of the very same blobs. *)
Theorem storage_consistent d : reach d -> consistent good d.
Proof. apply reach_consistent. Qed.

End Reachability.

(** ** What the storage promises to its clients *)

Lemma ContentExists_same enable stat_fails d d' c :
  entries d' !! c = entries d !! c -> ContentExists enable stat_fails d' c = ContentExists enable stat_fails d c.
Proof. intros H. unfold ContentExists, is_regular, dir_files. by rewrite H. Qed.

Section Promises.
Context {FS : Type} `{IC : IndexCodec} (good : list Meta -> Prop) (E : FsEnv) (enable : bool).
Context (walk : FS -> list Meta * option error) (JoinPath : string -> string).
Context (Hgood : forall fsys, (walk fsys).2 = None -> good (walk fsys).1).

Lemma stored_exists c metas d :
  stored c enable metas d -> ContentExists enable (fun _ => false) d c = true.
Proof.
  intros (fs & Hfs & Hc & Hi). unfold ContentExists, is_regular, dir_files. rewrite Hfs.
  destruct (Hc _ eq_refl) as [t ->]. cbn. destruct enable; [|done]. by destruct (Hi _ eq_refl) as [t' ->].
Qed.

Lemma Base_start c h : consistent good (cur h) -> Base good E c (cur h) (cur h).
Proof. intros H. split; [done|]. by intros _ n _ _. Qed.

(** A run of Store, as its triple describes it. *)
Lemma Store_run c fsys h :
  hidden c = false -> consistent good (cur h) ->
  store_post good E c (cur h) enable (walk fsys).1
    (Store E enable c (walk fsys) h).1 (cur (Store E enable c (walk fsys) h).2).
Proof.
  intros Hc Hi. destruct (Store_ok good E c (cur h) Hc enable (walk fsys) (Hgood fsys) h (Base_start c h Hi))
    as (t & -> & _ & HQ). exact HQ.
Qed.

Lemma Delete_run c h :
  hidden c = false -> consistent good (cur h) ->
  Base good E c (cur h) (cur (Delete E c h).2) /\
  ((Delete E c h).1 = None -> entries (cur (Delete E c h).2) !! c = None).
Proof.
  intros Hc Hi. destruct (Delete_ok good E c (cur h) Hc h (Base_start c h Hi)) as (t & -> & _ & HQ). exact HQ.
Qed.

Lemma LocalDirV1_laws :
  quiet E ->
  StorageLaws (LocalDirV1 E enable walk JoinPath) (fun c => hidden c = false) (fun h => consistent good (cur h)).
Proof.
  intros Hq. split; cbn.
  - intros c fsys h Hc Hi. apply (Store_run c fsys h Hc Hi).
  - intros c h Hc Hi. apply (Delete_run c h Hc Hi).
  - intros c fsys h Hc Hi Hr. apply (stored_exists c (walk fsys).1). by apply (Store_run c fsys h Hc Hi).
  - intros c h Hc Hi Hr. apply (Delete_run c h Hc Hi) in Hr. unfold ContentExists, is_regular, dir_files. by rewrite Hr.
  - intros c c' fsys h Hc Hc' Hi Hne. apply ContentExists_same. by apply (Store_run c fsys h Hc Hi).
  - intros c c' h Hc Hc' Hi Hne. apply ContentExists_same. by apply (Delete_run c h Hc Hi).
Qed.


End Promises.

(** ** Garbage collection *)

Section Collection.
Context (E : FsEnv) (Hq : quiet E).

Lemma cur_app h t d : cur (h ++ t ++ [d]) = d.
Proof. by rewrite app_assoc, cur_snoc. Qed.

(** A run of RemoveAll without interference. *)
Lemma RemoveAll_run name h :
  cur (RemoveAll E name h).2 =
  remove_entry name (match (fe_RemoveAll E h name) with Some (_, keep) => Some keep | None => None end) (cur h) /\
  ((RemoveAll E name h).1 = None -> fe_RemoveAll E h name = None).
Proof.
  unfold RemoveAll, os_op. rewrite (shrink_quiet E) by done.
  destruct (fe_RemoveAll E h name) as [[e keep]|]; cbn; (split; [apply (cur_app h [cur h])|done]).
Qed.

(** An entry the collection is meant to delete. *)
Definition doomed (names : gset string) (e : entry) (name : string) : bool :=
  negb match e with EDir _ => bool_decide (name ∈ names) | EOther => false end.

Lemma remove_entry_none name left d n : entries d !! n = None -> entries (remove_entry name left d) !! n = None.
Proof.
  destruct (decide (n = name)) as [->|Hne]; [|by rewrite remove_entry_other].
  destruct d as [es|]; [|done]. cbn. intros H. rewrite H. destruct left; apply lookup_delete_eq.
Qed.

Lemma collect_none names es removed h n :
  entries (cur h) !! n = None -> entries (cur (collect E names es removed h).2) !! n = None.
Proof.
  revert removed h. induction es as [|[name e] es IH]; intros removed h Hn; cbn [collect]; [done|].
  destruct (match e with EDir _ => _ | EOther => _ end); [by apply IH|]. rewrite io_bind_run.
  assert (Hr : entries (cur (RemoveAll E name h).2) !! n = None).
  { rewrite (proj1 (RemoveAll_run name h)). by apply remove_entry_none. }
  destruct (RemoveAll E name h).1; [done|by apply IH].
Qed.

Lemma collect_keeps names es removed h n :
  (forall e, (n, e) ∈ es -> doomed names e n = false) ->
  entries (cur (collect E names es removed h).2) !! n = entries (cur h) !! n.
Proof.
  revert removed h. induction es as [|[name e] es IH]; intros removed h Hn; cbn [collect]; [done|].
  destruct (match e with EDir _ => _ | EOther => _ end) eqn:Hk; [apply IH; set_solver|]. rewrite io_bind_run.
  assert (Hne : n <> name).
  { intros ->. specialize (Hn e (list_elem_of_here _ _)). unfold doomed in Hn. by rewrite Hk in Hn. }
  assert (Hr : entries (cur (RemoveAll E name h).2) !! n = entries (cur h) !! n).
  { rewrite (proj1 (RemoveAll_run name h)). by apply remove_entry_other. }
  destruct (RemoveAll E name h).1; [done|]. rewrite IH by set_solver. done.
Qed.

Lemma collect_removes names es removed h l n e :
  (collect E names es removed h).1 = inr l -> (n, e) ∈ es -> doomed names e n = true ->
  entries (cur (collect E names es removed h).2) !! n = None.
Proof.
  revert removed h. induction es as [|[name e'] es IH]; intros removed h; cbn [collect]; [set_solver|].
  intros Hr Hin Hd. destruct (match e' with EDir _ => _ | EOther => _ end) eqn:Hk.
  - apply elem_of_cons in Hin as [[= -> ->]|Hin]; [unfold doomed in Hd; by rewrite Hk in Hd|by apply IH].
  - rewrite io_bind_run in *. destruct (RemoveAll_run name h) as [Hc Hf].
    destruct (RemoveAll E name h).1; [done|]. apply elem_of_cons in Hin as [[= -> ->]|Hin]; [|by apply IH].
    apply collect_none. rewrite Hc, (Hf eq_refl). destruct (cur h) as [es'|]; [|done]. apply lookup_delete_eq.
Qed.

Lemma elem_of_ReadDir d n e : (n, e) ∈ ReadDir d <-> entries d !! n = Some e.
Proof. unfold ReadDir. by rewrite elem_of_sort_by, elem_of_map_to_list. Qed.

(** The garbage collector deletes what it should and nothing else: the
    directory of a catalog that exists is untouched, also when the collection
    fails, and after one that succeeds only such directories are left. *)
Theorem gc_exact names h :
  let '(r, h') := runGarbageCollection E (inr names) h in
  (forall n fs, n ∈ names -> entries (cur h) !! n = Some (EDir fs) -> entries (cur h') !! n = Some (EDir fs)) /\
  (forall removed, r = inr removed -> forall n e, entries (cur h') !! n = Some e -> n ∈ names /\ exists fs, e = EDir fs).
Proof.
  unfold runGarbageCollection. rewrite io_bind_run.
  assert (Hl : exists h1, (list_entries E h).2 = h1 /\ cur h1 = cur h /\
            forall es, (list_entries E h).1 = inr es -> es = ReadDir (cur h)).
  { unfold list_entries, os_op. rewrite (shrink_quiet E) by done. eexists. split; [done|]. cbn.
    split; [apply (cur_app h [cur h])|]. destruct (cur h), (fe_ReadDir E h); by intros es [= <-]. }
  destruct Hl as (h1 & -> & Hc & Hes). destruct ((list_entries E h).1) as [e|es]; cbn [io_ret].
  { split; [|done]. intros n fs _. by rewrite Hc. }
  rewrite (Hes es eq_refl). set (X := list_to_set names). destruct (collect E X _ [] h1) as [r h'] eqn:Ec.
  pose proof (collect_keeps X (ReadDir (cur h)) [] h1) as Hk. pose proof (collect_removes X (ReadDir (cur h)) [] h1) as Hr.
  rewrite Ec in Hk, Hr. cbn [fst snd] in Hk, Hr. split.
  - intros n fs Hn He. rewrite Hk; [by rewrite Hc|]. intros e He'%elem_of_ReadDir. rewrite He in He'. injection He' as <-.
    unfold doomed. rewrite bool_decide_true; [done|]. by apply elem_of_list_to_set.
  - intros removed -> n e He. destruct (entries (cur h) !! n) as [e0|] eqn:E0.
    + destruct (doomed X e0 n) eqn:Hd.
      { rewrite (Hr removed n e0 eq_refl) in He; [done|by apply elem_of_ReadDir|done]. }
      rewrite Hk, Hc, E0 in He.
      2:{ intros e' He'%elem_of_ReadDir. rewrite E0 in He'. by injection He' as <-. }
      injection He as ->. unfold doomed in Hd. destruct e as [fs|]; [|done].
      apply negb_false_iff, bool_decide_eq_true, elem_of_list_to_set in Hd. split; [done|by exists fs].
    + rewrite Hk, Hc, E0 in He; [done|]. intros e' He'%elem_of_ReadDir. congruence.
Qed.

End Collection.

(** ** Runs *)

Module StoreSamples.

(** The history of storing the sample catalog into a new directory. *)
Definition h1 : W := (Store fs_sample true "c" (sample_metas, None) [None]).2.

Lemma stored_reach (good : list Meta -> Prop) : good sample_metas -> reach good (cur h1).
Proof.
  intros Hg. eapply (reach_store _ fs_sample true "c" (sample_metas, None) [None] (tail h1)); [constructor|done..| |].
  - vm_compute. reflexivity.
  - apply last_Some_elem_of. vm_compute. reflexivity.
Qed.

Lemma stored_quiet : quiet fs_sample.
Proof. done. Qed.

Lemma storage_consistent_witness :
  consistent (fun _ => True) (cur h1) /\ ContentExists true (fun _ => false) (cur h1) "c" = true.
Proof. split; [by apply storage_consistent, stored_reach|vm_compute; reflexivity]. Defined.


Lemma stored_dir : exists fs, entries (cur h1) !! "c" = Some (EDir fs).
Proof.
  assert (H : match entries (cur h1) !! "c" with Some (EDir _) => true | _ => false end = true) by (vm_compute; reflexivity).
  destruct (entries (cur h1) !! "c") as [[fs|]|]; [by exists fs|done..].
Qed.

Lemma gc_exact_witness :
  entries (cur (runGarbageCollection fs_sample (inr ["c"]) h1).2) !! "c" = entries (cur h1) !! "c".
Proof.
  pose proof (gc_exact fs_sample stored_quiet ["c"] h1) as H.
  destruct (runGarbageCollection fs_sample (inr ["c"]) h1) as [r h']. destruct H as [H _].
  destruct stored_dir as [fs Hd]. rewrite Hd. apply (H "c" fs); [apply list_elem_of_here|exact Hd].
Defined.

(** A garbage collection can spoil a store that reports success: the
    collector takes no lock and deletes the temporary directories of running
    stores, which are no catalogs; when it deletes catalog.jsonl just before
    the directory is renamed, Store reports no error and the catalog has no
    content. *)
Theorem Store_raced_by_gc :
  let '(err, h) := Store (fs_collecting 21) true "c" (sample_metas, None) [None] in
  err = None /\ ContentExists true (fun _ => false) (cur h) "c" = false /\
  is_regular (fun _ => false) (cur h) "c" indexFile = true.
Proof. vm_compute. split_and!; reflexivity. Qed.

End StoreSamples.
