(* ===== verification/CatalogServeProps.v ===== *)
(** * Correctness of the catalog server

    Termination of the ETag lists, conditional requests, and the main theorem
    about queries: from any state the storage can be in, the metas handler
    answers with exactly the blobs that match. *)

From Stdlib Require Import Ascii.
From S2P Require Import Prelude GoErrors CatalogIndex CatalogStore CatalogServe CatalogCtrl CatalogInstances CatalogStoreProps.

(** ** ETag lists *)

Lemma trim_lws_left_length s : (String.length (trim_lws_left s) <= String.length s)%nat.
Proof. induction s as [|c s IH]; cbn; [lia|]. destruct (is_lws c); cbn; lia. Qed.

Lemma trim_lws_right_length s : (String.length (trim_lws_right s) <= String.length s)%nat.
Proof.
  induction s as [|c s IH]; cbn; [lia|]. destruct (trim_lws_right s); [destruct (is_lws c); cbn; lia|]. cbn in *. lia.
Qed.

Lemma TrimString_length s : (String.length (TrimString s) <= String.length s)%nat.
Proof.
  unfold TrimString. pose proof (trim_lws_right_length (trim_lws_left s)). pose proof (trim_lws_left_length s). lia.
Qed.

Lemma scan_text_length s t remain : scan_text s = Some (t, remain) -> (String.length remain < String.length s)%nat.
Proof.
  revert t. induction s as [|c s IH]; intros t; cbn; [done|]. destruct (etag_char c).
  - destruct (scan_text s) as [[t' r']|]; [|done]. intros [= <- <-]. specialize (IH t' eq_refl). lia.
  - destruct (bool_decide _); [|done]. intros [= _ <-]. lia.
Qed.

(** An ETag that was scanned has been consumed. *)
Lemma scanETag_length s etag remain :
  scanETag s = (etag, remain) -> etag <> EmptyString -> (String.length remain < String.length s)%nat.
Proof.
  unfold scanETag. pose proof (TrimString_length s) as Hs. set (u := TrimString s) in *.
  assert (Hd : forall weak t, (if strings_HasPrefix u "W/" then ("W/", str_drop 2 u) else ("", u)) = (weak, t) ->
                 (String.length t <= String.length u)%nat).
  { intros weak t. destruct (strings_HasPrefix u "W/"); intros [= _ <-]; [exact (str_drop_length 2 u)|lia]. }
  destruct (if strings_HasPrefix u "W/" then _ else _) as [weak t]. specialize (Hd weak t eq_refl).
  destruct t as [|c t]; [intros [= <- <-]; done|]. destruct (_ || _); [intros [= <- <-]; done|].
  destruct (scan_text t) as [[text rest]|] eqn:Et; [|intros [= <- <-]; done]. intros [= _ <-] _.
  apply scan_text_length in Et. cbn in Hd. lia.
Qed.

(** Parsing an If-Match or If-None-Match header terminates: a loop of more
    turns than the header has bytes always reaches an answer, and a longer one
    reaches the same. *)
Theorem etag_list_total star none buf :
  exists c, forall fuel, (String.length buf < fuel)%nat -> etag_list star none fuel buf = Some c.
Proof.
  remember (String.length buf) as n eqn:Hn. revert buf Hn.
  induction n as [n IH] using lt_wf_ind. intros buf ->. pose proof (TrimString_length buf) as Ht.
  assert (Hstep : forall rest, (String.length rest < String.length buf)%nat ->
    exists c, forall fuel, (String.length buf < S fuel)%nat -> etag_list star none fuel rest = Some c).
  { intros rest Hr. destruct (IH _ Hr rest eq_refl) as [c Hc]. exists c. intros fuel Hf. apply Hc. lia. }
  destruct (TrimString buf) as [|c rest] eqn:Eb.
  { exists none. intros [|fuel] Hf; [lia|]. cbn. by rewrite Eb. }
  cbn in Ht. destruct (bool_decide (c = ","%char)) eqn:Ec.
  { destruct (Hstep rest) as [r Hr]; [lia|]. exists r. intros [|fuel] Hf; [lia|]. cbn. rewrite Eb, Ec. by apply Hr. }
  destruct (bool_decide (c = "*"%char)) eqn:Es.
  { exists star. intros [|fuel] Hf; [lia|]. cbn. by rewrite Eb, Ec, Es. }
  destruct (scanETag (String c rest)) as [etag remain] eqn:Ee. destruct (bool_decide (etag = EmptyString)) eqn:En.
  { exists none. intros [|fuel] Hf; [lia|]. cbn. by rewrite Eb, Ec, Es, Ee, En. }
  apply bool_decide_eq_false in En. pose proof (scanETag_length _ _ _ Ee En) as Hl. cbn in Hl.
  destruct (Hstep remain) as [r Hr]; [lia|]. exists r. intros [|fuel] Hf; [lia|]. cbn. rewrite Eb, Ec, Es, Ee.
  rewrite bool_decide_false by done. by apply Hr.
Qed.

(** ** Queries *)

Section Queries.
Context `{IC : IndexCodec}.
Context (time_Parse : layout -> string -> result Z) (time_Format : Z -> string).
Context (UnsortedList : gset section -> list section) (HU : forall X, UnsortedList X ≡ₚ elements X).

(** A catalog the server can index: text keys, and less than 2^63 bytes. *)
Definition servable (metas : list Meta) : Prop :=
  Forall (fun m => is_text (mt_Schema m) /\ is_text (mt_Package m) /\ is_text (mt_Name m)) metas /\
  slen (blobs metas) < 2 ^ 63.

Definition status (w : Response) : Z := match rw_Sent w with Some (c, _) => c | None => StatusOK end.

(** No precondition applies to the request. *)
Definition unconditional (r : Request) : Prop :=
  header_Get (rq_Header r) "If-Match" = EmptyString /\ header_Get (rq_Header r) "If-Unmodified-Since" = EmptyString /\
  header_Get (rq_Header r) "If-None-Match" = EmptyString.

Definition is_query (r : Request) : bool :=
  negb (bool_decide (query_Get r "schema" = EmptyString) && bool_decide (query_Get r "package" = EmptyString) &&
        bool_decide (query_Get r "name" = EmptyString)).

(** What a request for metas asks of a catalog. *)
Definition answer (r : Request) (metas : list Meta) : string :=
  if is_query r then blobs (select_metas (query_Get r "schema") (query_Get r "package") (query_Get r "name") metas)
  else blobs metas.

Notation handle := (handleV1Metas time_Parse time_Format UnsortedList (fun _ => None)).

Lemma unconditional_checks r t :
  unconditional r ->
  checkIfMatch r = condNone /\ checkIfUnmodifiedSince time_Parse r t = condNone /\ checkIfNoneMatch r = condNone.
Proof.
  intros (H1 & H2 & H3). unfold checkIfMatch, checkIfUnmodifiedSince, checkIfNoneMatch.
  rewrite !bool_decide_true by done. done.
Qed.

Lemma preconditions_pass r modtime w :
  unconditional r -> header_Get (rq_Header r) "If-Modified-Since" = EmptyString ->
  checkPreconditions time_Parse r modtime w = (false, w).
Proof.
  intros Hu H4. unfold checkPreconditions. destruct (unconditional_checks r modtime Hu) as (-> & -> & ->).
  unfold checkIfModifiedSince. rewrite bool_decide_true by done. done.
Qed.

(** The files of a consistent catalog determine what queries find. *)
Lemma files_answer d catalog content t r :
  consistent servable d -> hidden catalog = false ->
  catalogData (fun _ => None) d catalog = inr (content, t) ->
  (is_query r = true -> is_regular (fun _ => false) d catalog indexFile = true) ->
  exists metas, content = blobs metas /\
    (is_query r = true -> exists idx, getIndex (fun _ => None) d catalog = inr idx /\
       Get UnsortedList idx content (query_Get r "schema") (query_Get r "package") (query_Get r "name") =
       (answer r metas, None)).
Proof.
  intros Hc Hh. unfold catalogData, open_file, getIndex, open_file, is_regular, dir_files.
  destruct (entries d !! catalog) as [[fs|]|] eqn:El; cbn; [|by rewrite lookup_empty..].
  destruct (Hc catalog fs Hh El) as (metas & [Htext Hsize] & Hfs).
  destruct (fs !! catalogFile) as [[dat t'|]|] eqn:Ef; [|done..]. intros [= -> ->] Hi.
  destruct (Hfs _ _ Ef) as (dat & t' & [= <- <-] & [[_ [= <-]]|[? _]]); [|done].
  exists metas. split; [done|]. intros Hq. specialize (Hi Hq).
  destruct (fs !! indexFile) as [[idat t'|]|] eqn:Ei; [|done..].
  destruct (Hfs _ _ Ei) as (dat & t'' & [= <- <-] & [[? _]|[_ [= <-]]]); [done|].
  exists (newIndex metas). split; [by apply decode_encode|]. rewrite Get_newIndex by done. unfold answer. by rewrite Hq.
Qed.

Lemma serve_plain r text w :
  rq_Method r <> "HEAD" -> rw_Sent w = None -> rw_Body w = EmptyString ->
  status (serveJSONLines r (text, None) w) = StatusOK /\ rw_Body (serveJSONLines r (text, None) w) = text.
Proof.
  intros Hm Hs Hb. unfold serveJSONLines. rewrite bool_decide_false by done. cbn.
  destruct (decide (text = EmptyString)) as [->|Hne].
  - rewrite bool_decide_true by done. unfold status. cbn. by rewrite Hs.
  - rewrite bool_decide_false by done. unfold body_Write, WriteHeader, status. cbn. rewrite Hs. cbn. by rewrite Hb.
Qed.

(** What is served once the preconditions let a request pass. *)
Lemma handle_pass d r content t w metas :
  dom (rq_Query r) ⊆ expectedParams -> catalogData (fun _ => None) d (rq_catalog r) = inr (content, t) ->
  checkPreconditions time_Parse r t (on_header (header_Set "Last-Modified" (time_Format t)) new_response) = (false, w) ->
  content = blobs metas ->
  (is_query r = true -> exists idx, getIndex (fun _ => None) d (rq_catalog r) = inr idx /\
     Get UnsortedList idx content (query_Get r "schema") (query_Get r "package") (query_Get r "name") = (answer r metas, None)) ->
  handle d r new_response = serveJSONLines r (answer r metas, None) w.
Proof.
  intros Hp Hd Hc -> Hq. unfold handleV1Metas. rewrite decide_True by done. rewrite Hd. cbv zeta.
  rewrite Hc. unfold answer in *. unfold is_query in *.
  destruct (_ && _) eqn:Ea; cbn [negb] in *; [done|]. destruct (Hq eq_refl) as (idx & -> & ->). done.
Qed.

(** C1. Queries are answered exactly: in whatever state the storage can be, a
    GET of the metas of a catalog whose files are there is answered with status
    200 and, byte for byte, with the blobs of the metas of the stored catalog
    that match the schema, package and name asked for, in catalog order; and
    with the whole catalog if nothing is asked for. *)
Theorem metas_answered_exactly d r :
  reach servable d -> hidden (rq_catalog r) = false -> rq_Method r = "GET" -> dom (rq_Query r) ⊆ expectedParams ->
  unconditional r -> header_Get (rq_Header r) "If-Modified-Since" = EmptyString ->
  ContentExists true (fun _ => false) d (rq_catalog r) = true ->
  exists metas t, catalogData (fun _ => None) d (rq_catalog r) = inr (blobs metas, t) /\
    status (handle d r new_response) = StatusOK /\ rw_Body (handle d r new_response) = answer r metas.
Proof.
  intros Hr Hh Hm Hp Hu Hims Hex. apply reach_consistent in Hr. unfold ContentExists in Hex.
  apply andb_true_iff in Hex as [Hx1 Hx2]. cbn in Hx2.
  assert (Hd : exists content t, catalogData (fun _ => None) d (rq_catalog r) = inr (content, t)).
  { unfold catalogData, open_file. unfold is_regular in Hx1.
    destruct (dir_files d (rq_catalog r) !! catalogFile) as [[dat t|]|]; [by exists dat, t|done..]. }
  destruct Hd as (content & t & Hd). destruct (files_answer _ _ _ _ r Hr Hh Hd (fun _ => Hx2)) as (metas & -> & Hq).
  exists metas, t. split; [done|].
  rewrite (handle_pass d r _ t _ metas Hp Hd (preconditions_pass r t _ Hu Hims) eq_refl Hq).
  apply serve_plain; [congruence|done..].
Qed.

(** ** Conditional requests *)

Lemma zero_checks r t w :
  unconditional r -> isZeroTime t = false -> header_Get (rq_Header r) "If-Modified-Since" <> EmptyString ->
  checkPreconditions time_Parse r t w =
  match parseTime time_Parse (header_Get (rq_Header r) "If-Modified-Since") with
  | inl err => (false, httpError err w)
  | inr since => if truncate_second t <=? since then (true, writeNotModified w) else (false, w)
  end.
Proof.
  intros Hu Hz H4. unfold checkPreconditions. destruct (unconditional_checks r t Hu) as (-> & -> & ->).
  unfold checkIfModifiedSince. rewrite bool_decide_false by done. rewrite Hz. cbn.
  destruct (parseTime time_Parse _) as [err|since]; [done|]. by destruct (truncate_second t <=? since).
Qed.

(** Revalidation is sound: a client that sends back, as If-Modified-Since,
    the Last-Modified time of an earlier answer gets 304 and no body while the
    catalog file is not newer by its second, and the full answer once it is. *)
Theorem revalidation d r content t t0 :
  consistent servable d -> hidden (rq_catalog r) = false -> rq_Method r = "GET" -> dom (rq_Query r) ⊆ expectedParams ->
  unconditional r -> header_Get (rq_Header r) "If-Modified-Since" = time_Format t0 ->
  (time_Format t0 <> EmptyString /\ time_Parse timeFormat (time_Format t0) = inr (truncate_second t0)) ->
  ContentExists true (fun _ => false) d (rq_catalog r) = true ->
  catalogData (fun _ => None) d (rq_catalog r) = inr (content, t) -> isZeroTime t = false ->
  if truncate_second t <=? truncate_second t0
  then status (handle d r new_response) = StatusNotModified /\ rw_Body (handle d r new_response) = EmptyString
  else exists metas, content = blobs metas /\
         status (handle d r new_response) = StatusOK /\ rw_Body (handle d r new_response) = answer r metas.
Proof.
  intros Hc Hh Hm Hp Hu Hims [Hne Hparse] Hex Hd Hz. unfold ContentExists in Hex.
  apply andb_true_iff in Hex as [_ Hx2]. cbn in Hx2.
  pose proof (zero_checks r t (on_header (header_Set "Last-Modified" (time_Format t)) new_response) Hu Hz) as Hck.
  rewrite Hims in Hck. specialize (Hck Hne). unfold parseTime in Hck. rewrite Hparse in Hck.
  destruct (truncate_second t <=? truncate_second t0) eqn:El.
  - unfold handleV1Metas. rewrite decide_True by done. rewrite Hd. cbv zeta. rewrite Hck. done.
  - destruct (files_answer _ _ _ _ r Hc Hh Hd (fun _ => Hx2)) as (metas & -> & Hq). exists metas. split; [done|].
    rewrite (handle_pass d r _ t _ metas Hp Hd Hck eq_refl Hq). apply serve_plain; [congruence|done..].
Qed.

(** A malformed If-Modified-Since spoils the answer: instead of being
    ignored, it makes the server send status 500 and its error text, and then
    the full answer after it. *)
Theorem malformed_date_spoils_answer d r content t err :
  unconditional r -> rq_Method r = "GET" -> rq_Query r = ∅ ->
  header_Get (rq_Header r) "If-Modified-Since" <> EmptyString ->
  parseTime time_Parse (header_Get (rq_Header r) "If-Modified-Since") = inl err -> error_code err = StatusInternalServerError ->
  catalogData (fun _ => None) d (rq_catalog r) = inr (content, t) -> isZeroTime t = false ->
  status (handle d r new_response) = StatusInternalServerError /\
  rw_Body (handle d r new_response) = "500 Internal Server Error" +:+ nl +:+ content.
Proof.
  intros Hu Hm Hq Hne Hparse Hcode Hd Hz.
  assert (Hg : forall k, query_Get r k = EmptyString) by (intros k; unfold query_Get, header_Get; by rewrite Hq).
  unfold handleV1Metas. rewrite decide_True by (rewrite Hq, dom_empty_L; set_solver). rewrite Hd. cbv zeta.
  rewrite (zero_checks r t _ Hu Hz Hne), Hparse, !Hg. rewrite !bool_decide_true by done. cbn [andb].
  unfold serveJSONLines. rewrite bool_decide_false by congruence. unfold httpError. rewrite Hcode. cbn [fst snd].
  destruct (bool_decide (content = EmptyString)) eqn:Ec.
  - apply bool_decide_eq_true in Ec as ->. rewrite str_app_nil. done.
  - done.
Qed.
End Queries.

(** ** Runs *)

Module ServeSamples.
Import StoreSamples.

Definition request (h : Header) (q : gmap string (list string)) : Request := mkRequest "GET" h q "c".

(** All metas of the package foo. *)
Definition foo_query : gmap string (list string) := {["package" := ["foo"]]}.

Notation handle := (handleV1Metas parse_sample format_sample elements (fun _ => None)).

Lemma stored_servable : reach servable (cur h1).
Proof. apply stored_reach. split; [by repeat constructor|done]. Qed.

Lemma stored_there : ContentExists true (fun _ => false) (cur h1) "c" = true.
Proof. vm_compute. reflexivity. Qed.

Lemma stored_data : catalogData (fun _ => None) (cur h1) "c" = inr ("PCCBBB", 5000000001).
Proof. vm_compute. reflexivity. Qed.

#[local] Opaque h1.

Lemma foo_params : dom foo_query ⊆ expectedParams.
Proof. unfold foo_query, expectedParams. rewrite dom_singleton_L. set_solver. Qed.

Lemma metas_answered_exactly_witness : exists metas t,
  catalogData (fun _ => None) (cur h1) "c" = inr (blobs metas, t) /\
  status (handle (cur h1) (request ∅ foo_query) new_response) = StatusOK /\
  rw_Body (handle (cur h1) (request ∅ foo_query) new_response) = answer (request ∅ foo_query) metas.
Proof.
  refine (metas_answered_exactly parse_sample format_sample elements (fun X => reflexivity _) (cur h1)
            (request ∅ foo_query) _ _ _ _ _ _ _).
  - exact stored_servable.
  - reflexivity.
  - reflexivity.
  - exact foo_params.
  - repeat split.
  - reflexivity.
  - exact stored_there.
Defined.

Lemma revalidation_witness :
  status (handle (cur h1) (request {["If-Modified-Since" := ["iiiiis"]]} foo_query) new_response) = StatusNotModified.
Proof.
  refine (proj1 (revalidation parse_sample format_sample elements (fun X => reflexivity _) (cur h1)
            (request {["If-Modified-Since" := ["iiiiis"]]} foo_query) "PCCBBB" 5000000001 5000000001 _ _ _ _ _ _ _ _ _ _)).
  - exact (reach_consistent servable _ stored_servable).
  - reflexivity.
  - reflexivity.
  - exact foo_params.
  - repeat split.
  - reflexivity.
  - split; [discriminate|reflexivity].
  - exact stored_there.
  - exact stored_data.
  - reflexivity.
Defined.

Lemma malformed_date_spoils_answer_witness :
  rw_Body (handle (cur h1) (request {["If-Modified-Since" := ["yesterday"]]} ∅) new_response) =
  "500 Internal Server Error" +:+ nl +:+ "PCCBBB".
Proof.
  refine (proj2 (malformed_date_spoils_answer parse_sample format_sample elements (fun X => reflexivity _) (cur h1)
            (request {["If-Modified-Since" := ["yesterday"]]} ∅) "PCCBBB" 5000000001 (ENew "cannot parse") _ _ _ _ _ _ _ _)).
  - repeat split.
  - reflexivity.
  - reflexivity.
  - discriminate.
  - reflexivity.
  - reflexivity.
  - exact stored_data.
  - reflexivity.
Defined.
End ServeSamples.
