(* ===== verification/CatalogCtrlProps.v ===== *)
(** * Correctness of the ClusterCatalog controller

    What a reconciliation leaves in the storage, in the reconciler's memory
    and in the status, for any storage that keeps the promises of
    [StorageLaws], whatever the registry and the API server answer. *)

From S2P Require Import Prelude GoErrors ApiTypes Sanitize ExtSteps CatalogIndex CatalogStore CatalogServe CatalogCtrl CatalogInstances CatalogStoreProps.

Section Controller.
Context {S FS : Type} {I : StorageInstance S FS} (valid : string -> Prop) (inv : S -> Prop).
Context {SL : StorageLaws I valid inv} `{CA : ConditionsAPI} `{CF : CRFinalizers} (E : CatEnv S FS).

(** ** What stays the same *)

(** Only the status and the finalizers may differ. *)
Definition same_catalog (a b : ClusterCatalog) : Prop :=
  cat_Spec b = cat_Spec a /\ m_Name (cat_Meta b) = m_Name (cat_Meta a) /\
  m_Generation (cat_Meta b) = m_Generation (cat_Meta a) /\ m_Labels (cat_Meta b) = m_Labels (cat_Meta a) /\
  m_Annotations (cat_Meta b) = m_Annotations (cat_Meta a) /\
  m_DeletionTimestamp (cat_Meta b) = m_DeletionTimestamp (cat_Meta a).

Lemma same_catalog_refl a : same_catalog a a.
Proof. done. Qed.

Lemma same_catalog_trans a b c : same_catalog a b -> same_catalog b c -> same_catalog a c.
Proof. unfold same_catalog. intuition congruence. Qed.

Lemma same_status st a : same_catalog a (with_CatStatus st a).
Proof. done. Qed.

Lemma same_remove key a : same_catalog a (RemoveFinalizer key a).
Proof. done. Qed.

Lemma same_no_change a b : same_catalog a b -> catalog_field_change a b = false.
Proof.
  intros (H1 & _ & _ & H2 & H3 & _). unfold catalog_field_change. rewrite H1, H2, H3, !bool_decide_true by done. done.
Qed.

(** ** Deleting the content *)

(** Nothing of the catalog is left: neither content nor memory of it. *)
Definition clean (s : cstate S) (name : string) : Prop :=
  inst_ContentExists (cs_storage s) name = false /\ cs_stored s !! name = None.

(** What the reconciler knows of other catalogs never grows; what it knows of
    this one stays or goes. *)
Definition shrunk (name : string) (s s' : cstate S) : Prop :=
  cs_stored s' = cs_stored s \/ cs_stored s' = delete name (cs_stored s).

(** Calls were made, but the finalizers were not touched. *)
Definition no_patch (s s' : cstate S) : Prop :=
  exists t, cs_trace s' = cs_trace s ++ t /\ forall fs, CPatchFinalizers fs ∉ t.

Lemma no_patch_refl s : no_patch s s.
Proof. exists []. rewrite app_nil_r. split; [done|]. set_solver. Qed.

Lemma no_patch_tell s s' t : cs_trace s' = cs_trace s ++ t -> (forall fs, CPatchFinalizers fs ∉ t) -> no_patch s s'.
Proof. intros H1 H2. by exists t. Qed.

Lemma deleteCatalogCache_spec catalog s :
  valid (cat_Name catalog) -> inv (cs_storage s) ->
  let '((catalog', err), s') := deleteCatalogCache E catalog s in
  same_catalog catalog catalog' /\ cat_finalizers catalog' = cat_finalizers catalog /\
  inv (cs_storage s') /\ shrunk (cat_Name catalog) s s' /\ no_patch s s' /\
  (err = None -> clean s' (cat_Name catalog) /\
     catalog' = with_CatStatus (updateStatusNotServing (cat_Generation catalog) (cat_Status catalog)) catalog).
Proof.
  intros Hv Hi. unfold deleteCatalogCache, io_bind, on_storage.
  pose proof (delete_inv (cat_Name catalog) (cs_storage s) Hv Hi) as Hi'.
  pose proof (delete_gone (cat_Name catalog) (cs_storage s) Hv Hi) as Hg.
  destruct (inst_Delete (cat_Name catalog) (cs_storage s)) as [[e|] st]; cbn in *.
  - do 3 (split; [done|]). split; [by left|]. split; [|done]. eapply no_patch_tell; [done|set_solver].
  - destruct (ce_CacheDelete E _ _) as [e|]; cbn.
    + do 3 (split; [done|]). split; [by left|]. split; [|done].
      eapply no_patch_tell; [cbn; by rewrite <- app_assoc|set_solver].
    + do 3 (split; [done|]). split; [by right|].
      split; [eapply no_patch_tell; [cbn; by rewrite <- app_assoc|set_solver]|]. intros _. split; [|done]. split; [by apply Hg|]. apply lookup_delete_eq.
Qed.

(** What the finalizer step can do. *)
Lemma Finalize_spec catalog s :
  valid (cat_Name catalog) -> inv (cs_storage s) ->
  let '((catalog', fr, err), s') := Finalize fbcDeletionFinalizer (fbc_finalizer E) catalog s in
  same_catalog catalog catalog' /\ inv (cs_storage s') /\ shrunk (cat_Name catalog) s s' /\ no_patch s s' /\
  ((err = None /\ fr = mkFinResult false false /\ catalog' = catalog /\ s' = s) \/
   (err = None /\ Updated fr = true /\ m_DeletionTimestamp (cat_Meta catalog) = None /\ s' = s /\
    fbcDeletionFinalizer ∈ cat_finalizers catalog') \/
   (err = None /\ Updated fr = true /\ m_DeletionTimestamp (cat_Meta catalog) <> None /\ clean s' (cat_Name catalog)) \/
   (err <> None /\ m_DeletionTimestamp (cat_Meta catalog) <> None /\ cat_finalizers catalog' = cat_finalizers catalog)).
Proof.
  intros Hv Hi.
  destruct (decide (m_DeletionTimestamp (cat_Meta catalog) = None)) as [Hd|Hd];
    destruct (decide (fbcDeletionFinalizer ∈ cat_finalizers catalog)) as [Hf|Hf].
  - rewrite finalize_idle by done. do 2 (split; [done|]). split; [by left|]. split; [apply no_patch_refl|]. by left.
  - rewrite finalize_add by done. do 2 (split; [done|]). split; [by left|]. split; [apply no_patch_refl|].
    right. left. split_and!; try done. cbn. set_solver.
  - pose proof (finalize_run _ fbcDeletionFinalizer (fbc_finalizer E) catalog s Hd Hf) as Hr.
    unfold fbc_finalizer in Hr at 1. rewrite io_bind_run in Hr.
    pose proof (deleteCatalogCache_spec catalog s Hv Hi) as Hs.
    destruct (deleteCatalogCache E catalog s) as [[catalog' err] s']. destruct Hs as (H1 & H2 & H3 & H4 & Hnp & H5).
    cbn in Hr. destruct err as [e|]; cbn in Hr.
    + destruct Hr as [e' ->]. do 4 (split; [done|]). do 3 right. done.
    + rewrite Hr. do 4 (split; [done|]). right. right. left. split_and!; try done. by apply H5.
  - rewrite finalize_idle by tauto. do 2 (split; [done|]). split; [by left|]. split; [apply no_patch_refl|]. by left.
Qed.

(** ** Unpacking *)

(** The status that goes with what the reconciler remembers of a catalog. *)
Definition status_serves (sc : storedCatalogData) (name : string) (st : ClusterCatalogStatus) : Prop :=
  FindStatusCondition (cst_Conditions st) TypeServing = Some (serving_condition (sc_observedGeneration sc)) /\
  FindStatusCondition (cst_Conditions st) TypeProgressing = Some (progressing_condition (sc_observedGeneration sc) None) /\
  cst_ResolvedSource st = Some (mkResolvedSource SourceTypeImage (Some (sc_ref sc))) /\
  cst_URLs st = Some (inst_BaseURL name) /\ cst_LastUnpacked st = Some (truncate_second (sc_lastUnpack sc)).

(** The content is there, remembered for the catalog's own generation, and the
    status says so. *)
Definition settled (s : cstate S) (c : ClusterCatalog) : Prop :=
  exists sc, cs_stored s !! cat_Name c = Some sc /\ inst_ContentExists (cs_storage s) (cat_Name c) = true /\
    sc_observedGeneration sc = cat_Generation c /\ status_serves sc (cat_Name c) (cat_Status c).

Definition has_image (spec : ClusterCatalogSpec) : Prop :=
  cso_Type (ccs_Source spec) = SourceTypeImage /\ cso_Image (ccs_Source spec) <> None.

Lemma serving_status ref t url g st :
  let st' := updateStatusServing ref t url g (updateStatusProgressing g None st) in
  FindStatusCondition (cst_Conditions st') TypeServing = Some (serving_condition g) /\
  FindStatusCondition (cst_Conditions st') TypeProgressing = Some (progressing_condition g None).
Proof. cbn. split; [by rewrite find_set_cond|]. by rewrite !find_set_cond. Qed.

Lemma unpack_spec catalog s :
  valid (cat_Name catalog) -> inv (cs_storage s) ->
  exists catalog' res err s', unpack E catalog s = (Ret (catalog', res, err), s') /\
    same_catalog catalog catalog' /\ cat_finalizers catalog' = cat_finalizers catalog /\ inv (cs_storage s') /\
    no_patch s s' /\
    match err with
    | Some _ => cs_stored s' = cs_stored s
    | None => has_image (cat_Spec catalog) /\ settled s' catalog' /\
        (exists sc, cs_stored s' = <[cat_Name catalog := sc]> (cs_stored s) /\ sc_observedGeneration sc = cat_Generation catalog)
    end.
Proof.
  intros Hv Hi. unfold unpack.
  assert (Hfail : forall e, exists catalog' res err s', cat_failed catalog e s = (Ret (catalog', res, err), s') /\
    same_catalog catalog catalog' /\ cat_finalizers catalog' = cat_finalizers catalog /\ inv (cs_storage s') /\
    no_patch s s' /\ err <> None /\ cs_stored s' = cs_stored s).
  { intros e. do 4 eexists. split; [done|]. do 3 (split; [done|]). split; [apply no_patch_refl|done]. }
  assert (Hfail' : forall e, exists catalog' res err s', cat_failed catalog e s = (Ret (catalog', res, err), s') /\
    same_catalog catalog catalog' /\ cat_finalizers catalog' = cat_finalizers catalog /\ inv (cs_storage s') /\
    no_patch s s' /\
    match err with
    | Some _ => cs_stored s' = cs_stored s
    | None => has_image (cat_Spec catalog) /\ settled s' catalog' /\
        (exists sc, cs_stored s' = <[cat_Name catalog := sc]> (cs_stored s) /\ sc_observedGeneration sc = cat_Generation catalog)
    end).
  { intros e. destruct (Hfail e) as (c & r & err & s' & H0 & H1 & H2 & H3 & H4 & H5 & H6).
    exists c, r, err, s'. do 5 (split; [done|]). by destruct err. }
  destruct (bool_decide (cso_Type _ = SourceTypeImage)) eqn:Et; cbn [negb]; [|apply Hfail'].
  apply bool_decide_eq_true in Et.
  destruct (cso_Image (ccs_Source (cat_Spec catalog))) as [img|] eqn:Ei; [|apply Hfail']. clear Hfail Hfail'.
  unfold io_bind, ask_cat, tell_cat. destruct (ce_Pull E s _ _) as [e|[[fsys ref] t]].
  { do 4 eexists. split; [done|]. do 3 (split; [done|]). split; [eapply no_patch_tell; [done|set_solver]|done]. }
  unfold on_storage. cbn [cs_storage cs_stored cs_trace].
  pose proof (store_inv (cat_Name catalog) fsys (cs_storage s) Hv Hi) as Hi'.
  pose proof (store_exists (cat_Name catalog) fsys (cs_storage s) Hv Hi) as Hx.
  destruct (inst_Store (cat_Name catalog) fsys (cs_storage s)) as [[e|] st]; cbn [fst snd] in *.
  - do 4 eexists; split; [done|]. do 3 (split; [done|]).
    split; [eapply no_patch_tell; [cbn; by rewrite <- app_assoc|set_solver]|done].
  - do 4 eexists. split; [done|]. do 3 (split; [done|]).
    split; [eapply no_patch_tell; [cbn; by rewrite <- app_assoc|set_solver]|].
    split; [by split; [|rewrite Ei]|]. split.
    + eexists. cbn. rewrite lookup_insert_eq. split; [done|]. split; [by apply Hx|]. split; [done|].
      destruct (serving_status ref t (inst_BaseURL (cat_Name catalog)) (cat_Generation catalog) (cat_Status catalog)) as [H1 H2].
      by split_and!.
    + eexists. cbn. done.
Qed.

(** When nothing needs to be unpacked, all is settled already. *)
Lemma no_unpack_settled catalog s :
  needsUnpack E s catalog = Ret false -> settled s catalog.
Proof.
  unfold needsUnpack, getCurrentState. destruct (cs_stored s !! cat_Name catalog) as [sc|] eqn:Es; [|done].
  destruct (inst_ContentExists _ _) eqn:Ex; cbn [negb]; [|done].
  destruct (bool_decide _) eqn:Eq; cbn [negb]; [|done]. apply bool_decide_eq_true in Eq.
  destruct (Z.eqb_spec (cat_Generation catalog) (sc_observedGeneration sc)) as [Eg|]; cbn [negb]; [|done]. intros _.
  exists sc. split_and!; try done. rewrite Eq. unfold updateStatusProgressing, updateStatusServing. cbn.
  split_and!; try done; cbn; rewrite ?find_set_cond; done.
Qed.

(** The whole reconcile of an available catalog that is neither new nor being deleted. *)
Definition steady (c : ClusterCatalog) : Prop :=
  ccs_AvailabilityMode (cat_Spec c) <> AvailabilityModeUnavailable /\
  m_DeletionTimestamp (cat_Meta c) = None /\ fbcDeletionFinalizer ∈ cat_finalizers c.

Lemma cat_reconcile_steady catalog s :
  steady catalog ->
  cat_reconcile E catalog s =
  match needsUnpack E s catalog with
  | Panic msg => (Panic msg, s)
  | Ret true => unpack E catalog s
  | Ret false =>
      (Ret (catalog, (nextPollResult E (match cs_stored s !! cat_Name catalog with
                                        | Some sc => sc_lastSuccessfulPoll sc | None => 0 end) catalog s).1, None), s)
  end.
Proof.
  intros (Ha & Hd & Hf). unfold cat_reconcile. rewrite bool_decide_false by done.
  rewrite io_bind_run, finalize_idle by done. cbn [fst snd Updated StatusUpdated orb]. rewrite Hd.
  rewrite io_bind_run. unfold ask_cat. cbn [fst snd]. destruct (needsUnpack E s catalog) as [[|]|]; done.
Qed.

Lemma cat_reconcile_settles catalog s catalog' res s' :
  valid (cat_Name catalog) -> inv (cs_storage s) -> steady catalog ->
  cat_reconcile E catalog s = (Ret (catalog', res, None), s') -> settled s' catalog'.
Proof.
  intros Hv Hi Hst. rewrite cat_reconcile_steady by done. destruct (needsUnpack E s catalog) as [[|]|] eqn:En; [| |done].
  - destruct (unpack_spec catalog s Hv Hi) as (c & r & err & s1 & -> & _ & _ & _ & _ & Hm). intros [= -> -> -> ->].
    by destruct Hm as (_ & Hm & _).
  - intros [= <- <- <-]. by apply no_unpack_settled.
Qed.

(** ** Whole reconciliations *)

(** What the reconciler remembers after a reconciliation. *)
Definition stored_step (c : ClusterCatalog) (s s' : cstate S) : Prop :=
  shrunk (cat_Name c) s s' \/
  (has_image (cat_Spec c) /\ exists sc, cs_stored s' = <[cat_Name c := sc]> (cs_stored s) /\
     sc_observedGeneration sc = cat_Generation c).

Lemma cat_reconcile_run catalog s :
  valid (cat_Name catalog) -> inv (cs_storage s) ->
  (exists msg, cat_reconcile E catalog s = (Panic msg, s) /\ needsUnpack E s catalog = Panic msg) \/
  exists catalog' res err s', cat_reconcile E catalog s = (Ret (catalog', res, err), s') /\
    same_catalog catalog catalog' /\ inv (cs_storage s') /\ stored_step catalog s s' /\
    no_patch s s' /\
    (fbcDeletionFinalizer ∈ cat_finalizers catalog -> fbcDeletionFinalizer ∉ cat_finalizers catalog' ->
       err = None /\ clean s' (cat_Name catalog)).
Proof.
  intros Hv Hi. unfold cat_reconcile. destruct (bool_decide _).
  - right. rewrite io_bind_run. pose proof (deleteCatalogCache_spec catalog s Hv Hi) as Hs.
    destruct (deleteCatalogCache E catalog s) as [[c err] s1]. destruct Hs as (H1 & H2 & H3 & H4 & Hnp & H5).
    cbn [fst snd]. destruct err as [e|].
    + do 4 eexists. split; [done|]. do 2 (split; [done|]). split; [by left|]. split; [done|]. rewrite H2. done.
    + do 4 eexists. split; [done|]. split; [by eapply same_catalog_trans|]. split; [done|]. split; [by left|]. split; [done|].
      intros _ _. split; [done|]. by apply H5.
  - rewrite io_bind_run. pose proof (Finalize_spec catalog s Hv Hi) as Hs.
    destruct (Finalize _ _ catalog s) as [[[c fr] err] s1]. destruct Hs as (H1 & H2 & H3 & Hnp & Hc). cbn [fst snd].
    destruct err as [e|].
    { right. do 4 eexists. split; [done|]. do 2 (split; [done|]). split; [by left|]. split; [done|]. intros Ha Hb.
      destruct Hc as [(? & _)|[(? & _)|[(? & _)|(_ & _ & Hf)]]]; [done..|]. congruence. }
    destruct (Updated fr || StatusUpdated fr) eqn:Eu.
    { right. do 4 eexists. split; [done|]. do 2 (split; [done|]). split; [by left|]. split; [done|]. intros Ha Hb.
      by destruct Hc as [(_ & -> & _)|[(_ & _ & _ & _ & Hin)|[(_ & _ & _ & Hcl)|(? & _)]]]. }
    assert (Hsame : c = catalog /\ s1 = s).
    { destruct Hc as [(_ & _ & -> & ->)|[(_ & Hu & _)|[(_ & Hu & _)|(? & _)]]]; [done| | |done]; by rewrite Hu in Eu. }
    destruct Hsame as [-> ->].
    assert (Hidle : forall r, exists catalog' res err s',
      ((Ret (catalog, r, None) : go (ClusterCatalog * CtrlResult * option error)), s) = (Ret (catalog', res, err), s') /\
      same_catalog catalog catalog' /\ inv (cs_storage s') /\ stored_step catalog s s' /\ no_patch s s' /\
      (fbcDeletionFinalizer ∈ cat_finalizers catalog -> fbcDeletionFinalizer ∉ cat_finalizers catalog' ->
         err = None /\ clean s' (cat_Name catalog))).
    { intros r. do 4 eexists. split; [done|]. do 2 (split; [done|]). split; [by left; left|].
      split; [apply no_patch_refl|done]. }
    destruct (m_DeletionTimestamp (cat_Meta catalog)); [right; apply Hidle|].
    rewrite io_bind_run. unfold ask_cat. cbn [fst snd]. destruct (needsUnpack E s catalog) as [[|]|msg] eqn:En.
    + right. destruct (unpack_spec catalog s Hv Hi) as (c' & res & err & s2 & -> & H4 & H5 & H6 & Hnp2 & H7).
      do 4 eexists. split; [done|]. do 2 (split; [done|]). split; [|split; [done|rewrite H5; done]].
      destruct err; [by left; left|]. destruct H7 as (Him & _ & Hsc). by right.
    + right. apply Hidle.
    + left. by exists msg.
Qed.

(** The calls of Reconcile after the reconciliation proper. *)
Definition writes (existing reconciled : ClusterCatalog) : list catcall :=
  (if bool_decide (cat_Status existing = cat_Status reconciled) then [] else [CStatusUpdate (cat_Status reconciled)]) ++
  (if bool_decide (cat_finalizers existing = cat_finalizers reconciled) then [] else [CPatchFinalizers (cat_finalizers reconciled)]).

Lemma Cat_Reconcile_run catalog s catalog' res err s1 :
  cat_reconcile E catalog s = (Ret (catalog', res, err), s1) -> same_catalog catalog catalog' ->
  exists err', Cat_Reconcile E (inr catalog) s =
    (Ret (res, err'), mkCState (match err with Some _ => delete (cat_Name catalog) (cs_stored s1) | None => cs_stored s1 end)
                        (cs_storage s1) (cs_trace s1 ++ writes catalog catalog')) /\
    (err <> None -> err' <> None) /\ (writes catalog catalog' = [] -> err' = err).
Proof.
  intros Hr Hs. unfold Cat_Reconcile. rewrite io_bind_run, Hr. cbn [fst snd].
  assert (Hn : cat_Name catalog' = cat_Name catalog) by apply Hs.
  rewrite io_bind_run. rewrite (same_no_change _ _ Hs). rewrite io_bind_run. unfold writes. rewrite Hn.
  assert (Hj : forall e x, join_err e x <> None) by (intros [e|] x; done).
  destruct err as [e|], (bool_decide (cat_Status _ = _)), (bool_decide (cat_finalizers _ = _)); cbn;
    rewrite ?app_nil_r, <- ?app_assoc;
    eexists; (split; [by destruct s1|]); (split; [intros He|by intros]); repeat case_match; done.
Qed.

Lemma settled_same s s' c : cs_stored s' = cs_stored s -> cs_storage s' = cs_storage s -> settled s c -> settled s' c.
Proof. unfold settled. by intros -> ->. Qed.

Lemma forgotten_unpacks s c : cs_stored s !! cat_Name c = None -> needsUnpack E s c = Ret true.
Proof. intros H. unfold needsUnpack, getCurrentState. by rewrite H. Qed.

(** C29. A catalog is settled or retried: after a reconciliation of an
    available catalog, either the content is stored, remembered for the current
    generation, and the status, as it is or as it was sent to the API server,
    says so with the resolved image, the URL and both conditions; or an error
    is returned, which has the catalog reconciled again, and that next
    reconciliation unpacks the content anew whatever its status says. *)
Theorem settled_or_retried catalog s res err s' :
  valid (cat_Name catalog) -> inv (cs_storage s) -> steady catalog ->
  Cat_Reconcile E (inr catalog) s = (Ret (res, err), s') ->
  (exists c, same_catalog catalog c /\ settled s' c /\
     (cat_Status c = cat_Status catalog \/ CStatusUpdate (cat_Status c) ∈ cs_trace s')) \/
  (err <> None /\ forall c, cat_Name c = cat_Name catalog -> needsUnpack E s' c = Ret true).
Proof.
  intros Hv Hi Hst Hrun.
  destruct (cat_reconcile_run catalog s Hv Hi) as [(msg & Hp & _)|(c & res' & err' & s1 & Hr & Hs & _)].
  { exfalso. unfold Cat_Reconcile in Hrun. by rewrite io_bind_run, Hp in Hrun. }
  destruct (Cat_Reconcile_run _ _ _ _ _ _ Hr Hs) as (err2 & Hrun2 & He & _). rewrite Hrun in Hrun2. injection Hrun2 as -> -> ->.
  destruct err' as [e|].
  - right. split; [by apply He|]. intros c2 Hn. apply forgotten_unpacks. cbn. rewrite Hn. apply lookup_delete_eq.
  - left. exists c. split; [done|]. split.
    + eapply settled_same; [| |by eapply cat_reconcile_settles]; done.
    + cbn. unfold writes. destruct (decide (cat_Status catalog = cat_Status c)) as [->|Hne]; [by left|]. right.
      rewrite bool_decide_false by done. set_solver.
Qed.

(** The finalizer is released only for a clean catalog: when a
    reconciliation asks to remove it from a catalog that has it, the stored
    content is gone and the reconciler remembers nothing of the catalog. *)
Theorem catalog_finalizer_released_clean catalog s out s' fs :
  valid (cat_Name catalog) -> inv (cs_storage s) -> cs_trace s = [] ->
  fbcDeletionFinalizer ∈ cat_finalizers catalog ->
  Cat_Reconcile E (inr catalog) s = (out, s') ->
  CPatchFinalizers fs ∈ cs_trace s' -> fbcDeletionFinalizer ∉ fs -> clean s' (cat_Name catalog).
Proof.
  intros Hv Hi Ht Hin Hrun Hp Hnot.
  destruct (cat_reconcile_run catalog s Hv Hi) as [(msg & Hpa & _)|(c & res' & err' & s1 & Hr & Hs & _ & _ & (t & Hnt & Hnp) & Hcl)].
  { unfold Cat_Reconcile in Hrun. rewrite io_bind_run, Hpa in Hrun. injection Hrun as <- <-. rewrite Ht in Hp. set_solver. }
  destruct (Cat_Reconcile_run _ _ _ _ _ _ Hr Hs) as (err2 & Hrun2 & _). rewrite Hrun in Hrun2. injection Hrun2 as -> ->.
  cbn in Hp. rewrite Hnt, Ht in Hp. unfold writes in Hp. rewrite !elem_of_app in Hp.
  assert (Hfs : fs = cat_finalizers c).
  { specialize (Hnp fs). destruct Hp as [[?|?]|[?|?]]; repeat case_match; set_solver. }
  destruct Hcl as [-> Hcl]; [done|by rewrite <- Hfs|]. done.
Qed.

(** A condition the controller knows. *)
Definition known_condition (c : Condition) : Prop := c_Type c = TypeServing \/ c_Type c = TypeProgressing.

Lemma clear_known st : Forall known_condition (cst_Conditions st) -> clearUnknownConditions st = st.
Proof.
  intros H. unfold clearUnknownConditions, with_CatConditions. destruct st as [cs r u l]. cbn in *. f_equal.
  induction H as [|c cs Hc _ IH]; cbn; [done|]. rewrite IH.
  destruct Hc as [Hc|Hc]; [rewrite (bool_decide_true _ Hc)|rewrite (bool_decide_true (c_Type c = TypeProgressing) Hc), orb_true_r]; done.
Qed.

Lemma set_cond_same cs c : FindStatusCondition cs (c_Type c) = Some c -> set_cond cs c = cs.
Proof. intros H. by apply set_unchanged, set_changed. Qed.

Lemma expected_is_status sc name st :
  status_serves sc name st -> Forall known_condition (cst_Conditions st) ->
  updateStatusProgressing (sc_observedGeneration sc) None
    (updateStatusServing (sc_ref sc) (sc_lastUnpack sc) (inst_BaseURL name) (sc_observedGeneration sc) (clearUnknownConditions st)) = st.
Proof.
  intros (H1 & H2 & H3 & H4 & H5) Hk. rewrite clear_known by done.
  unfold updateStatusProgressing, updateStatusServing, with_CatConditions. cbn [cst_Conditions cst_ResolvedSource cst_URLs cst_LastUnpacked].
  rewrite (set_cond_same _ (serving_condition _)), (set_cond_same _ (progressing_condition _ _)) by done.
  rewrite <- H3, <- H4, <- H5. by destruct st.
Qed.

(** The next poll is not due. *)
Definition poll_not_due (s : cstate S) (c : ClusterCatalog) : Prop :=
  forall sc img m, cs_stored s !! cat_Name c = Some sc -> cso_Image (ccs_Source (cat_Spec c)) = Some img ->
    img_PollIntervalMinutes img = Some m -> ce_Now E s <= sc_lastSuccessfulPoll sc + poll_duration m.

(** A settled catalog is left alone: until its next poll is due, further
    reconciliations of it make no call at all, to the registry, the storage or
    the API server, and change nothing. *)
Theorem settled_is_quiet catalog s :
  steady catalog -> settled s catalog -> has_image (cat_Spec catalog) ->
  Forall known_condition (cst_Conditions (cat_Status catalog)) -> poll_not_due s catalog ->
  exists res, Cat_Reconcile E (inr catalog) s = (Ret (res, None), s).
Proof.
  intros Hst (sc & Hsc & Hx & Hg & Hss) [_ Him] Hk Hp.
  assert (Hn : needsUnpack E s catalog = Ret false).
  { unfold needsUnpack, getCurrentState. rewrite Hsc, Hx. cbn [negb]. rewrite expected_is_status by done.
    rewrite bool_decide_true by done. cbn [negb]. rewrite Hg, Z.eqb_refl. cbn [negb]. unfold needsPoll.
    destruct (cso_Image _) as [img|] eqn:Ei; [|done]. destruct (img_PollIntervalMinutes img) as [m|] eqn:Em; [|done].
    f_equal. apply Z.ltb_ge. by eapply Hp. }
  pose proof (cat_reconcile_steady catalog s Hst) as Hr. rewrite Hn in Hr.
  destruct (Cat_Reconcile_run _ _ _ _ _ _ Hr (same_catalog_refl _)) as (err & Hrun & _ & He).
  unfold writes in Hrun, He. rewrite !bool_decide_true in Hrun, He by done. rewrite (He eq_refl) in Hrun.
  eexists. rewrite Hrun. cbn. rewrite app_nil_r. by destruct s.
Qed.

(** ** Histories of reconciliations *)

(** The reads of a controller's life, in order, each of any catalog. *)
Fixpoint Cat_run (reads : list (result ClusterCatalog)) (s : cstate S) : list (go (CtrlResult * option error)) * cstate S :=
  match reads with
  | [] => ([], s)
  | r :: reads => let '(out, s1) := Cat_Reconcile E r s in let '(outs, s2) := Cat_run reads s1 in (out :: outs, s2)
  end.

Section Histories.
(** The API server gives a catalog a new generation whenever its spec changes. *)
Variable spec_of : string -> Z -> ClusterCatalogSpec.

Definition tracked (c : ClusterCatalog) : Prop :=
  valid (cat_Name c) /\ cat_Spec c = spec_of (cat_Name c) (cat_Generation c).

(** What is remembered of a catalog was unpacked from an image. *)
Definition remembers_images (s : cstate S) : Prop :=
  forall name sc, cs_stored s !! name = Some sc -> has_image (spec_of name (sc_observedGeneration sc)).

Lemma remembers_step c s s' : tracked c -> stored_step c s s' -> remembers_images s -> remembers_images s'.
Proof.
  intros [_ Hsp] [[Heq|Heq]|(Him & sc & Heq & Hg)] H n x; rewrite Heq.
  - apply H.
  - rewrite lookup_delete_Some. intros [_ ?]. by apply H.
  - rewrite lookup_insert_Some. intros [[<- <-]|[_ ?]]; [|by apply H]. by rewrite Hg, <- Hsp.
Qed.

Lemma tracked_no_panic c s msg : tracked c -> remembers_images s -> needsUnpack E s c <> Panic msg.
Proof.
  intros [_ Hsp] Hr. unfold needsUnpack, getCurrentState. destruct (cs_stored s !! cat_Name c) as [sc|] eqn:Es; [|done].
  destruct (negb (inst_ContentExists _ _)); [done|]. destruct (negb (bool_decide _)); [done|].
  destruct (Z.eqb_spec (cat_Generation c) (sc_observedGeneration sc)) as [Eg|]; [|done]. cbn [negb].
  apply Hr in Es as [_ Hi]. rewrite <- Eg, <- Hsp in Hi. unfold needsPoll. by destruct (cso_Image _).
Qed.

Lemma Cat_Reconcile_keeps c s :
  tracked c -> inv (cs_storage s) -> remembers_images s ->
  exists res err s', Cat_Reconcile E (inr c) s = (Ret (res, err), s') /\ inv (cs_storage s') /\ remembers_images s'.
Proof.
  intros Ht Hi Hr. destruct (cat_reconcile_run c s (proj1 Ht) Hi) as [(msg & _ & Hp)|(c' & res & err & s1 & Hrun & Hs & Hi1 & Hst & _)].
  { by destruct (tracked_no_panic c s msg Ht Hr). }
  destruct (Cat_Reconcile_run _ _ _ _ _ _ Hrun Hs) as (err' & -> & _). do 3 eexists. split; [done|]. split; [done|].
  pose proof (remembers_step c s s1 Ht Hst Hr) as Hr1. destruct err; [|done].
  intros n sc. cbn. rewrite lookup_delete_Some. intros [_ ?]. by apply Hr1.
Qed.

(** The catalog controller never panics: started with an empty memory on a
    storage in order, no sequence of reconciliations dereferences the missing
    image of a source that is not an image, nor finds the spec or the metadata
    changed, as long as the API server numbers the generations of each
    catalog's spec; and the storage stays in order. *)
Theorem catalog_controller_never_panics reads st :
  Forall (fun r => match r with inr c => tracked c | inl _ => True end) reads -> inv st ->
  let '(outs, s) := Cat_run reads (mkCState ∅ st []) in
  Forall (fun out => exists res err, out = Ret (res, err)) outs /\ length outs = length reads /\ inv (cs_storage s).
Proof.
  intros Hreads Hi.
  assert (Hr : remembers_images (mkCState ∅ st [])) by (intros n sc; cbn; by rewrite lookup_empty).
  revert Hi Hr. change st with (cs_storage (mkCState ∅ st [])) at 1. generalize (mkCState ∅ st []).
  induction Hreads as [|r reads Hd _ IH]; intros s Hi Hr; [done|]. cbn [Cat_run].
  assert (Hstep : exists res err s', Cat_Reconcile E r s = (Ret (res, err), s') /\ inv (cs_storage s') /\ remembers_images s').
  { destruct r as [e|c]; [by do 3 eexists|by apply Cat_Reconcile_keeps]. }
  destruct Hstep as (res & err & s1 & -> & Hi1 & Hr1). specialize (IH s1 Hi1 Hr1).
  destruct (Cat_run reads s1) as [outs s2]. destruct IH as (H1 & H2 & H3).
  split; [|split; [cbn; by rewrite H2|done]]. constructor; [by exists res, err|done].
Qed.
End Histories.
End Controller.

(** ** Runs, on the storage of LocalDirV1 *)

Module CtrlSamples.

#[local] Instance disk_storage : StorageInstance W (list Meta) :=
  LocalDirV1 fs_sample true (fun metas => (metas, None)) (fun c => "https://host/catalogs/" +:+ c).

Notation disk_ok := (fun h : W => consistent (fun _ => True) (cur h)).
Notation visible := (fun c : string => hidden c = false).

#[local] Instance disk_laws : StorageLaws disk_storage visible disk_ok.
Proof. by apply (LocalDirV1_laws (fun _ => True)). Qed.

(** A registry that has the sample catalog, and a clock that stands still. *)
Definition the_env : CatEnv W (list Meta) :=
  mkCatEnv W (list Meta) (fun _ _ _ => inr (sample_metas, "quay.io/x@sha256:1", 3000000007)) (fun _ _ => None) (fun _ => 10 * Second)
    (fun _ d => d) (fun _ => None) (fun _ => None).

Definition the_spec : ClusterCatalogSpec :=
  mkCatSpec (mkCatSource SourceTypeImage (Some (mkImage "quay.io/x" (Some 10)))) 0 "Available".

Definition the_catalog (deleted : option Z) (st : ClusterCatalogStatus) : ClusterCatalog :=
  mkCatalog (mkMeta "c" "" "uid" 1 ∅ ∅ [fbcDeletionFinalizer] [] 0 deleted) the_spec st.

Definition fresh : ClusterCatalog := the_catalog None (mkCatStatus [] None None None).
Definition s0 : cstate W := mkCState ∅ [None] [].

(** After the first reconciliation. *)
Definition run1 := Cat_Reconcile the_env (inr fresh) s0.
Definition s1 : cstate W := run1.2.

(** The status it sends. *)
Definition st1 : ClusterCatalogStatus :=
  mkCatStatus [progressing_condition 1 None; serving_condition 1]
    (Some (mkResolvedSource SourceTypeImage (Some "quay.io/x@sha256:1"))) (Some "https://host/catalogs/c") (Some 3000000000).

Lemma empty_ok : disk_ok (cs_storage s0).
Proof. intros name fs _. cbn. by rewrite lookup_empty. Qed.

Lemma run1_out : run1.1 = Ret (mkResult (600 * Second), None).
Proof. vm_compute. reflexivity. Qed.

Lemma run1_trace : cs_trace s1 = [CPull "c" "quay.io/x"; CStore "c"; CStatusUpdate st1].
Proof. vm_compute. reflexivity. Qed.

Lemma run1_ret : Cat_Reconcile the_env (inr fresh) s0 = (Ret (mkResult (600 * Second), None), s1).
Proof. change (Cat_Reconcile the_env (inr fresh) s0) with run1. rewrite <- run1_out. apply surjective_pairing. Qed.

Lemma fresh_steady : steady fresh.
Proof. split; [done|]. split; [done|]. apply list_elem_of_here. Qed.

#[local] Opaque s1.

Lemma settled_or_retried_witness :
  exists c, same_catalog fresh c /\ settled s1 c /\
    (cat_Status c = cat_Status fresh \/ CStatusUpdate (cat_Status c) ∈ cs_trace s1).
Proof.
  destruct (settled_or_retried visible disk_ok the_env fresh s0 (mkResult (600 * Second)) None s1) as [H|[H _]].
  - reflexivity.
  - exact empty_ok.
  - exact fresh_steady.
  - exact run1_ret.
  - exact H.
  - by destruct H.
Defined.

(** The catalog as the API server has it after that. *)
Definition ready : ClusterCatalog := the_catalog None st1.

Lemma ready_steady : steady ready.
Proof. split; [done|]. split; [done|]. apply list_elem_of_here. Qed.

Lemma s1_memory : cs_stored s1 !! "c" = Some (mkStored "quay.io/x@sha256:1" 3000000007 (10 * Second) 1).
Proof. vm_compute. reflexivity. Qed.

Lemma s1_content : inst_ContentExists (cs_storage s1) "c" = true.
Proof. vm_compute. reflexivity. Qed.

Lemma ready_settled : settled s1 ready.
Proof. eexists. split; [exact s1_memory|]. split; [exact s1_content|]. split; [done|]. by split_and!. Qed.

Lemma ready_not_due : poll_not_due the_env s1 ready.
Proof. intros sc img m H [= <-] [= <-]. change (cat_Name ready) with "c" in H. rewrite s1_memory in H. by injection H as <-. Qed.

Lemma settled_is_quiet_witness : exists res, Cat_Reconcile the_env (inr ready) s1 = (Ret (res, None), s1).
Proof.
  apply (settled_is_quiet the_env ready s1).
  - exact ready_steady.
  - exact ready_settled.
  - split; [reflexivity|discriminate].
  - constructor; [right; reflexivity|]. constructor; [left; reflexivity|constructor].
  - exact ready_not_due.
Defined.

(** Then the catalog is deleted; the calls are counted anew. *)
Definition doomed_catalog : ClusterCatalog := the_catalog (Some 7) st1.
Definition s2 : cstate W := mkCState (cs_stored s1) (cs_storage s1) [].
Definition run3 := Cat_Reconcile the_env (inr doomed_catalog) s2.

Lemma s2_ok : disk_ok (cs_storage s2).
Proof.
  destruct (Cat_Reconcile_keeps visible disk_ok the_env (fun _ _ => the_spec) fresh s0) as (res & err & s' & Hr & Hi & _).
  - done.
  - exact empty_ok.
  - intros n sc. cbn. by rewrite lookup_empty.
  - pose proof (f_equal snd (eq_trans (eq_sym Hr) run1_ret)) as E. cbn [snd] in E. subst s'. exact Hi.
Qed.

Lemma run3_patch : CPatchFinalizers [] ∈ cs_trace run3.2.
Proof. apply last_Some_elem_of. vm_compute. reflexivity. Qed.

Lemma catalog_finalizer_released_clean_witness : clean run3.2 "c".
Proof.
  refine (catalog_finalizer_released_clean visible disk_ok the_env doomed_catalog s2 run3.1 run3.2 [] _ _ _ _ _ _ _).
  - reflexivity.
  - exact s2_ok.
  - reflexivity.
  - apply list_elem_of_here.
  - apply surjective_pairing.
  - exact run3_patch.
  - apply not_elem_of_nil.
Defined.

Lemma catalog_controller_never_panics_witness :
  let '(outs, s) := Cat_run the_env [inr fresh; inl (EApi KNotFound "gone"); inr ready; inr doomed_catalog] s0 in
  Forall (fun out => exists res err, out = Ret (res, err)) outs /\ length outs = 4%nat /\ disk_ok (cs_storage s).
Proof.
  apply (catalog_controller_never_panics visible disk_ok the_env (fun _ _ => the_spec)
           [inr fresh; inl (EApi KNotFound "gone"); inr ready; inr doomed_catalog] [None]).
  - by repeat constructor.
  - exact empty_ok.
Defined.

End CtrlSamples.
