(* ===== verification/Bundle.v ===== *)
(** * Registry+v1 bundles

    The data of src/internal/operator-controller/rukpak/bundle/registryv1.go:
    the cluster service version (CSV) of a bundle with its deployments,
    permissions and webhooks, its custom resource definitions and its other
    objects; the pod templates of Kubernetes' deployments; and the naming helper
    of rukpak/util/util.go.

    Of the Kubernetes types the fields the code reads or writes are modelled;
    what it only passes on is JSON.  A nil map and an empty one are told apart
    only where the code does. *)

From Stdlib Require Import Ascii.
From S2P Require Import Prelude GoErrors ApiTypes Rbac.

(** ** Pod templates *)

(** corev1.EnvVar *)
Record EnvVar := mkEnvVar { ev_Name : string; ev_Value : json }.

(** corev1.Volume: a Secret with its items (key and path), or another source. *)
Inductive VolumeSource :=
| SecretVolume (secretName : string) (items : list (string * string))
| OtherVolume (source : json).
Record Volume := mkVolume { vol_Name : string; vol_Source : VolumeSource }.

(** corev1.VolumeMount *)
Record VolumeMount := mkMount { vm_Name : string; vm_MountPath : string; vm_Options : json }.

(** corev1.Container *)
Record Container := mkContainer {
  c_Env : list EnvVar;
  c_EnvFrom : list json;
  c_VolumeMounts : list VolumeMount;
  c_Resources : json;
  c_Rest : json;
}.

(** corev1.NodeAffinity, PodAffinity (also for anti-affinity) and Affinity *)
Record NodeAffinity := mkNodeAffinity {
  na_Required : option (list json);        (* its NodeSelectorTerms *)
  na_Preferred : list json;
}.
Record PodAffinity := mkPodAffinity { pf_Required : list json; pf_Preferred : list json }.
Record Affinity := mkAffinity {
  af_Node : option NodeAffinity;
  af_Pod : option PodAffinity;
  af_PodAnti : option PodAffinity;
}.

(** corev1.PodTemplateSpec *)
Record PodTemplate := mkTemplate {
  pt_Annotations : gmap string string;
  pt_Containers : list Container;
  pt_InitContainers : list Container;
  pt_Volumes : list Volume;
  pt_Tolerations : list json;
  pt_NodeSelector : option (gmap string string);
  pt_Affinity : option Affinity;
  pt_Rest : json;
}.

(** appsv1.DeploymentSpec *)
Record DeploymentSpec := mkDeploymentSpec {
  ds_Selector : option (gmap string string);     (* its MatchLabels *)
  ds_RevisionHistoryLimit : option Z;
  ds_Template : PodTemplate;
  ds_Rest : json;
}.

#[export] Instance EnvVar_eq_dec : EqDecision EnvVar.
Proof. solve_decision. Defined.
#[export] Instance VolumeSource_eq_dec : EqDecision VolumeSource.
Proof. solve_decision. Defined.
#[export] Instance Volume_eq_dec : EqDecision Volume.
Proof. solve_decision. Defined.
#[export] Instance VolumeMount_eq_dec : EqDecision VolumeMount.
Proof. solve_decision. Defined.

Definition with_Containers (cs : list Container) (t : PodTemplate) : PodTemplate :=
  mkTemplate (pt_Annotations t) cs (pt_InitContainers t) (pt_Volumes t) (pt_Tolerations t) (pt_NodeSelector t) (pt_Affinity t) (pt_Rest t).
Definition with_Volumes (vs : list Volume) (t : PodTemplate) : PodTemplate :=
  mkTemplate (pt_Annotations t) (pt_Containers t) (pt_InitContainers t) vs (pt_Tolerations t) (pt_NodeSelector t) (pt_Affinity t) (pt_Rest t).
Definition with_Tolerations (ts : list json) (t : PodTemplate) : PodTemplate :=
  mkTemplate (pt_Annotations t) (pt_Containers t) (pt_InitContainers t) (pt_Volumes t) ts (pt_NodeSelector t) (pt_Affinity t) (pt_Rest t).
Definition with_NodeSelector (s : option (gmap string string)) (t : PodTemplate) : PodTemplate :=
  mkTemplate (pt_Annotations t) (pt_Containers t) (pt_InitContainers t) (pt_Volumes t) (pt_Tolerations t) s (pt_Affinity t) (pt_Rest t).
Definition with_Affinity (a : option Affinity) (t : PodTemplate) : PodTemplate :=
  mkTemplate (pt_Annotations t) (pt_Containers t) (pt_InitContainers t) (pt_Volumes t) (pt_Tolerations t) (pt_NodeSelector t) a (pt_Rest t).
Definition with_TemplateAnnotations (m : gmap string string) (t : PodTemplate) : PodTemplate :=
  mkTemplate m (pt_Containers t) (pt_InitContainers t) (pt_Volumes t) (pt_Tolerations t) (pt_NodeSelector t) (pt_Affinity t) (pt_Rest t).
Definition with_Env (l : list EnvVar) (c : Container) : Container :=
  mkContainer l (c_EnvFrom c) (c_VolumeMounts c) (c_Resources c) (c_Rest c).
Definition with_EnvFrom (l : list json) (c : Container) : Container :=
  mkContainer (c_Env c) l (c_VolumeMounts c) (c_Resources c) (c_Rest c).
Definition with_VolumeMounts (l : list VolumeMount) (c : Container) : Container :=
  mkContainer (c_Env c) (c_EnvFrom c) l (c_Resources c) (c_Rest c).
Definition with_Resources (r : json) (c : Container) : Container :=
  mkContainer (c_Env c) (c_EnvFrom c) (c_VolumeMounts c) r (c_Rest c).

(** ** The cluster service version *)

(** v1alpha1.InstallMode *)
Definition InstallModeTypeOwnNamespace : string := "OwnNamespace".
Definition InstallModeTypeSingleNamespace : string := "SingleNamespace".
Definition InstallModeTypeMultiNamespace : string := "MultiNamespace".
Definition InstallModeTypeAllNamespaces : string := "AllNamespaces".

Record InstallMode := mkInstallMode { im_Type : string; im_Supported : bool }.

#[export] Instance InstallMode_eq_dec : EqDecision InstallMode.
Proof. solve_decision. Defined.

(** v1alpha1.StrategyDeploymentSpec, StrategyDeploymentPermissions *)
Record StrategyDeploymentSpec := mkDepSpec {
  dep_Name : string;
  dep_Label : gmap string string;
  dep_Spec : DeploymentSpec;
}.
Record StrategyPermission := mkPermission { sdp_ServiceAccountName : string; sdp_Rules : list PolicyRule }.

(** intstr.IntOrString *)
Inductive IntOrString := IntVal (n : Z) | StrVal (s : string).

#[export] Instance IntOrString_eq_dec : EqDecision IntOrString.
Proof. solve_decision. Defined.

(** admissionregistrationv1.RuleWithOperations *)
Record WebhookRule := mkWebhookRule { wr_APIGroups : list string; wr_Resources : list string; wr_Rest : json }.

(** v1alpha1.WebhookDescription *)
Definition ValidatingAdmissionWebhook : string := "ValidatingAdmissionWebhook".
Definition MutatingAdmissionWebhook : string := "MutatingAdmissionWebhook".
Definition ConversionWebhook : string := "ConversionWebhook".

Record WebhookDescription := mkWebhook {
  wh_Type : string;
  wh_GenerateName : string;
  wh_DeploymentName : string;
  wh_ContainerPort : Z;
  wh_TargetPort : option IntOrString;
  wh_Rules : list WebhookRule;
  wh_ConversionCRDs : list string;
  wh_WebhookPath : option string;
  wh_AdmissionReviewVersions : list string;
  wh_ReinvocationPolicy : option string;
  wh_Options : json;             (* policies, selectors, side effects, timeout *)
}.

(** v1alpha1.ClusterServiceVersion *)
Record ClusterServiceVersion := mkCSV {
  csv_Name : string;
  csv_Annotations : gmap string string;
  csv_InstallModes : list InstallMode;
  csv_DeploymentSpecs : list StrategyDeploymentSpec;
  csv_Permissions : list StrategyPermission;
  csv_ClusterPermissions : list StrategyPermission;
  csv_WebhookDefinitions : list WebhookDescription;
  csv_OwnedCRDs : list string;                     (* CustomResourceDefinitions.Owned *)
  csv_OwnedAPIServices : list string;              (* APIServiceDefinitions.Owned *)
}.

(** ServiceReference of admissionregistrationv1 and apiextensionsv1; a port
    that is not set counts as 443, the default of the API. *)
Record ServiceReference := mkServiceReference { sr_Namespace : string; sr_Name : string; sr_Path : option string; sr_Port : Z }.

(** apiextensionsv1.CustomResourceConversion as this code makes it: by a
    webhook at a service. *)
Record CRDConversion := mkConversion {
  cv_Namespace : string;
  cv_Service : string;
  cv_Path : string;
  cv_Port : Z;
  cv_ReviewVersions : list string;
}.

(** spec.conversion: one this code made, or one the definition came with,
    which refers to a service if it is by a webhook at one. *)
Inductive Conversion :=
| ByWebhook (v : CRDConversion)
| AsShipped (service : option ServiceReference) (rest : json).

(** apiextensionsv1.CustomResourceDefinition *)
Record CustomResourceDefinition := mkCRD {
  crd_Name : string;
  crd_Annotations : gmap string string;
  crd_PreserveUnknownFields : bool;
  crd_Conversion : option Conversion;
  crd_Rest : json;                                 (* without spec.conversion *)
}.

(** type RegistryV1 struct *)
Record RegistryV1 := mkRegistryV1 {
  rv_PackageName : string;
  rv_CSV : ClusterServiceVersion;
  rv_CRDs : list CustomResourceDefinition;
  rv_Others : list Unstructured;
}.

(** ** Names *)

(** strings.ReplaceAll of one character by another *)
Fixpoint replace_char (a b : ascii) (s : string) : string :=
  match s with
  | EmptyString => EmptyString
  | String c s' => String (if bool_decide (c = a) then b else c) (replace_char a b s')
  end.

Definition maxNameLength : Z := 63.

(** func ObjectNameForBaseAndSuffix(base, suffix) string; slicing to a negative
    length panics, which takes a suffix of more than 62 bytes. *)
Definition ObjectNameForBaseAndSuffix (base suffix : string) : go string :=
  if maxNameLength <? slen base + slen suffix then
    let n := maxNameLength - slen suffix - 1 in
    if n <? 0 then Panic "slice bounds out of range" else Ret (str_takeZ n base +:+ "-" +:+ suffix)
  else Ret (base +:+ "-" +:+ suffix).

(** For a suffix of at most 62 bytes, as all suffixes of the code are. *)
Definition object_name (base suffix : string) : string :=
  if maxNameLength <? slen base + slen suffix then str_takeZ (maxNameLength - slen suffix - 1) base +:+ "-" +:+ suffix
  else base +:+ "-" +:+ suffix.

(** func MergeMaps(maps...) map[string]string: later maps win. *)
Definition MergeMaps (a b : gmap string string) : gmap string string := b ∪ a.
