(* ===== verification/DeployConfig.v ===== *)
(** * Deployment configuration

    src/internal/operator-controller/rukpak/render/registryv1/generators/generators.go:
    the certificate volumes of deployments that serve webhooks, and the
    customizations a user's configuration applies to a deployment.

    The code writes to the deployment in place; its containers share memory
    with the bundle they come from, which nothing reads again.  Here each
    function returns the new deployment. *)

From S2P Require Import Prelude GoErrors ApiTypes Rbac Bundle.

(** appsv1.Deployment *)
Record Deployment := mkDeployment {
  de_Name : string;
  de_Namespace : string;
  de_Labels : gmap string string;
  de_Annotations : gmap string string;
  de_Spec : DeploymentSpec;
}.

Definition de_Template (d : Deployment) : PodTemplate := ds_Template (de_Spec d).

Definition on_template (f : PodTemplate -> PodTemplate) (d : Deployment) : Deployment :=
  let s := de_Spec d in
  mkDeployment (de_Name d) (de_Namespace d) (de_Labels d) (de_Annotations d)
    (mkDeploymentSpec (ds_Selector s) (ds_RevisionHistoryLimit s) (f (ds_Template s)) (ds_Rest s)).

Definition on_containers (f : Container -> Container) : Deployment -> Deployment :=
  on_template (fun t => with_Containers (map f (pt_Containers t)) t).

(** ** Certificate volumes *)

(** type certVolumeConfig struct, var certVolumeConfigs *)
Record certVolumeConfig := mkCertVolume {
  cvc_Name : string;
  cvc_Path : string;
  cvc_TLSCertPath : string;
  cvc_TLSKeyPath : string;
}.

Definition certVolumeConfigs : list certVolumeConfig :=
  [mkCertVolume "webhook-cert" "/tmp/k8s-webhook-server/serving-certs" "tls.crt" "tls.key";
   mkCertVolume "apiservice-cert" "/apiserver.local.config/certificates" "apiserver.crt" "apiserver.key"].

(** render.CertSecretInfo *)
Record CertSecretInfo := mkSecretInfo { si_SecretName : string; si_CertificateKey : string; si_PrivateKeyKey : string }.

Definition cert_volume (info : CertSecretInfo) (cfg : certVolumeConfig) : Volume :=
  mkVolume (cvc_Name cfg)
    (SecretVolume (si_SecretName info)
       [(si_CertificateKey info, cvc_TLSCertPath cfg); (si_PrivateKeyKey info, cvc_TLSKeyPath cfg)]).

Definition cert_mount (cfg : certVolumeConfig) : VolumeMount := mkMount (cvc_Name cfg) (cvc_Path cfg) JNull.

(** The names of the volumes to remove: the protected ones, and those some
    container mounts at a protected path. *)
Definition volumesToRemove (cs : list Container) : list string :=
  map cvc_Name certVolumeConfigs ++
  concat (map (fun c => map vm_Name
    (List.filter (fun m => bool_decide (vm_MountPath m ∈ map cvc_Path certVolumeConfigs)) (c_VolumeMounts c))) cs).

(** func ensureCorrectDeploymentCertVolumes(dep, certSecretInfo) *)
Definition ensureCorrectDeploymentCertVolumes (dep : Deployment) (certSecretInfo : CertSecretInfo) : Deployment :=
  let remove := volumesToRemove (pt_Containers (de_Template dep)) in
  on_template (fun t =>
    with_Containers
      (map (fun c => with_VolumeMounts
              (List.filter (fun m => negb (bool_decide (vm_Name m ∈ remove))) (c_VolumeMounts c) ++
               map cert_mount certVolumeConfigs) c) (pt_Containers t))
      (with_Volumes
         (List.filter (fun v => negb (bool_decide (vol_Name v ∈ remove))) (pt_Volumes t) ++
          map (cert_volume certSecretInfo) certVolumeConfigs) t)) dep.

(** ** The configuration *)

(** config.DeploymentConfig (v1alpha1.SubscriptionConfig) *)
Record DeploymentConfig := mkDeploymentConfig {
  dc_Env : list EnvVar;
  dc_EnvFrom : list json;
  dc_Volumes : list Volume;
  dc_VolumeMounts : list VolumeMount;
  dc_Tolerations : list json;
  dc_Resources : option json;
  dc_NodeSelector : option (gmap string string);
  dc_Affinity : option Affinity;
  dc_Annotations : gmap string string;
}.

Section Override.
Context {A : Type} (name : A -> string).

(** The index a loop over the list leaves in the map: the last one of a name. *)
Fixpoint last_index (n : string) (l : list A) : option nat :=
  match l with
  | [] => None
  | x :: l' => match last_index n l' with
               | Some i => Some (S i)
               | None => if bool_decide (name x = n) then Some 0%nat else None
               end
  end.

(** The loop that overrides an existing entry of the same name or appends; the
    index map was built from [existing], before the loop. *)
Fixpoint override_loop (existing cfg l : list A) : list A :=
  match cfg with
  | [] => l
  | x :: cfg' =>
      override_loop existing cfg'
        (match last_index (name x) existing with Some i => <[i := x]> l | None => l ++ [x] end)
  end.

Definition override (cfg l : list A) : list A := override_loop l cfg l.
End Override.

(** The loop that appends what is not there yet. *)
Fixpoint append_new (cfg l : list json) : list json :=
  match cfg with
  | [] => l
  | x :: cfg' => append_new cfg' (if bool_decide (x ∈ l) then l else l ++ [x])
  end.

(** func applyEnvironmentConfig(deployment, config) *)
Definition applyEnvironmentConfig (config : DeploymentConfig) (d : Deployment) : Deployment :=
  match dc_Env config with
  | [] => d
  | env => on_containers (fun c => with_Env (override ev_Name env (c_Env c)) c) d
  end.

(** func applyEnvironmentFromConfig(deployment, config) *)
Definition applyEnvironmentFromConfig (config : DeploymentConfig) (d : Deployment) : Deployment :=
  match dc_EnvFrom config with
  | [] => d
  | from => on_containers (fun c => with_EnvFrom (append_new from (c_EnvFrom c)) c) d
  end.

(** func applyVolumeConfig(deployment, config) *)
Definition applyVolumeConfig (config : DeploymentConfig) (d : Deployment) : Deployment :=
  match dc_Volumes config with
  | [] => d
  | vols => on_template (fun t => with_Volumes (override vol_Name vols (pt_Volumes t)) t) d
  end.

(** func applyVolumeMountConfig(deployment, config) *)
Definition applyVolumeMountConfig (config : DeploymentConfig) (d : Deployment) : Deployment :=
  match dc_VolumeMounts config with
  | [] => d
  | mounts => on_containers (fun c => with_VolumeMounts (override vm_Name mounts (c_VolumeMounts c)) c) d
  end.

(** func applyTolerationsConfig(deployment, config) *)
Definition applyTolerationsConfig (config : DeploymentConfig) (d : Deployment) : Deployment :=
  match dc_Tolerations config with
  | [] => d
  | ts => on_template (fun t => with_Tolerations (append_new ts (pt_Tolerations t)) t) d
  end.

(** func applyResourcesConfig(deployment, config) *)
Definition applyResourcesConfig (config : DeploymentConfig) (d : Deployment) : Deployment :=
  match dc_Resources config with
  | None => d
  | Some r => on_containers (with_Resources r) d
  end.

(** func applyNodeSelectorConfig(deployment, config) *)
Definition applyNodeSelectorConfig (config : DeploymentConfig) (d : Deployment) : Deployment :=
  match dc_NodeSelector config with
  | None => d
  | Some s => on_template (with_NodeSelector (Some s)) d
  end.

Definition is_nil {A} (l : list A) : bool := match l with [] => true | _ => false end.

(** func isNodeAffinityEmpty(na) bool, isPodAffinityEmpty, isPodAntiAffinityEmpty *)
Definition isNodeAffinityEmpty (na : option NodeAffinity) : bool :=
  match na with
  | None => true
  | Some na => match na_Required na with None => true | Some terms => is_nil terms end && is_nil (na_Preferred na)
  end.

Definition isPodAffinityEmpty (pa : option PodAffinity) : bool :=
  match pa with
  | None => true
  | Some pa => is_nil (pf_Required pa) && is_nil (pf_Preferred pa)
  end.

(** func isAffinityEmpty(a) bool *)
Definition isAffinityEmpty (a : option Affinity) : bool :=
  match a with
  | None => true
  | Some a => isNodeAffinityEmpty (af_Node a) && isPodAffinityEmpty (af_Pod a) && isPodAffinityEmpty (af_PodAnti a)
  end.

(** A sub-attribute of the configuration over one of the deployment. *)
Definition sub_affinity {A} (is_empty : option A -> bool) (cfg old : option A) : option A :=
  match cfg with
  | None => old
  | Some _ => if is_empty cfg then None else cfg
  end.

(** func applyAffinityConfig(deployment, config) *)
Definition applyAffinityConfig (config : DeploymentConfig) (d : Deployment) : Deployment :=
  match dc_Affinity config with
  | None => d
  | Some (mkAffinity None None None) => on_template (with_Affinity None) d
  | Some cfg =>
      on_template (fun t =>
        let old := default (mkAffinity None None None) (pt_Affinity t) in
        let new := mkAffinity (sub_affinity isNodeAffinityEmpty (af_Node cfg) (af_Node old))
                     (sub_affinity isPodAffinityEmpty (af_Pod cfg) (af_Pod old))
                     (sub_affinity isPodAffinityEmpty (af_PodAnti cfg) (af_PodAnti old)) in
        with_Affinity (if isAffinityEmpty (Some new) then None else Some new) t) d
  end.

(** func applyAnnotationsConfig(deployment, config) *)
Definition applyAnnotationsConfig (config : DeploymentConfig) (d : Deployment) : Deployment :=
  let d := on_template (fun t => with_TemplateAnnotations (pt_Annotations t ∪ dc_Annotations config) t) d in
  mkDeployment (de_Name d) (de_Namespace d) (de_Labels d) (de_Annotations d ∪ dc_Annotations config) (de_Spec d).

(** func applyCustomConfigToDeployment(deployment, config) *)
Definition applyCustomConfigToDeployment (deployment : Deployment) (config : option DeploymentConfig) : Deployment :=
  match config with
  | None => deployment
  | Some config =>
      let d := applyEnvironmentConfig config deployment in
      let d := applyEnvironmentFromConfig config d in
      let d := applyVolumeConfig config d in
      let d := applyVolumeMountConfig config d in
      let d := applyTolerationsConfig config d in
      let d := applyResourcesConfig config d in
      let d := applyNodeSelectorConfig config d in
      let d := applyAffinityConfig config d in
      applyAnnotationsConfig config d
  end.
