(* ===== verification/DeployConfigProps.v ===== *)
(** * Correctness of the deployment configuration

    What a container sees of the environment and the mounts it is given, that
    applying a configuration twice is applying it once, and that the
    certificate volumes are in place and the only ones at their paths. *)

From S2P Require Import Prelude GoErrors ApiTypes Rbac Bundle DeployConfig.

(** ** Overriding by name *)

Section Override.
Context {A : Type} (name : A -> string).

(** The entry of a name that counts: the last one. *)
Fixpoint last_named (n : string) (l : list A) : option A :=
  match l with
  | [] => None
  | x :: l' => match last_named n l' with Some y => Some y | None => if bool_decide (name x = n) then Some x else None end
  end.

Lemma last_named_index n l : last_named n l = last_index name n l ≫= fun i => l !! i.
Proof.
  induction l as [|x l IH]; [done|]. cbn. rewrite IH. destruct (last_index name n l) as [i|] eqn:Ei; cbn; [|by case_bool_decide].
  destruct (l !! i) eqn:El; [done|]. cbn in IH.
  assert (Hi : forall l i, last_index name n l = Some i -> is_Some (l !! i)).
  { clear. induction l as [|x l IH]; intros i; cbn; [done|]. destruct (last_index name n l) as [j|]; [intros [= <-]; by apply IH|].
    case_bool_decide; [intros [= <-]; by eexists|done]. }
  destruct (Hi _ _ Ei). congruence.
Qed.

Lemma last_index_some n l i : last_index name n l = Some i -> exists x, l !! i = Some x /\ name x = n.
Proof.
  revert i. induction l as [|x l IH]; intros i; cbn; [done|]. destruct (last_index name n l) as [j|].
  - intros [= <-]. by apply IH.
  - case_bool_decide; [intros [= <-]; by exists x|done].
Qed.

Lemma last_index_none n l : last_index name n l = None <-> n ∉ map name l.
Proof.
  induction l as [|x l IH]; cbn; [split; [intros _; apply not_elem_of_nil|done]|].
  rewrite not_elem_of_cons. destruct (last_index name n l) as [j|].
  - split; [done|]. intros [_ H]. by apply IH in H.
  - case_bool_decide as Hn; split; try done; naive_solver.
Qed.

Lemma last_index_names n l l' : map name l = map name l' -> last_index name n l = last_index name n l'.
Proof.
  revert l'. induction l as [|x l IH]; intros [|x' l']; cbn; try done. intros [= H1 H2]. by rewrite (IH l' H2), H1.
Qed.

Lemma last_index_app n l suf :
  n ∉ map name suf -> last_index name n (l ++ suf) = last_index name n l.
Proof.
  intros Hs. induction l as [|x l IH]; cbn; [by apply last_index_none|]. by rewrite IH.
Qed.

Lemma last_named_app n l l' :
  last_named n (l ++ l') = match last_named n l' with Some x => Some x | None => last_named n l end.
Proof. induction l as [|x l IH]; cbn; [by destruct (last_named n l')|]. rewrite IH. by destruct (last_named n l'). Qed.

Lemma last_named_none n l : last_named n l = None <-> n ∉ map name l.
Proof.
  rewrite last_named_index, <- last_index_none. destruct (last_index name n l) as [i|] eqn:Ei; cbn; [|done].
  apply last_index_some in Ei as (x & -> & _). done.
Qed.

Lemma insert_names l i x y : l !! i = Some y -> name y = name x -> map name (<[i:=x]> l) = map name l.
Proof.
  intros Hl Hn. change (map name) with (fmap (M:=list) name). rewrite list_fmap_insert.
  apply list_insert_id. rewrite list_lookup_fmap, Hl. cbn. by rewrite Hn.
Qed.

(** Replacing the last entry of a name. *)
Lemma last_named_insert l i x n :
  last_index name (name x) l = Some i ->
  last_named n (<[i:=x]> l) = if bool_decide (name x = n) then Some x else last_named n l.
Proof.
  intros Hi. destruct (last_index_some _ _ _ Hi) as (y & Hy & Hn). pose proof (insert_names l i x y Hy Hn) as Hm.
  rewrite !last_named_index, (last_index_names n (<[i:=x]> l) l Hm). case_bool_decide as E.
  - subst n. rewrite Hi. cbn. apply list_lookup_insert_eq. by eapply lookup_lt_Some.
  - destruct (last_index name n l) as [j|] eqn:Ej; [|done]. cbn. apply list_lookup_insert_ne. intros ->.
    destruct (last_index_some _ _ _ Ej) as (z & Hz & Hzn). congruence.
Qed.

(** The state of the loop: the entries that were there, by name, and what was appended. *)
Definition loop_state (existing l : list A) : Prop :=
  exists pre suf, l = pre ++ suf /\ map name pre = map name existing /\
    forall n, n ∈ map name suf -> n ∉ map name existing.

Lemma loop_index existing l n i :
  loop_state existing l -> last_index name n existing = Some i -> last_index name n l = Some i.
Proof.
  intros (pre & suf & -> & Hp & Hs) Hi. rewrite last_index_app, (last_index_names n pre existing Hp); [done|].
  intros Hin. apply Hs in Hin. apply last_index_none in Hin. congruence.
Qed.

Lemma loop_step existing l x :
  loop_state existing l ->
  loop_state existing (match last_index name (name x) existing with Some i => <[i:=x]> l | None => l ++ [x] end).
Proof.
  intros (pre & suf & -> & Hp & Hs). destruct (last_index name (name x) existing) as [i|] eqn:Ei.
  - rewrite <- (last_index_names (name x) pre existing Hp) in Ei. destruct (last_index_some _ _ _ Ei) as (y & Hy & Hn).
    exists (<[i:=x]> pre), suf. split; [apply insert_app_l; by eapply lookup_lt_Some|]. split; [|done].
    by rewrite (insert_names pre i x y Hy Hn).
  - exists pre, (suf ++ [x]). split; [by rewrite app_assoc|]. split; [done|]. intros n. rewrite map_app, elem_of_app.
    intros [H|H]; [by apply Hs|]. apply list_elem_of_singleton in H as ->. by apply last_index_none.
Qed.

Lemma override_loop_named existing cfg n : forall l,
  loop_state existing l ->
  last_named n (override_loop name existing cfg l) = match last_named n cfg with Some x => Some x | None => last_named n l end.
Proof.
  induction cfg as [|x cfg IH]; intros l Hl; [done|]. cbn [override_loop]. rewrite IH by by apply loop_step. cbn [last_named].
  destruct (last_named n cfg); [done|]. destruct (last_index name (name x) existing) as [i|] eqn:Ei.
  - rewrite last_named_insert by by eapply loop_index. by case_bool_decide.
  - rewrite last_named_app. cbn. by case_bool_decide.
Qed.

(** The configuration's entry of a name counts; without one, the old one does. *)
Lemma override_named cfg l n :
  last_named n (override name cfg l) = match last_named n cfg with Some x => Some x | None => last_named n l end.
Proof.
  apply override_loop_named. exists l, []. rewrite app_nil_r. split; [done|]. split; [done|]. intros ? H. by apply not_elem_of_nil in H.
Qed.

(** When every name is there already, only the last entries of the names change. *)
Lemma override_loop_lookup existing cfg : forall l,
  map name l = map name existing -> (forall x, x ∈ cfg -> name x ∈ map name existing) ->
  forall i, override_loop name existing cfg l !! i =
    (fun y => if bool_decide (last_index name (name y) existing = Some i) then default y (last_named (name y) cfg) else y) <$> l !! i.
Proof.
  induction cfg as [|x cfg IH]; intros l Hl Hc i; cbn [override_loop last_named].
  { destruct (l !! i) as [y|]; [|done]. cbn. by case_bool_decide. }
  destruct (last_index name (name x) existing) as [j|] eqn:Ej.
  2:{ exfalso. apply last_index_none in Ej. apply Ej, Hc. by left. }
  pose proof Ej as Ej'. rewrite <- (last_index_names (name x) l existing Hl) in Ej'.
  destruct (last_index_some _ _ _ Ej') as (y & Hy & Hn).
  rewrite IH; [|by rewrite (insert_names l j x y Hy Hn)|intros z Hz; apply Hc; by right].
  destruct (decide (i = j)) as [->|Hne].
  - rewrite list_lookup_insert_eq by (by eapply lookup_lt_Some). rewrite Hy. cbn. rewrite Hn, Ej, !bool_decide_true by done.
    by destruct (last_named (name x) cfg).
  - rewrite list_lookup_insert_ne by done. destruct (l !! i) as [z|] eqn:Ez; [|done]. cbn. f_equal.
    case_bool_decide as Hi; [|done]. rewrite bool_decide_false; [by destruct (last_named (name z) cfg)|]. intros Hxz. congruence.
Qed.

Lemma override_loop_all existing cfg : forall l x, x ∈ cfg -> loop_state existing l -> name x ∈ map name (override_loop name existing cfg l).
Proof.
  intros l x Hx Hl. destruct (decide (name x ∈ map name (override_loop name existing cfg l))) as [|Hn]; [done|]. exfalso.
  apply last_named_none in Hn. rewrite override_loop_named in Hn by done. destruct (last_named (name x) cfg) eqn:E; [done|].
  apply last_named_none in E. apply E. change (map name cfg) with (name <$> cfg). by apply list_elem_of_fmap_2.
Qed.

Lemma override_idempotent cfg l : override name cfg (override name cfg l) = override name cfg l.
Proof.
  set (l' := override name cfg l). apply list_eq. intros i. unfold override at 1. rewrite override_loop_lookup; [|done|].
  - destruct (l' !! i) as [y|] eqn:Ey; [|done]. cbn. f_equal. case_bool_decide as Hi; [|done].
    assert (Hl : last_named (name y) l' = Some y) by (by rewrite last_named_index, Hi).
    unfold l' in Hl. rewrite override_named in Hl. destruct (last_named (name y) cfg); [|done]. by injection Hl as ->.
  - intros x Hx. apply override_loop_all; [done|]. exists l, []. rewrite app_nil_r. split; [done|]. split; [done|].
    intros ? H. by apply not_elem_of_nil in H.
Qed.

Lemma override_nil l : override name [] l = l.
Proof. done. Qed.
End Override.

Lemma append_new_sub cfg l : (forall x, x ∈ cfg -> x ∈ l) -> append_new cfg l = l.
Proof.
  induction cfg as [|x cfg IH]; intros H; [done|]. cbn. rewrite bool_decide_true by (apply H; by left). apply IH. intros y Hy. apply H. by right.
Qed.

Lemma elem_append_new cfg : forall l x, x ∈ append_new cfg l <-> x ∈ cfg \/ x ∈ l.
Proof.
  induction cfg as [|y cfg IH]; intros l x; cbn; [set_solver|]. rewrite IH. case_bool_decide; set_solver.
Qed.

Lemma append_new_idempotent cfg l : append_new cfg (append_new cfg l) = append_new cfg l.
Proof. apply append_new_sub. intros x Hx. apply elem_append_new. by left. Qed.

(** ** The whole configuration *)

(** What the configuration makes of a container, an affinity and a deployment. *)
Definition configured_container (cfg : DeploymentConfig) (c : Container) : Container :=
  mkContainer (override ev_Name (dc_Env cfg) (c_Env c)) (append_new (dc_EnvFrom cfg) (c_EnvFrom c))
    (override vm_Name (dc_VolumeMounts cfg) (c_VolumeMounts c)) (default (c_Resources c) (dc_Resources cfg)) (c_Rest c).

Definition configured_affinity (cfg : DeploymentConfig) (a : option Affinity) : option Affinity :=
  match dc_Affinity cfg with
  | None => a
  | Some (mkAffinity None None None) => None
  | Some c =>
      let old := default (mkAffinity None None None) a in
      let new := mkAffinity (sub_affinity isNodeAffinityEmpty (af_Node c) (af_Node old))
                   (sub_affinity isPodAffinityEmpty (af_Pod c) (af_Pod old))
                   (sub_affinity isPodAffinityEmpty (af_PodAnti c) (af_PodAnti old)) in
      if isAffinityEmpty (Some new) then None else Some new
  end.

Definition configured (cfg : DeploymentConfig) (d : Deployment) : Deployment :=
  let s := de_Spec d in let t := ds_Template s in
  mkDeployment (de_Name d) (de_Namespace d) (de_Labels d) (de_Annotations d ∪ dc_Annotations cfg)
    (mkDeploymentSpec (ds_Selector s) (ds_RevisionHistoryLimit s)
       (mkTemplate (pt_Annotations t ∪ dc_Annotations cfg) (map (configured_container cfg) (pt_Containers t)) (pt_InitContainers t)
          (override vol_Name (dc_Volumes cfg) (pt_Volumes t)) (append_new (dc_Tolerations cfg) (pt_Tolerations t))
          (match dc_NodeSelector cfg with Some s => Some s | None => pt_NodeSelector t end)
          (configured_affinity cfg (pt_Affinity t)) (pt_Rest t))
       (ds_Rest s)).

Lemma map_id_ext {A} (f : A -> A) l : (forall x, f x = x) -> map f l = l.
Proof. intros H. induction l as [|x l IH]; cbn; by rewrite ?H, ?IH. Qed.

(** A deployment by its parts. *)
Definition parts n ns ls an sel rh ta cs ic vs ts nsel af rest dr : Deployment :=
  mkDeployment n ns ls an (mkDeploymentSpec sel rh (mkTemplate ta cs ic vs ts nsel af rest) dr).

Section Steps.
Context (cfg : DeploymentConfig) (n ns : string) (ls an : gmap string string) (sel : option (gmap string string)) (rh : option Z).
Context (ta : gmap string string) (cs ic : list Container) (vs : list Volume) (ts : list json).
Context (nsel : option (gmap string string)) (af : option Affinity) (rest dr : json).
Local Notation P cs vs ts nsel af := (parts n ns ls an sel rh ta cs ic vs ts nsel af rest dr).

Lemma env_step : applyEnvironmentConfig cfg (P cs vs ts nsel af) =
  P (map (fun c => with_Env (override ev_Name (dc_Env cfg) (c_Env c)) c) cs) vs ts nsel af.
Proof. unfold applyEnvironmentConfig. destruct (dc_Env cfg); [|done]. rewrite map_id_ext; [done|by intros []]. Qed.

Lemma env_from_step : applyEnvironmentFromConfig cfg (P cs vs ts nsel af) =
  P (map (fun c => with_EnvFrom (append_new (dc_EnvFrom cfg) (c_EnvFrom c)) c) cs) vs ts nsel af.
Proof. unfold applyEnvironmentFromConfig. destruct (dc_EnvFrom cfg); [|done]. rewrite map_id_ext; [done|by intros []]. Qed.

Lemma volume_step : applyVolumeConfig cfg (P cs vs ts nsel af) = P cs (override vol_Name (dc_Volumes cfg) vs) ts nsel af.
Proof. unfold applyVolumeConfig. by destruct (dc_Volumes cfg). Qed.

Lemma mount_step : applyVolumeMountConfig cfg (P cs vs ts nsel af) =
  P (map (fun c => with_VolumeMounts (override vm_Name (dc_VolumeMounts cfg) (c_VolumeMounts c)) c) cs) vs ts nsel af.
Proof. unfold applyVolumeMountConfig. destruct (dc_VolumeMounts cfg); [|done]. rewrite map_id_ext; [done|by intros []]. Qed.

Lemma toleration_step : applyTolerationsConfig cfg (P cs vs ts nsel af) = P cs vs (append_new (dc_Tolerations cfg) ts) nsel af.
Proof. unfold applyTolerationsConfig. by destruct (dc_Tolerations cfg). Qed.

Lemma resource_step : applyResourcesConfig cfg (P cs vs ts nsel af) =
  P (map (fun c => with_Resources (default (c_Resources c) (dc_Resources cfg)) c) cs) vs ts nsel af.
Proof. unfold applyResourcesConfig. destruct (dc_Resources cfg); [done|]. rewrite map_id_ext; [done|by intros []]. Qed.

Lemma selector_step : applyNodeSelectorConfig cfg (P cs vs ts nsel af) =
  P cs vs ts (match dc_NodeSelector cfg with Some s => Some s | None => nsel end) af.
Proof. unfold applyNodeSelectorConfig. by destruct (dc_NodeSelector cfg). Qed.

Lemma affinity_step : applyAffinityConfig cfg (P cs vs ts nsel af) = P cs vs ts nsel (configured_affinity cfg af).
Proof. unfold applyAffinityConfig, configured_affinity. by destruct (dc_Affinity cfg) as [[[?|] [?|] [?|]]|]. Qed.

Lemma annotation_step : applyAnnotationsConfig cfg (P cs vs ts nsel af) =
  parts n ns ls (an ∪ dc_Annotations cfg) sel rh (ta ∪ dc_Annotations cfg) cs ic vs ts nsel af rest dr.
Proof. done. Qed.
End Steps.

Lemma apply_configured cfg d : applyCustomConfigToDeployment d (Some cfg) = configured cfg d.
Proof.
  destruct d as [n ns ls an [sel rh [ta cs ic vs ts nsel af rest] dr]].
  change (mkDeployment n ns ls an _) with (parts n ns ls an sel rh ta cs ic vs ts nsel af rest dr).
  unfold applyCustomConfigToDeployment.
  rewrite env_step, env_from_step, volume_step, mount_step, toleration_step, resource_step, selector_step, affinity_step, annotation_step.
  rewrite !map_map. reflexivity.
Qed.

(** The environment a container ends up with is the configuration's over
    its own: whatever entries of one name there were on either side, the value
    that counts, the last one, is the configuration's last one if it has the
    name, and the container's own otherwise; the same holds of volumes. *)
Theorem config_env_effective cfg d i c n :
  pt_Containers (de_Template d) !! i = Some c ->
  exists c', pt_Containers (de_Template (applyCustomConfigToDeployment d (Some cfg))) !! i = Some c' /\
    last_named ev_Name n (c_Env c') =
      match last_named ev_Name n (dc_Env cfg) with Some e => Some e | None => last_named ev_Name n (c_Env c) end /\
    last_named vol_Name n (pt_Volumes (de_Template (applyCustomConfigToDeployment d (Some cfg)))) =
      match last_named vol_Name n (dc_Volumes cfg) with Some v => Some v | None => last_named vol_Name n (pt_Volumes (de_Template d)) end.
Proof.
  intros Hc. exists (configured_container cfg c). rewrite apply_configured. split.
  - cbn. change (map (configured_container cfg)) with (fmap (M:=list) (configured_container cfg)). rewrite list_lookup_fmap.
    unfold de_Template in Hc. by rewrite Hc.
  - cbn. by rewrite !override_named.
Qed.

Lemma sub_affinity_twice {A} (e : option A -> bool) cfg old :
  sub_affinity e cfg (sub_affinity e cfg old) = sub_affinity e cfg old.
Proof. unfold sub_affinity. by destruct cfg. Qed.

Lemma configured_affinity_twice cfg a : configured_affinity cfg (configured_affinity cfg a) = configured_affinity cfg a.
Proof.
  unfold configured_affinity. destruct (dc_Affinity cfg) as [[n p pa]|]; [|done].
  assert (H : forall old : Affinity,
    let new := mkAffinity (sub_affinity isNodeAffinityEmpty n (af_Node old)) (sub_affinity isPodAffinityEmpty p (af_Pod old))
                 (sub_affinity isPodAffinityEmpty pa (af_PodAnti old)) in
    let res := if isAffinityEmpty (Some new) then None else Some new in
    let old' := default (mkAffinity None None None) res in
    let new' := mkAffinity (sub_affinity isNodeAffinityEmpty n (af_Node old')) (sub_affinity isPodAffinityEmpty p (af_Pod old'))
                 (sub_affinity isPodAffinityEmpty pa (af_PodAnti old')) in
    (if isAffinityEmpty (Some new') then None else Some new') = res).
  { intros old new res. unfold res. destruct (isAffinityEmpty (Some new)) eqn:Ee; cbv zeta; cbn [from_option id af_Node af_Pod af_PodAnti].
    - unfold new, isAffinityEmpty in Ee. cbn in Ee. apply andb_true_iff in Ee as [[E1 E2]%andb_true_iff E3].
      assert (Hs : forall A (e : option A -> bool) cfg old, e None = true -> e (sub_affinity e cfg old) = true -> e (sub_affinity e cfg None) = true).
      { intros A e c o Hn. unfold sub_affinity. destruct c; [done|by intros _]. }
      unfold isAffinityEmpty. cbn. erewrite !Hs by done. done.
    - assert (Hn : mkAffinity (sub_affinity isNodeAffinityEmpty n (af_Node new)) (sub_affinity isPodAffinityEmpty p (af_Pod new))
                     (sub_affinity isPodAffinityEmpty pa (af_PodAnti new)) = new)
        by (unfold new; cbn [af_Node af_Pod af_PodAnti]; by rewrite !sub_affinity_twice).
      rewrite Hn. by rewrite Ee. }
  destruct n, p, pa; try apply H. done.
Qed.

(** Applying a configuration is idempotent: rendering a bundle whose
    deployments carry the configuration already gives the same deployments. *)
Theorem config_idempotent cfg d :
  applyCustomConfigToDeployment (applyCustomConfigToDeployment d cfg) cfg = applyCustomConfigToDeployment d cfg.
Proof.
  destruct cfg as [cfg|]; [|done]. rewrite !apply_configured. unfold configured.
  cbn [de_Name de_Namespace de_Labels de_Annotations de_Spec ds_Selector ds_RevisionHistoryLimit ds_Template ds_Rest
       pt_Annotations pt_Containers pt_InitContainers pt_Volumes pt_Tolerations pt_NodeSelector pt_Affinity pt_Rest].
  assert (Hc : forall c, configured_container cfg (configured_container cfg c) = configured_container cfg c).
  { intros c. unfold configured_container. cbn. rewrite !override_idempotent, append_new_idempotent. by destruct (dc_Resources cfg). }
  assert (Hu : forall m : gmap string string, (m ∪ dc_Annotations cfg) ∪ dc_Annotations cfg = m ∪ dc_Annotations cfg).
  { intros m. by rewrite <- (assoc_L (∪)), (idemp_L (∪)). }
  rewrite !Hu, map_map, (map_ext _ _ Hc), override_idempotent, append_new_idempotent, configured_affinity_twice.
  by destruct (dc_NodeSelector cfg).
Qed.

(** ** Certificate volumes *)

(** Every mount of the containers has its volume. *)
Definition mounts_resolve (cs : list Container) (vs : list Volume) : Prop :=
  forall c m, c ∈ cs -> m ∈ c_VolumeMounts c -> vm_Name m ∈ map vol_Name vs.

Lemma elem_filter_not {A} (f : A -> string) (remove : list string) (l : list A) x :
  x ∈ List.filter (fun y => negb (bool_decide (f y ∈ remove))) l <-> x ∈ l /\ f x ∉ remove.
Proof.
  rewrite (list_elem_of_In (List.filter _ l)), filter_In, <- list_elem_of_In, negb_true_iff, bool_decide_eq_false. done.
Qed.

Lemma elem_map_iff {A B} (f : A -> B) (l : list A) y : y ∈ map f l <-> exists x, x ∈ l /\ y = f x.
Proof. rewrite list_elem_of_fmap. naive_solver. Qed.

(** A name that is kept is mounted at no protected path. *)
Lemma kept_path cs c m :
  c ∈ cs -> m ∈ c_VolumeMounts c -> vm_Name m ∉ volumesToRemove cs -> vm_MountPath m ∉ map cvc_Path certVolumeConfigs.
Proof.
  intros Hc Hm Hn Hp. apply Hn. unfold volumesToRemove. apply elem_of_app. right.
  rewrite list_elem_of_In, in_concat. exists (map vm_Name (List.filter (fun m => bool_decide (vm_MountPath m ∈ map cvc_Path certVolumeConfigs)) (c_VolumeMounts c))).
  split; [apply in_map_iff; exists c; split; [done|by apply list_elem_of_In]|]. apply in_map. apply filter_In.
  split; [by apply list_elem_of_In|by apply bool_decide_eq_true].
Qed.

(** A deployment that serves webhooks gets its certificates: each container
    mounts the two certificate volumes, nothing else is mounted at their
    paths, the pod's volumes of those names are the secret's, and no mount of a
    container is left without its volume if none was before. *)
Theorem cert_volumes_in_place dep info :
  let t := de_Template dep in
  let t' := de_Template (ensureCorrectDeploymentCertVolumes dep info) in
  length (pt_Containers t') = length (pt_Containers t) /\
  (forall c, c ∈ pt_Containers t' -> forall cfg, cfg ∈ certVolumeConfigs ->
     cert_mount cfg ∈ c_VolumeMounts c /\
     forall m, m ∈ c_VolumeMounts c -> vm_MountPath m = cvc_Path cfg \/ vm_Name m = cvc_Name cfg -> m = cert_mount cfg) /\
  (forall cfg, cfg ∈ certVolumeConfigs -> cert_volume info cfg ∈ pt_Volumes t' /\
     forall v, v ∈ pt_Volumes t' -> vol_Name v = cvc_Name cfg -> v = cert_volume info cfg) /\
  (mounts_resolve (pt_Containers t) (pt_Volumes t) -> mounts_resolve (pt_Containers t') (pt_Volumes t')).
Proof.
  intros t t'. set (remove := volumesToRemove (pt_Containers t)).
  assert (Hcs : pt_Containers t' = map (fun c => with_VolumeMounts
              (List.filter (fun m => negb (bool_decide (vm_Name m ∈ remove))) (c_VolumeMounts c) ++ map cert_mount certVolumeConfigs) c)
              (pt_Containers t)) by done.
  assert (Hvs : pt_Volumes t' = List.filter (fun v => negb (bool_decide (vol_Name v ∈ remove))) (pt_Volumes t) ++
                                map (cert_volume info) certVolumeConfigs) by done.
  assert (Hnames : forall cfg, cfg ∈ certVolumeConfigs -> cvc_Name cfg ∈ remove).
  { intros cfg Hcfg. unfold remove, volumesToRemove. apply elem_of_app. left. apply elem_map_iff. by exists cfg. }
  assert (Hdist : forall cfg cfg', cfg ∈ certVolumeConfigs -> cfg' ∈ certVolumeConfigs ->
    cvc_Path cfg' = cvc_Path cfg \/ cvc_Name cfg' = cvc_Name cfg -> cfg' = cfg).
  { intros cfg cfg' H1 H2. unfold certVolumeConfigs in H1, H2.
    repeat (apply elem_of_cons in H1 as [->|H1] || apply not_elem_of_nil in H1 as []);
      repeat (apply elem_of_cons in H2 as [->|H2] || apply not_elem_of_nil in H2 as []); cbn; naive_solver. }
  split; [by rewrite Hcs, length_map|]. split; [|split].
  - intros c Hc cfg Hcfg. rewrite Hcs in Hc. apply elem_map_iff in Hc as (c0 & Hc0 & ->).
    cbn [c_VolumeMounts with_VolumeMounts]. split.
    + apply elem_of_app. right. apply elem_map_iff. by exists cfg.
    + intros m [Hm|Hm]%elem_of_app Heq.
      * apply elem_filter_not in Hm as [Hm Hk]. exfalso. destruct Heq as [Hp|Hn].
        -- apply (kept_path _ _ _ Hc0 Hm Hk). rewrite Hp. apply elem_map_iff. by exists cfg.
        -- apply Hk. rewrite Hn. by apply Hnames.
      * apply elem_map_iff in Hm as (cfg' & Hcfg' & ->). by rewrite (Hdist cfg cfg').
  - intros cfg Hcfg. rewrite Hvs. split; [apply elem_of_app; right; apply elem_map_iff; by exists cfg|].
    intros v [Hv|Hv]%elem_of_app Hn.
    + apply elem_filter_not in Hv as [_ Hk]. destruct Hk. rewrite Hn. by apply Hnames.
    + apply elem_map_iff in Hv as (cfg' & Hcfg' & ->). rewrite (Hdist cfg cfg'); [done..|by right].
  - intros Hres c m Hc Hm. rewrite Hcs in Hc. apply elem_map_iff in Hc as (c0 & Hc0 & ->).
    cbn [c_VolumeMounts with_VolumeMounts] in Hm.
    rewrite Hvs, map_app, elem_of_app, !elem_map_iff. apply elem_of_app in Hm as [Hm|Hm].
    + apply elem_filter_not in Hm as [Hm Hk]. left. specialize (Hres c0 m Hc0 Hm). apply elem_map_iff in Hres as (v & Hv & Hvn).
      exists v. split; [|done]. apply elem_filter_not. split; [done|]. by rewrite <- Hvn.
    + apply elem_map_iff in Hm as (cfg & Hcfg & ->). right. exists (cert_volume info cfg). split; [apply elem_map_iff; by exists cfg|done].
Qed.

Module ConfigSamples.

(** An operator whose init container prepares, in the volume "cert", what its
    container mounts as the webhook's serving certificates. *)
Definition cert_dep : Deployment :=
  mkDeployment "operator" "ns" ∅ ∅ (mkDeploymentSpec None None
    (mkTemplate ∅ [mkContainer [] [] [mkMount "cert" "/tmp/k8s-webhook-server/serving-certs" JNull] JNull JNull]
       [mkContainer [] [] [mkMount "cert" "/prepared" JNull] JNull JNull]
       [mkVolume "cert" (OtherVolume JNull)] [] None None JNull) JNull).

(** Init containers are forgotten: replacing the certificate volumes removes
    a volume that a container mounts at a protected path also when an init
    container mounts it, whose mount is then left without a volume, so that
    the API server rejects the deployment. *)
Theorem init_container_mount_dangles :
  let t := de_Template cert_dep in
  let t' := de_Template (ensureCorrectDeploymentCertVolumes cert_dep (mkSecretInfo "s" "tls.crt" "tls.key")) in
  mounts_resolve (pt_InitContainers t) (pt_Volumes t) /\ ~ mounts_resolve (pt_InitContainers t') (pt_Volumes t').
Proof.
  split.
  - intros c m [->|H]%elem_of_cons Hm; [|by apply not_elem_of_nil in H]. apply elem_of_cons in Hm as [->|H]; [|by apply not_elem_of_nil in H].
    apply list_elem_of_here.
  - intros H. specialize (H (mkContainer [] [] [mkMount "cert" "/prepared" JNull] JNull JNull) (mkMount "cert" "/prepared" JNull)
      (list_elem_of_here _ _) (list_elem_of_here _ _)). cbn in H.
    repeat (apply elem_of_cons in H as [H|H]; [discriminate|]). by apply not_elem_of_nil in H.
Qed.

(** A mount can get lost: of two mounts of one volume in the
    configuration, only the last one remains when the container already mounts
    that volume, as existing mounts are looked up by the volume's name. *)
Theorem volume_mount_lost :
  let c := mkContainer [] [] [mkMount "data" "/old" JNull] JNull JNull in
  let cfg := mkDeploymentConfig [] [] [] [mkMount "data" "/a" JNull; mkMount "data" "/b" JNull] [] None None None ∅ in
  forall n ns ls an sel rh ta ic vs ts nsel af rest dr,
    let d := parts n ns ls an sel rh ta [c] ic vs ts nsel af rest dr in
    exists c', pt_Containers (de_Template (applyCustomConfigToDeployment d (Some cfg))) = [c'] /\ c_VolumeMounts c' = [mkMount "data" "/b" JNull].
Proof. intros c cfg n ns ls an sel rh ta ic vs ts nsel af rest dr d. by eexists. Qed.

Lemma config_env_effective_witness :
  exists c', pt_Containers (de_Template (applyCustomConfigToDeployment cert_dep
      (Some (mkDeploymentConfig [mkEnvVar "A" (JNum 1); mkEnvVar "A" (JNum 2)] [] [] [] [] None None None ∅)))) !! 0%nat = Some c' /\
    last_named ev_Name "A" (c_Env c') = Some (mkEnvVar "A" (JNum 2)).
Proof.
  destruct (config_env_effective (mkDeploymentConfig [mkEnvVar "A" (JNum 1); mkEnvVar "A" (JNum 2)] [] [] [] [] None None None ∅)
              cert_dep 0 (mkContainer [] [] [mkMount "cert" "/tmp/k8s-webhook-server/serving-certs" JNull] JNull JNull) "A")
    as (c' & H1 & H2 & _).
  - reflexivity.
  - exists c'. split; [exact H1|]. exact H2.
Defined.

End ConfigSamples.
