(* ===== verification/Validate.v ===== *)
(** * Bundle validation

    src/internal/operator-controller/rukpak/render/registryv1/validators/validator.go:
    the thirteen checks of a registry+v1 bundle, and the BundleValidator of
    rukpak/render/render.go that runs them and joins their errors.

    Sets and maps of names are finite sets and maps whose keys the code sorts
    before it reports them, so that no order of iteration shows.  Whether a name
    is a DNS-1123 subdomain (with the complaints, sorted) and whether a kind may
    be in a bundle is decided by libraries, parameters here. *)

From Stdlib Require Import Ascii.
From S2P Require Import Prelude GoErrors ApiTypes Phase Rbac Bundle.

(** slices.Sorted of the elements of a set, of the keys of a map, of a list. *)
Definition slices_Sorted (l : list string) : list string := sort_by string_cmp l.
Definition sorted_elements (s : gset string) : list string := slices_Sorted (elements s).
Definition sorted_keys {A} (m : gmap string A) : list string := sorted_elements (dom m).

(** strings.ToLower, as far as comparing with ASCII names goes: of the other
    characters only the Kelvin sign and the dotted capital I have an ASCII
    letter as their lower case. *)
Definition lower_char (c : ascii) : ascii :=
  let n := nat_of_ascii c in
  if (65 <=? Z.of_nat n) && (Z.of_nat n <=? 90) then ascii_of_nat (n + 32) else c.

Fixpoint ToLower (s : string) : string :=
  match s with
  | String "226" (String "132" (String "170" s')) => String "k" (ToLower s')
  | String "196" (String "176" s') => String "i" (ToLower s')
  | String c s' => String (lower_char c) (ToLower s')
  | EmptyString => EmptyString
  end.

Definition deployment_names (rv1 : RegistryV1) : list string := map dep_Name (csv_DeploymentSpecs (rv_CSV rv1)).
Definition webhooks (rv1 : RegistryV1) : list WebhookDescription := csv_WebhookDefinitions (rv_CSV rv1).
Definition is_conversion (wh : WebhookDescription) : bool := bool_decide (wh_Type wh = ConversionWebhook).

(** The loop that collects the names met a second time. *)
Definition duplicate_names (names : list string) : gset string :=
  (foldl (fun (st : gset string * gset string) n =>
      ({[n]} ∪ st.1, if bool_decide (n ∈ st.1) then {[n]} ∪ st.2 else st.2)) (∅, ∅) names).2.

(** func CheckDeploymentSpecUniqueness(rv1) []error *)
Definition CheckDeploymentSpecUniqueness (rv1 : RegistryV1) : list error :=
  map (fun d => ENew ("cluster service version contains duplicate strategy deployment spec '" +:+ d +:+ "'"))
    (sorted_elements (duplicate_names (deployment_names rv1))).

(** func CheckOwnedCRDExistence(rv1) []error *)
Definition CheckOwnedCRDExistence (rv1 : RegistryV1) : list error :=
  let crdsNames : gset string := list_to_set (map crd_Name (rv_CRDs rv1)) in
  let missingCRDNames : gset string :=
    list_to_set (List.filter (fun n => negb (bool_decide (n ∈ crdsNames))) (csv_OwnedCRDs (rv_CSV rv1))) in
  map (fun n => ENew ("cluster service definition references owned custom resource definition '" +:+ n +:+ "' not found in bundle"))
    (sorted_elements missingCRDNames).

(** func CheckCRDResourceUniqueness(rv1) []error *)
Definition CheckCRDResourceUniqueness (rv1 : RegistryV1) : list error :=
  map (fun n => ENew ("bundle contains duplicate custom resource definition '" +:+ n +:+ "'"))
    (sorted_elements (duplicate_names (map crd_Name (rv_CRDs rv1)))).

(** func CheckPackageNameNotEmpty(rv1) []error *)
Definition CheckPackageNameNotEmpty (rv1 : RegistryV1) : list error :=
  if bool_decide (rv_PackageName rv1 = "") then [ENew "package name is empty"] else [].

(** The install modes a bundle supports (also render.go supportedBundleInstallModes). *)
Definition supportedBundleInstallModes (rv1 : RegistryV1) : gset string :=
  list_to_set (map im_Type (List.filter im_Supported (csv_InstallModes (rv_CSV rv1)))).

(** func CheckConversionWebhookSupport(rv1) []error *)
Definition CheckConversionWebhookSupport (rv1 : RegistryV1) : list error :=
  let conversionWebhookNames := map wh_GenerateName (List.filter is_conversion (webhooks rv1)) in
  match conversionWebhookNames with
  | [] => []
  | _ =>
      let supportedInstallModes := supportedBundleInstallModes rv1 in
      if negb (bool_decide (size supportedInstallModes = 1%nat)) ||
         negb (bool_decide (InstallModeTypeAllNamespaces ∈ supportedInstallModes)) then
        map (fun n => ENew ("bundle contains conversion webhook " +:+ fmt_q n +:+ " and supports install modes " +:+
               fmt_v_strings (sorted_elements supportedInstallModes) +:+
               " - conversion webhooks are only supported for bundles that only support AllNamespaces install mode"))
          conversionWebhookNames
      else []
  end.

(** The comparison of two webhooks by type and name. *)
Definition webhook_cmp (a b : WebhookDescription) : Z :=
  cmp_Or [string_cmp (wh_Type a) (wh_Type b); string_cmp (wh_GenerateName a) (wh_GenerateName b)].

(** func CheckWebhookDeploymentReferentialIntegrity(rv1) []error: what the
    unstable sort may leave in any order is reported in the same words. *)
Definition CheckWebhookDeploymentReferentialIntegrity (rv1 : RegistryV1) : list error :=
  let byDeployment : gmap string (list WebhookDescription) :=
    foldl (fun m wh => <[wh_DeploymentName wh := default [] (m !! wh_DeploymentName wh) ++ [wh]]> m) ∅ (webhooks rv1) in
  let webhooksByDeployment := foldl (fun m n => delete n m) byDeployment (deployment_names rv1) in
  concat (map (fun deploymentName =>
    map (fun wh => ENew ("webhook of type '" +:+ wh_Type wh +:+ "' with name '" +:+ wh_GenerateName wh +:+
                         "' references non-existent deployment '" +:+ wh_DeploymentName wh +:+ "'"))
      (sort_by webhook_cmp (default [] (webhooksByDeployment !! deploymentName))))
    (sorted_keys webhooksByDeployment)).

(** func CheckWebhookNameUniqueness(rv1) []error *)
Definition duplicate_webhooks (whs : list WebhookDescription) : gmap string (gset string) :=
  (foldl (fun (st : gmap string (gset string) * gmap string (gset string)) wh =>
      let seen := default ∅ (st.1 !! wh_Type wh) in
      (<[wh_Type wh := {[wh_GenerateName wh]} ∪ seen]> st.1,
       if bool_decide (wh_GenerateName wh ∈ seen)
       then <[wh_Type wh := {[wh_GenerateName wh]} ∪ default ∅ (st.2 !! wh_Type wh)]> st.2 else st.2)) (∅, ∅) whs).2.

Definition CheckWebhookNameUniqueness (rv1 : RegistryV1) : list error :=
  let duplicates := duplicate_webhooks (webhooks rv1) in
  concat (map (fun whType =>
    map (fun n => ENew ("duplicate webhook '" +:+ n +:+ "' of type '" +:+ whType +:+ "'"))
      (sorted_elements (default ∅ (duplicates !! whType)))) (sorted_keys duplicates)).

(** func CheckConversionWebhooksReferenceOwnedCRDs(rv1) []error: the code sorts
    each conversion webhook's ConversionCRDs where they are, in the bundle, so
    the bundle comes back too.  Webhooks of one name are kept in their order
    here; the library's sort may exchange them, and so their errors. *)
Definition sort_ConversionCRDs (wh : WebhookDescription) : WebhookDescription :=
  mkWebhook (wh_Type wh) (wh_GenerateName wh) (wh_DeploymentName wh) (wh_ContainerPort wh) (wh_TargetPort wh) (wh_Rules wh)
    (slices_Sorted (wh_ConversionCRDs wh)) (wh_WebhookPath wh) (wh_AdmissionReviewVersions wh) (wh_ReinvocationPolicy wh)
    (wh_Options wh).

Definition with_webhooks (whs : list WebhookDescription) (rv1 : RegistryV1) : RegistryV1 :=
  let c := rv_CSV rv1 in
  mkRegistryV1 (rv_PackageName rv1)
    (mkCSV (csv_Name c) (csv_Annotations c) (csv_InstallModes c) (csv_DeploymentSpecs c) (csv_Permissions c) (csv_ClusterPermissions c)
       whs (csv_OwnedCRDs c) (csv_OwnedAPIServices c)) (rv_CRDs rv1) (rv_Others rv1).

Definition CheckConversionWebhooksReferenceOwnedCRDs (rv1 : RegistryV1) : list error * RegistryV1 :=
  let ownedCRDNames : gset string := list_to_set (csv_OwnedCRDs (rv_CSV rv1)) in
  let conversionWebhooks :=
    sort_by (fun a b => string_cmp (wh_GenerateName a) (wh_GenerateName b)) (List.filter is_conversion (webhooks rv1)) in
  (concat (map (fun webhook =>
     map (fun crd => ENew ("conversion webhook '" +:+ wh_GenerateName webhook +:+ "' references custom resource definition '" +:+
                           crd +:+ "' not owned bundle"))
       (List.filter (fun crd => negb (bool_decide (crd ∈ ownedCRDNames))) (slices_Sorted (wh_ConversionCRDs webhook))))
     conversionWebhooks),
   with_webhooks (map (fun wh => if is_conversion wh then sort_ConversionCRDs wh else wh) (webhooks rv1)) rv1).

(** func CheckConversionWebhookCRDReferenceUniqueness(rv1) []error *)
Definition crd_webhooks (whs : list WebhookDescription) : gmap string (list string) :=
  foldl (fun m (p : string * string) => <[p.1 := default [] (m !! p.1) ++ [p.2]]> m) ∅
    (concat (map (fun wh => map (fun crd => (crd, wh_GenerateName wh)) (wh_ConversionCRDs wh)) (List.filter is_conversion whs))).

Definition CheckConversionWebhookCRDReferenceUniqueness (rv1 : RegistryV1) : list error :=
  let crdToWh := filter (fun p : string * list string => length p.2 <> 1%nat) (crd_webhooks (webhooks rv1)) in
  map (fun crd => ENew ("conversion webhooks [" +:+ strings_Join (slices_Sorted (default [] (crdToWh !! crd))) "," +:+
                        "] reference same custom resource definition '" +:+ crd +:+ "'"))
    (sorted_keys crdToWh).

(** ** Rules *)

(** var forbiddenWebhookRuleAPIGroups, forbiddenAdmissionRegistrationResources *)
Definition forbiddenWebhookRuleAPIGroups : gset string := {["olm.operatorframework.io"; "*"]}.
Definition forbiddenAdmissionRegistrationResources : gset string :=
  {["*"; "mutatingwebhookconfiguration"; "mutatingwebhookconfigurations"; "validatingwebhookconfiguration";
    "validatingwebhookconfigurations"]}.

Definition group_errors (webhookName : string) (rule : WebhookRule) (apiGroup : string) : list error :=
  (if bool_decide (apiGroup ∈ forbiddenWebhookRuleAPIGroups) then
     [ENew ("webhook " +:+ fmt_q webhookName +:+ " contains forbidden rule: admission webhook rules cannot reference API group " +:+
            fmt_q apiGroup)] else []) ++
  (if bool_decide (apiGroup = "admissionregistration.k8s.io") then
     map (fun resource => ENew ("webhook " +:+ fmt_q webhookName +:+
            " contains forbidden rule: admission webhook rules cannot reference resource " +:+ fmt_q resource +:+
            " for API group " +:+ fmt_q apiGroup))
       (List.filter (fun r => bool_decide (ToLower r ∈ forbiddenAdmissionRegistrationResources)) (wr_Resources rule))
   else []).

(** func CheckWebhookRules(rv1) []error *)
Definition CheckWebhookRules (rv1 : RegistryV1) : list error :=
  concat (map (fun wh =>
    if is_conversion wh then []
    else concat (map (fun rule => concat (map (group_errors (wh_GenerateName wh) rule) (wr_APIGroups rule))) (wh_Rules wh)))
    (webhooks rv1)).

(** ** The validator *)

Section Validate.
Context `{!UnstructuredAPI}.
(** validation.IsDNS1123Subdomain, and registry's bundle.IsSupported: whether a
    kind is supported, and whether it is namespaced. *)
Context (IsDNS1123Subdomain : string -> list string) (IsSupported : string -> bool * bool).

(** The complaints about each invalid name. *)
Definition invalid_names (names : list string) : gmap string (list string) :=
  foldl (fun m n => match IsDNS1123Subdomain n with [] => m | errs => <[n := slices_Sorted errs]> m end) ∅ names.

(** func CheckDeploymentNameIsDNS1123SubDomain(rv1) []error *)
Definition CheckDeploymentNameIsDNS1123SubDomain (rv1 : RegistryV1) : list error :=
  let deploymentNameErrMap := invalid_names (deployment_names rv1) in
  map (fun dep => ENew ("invalid cluster service version strategy deployment name '" +:+ dep +:+ "': " +:+
                        strings_Join (default [] (deploymentNameErrMap !! dep)) ", "))
    (sorted_keys deploymentNameErrMap).

(** func CheckWebhookNameIsDNS1123SubDomain(rv1) []error *)
Definition invalid_webhooks (whs : list WebhookDescription) : gmap string (gmap string (list string)) :=
  foldl (fun m wh =>
      let names := default ∅ (m !! wh_Type wh) in
      <[wh_Type wh := match IsDNS1123Subdomain (wh_GenerateName wh) with
                      | [] => names
                      | errs => <[wh_GenerateName wh := slices_Sorted errs]> names
                      end]> m) ∅ whs.

Definition CheckWebhookNameIsDNS1123SubDomain (rv1 : RegistryV1) : list error :=
  let invalidWebhooksByType := invalid_webhooks (webhooks rv1) in
  concat (map (fun whType =>
    let invalid := default ∅ (invalidWebhooksByType !! whType) in
    map (fun webhookName => ENew ("webhook of type '" +:+ whType +:+ "' has invalid name '" +:+ webhookName +:+ "': " +:+
                                  strings_Join (default [] (invalid !! webhookName)) ","))
      (sorted_keys invalid)) (sorted_keys invalidWebhooksByType)).

(** func CheckObjectSupport(rv1) []error *)
Definition CheckObjectSupport (rv1 : RegistryV1) : list error :=
  map (fun obj => ENew ("unsupported resource " +:+ fmt_q (u_GetName obj) +:+ " with kind " +:+ fmt_q (gvk_Kind (u_GVK obj))))
    (List.filter (fun obj => negb (fst (IsSupported (gvk_Kind (u_GVK obj))))) (rv_Others rv1)).

(** type BundleValidator []func(v1) []error; a check may change the bundle. *)
Definition Check : Type := RegistryV1 -> list error * RegistryV1.
Definition checks (f : RegistryV1 -> list error) : Check := fun rv1 => (f rv1, rv1).

(** var BundleValidator (registryv1.go) *)
Definition BundleValidator : list Check :=
  [checks CheckDeploymentSpecUniqueness;
   checks CheckDeploymentNameIsDNS1123SubDomain;
   checks CheckCRDResourceUniqueness;
   checks CheckOwnedCRDExistence;
   checks CheckPackageNameNotEmpty;
   checks CheckConversionWebhookSupport;
   checks CheckWebhookDeploymentReferentialIntegrity;
   checks CheckWebhookNameUniqueness;
   checks CheckWebhookNameIsDNS1123SubDomain;
   checks CheckConversionWebhookCRDReferenceUniqueness;
   CheckConversionWebhooksReferenceOwnedCRDs;
   checks CheckWebhookRules;
   checks CheckObjectSupport].

(** func (v BundleValidator) Validate(rv1) error *)
Fixpoint validator_errors (v : list Check) (rv1 : RegistryV1) : list error * RegistryV1 :=
  match v with
  | [] => ([], rv1)
  | validator :: v' =>
      let '(errs, rv1) := validator rv1 in
      let '(more, rv1) := validator_errors v' rv1 in
      (errs ++ more, rv1)
  end.

Definition Validate (v : list Check) (rv1 : RegistryV1) : option error * RegistryV1 :=
  let '(errs, rv1) := validator_errors v rv1 in (errors_Join (map Some errs), rv1).
End Validate.
