(* ===== verification/ValidateProps.v ===== *)
(** * A bundle passes validation exactly when it is well formed

    The thirteen checks of Validate.v against a declarative description of the
    bundles that can be rendered. *)

From Stdlib Require Import Ascii.
From S2P Require Import Prelude GoErrors ApiTypes Phase Rbac Bundle Validate.

(** ** Sorted sets and maps *)

Lemma sort_by_nil {A} (cmp : A -> A -> Z) l : sort_by cmp l = [] <-> l = [].
Proof.
  split; [|by intros ->]. intros H. apply (f_equal length) in H. rewrite sort_by_length in H. by destruct l.
Qed.

Lemma sorted_elements_nil (s : gset string) : sorted_elements s = [] <-> s = ∅.
Proof. unfold sorted_elements, slices_Sorted. rewrite sort_by_nil, elements_empty_iff. split; [apply leibniz_equiv|by intros ->]. Qed.

Lemma sorted_keys_nil {A} (m : gmap string A) : sorted_keys m = [] <-> m = ∅.
Proof. unfold sorted_keys. rewrite sorted_elements_nil. apply dom_empty_iff_L. Qed.

Lemma elem_sorted_elements (s : gset string) x : x ∈ sorted_elements s <-> x ∈ s.
Proof. unfold sorted_elements, slices_Sorted. by rewrite elem_of_sort_by, elem_of_elements. Qed.

Lemma elem_sorted_keys {A} (m : gmap string A) x : x ∈ sorted_keys m <-> is_Some (m !! x).
Proof. unfold sorted_keys. by rewrite elem_sorted_elements, elem_of_dom. Qed.

Lemma concat_map_nil {A B} (f : A -> list B) l : concat (map f l) = [] <-> forall x, x ∈ l -> f x = [].
Proof.
  induction l as [|x l IH]; cbn; [split; [by intros _ y ?%not_elem_of_nil|done]|].
  rewrite app_nil, IH. split.
  - intros [Hx Hl] y [->|Hy]%elem_of_cons; [done|by apply Hl].
  - intros H. split; [apply H; by left|intros y Hy; apply H; by right].
Qed.

Lemma filter_nil {A} (f : A -> bool) l : List.filter f l = [] <-> forall x, x ∈ l -> f x = false.
Proof.
  induction l as [|x l IH]; cbn; [split; [by intros _ y ?%not_elem_of_nil|done]|]. destruct (f x) eqn:E.
  - split; [done|]. intros H. rewrite (H x) in E by by left. done.
  - rewrite IH. split.
    + intros H y [->|Hy]%elem_of_cons; [done|by apply H].
    + intros H y Hy. apply H. by right.
Qed.

Lemma map_nil_iff {A B} (f : A -> B) l : map f l = [] <-> l = [].
Proof. by destruct l. Qed.

Lemma list_to_set_nil_iff (l : list string) : (list_to_set l : gset string) = ∅ <-> l = [].
Proof. destruct l; cbn; [done|]. set_solver. Qed.

Lemma elem_filter {A} (f : A -> bool) l x : x ∈ List.filter f l <-> x ∈ l /\ f x = true.
Proof. rewrite !list_elem_of_In. apply filter_In. Qed.

(** ** The loops *)

(** A name met twice is a duplicate. *)
Lemma duplicates_fold l : forall seen dup : gset string,
  (foldl (fun (st : gset string * gset string) n =>
      ({[n]} ∪ st.1, if bool_decide (n ∈ st.1) then {[n]} ∪ st.2 else st.2)) (seen, dup) l).2 = ∅ <->
  dup = ∅ /\ NoDup l /\ forall n, n ∈ l -> n ∉ seen.
Proof.
  induction l as [|n l IH]; intros seen dup; cbn.
  { split; [intros ->; split; [done|split; [constructor|by intros n ?%not_elem_of_nil]]|by intros [-> _]]. }
  rewrite IH, NoDup_cons. case_bool_decide as Hn.
  - split; [intros (H & _); set_solver|]. intros (_ & _ & H). destruct (H n); [by left|done].
  - split.
    + intros (-> & Hl & H). split; [done|]. split; [split; [|done]; intros Hin; apply H in Hin; set_solver|].
      intros m [->|Hm]%elem_of_cons; [done|]. apply H in Hm. set_solver.
    + intros (-> & (Hnl & Hl) & H). split; [done|]. split; [done|]. intros m Hm. specialize (H m). set_solver.
Qed.

Lemma duplicate_names_none l : duplicate_names l = ∅ <-> NoDup l.
Proof. unfold duplicate_names. rewrite duplicates_fold. set_solver. Qed.

(** Grouping by a key: what is grouped under it, in order. *)
Lemma group_fold {A B} (key : A -> string) (val : A -> B) l : forall (m : gmap string (list B)) k,
  default [] (foldl (fun m x => <[key x := default [] (m !! key x) ++ [val x]]> m) m l !! k) =
  default [] (m !! k) ++ map val (List.filter (fun x => bool_decide (key x = k)) l).
Proof.
  induction l as [|x l IH]; intros m k; cbn; [by rewrite app_nil_r|]. rewrite IH. case_bool_decide as E.
  - subst k. rewrite lookup_insert_eq. cbn. by rewrite <- app_assoc.
  - by rewrite lookup_insert_ne.
Qed.

Lemma group_dom {A B} (key : A -> string) (val : A -> B) l : forall (m : gmap string (list B)) k,
  is_Some (foldl (fun m x => <[key x := default [] (m !! key x) ++ [val x]]> m) m l !! k) <->
  is_Some (m !! k) \/ exists x, x ∈ l /\ key x = k.
Proof.
  induction l as [|x l IH]; intros m k; cbn; [set_solver|]. rewrite IH. destruct (decide (key x = k)) as [<-|Hk].
  - rewrite lookup_insert_eq. split; [intros _; right; exists x; split; [by left|done]|intros _; by left].
  - rewrite lookup_insert_ne by done. set_solver.
Qed.

Lemma delete_fold {A} (ns : list string) : forall (m : gmap string A) k,
  foldl (fun m n => delete n m) m ns !! k = if bool_decide (k ∈ ns) then None else m !! k.
Proof.
  induction ns as [|n ns IH]; intros m k; cbn; [done|]. rewrite IH. destruct (decide (n = k)) as [<-|Hk].
  - rewrite lookup_delete_eq, (bool_decide_true (n ∈ n :: ns)) by by left. by case_bool_decide.
  - rewrite lookup_delete_ne by done. rewrite (bool_decide_ext (k ∈ n :: ns) (k ∈ ns)); [done|set_solver].
Qed.

(** The webhooks of one type that are met twice. *)
Definition twice (dup : gmap string (gset string)) (t n : string) : Prop := n ∈ default ∅ (dup !! t).

Lemma duplicate_webhooks_fold whs : forall seen dup : gmap string (gset string),
  let dup' := (foldl (fun (st : gmap string (gset string) * gmap string (gset string)) wh =>
      let seen := default ∅ (st.1 !! wh_Type wh) in
      (<[wh_Type wh := {[wh_GenerateName wh]} ∪ seen]> st.1,
       if bool_decide (wh_GenerateName wh ∈ seen)
       then <[wh_Type wh := {[wh_GenerateName wh]} ∪ default ∅ (st.2 !! wh_Type wh)]> st.2 else st.2)) (seen, dup) whs).2 in
  (forall t n, ~ twice dup' t n) <->
  (forall t n, ~ twice dup t n) /\ NoDup (map (fun wh => (wh_Type wh, wh_GenerateName wh)) whs) /\
  forall wh, wh ∈ whs -> ~ twice seen (wh_Type wh) (wh_GenerateName wh).
Proof.
  induction whs as [|wh whs IH]; intros seen dup; cbn.
  { split; [intros H; split; [done|split; [constructor|by intros wh ?%not_elem_of_nil]]|by intros [H _]]. }
  rewrite IH, NoDup_cons. case_bool_decide as Hn.
  - split; [|intros (_ & _ & H); destruct (H wh); [by left|done]].
    intros (H & _). destruct (H (wh_Type wh) (wh_GenerateName wh)). unfold twice. rewrite lookup_insert_eq. set_solver.
  - assert (Hs : forall t n, twice (<[wh_Type wh := {[wh_GenerateName wh]} ∪ default ∅ (seen !! wh_Type wh)]> seen) t n <->
                    (t, n) = (wh_Type wh, wh_GenerateName wh) \/ twice seen t n).
    { intros t n. unfold twice. destruct (decide (wh_Type wh = t)) as [<-|Ht].
      - rewrite lookup_insert_eq. cbn. set_solver.
      - rewrite lookup_insert_ne by done. split; [by right|]. by intros [[= -> _]|H]. }
    split.
    + intros (Hd & Hl & H). split; [done|]. split; [split; [|done]|].
      * intros (wh' & Heq & Hin)%list_elem_of_fmap. apply (H wh' Hin). apply Hs. left. by rewrite Heq.
      * intros wh' [->|Hin]%elem_of_cons; [done|]. intros Ht. apply (H wh' Hin). apply Hs. by right.
    + intros (Hd & (Hnl & Hl) & H). split; [done|]. split; [done|]. intros wh' Hin [Heq|Ht]%Hs.
      * apply Hnl. apply list_elem_of_fmap. by exists wh'.
      * apply (H wh'); [by right|done].
Qed.

(** ** Each check *)

Lemma CheckDeploymentSpecUniqueness_nil rv1 : CheckDeploymentSpecUniqueness rv1 = [] <-> NoDup (deployment_names rv1).
Proof. unfold CheckDeploymentSpecUniqueness. by rewrite map_nil_iff, sorted_elements_nil, duplicate_names_none. Qed.

Lemma CheckCRDResourceUniqueness_nil rv1 : CheckCRDResourceUniqueness rv1 = [] <-> NoDup (map crd_Name (rv_CRDs rv1)).
Proof. unfold CheckCRDResourceUniqueness. by rewrite map_nil_iff, sorted_elements_nil, duplicate_names_none. Qed.

Lemma missing_nil (names : list string) (known : gset string) :
  (list_to_set (List.filter (fun n => negb (bool_decide (n ∈ known))) names) : gset string) = ∅ <-> forall n, n ∈ names -> n ∈ known.
Proof.
  rewrite list_to_set_nil_iff, filter_nil. split; intros H n Hn; specialize (H n Hn).
  - by apply negb_false_iff, bool_decide_eq_true in H.
  - by apply negb_false_iff, bool_decide_eq_true.
Qed.

Lemma CheckOwnedCRDExistence_nil rv1 :
  CheckOwnedCRDExistence rv1 = [] <-> forall n, n ∈ csv_OwnedCRDs (rv_CSV rv1) -> n ∈ map crd_Name (rv_CRDs rv1).
Proof.
  unfold CheckOwnedCRDExistence. rewrite map_nil_iff, sorted_elements_nil, missing_nil.
  split; intros H n Hn; specialize (H n Hn); by apply elem_of_list_to_set in H || by apply elem_of_list_to_set.
Qed.

Lemma CheckPackageNameNotEmpty_nil rv1 : CheckPackageNameNotEmpty rv1 = [] <-> rv_PackageName rv1 <> "".
Proof. unfold CheckPackageNameNotEmpty. by case_bool_decide. Qed.

Lemma CheckConversionWebhookSupport_nil rv1 :
  CheckConversionWebhookSupport rv1 = [] <->
  ((exists wh, wh ∈ webhooks rv1 /\ is_conversion wh = true) -> supportedBundleInstallModes rv1 = {[InstallModeTypeAllNamespaces]}).
Proof.
  unfold CheckConversionWebhookSupport. destruct (List.filter is_conversion (webhooks rv1)) as [|wh whs] eqn:Ef.
  - cbn. split; [|done]. intros _ (wh & Hwh & Hc). rewrite filter_nil in Ef. by rewrite Ef in Hc.
  - assert (Hex : exists wh, wh ∈ webhooks rv1 /\ is_conversion wh = true).
    { exists wh. apply elem_filter. rewrite Ef. by left. }
    set (modes := supportedBundleInstallModes rv1). cbn [map]. rewrite <- negb_andb, <- bool_decide_and.
    case_bool_decide as Hm; cbn [negb].
    + split; [|done]. intros _ _. destruct Hm as [Hs Hin]. apply size_1_elem_of in Hs as [m Hm%leibniz_equiv].
      rewrite Hm in Hin |- *. by apply elem_of_singleton in Hin as <-.
    + split; [done|]. intros H. destruct Hm. rewrite (H Hex). split; [apply size_singleton|set_solver].
Qed.

Lemma CheckWebhookDeploymentReferentialIntegrity_nil rv1 :
  CheckWebhookDeploymentReferentialIntegrity rv1 = [] <->
  forall wh, wh ∈ webhooks rv1 -> wh_DeploymentName wh ∈ deployment_names rv1.
Proof.
  unfold CheckWebhookDeploymentReferentialIntegrity. rewrite concat_map_nil.
  assert (Hg : forall k, (foldl (fun (m : gmap string (list WebhookDescription)) wh =>
     <[wh_DeploymentName wh := default [] (m !! wh_DeploymentName wh) ++ [wh]]> m) ∅ (webhooks rv1)) !! k = None <->
     forall wh, wh ∈ webhooks rv1 -> wh_DeploymentName wh <> k).
  { intros k. rewrite eq_None_not_Some, (group_dom wh_DeploymentName (fun wh => wh)), lookup_empty. split.
    - intros H wh Hwh <-. apply H. right. by exists wh.
    - intros H [[? ?]|(wh & Hwh & <-)]; [done|]. by apply (H wh). }
  split.
  - intros H wh Hwh. destruct (decide (wh_DeploymentName wh ∈ deployment_names rv1)) as [|Hn]; [done|]. exfalso.
    specialize (H (wh_DeploymentName wh)). rewrite elem_sorted_keys, delete_fold, bool_decide_false in H by done.
    rewrite map_nil_iff, sort_by_nil, (group_fold wh_DeploymentName (fun wh => wh)), lookup_empty in H. cbn in H.
    rewrite map_nil_iff, filter_nil in H. destruct (_ !! wh_DeploymentName wh) eqn:El.
    + specialize (H ltac:(by eexists) wh Hwh). by rewrite bool_decide_true in H.
    + rewrite Hg in El. by apply (El wh).
  - intros H k [l Hk]%elem_sorted_keys. rewrite delete_fold in Hk. case_bool_decide as Hd; [done|].
    exfalso. apply Hd. assert (Hs : is_Some ((∅ : gmap string (list WebhookDescription)) !! k) \/
        exists wh, wh ∈ webhooks rv1 /\ wh_DeploymentName wh = k)
      by (apply (group_dom wh_DeploymentName (fun wh => wh)); by eexists).
    destruct Hs as [[? Hs]|(wh & Hwh & <-)]; [by rewrite lookup_empty in Hs|by apply H].
Qed.

Lemma CheckWebhookNameUniqueness_nil rv1 :
  CheckWebhookNameUniqueness rv1 = [] <-> NoDup (map (fun wh => (wh_Type wh, wh_GenerateName wh)) (webhooks rv1)).
Proof.
  unfold CheckWebhookNameUniqueness. rewrite concat_map_nil.
  trans (forall t n, ~ twice (duplicate_webhooks (webhooks rv1)) t n).
  - split.
    + intros H t n Hn. destruct (duplicate_webhooks (webhooks rv1) !! t) as [s|] eqn:E.
      * specialize (H t). rewrite elem_sorted_keys, E, map_nil_iff, sorted_elements_nil in H. specialize (H ltac:(by eexists)).
        unfold twice in Hn. rewrite E in Hn. cbn in H, Hn. set_solver.
      * unfold twice in Hn. rewrite E in Hn. cbn in Hn. set_solver.
    + intros H t _. rewrite map_nil_iff, sorted_elements_nil. apply leibniz_equiv. intros n. specialize (H t n). unfold twice in H. set_solver.
  - unfold duplicate_webhooks. rewrite duplicate_webhooks_fold. unfold twice. split; [by intros (_ & H & _)|]. intros H.
    split; [intros t n; rewrite lookup_empty; set_solver|]. split; [done|]. intros wh _. rewrite lookup_empty. set_solver.
Qed.

(** The custom resource definitions the conversion webhooks convert. *)
Definition converted_crds (whs : list WebhookDescription) : list string :=
  concat (map wh_ConversionCRDs (List.filter is_conversion whs)).

Lemma elem_converted whs crd :
  crd ∈ converted_crds whs <-> exists wh, wh ∈ whs /\ is_conversion wh = true /\ crd ∈ wh_ConversionCRDs wh.
Proof.
  unfold converted_crds. rewrite list_elem_of_In, in_concat. split.
  - intros (l & (wh & <- & Hwh)%in_map_iff & Hc). apply list_elem_of_In in Hwh. apply elem_filter in Hwh as [? ?].
    exists wh. split; [done|]. split; [done|by apply list_elem_of_In].
  - intros (wh & Hwh & Hc & Hin). exists (wh_ConversionCRDs wh). split; [|by apply list_elem_of_In].
    apply in_map. apply list_elem_of_In, elem_filter. done.
Qed.

Lemma CheckConversionWebhooksReferenceOwnedCRDs_nil rv1 :
  (CheckConversionWebhooksReferenceOwnedCRDs rv1).1 = [] <->
  forall crd, crd ∈ converted_crds (webhooks rv1) -> crd ∈ csv_OwnedCRDs (rv_CSV rv1).
Proof.
  cbn [fst CheckConversionWebhooksReferenceOwnedCRDs]. rewrite concat_map_nil.
  setoid_rewrite map_nil_iff. setoid_rewrite filter_nil. setoid_rewrite elem_converted. split.
  - intros H crd (wh & Hwh & Hc & Hin). specialize (H wh). rewrite elem_of_sort_by, elem_filter in H.
    specialize (H (conj Hwh Hc) crd). unfold slices_Sorted in H. rewrite elem_of_sort_by in H.
    specialize (H Hin). apply negb_false_iff, bool_decide_eq_true in H. by apply elem_of_list_to_set in H.
  - intros H wh [Hwh Hc]%elem_of_sort_by%elem_filter crd Hin%elem_of_sort_by.
    apply negb_false_iff, bool_decide_eq_true, elem_of_list_to_set, H. by exists wh.
Qed.

(** How often a name is in a list. *)
Lemma filter_count_NoDup (l : list string) :
  NoDup l <-> forall x, x ∈ l -> length (List.filter (fun y => bool_decide (y = x)) l) = 1%nat.
Proof.
  induction l as [|y l IH]; [split; [by intros _ x ?%not_elem_of_nil|constructor]|]. rewrite NoDup_cons, IH. clear IH.
  assert (Hz : forall x, x ∉ l <-> length (List.filter (fun y => bool_decide (y = x)) l) = 0%nat).
  { intros x. rewrite length_zero_iff_nil, filter_nil. split.
    - intros H z Hz. apply bool_decide_eq_false. by intros ->.
    - intros H Hin. specialize (H x Hin). by rewrite bool_decide_true in H. }
  split.
  - intros [Hy H] x Hx. cbn. case_bool_decide as E.
    + subst y. cbn. f_equal. by apply Hz.
    + apply H. by apply elem_of_cons in Hx as [->|].
  - intros H. split.
    + apply Hz. specialize (H y ltac:(by left)). cbn in H. rewrite bool_decide_true in H by done. cbn in H. lia.
    + intros x Hx. specialize (H x ltac:(by right)). cbn in H. case_bool_decide as E; [|done]. subst y. cbn in H.
      injection H as H. apply Hz in H. done.
Qed.

Lemma crd_webhooks_pairs whs :
  map fst (concat (map (fun wh => map (fun crd => (crd, wh_GenerateName wh)) (wh_ConversionCRDs wh)) (List.filter is_conversion whs))) =
  converted_crds whs.
Proof.
  unfold converted_crds. rewrite concat_map, map_map. f_equal. apply map_ext. intros wh. rewrite map_map. apply map_id.
Qed.

Lemma CheckConversionWebhookCRDReferenceUniqueness_nil rv1 :
  CheckConversionWebhookCRDReferenceUniqueness rv1 = [] <-> NoDup (converted_crds (webhooks rv1)).
Proof.
  unfold CheckConversionWebhookCRDReferenceUniqueness. rewrite map_nil_iff, sorted_keys_nil, filter_count_NoDup, <- crd_webhooks_pairs.
  set (ps := concat _). change (crd_webhooks (webhooks rv1)) with
    (foldl (fun m (p : string * string) => <[p.1 := default [] (m !! p.1) ++ [p.2]]> m) (∅ : gmap string (list string)) ps).
  set (m := foldl _ _ _).
  assert (Hdom : forall k, is_Some (m !! k) <-> k ∈ map fst ps).
  { intros k. unfold m. rewrite (group_dom fst snd). rewrite lookup_empty. rewrite list_elem_of_fmap. split.
    - intros [[? ?]|(p & Hp & <-)]; [done|by exists p].
    - intros (p & -> & Hp). right. by exists p. }
  assert (Hlen : forall k, length (default [] (m !! k)) = length (List.filter (fun y => bool_decide (y = k)) (map fst ps))).
  { intros k. unfold m. rewrite (group_fold fst snd), lookup_empty. cbn. rewrite length_map.
    clear. induction ps as [|p ps IH]; cbn; [done|]. case_bool_decide; cbn; by rewrite IH. }
  rewrite map_empty_filter. unfold map_Forall. split.
  - intros H x Hx. rewrite <- Hlen. apply Hdom in Hx as [l Hl]. rewrite Hl. cbn. specialize (H x l Hl). cbn in H. lia.
  - intros H x l Hl Hn. cbn in Hn. apply Hn. specialize (H x). rewrite <- Hdom, <- Hlen, Hl in H. apply H. by eexists.
Qed.

(** What the rules of an admission webhook may name. *)
Definition rule_allowed (rule : WebhookRule) : Prop :=
  forall g, g ∈ wr_APIGroups rule ->
    g ∉ forbiddenWebhookRuleAPIGroups /\
    (g = "admissionregistration.k8s.io" -> forall r, r ∈ wr_Resources rule -> ToLower r ∉ forbiddenAdmissionRegistrationResources).

Lemma group_errors_nil n rule g :
  group_errors n rule g = [] <->
  g ∉ forbiddenWebhookRuleAPIGroups /\
  (g = "admissionregistration.k8s.io" -> forall r, r ∈ wr_Resources rule -> ToLower r ∉ forbiddenAdmissionRegistrationResources).
Proof.
  unfold group_errors. rewrite app_nil. f_equiv; [by case_bool_decide|].
  case_bool_decide as E; [|by split]. rewrite map_nil_iff, filter_nil. split.
  - intros H _ r Hr. specialize (H r Hr). by apply bool_decide_eq_false in H.
  - intros H r Hr. apply bool_decide_eq_false. by apply H.
Qed.

Lemma CheckWebhookRules_nil rv1 :
  CheckWebhookRules rv1 = [] <->
  forall wh rule, wh ∈ webhooks rv1 -> is_conversion wh = false -> rule ∈ wh_Rules wh -> rule_allowed rule.
Proof.
  unfold CheckWebhookRules. rewrite concat_map_nil. split.
  - intros H wh rule Hwh Hc Hr g Hg. specialize (H wh Hwh). rewrite Hc, concat_map_nil in H. specialize (H rule Hr).
    rewrite concat_map_nil in H. specialize (H g Hg). by apply group_errors_nil in H.
  - intros H wh Hwh. destruct (is_conversion wh) eqn:Hc; [done|]. apply concat_map_nil. intros rule Hr. apply concat_map_nil.
    intros g Hg. apply group_errors_nil. by apply (H wh rule).
Qed.

Section WellFormed.
Context {UA : UnstructuredAPI}.
Context (IsDNS1123Subdomain : string -> list string) (IsSupported : string -> bool * bool).

Lemma invalid_names_fold ns : forall (m : gmap string (list string)) n,
  is_Some (foldl (fun (m : gmap string (list string)) n => match IsDNS1123Subdomain n with [] => m | errs => <[n := slices_Sorted errs]> m end) m ns !! n) <->
  is_Some (m !! n) \/ (n ∈ ns /\ IsDNS1123Subdomain n <> []).
Proof.
  induction ns as [|n' ns IH]; intros m n; cbn; [set_solver|]. rewrite IH. destruct (IsDNS1123Subdomain n') as [|e es] eqn:E.
  - split; [intros [H|[H ?]]; [by left|right; split; [by right|done]]|].
    intros [H|[[->|H]%elem_of_cons ?]]; [by left|done|by right].
  - destruct (decide (n' = n)) as [->|Hn].
    + rewrite lookup_insert_eq. split; [intros _; right; split; [by left|by rewrite E]|intros _; left; by eexists].
    + rewrite lookup_insert_ne by done. set_solver.
Qed.

Lemma CheckDeploymentNameIsDNS1123SubDomain_nil rv1 :
  CheckDeploymentNameIsDNS1123SubDomain IsDNS1123Subdomain rv1 = [] <->
  forall n, n ∈ deployment_names rv1 -> IsDNS1123Subdomain n = [].
Proof.
  unfold CheckDeploymentNameIsDNS1123SubDomain. rewrite map_nil_iff, sorted_keys_nil. unfold invalid_names. split.
  - intros H n Hn. destruct (IsDNS1123Subdomain n) as [|e es] eqn:E; [done|]. exfalso.
    assert (Hs : is_Some (@lookup _ _ (gmap string (list string)) _ n ∅)).
    { rewrite <- H. apply invalid_names_fold. right. by rewrite E. }
    rewrite lookup_empty in Hs. by destruct Hs.
  - intros H. apply map_empty. intros n. apply eq_None_not_Some. intros [[? Hs]|[Hn Hd]]%invalid_names_fold.
    + by rewrite lookup_empty in Hs.
    + apply Hd. by apply H.
Qed.

(** The invalid names, by type. *)
Definition noted (m : gmap string (gmap string (list string))) (t n : string) : Prop := is_Some (default ∅ (m !! t) !! n).

Lemma invalid_webhooks_fold whs : forall m t n,
  noted (foldl (fun (m : gmap string (gmap string (list string))) wh =>
      let names := default ∅ (m !! wh_Type wh) in
      <[wh_Type wh := match IsDNS1123Subdomain (wh_GenerateName wh) with
                      | [] => names
                      | errs => <[wh_GenerateName wh := slices_Sorted errs]> names
                      end]> m) m whs) t n <->
  noted m t n \/ exists wh, wh ∈ whs /\ wh_Type wh = t /\ wh_GenerateName wh = n /\ IsDNS1123Subdomain n <> [].
Proof.
  induction whs as [|wh whs IH]; intros m t n; cbn.
  { split; [by left|]. intros [H|(wh & H & _)]; [done|]. by apply not_elem_of_nil in H. }
  rewrite IH.
  set (m' := <[wh_Type wh := _]> m).
  assert (Hm : noted m' t n <-> noted m t n \/ (wh_Type wh = t /\ wh_GenerateName wh = n /\ IsDNS1123Subdomain n <> [])).
  { unfold noted, m'. destruct (decide (wh_Type wh = t)) as [<-|Ht].
    - rewrite lookup_insert_eq. cbn. destruct (IsDNS1123Subdomain (wh_GenerateName wh)) as [|e es] eqn:E.
      + split; [by left|]. intros [H|(_ & <- & H)]; done.
      + destruct (decide (wh_GenerateName wh = n)) as [<-|Hn].
        * rewrite lookup_insert_eq. split; [intros _; right; by rewrite E|intros _; by eexists].
        * rewrite lookup_insert_ne by done. split; [by left|]. intros [H|(_ & ? & _)]; done.
    - rewrite lookup_insert_ne by done. split; [by left|]. intros [H|(? & _)]; done. }
  rewrite Hm. split.
  - intros [[H|H]|(wh' & Hin & H)]; [by left|right; exists wh; split; [by left|done]|right; exists wh'; split; [by right|done]].
  - intros [H|(wh' & [->|Hin]%elem_of_cons & H)]; [by left; left|left; by right|right; by exists wh'].
Qed.

Lemma CheckWebhookNameIsDNS1123SubDomain_nil rv1 :
  CheckWebhookNameIsDNS1123SubDomain IsDNS1123Subdomain rv1 = [] <->
  forall wh, wh ∈ webhooks rv1 -> IsDNS1123Subdomain (wh_GenerateName wh) = [].
Proof.
  unfold CheckWebhookNameIsDNS1123SubDomain. rewrite concat_map_nil.
  trans (forall t n, ~ noted (invalid_webhooks IsDNS1123Subdomain (webhooks rv1)) t n).
  - split.
    + intros H t n Hn. specialize (H t). rewrite elem_sorted_keys, map_nil_iff, sorted_keys_nil in H. unfold noted in Hn.
      destruct (_ !! t); [|by destruct Hn]. rewrite (H ltac:(by eexists)) in Hn. by destruct Hn.
    + intros H t _. rewrite map_nil_iff, sorted_keys_nil. apply map_empty. intros n. apply eq_None_not_Some. by apply H.
  - unfold invalid_webhooks. setoid_rewrite invalid_webhooks_fold. split.
    + intros H wh Hwh. destruct (IsDNS1123Subdomain (wh_GenerateName wh)) eqn:E; [done|]. exfalso.
      apply (H (wh_Type wh) (wh_GenerateName wh)). right. exists wh. by rewrite E.
    + intros H t n [[? Hn]|(wh & Hwh & <- & <- & Hd)]; [done|]. apply Hd. by apply H.
Qed.

Lemma CheckObjectSupport_nil rv1 :
  CheckObjectSupport IsSupported rv1 = [] <-> forall o, o ∈ rv_Others rv1 -> (IsSupported (gvk_Kind (u_GVK o))).1 = true.
Proof.
  unfold CheckObjectSupport. rewrite map_nil_iff, filter_nil. split; intros H o Ho; specialize (H o Ho); cbn beta in *;
    by destruct (IsSupported (gvk_Kind (u_GVK o))).1.
Qed.

(** ** The bundles that pass *)

Record well_formed_bundle (rv1 : RegistryV1) : Prop := mkWellFormed {
  wf_package : rv_PackageName rv1 <> "";
  wf_deployments : NoDup (deployment_names rv1);
  wf_deployment_names : forall n, n ∈ deployment_names rv1 -> IsDNS1123Subdomain n = [];
  wf_crds : NoDup (map crd_Name (rv_CRDs rv1));
  wf_owned : forall n, n ∈ csv_OwnedCRDs (rv_CSV rv1) -> n ∈ map crd_Name (rv_CRDs rv1);
  wf_webhooks : NoDup (map (fun wh => (wh_Type wh, wh_GenerateName wh)) (webhooks rv1));
  wf_webhook_names : forall wh, wh ∈ webhooks rv1 -> IsDNS1123Subdomain (wh_GenerateName wh) = [];
  wf_webhook_deployment : forall wh, wh ∈ webhooks rv1 -> wh_DeploymentName wh ∈ deployment_names rv1;
  wf_rules : forall wh rule, wh ∈ webhooks rv1 -> is_conversion wh = false -> rule ∈ wh_Rules wh -> rule_allowed rule;
  wf_conversion : (exists wh, wh ∈ webhooks rv1 /\ is_conversion wh = true) ->
                  supportedBundleInstallModes rv1 = {[InstallModeTypeAllNamespaces]};
  wf_converted : NoDup (converted_crds (webhooks rv1));
  wf_converted_owned : forall crd, crd ∈ converted_crds (webhooks rv1) -> crd ∈ csv_OwnedCRDs (rv_CSV rv1);
  wf_objects : forall o, o ∈ rv_Others rv1 -> (IsSupported (gvk_Kind (u_GVK o))).1 = true;
}.

(** The bundle validation leaves: the conversion webhooks' definitions sorted. *)
Definition validated_bundle (rv1 : RegistryV1) : RegistryV1 := (CheckConversionWebhooksReferenceOwnedCRDs rv1).2.

Lemma sorted_rules rv1 : CheckWebhookRules (validated_bundle rv1) = CheckWebhookRules rv1.
Proof.
  unfold CheckWebhookRules, validated_bundle, webhooks. cbn. rewrite map_map. f_equal. apply map_ext. intros wh.
  destruct (is_conversion wh) eqn:E; [|by rewrite E].
  change (is_conversion (sort_ConversionCRDs wh)) with (is_conversion wh). by rewrite E.
Qed.

Lemma validator_errors_eq rv1 :
  validator_errors (BundleValidator IsDNS1123Subdomain IsSupported) rv1 =
  (CheckDeploymentSpecUniqueness rv1 ++ CheckDeploymentNameIsDNS1123SubDomain IsDNS1123Subdomain rv1 ++
   CheckCRDResourceUniqueness rv1 ++ CheckOwnedCRDExistence rv1 ++ CheckPackageNameNotEmpty rv1 ++
   CheckConversionWebhookSupport rv1 ++ CheckWebhookDeploymentReferentialIntegrity rv1 ++ CheckWebhookNameUniqueness rv1 ++
   CheckWebhookNameIsDNS1123SubDomain IsDNS1123Subdomain rv1 ++ CheckConversionWebhookCRDReferenceUniqueness rv1 ++
   (CheckConversionWebhooksReferenceOwnedCRDs rv1).1 ++ CheckWebhookRules rv1 ++ CheckObjectSupport IsSupported rv1,
   validated_bundle rv1).
Proof.
  unfold BundleValidator, checks. cbn [validator_errors]. rewrite (surjective_pairing (CheckConversionWebhooksReferenceOwnedCRDs rv1)).
  fold (validated_bundle rv1). by rewrite app_nil_r, sorted_rules.
Qed.

Lemma validate_none rv1 :
  (Validate (BundleValidator IsDNS1123Subdomain IsSupported) rv1).1 = None <-> well_formed_bundle rv1.
Proof.
  unfold Validate. rewrite validator_errors_eq. cbn [fst]. rewrite errors_Join_map.
  match goal with |- match ?l with _ => _ end = None <-> _ => trans (l = []); [by destruct l|] end.
  rewrite !app_nil, CheckDeploymentSpecUniqueness_nil, CheckDeploymentNameIsDNS1123SubDomain_nil, CheckCRDResourceUniqueness_nil,
    CheckOwnedCRDExistence_nil, CheckPackageNameNotEmpty_nil, CheckConversionWebhookSupport_nil,
    CheckWebhookDeploymentReferentialIntegrity_nil, CheckWebhookNameUniqueness_nil, CheckWebhookNameIsDNS1123SubDomain_nil,
    CheckConversionWebhookCRDReferenceUniqueness_nil, CheckConversionWebhooksReferenceOwnedCRDs_nil, CheckWebhookRules_nil,
    CheckObjectSupport_nil.
  split; [intros (?&?&?&?&?&?&?&?&?&?&?&?&?); by constructor|]. intros []. done.
Qed.

(** C16. Validation is exact: the thirteen checks find nothing to complain about
    exactly for the bundles that are well formed (unique valid names, every
    reference resolved, conversion webhooks only with the AllNamespaces mode,
    no forbidden rules, no unsupported objects), and of a bundle they change
    only the order of the definitions its conversion webhooks list. *)
Theorem Validate_exact rv1 :
  let r := Validate (BundleValidator IsDNS1123Subdomain IsSupported) rv1 in
  (r.1 = None <-> well_formed_bundle rv1) /\
  r.2 = with_webhooks (map (fun wh => if is_conversion wh then sort_ConversionCRDs wh else wh) (webhooks rv1)) rv1.
Proof. split; [apply validate_none|]. unfold Validate. by rewrite validator_errors_eq. Qed.

End WellFormed.

(** ** The bundle after validation *)

Definition sorted_webhook (wh : WebhookDescription) : WebhookDescription := if is_conversion wh then sort_ConversionCRDs wh else wh.

Lemma validated_webhooks rv1 : webhooks (validated_bundle rv1) = map sorted_webhook (webhooks rv1).
Proof. done. Qed.

(** Only the order of the listed definitions may change. *)
Lemma sorted_webhook_same wh :
  wh_Type (sorted_webhook wh) = wh_Type wh /\ wh_GenerateName (sorted_webhook wh) = wh_GenerateName wh /\
  wh_DeploymentName (sorted_webhook wh) = wh_DeploymentName wh /\ wh_Rules (sorted_webhook wh) = wh_Rules wh /\
  is_conversion (sorted_webhook wh) = is_conversion wh /\ wh_ConversionCRDs (sorted_webhook wh) ≡ₚ wh_ConversionCRDs wh.
Proof.
  unfold sorted_webhook. destruct (is_conversion wh) eqn:E; [|done]. unfold slices_Sorted. cbn.
  repeat (split; [done|]). apply sort_by_perm.
Qed.

Lemma converted_sorted whs : converted_crds (map sorted_webhook whs) ≡ₚ converted_crds whs.
Proof.
  unfold converted_crds. induction whs as [|wh whs IH]; [done|]. cbn [map List.filter].
  destruct (sorted_webhook_same wh) as (_ & _ & _ & _ & -> & Hc). destruct (is_conversion wh); [|done].
  cbn. by rewrite Hc, IH.
Qed.

(** A well-formed bundle is still well formed when it was validated. *)
Lemma validated_wf {UA : UnstructuredAPI} D S rv1 : well_formed_bundle D S rv1 -> well_formed_bundle D S (validated_bundle rv1).
Proof.
  intros [W1 W2 W3 W4 W5 W6 W7 W8 W9 W10 W11 W12 W13]; constructor; try done; rewrite validated_webhooks.
  - rewrite map_map. erewrite map_ext; [exact W6|]. intros wh. by destruct (sorted_webhook_same wh) as (-> & -> & _).
  - intros wh (wh' & -> & Hwh)%list_elem_of_fmap. destruct (sorted_webhook_same wh') as (_ & -> & _). by apply W7.
  - intros wh (wh' & -> & Hwh)%list_elem_of_fmap. destruct (sorted_webhook_same wh') as (_ & _ & -> & _). by apply W8.
  - intros wh rule (wh' & -> & Hwh)%list_elem_of_fmap. destruct (sorted_webhook_same wh') as (_ & _ & _ & -> & -> & _). by apply W9.
  - intros (wh & (wh' & -> & Hwh)%list_elem_of_fmap & Hc). apply W10. exists wh'.
    by destruct (sorted_webhook_same wh') as (_ & _ & _ & _ & <- & _).
  - by rewrite converted_sorted.
  - intros crd. rewrite converted_sorted. apply W12.
Qed.
