(* ===== verification/Generate.v ===== *)
(** * Generating a bundle's resources

    src/internal/operator-controller/rukpak/render/registryv1/generators: the
    resource creators of resources.go and the ten generators of generators.go,
    with the options and the certificate provisioner of rukpak/render/render.go
    and certprovider.go they use.

    A generator may panic (a resource creator does on an object it does not
    know) or fail.  Of the objects the fields the code sets are modelled; only
    deployments are given labels.  The order in which Go lists a set is a
    parameter. *)

From Stdlib Require Import Ascii.
From S2P Require Import Prelude GoErrors ApiTypes Phase Rbac Bundle DeployConfig.

(** ** Panics and errors *)

(** A Go computation with an error result that may also panic. *)
Abbreviation GE A := (go (result A)).

Definition ok {A} (a : A) : GE A := Ret (inr a).
Definition fail {A} (e : error) : GE A := Ret (inl e).

Definition go_bind {A B} (m : go A) (k : A -> go B) : go B :=
  match m with Ret a => k a | Panic msg => Panic msg end.
Definition ge_bind {A B} (m : GE A) (k : A -> GE B) : GE B :=
  go_bind m (fun r => match r with inl e => fail e | inr a => k a end).

Notation "'do!' x ':=' m 'in' k" := (go_bind m (fun x => k)) (at level 200, x name, m at level 100, k at level 200).
Notation "'do?' x ':=' m 'in' k" := (ge_bind m (fun x => k)) (at level 200, x name, m at level 100, k at level 200).

(** A loop that collects what its body makes and stops at the first error. *)
Fixpoint ge_map {A B} (f : A -> GE B) (l : list A) : GE (list B) :=
  match l with
  | [] => ok []
  | x :: l' => do? y := f x in do? ys := ge_map f l' in ok (y :: ys)
  end.

Definition ge_concat {A B} (f : A -> GE (list B)) (l : list A) : GE (list B) :=
  do? ls := ge_map f l in ok (concat ls).

(** ** Objects *)

Record Subject := mkSubject { sj_Kind : string; sj_Namespace : string; sj_Name : string }.

Record ServicePort := mkServicePort { svp_Name : string; svp_Port : Z; svp_TargetPort : IntOrString }.

Record Service := mkService {
  sv_Namespace : string;
  sv_Name : string;
  sv_Annotations : gmap string string;
  sv_Ports : list ServicePort;
  sv_Selector : option (gmap string string);
}.

(** admissionregistrationv1.ValidatingWebhook, MutatingWebhook; the namespace
    selector is the list of the names it admits. *)
Record AdmissionWebhook := mkAdmissionWebhook {
  aw_Name : string;
  aw_Rules : list WebhookRule;
  aw_Options : json;
  aw_AdmissionReviewVersions : list string;
  aw_Service : ServiceReference;
  aw_ReinvocationPolicy : option string;
  aw_NamespaceSelector : option (list string);
}.

Record WebhookConfiguration := mkWebhookConfiguration {
  wc_Namespace : string;
  wc_Name : string;
  wc_Annotations : gmap string string;
  wc_Webhooks : list AdmissionWebhook;
}.

(** client.Object: the objects the generators make. *)
Inductive client_object :=
| OServiceAccount (namespace name : string)
| ORole (namespace name : string) (rules : list PolicyRule)
| ORoleBinding (namespace name : string) (subjects : list Subject) (ref : RoleRef)
| OClusterRole (name : string) (rules : list PolicyRule)
| OClusterRoleBinding (name : string) (subjects : list Subject) (ref : RoleRef)
| OCRD (crd : CustomResourceDefinition)
| ODeployment (d : Deployment)
| OService (s : Service)
| OValidating (c : WebhookConfiguration)
| OMutating (c : WebhookConfiguration)
| OUnstructured (u : Unstructured).

#[export] Instance ServicePort_eq_dec : EqDecision ServicePort.
Proof. solve_decision. Defined.
#[export] Instance ServicePort_countable : Countable ServicePort.
Proof.
  refine (inj_countable' (fun p => (svp_Name p, svp_Port p,
                            match svp_TargetPort p with IntVal n => inl n | StrVal s => inr s end))
            (fun p => mkServicePort p.1.1 p.1.2 (match p.2 with inl n => IntVal n | inr s => StrVal s end)) _).
  by intros [? ? []].
Defined.

Definition annotated (f : gmap string string -> gmap string string) (o : client_object) : client_object :=
  match o with
  | OService s => OService (mkService (sv_Namespace s) (sv_Name s) (f (sv_Annotations s)) (sv_Ports s) (sv_Selector s))
  | OValidating c => OValidating (mkWebhookConfiguration (wc_Namespace c) (wc_Name c) (f (wc_Annotations c)) (wc_Webhooks c))
  | OMutating c => OMutating (mkWebhookConfiguration (wc_Namespace c) (wc_Name c) (f (wc_Annotations c)) (wc_Webhooks c))
  | OCRD c => OCRD (mkCRD (crd_Name c) (f (crd_Annotations c)) (crd_PreserveUnknownFields c) (crd_Conversion c) (crd_Rest c))
  | o => o
  end.

(** ** Resource creators *)

(** type ResourceCreatorOption = func(client.Object) *)
Definition ResourceCreatorOption : Type := client_object -> go client_object.

(** func (r ResourceCreatorOptions) ApplyTo(obj) client.Object *)
Fixpoint ApplyTo (r : list ResourceCreatorOption) (obj : client_object) : go client_object :=
  match r with
  | [] => Ret obj
  | opt :: r' => do! obj := opt obj in ApplyTo r' obj
  end.

Definition unknown_type : go client_object := Panic "unknown object type".

(** func WithSubjects(subjects...) *)
Definition WithSubjects (subjects : list Subject) : ResourceCreatorOption := fun obj =>
  match obj with
  | ORoleBinding ns n _ ref => Ret (ORoleBinding ns n subjects ref)
  | OClusterRoleBinding n _ ref => Ret (OClusterRoleBinding n subjects ref)
  | _ => unknown_type
  end.

(** func WithRoleRef(roleRef) *)
Definition WithRoleRef (roleRef : RoleRef) : ResourceCreatorOption := fun obj =>
  match obj with
  | ORoleBinding ns n subjects _ => Ret (ORoleBinding ns n subjects roleRef)
  | OClusterRoleBinding n subjects _ => Ret (OClusterRoleBinding n subjects roleRef)
  | _ => unknown_type
  end.

(** func WithRules(rules...) *)
Definition WithRules (rules : list PolicyRule) : ResourceCreatorOption := fun obj =>
  match obj with
  | ORole ns n _ => Ret (ORole ns n rules)
  | OClusterRole n _ => Ret (OClusterRole n rules)
  | _ => unknown_type
  end.

(** func WithDeploymentSpec(depSpec) *)
Definition WithDeploymentSpec (depSpec : DeploymentSpec) : ResourceCreatorOption := fun obj =>
  match obj with
  | ODeployment d => Ret (ODeployment (mkDeployment (de_Name d) (de_Namespace d) (de_Labels d) (de_Annotations d) depSpec))
  | _ => unknown_type
  end.

(** func WithLabels(labels), as used: on deployments *)
Definition WithLabels (labels : gmap string string) : ResourceCreatorOption := fun obj =>
  match obj with
  | ODeployment d => Ret (ODeployment (mkDeployment (de_Name d) (de_Namespace d) labels (de_Annotations d) (de_Spec d)))
  | _ => Ret obj
  end.

(** func WithServiceSpec(serviceSpec) *)
Definition WithServiceSpec (ports : list ServicePort) (selector : option (gmap string string)) : ResourceCreatorOption := fun obj =>
  match obj with
  | OService s => Ret (OService (mkService (sv_Namespace s) (sv_Name s) (sv_Annotations s) ports selector))
  | _ => Ret obj
  end.

(** func WithValidatingWebhooks(webhooks...) *)
Definition WithValidatingWebhooks (webhooks : list AdmissionWebhook) : ResourceCreatorOption := fun obj =>
  match obj with
  | OValidating c => Ret (OValidating (mkWebhookConfiguration (wc_Namespace c) (wc_Name c) (wc_Annotations c) webhooks))
  | _ => Ret obj
  end.

(** func WithMutatingWebhooks(webhooks...) *)
Definition WithMutatingWebhooks (webhooks : list AdmissionWebhook) : ResourceCreatorOption := fun obj =>
  match obj with
  | OMutating c => Ret (OMutating (mkWebhookConfiguration (wc_Namespace c) (wc_Name c) (wc_Annotations c) webhooks))
  | _ => Ret obj
  end.

Definition no_ref : RoleRef := mkRoleRef "" "" "".

(** func CreateServiceAccountResource, and the others *)
Definition CreateServiceAccountResource (name namespace : string) (opts : list ResourceCreatorOption) : go client_object :=
  ApplyTo opts (OServiceAccount namespace name).
Definition CreateRoleResource (name namespace : string) (opts : list ResourceCreatorOption) : go client_object :=
  ApplyTo opts (ORole namespace name []).
Definition CreateClusterRoleResource (name : string) (opts : list ResourceCreatorOption) : go client_object :=
  ApplyTo opts (OClusterRole name []).
Definition CreateClusterRoleBindingResource (name : string) (opts : list ResourceCreatorOption) : go client_object :=
  ApplyTo opts (OClusterRoleBinding name [] no_ref).
Definition CreateRoleBindingResource (name namespace : string) (opts : list ResourceCreatorOption) : go client_object :=
  ApplyTo opts (ORoleBinding namespace name [] no_ref).

(** The zero value of appsv1.DeploymentSpec. *)
Definition empty_deployment_spec : DeploymentSpec := mkDeploymentSpec None None (mkTemplate ∅ [] [] [] [] None None JNull) JNull.

Definition CreateDeploymentResource (name namespace : string) (opts : list ResourceCreatorOption) : go Deployment :=
  do! obj := ApplyTo opts (ODeployment (mkDeployment name namespace ∅ ∅ empty_deployment_spec)) in
  match obj with ODeployment d => Ret d | _ => Panic "interface conversion" end.
Definition CreateValidatingWebhookConfigurationResource (name namespace : string) (opts : list ResourceCreatorOption) : go client_object :=
  ApplyTo opts (OValidating (mkWebhookConfiguration namespace name ∅ [])).
Definition CreateMutatingWebhookConfigurationResource (name namespace : string) (opts : list ResourceCreatorOption) : go client_object :=
  ApplyTo opts (OMutating (mkWebhookConfiguration namespace name ∅ [])).
Definition CreateServiceResource (name namespace : string) (opts : list ResourceCreatorOption) : go client_object :=
  ApplyTo opts (OService (mkService namespace name ∅ [] None)).

(** ** Certificate provisioning (certprovider.go) *)

(** type CertificateProvisionerConfig struct, without the provider itself *)
Record CertificateProvisionerConfig := mkCertConfig { cc_ServiceName : string; cc_CertName : string; cc_Namespace : string }.

(** type CertificateProvider interface *)
Record CertificateProvider := mkCertProvider {
  cp_InjectCABundle : client_object -> CertificateProvisionerConfig -> result client_object;
  cp_AdditionalObjects : CertificateProvisionerConfig -> result (list Unstructured);
  cp_GetCertSecretInfo : CertificateProvisionerConfig -> CertSecretInfo;
}.

(** type CertificateProvisioner *)
Record CertificateProvisioner := mkProvisioner { pv_Config : CertificateProvisionerConfig; pv_CertProvider : option CertificateProvider }.

Definition InjectCABundle (c : CertificateProvisioner) (obj : client_object) : result client_object :=
  match pv_CertProvider c with None => inr obj | Some p => cp_InjectCABundle p obj (pv_Config c) end.
Definition AdditionalObjects (c : CertificateProvisioner) : result (list Unstructured) :=
  match pv_CertProvider c with None => inr [] | Some p => cp_AdditionalObjects p (pv_Config c) end.
Definition GetCertSecretInfo (c : CertificateProvisioner) : option CertSecretInfo :=
  match pv_CertProvider c with None => None | Some p => Some (cp_GetCertSecretInfo p (pv_Config c)) end.

(** ** Options (render.go) *)

(** type UniqueNameGenerator func(string, interface{}) string: the code always
    passes a permission; a generator may panic. *)
Definition UniqueNameGenerator : Type := string -> StrategyPermission -> go string.

(** type Options struct *)
Record Options := mkOptions {
  o_InstallNamespace : string;
  o_TargetNamespaces : list string;
  o_UniqueNameGenerator : option UniqueNameGenerator;
  o_CertificateProvider : option CertificateProvider;
  o_DeploymentConfig : option DeploymentConfig;
}.

(** The names of the service and of the certificate of a deployment. *)
Definition service_name (deploymentName : string) : string :=
  object_name (replace_char "." "-" deploymentName) "service".
Definition cert_name (deploymentName : string) : string := object_name (service_name deploymentName) "cert".

(** func CertProvisionerFor(deploymentName, opts) CertificateProvisioner *)
Definition CertProvisionerFor (deploymentName : string) (opts : Options) : CertificateProvisioner :=
  mkProvisioner (mkCertConfig (service_name deploymentName) (cert_name deploymentName) (o_InstallNamespace opts))
    (o_CertificateProvider opts).

(** ** Generators *)

(** type ResourceGenerator func(rv1, opts) ([]client.Object, error); the bundle
    is a pointer. *)
Definition ResourceGenerator : Type := option RegistryV1 -> Options -> GE (list client_object).

Definition with_bundle (f : RegistryV1 -> Options -> GE (list client_object)) : ResourceGenerator := fun rv1 opts =>
  match rv1 with None => fail (ENew "bundle cannot be nil") | Some rv1 => f rv1 opts end.

(** A call of a nil function value panics. *)
Definition call_UniqueNameGenerator (opts : Options) (base : string) (p : StrategyPermission) : go string :=
  match o_UniqueNameGenerator opts with None => Panic "nil pointer dereference" | Some f => f base p end.

(** The AllNamespaces test of the generators. *)
Definition targets_all (opts : Options) : bool :=
  match o_TargetNamespaces opts with [n] => bool_decide (n = "") | _ => false end.

(** func saNameOrDefault(saName) string *)
Definition saNameOrDefault (saName : string) : string := if bool_decide (saName = "") then "default" else saName.

Definition sa_subject (opts : Options) (saName : string) : Subject := mkSubject "ServiceAccount" (o_InstallNamespace opts) saName.
Definition rbac_group : string := "rbac.authorization.k8s.io".

Definition permission_name (rv1 : RegistryV1) (opts : Options) (p : StrategyPermission) : go string :=
  call_UniqueNameGenerator opts (csv_Name (rv_CSV rv1) +:+ "-" +:+ saNameOrDefault (sdp_ServiceAccountName p)) p.

(** func BundleCSVDeploymentGenerator(rv1, opts) *)
Definition deployment_annotations (rv1 : RegistryV1) (opts : Options) (t : PodTemplate) : gmap string string :=
  <["olm.targetNamespaces" := strings_Join (o_TargetNamespaces opts) ","]>
    (MergeMaps (csv_Annotations (rv_CSV rv1)) (pt_Annotations t)).

Definition deployment_resource (rv1 : RegistryV1) (opts : Options) (depSpec : StrategyDeploymentSpec) : go Deployment :=
  let webhookDeployments : gset string := list_to_set (map wh_DeploymentName (csv_WebhookDefinitions (rv_CSV rv1))) in
  let s := dep_Spec depSpec in
  let spec := mkDeploymentSpec (ds_Selector s) (Some 1)
                (with_TemplateAnnotations (deployment_annotations rv1 opts (ds_Template s)) (ds_Template s)) (ds_Rest s) in
  do! d := CreateDeploymentResource (dep_Name depSpec) (o_InstallNamespace opts)
             [WithDeploymentSpec spec; WithLabels (dep_Label depSpec)] in
  let d := match GetCertSecretInfo (CertProvisionerFor (dep_Name depSpec) opts) with
           | Some secretInfo =>
               if bool_decide (dep_Name depSpec ∈ webhookDeployments) then ensureCorrectDeploymentCertVolumes d secretInfo else d
           | None => d
           end in
  Ret (applyCustomConfigToDeployment d (o_DeploymentConfig opts)).

Definition BundleCSVDeploymentGenerator : ResourceGenerator := with_bundle (fun rv1 opts =>
  ge_map (fun depSpec => do! d := deployment_resource rv1 opts depSpec in ok (ODeployment d))
    (csv_DeploymentSpecs (rv_CSV rv1))).

(** func BundleCSVPermissionsGenerator(rv1, opts) *)
Definition role_objects (rv1 : RegistryV1) (opts : Options) (ns : string) (p : StrategyPermission) : GE (list client_object) :=
  let saName := saNameOrDefault (sdp_ServiceAccountName p) in
  do! name := permission_name rv1 opts p in
  do! role := CreateRoleResource name ns [WithRules (sdp_Rules p)] in
  do! binding := CreateRoleBindingResource name ns
        [WithSubjects [sa_subject opts saName]; WithRoleRef (mkRoleRef rbac_group "Role" name)] in
  ok [role; binding].

Definition BundleCSVPermissionsGenerator : ResourceGenerator := with_bundle (fun rv1 opts =>
  if targets_all opts then ok []
  else ge_concat (fun ns => ge_concat (role_objects rv1 opts ns) (csv_Permissions (rv_CSV rv1))) (o_TargetNamespaces opts)).

(** func BundleCSVClusterPermissionsGenerator(rv1, opts) *)
Definition namespaces_rule : PolicyRule := mkRule ["get"; "list"; "watch"] [""] ["namespaces"] [] [].

Definition promoted (p : StrategyPermission) : StrategyPermission :=
  mkPermission (sdp_ServiceAccountName p) (sdp_Rules p ++ [namespaces_rule]).

Definition cluster_permissions (rv1 : RegistryV1) (opts : Options) : list StrategyPermission :=
  csv_ClusterPermissions (rv_CSV rv1) ++ (if targets_all opts then map promoted (csv_Permissions (rv_CSV rv1)) else []).

Definition cluster_role_objects (rv1 : RegistryV1) (opts : Options) (p : StrategyPermission) : GE (list client_object) :=
  let saName := saNameOrDefault (sdp_ServiceAccountName p) in
  do! name := permission_name rv1 opts p in
  do! role := CreateClusterRoleResource name [WithRules (sdp_Rules p)] in
  do! binding := CreateClusterRoleBindingResource name
        [WithSubjects [sa_subject opts saName]; WithRoleRef (mkRoleRef rbac_group "ClusterRole" name)] in
  ok [role; binding].

Definition BundleCSVClusterPermissionsGenerator : ResourceGenerator := with_bundle (fun rv1 opts =>
  ge_concat (cluster_role_objects rv1 opts) (cluster_permissions rv1 opts)).

(** func BundleCRDGenerator(rv1, opts): the loop that finds the conversion
    webhook of each custom resource definition. *)
Fixpoint crd_map_names (wh : WebhookDescription) (names : list string) (m : gmap string WebhookDescription)
    : result (gmap string WebhookDescription) :=
  match names with
  | [] => inr m
  | crdName :: names' =>
      match m !! crdName with
      | Some _ => inl (ENew ("custom resource definition '" +:+ crdName +:+ "' is referenced by multiple conversion webhook definitions"))
      | None => crd_map_names wh names' (<[crdName := wh]> m)
      end
  end.

Fixpoint crdToDeploymentMap (whs : list WebhookDescription) (m : gmap string WebhookDescription)
    : result (gmap string WebhookDescription) :=
  match whs with
  | [] => inr m
  | wh :: whs' =>
      if bool_decide (wh_Type wh = ConversionWebhook) then
        match crd_map_names wh (wh_ConversionCRDs wh) m with
        | inl e => inl e
        | inr m => crdToDeploymentMap whs' m
        end
      else crdToDeploymentMap whs' m
  end.

Definition crd_conversion (opts : Options) (cw : WebhookDescription) : CRDConversion :=
  mkConversion (o_InstallNamespace opts) (service_name (wh_DeploymentName cw)) (default "/" (wh_WebhookPath cw))
    (wh_ContainerPort cw) (wh_AdmissionReviewVersions cw).

Definition crd_object (opts : Options) (m : gmap string WebhookDescription) (crd : CustomResourceDefinition) : GE client_object :=
  match m !! crd_Name crd with
  | None => ok (OCRD crd)
  | Some cw =>
      if crd_PreserveUnknownFields crd then
        fail (ENew ("custom resource definition '" +:+ crd_Name crd +:+
                    "' must have .spec.preserveUnknownFields set to false to let API Server call webhook to do the conversion"))
      else Ret (InjectCABundle (CertProvisionerFor (wh_DeploymentName cw) opts)
             (OCRD (mkCRD (crd_Name crd) (crd_Annotations crd) (crd_PreserveUnknownFields crd) (Some (ByWebhook (crd_conversion opts cw))) (crd_Rest crd))))
  end.

Definition BundleCRDGenerator : ResourceGenerator := with_bundle (fun rv1 opts =>
  do? m := Ret (crdToDeploymentMap (csv_WebhookDefinitions (rv_CSV rv1)) ∅) in
  ge_map (crd_object opts m) (rv_CRDs rv1)).

(** func getWebhookNamespaceSelector(targetNamespaces) *)
Definition getWebhookNamespaceSelector (targetNamespaces : list string) : option (list string) :=
  match targetNamespaces with
  | [] => None
  | _ => if bool_decide ("" ∈ targetNamespaces) then None else Some targetNamespaces
  end.

(** strings.TrimSuffix of a dash *)
Fixpoint TrimSuffix_dash (s : string) : string :=
  match s with
  | EmptyString => EmptyString
  | String "-" EmptyString => EmptyString
  | String c s' => String c (TrimSuffix_dash s')
  end.

Definition admission_webhook (opts : Options) (wh : WebhookDescription) (reinvocation : option string) : AdmissionWebhook :=
  mkAdmissionWebhook (TrimSuffix_dash (wh_GenerateName wh)) (wh_Rules wh) (wh_Options wh) (wh_AdmissionReviewVersions wh)
    (mkServiceReference (o_InstallNamespace opts) (service_name (wh_DeploymentName wh)) (wh_WebhookPath wh) (wh_ContainerPort wh))
    reinvocation (getWebhookNamespaceSelector (o_TargetNamespaces opts)).

(** func BundleValidatingWebhookResourceGenerator(rv1, opts) *)
Definition validating_object (opts : Options) (wh : WebhookDescription) : GE client_object :=
  do! obj := CreateValidatingWebhookConfigurationResource (TrimSuffix_dash (wh_GenerateName wh)) (o_InstallNamespace opts)
               [WithValidatingWebhooks [admission_webhook opts wh None]] in
  Ret (InjectCABundle (CertProvisionerFor (wh_DeploymentName wh) opts) obj).

Definition BundleValidatingWebhookResourceGenerator : ResourceGenerator := with_bundle (fun rv1 opts =>
  ge_map (validating_object opts)
    (List.filter (fun wh => bool_decide (wh_Type wh = ValidatingAdmissionWebhook)) (csv_WebhookDefinitions (rv_CSV rv1)))).

(** func BundleMutatingWebhookResourceGenerator(rv1, opts) *)
Definition mutating_object (opts : Options) (wh : WebhookDescription) : GE client_object :=
  do! obj := CreateMutatingWebhookConfigurationResource (TrimSuffix_dash (wh_GenerateName wh)) (o_InstallNamespace opts)
               [WithMutatingWebhooks [admission_webhook opts wh (wh_ReinvocationPolicy wh)]] in
  Ret (InjectCABundle (CertProvisionerFor (wh_DeploymentName wh) opts) obj).

Definition BundleMutatingWebhookResourceGenerator : ResourceGenerator := with_bundle (fun rv1 opts =>
  ge_map (mutating_object opts)
    (List.filter (fun wh => bool_decide (wh_Type wh = MutatingAdmissionWebhook)) (csv_WebhookDefinitions (rv_CSV rv1)))).

(** func getWebhookServicePort(wh) *)
Definition getWebhookServicePort (wh : WebhookDescription) : ServicePort :=
  let containerPort := if 0 <? wh_ContainerPort wh then wh_ContainerPort wh else 443 in
  mkServicePort (fmt_d containerPort) containerPort (default (IntVal containerPort) (wh_TargetPort wh)).

Section Generators.
Context `{!UnstructuredAPI}.
(** registry's bundle.IsSupported; Unstructured.SetNamespace; intstr's
    IntValue; and the orders in which Go lists a set of names and of ports. *)
Context (IsSupported : string -> bool * bool) (u_SetNamespace : string -> Unstructured -> Unstructured).
Context (IntValue : IntOrString -> Z).
Context (UnsortedList : gset string -> list string) (UnsortedPorts : gset ServicePort -> list ServicePort).

(** func BundleCSVServiceAccountGenerator(rv1, opts) *)
Definition service_account_names (rv1 : RegistryV1) : gset string :=
  list_to_set (map (fun p => saNameOrDefault (sdp_ServiceAccountName p))
    (csv_Permissions (rv_CSV rv1) ++ csv_ClusterPermissions (rv_CSV rv1))).

Definition BundleCSVServiceAccountGenerator : ResourceGenerator := with_bundle (fun rv1 opts =>
  ge_map (fun n => do! obj := CreateServiceAccountResource n (o_InstallNamespace opts) [] in ok obj)
    (List.filter (fun n => negb (bool_decide (n = "default"))) (UnsortedList (service_account_names rv1)))).

(** func BundleAdditionalResourcesGenerator(rv1, opts) *)
Definition additional_object (opts : Options) (res : Unstructured) : GE client_object :=
  let '(supported, namespaced) := IsSupported (gvk_Kind (u_GVK res)) in
  if supported then ok (OUnstructured (if namespaced : bool then u_SetNamespace (o_InstallNamespace opts) res else res))
  else fail (ENew ("bundle contains unsupported resource: Name: " +:+ u_GetName res +:+ ", Kind: " +:+ gvk_Kind (u_GVK res))).

Definition BundleAdditionalResourcesGenerator : ResourceGenerator := with_bundle (fun rv1 opts =>
  ge_map (additional_object opts) (rv_Others rv1)).

(** func BundleDeploymentServiceResourceGenerator(rv1, opts) *)
Definition webhookServicePortsByDeployment (whs : list WebhookDescription) : gmap string (gset ServicePort) :=
  foldl (fun m wh => <[wh_DeploymentName wh := {[getWebhookServicePort wh]} ∪ default ∅ (m !! wh_DeploymentName wh)]> m) ∅ whs.

Definition port_cmp (a b : ServicePort) : Z :=
  cmp_Or [int_cmp (svp_Port a) (svp_Port b); int_cmp (IntValue (svp_TargetPort a)) (IntValue (svp_TargetPort b))].

Definition service_objects (opts : Options) (m : gmap string (gset ServicePort)) (d : StrategyDeploymentSpec) : GE (list client_object) :=
  match m !! dep_Name d with
  | None => ok []
  | Some servicePorts =>
      do! obj := CreateServiceResource (service_name (dep_Name d)) (o_InstallNamespace opts)
                   [WithServiceSpec (sort_by port_cmp (UnsortedPorts servicePorts)) (ds_Selector (dep_Spec d))] in
      do? obj := Ret (InjectCABundle (CertProvisionerFor (dep_Name d) opts) obj) in
      ok [obj]
  end.

Definition BundleDeploymentServiceResourceGenerator : ResourceGenerator := with_bundle (fun rv1 opts =>
  ge_concat (service_objects opts (webhookServicePortsByDeployment (csv_WebhookDefinitions (rv_CSV rv1))))
    (csv_DeploymentSpecs (rv_CSV rv1))).

(** func CertProviderResourceGenerator(rv1, opts): without a test for nil *)
Definition CertProviderResourceGenerator : ResourceGenerator := fun rv1 opts =>
  match rv1 with
  | None => Panic "nil pointer dereference"
  | Some rv1 =>
      let deploymentsWithWebhooks : gset string := list_to_set (map wh_DeploymentName (csv_WebhookDefinitions (rv_CSV rv1))) in
      ge_concat (fun depName =>
          do? objs := Ret (AdditionalObjects (CertProvisionerFor depName opts)) in ok (map OUnstructured objs))
        (UnsortedList deploymentsWithWebhooks)
  end.

(** var ResourceGenerators (registryv1.go) *)
Definition bundle_generators : list ResourceGenerator :=
  [BundleCSVServiceAccountGenerator;
   BundleCSVPermissionsGenerator;
   BundleCSVClusterPermissionsGenerator;
   BundleCRDGenerator;
   BundleAdditionalResourcesGenerator;
   BundleCSVDeploymentGenerator;
   BundleValidatingWebhookResourceGenerator;
   BundleMutatingWebhookResourceGenerator;
   BundleDeploymentServiceResourceGenerator;
   CertProviderResourceGenerator].
End Generators.

(** func (r ResourceGenerators) GenerateResources(rv1, opts) *)
Definition GenerateResources (r : list ResourceGenerator) (rv1 : option RegistryV1) (opts : Options) : GE (list client_object) :=
  ge_concat (fun generator : ResourceGenerator => generator rv1 opts) r.
