(* ===== verification/CertProviders.v ===== *)
(** * Certificate providers

    src/internal/operator-controller/rukpak/render/certproviders: cert-manager
    (certmanager.go) and the OpenShift service CA (openshift_serviceca.go), the
    two implementations of the CertificateProvider interface, with
    util.ToUnstructured of rukpak/util/util.go; and the laws of the interface
    the rendering relies on. *)

From S2P Require Import Prelude GoErrors ApiTypes Phase Rbac Bundle DeployConfig Generate.

(** What a provider promises: it gives an object annotations and changes
    nothing else of it, and mounts the secret named after the certificate. *)
Class CertProviderLaws (p : CertificateProvider) := {
  inject_annotates : forall o cfg o', cp_InjectCABundle p o cfg = inr o' -> exists f, o' = annotated f o;
  secret_of_certificate : forall cfg, si_SecretName (cp_GetCertSecretInfo p cfg) = cc_CertName cfg;
}.

(** Both implementations add one annotation to what they annotate. *)
Definition add_annotation (k v : string) (o : client_object) : client_object := annotated (fun m => MergeMaps m {[k := v]}) o.

(** ** The OpenShift service CA *)

Definition openshiftServiceCAServingCertNameAnnotation : string := "service.beta.openshift.io/serving-cert-secret-name".
Definition openshiftServiceCAInjectCABundleAnnotation : string := "service.beta.openshift.io/inject-cabundle".

(** func (p OpenshiftServiceCaCertificateProvider) InjectCABundle(obj, cfg) error *)
Definition openshift_InjectCABundle (obj : client_object) (cfg : CertificateProvisionerConfig) : result client_object :=
  inr (match obj with
       | OValidating _ | OMutating _ | OCRD _ => add_annotation openshiftServiceCAInjectCABundleAnnotation "true" obj
       | OService _ => add_annotation openshiftServiceCAServingCertNameAnnotation (cc_CertName cfg) obj
       | _ => obj
       end).

(** func (p ...) GetCertSecretInfo(cfg) render.CertSecretInfo *)
Definition cert_secret_info (cfg : CertificateProvisionerConfig) : CertSecretInfo :=
  mkSecretInfo (cc_CertName cfg) "tls.crt" "tls.key".

Definition OpenshiftServiceCaCertificateProvider : CertificateProvider :=
  mkCertProvider openshift_InjectCABundle (fun _ => inr []) cert_secret_info.

(** ** cert-manager *)

Definition certManagerInjectCAAnnotation : string := "cert-manager.io/inject-ca-from".
Definition hour : Z := 3600 * 10 ^ 9.
Definition olmv0RotationPeriod : Z := 730 * 24 * hour.
Definition olmv0RenewBefore : Z := 24 * hour.

(** The objects of cert-manager's API this code makes. *)
Inductive certmanager_object :=
| CMIssuer (namespace name : string)          (* self-signed *)
| CMCertificate (namespace name secretName commonName : string) (dnsNames usages : list string) (isCA : bool)
    (issuer : string) (duration renewBefore : Z).

Definition cm_GVK (o : certmanager_object) : GroupVersionKind :=
  mkGVK "cert-manager.io" "v1" (match o with CMIssuer _ _ => "Issuer" | CMCertificate _ _ _ _ _ _ _ _ _ _ => "Certificate" end).
Definition cm_GetName (o : certmanager_object) : string :=
  match o with CMIssuer _ n => n | CMCertificate _ n _ _ _ _ _ _ _ _ => n end.

Section CertManager.
Context `{!UnstructuredAPI}.
(** runtime.DefaultUnstructuredConverter.ToUnstructured and
    unstructured.RemoveNestedField. *)
Context (converter : certmanager_object -> result (gmap string json)).
Context (RemoveNestedField : list string -> gmap string json -> gmap string json).

(** func ToUnstructured(obj) (_, error), on the objects it is given here *)
Definition ToUnstructured (obj : option certmanager_object) : result Unstructured :=
  match obj with
  | None => inl (ENew "object is nil")
  | Some obj =>
      let gvk := cm_GVK obj in
      if bool_decide (slen (gvk_Kind gvk) = 0) then inl (ENew "object has no kind")
      else if bool_decide (slen (gvk_Version gvk) = 0) then inl (ENew "object has no version")
      else match converter obj with
           | inl err => inl (EWrap ("convert " +:+ gvk_Kind gvk +:+ " " +:+ fmt_q (cm_GetName obj) +:+ " to unstructured: ") err "")
           | inr uObj => inr (u_SetGroupVersionKind gvk (mkUnstr (Some (RemoveNestedField ["metadata"; "creationTimestamp"] uObj))))
           end
  end.

(** func (p CertManagerCertificateProvider) InjectCABundle(obj, cfg) error *)
Definition certmanager_InjectCABundle (obj : client_object) (cfg : CertificateProvisionerConfig) : result client_object :=
  inr (match obj with
       | OValidating _ | OMutating _ | OCRD _ =>
           add_annotation certManagerInjectCAAnnotation (cc_Namespace cfg +:+ "/" +:+ cc_CertName cfg) obj
       | _ => obj
       end).

Definition issuer_of (cfg : CertificateProvisionerConfig) : certmanager_object :=
  CMIssuer (cc_Namespace cfg) (object_name (cc_CertName cfg) "selfsigned-issuer").

Definition certificate_of (cfg : CertificateProvisionerConfig) : certmanager_object :=
  let host := cc_ServiceName cfg +:+ "." +:+ cc_Namespace cfg in
  CMCertificate (cc_Namespace cfg) (cc_CertName cfg) (cc_CertName cfg) host
    [host; host +:+ ".svc"; host +:+ ".svc.cluster.local"] ["server auth"] false (cm_GetName (issuer_of cfg))
    olmv0RotationPeriod olmv0RenewBefore.

(** func (p CertManagerCertificateProvider) AdditionalObjects(cfg) (_, error) *)
Definition certmanager_AdditionalObjects (cfg : CertificateProvisionerConfig) : result (list Unstructured) :=
  let issuerObj := ToUnstructured (Some (issuer_of cfg)) in
  let certObj := ToUnstructured (Some (certificate_of cfg)) in
  let objs := omap (fun r : result Unstructured => match r with inr o => Some o | inl _ => None end) [issuerObj; certObj] in
  let errs := omap (fun r : result Unstructured => match r with inl e => Some e | inr _ => None end) [issuerObj; certObj] in
  match errs with
  | [] => inr objs
  | _ => inl (EJoin errs)
  end.

Definition CertManagerCertificateProvider : CertificateProvider :=
  mkCertProvider certmanager_InjectCABundle certmanager_AdditionalObjects cert_secret_info.

#[export] Instance CertManager_laws : CertProviderLaws CertManagerCertificateProvider.
Proof.
  constructor; [|done]. intros o cfg o' [= <-]. destruct o as [| | | | | | |[]| | |]; first [exists id; reflexivity|eexists; reflexivity].
Qed.
End CertManager.

#[export] Instance Openshift_laws : CertProviderLaws OpenshiftServiceCaCertificateProvider.
Proof.
  constructor; [|done]. intros o cfg o' [= <-]. destruct o as [| | | | | | |[]| | |]; first [exists id; reflexivity|eexists; reflexivity].
Qed.
