(* ===== verification/GenerateProps.v ===== *)
(** * What the generators make

    Lemmas about the loops and generators of Generate.v: what an object they
    return was made from, and when they return at all. *)

From Stdlib Require Import Ascii.
From S2P Require Import Prelude GoErrors ApiTypes Phase Rbac Bundle DeployConfig Validate ValidateProps Generate CertProviders.

(** ** Loops *)

Lemma ge_bind_ok {A B} (m : GE A) (k : A -> GE B) b : ge_bind m k = ok b <-> exists a, m = ok a /\ k a = ok b.
Proof.
  unfold ge_bind, go_bind, ok, fail. destruct m as [[e|a]|msg]; split; try (intros (a' & [= <-] & H); done); try (intros H; by exists a); try done;
    try (by intros (? & ? & ?)).
Qed.

Lemma go_bind_ok {A B} (m : go A) (k : A -> GE B) b : go_bind m k = ok b <-> exists a, m = Ret a /\ k a = ok b.
Proof. destruct m as [a|msg]; split; [intros H; by exists a|by intros (a' & [= <-] & H)|done|by intros (? & ? & ?)]. Qed.

Lemma ge_map_ok {A B} (f : A -> GE B) l ys : ge_map f l = ok ys <-> Forall2 (fun x y => f x = ok y) l ys.
Proof.
  revert ys. induction l as [|x l IH]; intros ys; cbn [ge_map].
  - split; [intros [= <-]; constructor|]. intros H. by apply Forall2_nil_inv_l in H as ->.
  - rewrite ge_bind_ok. setoid_rewrite ge_bind_ok. setoid_rewrite IH. split.
    + intros (y & Hy & ys' & Hys & [= <-]). by constructor.
    + intros H. apply Forall2_cons_inv_l in H as (y & ys' & Hy & Hys & ->). by exists y; split; [done|]; exists ys'.
Qed.

Lemma ge_map_elem {A B} (f : A -> GE B) l ys y :
  ge_map f l = ok ys -> y ∈ ys <-> exists x, x ∈ l /\ f x = ok y.
Proof.
  intros H%ge_map_ok. split.
  - intros Hy. apply list_elem_of_lookup in Hy as [i Hi]. destruct (Forall2_lookup_r _ _ _ _ _ H Hi) as (x & Hx & Hf).
    exists x. split; [by eapply list_elem_of_lookup_2|done].
  - intros (x & Hx & Hf). apply list_elem_of_lookup in Hx as [i Hi]. destruct (Forall2_lookup_l _ _ _ _ _ H Hi) as (y' & Hy & Hf').
    rewrite Hf in Hf'. injection Hf' as <-. by eapply list_elem_of_lookup_2.
Qed.

(** A loop whose body makes something returns it. *)
Lemma ge_map_total {A B} (f : A -> GE B) l : (forall x, x ∈ l -> exists y, f x = ok y) -> exists ys, ge_map f l = ok ys.
Proof.
  induction l as [|x l IH]; intros H; [by eexists|]. destruct (H x) as [y Hy]; [by left|].
  destruct IH as [ys Hys]; [intros z Hz; apply H; by right|]. exists (y :: ys). cbn. by rewrite Hy, Hys.
Qed.

Lemma ge_concat_elem {A B} (f : A -> GE (list B)) l ys y :
  ge_concat f l = ok ys -> y ∈ ys <-> exists x zs, x ∈ l /\ f x = ok zs /\ y ∈ zs.
Proof.
  unfold ge_concat. rewrite ge_bind_ok. intros (ls & Hl & [= <-]). rewrite list_elem_of_In, in_concat. setoid_rewrite <- list_elem_of_In.
  setoid_rewrite (ge_map_elem f l ls _ Hl). naive_solver.
Qed.

Lemma ge_concat_each {A B} (f : A -> GE (list B)) l ys x : ge_concat f l = ok ys -> x ∈ l -> exists zs, f x = ok zs.
Proof.
  unfold ge_concat. rewrite ge_bind_ok. intros (ls & Hl%ge_map_ok & _) Hx.
  apply list_elem_of_lookup in Hx as [i Hi]. destruct (Forall2_lookup_l _ _ _ _ _ Hl Hi) as (y & _ & Hf). by exists y.
Qed.

Lemma ge_concat_total {A B} (f : A -> GE (list B)) l : (forall x, x ∈ l -> exists y, f x = ok y) -> exists ys, ge_concat f l = ok ys.
Proof. intros [ls Hl]%ge_map_total. exists (concat ls). unfold ge_concat. by rewrite Hl. Qed.

Lemma ge_concat_cons {A B} (f : A -> GE (list B)) x l ys :
  ge_concat f (x :: l) = ok ys -> exists zs rest, f x = ok zs /\ ge_concat f l = ok rest /\ ys = zs ++ rest.
Proof.
  unfold ge_concat. rewrite ge_bind_ok. intros (ls & Hl%ge_map_ok & [= <-]).
  apply Forall2_cons_inv_l in Hl as (zs & rest & Hz & Hr & ->). exists zs, (concat rest). split; [done|].
  apply ge_map_ok in Hr. by rewrite Hr.
Qed.

(** A loop that cannot panic. *)
Definition returns {A} (m : GE A) : Prop := exists r, m = Ret r.

Lemma ge_bind_returns {A B} (m : GE A) (k : A -> GE B) :
  returns m -> (forall a, m = ok a -> returns (k a)) -> returns (ge_bind m k).
Proof. intros [[e|a] ->] Hk; [by eexists|]. by apply Hk. Qed.

Lemma ge_map_returns {A B} (f : A -> GE B) l : (forall x, x ∈ l -> returns (f x)) -> returns (ge_map f l).
Proof.
  induction l as [|x l IH]; intros H; [by eexists|]. cbn. apply ge_bind_returns; [apply H; by left|]. intros y _.
  apply ge_bind_returns; [apply IH; intros z Hz; apply H; by right|]. intros ys _. by eexists.
Qed.

Lemma ge_concat_returns {A B} (f : A -> GE (list B)) l : (forall x, x ∈ l -> returns (f x)) -> returns (ge_concat f l).
Proof. intros H. apply ge_bind_returns; [by apply ge_map_returns|]. intros ls _. by eexists. Qed.

(** ** Providers *)

Definition provider_lawful (opts : Options) : Prop := forall p, o_CertificateProvider opts = Some p -> CertProviderLaws p.

(** No call of the provider fails. *)
Definition provider_total (opts : Options) : Prop :=
  forall p, o_CertificateProvider opts = Some p ->
    (forall o cfg, exists o', cp_InjectCABundle p o cfg = inr o') /\ (forall cfg, exists l, cp_AdditionalObjects p cfg = inr l).

Lemma inject_annotated opts n o o' :
  provider_lawful opts -> InjectCABundle (CertProvisionerFor n opts) o = inr o' -> exists f, o' = annotated f o.
Proof.
  intros Hp. unfold InjectCABundle. cbn. destruct (o_CertificateProvider opts) as [p|] eqn:E.
  - intros H. destruct (Hp p E) as [Ha _]. by eapply Ha.
  - intros [= <-]. exists id. by destruct o as [| | | | |[]| |[]|[]|[]|].
Qed.

Lemma inject_total opts n o : provider_total opts -> exists o', InjectCABundle (CertProvisionerFor n opts) o = inr o'.
Proof.
  intros Hp. unfold InjectCABundle. cbn. destruct (o_CertificateProvider opts) as [p|] eqn:E; [|by eexists]. apply (Hp p E).
Qed.

(** ** Kinds of objects *)

(** Which generator's objects an object belongs to. *)
Definition tag (o : client_object) : nat :=
  match o with
  | OServiceAccount _ _ => 0
  | ORole _ _ _ | ORoleBinding _ _ _ _ => 1
  | OClusterRole _ _ | OClusterRoleBinding _ _ _ => 2
  | OCRD _ => 3
  | OUnstructured _ => 4
  | ODeployment _ => 5
  | OValidating _ => 6
  | OMutating _ => 7
  | OService _ => 8
  end.

Lemma annotated_tag f o : tag (annotated f o) = tag o.
Proof. by destruct o. Qed.

(** ** The single objects *)

Section Objects.
Context (rv1 : RegistryV1) (opts : Options).

Definition role_objects_of (ns n : string) (p : StrategyPermission) : list client_object :=
  [ORole ns n (sdp_Rules p);
   ORoleBinding ns n [sa_subject opts (saNameOrDefault (sdp_ServiceAccountName p))] (mkRoleRef rbac_group "Role" n)].

Definition cluster_role_objects_of (n : string) (p : StrategyPermission) : list client_object :=
  [OClusterRole n (sdp_Rules p);
   OClusterRoleBinding n [sa_subject opts (saNameOrDefault (sdp_ServiceAccountName p))] (mkRoleRef rbac_group "ClusterRole" n)].

Lemma role_objects_ok ns p os :
  role_objects rv1 opts ns p = ok os <-> exists n, permission_name rv1 opts p = Ret n /\ os = role_objects_of ns n p.
Proof.
  unfold role_objects. rewrite go_bind_ok. cbn. split; [intros (n & Hn & [= <-]); by exists n|]. intros (n & Hn & ->). by exists n.
Qed.

Lemma cluster_role_objects_ok p os :
  cluster_role_objects rv1 opts p = ok os <-> exists n, permission_name rv1 opts p = Ret n /\ os = cluster_role_objects_of n p.
Proof.
  unfold cluster_role_objects. rewrite go_bind_ok. cbn. split; [intros (n & Hn & [= <-]); by exists n|]. intros (n & Hn & ->). by exists n.
Qed.

Lemma permission_objects_elem os o :
  BundleCSVPermissionsGenerator (Some rv1) opts = ok os ->
  o ∈ os <-> targets_all opts = false /\ exists ns p n, ns ∈ o_TargetNamespaces opts /\ p ∈ csv_Permissions (rv_CSV rv1) /\
                permission_name rv1 opts p = Ret n /\ o ∈ role_objects_of ns n p.
Proof.
  unfold BundleCSVPermissionsGenerator, with_bundle. destruct (targets_all opts).
  - intros [= <-]. split; [by intros ?%not_elem_of_nil|by intros [? _]].
  - intros H. rewrite (ge_concat_elem _ _ _ _ H). split.
    + intros (ns & zs & Hns & Hz & Ho). split; [done|]. apply (ge_concat_elem _ _ _ _ Hz) in Ho as (p & zs' & Hp & Hz' & Ho).
      apply role_objects_ok in Hz' as (n & Hn & ->). by exists ns, p, n.
    + intros (_ & ns & p & n & Hns & Hp & Hn & Ho). destruct (ge_concat_each _ _ _ _ H Hns) as [zs Hz]. exists ns, zs.
      split; [done|]. split; [done|]. apply (ge_concat_elem _ _ _ _ Hz). exists p, (role_objects_of ns n p).
      split; [done|]. split; [|done]. apply role_objects_ok. by exists n.
Qed.

Lemma cluster_permission_objects_elem os o :
  BundleCSVClusterPermissionsGenerator (Some rv1) opts = ok os ->
  o ∈ os <-> exists p n, p ∈ cluster_permissions rv1 opts /\ permission_name rv1 opts p = Ret n /\ o ∈ cluster_role_objects_of n p.
Proof.
  unfold BundleCSVClusterPermissionsGenerator, with_bundle. intros H. rewrite (ge_concat_elem _ _ _ _ H). split.
  - intros (p & zs & Hp & Hz & Ho). apply cluster_role_objects_ok in Hz as (n & Hn & ->). by exists p, n.
  - intros (p & n & Hp & Hn & Ho). exists p, (cluster_role_objects_of n p). split; [done|]. split; [|done].
    apply cluster_role_objects_ok. by exists n.
Qed.

Lemma validating_object_ok wh o :
  provider_lawful opts -> validating_object opts wh = ok o ->
  exists f, o = annotated f (OValidating (mkWebhookConfiguration (o_InstallNamespace opts) (TrimSuffix_dash (wh_GenerateName wh)) ∅
                                            [admission_webhook opts wh None])).
Proof.
  intros Hl. unfold validating_object. rewrite go_bind_ok. cbn [CreateValidatingWebhookConfigurationResource ApplyTo go_bind WithValidatingWebhooks].
  intros (obj & [= <-] & [= H]). by eapply inject_annotated.
Qed.

Lemma mutating_object_ok wh o :
  provider_lawful opts -> mutating_object opts wh = ok o ->
  exists f, o = annotated f (OMutating (mkWebhookConfiguration (o_InstallNamespace opts) (TrimSuffix_dash (wh_GenerateName wh)) ∅
                                            [admission_webhook opts wh (wh_ReinvocationPolicy wh)])).
Proof.
  intros Hl. unfold mutating_object. rewrite go_bind_ok. cbn [CreateMutatingWebhookConfigurationResource ApplyTo go_bind WithMutatingWebhooks].
  intros (obj & [= <-] & [= H]). by eapply inject_annotated.
Qed.

Lemma crd_object_ok m crd o :
  provider_lawful opts -> crd_object opts m crd = ok o ->
  (m !! crd_Name crd = None /\ o = OCRD crd) \/
  exists cw f, m !! crd_Name crd = Some cw /\ crd_PreserveUnknownFields crd = false /\
    o = annotated f (OCRD (mkCRD (crd_Name crd) (crd_Annotations crd) false (Some (ByWebhook (crd_conversion opts cw))) (crd_Rest crd))).
Proof.
  intros Hl. unfold crd_object. destruct (m !! crd_Name crd) as [cw|]; [|intros [= <-]; by left].
  destruct (crd_PreserveUnknownFields crd); [done|]. intros [= H]. apply inject_annotated in H as [f ->]; [|done]. right. by exists cw, f.
Qed.
End Objects.

(** ** The map of conversions *)

Lemma crd_map_names_ok wh names : forall m m',
  crd_map_names wh names m = inr m' ->
  NoDup names /\ (forall n, n ∈ names -> m !! n = None) /\
  forall n, m' !! n = if bool_decide (n ∈ names) then Some wh else m !! n.
Proof.
  induction names as [|n names IH]; intros m m'; cbn [crd_map_names].
  - intros [= <-]. split; [constructor|]. split; [by intros ? ?%not_elem_of_nil|done].
  - destruct (m !! n) eqn:En; [done|]. intros (Hnd & Hfree & Hl)%IH. split; [constructor; [|done]|split].
    + intros Hin. specialize (Hfree n Hin). by rewrite lookup_insert_eq in Hfree.
    + intros n' [->|Hin]%elem_of_cons; [done|]. specialize (Hfree n' Hin).
      by apply lookup_insert_None in Hfree as [? _].
    + intros n'. rewrite Hl. destruct (decide (n = n')) as [<-|Hne].
      * rewrite lookup_insert_eq, (bool_decide_true (n ∈ n :: names)) by by left. by case_bool_decide.
      * rewrite lookup_insert_ne by done. rewrite (bool_decide_ext (n' ∈ n :: names) (n' ∈ names)); [done|set_solver].
Qed.

Lemma crd_map_names_total wh names : forall m,
  NoDup names -> (forall n, n ∈ names -> m !! n = None) -> exists m', crd_map_names wh names m = inr m'.
Proof.
  induction names as [|n names IH]; intros m Hnd Hfree; cbn [crd_map_names]; [by eexists|].
  apply NoDup_cons in Hnd as [Hn Hnd]. rewrite (Hfree n) by by left. apply IH; [done|].
  intros n' Hin. rewrite lookup_insert_ne by (by intros ->). apply Hfree. by right.
Qed.

Lemma converted_cons wh whs :
  converted_crds (wh :: whs) = (if is_conversion wh then wh_ConversionCRDs wh else []) ++ converted_crds whs.
Proof. unfold converted_crds. cbn. by destruct (is_conversion wh). Qed.

Lemma crd_map_step whs wh m m' :
  crdToDeploymentMap (wh :: whs) m = inr m' ->
  exists m1, crdToDeploymentMap whs m1 = inr m' /\
    forall n, m1 !! n = if is_conversion wh && bool_decide (n ∈ wh_ConversionCRDs wh) then Some wh else m !! n.
Proof.
  cbn [crdToDeploymentMap]. fold (is_conversion wh). destruct (is_conversion wh); [|by exists m].
  destruct (crd_map_names wh (wh_ConversionCRDs wh) m) as [|m1] eqn:E1; [done|]. exists m1. split; [done|].
  by apply crd_map_names_ok in E1 as (_ & _ & Hl).
Qed.

Definition converts (wh : WebhookDescription) (crd : string) : Prop := is_conversion wh = true /\ crd ∈ wh_ConversionCRDs wh.

Lemma crd_map_sound whs : forall m m' n cw,
  crdToDeploymentMap whs m = inr m' -> m' !! n = Some cw -> m !! n = Some cw \/ (cw ∈ whs /\ converts cw n).
Proof.
  induction whs as [|wh whs IH]; intros m m' n cw; [intros [= <-]; by left|].
  intros (m1 & H & Hl)%crd_map_step Hn. destruct (IH _ _ _ _ H Hn) as [H1|[Hin Hc]]; [|right; split; [by right|done]].
  rewrite Hl in H1. destruct (is_conversion wh) eqn:Ec; cbn in H1; [|by left]. case_bool_decide as Hin; [|by left].
  injection H1 as <-. right. split; [by left|done].
Qed.

Lemma crd_map_complete whs : forall m m' n,
  crdToDeploymentMap whs m = inr m' -> is_Some (m !! n) \/ (exists wh, wh ∈ whs /\ converts wh n) -> is_Some (m' !! n).
Proof.
  induction whs as [|wh whs IH]; intros m m' n.
  { intros [= <-] [H|(wh & H & _)]; [done|]. by apply not_elem_of_nil in H. }
  intros (m1 & H & Hl)%crd_map_step Hn. apply (IH _ _ _ H). rewrite Hl.
  destruct (is_conversion wh) eqn:Ec; cbn.
  - case_bool_decide as Hin; [left; by eexists|]. destruct Hn as [?|(wh' & [->|Hw]%elem_of_cons & Hc)]; [by left|by destruct Hc|].
    right. by exists wh'.
  - destruct Hn as [?|(wh' & [->|Hw]%elem_of_cons & Hc)]; [by left|destruct Hc; congruence|]. right. by exists wh'.
Qed.

Lemma crd_map_total whs : forall m,
  NoDup (converted_crds whs) -> (forall n, n ∈ converted_crds whs -> m !! n = None) -> exists m', crdToDeploymentMap whs m = inr m'.
Proof.
  induction whs as [|wh whs IH]; intros m; [by eexists|]. cbn [crdToDeploymentMap]. fold (is_conversion wh). rewrite converted_cons.
  destruct (is_conversion wh); cbn [app]; [|apply IH]. intros (Hnd & Hdis & Hnd')%NoDup_app Hfree.
  destruct (crd_map_names_total wh (wh_ConversionCRDs wh) m) as [m1 E1]; [done| |].
  - intros n Hn. apply Hfree, elem_of_app. by left.
  - rewrite E1. apply IH; [done|]. intros n Hn. apply crd_map_names_ok in E1 as (_ & _ & Hl). rewrite Hl.
    rewrite bool_decide_false by (intros ?; by eapply Hdis). apply Hfree, elem_of_app. by right.
Qed.

(** The definitions that need a conversion are those in the map. *)
Lemma crd_map_converted whs m' n :
  crdToDeploymentMap whs ∅ = inr m' -> is_Some (m' !! n) <-> n ∈ converted_crds whs.
Proof.
  intros H. rewrite elem_converted. split.
  - intros [cw Hcw]. destruct (crd_map_sound _ _ _ _ _ H Hcw) as [?|[Hin [Hc Hn]]]; [by rewrite lookup_empty in *|]. by exists cw.
  - intros (wh & Hwh & Hc & Hn). apply (crd_map_complete _ _ _ _ H). right. by exists wh.
Qed.

(** ** Ports *)

Lemma ports_by_deployment whs : forall (m : gmap string (gset ServicePort)) d p,
  p ∈ default ∅ (foldl (fun m wh =>
       <[wh_DeploymentName wh := {[getWebhookServicePort wh]} ∪ default ∅ (m !! wh_DeploymentName wh)]> m) m whs !! d) <->
  p ∈ default ∅ (m !! d) \/ exists wh, wh ∈ whs /\ wh_DeploymentName wh = d /\ p = getWebhookServicePort wh.
Proof.
  induction whs as [|wh whs IH]; intros m d p; cbn; [set_solver|]. rewrite IH.
  destruct (decide (wh_DeploymentName wh = d)) as [<-|Hd].
  - rewrite lookup_insert_eq. cbn. set_solver.
  - rewrite lookup_insert_ne by done. set_solver.
Qed.

Lemma webhook_port_listed whs wh :
  wh ∈ whs -> exists ports, webhookServicePortsByDeployment whs !! wh_DeploymentName wh = Some ports /\ getWebhookServicePort wh ∈ ports.
Proof.
  intros Hwh. pose proof (proj2 (ports_by_deployment whs ∅ (wh_DeploymentName wh) (getWebhookServicePort wh))
    (or_intror (ex_intro _ wh (conj Hwh (conj eq_refl eq_refl))))) as H.
  fold (webhookServicePortsByDeployment whs) in H. destruct (_ !! wh_DeploymentName wh) as [ports|]; [by exists ports|].
  by apply elem_of_empty in H.
Qed.

Section Service.
Context (IntValue : IntOrString -> Z) (UnsortedPorts : gset ServicePort -> list ServicePort).
Hypothesis ports_listed : forall s, UnsortedPorts s ≡ₚ elements s.

Lemma service_objects_ok opts m d os ports :
  provider_lawful opts -> m !! dep_Name d = Some ports -> service_objects IntValue UnsortedPorts opts m d = ok os ->
  exists s, os = [OService s] /\ sv_Name s = service_name (dep_Name d) /\ sv_Namespace s = o_InstallNamespace opts /\
    sv_Selector s = ds_Selector (dep_Spec d) /\ forall p, p ∈ sv_Ports s <-> p ∈ ports.
Proof.
  intros Hl Hm. unfold service_objects. rewrite Hm, go_bind_ok.
  cbn [CreateServiceResource ApplyTo go_bind WithServiceSpec]. intros (obj & [= <-] & H).
  apply ge_bind_ok in H as (obj & [= Ho] & [= <-]). apply inject_annotated in Ho as [f ->]; [|done].
  eexists. split; [reflexivity|]. split; [done|]. split; [done|]. split; [done|]. intros p. cbn.
  by rewrite elem_of_sort_by, ports_listed, elem_of_elements.
Qed.
End Service.
