(* ===== verification/Render.v ===== *)
(** * Rendering a bundle

    src/internal/operator-controller/rukpak/render/render.go: the options, the
    target namespaces a bundle's install modes admit, and Render, which
    validates and generates; rukpak/render/registryv1/registryv1.go, which
    puts the renderer of registry+v1 bundles together; and the default unique
    names of src/internal/shared/util/hash/hash.go. *)

From Stdlib Require Import Ascii.
From S2P Require Import Prelude GoErrors ApiTypes Phase Rbac Bundle DeployConfig Validate Generate.

(** ** Options *)

(** type Option func(..Options); a nil option is skipped. *)
Definition Option : Type := Options -> Options.

Definition WithTargetNamespaces (namespaces : list string) : Option := fun o =>
  match namespaces with
  | [] => o
  | _ => mkOptions (o_InstallNamespace o) namespaces (o_UniqueNameGenerator o) (o_CertificateProvider o) (o_DeploymentConfig o)
  end.
Definition WithUniqueNameGenerator (generator : option UniqueNameGenerator) : Option := fun o =>
  mkOptions (o_InstallNamespace o) (o_TargetNamespaces o) generator (o_CertificateProvider o) (o_DeploymentConfig o).
Definition WithCertificateProvider (provider : option CertificateProvider) : Option := fun o =>
  mkOptions (o_InstallNamespace o) (o_TargetNamespaces o) (o_UniqueNameGenerator o) provider (o_DeploymentConfig o).
Definition WithDeploymentConfig (deploymentConfig : option DeploymentConfig) : Option := fun o =>
  mkOptions (o_InstallNamespace o) (o_TargetNamespaces o) (o_UniqueNameGenerator o) (o_CertificateProvider o) deploymentConfig.

(** func (o Options) apply(opts...) Options *)
Definition apply_options (o : Options) (opts : list (option Option)) : Options :=
  foldl (fun o (opt : option Option) => match opt with Some f => f o | None => o end) o opts.

(** func validateTargetNamespaces(rv1, installNamespace, targetNamespaces) error *)
Definition modes_text (modes : gset string) : string := fmt_v_strings (sorted_elements modes).

Definition validateTargetNamespaces (rv1 : RegistryV1) (installNamespace : string) (targetNamespaces : list string) : option error :=
  let modes := supportedBundleInstallModes rv1 in
  let set : gset string := list_to_set targetNamespaces in
  let unsupported := Some (ENew ("supported install modes " +:+ modes_text modes +:+ " do not support target namespaces " +:+
                                 fmt_v_strings targetNamespaces)) in
  let no_own := Some (ENew ("supported install modes " +:+ modes_text modes +:+ " do not support targeting own namespace")) in
  let has m := bool_decide (m ∈ modes) in
  match targetNamespaces with
  | [] =>
      if has InstallModeTypeMultiNamespace then Some (ENew "at least one target namespace must be specified")
      else Some (ENew "exactly one target namespace must be specified")
  | first :: _ =>
      if bool_decide (size set = 1%nat) && bool_decide ("" ∈ set) then
        if has InstallModeTypeAllNamespaces then None
        else Some (ENew ("supported install modes " +:+ modes_text modes +:+ " do not support targeting all namespaces"))
      else if bool_decide (size set = 1%nat) then
        if bool_decide (first = installNamespace) then
          if negb (has InstallModeTypeOwnNamespace) then no_own else None
        else if has InstallModeTypeSingleNamespace then None
        else unsupported
      else
        if negb (has InstallModeTypeOwnNamespace) && bool_decide (installNamespace ∈ set) then no_own
        else if has InstallModeTypeMultiNamespace && negb (bool_decide ("" ∈ set)) then None
        else unsupported
  end.

(** func defaultTargetNamespacesForBundle(rv1) []string *)
Definition defaultTargetNamespacesForBundle (rv1 : RegistryV1) : list string :=
  if bool_decide (InstallModeTypeAllNamespaces ∈ supportedBundleInstallModes rv1) then [""] else [].

(** func (o Options) validate(rv1) (_, []error) *)
Definition validate_options (o : Options) (rv1 : RegistryV1) : list error :=
  (match o_UniqueNameGenerator o with None => [ENew "unique name generator must be specified"] | Some _ => [] end) ++
  (match validateTargetNamespaces rv1 (o_InstallNamespace o) (o_TargetNamespaces o) with
   | Some err => [EWrap ("invalid target namespaces " +:+ fmt_v_strings (o_TargetNamespaces o) +:+ ": ") err ""]
   | None => []
   end).

(** type BundleRenderer struct *)
Record BundleRenderer := mkRenderer { br_BundleValidator : list Check; br_ResourceGenerators : list ResourceGenerator }.

(** ** Unique names *)

(** A digit of big.Int's Text(36), and the text of a number: as many digits as
    the number has bits are enough. *)
Definition digit36 (d : N) : ascii := ascii_of_N (if (d <? 10)%N then 48 + d else 87 + d).

Fixpoint digits36 (fuel : nat) (n : N) (acc : string) : string :=
  match fuel with
  | O => acc
  | S fuel => if (n =? 0)%N then acc else digits36 fuel (n / 36)%N (String (digit36 (n mod 36)%N) acc)
  end.

Definition Text36 (n : N) : string := if (n =? 0)%N then "0" else digits36 (N.size_nat n) n "".

Section Render.
(** encoding/json's encoding of a permission, and SHA-224, as the number its
    bytes are. *)
Context (json_Encode : StrategyPermission -> result (list Byte.byte)) (sha224 : list Byte.byte -> N).

(** func DeepHashObject(obj) string *)
Definition DeepHashObject (obj : StrategyPermission) : go string :=
  match json_Encode obj with
  | inl err => Panic ("couldn't encode object: " +:+ Error err)
  | inr bytes => Ret (Text36 (sha224 bytes))
  end.

(** func DefaultUniqueNameGenerator(base, o) string *)
Definition DefaultUniqueNameGenerator : UniqueNameGenerator := fun base o =>
  do! hashStr := DeepHashObject o in ObjectNameForBaseAndSuffix base hashStr.

(** func (r BundleRenderer) Render(rv1, installNamespace, opts...) ([]client.Object, error) *)
Definition render_options (rv1 : RegistryV1) (installNamespace : string) (opts : list (option Option)) : Options :=
  apply_options (mkOptions installNamespace (defaultTargetNamespacesForBundle rv1) (Some DefaultUniqueNameGenerator) None None) opts.

Definition Render (r : BundleRenderer) (rv1 : RegistryV1) (installNamespace : string) (opts : list (option Option))
    : GE (list client_object) :=
  let '(err, rv1) := Validate (br_BundleValidator r) rv1 in
  match err with
  | Some err => fail err
  | None =>
      let genOpts := render_options rv1 installNamespace opts in
      match validate_options genOpts rv1 with
      | [] => GenerateResources (br_ResourceGenerators r) (Some rv1) genOpts
      | errs => fail (EWrap "invalid option(s): " (EJoin errs) "")
      end
  end.
End Render.

(** var Renderer (registryv1.go) *)
Definition registryv1_Renderer `{!UnstructuredAPI} (IsDNS1123Subdomain : string -> list string) (IsSupported : string -> bool * bool)
    (u_SetNamespace : string -> Unstructured -> Unstructured) (IntValue : IntOrString -> Z)
    (UnsortedList : gset string -> list string) (UnsortedPorts : gset ServicePort -> list ServicePort) : BundleRenderer :=
  mkRenderer (BundleValidator IsDNS1123Subdomain IsSupported)
    (bundle_generators IsSupported u_SetNamespace IntValue UnsortedList UnsortedPorts).
