(* ===== verification/NameProps.v ===== *)
(** * Generated names

    The names the rendering makes (Bundle.v, Render.v): how long they get, and
    that the default unique names tell permissions apart. *)

From Stdlib Require Import Ascii.
From S2P Require Import Prelude GoErrors ApiTypes Phase Rbac Bundle DeployConfig Validate Generate Render.

(** ** Names of a base and a suffix *)

Lemma object_name_returns base suffix :
  slen suffix <= 62 -> ObjectNameForBaseAndSuffix base suffix = Ret (object_name base suffix).
Proof.
  intros H. unfold ObjectNameForBaseAndSuffix, object_name, maxNameLength. case_match; [|done].
  destruct (Z.ltb_spec (63 - slen suffix - 1) 0); [lia|done].
Qed.

Lemma object_name_length base suffix :
  slen suffix <= 62 ->
  slen (object_name base suffix) =
    if slen base + slen suffix <=? 63 then slen base + slen suffix + 1 else 63.
Proof.
  intros H. pose proof (slen_nonneg base). pose proof (slen_nonneg suffix). unfold object_name, maxNameLength.
  destruct (Z.ltb_spec 63 (slen base + slen suffix)), (Z.leb_spec (slen base + slen suffix) 63); try lia;
    rewrite !slen_app; change (slen "-") with 1; [|lia]. rewrite str_takeZ_length by lia. lia.
Qed.

(** A generated name may be one byte too long: names are cut to 63 bytes, the
    most a service's name may have, except when base and suffix together have
    63 bytes, since the test forgets the dash between them; no other name is
    longer, and for suffixes of at most 62 bytes none makes the code panic. *)
Theorem object_name_bounds base suffix (Hs : slen suffix <= 62) :
  exists n, ObjectNameForBaseAndSuffix base suffix = Ret n /\ slen n <= 64 /\
    (slen n = 64 <-> slen base + slen suffix = 63).
Proof.
  exists (object_name base suffix). split; [by apply object_name_returns|]. rewrite object_name_length by done.
  destruct (Z.leb_spec (slen base + slen suffix) 63); lia.
Qed.

Lemma object_name_bounds_witness :
  slen "service" <= 62 /\
  exists n, ObjectNameForBaseAndSuffix "a-deployment-whose-name-takes-exactly-fifty-six-bytes-abc" "service" = Ret n /\ slen n <= 64 /\
    (slen n = 64 <-> slen "a-deployment-whose-name-takes-exactly-fifty-six-bytes-abc" + slen "service" = 63).
Proof. split; [by vm_compute|]. apply (object_name_bounds _ "service"). by vm_compute. Defined.

(** ** The hash's text *)

Definition value36 (c : ascii) : N := let n := N_of_ascii c in if (n <? 58)%N then n - 48 else n - 87.

(** Reading a number in base 36. *)
Fixpoint parse36 (a : N) (s : string) : N :=
  match s with
  | EmptyString => a
  | String c s' => parse36 (36 * a + value36 c)%N s'
  end.

Lemma digit36_value d : (d < 36)%N -> value36 (digit36 d) = d /\ digit36 d <> "-"%char.
Proof.
  intros H. unfold value36, digit36. destruct (N.ltb_spec d 10).
  - rewrite N_ascii_embedding by lia. split; [|intros E; apply (f_equal N_of_ascii) in E; rewrite N_ascii_embedding in E by lia; cbn in E; lia].
    destruct (N.ltb_spec (48 + d) 58); lia.
  - rewrite N_ascii_embedding by lia. split; [|intros E; apply (f_equal N_of_ascii) in E; rewrite N_ascii_embedding in E by lia; cbn in E; lia].
    destruct (N.ltb_spec (87 + d) 58); lia.
Qed.

Lemma digit_of n : (n mod 36 < 36)%N /\ (n = 36 * (n / 36) + n mod 36)%N.
Proof. split; [by apply N.mod_lt|apply N.div_mod'; done]. Qed.

Lemma parse_digits fuel : forall n acc, (n < 2 ^ N.of_nat fuel)%N -> parse36 0 (digits36 fuel n acc) = parse36 n acc.
Proof.
  induction fuel as [|fuel IH]; intros n acc H; [assert (n = 0%N) as -> by (cbn in H; lia); done|]. cbn [digits36].
  destruct (N.eqb_spec n 0); [by subst|]. destruct (digit_of n) as [Hd Hn]. rewrite IH.
  - cbn [parse36]. destruct (digit36_value _ Hd) as [-> _]. by rewrite <- Hn.
  - rewrite Nat2N.inj_succ, N.pow_succ_r' in H. apply N.Div0.div_lt_upper_bound. lia.
Qed.

Lemma size_bound n : (n < 2 ^ N.of_nat (N.size_nat n))%N.
Proof.
  destruct n as [|p]; [done|]. cbn [N.size_nat]. induction p as [p IH|p IH|]; cbn [Pos.size_nat]; [| |done];
    rewrite Nat2N.inj_succ, N.pow_succ_r'; lia.
Qed.

Lemma digits_length k : forall fuel n acc, (n < 36 ^ N.of_nat k)%N -> slen (digits36 fuel n acc) <= Z.of_nat k + slen acc.
Proof.
  induction k as [|k IH]; intros fuel n acc H.
  - assert (n = 0%N) as -> by (cbn in H; lia). destruct fuel; cbn [digits36 N.eqb]; lia.
  - destruct fuel as [|fuel]; cbn [digits36]; [lia|]. destruct (N.eqb_spec n 0); [lia|].
    etrans; [apply IH|].
    + rewrite Nat2N.inj_succ, N.pow_succ_r' in H. apply N.Div0.div_lt_upper_bound. lia.
    + unfold slen. cbn [String.length]. lia.
Qed.

Lemma digits_no_dash fuel : forall n acc, str_has "-" acc = false -> str_has "-" (digits36 fuel n acc) = false.
Proof.
  induction fuel as [|fuel IH]; intros n acc H; cbn [digits36]; [done|]. destruct (n =? 0)%N; [done|]. apply IH. cbn.
  destruct (digit36_value (n mod 36)) as [_ Hd]; [apply digit_of|]. by rewrite bool_decide_false.
Qed.

Lemma parse_Text36 n : parse36 0 (Text36 n) = n.
Proof.
  unfold Text36. destruct (N.eqb_spec n 0); [by subst|]. rewrite parse_digits by apply size_bound. done.
Qed.

Lemma Text36_length n : (n < 2 ^ 224)%N -> slen (Text36 n) <= 44.
Proof.
  intros H. unfold Text36. destruct (N.eqb_spec n 0); [by vm_compute|]. apply (digits_length 44).
  eapply N.lt_trans; [exact H|]. by vm_compute.
Qed.

Lemma Text36_no_dash n : str_has "-" (Text36 n) = false.
Proof. unfold Text36. destruct (n =? 0)%N; [done|]. by apply digits_no_dash. Qed.

(** The text of a hash is the hash: the base-36 text that goes into a name
    reads back as the number it was made from, has at most 44 digits for a
    224-bit hash, and no dash among them. *)
Theorem hash_text_roundtrip n :
  parse36 0 (Text36 n) = n /\ ((n < 2 ^ 224)%N -> slen (Text36 n) <= 44) /\ str_has "-" (Text36 n) = false.
Proof. split; [apply parse_Text36|]. split; [apply Text36_length|apply Text36_no_dash]. Qed.

(** ** Unique names *)

Lemma has_app_dash c a b : str_has c (a +:+ b) = str_has c a || str_has c b.
Proof. induction a as [|d a IH]; [done|]. change (String d a +:+ b) with (String d (a +:+ b)). cbn. by rewrite IH, orb_assoc. Qed.

(** What follows the last dash. *)
Lemma last_dash_unique a : forall b s t,
  str_has "-" s = false -> str_has "-" t = false -> a +:+ "-" +:+ s = b +:+ "-" +:+ t -> s = t.
Proof.
  induction a as [|c a IH]; intros b s t Hs Ht H.
  - change ("" +:+ "-" +:+ s) with (String "-" s) in H. destruct b as [|d b].
    { change ("" +:+ "-" +:+ t) with (String "-" t) in H. by injection H. }
    change (String d b +:+ "-" +:+ t) with (String d (b +:+ "-" +:+ t)) in H.
    injection H as _ ->. rewrite has_app_dash in Hs. change ("-" +:+ t) with (String "-" t) in Hs. cbn in Hs.
    by rewrite orb_true_r in Hs.
  - change (String c a +:+ "-" +:+ s) with (String c (a +:+ "-" +:+ s)) in H. destruct b as [|d b].
    + change ("" +:+ "-" +:+ t) with (String "-" t) in H. injection H as _ <-. rewrite has_app_dash in Ht. change ("-" +:+ s) with (String "-" s) in Ht. cbn in Ht.
      by rewrite orb_true_r in Ht.
    + change (String d b +:+ "-" +:+ t) with (String d (b +:+ "-" +:+ t)) in H. injection H as _ H. by apply (IH b).
Qed.

Lemma object_name_shape base suffix : exists b, object_name base suffix = b +:+ "-" +:+ suffix.
Proof. unfold object_name. case_match; by eexists. Qed.

Section Unique.
Context (json_Encode : StrategyPermission -> result (list Byte.byte)) (sha224 : list Byte.byte -> N).

(** Permissions have an encoding, and SHA-224 has 224 bits. *)
Context (encoding : StrategyPermission -> list Byte.byte).
Hypothesis encodes : forall p, json_Encode p = inr (encoding p).
Hypothesis sha_bits : forall bs, (sha224 bs < 2 ^ 224)%N.

Lemma default_name base p :
  DefaultUniqueNameGenerator json_Encode sha224 base p = Ret (object_name base (Text36 (sha224 (encoding p)))).
Proof.
  unfold DefaultUniqueNameGenerator, DeepHashObject. rewrite encodes. cbn [go_bind]. apply object_name_returns.
  pose proof (Text36_length _ (sha_bits (encoding p))). lia.
Qed.

(** Default names are unique as far as hashes are: the name of a permission
    is made without panic, has at most 64 bytes, and two permissions whose
    encodings have different hashes have different names, whatever the bases
    they are made from and wherever these were cut. *)
Theorem default_names_unique base p base' p' :
  sha224 (encoding p) <> sha224 (encoding p') ->
  exists n n', DefaultUniqueNameGenerator json_Encode sha224 base p = Ret n /\
    DefaultUniqueNameGenerator json_Encode sha224 base' p' = Ret n' /\ slen n <= 64 /\ n <> n'.
Proof.
  intros Hne. rewrite !default_name. do 2 eexists. split; [done|]. split; [done|]. split.
  - rewrite object_name_length by (pose proof (Text36_length _ (sha_bits (encoding p))); lia).
    destruct (Z.leb_spec (slen base + slen (Text36 (sha224 (encoding p)))) 63); lia.
  - intros H. apply Hne. destruct (object_name_shape base (Text36 (sha224 (encoding p)))) as [b Hb].
    destruct (object_name_shape base' (Text36 (sha224 (encoding p')))) as [b' Hb']. rewrite Hb, Hb' in H.
    apply last_dash_unique in H; [|apply Text36_no_dash..]. by rewrite <- (parse_Text36 (sha224 (encoding p))), H, parse_Text36.
Qed.
End Unique.

Lemma default_names_unique_witness :
  let enc (p : StrategyPermission) := [Byte.x7b] ++ String.list_byte_of_string (sdp_ServiceAccountName p) in
  let sha (bs : list Byte.byte) := (fold_right (fun b a => 256 * a + Byte.to_N b) 0 bs mod 2 ^ 224)%N in
  exists n n', DefaultUniqueNameGenerator (fun p => inr (enc p)) sha "csv-a" (mkPermission "a" []) = Ret n /\
    DefaultUniqueNameGenerator (fun p => inr (enc p)) sha "csv-b" (mkPermission "b" []) = Ret n' /\ slen n <= 64 /\ n <> n'.
Proof.
  intros enc sha. apply (default_names_unique (fun p => inr (enc p)) sha enc); [done| |by vm_compute].
  intros bs. by apply N.mod_lt.
Defined.
