(* ===== verification/RenderProps.v ===== *)
(** * Rendering is right

    The properties of Render (Render.v) for registry+v1 bundles: when it
    succeeds, that the permissions it grants are the declared ones, and that
    every reference among the objects it makes resolves. *)

From Stdlib Require Import Ascii.
From S2P Require Import Prelude GoErrors ApiTypes Phase Rbac Bundle DeployConfig DeployConfigProps Validate ValidateProps Generate CertProviders GenerateProps Render NameProps.

(** ** What rendered objects mean *)

(** The rules of the role a binding refers to, in a namespace or cluster-wide. *)
Definition role_rules (objs : list client_object) (scope : option string) (ref : RoleRef) (rules : list PolicyRule) : Prop :=
  exists n, (ref = mkRoleRef rbac_group "Role" n /\ exists ns, scope = Some ns /\ ORole ns n rules ∈ objs) \/
            (ref = mkRoleRef rbac_group "ClusterRole" n /\ OClusterRole n rules ∈ objs).

Definition bound (objs : list client_object) (scope : option string) (subjects : list Subject) (ref : RoleRef) : Prop :=
  match scope with
  | Some ns => exists n, ORoleBinding ns n subjects ref ∈ objs
  | None => exists n, OClusterRoleBinding n subjects ref ∈ objs
  end.

(** What the roles and bindings among the objects allow a subject to do in a
    namespace, or in all of them. *)
Definition granted (objs : list client_object) (s : Subject) (scope : option string) (rule : PolicyRule) : Prop :=
  exists subjects ref rules, bound objs scope subjects ref /\ s ∈ subjects /\ role_rules objs scope ref rules /\ rule ∈ rules.

(** Roles and bindings may be among the manifests a bundle ships, which are
    rendered as they are: [as_rbac] says which role or binding an API server
    takes a manifest for. *)
Definition shipped (as_rbac : Unstructured -> option client_object) (objs : list client_object) : list client_object :=
  omap (fun x => match x with OUnstructured u => as_rbac u | _ => None end) objs.

(** What all of them allow, shipped or not. *)
Definition allowed (as_rbac : Unstructured -> option client_object) (objs : list client_object) : Subject -> option string -> PolicyRule -> Prop :=
  granted (objs ++ shipped as_rbac objs).

(** What they allow through a binding, or a role, that was shipped. *)
Definition allowed_by_shipped (as_rbac : Unstructured -> option client_object) (objs : list client_object)
    (s : Subject) (scope : option string) (rule : PolicyRule) : Prop :=
  exists subjects ref rules, bound (objs ++ shipped as_rbac objs) scope subjects ref /\ s ∈ subjects /\
    role_rules (objs ++ shipped as_rbac objs) scope ref rules /\ rule ∈ rules /\
    (bound (shipped as_rbac objs) scope subjects ref \/ role_rules (shipped as_rbac objs) scope ref rules).

Lemma bound_app l l' scope subjects ref : bound (l ++ l') scope subjects ref <-> bound l scope subjects ref \/ bound l' scope subjects ref.
Proof. destruct scope; cbn; setoid_rewrite elem_of_app; naive_solver. Qed.

Lemma role_rules_app l l' scope ref rules :
  role_rules (l ++ l') scope ref rules <-> role_rules l scope ref rules \/ role_rules l' scope ref rules.
Proof. unfold role_rules. setoid_rewrite elem_of_app. naive_solver. Qed.

Lemma allowed_split as_rbac objs s scope rule :
  allowed as_rbac objs s scope rule <-> granted objs s scope rule \/ allowed_by_shipped as_rbac objs s scope rule.
Proof.
  unfold allowed, allowed_by_shipped, granted. setoid_rewrite bound_app. setoid_rewrite role_rules_app. naive_solver.
Qed.

(** What the bundle asks for: its permissions in the target namespaces, or
    everywhere if all namespaces are targeted, when the right to read
    namespaces comes with them; its cluster permissions everywhere. *)
Definition declared (rv1 : RegistryV1) (o : Options) (s : Subject) (scope : option string) (rule : PolicyRule) : Prop :=
  exists p, s = sa_subject o (saNameOrDefault (sdp_ServiceAccountName p)) /\
    match scope with
    | Some ns => targets_all o = false /\ ns ∈ o_TargetNamespaces o /\ p ∈ csv_Permissions (rv_CSV rv1) /\ rule ∈ sdp_Rules p
    | None => (p ∈ csv_ClusterPermissions (rv_CSV rv1) /\ rule ∈ sdp_Rules p) \/
              (targets_all o = true /\ p ∈ csv_Permissions (rv_CSV rv1) /\ (rule ∈ sdp_Rules p \/ rule = namespaces_rule))
    end.

(** Distinct permissions of a list get distinct names. *)
Definition named_apart (rv1 : RegistryV1) (o : Options) (ps : list StrategyPermission) : Prop :=
  forall p p' n, p ∈ ps -> p' ∈ ps -> permission_name rv1 o p = Ret n -> permission_name rv1 o p' = Ret n -> p = p'.

(** The services an object tells the API server to call. *)
Definition client_configs (x : client_object) : list ServiceReference :=
  match x with
  | OValidating c | OMutating c => map aw_Service (wc_Webhooks c)
  | OCRD c => match crd_Conversion c with
              | Some (ByWebhook v) => [mkServiceReference (cv_Namespace v) (cv_Service v) (Some (cv_Path v)) (cv_Port v)]
              | Some (AsShipped (Some ref) _) => [ref]
              | _ => []
              end
  | _ => []
  end.

(** A definition of the bundle for which the bundle has no conversion webhook:
    it keeps the conversion it came with. *)
Definition unconverted (rv1 : RegistryV1) (crd : CustomResourceDefinition) : Prop :=
  crd ∈ rv_CRDs rv1 /\ crd_Name crd ∉ converted_crds (webhooks rv1).

Lemma annotated_configs f x : client_configs (annotated f x) = client_configs x.
Proof. by destruct x. Qed.

(** The deployments among the objects. *)
Definition deployments (objs : list client_object) : list Deployment :=
  omap (fun x => match x with ODeployment d => Some d | _ => None end) objs.

Section Render.
Context {UA : UnstructuredAPI}.
Context (IsDNS1123Subdomain : string -> list string) (IsSupported : string -> bool * bool).
Context (u_SetNamespace : string -> Unstructured -> Unstructured) (IntValue : IntOrString -> Z).
Context (UnsortedList : gset string -> list string) (UnsortedPorts : gset ServicePort -> list ServicePort).
Context (json_Encode : StrategyPermission -> result (list Byte.byte)) (sha224 : list Byte.byte -> N).

(** Listing a set gives its elements, in some order. *)
Hypothesis names_listed : forall s, UnsortedList s ≡ₚ elements s.
Hypothesis ports_listed : forall s, UnsortedPorts s ≡ₚ elements s.

Notation renderer := (registryv1_Renderer IsDNS1123Subdomain IsSupported u_SetNamespace IntValue UnsortedList UnsortedPorts).
Notation generators := (bundle_generators IsSupported u_SetNamespace IntValue UnsortedList UnsortedPorts).
Notation render := (Render json_Encode sha224 renderer).
Notation wf := (well_formed_bundle IsDNS1123Subdomain IsSupported).
Notation options rv1 ns opts := (render_options json_Encode sha224 (validated_bundle rv1) ns opts).

(** ** From the objects to the generators *)

Definition tags : list nat := [0; 1; 2; 3; 4; 5; 6; 7; 8; 4]%nat.

Lemma generator_tags rv1 o k g os x t :
  provider_lawful o -> generators !! k = Some g -> tags !! k = Some t -> g (Some rv1) o = ok os -> x ∈ os -> tag x = t.
Proof.
  intros Hl Hg Ht Hos Hx. do 10 try destruct k as [|k]; [..|done]; injection Hg as <-; injection Ht as <-.
  - apply (ge_map_elem _ _ _ _ Hos) in Hx as (n & _ & [= <-]). done.
  - apply (permission_objects_elem _ _ _ _ Hos) in Hx as (_ & ns & p & n & _ & _ & _ & Hx).
    unfold role_objects_of in Hx. rewrite !elem_of_cons in Hx. destruct Hx as [->|[->|Hx]]; [done..|by apply not_elem_of_nil in Hx].
  - apply (cluster_permission_objects_elem _ _ _ _ Hos) in Hx as (p & n & _ & _ & Hx).
    unfold cluster_role_objects_of in Hx. rewrite !elem_of_cons in Hx. destruct Hx as [->|[->|Hx]]; [done..|by apply not_elem_of_nil in Hx].
  - unfold BundleCRDGenerator, with_bundle in Hos. apply ge_bind_ok in Hos as (m & _ & Hos). apply (ge_map_elem _ _ _ _ Hos) in Hx as (crd & _ & Hx).
    apply crd_object_ok in Hx as [[_ ->]|(cw & f & _ & _ & ->)]; [done..|done].
  - apply (ge_map_elem _ _ _ _ Hos) in Hx as (u & _ & Hx). unfold additional_object in Hx.
    destruct (IsSupported _) as [[] ?]; [|done]. by injection Hx as <-.
  - apply (ge_map_elem _ _ _ _ Hos) in Hx as (d & _ & Hx). apply go_bind_ok in Hx as (d' & _ & [= <-]). done.
  - apply (ge_map_elem _ _ _ _ Hos) in Hx as (wh & _ & Hx). apply validating_object_ok in Hx as [f ->]; done.
  - apply (ge_map_elem _ _ _ _ Hos) in Hx as (wh & _ & Hx). apply mutating_object_ok in Hx as [f ->]; done.
  - apply (ge_concat_elem _ _ _ _ Hos) in Hx as (d & zs & _ & Hz & Hx). unfold service_objects in Hz.
    destruct (_ !! dep_Name d) as [ports|]; [|injection Hz as <-; by apply not_elem_of_nil in Hx].
    apply go_bind_ok in Hz as (obj & [= <-] & Hz). apply ge_bind_ok in Hz as (obj & [= Ho] & [= <-]).
    apply inject_annotated in Ho as [f ->]; [|done]. by apply list_elem_of_singleton in Hx as ->.
  - apply (ge_concat_elem _ _ _ _ Hos) in Hx as (n & zs & _ & Hz & Hx). apply ge_bind_ok in Hz as (us & _ & [= <-]).
    apply list_elem_of_fmap in Hx as (u & -> & _). done.
Qed.

Section Rendered.
Context (rv1 : RegistryV1) (o : Options) (objs : list client_object).
Hypothesis rendered : GenerateResources generators (Some rv1) o = ok objs.
Hypothesis lawful : provider_lawful o.

Lemma generator_made k g x os : generators !! k = Some g -> g (Some rv1) o = ok os -> x ∈ os -> x ∈ objs.
Proof.
  intros Hg Hos Hx. apply (ge_concat_elem _ _ _ _ rendered). exists g, os. split; [by eapply list_elem_of_lookup_2|done].
Qed.

Lemma generator_returned k g : generators !! k = Some g -> exists os, g (Some rv1) o = ok os.
Proof. intros Hg. apply (ge_concat_each _ _ _ _ rendered). by eapply list_elem_of_lookup_2. Qed.

(** An object comes from the generator of its kind. *)
Lemma made_by x : x ∈ objs -> tag x <> 4%nat -> exists g os, generators !! tag x = Some g /\ g (Some rv1) o = ok os /\ x ∈ os.
Proof.
  intros Hx Ht. apply (ge_concat_elem _ _ _ _ rendered) in Hx as (g & os & Hg & Hos & Hx).
  apply list_elem_of_lookup in Hg as [k Hk]. exists g, os. split; [|done].
  assert (Hlt : (k < 10)%nat) by (apply lookup_lt_Some in Hk; exact Hk).
  assert (Hk' : exists t, tags !! k = Some t /\ (t = 4%nat \/ t = k))
    by (do 10 try destruct k as [|k]; [eexists; split; [reflexivity|by (left + right)]..|lia]).
  destruct Hk' as (t & Htk & Ht'). rewrite (generator_tags rv1 o k g os x t lawful Hk Htk Hos Hx) in Ht |- *.
  by destruct Ht' as [->| ->].
Qed.

Lemma rendered_by k g os x :
  generators !! k = Some g -> g (Some rv1) o = ok os -> tag x = k -> k <> 4%nat -> x ∈ objs <-> x ∈ os.
Proof.
  intros Hg Hos <- Ht. split; [|by eapply generator_made]. intros Hx. destruct (made_by x Hx Ht) as (g' & os' & Hg' & Hos' & Hx').
  rewrite Hg in Hg'. injection Hg' as <-. rewrite Hos in Hos'. by injection Hos' as <-.
Qed.

Lemma role_rendered x :
  tag x = 1%nat ->
  x ∈ objs <-> targets_all o = false /\ exists ns p n, ns ∈ o_TargetNamespaces o /\ p ∈ csv_Permissions (rv_CSV rv1) /\
                 permission_name rv1 o p = Ret n /\ x ∈ role_objects_of o ns n p.
Proof.
  intros Ht. destruct (generator_returned 1 BundleCSVPermissionsGenerator eq_refl) as [os Hos].
  by rewrite (rendered_by 1 BundleCSVPermissionsGenerator os x), (permission_objects_elem _ _ _ _ Hos).
Qed.

Lemma cluster_role_rendered x :
  tag x = 2%nat ->
  x ∈ objs <-> exists p n, p ∈ cluster_permissions rv1 o /\ permission_name rv1 o p = Ret n /\ x ∈ cluster_role_objects_of o n p.
Proof.
  intros Ht. destruct (generator_returned 2 BundleCSVClusterPermissionsGenerator eq_refl) as [os Hos].
  by rewrite (rendered_by 2 BundleCSVClusterPermissionsGenerator os x), (cluster_permission_objects_elem _ _ _ _ Hos).
Qed.

Lemma service_account_rendered ns n :
  OServiceAccount ns n ∈ objs <-> ns = o_InstallNamespace o /\ n <> "default" /\ n ∈ service_account_names rv1.
Proof.
  destruct (generator_returned 0 (BundleCSVServiceAccountGenerator UnsortedList) eq_refl) as [os Hos].
  rewrite (rendered_by 0 _ os (OServiceAccount ns n) eq_refl Hos) by done. rewrite (ge_map_elem _ _ _ _ Hos).
  setoid_rewrite elem_filter. setoid_rewrite names_listed. setoid_rewrite elem_of_elements. split.
  - intros (n' & (Hn & Hd) & [= <- <-]). split; [done|]. split; [|done]. by apply negb_true_iff, bool_decide_eq_false in Hd.
  - intros (-> & Hd & Hn). exists n. split; [|done]. split; [done|]. by apply negb_true_iff, bool_decide_eq_false.
Qed.

Lemma elem_role_objects ns n p x :
  x ∈ role_objects_of o ns n p <->
  x = ORole ns n (sdp_Rules p) \/
  x = ORoleBinding ns n [sa_subject o (saNameOrDefault (sdp_ServiceAccountName p))] (mkRoleRef rbac_group "Role" n).
Proof. unfold role_objects_of. rewrite !elem_of_cons. pose proof (not_elem_of_nil x). tauto. Qed.

Lemma elem_cluster_role_objects n p x :
  x ∈ cluster_role_objects_of o n p <->
  x = OClusterRole n (sdp_Rules p) \/
  x = OClusterRoleBinding n [sa_subject o (saNameOrDefault (sdp_ServiceAccountName p))] (mkRoleRef rbac_group "ClusterRole" n).
Proof. unfold cluster_role_objects_of. rewrite !elem_of_cons. pose proof (not_elem_of_nil x). tauto. Qed.

Lemma role_in ns n rules :
  ORole ns n rules ∈ objs <->
  targets_all o = false /\ ns ∈ o_TargetNamespaces o /\ exists p, p ∈ csv_Permissions (rv_CSV rv1) /\ permission_name rv1 o p = Ret n /\
    rules = sdp_Rules p.
Proof.
  rewrite role_rendered by done. setoid_rewrite elem_role_objects. split.
  - intros (Ht & ns' & p & n' & Hns & Hp & Hn & [[= -> -> ->]|?]); [|done]. split; [done|]. split; [done|]. by exists p.
  - intros (Ht & Hns & p & Hp & Hn & ->). split; [done|]. exists ns, p, n. repeat (split; [done|]). by left.
Qed.

Lemma role_binding_in ns n subjects ref :
  ORoleBinding ns n subjects ref ∈ objs <->
  targets_all o = false /\ ns ∈ o_TargetNamespaces o /\ exists p, p ∈ csv_Permissions (rv_CSV rv1) /\ permission_name rv1 o p = Ret n /\
    subjects = [sa_subject o (saNameOrDefault (sdp_ServiceAccountName p))] /\ ref = mkRoleRef rbac_group "Role" n.
Proof.
  rewrite role_rendered by done. setoid_rewrite elem_role_objects. split.
  - intros (Ht & ns' & p & n' & Hns & Hp & Hn & [?|[= -> -> -> ->]]); [done|]. split; [done|]. split; [done|]. by exists p.
  - intros (Ht & Hns & p & Hp & Hn & -> & ->). split; [done|]. exists ns, p, n. repeat (split; [done|]). by right.
Qed.

Lemma cluster_role_in n rules :
  OClusterRole n rules ∈ objs <->
  exists p, p ∈ cluster_permissions rv1 o /\ permission_name rv1 o p = Ret n /\ rules = sdp_Rules p.
Proof.
  rewrite cluster_role_rendered by done. setoid_rewrite elem_cluster_role_objects. split.
  - intros (p & n' & Hp & Hn & [[= -> ->]|?]); [by exists p|done].
  - intros (p & Hp & Hn & ->). exists p, n. split; [done|]. split; [done|by left].
Qed.

Lemma cluster_role_binding_in n subjects ref :
  OClusterRoleBinding n subjects ref ∈ objs <->
  exists p, p ∈ cluster_permissions rv1 o /\ permission_name rv1 o p = Ret n /\
    subjects = [sa_subject o (saNameOrDefault (sdp_ServiceAccountName p))] /\ ref = mkRoleRef rbac_group "ClusterRole" n.
Proof.
  rewrite cluster_role_rendered by done. setoid_rewrite elem_cluster_role_objects. split.
  - intros (p & n' & Hp & Hn & [?|[= -> -> ->]]); [done|by exists p].
  - intros (p & Hp & Hn & -> & ->). exists p, n. split; [done|]. split; [done|by right].
Qed.

(** Distinct permissions of one kind have distinct names. *)
Hypothesis unique : named_apart rv1 o (csv_Permissions (rv_CSV rv1)).
Hypothesis cluster_unique : named_apart rv1 o (cluster_permissions rv1 o).

Lemma elem_cluster_permissions p :
  p ∈ cluster_permissions rv1 o <->
  p ∈ csv_ClusterPermissions (rv_CSV rv1) \/ (targets_all o = true /\ exists q, q ∈ csv_Permissions (rv_CSV rv1) /\ p = promoted q).
Proof.
  unfold cluster_permissions. rewrite elem_of_app. destruct (targets_all o).
  - rewrite list_elem_of_fmap. naive_solver.
  - pose proof (not_elem_of_nil p). naive_solver.
Qed.

Lemma permission_objects_named p : 
  (targets_all o = false /\ p ∈ csv_Permissions (rv_CSV rv1) /\ (exists ns, ns ∈ o_TargetNamespaces o)) \/ p ∈ cluster_permissions rv1 o ->
  exists n, permission_name rv1 o p = Ret n.
Proof.
  intros [(Ht & Hp & ns & Hns)|Hp].
  - destruct (generator_returned 1 BundleCSVPermissionsGenerator eq_refl) as [os Hos]. revert Hos.
    unfold BundleCSVPermissionsGenerator, with_bundle. rewrite Ht. intros Hos.
    destruct (ge_concat_each _ _ _ _ Hos Hns) as [zs Hz]. destruct (ge_concat_each _ _ _ _ Hz Hp) as [zs' Hz'].
    apply role_objects_ok in Hz' as (n & Hn & _). by exists n.
  - destruct (generator_returned 2 BundleCSVClusterPermissionsGenerator eq_refl) as [os Hos].
    destruct (ge_concat_each _ _ _ _ Hos Hp) as [zs' Hz']. apply cluster_role_objects_ok in Hz' as (n & Hn & _). by exists n.
Qed.

(** Each binding refers to the role of its own permission. *)
Lemma granted_in_namespace s ns rule :
  granted objs s (Some ns) rule <->
  targets_all o = false /\ ns ∈ o_TargetNamespaces o /\
  exists p, s = sa_subject o (saNameOrDefault (sdp_ServiceAccountName p)) /\ p ∈ csv_Permissions (rv_CSV rv1) /\ rule ∈ sdp_Rules p.
Proof.
  split.
  - intros (subjects & ref & rules & (n & Hb) & Hs & (rn & Hr) & Hrule).
    apply role_binding_in in Hb as (Ht & Hns & p & Hp & Hn & -> & ->). apply list_elem_of_singleton in Hs as ->.
    destruct Hr as [([= <-] & ns' & [= <-] & Hr)|([=] & _)]. apply role_in in Hr as (_ & _ & p' & Hp' & Hn' & ->).
    rewrite (unique p' p n Hp' Hp Hn' Hn) in Hrule. split; [done|]. split; [done|]. by exists p.
  - intros (Ht & Hns & p & -> & Hp & Hrule). destruct (permission_objects_named p) as [n Hn]; [left; split; [done|split; [done|by exists ns]]|].
    exists [sa_subject o (saNameOrDefault (sdp_ServiceAccountName p))], (mkRoleRef rbac_group "Role" n), (sdp_Rules p).
    split; [exists n; apply role_binding_in; split; [done|split; [done|by exists p]]|]. split; [by apply list_elem_of_singleton|].
    split; [|done]. exists n. left. split; [done|]. exists ns. split; [done|]. apply role_in. split; [done|]. split; [done|by exists p].
Qed.

Lemma granted_everywhere s rule :
  granted objs s None rule <->
  exists p, p ∈ cluster_permissions rv1 o /\ s = sa_subject o (saNameOrDefault (sdp_ServiceAccountName p)) /\ rule ∈ sdp_Rules p.
Proof.
  split.
  - intros (subjects & ref & rules & (n & Hb) & Hs & (rn & Hr) & Hrule).
    apply cluster_role_binding_in in Hb as (p & Hp & Hn & -> & ->). apply list_elem_of_singleton in Hs as ->.
    destruct Hr as [([=] & _)|([= <-] & Hr)]. apply cluster_role_in in Hr as (p' & Hp' & Hn' & ->).
    rewrite (cluster_unique p' p n Hp' Hp Hn' Hn) in Hrule. by exists p.
  - intros (p & Hp & -> & Hrule). destruct (permission_objects_named p) as [n Hn]; [by right|].
    exists [sa_subject o (saNameOrDefault (sdp_ServiceAccountName p))], (mkRoleRef rbac_group "ClusterRole" n), (sdp_Rules p).
    split; [exists n; apply cluster_role_binding_in; by exists p|]. split; [by apply list_elem_of_singleton|].
    split; [|done]. exists n. right. split; [done|]. apply cluster_role_in. by exists p.
Qed.

Lemma granted_declared s scope rule : granted objs s scope rule <-> declared rv1 o s scope rule.
Proof.
  unfold declared. destruct scope as [ns|].
  - rewrite granted_in_namespace. naive_solver.
  - rewrite granted_everywhere. setoid_rewrite elem_cluster_permissions. split.
    + intros (p & [Hp|(Ht & q & Hq & ->)] & -> & Hr); [exists p; split; [done|by left]|]. exists q. split; [done|]. right.
      split; [done|]. split; [done|]. apply elem_of_app in Hr as [Hr|Hr]; [by left|]. right. by apply list_elem_of_singleton in Hr.
    + intros (p & -> & [[Hp Hr]|(Ht & Hp & Hr)]); [by exists p; split; [left|]|]. exists (promoted p). split; [right; split; [done|by exists p]|].
      split; [done|]. apply elem_of_app. destruct Hr as [Hr| ->]; [by left|right]. by apply list_elem_of_singleton.
Qed.

(** ** Services *)

(** What an object calls comes from a webhook of the bundle, or is what a
    definition came with. *)
Lemma configs_from_webhooks x ref :
  x ∈ objs -> ref ∈ client_configs x ->
  (exists wh, wh ∈ webhooks rv1 /\ sr_Namespace ref = o_InstallNamespace o /\ sr_Name ref = service_name (wh_DeploymentName wh) /\
     sr_Port ref = wh_ContainerPort wh) \/
  exists crd, unconverted rv1 crd /\ x = OCRD crd.
Proof.
  intros Hx Href. assert (Ht : tag x <> 4%nat) by (by intros Ht; destruct x; try done; by apply not_elem_of_nil in Href).
  destruct (made_by x Hx Ht) as (g & os & Hg & Hos & Hin).
  destruct x as [| | | | |crd| | |c|c|]; try (by apply not_elem_of_nil in Href); injection Hg as <-.
  - unfold BundleCRDGenerator, with_bundle in Hos. apply ge_bind_ok in Hos as (m & Hm & Hos). injection Hm as Hm.
    apply (ge_map_elem _ _ _ _ Hos) in Hin as (crd' & Hcrd & Hin).
    apply crd_object_ok in Hin as [[Hn Heq]|(cw & f & Hcw & _ & Heq)]; [| |done].
    + right. exists crd'. split; [|done]. split; [done|]. rewrite <- (crd_map_converted _ _ _ Hm), Hn. by intros [? ?].
    + left. rewrite Heq, annotated_configs in Href. apply list_elem_of_singleton in Href as ->.
      destruct (crd_map_sound _ _ _ _ _ Hm Hcw) as [?|[Hwh _]]; [by rewrite lookup_empty in *|]. by exists cw.
  - left. apply (ge_map_elem _ _ _ _ Hos) in Hin as (wh & [Hwh _]%elem_filter & Hin).
    apply validating_object_ok in Hin as [f Heq]; [|done]. rewrite Heq, annotated_configs in Href.
    apply list_elem_of_singleton in Href as ->. by exists wh.
  - left. apply (ge_map_elem _ _ _ _ Hos) in Hin as (wh & [Hwh _]%elem_filter & Hin).
    apply mutating_object_ok in Hin as [f Heq]; [|done]. rewrite Heq, annotated_configs in Href.
    apply list_elem_of_singleton in Href as ->. by exists wh.
Qed.

(** A webhook's deployment has its service, with the webhook's port. *)
Lemma webhook_service wh :
  wh ∈ webhooks rv1 -> wh_DeploymentName wh ∈ deployment_names rv1 ->
  exists s, OService s ∈ objs /\ sv_Namespace s = o_InstallNamespace o /\ sv_Name s = service_name (wh_DeploymentName wh) /\
    getWebhookServicePort wh ∈ sv_Ports s.
Proof.
  intros Hwh (d & Hd & Hin)%list_elem_of_fmap.
  destruct (generator_returned 8 (BundleDeploymentServiceResourceGenerator IntValue UnsortedPorts) eq_refl) as [os Hos].
  destruct (ge_concat_each _ _ _ _ Hos Hin) as [zs Hz]. destruct (webhook_port_listed _ _ Hwh) as (ports & Hports & Hport).
  rewrite Hd in Hports. destruct (service_objects_ok _ _ ports_listed _ _ _ _ _ lawful Hports Hz) as (s & -> & Hn & Hns & _ & Hp).
  exists s. split; [|split; [done|split; [by rewrite Hd|by apply Hp]]].
  eapply (generator_made 8); [done|exact Hos|]. apply (ge_concat_elem _ _ _ _ Hos). exists d, [OService s].
  split; [done|]. split; [done|]. by apply list_elem_of_singleton.
Qed.

Lemma service_port_positive wh : 0 < wh_ContainerPort wh -> svp_Port (getWebhookServicePort wh) = wh_ContainerPort wh.
Proof. intros H. unfold getWebhookServicePort. by destruct (Z.ltb_spec 0 (wh_ContainerPort wh)); [|lia]. Qed.

(** ** Deployments *)

Lemma deployments_app l l' : deployments (l ++ l') = deployments l ++ deployments l'.
Proof. apply omap_app. Qed.

Lemma no_deployments l : (forall x, x ∈ l -> tag x <> 5%nat) -> deployments l = [].
Proof.
  induction l as [|x l IH]; intros H; [done|]. unfold deployments. cbn. destruct x; cbn;
    try (apply IH; intros y Hy; apply H; by right). destruct (H (ODeployment d)); [by left|done].
Qed.

Lemma deployment_objects_list os :
  BundleCSVDeploymentGenerator (Some rv1) o = ok os ->
  Forall2 (fun s d => deployment_resource rv1 o s = Ret d) (csv_DeploymentSpecs (rv_CSV rv1)) (deployments os).
Proof.
  unfold BundleCSVDeploymentGenerator, with_bundle. rewrite ge_map_ok. induction 1 as [|s x ss xs Hs Hl IH]; [constructor|].
  apply go_bind_ok in Hs as (d & Hd & [= <-]). by constructor.
Qed.

Lemma concat_generators k gs os :
  ge_concat (fun g : ResourceGenerator => g (Some rv1) o) gs = ok os -> (forall i, gs !! i = generators !! (k + i)%nat) ->
  deployments os = concat (map (fun i => match generators !! (k + i)%nat with
                                         | Some g => match g (Some rv1) o with Ret (inr zs) => deployments zs | _ => [] end
                                         | None => [] end) (seq 0 (length gs))).
Proof.
  revert k os. induction gs as [|g gs IH]; intros k os H Hi; [by injection H as <-|].
  apply ge_concat_cons in H as (zs & rest & Hz & Hr & ->). rewrite deployments_app. cbn [length seq map concat].
  rewrite <- Hi. cbn. rewrite Hz. cbn. f_equal. rewrite (IH (S k) rest Hr).
  - rewrite <- seq_shift, map_map. f_equal. apply map_ext. intros i. by rewrite Nat.add_succ_r.
  - intros i. specialize (Hi (S i)). rewrite Nat.add_succ_r in Hi. exact Hi.
Qed.

Lemma rendered_deployments :
  Forall2 (fun s d => deployment_resource rv1 o s = Ret d) (csv_DeploymentSpecs (rv_CSV rv1)) (deployments objs).
Proof.
  destruct (generator_returned 5 BundleCSVDeploymentGenerator eq_refl) as [os Hos].
  enough (deployments objs = deployments os) as -> by by apply deployment_objects_list.
  assert (Hother : forall k, k <> 5%nat -> match generators !! k with
      | Some g => match g (Some rv1) o with Ret (inr zs) => deployments zs | _ => [] end | None => [] end = []).
  { intros k Hk. destruct (generators !! k) as [g|] eqn:Hg; [|done]. destruct (g (Some rv1) o) as [[e|zs]|msg] eqn:Hz; [done| |done].
    apply no_deployments. intros x Hx Ht. pose proof (lookup_lt_Some _ _ _ Hg) as Hlt. change (length generators) with 10%nat in Hlt.
    assert (Htag : exists t, tags !! k = Some t /\ t <> 5%nat)
      by (do 10 try destruct k as [|k]; [first [by eexists; split; [reflexivity|]|done]..|lia]).
    destruct Htag as (t & Htk & Hne). apply Hne. rewrite <- Ht. symmetry. exact (generator_tags rv1 o k g zs x t lawful Hg Htk Hz Hx). }
  rewrite (concat_generators 0 generators objs rendered) by done. change (length generators) with 10%nat. cbn [seq map concat Nat.add].
  rewrite (Hother 0%nat), (Hother 1%nat), (Hother 2%nat), (Hother 3%nat), (Hother 4%nat), (Hother 6%nat), (Hother 7%nat),
    (Hother 8%nat), (Hother 9%nat) by done. cbn [app]. rewrite !app_nil_r. cbn [lookup]. change (generators !! 5%nat) with (Some BundleCSVDeploymentGenerator).
  cbv iota beta. by rewrite Hos.
Qed.
End Rendered.

(** ** Render *)

Lemma Validate_eq rv1 :
  Validate (br_BundleValidator renderer) rv1 = ((Validate (BundleValidator IsDNS1123Subdomain IsSupported) rv1).1, validated_bundle rv1).
Proof. cbn [br_BundleValidator registryv1_Renderer]. unfold Validate. by rewrite validator_errors_eq. Qed.

Lemma render_unfold rv1 ns opts :
  render rv1 ns opts =
  match (Validate (BundleValidator IsDNS1123Subdomain IsSupported) rv1).1 with
  | Some err => fail err
  | None =>
      match validate_options (options rv1 ns opts) (validated_bundle rv1) with
      | [] => GenerateResources generators (Some (validated_bundle rv1)) (options rv1 ns opts)
      | errs => fail (EWrap "invalid option(s): " (EJoin errs) "")
      end
  end.
Proof. unfold Render. by rewrite Validate_eq. Qed.

Lemma render_ok rv1 ns opts objs :
  render rv1 ns opts = ok objs <->
  wf rv1 /\ validate_options (options rv1 ns opts) (validated_bundle rv1) = [] /\
  GenerateResources generators (Some (validated_bundle rv1)) (options rv1 ns opts) = ok objs.
Proof.
  rewrite render_unfold, <- validate_none. destruct (Validate _ rv1).1 as [err|]; [by split; [|intros (? & _)]|].
  destruct (validate_options _ _) as [|e es]; [naive_solver|]. split; [done|by intros (_ & ? & _)].
Qed.

Lemma wf_validated rv1 ns opts objs : render rv1 ns opts = ok objs -> wf (validated_bundle rv1).
Proof. intros (Hwf & _)%render_ok. by apply validated_wf. Qed.

(** A manifest among the objects is one the bundle ships, in the install
    namespace if it has one, or is made by the certificate provider. *)
Definition manifest_of (rv1 : RegistryV1) (o : Options) (u : Unstructured) : Prop :=
  (exists m, m ∈ rv_Others rv1 /\
     let '(_, namespaced) := IsSupported (gvk_Kind (u_GVK m)) in
     u = if namespaced : bool then u_SetNamespace (o_InstallNamespace o) m else m) \/
  (exists d us, AdditionalObjects (CertProvisionerFor d o) = inr us /\ u ∈ us).

Lemma manifests_from rv1 o objs u :
  GenerateResources generators (Some rv1) o = ok objs -> provider_lawful o -> OUnstructured u ∈ objs -> manifest_of rv1 o u.
Proof.
  intros Hg Hl Hu. apply (ge_concat_elem _ _ _ _ Hg) in Hu as (g & os & Hin & Hos & Hx).
  apply list_elem_of_lookup in Hin as [k Hk].
  assert (Hlt : (k < 10)%nat) by (apply lookup_lt_Some in Hk; exact Hk).
  assert (Ht : k = 4%nat \/ k = 9%nat).
  { destruct (tags !! k) as [t|] eqn:Etk; [|by apply lookup_ge_None in Etk; cbn in Etk; lia].
    pose proof (generator_tags rv1 o k g os (OUnstructured u) t Hl Hk Etk Hos Hx) as E. cbn in E.
    do 10 (destruct k as [|k]; [cbn in Etk; injection Etk as <-; try done; by (left + right)|]). lia. }
  destruct Ht as [->| ->]; injection Hk as <-.
  - left. apply (ge_map_elem _ _ _ _ Hos) in Hx as (m & Hm & Hx). exists m. split; [done|]. unfold additional_object in Hx.
    destruct (IsSupported _) as [[] ns]; [|done]. by injection Hx as <-.
  - right. apply (ge_concat_elem _ _ _ _ Hos) in Hx as (d & zs & _ & Hz & Hx). apply ge_bind_ok in Hz as (us & Hus & [= <-]).
    apply list_elem_of_fmap in Hx as (u' & [= <-] & Hu). exists d, us. split; [by injection Hus|done].
Qed.

(** C15. The permissions granted are the declared ones, and those the bundle
    ships: a rendered bundle's roles and bindings, with those an API server takes
    the rendered manifests for, allow a subject what the bundle declares for its
    service account, in exactly the target namespaces, or everywhere when all
    namespaces are targeted, and nothing else but through a role or binding
    among the manifests; these are the ones the bundle ships, in the install
    namespace if they have one, and those of the certificate provider.  In
    particular they allow exactly what is declared if none of these is a role or
    binding.

    Relied on: different permissions get different names ([named_apart]; the
    names are hashes of the permissions); the certificate provider only
    annotates what it is given ([provider_lawful]). *)
Theorem permissions_granted_exactly rv1 ns opts objs as_rbac s scope rule
    (Hr : render rv1 ns opts = ok objs) (Hl : provider_lawful (options rv1 ns opts))
    (Hu : named_apart rv1 (options rv1 ns opts) (csv_Permissions (rv_CSV rv1)))
    (Hcu : named_apart rv1 (options rv1 ns opts) (cluster_permissions rv1 (options rv1 ns opts))) :
  (allowed as_rbac objs s scope rule <->
   declared rv1 (options rv1 ns opts) s scope rule \/ allowed_by_shipped as_rbac objs s scope rule) /\
  (forall u, OUnstructured u ∈ objs -> manifest_of rv1 (options rv1 ns opts) u) /\
  ((forall u, manifest_of rv1 (options rv1 ns opts) u -> as_rbac u = None) ->
   allowed as_rbac objs s scope rule <-> declared rv1 (options rv1 ns opts) s scope rule).
Proof.
  apply render_ok in Hr as (_ & _ & Hg). pose proof (granted_declared (validated_bundle rv1) _ objs Hg Hl Hu Hcu s scope rule) as Hd.
  assert (Hman : forall u, OUnstructured u ∈ objs -> manifest_of rv1 (options rv1 ns opts) u)
    by (intros u; exact (manifests_from (validated_bundle rv1) _ objs u Hg Hl)).
  split; [|split; [done|]].
  - rewrite allowed_split. by rewrite Hd.
  - intros Hno. rewrite allowed_split, Hd. split; [|by left]. intros [?|Hs]; [done|].
    assert (Hnil : shipped as_rbac objs = []).
    { unfold shipped. clear -Hno Hman. induction objs as [|x l IH]; [done|]. cbn.
      assert (Hx : match x with OUnstructured u => as_rbac u | _ => None end = None).
      { destruct x; try done. apply Hno, Hman. by left. }
      rewrite Hx. apply IH. intros u Hu. apply Hman. by right. }
    destruct Hs as (subjects & ref & rules & _ & _ & _ & _ & Hs). rewrite Hnil in Hs. exfalso.
    destruct Hs as [Hb|(n & [(_ & ? & _ & Hin)|(_ & Hin)])]; [|by apply not_elem_of_nil in Hin..].
    destruct scope; destruct Hb as [? Hb]; by apply not_elem_of_nil in Hb.
Qed.

(** Every binding has its subject: the service account a rendered binding
    names is rendered too, in the install namespace, unless it is the
    namespace's default one, which is never rendered. *)
Theorem binding_subjects_exist rv1 ns opts objs scope subjects ref s
    (Hr : render rv1 ns opts = ok objs) (Hl : provider_lawful (options rv1 ns opts))
    (Hb : bound objs scope subjects ref) (Hs : s ∈ subjects) :
  sj_Kind s = "ServiceAccount" /\ sj_Namespace s = o_InstallNamespace (options rv1 ns opts) /\
  (OServiceAccount (sj_Namespace s) (sj_Name s) ∈ objs <-> sj_Name s <> "default").
Proof.
  apply render_ok in Hr as (_ & _ & Hg). set (o := options rv1 ns opts) in *.
  assert (Hp : exists p, p ∈ csv_Permissions (rv_CSV rv1) ++ csv_ClusterPermissions (rv_CSV rv1) /\
                 s = sa_subject o (saNameOrDefault (sdp_ServiceAccountName p))).
  { destruct scope as [n|]; destruct Hb as [bn Hb].
    - apply (role_binding_in _ _ _ Hg Hl) in Hb as (_ & _ & p & Hp & _ & -> & _). exists p.
      apply list_elem_of_singleton in Hs. split; [apply elem_of_app; by left|done].
    - apply (cluster_role_binding_in _ _ _ Hg Hl) in Hb as (p & Hp & _ & -> & _). apply list_elem_of_singleton in Hs as ->.
      apply elem_cluster_permissions in Hp as [Hp|(_ & q & Hq & ->)]; [exists p|exists q]; (split; [apply elem_of_app|done]); [by right|by left]. }
  destruct Hp as (p & Hp & ->). split; [done|]. split; [done|]. rewrite (service_account_rendered _ _ _ Hg Hl). split; [by intros (_ & ? & _)|].
  intros Hd. split; [done|]. split; [done|]. apply elem_of_list_to_set, list_elem_of_fmap. by exists p.
Qed.

(** C17. Every webhook finds its service: whatever service a rendered webhook
    configuration or custom resource definition tells the API server to call is
    rendered too, in the same namespace, and listens at the port to be called
    if the bundle set one; except that a definition for which the bundle declares
    no conversion webhook is rendered with the conversion it came with, whatever
    that calls.  (The manifests a bundle ships of other kinds are rendered as
    they are, and what they refer to is not looked at.)

    Relied on: the certificate provider only annotates what it is given
    ([provider_lawful], which the repository's providers fulfil). *)
Theorem webhook_services_resolve rv1 ns opts objs x ref
    (Hr : render rv1 ns opts = ok objs) (Hl : provider_lawful (options rv1 ns opts))
    (Hx : x ∈ objs) (Href : ref ∈ client_configs x) :
  (exists s, OService s ∈ objs /\ sv_Namespace s = sr_Namespace ref /\ sv_Name s = sr_Name ref /\
     (0 < sr_Port ref -> exists p, p ∈ sv_Ports s /\ svp_Port p = sr_Port ref)) \/
  (exists crd, unconverted rv1 crd /\ x = OCRD crd).
Proof.
  pose proof (wf_validated _ _ _ _ Hr) as Hwf. apply render_ok in Hr as (_ & _ & Hg).
  destruct (configs_from_webhooks _ _ _ Hg Hl x ref Hx Href) as [(wh & Hwh & -> & -> & ->)|(crd & [Hin Hn] & ->)]; [left|right].
  2: { exists crd. split; [|done]. split; [done|]. by rewrite validated_webhooks, converted_sorted in Hn. }
  destruct (webhook_service _ _ _ Hg Hl wh Hwh (wf_webhook_deployment _ _ _ Hwf wh Hwh)) as (s & Hs & Hns & Hn & Hp).
  exists s. split; [done|]. split; [done|]. split; [done|]. intros Hpos. exists (getWebhookServicePort wh). split; [done|].
  by apply service_port_positive.
Qed.

Lemma deployment_resource_ok rv1 o s d :
  deployment_resource rv1 o s = Ret d ->
  de_Name d = dep_Name s /\ de_Namespace d = o_InstallNamespace o /\ de_Labels d = dep_Label s /\
  ds_Selector (de_Spec d) = ds_Selector (dep_Spec s) /\ ds_RevisionHistoryLimit (de_Spec d) = Some 1 /\
  pt_Annotations (de_Template d) !! "olm.targetNamespaces" = Some (strings_Join (o_TargetNamespaces o) ",") /\
  length (pt_Containers (de_Template d)) = length (pt_Containers (ds_Template (dep_Spec s))).
Proof.
  unfold deployment_resource. cbn [CreateDeploymentResource ApplyTo go_bind WithDeploymentSpec WithLabels de_Name de_Namespace de_Labels de_Annotations de_Spec].
  intros [= <-].
  assert (Hcfg : forall cfg d0, de_Name (applyCustomConfigToDeployment d0 cfg) = de_Name d0 /\
      de_Namespace (applyCustomConfigToDeployment d0 cfg) = de_Namespace d0 /\ de_Labels (applyCustomConfigToDeployment d0 cfg) = de_Labels d0 /\
      ds_Selector (de_Spec (applyCustomConfigToDeployment d0 cfg)) = ds_Selector (de_Spec d0) /\
      ds_RevisionHistoryLimit (de_Spec (applyCustomConfigToDeployment d0 cfg)) = ds_RevisionHistoryLimit (de_Spec d0) /\
      (forall v, pt_Annotations (de_Template d0) !! "olm.targetNamespaces" = Some v ->
         pt_Annotations (de_Template (applyCustomConfigToDeployment d0 cfg)) !! "olm.targetNamespaces" = Some v) /\
      length (pt_Containers (de_Template (applyCustomConfigToDeployment d0 cfg))) = length (pt_Containers (de_Template d0))).
  { intros [cfg|] d0; [|done]. rewrite apply_configured. cbn. do 5 (split; [done|]). split; [|by rewrite length_map].
    intros v Hv. by apply lookup_union_Some_l. }
  match goal with |- de_Name (applyCustomConfigToDeployment ?d0 ?c) = _ /\ _ => destruct (Hcfg c d0) as (-> & -> & -> & -> & -> & Ha & ->) end.
  clear Hcfg. destruct (GetCertSecretInfo _) as [info|]; [case_bool_decide|]; cbn;
    (do 5 (split; [done|])); (split; [apply Ha; apply lookup_insert_eq|]); by rewrite ?length_map.
Qed.

(** Every deployment is rendered, once and in order, under its name in the
    install namespace, with its labels and selector and as many containers;
    it is told the target namespaces and keeps one old revision, whatever the
    bundle's annotations and the user's configuration say. *)
Theorem deployments_rendered rv1 ns opts objs
    (Hr : render rv1 ns opts = ok objs) (Hl : provider_lawful (options rv1 ns opts)) :
  let o := options rv1 ns opts in
  Forall2 (fun s d =>
    de_Name d = dep_Name s /\ de_Namespace d = o_InstallNamespace o /\ de_Labels d = dep_Label s /\
    ds_Selector (de_Spec d) = ds_Selector (dep_Spec s) /\ ds_RevisionHistoryLimit (de_Spec d) = Some 1 /\
    pt_Annotations (de_Template d) !! "olm.targetNamespaces" = Some (strings_Join (o_TargetNamespaces o) ",") /\
    length (pt_Containers (de_Template d)) = length (pt_Containers (ds_Template (dep_Spec s))))
    (csv_DeploymentSpecs (rv_CSV rv1)) (deployments objs).
Proof.
  intros o. apply render_ok in Hr as (_ & _ & Hg). pose proof (rendered_deployments _ _ _ Hg Hl) as H.
  eapply Forall2_impl; [exact H|]. intros s d. apply deployment_resource_ok.
Qed.
End Render.
