(* ===== verification/RenderTotal.v ===== *)
(** * When a bundle is rendered

    The target namespaces a bundle admits, the exact condition under which
    Render (Render.v) succeeds, and sample bundles. *)

From Stdlib Require Import Ascii.
From S2P Require Import Prelude GoErrors ApiTypes Phase ObjectInstances Rbac Bundle DeployConfig DeployConfigProps Validate ValidateProps Generate CertProviders GenerateProps Render NameProps RenderProps.

(** ** Target namespaces *)

(** What a bundle's install modes admit: all namespaces, the install namespace
    alone, another one alone, or several, of which the install namespace may be
    one only with the OwnNamespace mode. *)
Definition targets_admitted (modes : gset string) (install : string) (targets : list string) : Prop :=
  let set : gset string := list_to_set targets in
  (set = {[""]} /\ InstallModeTypeAllNamespaces ∈ modes) \/
  (install <> "" /\ set = {[install]} /\ InstallModeTypeOwnNamespace ∈ modes) \/
  (exists n, n <> "" /\ n <> install /\ set = {[n]} /\ InstallModeTypeSingleNamespace ∈ modes) \/
  ((2 <= size set)%nat /\ "" ∉ set /\ InstallModeTypeMultiNamespace ∈ modes /\ (install ∈ set -> InstallModeTypeOwnNamespace ∈ modes)).

Lemma singleton_set (s : gset string) x : size s = 1%nat -> x ∈ s -> s = {[x]}.
Proof. intros [y ->%leibniz_equiv]%size_1_elem_of Hx. by apply elem_of_singleton in Hx as ->. Qed.

Lemma size_two (s : gset string) x y : x ∈ s -> y ∈ s -> x <> y -> (2 <= size s)%nat.
Proof.
  intros Hx Hy Hne. assert (Hsub : ({[x; y]} : gset string) ⊆ s) by set_solver. apply subseteq_size in Hsub.
  rewrite size_union, !size_singleton in Hsub by set_solver. done.
Qed.

Lemma validateTargetNamespaces_admits rv1 install targets :
  validateTargetNamespaces rv1 install targets = None <-> targets_admitted (supportedBundleInstallModes rv1) install targets.
Proof.
  unfold validateTargetNamespaces, targets_admitted. set (modes := supportedBundleInstallModes rv1). clearbody modes.
  destruct targets as [|first rest].
  { cbn. split; [by case_bool_decide|]. intros [[? _]|[(_ & ? & _)|[(n & _ & _ & ? & _)|(Hs & _)]]]; [set_solver..|].
    rewrite size_empty in Hs. lia. }
  set (set := list_to_set (first :: rest)). assert (Hf : first ∈ set) by (unfold set; cbn; set_solver). clearbody set.
  destruct (decide (size set = 1%nat)) as [Hs|Hs].
  - rewrite (bool_decide_true _ Hs). assert (He : set = {[first]}) by (by apply singleton_set). cbn [andb].
    subst set. clear Hf. rewrite size_singleton. case_bool_decide as Hall.
    + apply elem_of_singleton in Hall as <-. case_bool_decide as Hm.
      * split; [intros _; by left|done].
      * split; [done|]. intros [[_ ?]|[(Hi & He & _)|[(n & Hn & _ & He & _)|(Hsz & _)]]]; [done|set_solver|set_solver|lia].
    + case_bool_decide as Hi.
      * subst install. case_bool_decide as Hm; cbn [negb].
        -- split; [intros _|done]. right. left. split; [set_solver|done].
        -- split; [done|]. intros [[He _]|[(_ & _ & ?)|[(n & Hn & Hni & He & _)|(Hsz & _)]]]; [set_solver|done|set_solver|lia].
      * case_bool_decide as Hm.
        -- split; [intros _|done]. right. right. left. exists first. split; [set_solver|done].
        -- split; [done|]. intros [[He _]|[(_ & He & _)|[(n & Hn & Hni & He & ?)|(Hsz & _)]]]; [set_solver|set_solver|done|lia].
  - rewrite (bool_decide_false _ Hs). cbn [andb].
    assert (Hs2 : (2 <= size set)%nat).
    { destruct (size set) as [|[|n]] eqn:E; [|done|lia]. apply size_empty_inv in E. set_solver. }
    assert (Hone : forall x, set <> {[x]}) by (intros x ->; by rewrite size_singleton in Hs).
    split.
    + case_bool_decide as Ho; cbn [negb andb].
      * case_bool_decide as Hm; cbn [andb]; [|done]. case_bool_decide as Ha; [done|]. intros _. right. right. right. done.
      * case_bool_decide as Hi; [done|]. case_bool_decide as Hm; cbn [andb]; [|done]. case_bool_decide as Ha; [done|].
        intros _. right. right. right. done.
    + intros [[He _]|[(_ & He & _)|[(n & _ & _ & He & _)|(_ & Ha & Hm & Hi)]]]; [by destruct (Hone _ He)..|].
      rewrite (bool_decide_true _ Hm), (bool_decide_false _ Ha). cbn [andb negb].
      case_bool_decide as Ho; [done|]. cbn. rewrite bool_decide_false; [done|]. intros Hin. by apply Ho, Hi.
Qed.

(** Target namespaces are admitted exactly by the install modes a bundle
    supports: every way to target that passes is one of the four modes, and
    every one of the four passes. *)
Theorem validateTargetNamespaces_exact rv1 install targets :
  validateTargetNamespaces rv1 install targets = None <-> targets_admitted (supportedBundleInstallModes rv1) install targets.
Proof. apply validateTargetNamespaces_admits. Qed.

Section Total.
Context {UA : UnstructuredAPI}.
Context (IsDNS1123Subdomain : string -> list string) (IsSupported : string -> bool * bool).
Context (u_SetNamespace : string -> Unstructured -> Unstructured) (IntValue : IntOrString -> Z).
Context (UnsortedList : gset string -> list string) (UnsortedPorts : gset ServicePort -> list ServicePort).
Context (json_Encode : StrategyPermission -> result (list Byte.byte)) (sha224 : list Byte.byte -> N).

Notation renderer := (registryv1_Renderer IsDNS1123Subdomain IsSupported u_SetNamespace IntValue UnsortedList UnsortedPorts).
Notation generators := (bundle_generators IsSupported u_SetNamespace IntValue UnsortedList UnsortedPorts).
Notation render := (Render json_Encode sha224 renderer).
Notation wf := (well_formed_bundle IsDNS1123Subdomain IsSupported).
Notation options rv1 ns opts := (render_options json_Encode sha224 (validated_bundle rv1) ns opts).

(** A definition that must be converted is one its own conversion could not
    be called for. *)
Definition convertible (rv1 : RegistryV1) : Prop :=
  forall crd, crd ∈ rv_CRDs rv1 -> crd_Name crd ∈ converted_crds (webhooks rv1) -> crd_PreserveUnknownFields crd = false.

Section Generators.
Context (rv1 : RegistryV1) (o : Options).
Hypothesis well_formed : wf rv1.
Hypothesis total : provider_total o.
Hypothesis named : forall p, exists n, permission_name rv1 o p = Ret n.

Lemma crd_object_total m crd :
  crdToDeploymentMap (webhooks rv1) ∅ = inr m ->
  (exists x, crd_object o m crd = ok x) <-> (crd_Name crd ∈ converted_crds (webhooks rv1) -> crd_PreserveUnknownFields crd = false).
Proof.
  intros Hm. rewrite <- (crd_map_converted _ _ _ Hm). unfold crd_object. destruct (m !! crd_Name crd) as [cw|].
  - destruct (crd_PreserveUnknownFields crd).
    + split; [by intros [x ?]|]. intros H. by specialize (H (ex_intro _ cw eq_refl)).
    + split; [done|]. intros _. destruct (inject_total o (wh_DeploymentName cw)
        (OCRD (mkCRD (crd_Name crd) (crd_Annotations crd) false (Some (ByWebhook (crd_conversion o cw))) (crd_Rest crd))) total) as [x Hx].
      exists x. by rewrite Hx.
  - split; [intros _ [? ?]; done|]. intros _. by eexists.
Qed.

Lemma crd_generator_total :
  (exists os, BundleCRDGenerator (Some rv1) o = ok os) <-> convertible rv1.
Proof.
  unfold BundleCRDGenerator, with_bundle.
  destruct (crd_map_total (webhooks rv1) ∅) as [m Hm]; [apply (wf_converted _ _ _ well_formed)|intros; apply lookup_empty|].
  change (csv_WebhookDefinitions (rv_CSV rv1)) with (webhooks rv1). rewrite Hm. cbn [ge_bind go_bind]. split.
  - intros [os Hos%ge_map_ok] crd Hcrd. apply (crd_object_total m crd Hm).
    apply list_elem_of_lookup in Hcrd as [i Hi]. destruct (Forall2_lookup_l _ _ _ _ _ Hos Hi) as (x & _ & Hx). by exists x.
  - intros Hc. apply ge_map_total. intros crd Hcrd. apply (crd_object_total m crd Hm). by apply Hc.
Qed.

(** Every other generator returns. *)
Lemma generators_total k g :
  generators !! k = Some g -> k <> 3%nat -> exists os, g (Some rv1) o = ok os.
Proof.
  intros Hg Hk. do 10 try destruct k as [|k]; [..|done]; injection Hg as <-.
  - apply ge_map_total. intros n _. by eexists.
  - unfold BundleCSVPermissionsGenerator, with_bundle. destruct (targets_all o); [by eexists|]. apply ge_concat_total. intros ns _.
    apply ge_concat_total. intros p _. destruct (named p) as [n Hn]. eexists. apply role_objects_ok. by exists n.
  - apply ge_concat_total. intros p _. destruct (named p) as [n Hn]. eexists. apply cluster_role_objects_ok. by exists n.
  - done.
  - apply ge_map_total. intros u Hu. unfold additional_object. pose proof (wf_objects _ _ _ well_formed u Hu) as Hs.
    destruct (IsSupported _) as [[] n]; [by eexists|done].
  - apply ge_map_total. intros s _. unfold deployment_resource. cbn [CreateDeploymentResource ApplyTo go_bind WithDeploymentSpec WithLabels]. by eexists.
  - apply ge_map_total. intros wh _. unfold validating_object.
    cbn [CreateValidatingWebhookConfigurationResource ApplyTo go_bind WithValidatingWebhooks].
    match goal with |- exists y, Ret (InjectCABundle (CertProvisionerFor ?n _) ?x) = _ => destruct (inject_total o n x total) as [y Hy] end.
    exists y. by rewrite Hy.
  - apply ge_map_total. intros wh _. unfold mutating_object.
    cbn [CreateMutatingWebhookConfigurationResource ApplyTo go_bind WithMutatingWebhooks].
    match goal with |- exists y, Ret (InjectCABundle (CertProvisionerFor ?n _) ?x) = _ => destruct (inject_total o n x total) as [y Hy] end.
    exists y. by rewrite Hy.
  - apply ge_concat_total. intros d _. unfold service_objects. destruct (_ !! dep_Name d) as [ports|]; [|by eexists].
    cbn [CreateServiceResource ApplyTo go_bind WithServiceSpec].
    match goal with |- exists y, ge_bind (Ret (InjectCABundle (CertProvisionerFor ?n _) ?x)) _ = _ => destruct (inject_total o n x total) as [y Hy] end.
    rewrite Hy. by eexists.
  - apply ge_concat_total. intros n _. unfold AdditionalObjects. cbn [CertProvisionerFor pv_CertProvider].
    destruct (o_CertificateProvider o) as [p|] eqn:E; [|by eexists]. destruct (proj2 (total p E) (pv_Config (CertProvisionerFor n o))) as [l Hl].
    rewrite Hl. by eexists.
Qed.

Lemma generated_iff : (exists objs, GenerateResources generators (Some rv1) o = ok objs) <-> convertible rv1.
Proof.
  rewrite <- crd_generator_total. split.
  - intros [objs H]. apply (ge_concat_each _ _ _ BundleCRDGenerator H). by apply (list_elem_of_lookup_2 _ 3).
  - intros H. apply ge_concat_total. intros g Hg. apply list_elem_of_lookup in Hg as [k Hk].
    destruct (decide (k = 3%nat)) as [->|Hne]; [by injection Hk as <-|by eapply generators_total].
Qed.

Lemma crd_generator_returns : returns (BundleCRDGenerator (Some rv1) o).
Proof.
  unfold BundleCRDGenerator, with_bundle. apply ge_bind_returns; [by eexists|]. intros m _. apply ge_map_returns. intros crd _.
  unfold crd_object. destruct (m !! crd_Name crd); [|by eexists]. destruct (crd_PreserveUnknownFields crd); by eexists.
Qed.

Lemma generated_returns : returns (GenerateResources generators (Some rv1) o).
Proof.
  apply ge_concat_returns. intros g Hg. apply list_elem_of_lookup in Hg as [k Hk].
  destruct (decide (k = 3%nat)) as [->|Hne]; [injection Hk as <-; apply crd_generator_returns|].
  destruct (generators_total k g Hk Hne) as [os Hos]. by eexists.
Qed.
End Generators.

Lemma render_total_iff rv1 ns opts
    (Hn : forall p, exists n, permission_name (validated_bundle rv1) (options rv1 ns opts) p = Ret n)
    (Hp : provider_total (options rv1 ns opts)) :
  (exists r, render rv1 ns opts = Ret r) /\
  ((exists objs, render rv1 ns opts = ok objs) <->
   wf rv1 /\ validate_options (options rv1 ns opts) (validated_bundle rv1) = [] /\ convertible rv1).
Proof.
  assert (Hcv : convertible (validated_bundle rv1) <-> convertible rv1).
  { unfold convertible. rewrite validated_webhooks. by setoid_rewrite converted_sorted. }
  split.
  - rewrite render_unfold. destruct (Validate _ rv1).1 as [err|] eqn:E; [by eexists|]. apply validate_none, validated_wf in E.
    destruct (validate_options _ _); [|by eexists]. by apply generated_returns.
  - setoid_rewrite render_ok. rewrite <- Hcv. split.
    + intros (objs & Hwf & Ho & Hg). split; [done|]. split; [done|]. apply (generated_iff _ (options rv1 ns opts)); [by apply validated_wf|done|done|].
      by exists objs.
    + intros (Hwf & Ho & Hc). apply (generated_iff _ (options rv1 ns opts)) in Hc as [objs Hg]; [|by apply validated_wf|done|done]. by exists objs.
Qed.

(** A bundle is rendered exactly when it is well formed, the options are
    valid for it and no definition its webhooks must convert preserves unknown
    fields; otherwise an error comes back, and in no case is there a panic, if
    every permission can be named and the certificate provider does not fail. *)
Theorem Render_succeeds_exactly rv1 ns opts
    (Hn : forall p, exists n, permission_name (validated_bundle rv1) (options rv1 ns opts) p = Ret n)
    (Hp : provider_total (options rv1 ns opts)) :
  (exists r, render rv1 ns opts = Ret r) /\
  ((exists objs, render rv1 ns opts = ok objs) <->
   wf rv1 /\ validate_options (options rv1 ns opts) (validated_bundle rv1) = [] /\ convertible rv1).
Proof. by apply render_total_iff. Qed.
End Total.
