(* ===== verification/RenderSamples.v ===== *)
(** * Sample bundles

    The rendering theorems at concrete bundles, and what rendering does at the
    corners: webhooks without a port, deployments whose names differ in a dot,
    bundles that may only watch their own namespace. *)

From Stdlib Require Import Ascii.
From S2P Require Import Prelude GoErrors ApiTypes Phase ObjectInstances Rbac Bundle DeployConfig DeployConfigProps Validate ValidateProps Generate CertProviders GenerateProps Render NameProps RenderProps RenderTotal.

Module RenderSamples.

(** Any name will do, everything is supported, and sets are listed in the order
    of their elements. *)
Definition any_name (n : string) : list string := [].
Definition any_kind (k : string) : bool * bool := (true, true).
Definition keep_namespace (ns : string) (u : Unstructured) : Unstructured := u.
Definition int_value (v : IntOrString) : Z := match v with IntVal n => n | StrVal _ => 0 end.
Definition encode_name (p : StrategyPermission) : result (list Byte.byte) := inr (String.list_byte_of_string (sdp_ServiceAccountName p)).
Definition sum_bytes (bs : list Byte.byte) : N := (fold_right (fun b a => 256 * a + Byte.to_N b) 0 bs mod 2 ^ 224)%N.

Definition sample_renderer : BundleRenderer :=
  registryv1_Renderer any_name any_kind keep_namespace int_value (@elements _ (gset string) _) (@elements _ (gset ServicePort) _).
Definition render_sample : RegistryV1 -> string -> list (option Option) -> GE (list client_object) :=
  Render encode_name sum_bytes sample_renderer.

Definition deployment_named (n : string) : StrategyDeploymentSpec :=
  mkDepSpec n ∅ (mkDeploymentSpec (Some {["app" := n]}) None
    (mkTemplate ∅ [mkContainer [] [] [] JNull JNull] [] [] [] None None JNull) JNull).

Definition webhook_for (n d : string) (port : Z) : WebhookDescription :=
  mkWebhook ValidatingAdmissionWebhook n d port None [] [] (Some "/validate") ["v1"] None JNull.

Definition rule_pods : PolicyRule := mkRule ["get"] [""] ["pods"] [] [].
Definition rule_nodes : PolicyRule := mkRule ["list"] [""] ["nodes"] [] [].
Definition pods_permission : StrategyPermission := mkPermission "op-sa" [rule_pods].
Definition nodes_permission : StrategyPermission := mkPermission "" [rule_nodes].

Definition bundle_of (modes : list string) (deps : list StrategyDeploymentSpec) (whs : list WebhookDescription) : RegistryV1 :=
  mkRegistryV1 "pkg"
    (mkCSV "op.v1" ∅ (map (fun m => mkInstallMode m true) modes) deps [pods_permission] [nodes_permission] whs ["foos.example.com"] [])
    [mkCRD "foos.example.com" ∅ false None JNull] [].

Definition conversion_webhook : WebhookDescription :=
  mkWebhook ConversionWebhook "convert" "operator" 9443 None [] ["foos.example.com"] None ["v1"] None JNull.

(** An operator with a validating and a conversion webhook. *)
Definition sample_bundle : RegistryV1 :=
  bundle_of [InstallModeTypeAllNamespaces] [deployment_named "operator"] [webhook_for "check" "operator" 8443; conversion_webhook].

Definition plain_names : UniqueNameGenerator := fun base p => Ret base.
Definition sample_options : list (option Option) :=
  [Some (WithCertificateProvider (Some OpenshiftServiceCaCertificateProvider)); None; Some (WithUniqueNameGenerator (Some plain_names))].

Definition rendered (rv1 : RegistryV1) (ns : string) (opts : list (option Option)) : list client_object :=
  match render_sample rv1 ns opts with Ret (inr os) => os | _ => [] end.

Notation opts_of rv1 ns opts := (render_options encode_name sum_bytes (validated_bundle rv1) ns opts).

Lemma sample_rendered : render_sample sample_bundle "install" sample_options = ok (rendered sample_bundle "install" sample_options).
Proof. vm_compute. reflexivity. Qed.

Lemma sample_lawful : provider_lawful (opts_of sample_bundle "install" sample_options).
Proof. intros p [= <-]. apply Openshift_laws. Qed.

(** The bundle with a binding among its manifests, for another account. *)
Definition extra_subject : Subject := mkSubject "ServiceAccount" "elsewhere" "extra".
Definition extra_binding : Unstructured :=
  mkUnstr (Some {["apiVersion" := JStr "rbac.authorization.k8s.io/v1"; "kind" := JStr "ClusterRoleBinding"]}).
Definition shipping_bundle : RegistryV1 :=
  mkRegistryV1 "pkg" (rv_CSV sample_bundle) (rv_CRDs sample_bundle) [extra_binding].
Definition as_rbac_sample (u : Unstructured) : option client_object :=
  if bool_decide (gvk_Kind (u_GVK u) = "ClusterRoleBinding")
  then Some (OClusterRoleBinding "extra" [extra_subject] (mkRoleRef rbac_group "ClusterRole" "op.v1-op-sa")) else None.

Lemma shipping_rendered : render_sample shipping_bundle "install" sample_options = ok (rendered shipping_bundle "install" sample_options).
Proof. vm_compute. reflexivity. Qed.

Lemma sample_apart rv1 ps : rv_CSV rv1 = rv_CSV sample_bundle ->
  (forall p p', p ∈ ps -> p' ∈ ps -> saNameOrDefault (sdp_ServiceAccountName p) = saNameOrDefault (sdp_ServiceAccountName p') -> p = p') ->
  named_apart rv1 (opts_of rv1 "install" sample_options) ps.
Proof.
  intros Hcsv H p p' n Hp Hp' Hn Hn'. apply H; [done..|]. rewrite <- Hn' in Hn. revert Hn. unfold permission_name. rewrite Hcsv.
  change (Ret ("op.v1-" +:+ saNameOrDefault (sdp_ServiceAccountName p)) = Ret ("op.v1-" +:+ saNameOrDefault (sdp_ServiceAccountName p')) ->
    saNameOrDefault (sdp_ServiceAccountName p) = saNameOrDefault (sdp_ServiceAccountName p')).
  generalize (saNameOrDefault (sdp_ServiceAccountName p)), (saNameOrDefault (sdp_ServiceAccountName p')).
  intros a b Hn. by injection Hn.
Qed.

Lemma samples_apart rv1 : rv_CSV rv1 = rv_CSV sample_bundle ->
  named_apart rv1 (opts_of rv1 "install" sample_options) [pods_permission] /\
  named_apart rv1 (opts_of rv1 "install" sample_options) [nodes_permission; promoted pods_permission].
Proof.
  intros Hcsv. split; apply sample_apart; try done.
  - intros p p' Hp Hp' _. apply list_elem_of_singleton in Hp as ->. by apply list_elem_of_singleton in Hp' as ->.
  - intros p p' Hp Hp' He. rewrite !elem_of_cons in Hp, Hp'.
    destruct Hp as [->|[->|[]%not_elem_of_nil]], Hp' as [->|[->|[]%not_elem_of_nil]]; done.
Qed.

(** The declared right to read namespaces, and what the shipped binding adds. *)
Lemma permissions_granted_exactly_witness :
  allowed as_rbac_sample (rendered shipping_bundle "install" sample_options) (mkSubject "ServiceAccount" "install" "op-sa") None namespaces_rule /\
  (allowed as_rbac_sample (rendered shipping_bundle "install" sample_options) extra_subject None rule_pods <->
   declared shipping_bundle (opts_of shipping_bundle "install" sample_options) extra_subject None rule_pods \/
   allowed_by_shipped as_rbac_sample (rendered shipping_bundle "install" sample_options) extra_subject None rule_pods) /\
  allowed_by_shipped as_rbac_sample (rendered shipping_bundle "install" sample_options) extra_subject None rule_pods.
Proof.
  destruct (samples_apart shipping_bundle eq_refl) as [Hu Hcu].
  assert (Hl : provider_lawful (opts_of shipping_bundle "install" sample_options)) by (intros p [= <-]; apply Openshift_laws).
  pose proof (fun s rule => permissions_granted_exactly any_name any_kind keep_namespace int_value (@elements _ (gset string) _)
    (@elements _ (gset ServicePort) _) encode_name sum_bytes shipping_bundle "install" sample_options
    (rendered shipping_bundle "install" sample_options) as_rbac_sample s None rule shipping_rendered Hl Hu Hcu) as H.
  split; [apply (proj2 (proj1 (H _ _))); left; exists pods_permission; split; [done|]; right; split; [done|]; split; [by left|by right]|].
  split; [apply (proj1 (H _ _))|]. exists [extra_subject], (mkRoleRef rbac_group "ClusterRole" "op.v1-op-sa"), [rule_pods; namespaces_rule].
  split; [|split; [by left|split; [|split; [by left|left]]]].
  - exists "extra". apply elem_of_app. right. apply (list_elem_of_lookup_2 _ 0). vm_compute. reflexivity.
  - exists "op.v1-op-sa". right. split; [done|]. apply elem_of_app. left. apply (list_elem_of_lookup_2 _ 3). vm_compute. reflexivity.
  - exists "extra". apply (list_elem_of_lookup_2 _ 0). vm_compute. reflexivity.
Defined.

(** An object that is at an index of the rendered ones. *)
Ltac at_index i := apply (list_elem_of_lookup_2 _ i); vm_compute; reflexivity.

Definition sample_objects : list client_object := rendered sample_bundle "install" sample_options.
Definition op_subject : Subject := mkSubject "ServiceAccount" "install" "op-sa".
Definition op_ref : RoleRef := mkRoleRef rbac_group "ClusterRole" "op.v1-op-sa".

Lemma op_bound : bound sample_objects None [op_subject] op_ref.
Proof. exists "op.v1-op-sa". at_index 4%nat. Qed.

Lemma binding_subjects_exist_witness :
  sj_Kind op_subject = "ServiceAccount" /\ sj_Namespace op_subject = "install" /\
  (OServiceAccount (sj_Namespace op_subject) (sj_Name op_subject) ∈ sample_objects <-> sj_Name op_subject <> "default").
Proof.
  refine (binding_subjects_exist any_name any_kind keep_namespace int_value (@elements _ (gset string) _) (@elements _ (gset ServicePort) _)
    encode_name sum_bytes _ sample_bundle "install" sample_options _ None [op_subject] op_ref op_subject sample_rendered sample_lawful op_bound _).
  - intros s. done.
  - by left.
Defined.

Definition check_reference : ServiceReference := mkServiceReference "install" "operator-service" (Some "/validate") 8443.

Lemma check_configured : exists x, x ∈ sample_objects /\ check_reference ∈ client_configs x /\ forall crd, x <> OCRD crd.
Proof. eexists. split; [apply (list_elem_of_lookup_2 _ 7); vm_compute; reflexivity|split; [by left|done]]. Qed.

Lemma webhook_services_resolve_witness :
  exists s, OService s ∈ sample_objects /\ sv_Namespace s = "install" /\ sv_Name s = "operator-service" /\
    (0 < 8443 -> exists p, p ∈ sv_Ports s /\ svp_Port p = 8443).
Proof.
  destruct check_configured as (x & Hx & Href & Hno).
  destruct (webhook_services_resolve any_name any_kind keep_namespace int_value (@elements _ (gset string) _) (@elements _ (gset ServicePort) _)
    encode_name sum_bytes (fun s => Permutation_refl _) sample_bundle "install" sample_options sample_objects x check_reference
    sample_rendered sample_lawful Hx Href) as [H|(crd & _ & He)]; [exact H|by destruct (Hno crd)].
Defined.

Lemma deployments_rendered_witness :
  Forall2 (fun s d => de_Name d = dep_Name s /\ de_Namespace d = "install" /\ de_Labels d = dep_Label s /\
      ds_Selector (de_Spec d) = ds_Selector (dep_Spec s) /\ ds_RevisionHistoryLimit (de_Spec d) = Some 1 /\
      pt_Annotations (de_Template d) !! "olm.targetNamespaces" = Some "" /\
      length (pt_Containers (de_Template d)) = length (pt_Containers (ds_Template (dep_Spec s))))
    [deployment_named "operator"] (deployments sample_objects).
Proof.
  exact (deployments_rendered any_name any_kind keep_namespace int_value (@elements _ (gset string) _) (@elements _ (gset ServicePort) _)
    encode_name sum_bytes sample_bundle "install" sample_options _ sample_rendered sample_lawful).
Defined.

Lemma Render_succeeds_exactly_witness :
  (exists r, render_sample sample_bundle "install" sample_options = Ret r) /\
  ((exists objs, render_sample sample_bundle "install" sample_options = ok objs) <->
   well_formed_bundle any_name any_kind sample_bundle /\
   validate_options (opts_of sample_bundle "install" sample_options) (validated_bundle sample_bundle) = [] /\ convertible sample_bundle).
Proof.
  refine (Render_succeeds_exactly any_name any_kind keep_namespace int_value (@elements _ (gset string) _) (@elements _ (gset ServicePort) _)
    encode_name sum_bytes sample_bundle "install" sample_options _ _).
  - intros p. by eexists.
  - intros p [= <-]. split; [intros o cfg; by eexists|intros cfg; by eexists].
Defined.

(** ** Corners *)

Definition port_bundle : RegistryV1 :=
  bundle_of [InstallModeTypeAllNamespaces] [deployment_named "operator"] [webhook_for "check" "operator" 0].

(** A webhook without a port is called at port 0: its service listens at 443,
    the default the service's generator chooses, but the configurations tell
    the API server port 0, at which no service can listen. *)
Theorem port_zero_unreachable :
  let objs := rendered port_bundle "install" sample_options in
  render_sample port_bundle "install" sample_options = ok objs /\
  (exists x ref, x ∈ objs /\ ref ∈ client_configs x /\ sr_Port ref = 0) /\
  forall s p, OService s ∈ objs -> p ∈ sv_Ports s -> svp_Port p = 443.
Proof.
  split; [vm_compute; reflexivity|]. split.
  - do 2 eexists. split; [apply (list_elem_of_lookup_2 _ 7); vm_compute; reflexivity|]. split; [by left|done].
  - intros s p Hs Hp.
    assert (Hall : forallb (fun o => match o with OService s => forallb (fun p => svp_Port p =? 443) (sv_Ports s) | _ => true end)
              (rendered port_bundle "install" sample_options) = true) by (vm_compute; reflexivity).
    rewrite forallb_forall in Hall. specialize (Hall _ (proj1 (list_elem_of_In _ _) Hs)). cbn in Hall.
    rewrite forallb_forall in Hall. specialize (Hall _ (proj1 (list_elem_of_In _ _) Hp)). by apply Z.eqb_eq in Hall.
Qed.

Definition dotted_bundle : RegistryV1 :=
  bundle_of [InstallModeTypeAllNamespaces] [deployment_named "a.b"; deployment_named "a-b"]
    [webhook_for "first" "a.b" 8443; webhook_for "second" "a-b" 9443].

(** Service names can collide: two deployments of a valid bundle whose names
    differ only in a dot and a dash get services of one name in one namespace,
    with different ports and selectors. *)
Theorem service_names_collide :
  let objs := rendered dotted_bundle "install" sample_options in
  render_sample dotted_bundle "install" sample_options = ok objs /\
  exists s s', OService s ∈ objs /\ OService s' ∈ objs /\ sv_Namespace s = sv_Namespace s' /\ sv_Name s = sv_Name s' /\
    sv_Selector s <> sv_Selector s'.
Proof.
  split; [vm_compute; reflexivity|]. do 2 eexists. split; [apply (list_elem_of_lookup_2 _ 10); vm_compute; reflexivity|].
  split; [apply (list_elem_of_lookup_2 _ 11); vm_compute; reflexivity|]. split; [reflexivity|]. split; [reflexivity|]. cbn [sv_Selector].
  intros H. apply (f_equal (fmap (M := option) (fun m : gmap string string => m !! "app"))) in H. vm_compute in H. discriminate H.
Qed.

(** A bundle that may only watch its own namespace has no default target:
    it is rendered only if the target namespace is given, as its install
    namespace. *)
Theorem own_namespace_has_no_default :
  let rv1 := bundle_of [InstallModeTypeOwnNamespace] [deployment_named "operator"] [] in
  render_sample rv1 "install" [] =
    fail (EWrap "invalid option(s): " (EJoin [EWrap "invalid target namespaces []: "
      (ENew "exactly one target namespace must be specified") ""]) "") /\
  exists objs, render_sample rv1 "install" [Some (WithTargetNamespaces ["install"])] = ok objs.
Proof. split; [vm_compute; reflexivity|]. eexists. vm_compute. reflexivity. Qed.

(** Rules for every resource of the admission registration group pass: the
    check knows the wildcard for resources but not the one that includes their
    subresources, which matches every resource too. *)
Theorem subresource_wildcard_allowed :
  let wh := mkWebhook ValidatingAdmissionWebhook "check" "operator" 8443 None
              [mkWebhookRule ["admissionregistration.k8s.io"] ["*/*"] JNull] [] None ["v1"] None JNull in
  CheckWebhookRules (bundle_of [InstallModeTypeAllNamespaces] [deployment_named "operator"] [wh]) = [] /\
  CheckWebhookRules (bundle_of [InstallModeTypeAllNamespaces] [deployment_named "operator"]
    [mkWebhook ValidatingAdmissionWebhook "check" "operator" 8443 None
       [mkWebhookRule ["admissionregistration.k8s.io"] ["*"] JNull] [] None ["v1"] None JNull]) <> [].
Proof. split; [vm_compute; reflexivity|]. by vm_compute. Qed.
End RenderSamples.
