(* ===== verification/BundleConfig.v ===== *)
(** * Bundle configuration

    src/internal/operator-controller/rukpak/bundle/registryv1.go: the JSON schema
    a registry+v1 bundle's install modes give its configuration; and
    src/internal/operator-controller/config/config.go: checking a user's
    configuration against a schema and reading it.

    JSON and YAML parsing, the schema library and the printing of values other
    than strings are parameters; a schema is the JSON object the code passes to
    the library.  Maps the code changes in place are returned changed. *)

From Stdlib Require Import Ascii.
From S2P Require Import Prelude GoErrors ApiTypes Phase Rbac Bundle DeployConfig.

Abbreviation Object := (gmap string json).

(** ** The schema (registryv1.go) *)

Definition watchNamespaceConfigKey : string := "watchNamespace".
Definition namespaceNamePattern : string := "^[a-z0-9]([-a-z0-9]*[a-z0-9])?$".
Definition namespaceNameMaxLength : Z := 63.
Definition FormatOwnNamespaceInstallMode : string := "ownNamespaceInstallMode".
Definition FormatSingleNamespaceInstallMode : string := "singleNamespaceInstallMode".

(** The value of a key as an array, as an object. *)
Definition as_array (j : option json) : option (list json) := match j with Some (JArr l) => Some l | _ => None end.
Definition as_object (j : option json) : option Object := match j with Some (JObj m) => Some m | _ => None end.

(** func addToRequired(schema, fieldName) *)
Definition addToRequired (schema : Object) (fieldName : string) : Object :=
  match as_array (schema !! "required") with
  | Some existing =>
      if bool_decide (JStr fieldName ∈ existing) then schema
      else <["required" := JArr (existing ++ [JStr fieldName])]> schema
  | None => <["required" := JArr [JStr fieldName]]> schema
  end.

(** func removeFromRequired(schema, fieldName) *)
Definition removeFromRequired (schema : Object) (fieldName : string) : Object :=
  match as_array (schema !! "required") with
  | None => schema
  | Some existing =>
      match List.filter (fun f => negb (bool_decide (f = JStr fieldName))) existing with
      | [] => delete "required" schema
      | filtered => <["required" := JArr filtered]> schema
      end
  end.

(** Whether a set of install modes has a mode as supported. *)
Definition has_mode (installModes : list InstallMode) (t : string) : bool := bool_decide (mkInstallMode t true ∈ installModes).

(** func selectNamespaceFormat(hasOwnNamespace, hasSingleNamespace) string *)
Definition selectNamespaceFormat (hasOwnNamespace hasSingleNamespace : bool) : string :=
  if hasOwnNamespace && negb hasSingleNamespace then FormatOwnNamespaceInstallMode
  else if hasSingleNamespace && negb hasOwnNamespace then FormatSingleNamespaceInstallMode
  else "".

(** func isWatchNamespaceConfigurable(installModes) bool *)
Definition isWatchNamespaceConfigurable (installModes : list InstallMode) : bool :=
  has_mode installModes InstallModeTypeSingleNamespace || has_mode installModes InstallModeTypeOwnNamespace.

(** func isWatchNamespaceConfigRequired(installModes) bool *)
Definition isWatchNamespaceConfigRequired (installModes : list InstallMode) : bool :=
  isWatchNamespaceConfigurable installModes && negb (has_mode installModes InstallModeTypeAllNamespaces).

Definition description : json := JStr "The namespace that the operator should watch for custom resources".

(** func buildWatchNamespaceProperty(installModes) (map, bool) *)
Definition watchNamespaceSchema (installModes : list InstallMode) : Object :=
  let format := selectNamespaceFormat (has_mode installModes InstallModeTypeOwnNamespace)
                  (has_mode installModes InstallModeTypeSingleNamespace) in
  let base : Object := list_to_map [("type", JStr "string"); ("minLength", JNum 1); ("maxLength", JNum namespaceNameMaxLength);
                                    ("pattern", JStr namespaceNamePattern)] in
  if bool_decide (format = "") then base else <["format" := JStr format]> base.

Definition buildWatchNamespaceProperty (installModes : list InstallMode) : Object * bool :=
  let schema := watchNamespaceSchema installModes in
  if isWatchNamespaceConfigRequired installModes then (<["description" := description]> schema, true)
  else (list_to_map [("description", description);
                     ("anyOf", JArr [JObj {["type" := JStr "null"]}; JObj schema])], false).

(** func buildBundleConfigSchema(installModes) (map, error); [base] is what
    getBundleConfigSchemaMap made of the embedded schema. *)
Definition buildBundleConfigSchema (base : result Object) (installModes : list InstallMode) : result Object :=
  match base with
  | inl err => inl (EWrap "failed to get base bundle config schema: " err "")
  | inr baseSchema =>
      match as_object (baseSchema !! "properties") with
      | None => inl (ENew "base schema missing properties")
      | Some properties =>
          if isWatchNamespaceConfigurable installModes then
            let '(watchNSProperty, isRequired) := buildWatchNamespaceProperty installModes in
            let schema := <["properties" := JObj (<[watchNamespaceConfigKey := JObj watchNSProperty]> properties)]> baseSchema in
            inr (if isRequired : bool then addToRequired schema watchNamespaceConfigKey
                 else removeFromRequired schema watchNamespaceConfigKey)
          else
            inr (removeFromRequired (<["properties" := JObj (delete watchNamespaceConfigKey properties)]> baseSchema) watchNamespaceConfigKey)
      end
  end.

(** func (rv1 RegistryV1) GetConfigSchema() (map, error), with the embedded
    schema file and json.Unmarshal of it as [unmarshalled]. *)
Definition getBundleConfigSchemaMap (unmarshalled : result Object) : result Object :=
  match unmarshalled with
  | inl err => inl (EWrap "failed to unmarshal bundle config schema: " err "")
  | inr m => inr m
  end.

Definition GetConfigSchema (unmarshalled : result Object) (rv1 : RegistryV1) : result Object :=
  buildBundleConfigSchema (getBundleConfigSchemaMap unmarshalled) (csv_InstallModes (rv_CSV rv1)).

(** ** Errors of the libraries (config.go) *)

(** kind.Required and the other kinds of jsonschema's errors *)
Inductive schema_kind :=
| KRequired | KAdditionalProperties | KType | KFormat | KAnyOf
| KMaxLength (got want : Z) | KMinLength (got want : Z) | KPattern (want : string) | KUnhandled.

(** jsonschema.OutputUnit, with the error's kind and text, and ValidationError,
    with its BasicOutput *)
Record OutputUnit := mkOutputUnit { ou_Error : option (schema_kind * string); ou_InstanceLocation : string }.
Record ValidationError := mkValidationError { ve_Errors : option (list OutputUnit); ve_Text : string }.

(** strings.Index up to a character *)
Fixpoint cut (c : ascii) (s : string) : option (string * string) :=
  match s with
  | EmptyString => None
  | String d s' =>
      if bool_decide (d = c) then Some ("", s')
      else match cut c s' with Some (a, b) => Some (String d a, b) | None => None end
  end.

(** func extractFieldNameFromMessage(errOutput) string *)
Definition extractFieldNameFromMessage (msg : string) : string :=
  match cut "'" msg with
  | Some (_, remaining) => match cut "'" remaining with Some (field, _) => field | None => "" end
  | None => ""
  end.

(** func buildFieldPath(location) string *)
Definition buildFieldPath (location : string) : string :=
  if bool_decide (location = "") || bool_decide (location = "/") then ""
  else replace_char "/" "." (match location with String "/" path => path | _ => location end).

(** func formatSingleError(errUnit) string *)
Definition formatSingleError (errUnit : OutputUnit) : string :=
  match ou_Error errUnit with
  | None => ""
  | Some (k, msg) =>
      let fieldPath := buildFieldPath (ou_InstanceLocation errUnit) in
      let some := negb (bool_decide (fieldPath = "")) in
      match k with
      | KRequired =>
          let fieldName := extractFieldNameFromMessage msg in
          if bool_decide (fieldName = "") then "required field is missing" else "required field " +:+ fmt_q fieldName +:+ " is missing"
      | KAdditionalProperties =>
          let fieldName := extractFieldNameFromMessage msg in
          if bool_decide (fieldName = "") then "unknown field" else "unknown field " +:+ fmt_q fieldName
      | KType =>
          if some then
            if strings_Contains msg "got null" then "required field " +:+ fmt_q fieldPath +:+ " is missing"
            else "invalid type for field " +:+ fmt_q fieldPath +:+ ": " +:+ msg
          else "invalid type: " +:+ msg
      | KFormat => if some then "invalid format for field " +:+ fmt_q fieldPath +:+ ": " +:+ msg else "invalid format: " +:+ msg
      | KAnyOf => if some then "invalid value for field " +:+ fmt_q fieldPath else "invalid value"
      | KMaxLength got want =>
          if some then "field " +:+ fmt_q fieldPath +:+ " must have maximum length of " +:+ fmt_d want +:+ " (len=" +:+ fmt_d got +:+ ")" else msg
      | KMinLength got want =>
          if some then "field " +:+ fmt_q fieldPath +:+ " must have minimum length of " +:+ fmt_d want +:+ " (len=" +:+ fmt_d got +:+ ")" else msg
      | KPattern want => if some then "field " +:+ fmt_q fieldPath +:+ " must match pattern " +:+ fmt_q want else msg
      | KUnhandled => msg
      end
  end.

(** func formatSchemaError(err) error: of an error that is no ValidationError,
    and of one that is *)
Definition formatSchemaError (err : error + ValidationError) : error :=
  match err with
  | inl err => err
  | inr ve =>
      match ve_Errors ve with
      | None | Some [] => ENew (ve_Text ve)
      | Some units =>
          match List.filter (fun m => negb (bool_decide (m = ""))) (map formatSingleError units) with
          | [] => EWrap "invalid configuration: " (ENew (ve_Text ve)) ""
          | [m] => ENew m
          | ms => ENew ("multiple errors found:" +:+ nl +:+ "  - " +:+ strings_Join ms (nl +:+ "  - "))
          end
      end
  end.

(** An error of yaml.Unmarshal: one with a json.UnmarshalTypeError in its
    chain (its field, the type wanted and the value found), or another. *)
Inductive unmarshal_error :=
| UnmarshalTypeError (field type value : string)
| OtherUnmarshalError (e : error).

(** The innermost error of a chain. *)
Fixpoint core_error (e : error) : error :=
  match e with
  | EWrap _ e' _ | ETerminal e' | EReason _ e' => core_error e'
  | ENew _ | EApi _ _ | EJoin _ => e
  end.

(** func formatUnmarshalError(err) error *)
Definition formatUnmarshalError (err : unmarshal_error) : error :=
  match err with
  | UnmarshalTypeError field type value =>
      if bool_decide (field = "") then ENew "input is not a valid JSON object"
      else ENew ("invalid value type for field " +:+ fmt_q field +:+ ": expected " +:+ fmt_q type +:+ " but got " +:+ fmt_q value)
  | OtherUnmarshalError e => ENew (strings_TrimSpace (default "" (last (strings_Split ":" (Error (core_error e))))))
  end.

(** ** Checking and reading a configuration *)

(** The formats the code registers: what each makes of a value. *)
Definition Formats : Type := string -> option (json -> option error).

Definition own_namespace_format (installNamespace : string) (value : json) : option error :=
  if bool_decide (installNamespace = "") then None
  else match value with
       | JStr str =>
           if negb (bool_decide (str = installNamespace)) then
             Some (ENew ("invalid value " +:+ fmt_q str +:+ ": must be " +:+ fmt_q installNamespace +:+
               " (the namespace where the operator is installed) because this operator only supports OwnNamespace install mode"))
           else None
       | _ => Some (ENew "value must be a string")
       end.

Definition single_namespace_format (installNamespace : string) (value : json) : option error :=
  if bool_decide (installNamespace = "") then None
  else match value with
       | JStr str =>
           if bool_decide (str = installNamespace) then
             Some (ENew ("invalid value " +:+ fmt_q str +:+ ": must be different from " +:+ fmt_q installNamespace +:+
               " (the install namespace) because this operator uses SingleNamespace install mode to watch a different namespace"))
           else None
       | _ => Some (ENew "value must be a string")
       end.

Definition install_formats (installNamespace : string) : Formats := fun f =>
  if bool_decide (f = FormatOwnNamespaceInstallMode) then Some (own_namespace_format installNamespace)
  else if bool_decide (f = FormatSingleNamespaceInstallMode) then Some (single_namespace_format installNamespace)
  else None.

(** What the libraries do: yaml.Unmarshal into an interface and into a map
    (nil for null), loading and compiling a schema, validating a value, and
    json.Marshal and Unmarshal of a deployment configuration. *)
Record ConfigEnv := mkConfigEnv {
  fe_Unmarshal : string -> unmarshal_error + json;
  fe_Unmarshal_map : string -> unmarshal_error + option Object;
  fe_AddResource : Object -> option error;
  fe_Compile : Object -> Formats -> option error;
  fe_Validate : Object -> Formats -> json -> option (error + ValidationError);
  fe_Marshal : json -> result string;
  fe_Unmarshal_deployment : string -> result DeploymentConfig;
  fe_Sprint : json -> string;               (* the %v verb of another value *)
}.

Section Config.
Context (E : ConfigEnv).

(** func validateConfigWithSchema(configBytes, schema, installNamespace) error *)
Definition validateConfigWithSchema (configBytes : string) (schema : Object) (installNamespace : string) : option error :=
  match fe_Unmarshal E configBytes with
  | inl err => Some (formatUnmarshalError err)
  | inr configData =>
      match fe_AddResource E schema with
      | Some err => Some (EWrap "failed to load schema: " err "")
      | None =>
          match fe_Compile E schema (install_formats installNamespace) with
          | Some err => Some (EWrap "failed to compile schema: " err "")
          | None =>
              match fe_Validate E schema (install_formats installNamespace) configData with
              | Some err => Some (formatSchemaError err)
              | None => None
              end
          end
      end
  end.

(** type Config map[string]any, which may be nil *)
Definition Config : Type := option Object.

(** func UnmarshalConfig(bytes, schema, installNamespace) (_, error) *)
Definition UnmarshalConfig (bytes : option string) (schema : option Object) (installNamespace : string) : result Config :=
  let bytes := default "{}" bytes in
  match match schema with Some s => validateConfigWithSchema bytes s installNamespace | None => None end with
  | Some err => inl (EWrap "invalid configuration: " err "")
  | None =>
      match fe_Unmarshal_map E bytes with
      | inl err => inl (EWrap "error unmarshalling configuration: " (formatUnmarshalError err) "")
      | inr configData => inr configData
      end
  end.

(** func (c Config) GetWatchNamespace() *)
Definition GetWatchNamespace (c : Config) : option string :=
  match c with
  | None => None
  | Some m =>
      match m !! "watchNamespace" with
      | None | Some JNull => None
      | Some (JStr s) => Some s
      | Some v => Some (fe_Sprint E v)
      end
  end.

(** func (c Config) GetDeploymentConfig() (_, error) *)
Definition GetDeploymentConfig (c : Config) : result (option DeploymentConfig) :=
  match c with
  | None => inr None
  | Some m =>
      match m !! "deploymentConfig" with
      | None | Some JNull => inr None
      | Some val =>
          match fe_Marshal E val with
          | inl err => inl (EWrap "failed to marshal deploymentConfig: " err "")
          | inr data =>
              match fe_Unmarshal_deployment E data with
              | inl err => inl (EWrap "failed to unmarshal deploymentConfig: " err "")
              | inr dc => inr (Some dc)
              end
          end
      end
  end.
End Config.
