(* ===== verification/Source.v ===== *)
(** * Loading a bundle

    src/internal/operator-controller/rukpak/bundle/source/source.go: reading a
    registry+v1 bundle from the file system of its image.

    The file system is what its functions return: the files' contents, and the
    calls fs.WalkDir makes for a directory if none of them stops it.  Parsing
    is by libraries and a parameter. *)

From Stdlib Require Import Ascii.
From S2P Require Import Prelude GoErrors ApiTypes Phase Rbac Bundle.

(** A call of WalkDir: the path, whether it is a directory, and an error. *)
Record WalkCall := mkWalkCall { wk_path : string; wk_IsDir : bool; wk_err : option error }.

(** property.Property: its type and its value *)
Record Property := mkProperty { prop_Type : string; prop_Value : json }.

(** A bundle's file system, and what the libraries make of its files: YAML of the
    two metadata files, the objects of a manifest stream (each with the error the
    visitor is called with), their conversion, and JSON of properties. *)
Record BundleFS := mkBundleFS {
  bf_ReadFile : string -> result string;
  bf_Open : string -> option error;
  bf_WalkDir : string -> list WalkCall;
}.

Record SourceEnv := mkSourceEnv {
  so_package_name : string -> result string;            (* annotations.yaml: the package name *)
  so_properties : string -> result (list Property);     (* properties.yaml *)
  so_result : BundleFS -> string -> option error;       (* result.Err() of a manifest file *)
  so_objects : BundleFS -> string -> list (Unstructured * option error);
  so_to_csv : Unstructured -> result ClusterServiceVersion;
  so_to_crd : Unstructured -> result CustomResourceDefinition;
  so_Unmarshal_properties : string -> result (list Property);
  so_Marshal_properties : list Property -> result string;
}.

Definition PropertyOLMProperties : string := "olm.properties".
Definition manifestsDir : string := "manifests".
Definition annotations_path : string := "metadata/annotations.yaml".
Definition properties_path : string := "metadata/properties.yaml".

(** The zero value of v1alpha1.ClusterServiceVersion. *)
Definition empty_csv : ClusterServiceVersion := mkCSV "" ∅ [] [] [] [] [] [] [].

Section Source.
Context `{UA : !UnstructuredAPI} (E : SourceEnv).

(** The visitor of a manifest's objects: what the bundle becomes, and whether a
    cluster service version was seen. *)
Definition visit_object (st : RegistryV1 * bool) (info : Unstructured * option error) : result (RegistryV1 * bool) :=
  let '(reg, foundCSV) := st in
  let '(obj, err) := info in
  match err with
  | Some err => inl err
  | None =>
      let kind := gvk_Kind (u_GVK obj) in
      if bool_decide (kind = "ClusterServiceVersion") then
        match so_to_csv E obj with
        | inl err => inl err
        | inr csv => inr (mkRegistryV1 (rv_PackageName reg) csv (rv_CRDs reg) (rv_Others reg), true)
        end
      else if bool_decide (kind = "CustomResourceDefinition") then
        match so_to_crd E obj with
        | inl err => inl err
        | inr crd => inr (mkRegistryV1 (rv_PackageName reg) (rv_CSV reg) (rv_CRDs reg ++ [crd]) (rv_Others reg), foundCSV)
        end
      else inr (mkRegistryV1 (rv_PackageName reg) (rv_CSV reg) (rv_CRDs reg) (rv_Others reg ++ [obj]), foundCSV)
  end.

(** A loop that stops at the first error. *)
Fixpoint until_error {A B} (f : B -> A -> result B) (st : B) (l : list A) : result B :=
  match l with
  | [] => inr st
  | x :: l' => match f st x with inl err => inl err | inr st => until_error f st l' end
  end.

(** The function WalkDir calls. *)
Definition walk_manifest (FS : BundleFS) (st : RegistryV1 * bool) (c : WalkCall) : result (RegistryV1 * bool) :=
  match wk_err c with
  | Some err => inl err
  | None =>
      if wk_IsDir c then
        if bool_decide (wk_path c = manifestsDir) then inr st
        else inl (ENew ("subdirectories are not allowed within the " +:+ fmt_q manifestsDir +:+
               " directory of the bundle image filesystem: found " +:+ fmt_q (wk_path c)))
      else
        match bf_Open FS (wk_path c) with
        | Some err => inl err
        | None =>
            match so_result E FS (wk_path c) with
            | Some err => inl err
            | None =>
                match until_error visit_object st (so_objects E FS (wk_path c)) with
                | inl err => inl (ENew ("error parsing objects in " +:+ fmt_q (wk_path c) +:+ ": " +:+ Error err))
                | inr st => inr st
                end
            end
        end
  end.

(** func copyMetadataPropertiesToCSV(csv, fsys) error: the annotations the
    properties file leaves, or the error. *)
Definition copyMetadataPropertiesToCSV (csv : ClusterServiceVersion) (fsys : BundleFS) : result ClusterServiceVersion :=
  let existing :=
    match csv_Annotations csv !! PropertyOLMProperties with
    | None => inr []
    | Some text =>
        match so_Unmarshal_properties E text with
        | inl err => inl (EWrap "failed to unmarshal csv.metadata.annotations['olm.properties']: " err "")
        | inr ps => inr ps
        end
    end in
  match existing with
  | inl err => inl err
  | inr allProperties =>
      let read := bf_ReadFile fsys properties_path in
      match match read with inl err => if has_kind KNotExist err then None else Some err | inr _ => None end with
      | Some err => inl (EWrap "failed to read properties.yaml file: " err "")
      | None =>
          let text := match read with inr text => text | inl _ => "" end in
          if bool_decide (text = "") then inr csv
          else
            match so_properties E text with
            | inl err => inl (EWrap "failed to unmarshal metadata/properties.yaml: " err "")
            | inr metadataProperties =>
                match so_Marshal_properties E (allProperties ++ metadataProperties) with
                | inl err => inl (EWrap "failed to marshal registry+v1 properties to json: " err "")
                | inr json =>
                    inr (mkCSV (csv_Name csv) (<[PropertyOLMProperties := json]> (csv_Annotations csv)) (csv_InstallModes csv)
                           (csv_DeploymentSpecs csv) (csv_Permissions csv) (csv_ClusterPermissions csv) (csv_WebhookDefinitions csv)
                           (csv_OwnedCRDs csv) (csv_OwnedAPIServices csv))
                end
            end
      end
  end.

(** func (f fsBundleSource) GetBundle() (bundle.RegistryV1, error) *)
Definition GetBundle (FS : BundleFS) : result RegistryV1 :=
  match bf_ReadFile FS annotations_path with
  | inl err => inl err
  | inr data =>
      match so_package_name E data with
      | inl err => inl err
      | inr packageName =>
          match until_error (walk_manifest FS) (mkRegistryV1 packageName empty_csv [] [], false) (bf_WalkDir FS manifestsDir) with
          | inl err => inl err
          | inr (reg, foundCSV) =>
              if negb foundCSV then inl (ENew ("no ClusterServiceVersion found in " +:+ fmt_q manifestsDir))
              else
                match copyMetadataPropertiesToCSV (rv_CSV reg) FS with
                | inl err => inl err
                | inr csv => inr (mkRegistryV1 (rv_PackageName reg) csv (rv_CRDs reg) (rv_Others reg))
                end
          end
      end
  end.

(** func getBundleAnnotations(bundleFS) (map, error) of applier/provider.go *)
Definition getBundleAnnotations (bundleFS : BundleFS) : result (gmap string string) :=
  match GetBundle bundleFS with
  | inl err => inl err
  | inr rv1 => inr (csv_Annotations (rv_CSV rv1))
  end.
End Source.
