(* ===== verification/Provider.v ===== *)
(** * The manifest provider

    src/internal/operator-controller/applier/provider.go: from the file system of
    a bundle and a ClusterExtension to the manifests to apply, or to a Helm
    chart of them. *)

From Stdlib Require Import Ascii.
From S2P Require Import Prelude GoErrors ApiTypes Phase Rbac Bundle DeployConfig Validate Generate Render BundleConfig Source.

(** type RegistryV1ManifestProvider struct *)
Record RegistryV1ManifestProvider := mkProvider {
  mp_BundleRenderer : BundleRenderer;
  mp_CertificateProvider : option CertificateProvider;
  mp_IsWebhookSupportEnabled : bool;
  mp_IsSingleOwnNamespaceEnabled : bool;
  mp_IsDeploymentConfigEnabled : bool;
}.

(** func extensionConfigBytes(ext) []byte *)
Definition extensionConfigBytes (ext : ClusterExtension) : option string :=
  match es_Config (ext_Spec ext) with
  | Some c => if bool_decide (cfg_ConfigType c = ClusterExtensionConfigTypeInline) then cfg_Inline c else None
  | None => None
  end.

Section Provider.
Context `{UA : !UnstructuredAPI} (CE : ConfigEnv) (SE : SourceEnv).
(** What json.Unmarshal makes of the embedded schema; encoding/json and SHA-224
    for the default unique names. *)
Context (embedded_schema : result Object).
Context (json_Encode : StrategyPermission -> result (list Byte.byte)) (sha224 : list Byte.byte -> N).
Context (r : RegistryV1ManifestProvider).

(** The schema without deploymentConfig, if the feature is disabled. *)
Definition gated_schema (schema : Object) : Object :=
  if mp_IsDeploymentConfigEnabled r then schema
  else match as_object (schema !! "properties") with
       | Some props => <["properties" := JObj (delete "deploymentConfig" props)]> schema
       | None => schema
       end.

Definition invalid_configuration (pre : string) (err : error) : error :=
  NewTerminalError ReasonInvalidConfiguration (EWrap pre err "").

(** func (r RegistryV1ManifestProvider) extractBundleConfigOptions(rv1, ext) ([]render.Option, error) *)
Definition extractBundleConfigOptions (rv1 : RegistryV1) (ext : ClusterExtension) : result (list (option Option)) :=
  match GetConfigSchema embedded_schema rv1 with
  | inl err => inl (EWrap "error getting configuration schema: " err "")
  | inr schema =>
      match UnmarshalConfig CE (extensionConfigBytes ext) (Some (gated_schema schema)) (es_Namespace (ext_Spec ext)) with
      | inl err => inl (invalid_configuration "invalid ClusterExtension configuration: " err)
      | inr bundleConfig =>
          let opts := match GetWatchNamespace CE bundleConfig with
                      | Some watchNS => [Some (WithTargetNamespaces [watchNS])]
                      | None => []
                      end in
          if mp_IsDeploymentConfigEnabled r then
            match GetDeploymentConfig CE bundleConfig with
            | inl err => inl (invalid_configuration "invalid deploymentConfig: " err)
            | inr (Some deploymentConfig) => inr (opts ++ [Some (WithDeploymentConfig (Some deploymentConfig))])
            | inr None => inr opts
            end
          else inr opts
      end
  end.

(** The checks of Get on a bundle. *)
Definition unsupported_bundle (rv1 : RegistryV1) : option error :=
  let installModes := csv_InstallModes (rv_CSV rv1) in
  if negb (is_nil (csv_OwnedAPIServices (rv_CSV rv1))) then
    Some (ENew "unsupported bundle: apiServiceDefintions are not supported")
  else if negb (is_nil (csv_WebhookDefinitions (rv_CSV rv1))) && negb (mp_IsWebhookSupportEnabled r) then
    Some (ENew "unsupported bundle: webhookDefinitions are not supported")
  else if negb (is_nil (csv_WebhookDefinitions (rv_CSV rv1))) && match mp_CertificateProvider r with None => true | Some _ => false end then
    Some (ENew "unsupported bundle: webhookDefinitions are not supported: certificate provider is nil")
  else if negb (mp_IsSingleOwnNamespaceEnabled r) && negb (has_mode installModes InstallModeTypeAllNamespaces) then
    Some (ENew "unsupported bundle: bundle does not support AllNamespaces install mode")
  else if negb (has_mode installModes InstallModeTypeAllNamespaces || has_mode installModes InstallModeTypeSingleNamespace ||
                has_mode installModes InstallModeTypeOwnNamespace) then
    Some (ENew "unsupported bundle: bundle must support at least one of [AllNamespaces SingleNamespace OwnNamespace] install modes")
  else None.

(** The options Get renders with. *)
Definition provider_options (rv1 : RegistryV1) (ext : ClusterExtension) : result (list (option Option)) :=
  let opts := [Some (WithCertificateProvider (mp_CertificateProvider r))] in
  if mp_IsSingleOwnNamespaceEnabled r || bool_decide (is_Some (es_Config (ext_Spec ext))) then
    match extractBundleConfigOptions rv1 ext with
    | inl err => inl err
    | inr configOpts => inr (opts ++ configOpts)
    end
  else inr opts.

(** func (r RegistryV1ManifestProvider) Get(bundleFS, ext) ([]client.Object, error) *)
Definition Get (bundleFS : BundleFS) (ext : ClusterExtension) : GE (list client_object) :=
  match GetBundle SE bundleFS with
  | inl err => fail err
  | inr rv1 =>
      match unsupported_bundle rv1 with
      | Some err => fail err
      | None =>
          match provider_options rv1 ext with
          | inl err => fail err
          | inr opts => Render json_Encode sha224 (mp_BundleRenderer r) rv1 (es_Namespace (ext_Spec ext)) opts
          end
      end
  end.
End Provider.

(** ** Helm charts *)

(** chart.File, chart.Chart *)
Record ChartFile := mkChartFile { cf_Name : string; cf_Data : string }.
Record Chart := mkChart { ch_Annotations : gmap string string; ch_Files : list ChartFile; ch_Templates : list ChartFile }.

Section HelmChart.
Context `{UA : !UnstructuredAPI} (SE : SourceEnv).
(** json.Marshal of an object; the first eight bytes of SHA-256, in hexadecimal. *)
Context (Marshal : client_object -> result string) (short_sha256 : string -> string).
(** The ManifestProvider of the chart provider. *)
Context (ManifestProvider_Get : BundleFS -> ClusterExtension -> GE (list client_object)).

Definition chart_object (obj : client_object) : GE (ChartFile * ChartFile) :=
  match Marshal obj with
  | inl err => fail err
  | inr jsonData =>
      let name := "object-" +:+ short_sha256 jsonData +:+ ".json" in
      let dq := String (ascii_of_nat 34) EmptyString in
      ok (mkChartFile name jsonData, mkChartFile name ("{{.Files.Get " +:+ dq +:+ name +:+ dq +:+ "}}"))
  end.

(** func (r RegistryV1HelmChartProvider) Get(bundleFS, ext) (_, error) *)
Definition HelmChart_Get (bundleFS : BundleFS) (ext : ClusterExtension) : GE Chart :=
  do? objs := ManifestProvider_Get bundleFS ext in
  match GetBundle SE bundleFS with
  | inl err => fail err
  | inr rv1 =>
      do? files := ge_map chart_object objs in
      ok (mkChart (csv_Annotations (rv_CSV rv1)) (map fst files) (map snd files))
  end.
End HelmChart.
