(* ===== verification/ProviderProps.v ===== *)
(** * Configurations that pass are configurations that render

    The composition of BundleConfig.v, Render.v and Provider.v: what a schema
    lets a user say about the namespace to watch is what the renderer admits for
    the bundle's install modes, so that the manifest provider fails exactly for
    the bundles and configurations it should. *)

From Stdlib Require Import Ascii.
From S2P Require Import Prelude GoErrors ApiTypes Phase ObjectInstances Rbac Bundle DeployConfig Validate ValidateProps Generate CertProviders GenerateProps Render NameProps RenderProps RenderTotal RenderSamples BundleConfig Source Provider.

(** ** Loading *)

Lemma concat_map_singleton {A B} (f : A -> B) l : concat (map (fun x => [f x]) l) = map f l.
Proof. induction l as [|x l IH]; [done|]. cbn. by rewrite IH. Qed.

Lemma last_snoc_filter {A} (f : A -> bool) l x :
  last (List.filter f l ++ List.filter f [x]) = if f x then Some x else last (List.filter f l).
Proof. cbn. destruct (f x); [by rewrite last_snoc|by rewrite app_nil_r]. Qed.

Section Loading.
Context {UA : UnstructuredAPI} (E : SourceEnv) (FS : BundleFS).

Definition is_csv (u : Unstructured) : bool := bool_decide (gvk_Kind (u_GVK u) = "ClusterServiceVersion").
Definition is_crd (u : Unstructured) : bool := bool_decide (gvk_Kind (u_GVK u) = "CustomResourceDefinition").
Definition is_other (u : Unstructured) : bool := negb (is_csv u) && negb (is_crd u).

(** The objects of the files of the manifests directory, in order. *)
Definition call_objects (c : WalkCall) : list Unstructured := if wk_IsDir c then [] else map fst (so_objects E FS (wk_path c)).
Definition visited : list Unstructured := concat (map call_objects (bf_WalkDir FS manifestsDir)).

(** What the bundle holds after some objects were visited. *)
Definition holds (packageName : string) (us : list Unstructured) (st : RegistryV1 * bool) : Prop :=
  rv_PackageName st.1 = packageName /\ rv_Others st.1 = List.filter is_other us /\
  Forall2 (fun u crd => so_to_crd E u = inr crd) (List.filter is_crd us) (rv_CRDs st.1) /\
  match last (List.filter is_csv us) with
  | Some u => st.2 = true /\ so_to_csv E u = inr (rv_CSV st.1)
  | None => st.2 = false
  end.

Lemma until_error_holds {A} (f : RegistryV1 * bool -> A -> result (RegistryV1 * bool)) (objs : A -> list Unstructured) pkg l :
  (forall us st x st', holds pkg us st -> f st x = inr st' -> holds pkg (us ++ objs x) st') ->
  forall us st st', holds pkg us st -> until_error f st l = inr st' -> holds pkg (us ++ concat (map objs l)) st'.
Proof.
  intros Hf. induction l as [|x l IH]; intros us st st' H; cbn [until_error map concat].
  - intros [= <-]. by rewrite app_nil_r.
  - destruct (f st x) as [|st1] eqn:E1; [done|]. intros H1. rewrite app_assoc. eapply IH; [|exact H1]. by eapply Hf.
Qed.

Lemma visit_holds pkg us st info st' : holds pkg us st -> visit_object E st info = inr st' -> holds pkg (us ++ [info.1]) st'.
Proof.
  destruct st as [reg found], info as [u [err|]]; [done|]. unfold holds, visit_object. cbn [fst snd]. rewrite !List.filter_app, last_snoc_filter.
  cbn [List.filter]. unfold is_other, is_csv, is_crd. intros (Hp & Ho & Hc & Hl).
  destruct (decide (gvk_Kind (u_GVK u) = "ClusterServiceVersion")) as [Hk|Hk].
  - rewrite Hk. change (bool_decide ("ClusterServiceVersion" = "ClusterServiceVersion")) with true.
    change (bool_decide ("ClusterServiceVersion" = "CustomResourceDefinition")) with false. cbn. destruct (so_to_csv E u) as [|csv]; [done|]. intros [= <-]. cbn. by rewrite !app_nil_r.
  - rewrite !(bool_decide_false _ Hk). destruct (decide (gvk_Kind (u_GVK u) = "CustomResourceDefinition")) as [Hd|Hd].
    + rewrite Hd. change (bool_decide ("CustomResourceDefinition" = "CustomResourceDefinition")) with true. cbn. destruct (so_to_crd E u) as [|crd] eqn:Ec; [done|]. intros [= <-]. cbn. rewrite app_nil_r.
      split; [done|]. split; [done|]. split; [|done]. apply Forall2_app; [done|]. by constructor.
    + rewrite !(bool_decide_false _ Hd). cbn. intros [= <-]. cbn. rewrite app_nil_r, Ho. done.
Qed.

Lemma walk_holds pkg us st c st' : holds pkg us st -> walk_manifest E FS st c = inr st' -> holds pkg (us ++ call_objects c) st'.
Proof.
  unfold walk_manifest, call_objects. destruct (wk_err c); [done|]. intros H. destruct (wk_IsDir c).
  - case_bool_decide; [|done]. intros [= <-]. by rewrite app_nil_r.
  - destruct (bf_Open FS _); [done|]. destruct (so_result E FS _); [done|]. destruct (until_error _ st _) as [|st1] eqn:E1; [done|].
    intros [= <-]. rewrite <- (concat_map_singleton fst). by apply (until_error_holds (visit_object E) (fun i => [i.1]) pkg _ (visit_holds pkg) us st).
Qed.

(** A loaded bundle holds all of its manifests: each object of the manifests
    directory is in it, in order, as a definition or another object, and its
    cluster service version is the last one found, with the properties of the
    metadata file added to its annotation. *)
Theorem loaded_bundle rv1 data packageName
    (Hd : bf_ReadFile FS annotations_path = inr data) (Hp : so_package_name E data = inr packageName)
    (Hg : GetBundle E FS = inr rv1) :
  rv_PackageName rv1 = packageName /\ rv_Others rv1 = List.filter is_other visited /\
  Forall2 (fun u crd => so_to_crd E u = inr crd) (List.filter is_crd visited) (rv_CRDs rv1) /\
  exists u csv, last (List.filter is_csv visited) = Some u /\ so_to_csv E u = inr csv /\
    copyMetadataPropertiesToCSV E csv FS = inr (rv_CSV rv1).
Proof.
  unfold GetBundle in Hg. rewrite Hd, Hp in Hg. destruct (until_error _ _ _) as [|[reg found]] eqn:Hu; [done|].
  apply (until_error_holds (walk_manifest E FS) call_objects packageName _ (walk_holds packageName) []) in Hu;
    [|by split; [done|split; [done|split; [constructor|done]]]].
  cbn [app] in Hu. fold visited in Hu. destruct Hu as (Hpk & Ho & Hc & Hl). cbn [fst snd] in *. destruct found; [|done]. cbn in Hg.
  destruct (copyMetadataPropertiesToCSV E (rv_CSV reg) FS) as [|csv] eqn:Hcsv; [done|]. injection Hg as <-. cbn.
  split; [done|]. split; [done|]. split; [done|]. destruct (last (List.filter is_csv visited)) as [u|]; [|done].
  exists u, (rv_CSV reg). by destruct Hl.
Qed.
End Loading.

(** ** What the schema library promises

    The keywords of JSON Schema (draft 7) the code's schemas use.  A schema with
    a [$ref] is the schema referred to, so none of the laws holds of it. *)
Class SchemaLaws (E : ConfigEnv) := {
  accepts : Object -> Formats -> json -> Prop;
  validated_accepts : forall S F v, fe_Validate E S F v = None -> accepts S F v;
  type_object : forall S F v, S !! "$ref" = None -> S !! "type" = Some (JStr "object") -> accepts S F v -> exists m, v = JObj m;
  type_string : forall S F v, S !! "$ref" = None -> S !! "type" = Some (JStr "string") -> accepts S F v -> exists s, v = JStr s;
  type_null : forall S F v, S !! "$ref" = None -> S !! "type" = Some (JStr "null") -> accepts S F v -> v = JNull;
  min_length : forall S F s n, S !! "$ref" = None -> S !! "minLength" = Some (JNum n) -> 0 < n -> accepts S F (JStr s) -> s <> "";
  format_checked : forall S F v f check, S !! "$ref" = None -> S !! "format" = Some (JStr f) -> F f = Some check -> accepts S F v ->
    check v = None;
  any_of : forall S F v l, S !! "$ref" = None -> S !! "anyOf" = Some (JArr l) -> accepts S F v ->
    exists s, JObj s ∈ l /\ accepts s F v;
  required_given : forall S F m l k, S !! "$ref" = None -> S !! "required" = Some (JArr l) -> accepts S F (JObj m) ->
    JStr k ∈ l -> is_Some (m !! k);
  properties_checked : forall S F m ps k s x, S !! "$ref" = None -> S !! "properties" = Some (JObj ps) -> accepts S F (JObj m) ->
    ps !! k = Some (JObj s) -> m !! k = Some x -> accepts s F x;
  nothing_else : forall S F m ps k, S !! "$ref" = None -> S !! "properties" = Some (JObj ps) -> S !! "patternProperties" = None ->
    S !! "additionalProperties" = Some (JBool false) -> accepts S F (JObj m) -> is_Some (m !! k) -> is_Some (ps !! k);
}.

(** Parsing into a map gives the object parsing gives. *)
Class YamlLaws (E : ConfigEnv) := {
  unmarshal_map : forall b m, fe_Unmarshal E b = inr (JObj m) -> fe_Unmarshal_map E b = inr (Some m);
}.

(** The embedded schema: an object with no properties but the listed ones. *)
Record base_schema (base : Object) : Prop := mkBaseSchema {
  bs_ref : base !! "$ref" = None;
  bs_type : base !! "type" = Some (JStr "object");
  bs_properties : exists ps, base !! "properties" = Some (JObj ps);
  bs_pattern : base !! "patternProperties" = None;
  bs_additional : base !! "additionalProperties" = Some (JBool false);
}.

Lemma has_mode_supported rv1 t : has_mode (csv_InstallModes (rv_CSV rv1)) t = bool_decide (t ∈ supportedBundleInstallModes rv1).
Proof.
  unfold has_mode, supportedBundleInstallModes. apply bool_decide_ext. rewrite elem_of_list_to_set, list_elem_of_fmap.
  setoid_rewrite elem_filter. split.
  - intros H. exists (mkInstallMode t true). done.
  - intros ([t' b] & -> & H & Hb). cbn in *. by subst b.
Qed.

(** ** The schema of a bundle *)

Section Schema.
Context (base : Object) (Hbase : base_schema base) (r : RegistryV1ManifestProvider) (rv1 : RegistryV1) (schema : Object).
Hypothesis built : GetConfigSchema (inr base) rv1 = inr schema.
Notation modes := (csv_InstallModes (rv_CSV rv1)).

(** The keywords the schema keeps from the embedded one. *)
Lemma required_keeps s f k : k <> "required" -> addToRequired s f !! k = s !! k /\ removeFromRequired s f !! k = s !! k.
Proof.
  intros Hk. unfold addToRequired, removeFromRequired. destruct (as_array _) as [l|]; [|by rewrite lookup_insert_ne].
  split; [case_bool_decide; by rewrite ?lookup_insert_ne|]. case_match; by rewrite ?lookup_delete_ne, ?lookup_insert_ne.
Qed.

Lemma schema_shape :
  (forall k, k <> "required" -> k <> "properties" -> gated_schema r schema !! k = base !! k) /\
  exists ps, gated_schema r schema !! "properties" = Some (JObj ps) /\
    ps !! watchNamespaceConfigKey =
      if isWatchNamespaceConfigurable modes then Some (JObj (buildWatchNamespaceProperty modes).1) else None.
Proof.
  destruct (bs_properties _ Hbase) as [ps0 Hps0]. revert built. unfold GetConfigSchema, getBundleConfigSchemaMap, buildBundleConfigSchema.
  rewrite Hps0. cbn [as_object]. rewrite (surjective_pairing (buildWatchNamespaceProperty modes)).
  intros H.
  assert (Hs : (forall k, k <> "required" -> k <> "properties" -> schema !! k = base !! k) /\
     exists ps, schema !! "properties" = Some (JObj ps) /\
       ps !! watchNamespaceConfigKey = if isWatchNamespaceConfigurable modes then Some (JObj (buildWatchNamespaceProperty modes).1) else None).
  { destruct (isWatchNamespaceConfigurable modes).
    - set (w := (buildWatchNamespaceProperty modes).1) in *.
      assert (Heq : forall k, k <> "required" -> schema !! k = <["properties" := JObj (<[watchNamespaceConfigKey := JObj w]> ps0)]> base !! k)
        by (intros k Hk; destruct (buildWatchNamespaceProperty modes).2; injection H as <-; by destruct (required_keeps
              (<["properties" := JObj (<[watchNamespaceConfigKey := JObj w]> ps0)]> base) watchNamespaceConfigKey k Hk) as [? ?]).
      split; [intros k Hk Hk'; by rewrite Heq, lookup_insert_ne|]. exists (<[watchNamespaceConfigKey := JObj w]> ps0).
      rewrite Heq by done. by rewrite !lookup_insert_eq.
    - injection H as <-.
      assert (Heq : forall k, k <> "required" -> removeFromRequired (<["properties" := JObj (delete watchNamespaceConfigKey ps0)]> base)
          watchNamespaceConfigKey !! k = <["properties" := JObj (delete watchNamespaceConfigKey ps0)]> base !! k)
        by (intros k Hk; by apply required_keeps).
      split; [intros k Hk Hk'; by rewrite Heq, lookup_insert_ne|]. exists (delete watchNamespaceConfigKey ps0).
      rewrite Heq by done. by rewrite lookup_insert_eq, lookup_delete_eq. }
  destruct Hs as (Hk & ps & Hp & Hw). unfold gated_schema. destruct (mp_IsDeploymentConfigEnabled r); [split; [done|by exists ps]|].
  rewrite Hp. cbn [as_object]. split; [intros k Hk1 Hk2; rewrite lookup_insert_ne by done; by apply Hk|].
  exists (delete "deploymentConfig" ps). rewrite lookup_insert_eq. split; [done|]. by rewrite lookup_delete_ne.
Qed.

(** When the namespace is required, the schema says so. *)
Lemma schema_required :
  isWatchNamespaceConfigRequired modes = true ->
  exists l, gated_schema r schema !! "required" = Some (JArr l) /\ JStr watchNamespaceConfigKey ∈ l.
Proof.
  intros Hreq. destruct (bs_properties _ Hbase) as [ps0 Hps0]. revert built.
  unfold GetConfigSchema, getBundleConfigSchemaMap, buildBundleConfigSchema. rewrite Hps0. cbn [as_object].
  assert (isWatchNamespaceConfigurable modes = true) as -> by (unfold isWatchNamespaceConfigRequired in Hreq; by apply andb_true_iff in Hreq as [? _]).
  unfold buildWatchNamespaceProperty. rewrite Hreq. intros [= <-].
  set (s := <["properties" := _]> base).
  assert (Hs : exists l, addToRequired s watchNamespaceConfigKey !! "required" = Some (JArr l) /\ JStr watchNamespaceConfigKey ∈ l).
  { unfold addToRequired. destruct (s !! "required") as [[| | | |l|]|] eqn:El; cbn [as_array];
      try (eexists; split; [apply lookup_insert_eq|by apply list_elem_of_singleton]).
    case_bool_decide as Hin; [by exists l|]. eexists. split; [apply lookup_insert_eq|]. apply elem_of_app. right. by apply list_elem_of_singleton. }
  destruct Hs as (l & Hl & Hin). exists l. split; [|done]. unfold gated_schema.
  destruct (mp_IsDeploymentConfigEnabled r); [done|]. destruct (as_object _); [|done]. by rewrite lookup_insert_ne.
Qed.
End Schema.

(** ** What a configuration that passes says *)

Section Accepted.
Context {CE : ConfigEnv} {SL : SchemaLaws CE} {YL : YamlLaws CE}.
Context (base : Object) (Hbase : base_schema base) (r : RegistryV1ManifestProvider) (rv1 : RegistryV1) (ext : ClusterExtension).
Notation modes := (csv_InstallModes (rv_CSV rv1)).
Notation install := (es_Namespace (ext_Spec ext)).
Notation has := (has_mode modes).
Hypothesis install_known : install <> "".

(** The namespaces to watch that the install modes allow. *)
Definition watch_allowed (watch : option string) : Prop :=
  match watch with
  | None => has InstallModeTypeAllNamespaces = true
  | Some ns => ns <> "" /\ (has InstallModeTypeOwnNamespace || has InstallModeTypeSingleNamespace = true) /\
               (has InstallModeTypeSingleNamespace = false -> ns = install) /\
               (has InstallModeTypeOwnNamespace = false -> ns <> install)
  end.

Lemma watch_schema_lookup k :
  k <> "format" -> watchNamespaceSchema modes !! k =
  (list_to_map [("type", JStr "string"); ("minLength", JNum 1); ("maxLength", JNum namespaceNameMaxLength);
                ("pattern", JStr namespaceNamePattern)] : Object) !! k.
Proof. intros Hk. unfold watchNamespaceSchema. case_bool_decide; [done|]. by rewrite lookup_insert_ne. Qed.

Lemma watch_schema_format f :
  selectNamespaceFormat (has InstallModeTypeOwnNamespace) (has InstallModeTypeSingleNamespace) = f -> f <> "" ->
  watchNamespaceSchema modes !! "format" = Some (JStr f).
Proof. intros <- Hf. unfold watchNamespaceSchema. rewrite bool_decide_false by done. apply lookup_insert_eq. Qed.

(** A string the namespace's own schema accepts. *)
Lemma watch_schema_accepts S v :
  (forall k, k <> "description" -> S !! k = watchNamespaceSchema modes !! k) ->
  isWatchNamespaceConfigurable modes = true -> accepts S (install_formats install) v ->
  exists ns, v = JStr ns /\ watch_allowed (Some ns).
Proof.
  intros HS Hc Ha. assert (Href : S !! "$ref" = None) by (by rewrite HS, watch_schema_lookup).
  destruct (type_string S (install_formats install) v) as [ns ->]; [done|by rewrite HS, watch_schema_lookup|done|].
  exists ns. split; [done|]. split; [|split; [|split]].
  - apply (min_length S (install_formats install) ns 1); [done|by rewrite HS, watch_schema_lookup|done|done].
  - unfold isWatchNamespaceConfigurable in Hc. by rewrite orb_comm.
  - intros Hs. unfold isWatchNamespaceConfigurable in Hc. rewrite Hs in Hc. cbn in Hc.
    assert (Hf : S !! "format" = Some (JStr FormatOwnNamespaceInstallMode)).
    { rewrite HS by done. apply watch_schema_format; [|done]. by rewrite Hs, Hc. }
    pose proof (format_checked S (install_formats install) (JStr ns) _ (own_namespace_format install) Href Hf eq_refl Ha) as H.
    unfold own_namespace_format in H. rewrite bool_decide_false in H by done. by case_bool_decide.
  - intros Ho. unfold isWatchNamespaceConfigurable in Hc. rewrite Ho, orb_false_r in Hc.
    assert (Hf : S !! "format" = Some (JStr FormatSingleNamespaceInstallMode)).
    { rewrite HS by done. apply watch_schema_format; [|done]. by rewrite Hc, Ho. }
    pose proof (format_checked S (install_formats install) (JStr ns) _ (single_namespace_format install) Href Hf eq_refl Ha) as H.
    unfold single_namespace_format in H. rewrite bool_decide_false in H by done. by case_bool_decide.
Qed.

(** The value of watchNamespace that the schema built for it accepts. *)
Lemma watch_property_accepts v :
  isWatchNamespaceConfigurable modes = true ->
  accepts (buildWatchNamespaceProperty modes).1 (install_formats install) v ->
  (v = JNull /\ isWatchNamespaceConfigRequired modes = false) \/ exists ns, v = JStr ns /\ watch_allowed (Some ns).
Proof.
  intros Hc. unfold buildWatchNamespaceProperty. destruct (isWatchNamespaceConfigRequired modes) eqn:Hr; cbn [fst].
  - intros Ha. right. apply (watch_schema_accepts _ _ (fun k Hk => lookup_insert_ne _ _ _ _ (not_eq_sym Hk)) Hc Ha).
  - intros Ha. apply (any_of _ _ _ [JObj {["type" := JStr "null"]}; JObj (watchNamespaceSchema modes)]) in Ha as (s & Hs & Ha); [|done..].
    rewrite !elem_of_cons in Hs. destruct Hs as [[= ->]|[[= ->]|Hs]]; [left|right|by apply not_elem_of_nil in Hs].
    + split; [|done]. by apply type_null in Ha.
    + by apply (watch_schema_accepts (watchNamespaceSchema modes)).
Qed.

Lemma all_supported_unless_required :
  isWatchNamespaceConfigurable modes = true -> isWatchNamespaceConfigRequired modes = false -> has InstallModeTypeAllNamespaces = true.
Proof. unfold isWatchNamespaceConfigRequired. intros ->. cbn. apply negb_false_iff. Qed.

(** The bundle supports one of the three modes. *)
Hypothesis supported : has InstallModeTypeAllNamespaces || has InstallModeTypeSingleNamespace || has InstallModeTypeOwnNamespace = true.

Lemma accepted_watch schema bytes cfg :
  GetConfigSchema (inr base) rv1 = inr schema ->
  UnmarshalConfig CE bytes (Some (gated_schema r schema)) install = inr cfg ->
  watch_allowed (GetWatchNamespace CE cfg).
Proof.
  intros Hs. unfold UnmarshalConfig, validateConfigWithSchema. set (b := default "{}" bytes). set (S := gated_schema r schema).
  destruct (fe_Unmarshal CE b) as [?|v] eqn:Hb; [done|]. destruct (fe_AddResource CE S); [done|].
  destruct (fe_Compile CE S _); [done|]. destruct (fe_Validate CE S _ v) eqn:Hv; [done|]. apply validated_accepts in Hv.
  destruct (schema_shape base Hbase r rv1 schema Hs) as (Hk & ps & Hps & Hw). fold S in Hk, Hps.
  assert (Href : S !! "$ref" = None) by (rewrite Hk; [apply (bs_ref _ Hbase)|done..]).
  destruct (type_object S (install_formats install) v) as [m ->]; [done|rewrite Hk; [apply (bs_type _ Hbase)|done..]|done|].
  rewrite (unmarshal_map b m Hb). intros [= <-]. cbn [GetWatchNamespace].
  change "watchNamespace" with watchNamespaceConfigKey. destruct (isWatchNamespaceConfigurable modes) eqn:Hc.
  - destruct (m !! watchNamespaceConfigKey) as [x|] eqn:Hx.
    + assert (Ha : accepts (buildWatchNamespaceProperty modes).1 (install_formats install) x)
        by (eapply (properties_checked S); done).
      destruct (watch_property_accepts x Hc Ha) as [[-> Hreq]|(ns & -> & Hns)]; [|done]. by apply all_supported_unless_required.
    + destruct (isWatchNamespaceConfigRequired modes) eqn:Hreq; [|by apply all_supported_unless_required].
      destruct (schema_required base Hbase r rv1 schema Hs Hreq) as (l & Hl & Hin).
      destruct (required_given S _ m l watchNamespaceConfigKey Href Hl Hv Hin) as [? ?]. congruence.
  - destruct (m !! watchNamespaceConfigKey) as [x|] eqn:Hx.
    + assert (Hp : is_Some (ps !! watchNamespaceConfigKey)).
      { apply (nothing_else S (install_formats install) m); [done|done| | |done|by eexists].
        - rewrite Hk; [apply (bs_pattern _ Hbase)|done..].
        - rewrite Hk; [apply (bs_additional _ Hbase)|done..]. }
      rewrite Hw in Hp. by destruct Hp.
    + cbn. unfold isWatchNamespaceConfigurable in Hc. apply orb_false_iff in Hc as [Hc1 Hc2].
      by rewrite Hc1, Hc2, !orb_false_r in supported.
Qed.

(** A namespace the modes allow is a target they admit. *)
Lemma watch_admitted watch :
  watch_allowed watch ->
  targets_admitted (supportedBundleInstallModes rv1) install
    (match watch with Some ns => [ns] | None => defaultTargetNamespacesForBundle rv1 end).
Proof.
  clear - rv1 ext watch.
  assert (Hm : forall t, has t = true <-> t ∈ supportedBundleInstallModes rv1) by (intros t; rewrite has_mode_supported; apply bool_decide_eq_true).
  assert (Hset : forall x : string, (list_to_set [x] : gset string) = {[x]}) by (intros x; cbn; set_solver).
  destruct watch as [ns|]; cbn.
  - intros (Hne & Hone & Hs & Ho). unfold targets_admitted. rewrite Hset. destruct (decide (ns = install)) as [->|Hni].
    + right. left. split; [done|]. split; [done|]. apply Hm. destruct (has InstallModeTypeOwnNamespace) eqn:E; [done|]. by destruct Ho.
    + right. right. left. exists ns. split; [done|]. split; [done|]. split; [done|]. apply Hm.
      destruct (has InstallModeTypeSingleNamespace) eqn:E; [done|]. by destruct Hni; apply Hs.
  - intros Ha%Hm. unfold defaultTargetNamespacesForBundle. rewrite bool_decide_true by done. unfold targets_admitted. rewrite Hset. by left.
Qed.

(** ** The options *)

Context (json_Encode : StrategyPermission -> result (list Byte.byte)) (sha224 : list Byte.byte -> N).

Lemma provider_options_shape opts :
  provider_options CE (inr base) r rv1 ext = inr opts ->
  (mp_IsSingleOwnNamespaceEnabled r = false -> has InstallModeTypeAllNamespaces = true) ->
  exists watch config, watch_allowed watch /\
    render_options json_Encode sha224 rv1 install opts =
      mkOptions install (match watch with Some ns => [ns] | None => defaultTargetNamespacesForBundle rv1 end)
        (Some (DefaultUniqueNameGenerator json_Encode sha224)) (mp_CertificateProvider r) config.
Proof.
  unfold provider_options. intros H Hall.
  destruct (mp_IsSingleOwnNamespaceEnabled r || bool_decide (is_Some (es_Config (ext_Spec ext)))) eqn:Hc.
  - unfold extractBundleConfigOptions in H. destruct (GetConfigSchema (inr base) rv1) as [|schema] eqn:Hs; [done|].
    destruct (UnmarshalConfig CE _ _ _) as [|cfg] eqn:Hu; [done|]. pose proof (accepted_watch _ _ _ Hs Hu) as Hw.
    destruct (GetWatchNamespace CE cfg) as [ns|] eqn:Hns.
    + destruct (mp_IsDeploymentConfigEnabled r); [destruct (GetDeploymentConfig CE cfg) as [|[dc|]]; [done| |]|]; injection H as <-;
        by eexists (Some ns), _.
    + destruct (mp_IsDeploymentConfigEnabled r); [destruct (GetDeploymentConfig CE cfg) as [|[dc|]]; [done| |]|]; injection H as <-;
        by eexists None, _.
  - injection H as <-. apply orb_false_iff in Hc as [Hc _]. exists None, None. split; [by apply Hall|done].
Qed.
End Accepted.

(** ** The provider *)

Lemma supported_modes r rv1 :
  unsupported_bundle r rv1 = None ->
  let has := has_mode (csv_InstallModes (rv_CSV rv1)) in
  has InstallModeTypeAllNamespaces || has InstallModeTypeSingleNamespace || has InstallModeTypeOwnNamespace = true /\
  (mp_IsSingleOwnNamespaceEnabled r = false -> has InstallModeTypeAllNamespaces = true).
Proof.
  unfold unsupported_bundle. intros H. cbv zeta in *.
  repeat match type of H with (if ?c then _ else _) = None => destruct c eqn:?; [discriminate H|] end.
  split; [by apply negb_false_iff|]. intros Hd. rewrite Hd in *. by apply negb_false_iff.
Qed.

Section Provided.
Context {UA : UnstructuredAPI} {CE : ConfigEnv} {SL : SchemaLaws CE} {YL : YamlLaws CE} (SE : SourceEnv).
Context (IsDNS1123Subdomain : string -> list string) (IsSupported : string -> bool * bool).
Context (u_SetNamespace : string -> Unstructured -> Unstructured) (IntValue : IntOrString -> Z).
Context (UnsortedList : gset string -> list string) (UnsortedPorts : gset ServicePort -> list ServicePort).
Context (json_Encode : StrategyPermission -> result (list Byte.byte)) (sha224 : list Byte.byte -> N).
Context (base : Object) (r : RegistryV1ManifestProvider) (bundleFS : BundleFS) (ext : ClusterExtension).
Notation install := (es_Namespace (ext_Spec ext)).

(** C34. What the configuration lets a user watch is what the renderer admits: for
    a bundle the provider supports and a configuration that passes, the target
    namespaces are the one the user names, or all if none is named, and they
    pass the renderer's own check against the install modes. *)
Theorem configured_targets_admitted rv1 opts
    (Hbase : base_schema base) (Hi : install <> "") (Hu : unsupported_bundle r rv1 = None)
    (Ho : provider_options CE (inr base) r rv1 ext = inr opts) :
  let targets := o_TargetNamespaces (render_options json_Encode sha224 rv1 install opts) in
  (exists watch, watch_allowed rv1 ext watch /\ targets = match watch with Some ns => [ns] | None => [""] end) /\
  validateTargetNamespaces rv1 install targets = None.
Proof.
  intros targets. destruct (supported_modes r rv1 Hu) as [Hs Hall].
  destruct (provider_options_shape base Hbase r rv1 ext Hi Hs json_Encode sha224 opts Ho Hall) as (watch & config & Hw & Heq).
  unfold targets. rewrite Heq. cbn [o_TargetNamespaces]. split.
  - exists watch. split; [done|]. destruct watch; [done|]. unfold defaultTargetNamespacesForBundle.
    cbn in Hw. rewrite has_mode_supported in Hw. apply bool_decide_eq_true in Hw. by rewrite bool_decide_true.
  - apply validateTargetNamespaces_admits. by apply watch_admitted.
Qed.

(** C14. The provider gives manifests exactly for the bundles and configurations it
    should: if the bundle can be loaded, its features are supported and enabled,
    its configuration passes the schema, it is well formed and its definitions
    can be converted; in every case it returns, manifests or an error. *)
Theorem Get_succeeds_exactly (encoding : StrategyPermission -> list Byte.byte)
    (Hr : mp_BundleRenderer r = registryv1_Renderer IsDNS1123Subdomain IsSupported u_SetNamespace IntValue UnsortedList UnsortedPorts)
    (He : forall p, json_Encode p = inr (encoding p)) (Hb : forall bs, (sha224 bs < 2 ^ 224)%N)
    (Hp : forall p, mp_CertificateProvider r = Some p ->
        (forall o cfg, exists o', cp_InjectCABundle p o cfg = inr o') /\ (forall cfg, exists l, cp_AdditionalObjects p cfg = inr l))
    (Hbase : base_schema base) (Hi : install <> "") :
  returns (Get CE SE (inr base) json_Encode sha224 r bundleFS ext) /\
  ((exists objs, Get CE SE (inr base) json_Encode sha224 r bundleFS ext = ok objs) <->
   exists rv1 opts, GetBundle SE bundleFS = inr rv1 /\ unsupported_bundle r rv1 = None /\
     provider_options CE (inr base) r rv1 ext = inr opts /\
     well_formed_bundle IsDNS1123Subdomain IsSupported rv1 /\ convertible rv1).
Proof.
  unfold Get. destruct (GetBundle SE bundleFS) as [err|rv1]; [split; [by eexists|split; [by intros [? ?]|by intros (? & ? & ? & _)]]|].
  destruct (unsupported_bundle r rv1) as [err|] eqn:Hu;
    [split; [by eexists|split; [by intros [? ?]|by intros (? & ? & [= <-] & ? & _); congruence]]|].
  destruct (provider_options CE (inr base) r rv1 ext) as [err|opts] eqn:Ho;
    [split; [by eexists|split; [by intros [? ?]|by intros (? & ? & [= <-] & _ & ? & _); congruence]]|].
  destruct (supported_modes r rv1 Hu) as [Hs Hall].
  destruct (provider_options_shape base Hbase r rv1 ext Hi Hs json_Encode sha224 opts Ho Hall) as (watch & config & Hw & Heq).
  assert (Heq' : render_options json_Encode sha224 (validated_bundle rv1) install opts =
     mkOptions install (match watch with Some ns => [ns] | None => defaultTargetNamespacesForBundle rv1 end)
        (Some (DefaultUniqueNameGenerator json_Encode sha224)) (mp_CertificateProvider r) config) by exact Heq.
  destruct (render_total_iff IsDNS1123Subdomain IsSupported u_SetNamespace IntValue UnsortedList UnsortedPorts json_Encode sha224
      rv1 install opts) as [Hret Hok].
  - intros p. rewrite Heq'. unfold permission_name, call_UniqueNameGenerator. cbn [o_UniqueNameGenerator].
    rewrite (default_name json_Encode sha224 encoding He Hb). by eexists.
  - rewrite Heq'. intros p Hpp. by apply Hp.
  - rewrite Hr. split; [exact Hret|]. rewrite Hok. rewrite Heq'.
    assert (Hv : validate_options (mkOptions install (match watch with Some ns => [ns] | None => defaultTargetNamespacesForBundle rv1 end)
        (Some (DefaultUniqueNameGenerator json_Encode sha224)) (mp_CertificateProvider r) config) (validated_bundle rv1) = []).
    { unfold validate_options. cbn [o_UniqueNameGenerator o_InstallNamespace o_TargetNamespaces app].
      assert (Hn : validateTargetNamespaces (validated_bundle rv1) install
                     (match watch with Some ns => [ns] | None => defaultTargetNamespacesForBundle rv1 end) = None)
        by (apply validateTargetNamespaces_admits; exact (watch_admitted rv1 ext watch Hw)).
      by rewrite Hn. }
    split.
    + intros (Hwf & _ & Hc). by exists rv1, opts.
    + intros (rv & os & Hrv & _ & _ & Hwf & Hc). injection Hrv as <-. done.
Qed.
End Provided.
