(* ===== verification/ProviderSamples.v ===== *)
(** * The manifest provider at work

    An evaluator for the keywords of JSON Schema the schemas use, which satisfies
    the laws of ProviderProps.v, and the provider's theorems at a concrete
    bundle; and a user who watches one namespace although the feature is off. *)

From Stdlib Require Import Ascii.
From S2P Require Import Prelude GoErrors ApiTypes Phase ObjectInstances Rbac Bundle DeployConfig Validate ValidateProps Generate CertProviders GenerateProps Render NameProps RenderProps RenderTotal RenderSamples BundleConfig Source Provider ProviderProps.

Module ProviderSamples.
Import RenderSamples.

(** ** A schema evaluator *)

Definition of_type (S : Object) (v : json) : bool :=
  match S !! "type" with
  | Some (JStr t) =>
      if bool_decide (t = "object") then match v with JObj _ => true | _ => false end
      else if bool_decide (t = "string") then match v with JStr _ => true | _ => false end
      else if bool_decide (t = "null") then match v with JNull => true | _ => false end
      else true
  | _ => true
  end.

Definition long_enough (S : Object) (v : json) : bool :=
  match S !! "minLength", v with Some (JNum n), JStr s => n <=? slen s | _, _ => true end.

Definition formatted (S : Object) (F : Formats) (v : json) : bool :=
  match S !! "format" with
  | Some (JStr f) => match F f with Some check => bool_decide (check v = None) | None => true end
  | _ => true
  end.

Definition has_required (S : Object) (v : json) : bool :=
  match S !! "required", v with
  | Some (JArr l), JObj m => forallb (fun k => match k with JStr k => bool_decide (is_Some (m !! k)) | _ => true end) l
  | _, _ => true
  end.

Definition only_listed (S : Object) (v : json) : bool :=
  match S !! "properties", S !! "additionalProperties", v with
  | Some (JObj ps), Some (JBool false), JObj m => forallb (fun p => bool_decide (is_Some (ps !! p.1))) (map_to_list m)
  | _, _, _ => true
  end.

(** The fuel bounds the depth of the schema. *)
Fixpoint js_eval (fuel : nat) (S : Object) (F : Formats) (v : json) : bool :=
  match fuel with
  | O => false
  | Datatypes.S fuel =>
      of_type S v && long_enough S v && formatted S F v && has_required S v && only_listed S v &&
      (match S !! "properties", v with
       | Some (JObj ps), JObj m =>
           forallb (fun p => match ps !! p.1 with Some (JObj s) => js_eval fuel s F p.2 | _ => true end) (map_to_list m)
       | _, _ => true
       end) &&
      (match S !! "anyOf" with
       | Some (JArr l) => existsb (fun s => match s with JObj s => js_eval fuel s F v | _ => false end) l
       | _ => true
       end)
  end.

Definition js_accepts (S : Object) (F : Formats) (v : json) : Prop := exists fuel, js_eval fuel S F v = true.

Lemma js_parts fuel S F v :
  js_eval (Datatypes.S fuel) S F v = true ->
  of_type S v = true /\ long_enough S v = true /\ formatted S F v = true /\ has_required S v = true /\ only_listed S v = true /\
  (forall ps m k s x, S !! "properties" = Some (JObj ps) -> v = JObj m -> ps !! k = Some (JObj s) -> m !! k = Some x -> js_eval fuel s F x = true) /\
  (forall l, S !! "anyOf" = Some (JArr l) -> exists s, JObj s ∈ l /\ js_eval fuel s F v = true).
Proof.
  cbn [js_eval]. intros H. repeat (apply andb_true_iff in H as [H ?]). do 5 (split; [done|]). split.
  - intros ps m k s x Hps -> Hk Hx. rewrite Hps in *. cbn in *.
    match goal with H : forallb _ (map_to_list m) = true |- _ =>
      rewrite forallb_elem in H; specialize (H (k, x)); cbn in H; rewrite Hk in H; apply H end.
    by apply elem_of_map_to_list.
  - intros l Hl. rewrite Hl in *. match goal with H : existsb _ l = true |- _ => apply existsb_elem in H as (s & Hs & He) end.
    destruct s as [| | | | |s]; try done. by exists s.
Qed.

(** ** The libraries *)

Definition sample_text : string := "watch other".

Definition sample_unmarshal (b : string) : unmarshal_error + json :=
  if bool_decide (b = "{}") then inr (JObj ∅)
  else if bool_decide (b = sample_text) then inr (JObj {["watchNamespace" := JStr "other"]})
  else inl (OtherUnmarshalError (ENew "json: invalid")).

Definition sample_config_env : ConfigEnv :=
  mkConfigEnv sample_unmarshal
    (fun b => match sample_unmarshal b with
              | inl e => inl e
              | inr (JObj m) => inr (Some m)
              | inr JNull => inr None
              | inr _ => inl (UnmarshalTypeError "" "map[string]interface {}" "value")
              end)
    (fun _ => None) (fun _ _ => None)
    (fun S F v => if js_eval 5 S F v then None else Some (inl (ENew "invalid")))
    (fun _ => inr "") (fun _ => inl (ENew "no deployment configuration")) (fun _ => "").

#[export] Program Instance sample_schema_laws : SchemaLaws sample_config_env := {| accepts := js_accepts |}.
Next Obligation. intros S F v H. exists 5%nat. cbn [fe_Validate sample_config_env] in H. by destruct (js_eval 5 S F v). Qed.
Next Obligation.
  intros S F v _ Ht [[|fuel] H]; [done|]. apply js_parts in H as (H & _). unfold of_type in H. rewrite Ht in H. destruct v; try done. by eexists.
Qed.
Next Obligation.
  intros S F v _ Ht [[|fuel] H]; [done|]. apply js_parts in H as (H & _). unfold of_type in H. rewrite Ht in H. destruct v; try done. by eexists.
Qed.
Next Obligation.
  intros S F v _ Ht [[|fuel] H]; [done|]. apply js_parts in H as (H & _). unfold of_type in H. rewrite Ht in H. by destruct v.
Qed.
Next Obligation.
  intros S F s n _ Hn Hpos [[|fuel] H] ->; [done|]. apply js_parts in H as (_ & H & _). unfold long_enough in H. rewrite Hn in H.
  apply Z.leb_le in H. change (slen "") with 0 in H. lia.
Qed.
Next Obligation.
  intros S F v f check _ Hf Hc [[|fuel] H]; [done|]. apply js_parts in H as (_ & _ & H & _). unfold formatted in H. rewrite Hf, Hc in H.
  by apply bool_decide_eq_true in H.
Qed.
Next Obligation.
  intros S F v l _ Hl [[|fuel] H]; [done|]. apply js_parts in H as (_ & _ & _ & _ & _ & _ & H). destruct (H l Hl) as (s & Hs & He).
  exists s. split; [done|]. by exists fuel.
Qed.
Next Obligation.
  intros S F m l k _ Hl [[|fuel] H] Hk; [done|]. apply js_parts in H as (_ & _ & _ & H & _). unfold has_required in H. rewrite Hl in H.
  rewrite forallb_elem in H. specialize (H _ Hk). cbn in H. by apply bool_decide_eq_true in H.
Qed.
Next Obligation.
  intros S F m ps k s x _ Hp [[|fuel] H] Hk Hx; [done|]. apply js_parts in H as (_ & _ & _ & _ & _ & H & _). exists fuel.
  by apply (H ps m k s x).
Qed.
Next Obligation.
  intros S F m ps k _ Hp _ Ha [[|fuel] H] [x Hx]; [done|]. apply js_parts in H as (_ & _ & _ & _ & H & _). unfold only_listed in H.
  rewrite Hp, Ha in H. rewrite forallb_elem in H. specialize (H (k, x)). cbn in H. apply (bool_decide_eq_true (is_Some (ps !! k))). apply H.
  by apply elem_of_map_to_list.
Qed.

#[export] Instance sample_yaml_laws : YamlLaws sample_config_env.
Proof. constructor. intros b m H. cbn in *. by rewrite H. Qed.

Definition sample_base : Object :=
  list_to_map [("type", JStr "object"); ("additionalProperties", JBool false);
               ("properties", JObj (list_to_map [("watchNamespace", JObj ∅); ("deploymentConfig", JObj {["type" := JStr "object"]})]))].

Lemma sample_base_schema : base_schema sample_base.
Proof. by constructor; try by eexists. Qed.

(** ** A bundle that supports all namespaces and a single one *)

Definition two_modes : RegistryV1 :=
  bundle_of [InstallModeTypeAllNamespaces; InstallModeTypeSingleNamespace] [deployment_named "operator"] [].

Definition csv_object : Unstructured := manifest "operators.coreos.com/v1alpha1" "ClusterServiceVersion" "" "op.v1".
Definition crd_manifest : Unstructured := manifest "apiextensions.k8s.io/v1" "CustomResourceDefinition" "" "foos.example.com".

Definition sample_fs : BundleFS :=
  mkBundleFS (fun p => if bool_decide (p = annotations_path) then inr "annotations" else inl (EApi KNotExist "file does not exist"))
    (fun _ => None)
    (fun _ => [mkWalkCall "manifests" true None; mkWalkCall "manifests/csv.yaml" false None; mkWalkCall "manifests/foos.yaml" false None]).

Definition sample_source : SourceEnv :=
  mkSourceEnv (fun _ => inr "pkg") (fun _ => inr []) (fun _ _ => None)
    (fun _ p => if bool_decide (p = "manifests/csv.yaml") then [(csv_object, None)] else [(crd_manifest, None)])
    (fun _ => inr (rv_CSV two_modes)) (fun _ => inr (mkCRD "foos.example.com" ∅ false None JNull)) (fun _ => inr []) (fun _ => inr "").

Lemma sample_loaded : GetBundle sample_source sample_fs = inr two_modes.
Proof. vm_compute. reflexivity. Qed.

(** A provider with every feature disabled. *)
Definition plain_provider : RegistryV1ManifestProvider := mkProvider sample_renderer None false false false.

Definition ext_with (config : option ClusterExtensionConfig) : ClusterExtension :=
  mkExt (mkMeta "ext" "" "uid" 1 ∅ ∅ [] [] 0 None)
    (mkExtSpec "install" "sa" (mkSource "Catalog" None) None config 0) (mkExtStatus [] None []).

Definition watching_ext : ClusterExtension := ext_with (Some (mkExtConfig ClusterExtensionConfigTypeInline (Some sample_text))).

Definition encode_sample (p : StrategyPermission) : list Byte.byte := String.list_byte_of_string (sdp_ServiceAccountName p).
(** Loading the sample bundle. *)
Lemma loaded_bundle_witness :
  rv_PackageName two_modes = "pkg" /\ rv_Others two_modes = List.filter is_other (visited sample_source sample_fs) /\
  Forall2 (fun u crd => so_to_crd sample_source u = inr crd) (List.filter is_crd (visited sample_source sample_fs)) (rv_CRDs two_modes) /\
  exists u csv, last (List.filter is_csv (visited sample_source sample_fs)) = Some u /\ so_to_csv sample_source u = inr csv /\
    copyMetadataPropertiesToCSV sample_source csv sample_fs = inr (rv_CSV two_modes).
Proof. apply (loaded_bundle sample_source sample_fs two_modes "annotations" "pkg"); [reflexivity|reflexivity|exact sample_loaded]. Defined.

Notation get_sample := (Get sample_config_env sample_source (inr sample_base) encode_name sum_bytes).

Lemma configured_targets_admitted_witness :
  let opts := [Some (WithCertificateProvider None); Some (WithTargetNamespaces ["other"])] in
  let targets := o_TargetNamespaces (render_options encode_name sum_bytes two_modes "install" opts) in
  (exists watch, watch_allowed two_modes watching_ext watch /\ targets = match watch with Some ns => [ns] | None => [""] end) /\
  validateTargetNamespaces two_modes "install" targets = None.
Proof.
  apply (configured_targets_admitted encode_name sum_bytes sample_base plain_provider watching_ext two_modes).
  - exact sample_base_schema.
  - done.
  - vm_compute. reflexivity.
  - vm_compute. reflexivity.
Defined.

Lemma Get_succeeds_exactly_witness :
  returns (get_sample plain_provider sample_fs watching_ext) /\
  ((exists objs, get_sample plain_provider sample_fs watching_ext = ok objs) <->
   exists rv1 opts, GetBundle sample_source sample_fs = inr rv1 /\ unsupported_bundle plain_provider rv1 = None /\
     provider_options sample_config_env (inr sample_base) plain_provider rv1 watching_ext = inr opts /\
     well_formed_bundle any_name any_kind rv1 /\ convertible rv1).
Proof.
  refine (Get_succeeds_exactly sample_source any_name any_kind keep_namespace int_value (@elements _ (gset string) _) (@elements _ (gset ServicePort) _)
    encode_name sum_bytes sample_base plain_provider sample_fs watching_ext encode_sample eq_refl _ _ _ sample_base_schema _).
  - done.
  - intros bs. by apply N.mod_lt.
  - done.
  - done.
Defined.

(** A disabled feature can be used: with the support for single and own
    namespaces off, a bundle that also supports all namespaces is installed to
    watch the single namespace its configuration names, because the schema
    keeps watchNamespace whatever the feature gate says. *)
Theorem disabled_gate_watches_namespace :
  mp_IsSingleOwnNamespaceEnabled plain_provider = false /\
  exists objs, get_sample plain_provider sample_fs watching_ext = ok objs /\
    exists n, ORole "other" n [rule_pods] ∈ objs.
Proof.
  split; [done|]. eexists. split; [vm_compute; reflexivity|]. eexists. apply (list_elem_of_lookup_2 _ 1). vm_compute. reflexivity.
Qed.
End ProviderSamples.
