(* ===== verification/GoPath.v ===== *)
(** * Slash-separated paths

    path.Clean, filepath.Join and filepath.Rel of Go's standard library, as far
    as the code uses them: a path is its list of elements and whether it is
    rooted. *)

From Stdlib Require Import Ascii.
From S2P Require Import Prelude.

(** The separator, '/'. *)
Definition slash : ascii := ascii_of_nat 47.

Definition dotdot : string := "..".

(** Lexical processing: empty elements and "." are dropped, ".." removes the
    element before it; at the start it stays in a relative path and is dropped
    from a rooted one.  The elements are collected in reverse. *)
Definition clean_step (rooted : bool) (acc : list string) (s : string) : list string :=
  if bool_decide (s = EmptyString) || bool_decide (s = ".") then acc
  else if bool_decide (s = dotdot) then
    match acc with
    | x :: acc' => if bool_decide (x = dotdot) then s :: acc else acc'
    | [] => if rooted then [] else [s]
    end
  else s :: acc.

Definition clean_segs (rooted : bool) (segs : list string) : list string :=
  rev (foldl (clean_step rooted) [] segs).

Definition is_rooted (s : string) : bool := match s with String c _ => bool_decide (c = slash) | _ => false end.

(** The elements of the cleaned path. *)
Definition path_segs (s : string) : list string := clean_segs (is_rooted s) (strings_Split slash s).

Definition slash_join (segs : list string) : string := strings_Join segs (String slash EmptyString).

(** path.Clean *)
Definition path_Clean (s : string) : string :=
  if is_rooted s then String slash (slash_join (path_segs s))
  else match path_segs s with [] => "." | segs => slash_join segs end.

(** filepath.Join *)
Definition filepath_Join (elems : list string) : string :=
  match List.filter (fun e => negb (bool_decide (e = EmptyString))) elems with
  | [] => EmptyString
  | es => path_Clean (slash_join es)
  end.

(** strings.TrimPrefix(s, "/") *)
Definition trim_slash (s : string) : string :=
  match s with String c s' => if bool_decide (c = slash) then s' else s | _ => s end.

(** What is left of two lists after their longest common prefix. *)
Fixpoint strip_common (b t : list string) : list string * list string :=
  match b, t with
  | x :: b', y :: t' => if bool_decide (x = y) then strip_common b' t' else (b, t)
  | _, _ => (b, t)
  end.

(** The elements of filepath.Rel(base, targ), which are cleaned; [None] if
    there is no such path, or if it depends on the working directory. *)
Definition rel_segs (base targ : string) : option (list string) :=
  if negb (bool_decide (is_rooted base = is_rooted targ)) then None
  else
    let '(b, t) := strip_common (path_segs base) (path_segs targ) in
    match b with
    | x :: _ => if bool_decide (x = dotdot) then None else Some (map (fun _ => dotdot) b ++ t)
    | [] => Some t
    end.

Definition filepath_Rel (base targ : string) : option string :=
  (fun segs => match segs with [] => "." | _ => slash_join segs end) <$> rel_segs base targ.

(** ** Properties *)

(** An element a cleaned path can hold. *)
Definition seg_ok (s : string) : Prop := s <> EmptyString /\ s <> "." /\ str_has slash s = false.

Lemma Split_no_slash s : Forall (fun x => str_has slash x = false) (strings_Split slash s).
Proof.
  induction s as [|c s IH]; cbn [strings_Split]; [by repeat constructor|].
  destruct (decide (c = slash)) as [->|Hc]; [by constructor|].
  destruct (strings_Split slash s) as [|x l]; inversion IH; subst; constructor; try done;
    cbn; rewrite bool_decide_eq_false_2 by done; done.
Qed.

Lemma clean_step_ok rooted acc s :
  Forall seg_ok acc -> str_has slash s = false -> Forall seg_ok (clean_step rooted acc s).
Proof.
  intros Ha Hs. unfold clean_step.
  destruct (bool_decide_reflect (s = EmptyString)) as [|He]; [done|].
  destruct (bool_decide_reflect (s = ".")) as [|Hd]; [done|]. cbn.
  destruct (bool_decide_reflect (s = dotdot)) as [->|]; [|by constructor].
  destruct acc as [|x acc]; [by destruct rooted; repeat constructor|].
  case_bool_decide; [by constructor|by inversion Ha].
Qed.

Lemma foldl_clean_ok rooted segs acc :
  Forall seg_ok acc -> Forall (fun s => str_has slash s = false) segs ->
  Forall seg_ok (foldl (clean_step rooted) acc segs).
Proof.
  intros Ha Hs. revert acc Ha. induction Hs as [|s segs Hs _ IH]; intros acc Ha; cbn; [done|].
  apply IH. by apply clean_step_ok.
Qed.

Lemma path_segs_ok s : Forall seg_ok (path_segs s).
Proof. unfold path_segs, clean_segs. apply Forall_rev, foldl_clean_ok; [done|apply Split_no_slash]. Qed.

(** In reverse, the ".."s of a cleaned path come last; a rooted one has none. *)
Definition dots_last (rooted : bool) (acc : list string) : Prop :=
  exists l n, acc = l ++ replicate n dotdot /\ Forall (fun s => s <> dotdot) l /\ (rooted = true -> n = 0%nat).

Lemma clean_step_dots rooted acc s : dots_last rooted acc -> dots_last rooted (clean_step rooted acc s).
Proof.
  intros (l & n & -> & Hl & Hn). unfold clean_step.
  destruct (bool_decide (s = EmptyString) || _); [by exists l, n|].
  destruct (bool_decide_reflect (s = dotdot)) as [->|Hs]; [|by exists (s :: l), n; repeat constructor].
  destruct l as [|x l]; cbn.
  - destruct n as [|n]; cbn.
    + destruct rooted; [by exists [], 0%nat|]. by exists [], 1%nat.
    + destruct rooted; [by specialize (Hn eq_refl)|]. rewrite bool_decide_eq_true_2 by done. by exists [], (S (S n)).
  - inversion Hl; subst. rewrite bool_decide_eq_false_2 by done. by exists l, n.
Qed.

Lemma path_segs_dots s :
  exists n l, path_segs s = replicate n dotdot ++ l /\ Forall (fun s => s <> dotdot) l /\ (is_rooted s = true -> n = 0%nat).
Proof.
  assert (H : dots_last (is_rooted s) (foldl (clean_step (is_rooted s)) [] (strings_Split slash s))).
  { generalize (strings_Split slash s). intros segs. assert (H0 : dots_last (is_rooted s) []) by by exists [], 0%nat.
    revert H0. generalize (@nil string). induction segs as [|x segs IH]; intros acc Ha; cbn; [done|].
    apply IH. by apply clean_step_dots. }
  destruct H as (l & n & E & Hl & Hn). exists n, (rev l). unfold path_segs, clean_segs.
  rewrite E, rev_app_distr. split_and!; [|by apply Forall_rev|done]. f_equal.
  clear. induction n as [|n IH]; [done|]. cbn. rewrite IH. by rewrite <- replicate_cons_app.
Qed.

Lemma strip_common_spec b t :
  exists p, b = p ++ (strip_common b t).1 /\ t = p ++ (strip_common b t).2 /\
    match strip_common b t with (x :: _, y :: _) => x <> y | _ => True end.
Proof.
  revert t. induction b as [|x b IH]; intros [|y t]; cbn; try by exists [].
  case_bool_decide as E; [|by exists []]. subst y. destruct (IH t) as (p & E1 & E2 & H).
  exists (x :: p). cbn. by rewrite <- E1, <- E2.
Qed.

Lemma strip_common_prefix b t : (strip_common b t).1 = [] <-> b `prefix_of` t.
Proof.
  revert t. induction b as [|x b IH]; intros t; cbn; [split; [intros _; apply prefix_nil|by destruct t]|].
  destruct t as [|y t]; cbn.
  - split; [done|]. intros H. by apply prefix_nil_not in H.
  - case_bool_decide as E; [subst y; rewrite IH|].
    + split; [apply prefix_cons|apply prefix_cons_inv_2].
    + split; [done|]. intros H. by apply prefix_cons_inv_1 in H.
Qed.

(** Cleaning a cleaned path changes nothing. *)
Lemma clean_step_push rooted acc s :
  seg_ok s -> s <> dotdot -> clean_step rooted acc s = s :: acc.
Proof.
  intros (H1 & H2 & _) H3. unfold clean_step. rewrite !bool_decide_eq_false_2 by done. done.
Qed.

Lemma foldl_push rooted l acc :
  Forall seg_ok l -> Forall (fun s => s <> dotdot) l -> foldl (clean_step rooted) acc l = rev l ++ acc.
Proof.
  intros Ho Hd. revert acc. induction Ho as [|s l Hs _ IH]; intros acc; [done|]. inversion Hd; subst. cbn.
  rewrite clean_step_push by done. rewrite IH by done. by rewrite <- app_assoc.
Qed.

Lemma foldl_dots n m :
  foldl (clean_step false) (replicate m dotdot) (replicate n dotdot) = replicate (n + m) dotdot.
Proof.
  revert m. induction n as [|n IH]; intros m; [done|]. cbn [replicate foldl].
  assert (E : clean_step false (replicate m dotdot) dotdot = replicate (S m) dotdot) by by destruct m.
  rewrite E, IH. f_equal. lia.
Qed.

Lemma clean_segs_id n l (rooted : bool) :
  Forall seg_ok l -> Forall (fun s => s <> dotdot) l -> (rooted = true -> n = 0%nat) ->
  clean_segs rooted (replicate n dotdot ++ l) = replicate n dotdot ++ l.
Proof.
  intros Ho Hd Hr. unfold clean_segs. rewrite foldl_app.
  assert (E : foldl (clean_step rooted) [] (replicate n dotdot) = replicate n dotdot).
  { destruct rooted; [by rewrite Hr|]. change (@nil string) with (replicate 0 dotdot). rewrite foldl_dots. f_equal. lia. }
  rewrite E, foldl_push by done. rewrite rev_app_distr, rev_involutive. f_equal.
  clear. induction n as [|n IH]; [done|]. cbn. rewrite IH. by rewrite <- replicate_cons_app.
Qed.

Lemma slash_join_cons x l :
  slash_join (x :: l) = match l with [] => x | _ => x +:+ String slash (slash_join l) end.
Proof. by destruct l. Qed.

Lemma slash_join_rooted l : Forall seg_ok l -> is_rooted (slash_join l) = false.
Proof.
  intros Ho. destruct Ho as [|x l (Hx & _ & Hs) _]; [done|]. rewrite slash_join_cons.
  destruct x as [|c x]; [done|]. cbn in Hs. apply orb_false_iff in Hs as [Hc _]. by destruct l.
Qed.

Lemma Split_slash_join l : l <> [] -> Forall seg_ok l -> strings_Split slash (slash_join l) = l.
Proof.
  intros Hn Ho. apply Split_Join; [done|]. eapply Forall_impl; [exact Ho|]. by intros x (_ & _ & H).
Qed.

Lemma path_segs_Clean s : path_segs (path_Clean s) = path_segs s.
Proof.
  pose proof (path_segs_ok s) as Ho. destruct (path_segs_dots s) as (n & l & E & Hd & Hr).
  assert (Hid : clean_segs (is_rooted s) (path_segs s) = path_segs s).
  { rewrite E. apply clean_segs_id; [|done..]. rewrite E in Ho. by apply Forall_app in Ho as [_ ?]. }
  unfold path_Clean. destruct (is_rooted s) eqn:Er.
  - unfold path_segs at 1. cbn [is_rooted]. rewrite bool_decide_eq_true_2 by done. cbn [strings_Split].
    rewrite decide_True by done. rewrite <- Hid at 2.
    destruct (path_segs s) as [|x segs] eqn:Es; [done|].
    rewrite Split_slash_join by done. unfold clean_segs. cbn [foldl]. done.
  - destruct (path_segs s) as [|x segs] eqn:Es; [done|].
    unfold path_segs. rewrite slash_join_rooted by done. rewrite Split_slash_join by done. done.
Qed.

Lemma is_rooted_Clean s : is_rooted (path_Clean s) = is_rooted s.
Proof.
  unfold path_Clean. destruct (is_rooted s) eqn:Er; [by cbn; rewrite bool_decide_eq_true_2|].
  pose proof (path_segs_ok s) as Ho. destruct (path_segs s) as [|x segs]; [done|]. by apply slash_join_rooted.
Qed.

Lemma HasPrefix_spec s p : strings_HasPrefix s p = true <-> exists t, s = p +:+ t.
Proof.
  revert s. induction p as [|c p IH]; intros s.
  { split; [intros _; by exists s|]. intros _. by destruct s. }
  destruct s as [|d s]; [split; [done|by intros [t ?]]|]. cbn.
  rewrite andb_true_iff, bool_decide_eq_true, IH. split.
  - intros [-> (t & ->)]. by exists t.
  - intros (t & E). injection E as -> ->. eauto.
Qed.

(** A relative path points out of its base if its first element is "..". *)
Lemma slash_join_escapes segs :
  Forall seg_ok segs ->
  (slash_join segs = dotdot \/ strings_HasPrefix (slash_join segs) (dotdot +:+ String slash EmptyString) = true)
  <-> head segs = Some dotdot.
Proof.
  intros Ho. destruct segs as [|x l].
  { split; [intros [H|H]|]; discriminate. }
  rewrite HasPrefix_spec. split.
  - pose proof (Split_slash_join (x :: l) ltac:(done) Ho) as Hsp. intros [E|[t E]]; rewrite E in Hsp.
    + injection Hsp as <- _. done.
    + rewrite <- str_app_assoc in Hsp. change (String slash EmptyString +:+ t) with (String slash t) in Hsp.
      rewrite Split_app_sep in Hsp by done. injection Hsp as <- _. done.
  - intros [= ->]. rewrite slash_join_cons. destruct l as [|y l]; [by left|right].
    exists (slash_join (y :: l)). by rewrite <- str_app_assoc.
Qed.

(** What filepath.Rel answers for cleaned paths of the same kind. *)
Lemma rel_segs_ok base targ segs : rel_segs base targ = Some segs -> Forall seg_ok segs.
Proof.
  unfold rel_segs. destruct (negb _); [done|].
  pose proof (path_segs_ok targ) as Ho. destruct (strip_common_spec (path_segs base) (path_segs targ)) as (p & _ & E & _).
  destruct (strip_common _ _) as [b t]. cbn in E. rewrite E in Ho. apply Forall_app in Ho as [_ Ht].
  assert (Hd : forall l : list string, Forall seg_ok (map (fun _ => dotdot) l)).
  { intros l. induction l; cbn; constructor; [|done]. repeat split; done. }
  destruct b as [|x b]; [by intros [= <-]|]. case_bool_decide; [done|]. intros [= <-].
  change (Forall seg_ok (map (fun _ => dotdot) (x :: b) ++ t)). apply Forall_app. split; [apply Hd|done].
Qed.
