(* ===== verification/ImageFilter.v ===== *)
(** * Filtering the layers of an image

    src/internal/shared/util/image/filters.go: the archive filters that decide
    which entries of a layer are unpacked, and with which owner and mode.

    A filter gets a tar header, which it may change, and says whether the entry
    is kept. *)

From Stdlib Require Import Ascii.
From S2P Require Import Prelude GoErrors GoPath.

(** tar.Header, as far as the filters touch it. *)
Record Header := mkHeader {
  h_Name : string;
  h_Uid : Z;
  h_Gid : Z;
  h_Mode : Z;
  h_PAXRecords : option (gmap string string);
  h_Xattrs : option (gmap string string);
}.

(** archive.Filter: the header afterwards, and whether to keep the entry. *)
Definition Filter : Type := Header -> Header * result bool.

(** func forceOwnershipRWX() archive.Filter, in a process with this user and
    group. *)
Definition forceOwnershipRWX (uid gid : Z) : Filter :=
  fun h => (mkHeader (h_Name h) uid gid (Z.lor (h_Mode h) 448) None None, inr true).

(** func onlyPath(p string) archive.Filter *)
Definition onlyPath (p : string) : Filter :=
  let wantPath := path_Clean (trim_slash p) in
  fun h =>
    let headerPath := path_Clean (trim_slash (h_Name h)) in
    match filepath_Rel wantPath headerPath with
    | None =>
        (h, inl (EWrap "error getting relative path: "
                   (ENew ("Rel: can't make " +:+ headerPath +:+ " relative to " +:+ wantPath)) ""))
    | Some relPath =>
        if bool_decide (relPath = dotdot) || strings_HasPrefix relPath (dotdot +:+ String slash EmptyString)
        then (h, inr false)
        else (h, inr true)
    end.

(** func allFilters(filters ...archive.Filter) archive.Filter *)
Fixpoint allFilters (filters : list Filter) : Filter :=
  fun h =>
    match filters with
    | [] => (h, inr true)
    | filter :: rest =>
        match filter h with
        | (h, inl err) => (h, inl err)
        | (h, inr false) => (h, inr false)
        | (h, inr true) => allFilters rest h
        end
    end.

(** ** Which entries are kept *)

(** The elements of the path a name stands for in the image. *)
Definition image_segs (name : string) : list string := path_segs (trim_slash name).

(** A path that does not leave the image. *)
Definition inside (name : string) : Prop :=
  is_rooted (trim_slash name) = false /\ head (image_segs name) <> Some dotdot.

Lemma onlyPath_keeps p h :
  inside p -> inside (h_Name h) ->
  onlyPath p h = (h, inr (bool_decide (image_segs p `prefix_of` image_segs (h_Name h)))).
Proof.
  intros [Hp Hp'] [Hh Hh']. unfold onlyPath, filepath_Rel, rel_segs.
  rewrite !is_rooted_Clean, Hp, Hh, bool_decide_eq_true_2 by done. cbn [negb]. rewrite !path_segs_Clean.
  unfold image_segs in *. set (b0 := path_segs (trim_slash p)) in *. set (t0 := path_segs (trim_slash (h_Name h))) in *.
  pose proof (strip_common_prefix b0 t0) as Hpre.
  assert (Ht0 : Forall seg_ok t0) by apply path_segs_ok.
  destruct (strip_common_spec b0 t0) as (c & Eb & Et & Hne). destruct (strip_common b0 t0) as [b t]. cbn in *.
  destruct (path_segs_dots (trim_slash p)) as (n & l & Ed & Hd & _). fold b0 in Ed.
  assert (Hnd : Forall (fun s => s <> dotdot) b0).
  { rewrite Ed in *. destruct n; [done|]. by cbn in Hp'. }
  destruct b as [|x b].
  - rewrite bool_decide_eq_true_2 by (by apply Hpre). cbn [fmap option_fmap option_map].
    assert (Hht : head t <> Some dotdot).
    { destruct c as [|y c]; [by rewrite Et in Hh'|]. intros Hh2.
      destruct (path_segs_dots (trim_slash (h_Name h))) as (m & k & Ek & Hk & _). fold t0 in Ek.
      destruct m; [|by rewrite Ek in Hh']. cbn in Ek. rewrite <- Ek, Et in Hk. apply Forall_app in Hk as [_ Hk].
      destruct t as [|z t]; [done|]. injection Hh2 as ->. by inversion Hk. }
    rewrite Et in Ht0. apply Forall_app in Ht0 as [_ Ht]. pose proof (slash_join_escapes t Ht) as Hesc.
    destruct t as [|z t].
    + by vm_compute.
    + destruct (bool_decide_reflect (slash_join (z :: t) = dotdot)) as [E|_]; [by destruct Hht; apply Hesc; left|].
      destruct (strings_HasPrefix (slash_join (z :: t)) _) eqn:E; [by destruct Hht; apply Hesc; right|done].
  - rewrite (bool_decide_eq_false_2 (b0 `prefix_of` t0)) by (intros H; by apply Hpre in H).
    rewrite Eb in Hnd. apply Forall_app in Hnd as [_ Hnd]. inversion Hnd; subst.
    rewrite bool_decide_eq_false_2 by done. cbn [fmap option_fmap option_map map].
    assert (Hx : Forall seg_ok (dotdot :: map (fun _ => dotdot) b ++ t)).
    { rewrite Et in Ht0. apply Forall_app in Ht0 as [_ Ht]. constructor; [by repeat split|]. apply Forall_app. split; [|done].
      clear. induction b; cbn; constructor; [by repeat split|done]. }
    pose proof (proj2 (slash_join_escapes _ Hx) eq_refl) as Hesc. cbn [app map] in *.
    destruct (bool_decide_reflect (slash_join (dotdot :: map (fun _ => dotdot) b ++ t) = dotdot)) as [|Hne']; [done|].
    destruct Hesc as [|Hesc]; [done|]. by rewrite Hesc.
Qed.

(** A header that points out of the image is not kept either. *)
Lemma onlyPath_drops_outside p h :
  inside p -> is_rooted (trim_slash (h_Name h)) = false -> head (image_segs (h_Name h)) = Some dotdot ->
  onlyPath p h = (h, inr false).
Proof.
  intros [Hp Hp'] Hh Hh'. unfold onlyPath, filepath_Rel, rel_segs.
  rewrite !is_rooted_Clean, Hp, Hh, bool_decide_eq_true_2 by done. cbn [negb]. rewrite !path_segs_Clean.
  unfold image_segs in *. pose proof (path_segs_ok (trim_slash (h_Name h))) as Ho. revert Ho Hh' Hp'.
  destruct (path_segs (trim_slash (h_Name h))) as [|y t]; [done|]. intros Ho [= ->] Hp'.
  assert (Hb : strip_common (path_segs (trim_slash p)) (dotdot :: t) = (path_segs (trim_slash p), dotdot :: t)).
  { destruct (path_segs (trim_slash p)) as [|x b]; [done|]. cbn. rewrite bool_decide_eq_false_2; [done|].
    intros ->. by apply Hp'. }
  rewrite Hb.
  assert (Hx : forall b, Forall seg_ok (map (fun _ : string => dotdot) b ++ dotdot :: t)).
  { intros b. apply Forall_app. split; [|done]. induction b; cbn; constructor; [by repeat split|done]. }
  assert (Hend : forall b, let s := slash_join (map (fun _ : string => dotdot) b ++ dotdot :: t) in
    bool_decide (s = dotdot) || strings_HasPrefix s (dotdot +:+ String slash EmptyString) = true).
  { intros b. cbv zeta. apply orb_true_iff. rewrite bool_decide_eq_true. apply slash_join_escapes; [apply Hx|]. by destruct b. }
  destruct (path_segs (trim_slash p)) as [|x b].
  - cbn [fmap option_fmap option_map]. specialize (Hend []). cbv zeta in Hend. cbn [app map] in Hend. by rewrite Hend.
  - rewrite bool_decide_eq_false_2; [|intros ->; by apply Hp']. cbn [fmap option_fmap option_map].
    specialize (Hend (x :: b)). cbv zeta in Hend. cbn [app map] in *. by rewrite Hend.
Qed.
