(* ===== verification/DiskFs.v ===== *)
(** * A file system with permissions

    src/internal/shared/util/fs/fs.go: emptying directories, making trees
    read-only and writable, deleting read-only trees.

    A file system is the finite map of the paths it holds, below one base
    directory (the empty path); directories and files have permission bits, as
    seen by the process that owns them.  The operations are programs over the
    history of its contents ([Hist], the current contents last), one state per
    system call, so that a process that is killed leaves some state of the
    history.  Failures the operating system decides on its own ([OsEnv]) may
    depend on all that happened before; failures for want of permission, or
    because of what is or is not there, follow from the contents. *)

From Stdlib Require Import Ascii.
From S2P Require Import Prelude GoErrors.

Abbreviation path := (list string).

(** What a path holds: a regular file, a directory, a symbolic link, or
    anything else (a named pipe, a device, a socket), with the name of its
    type as fs.FileMode prints it. *)
Inductive node :=
| NFile (mode : Z) (data : string)
| NDir (mode : Z)
| NSymlink (target : string)
| NSpecial (typ : string).

Abbreviation Fs := (gmap (list string) node).

Definition Hist : Type := list Fs.

Definition fs_cur (h : Hist) : Fs := default ∅ (last h).

(** The system calls that may fail. *)
Inductive os_call :=
| OLstat (p : path)
| OStat (p : path)
| OChmod (p : path)
| OReadDir (p : path)
| OMkdirAll (p : path)
| ORemoveAll (p : path)
| OMkdirTemp (dir : path)
| OCreate (p : path)
| OWrite (p : path)
| ORename (old new : path).

Record OsEnv := mkOsEnv {
  os_fails : Hist -> os_call -> option error;
  (* what a RemoveAll that fails leaves of the tree *)
  os_left : Hist -> path -> bool;
  (* what a symbolic link leads to *)
  os_follow : Hist -> string -> result node;
  (* the modification time of a directory *)
  os_mtime : Hist -> path -> Z;
  (* the random suffix of a temporary directory *)
  os_temp : Hist -> string;
  (* how much of its data a write that fails has written *)
  os_short : Hist -> nat;
}.

Definition not_exist : error := EApi KNotExist "no such file or directory".
Definition perm_denied : error := EApi KPermission "permission denied".
Definition not_a_dir : error := ENew "not a directory".

(** All the permission bits [bits] are set. *)
Definition has_bits (mode bits : Z) : bool := Z.land mode bits =? bits.

Definition x_bit : Z := 64.  (* 0100 *)
Definition wx : Z := 192.    (* 0300 *)
Definition r_bit : Z := 256. (* 0400 *)
Definition rwx : Z := 448.   (* 0700 *)

(** [p] is the path [root] or below it. *)
Definition under (root p : path) : bool := bool_decide (root `prefix_of` p).

Definition parent (p : path) : path := removelast p.

(** What a path leads to; every directory on the way must be searchable. *)
Fixpoint find_from (fs : Fs) (dir rest : path) : result node :=
  match fs !! dir, rest with
  | None, _ => inl not_exist
  | Some n, [] => inr n
  | Some (NDir mode), x :: rest' => if has_bits mode x_bit then find_from fs (dir ++ [x]) rest' else inl perm_denied
  | Some _, _ => inl not_a_dir
  end.

Definition find_node (fs : Fs) (p : path) : result node := find_from fs [] p.

(** Paths in the order filepath.WalkDir visits them: lexical, directories first. *)
Fixpoint path_cmp (a b : path) : Z :=
  match a, b with
  | [], [] => 0
  | [], _ => -1
  | _, [] => 1
  | x :: a', y :: b' => if string_cmp x y =? 0 then path_cmp a' b' else string_cmp x y
  end.

Definition paths_under (root : path) (fs : Fs) : list path :=
  sort_by path_cmp (List.filter (under root) (map fst (map_to_list fs))).

(** The names in a directory, sorted. *)
Definition dir_names (dir : path) (fs : Fs) : list string :=
  sort_by string_cmp
    (omap (fun p => if bool_decide (parent p = dir /\ p <> []) then last p else None) (map fst (map_to_list fs))).

Section Os.
Context (E : OsEnv).

(** One system call: it fails as the environment decides, or runs. *)
Definition sys {A} (c : os_call) (failed : error -> Fs -> A * Fs) (f : Fs -> A * Fs) : IO Hist A :=
  fun h =>
    let '(a, fs') := match os_fails E h c with
                     | Some e => failed e (fs_cur h)
                     | None => f (fs_cur h)
                     end in
    (a, h ++ [fs']).

(** A call that changes nothing. *)
Definition sys_read {A} (c : os_call) (f : Fs -> result A) : IO Hist (result A) :=
  sys c (fun e fs => (inl e, fs)) (fun fs => (f fs, fs)).

Definition Lstat (p : path) : IO Hist (result node) :=
  sys_read (OLstat p) (fun fs => find_node fs p).

(** os.Stat follows a symbolic link. *)
Definition Stat (p : path) : IO Hist (result node) :=
  fun h => sys_read (OStat p) (fun fs => match find_node fs p with
                                         | inr (NSymlink t) => os_follow E h t
                                         | r => r
                                         end) h.

(** os.Chmod of a file or directory. *)
Definition chmod_node (mode : Z) (n : node) : node :=
  match n with
  | NFile _ data => NFile mode data
  | NDir _ => NDir mode
  | n => n
  end.

Definition Chmod (p : path) (mode : Z) : IO Hist (option error) :=
  sys (OChmod p) (fun e fs => (Some e, fs))
    (fun fs => match find_node fs p with
               | inr n => (None, <[p := chmod_node mode n]> fs)
               | inl e => (Some e, fs)
               end).

(** os.ReadDir: the names, sorted; the directory must be readable. *)
Definition ReadDir (p : path) : IO Hist (result (list string)) :=
  sys_read (OReadDir p)
    (fun fs => match find_node fs p with
               | inr (NDir mode) => if has_bits mode r_bit then inr (dir_names p fs) else inl perm_denied
               | inr _ => inl not_a_dir
               | inl e => inl e
               end).

(** os.RemoveAll.  Whether an entry can be unlinked is up to the directory it
    is in, which must be listed to find it unless it is the given path. *)
Definition unlinkable (fs : Fs) (bits : Z) (p : path) : bool :=
  match find_node fs (parent p) with
  | inr (NDir mode) => has_bits mode bits
  | _ => false
  end.

(** An entry goes if it and all that is below it can be unlinked. *)
Definition removable (fs : Fs) (root p : path) : bool :=
  forallb (fun q => negb (under p q) || unlinkable fs (if decide (q = root) then wx else rwx) q)
    (map fst (map_to_list fs)).

Definition remove_tree (root : path) (fs : Fs) : Fs :=
  filter (fun '(p, _) => under root p && removable fs root p = false) fs.

Definition RemoveAll (root : path) : IO Hist (option error) :=
  fun h => sys (ORemoveAll root)
    (fun e fs => (Some e, filter (fun '(p, _) => under root p && negb (os_left E h p) = false) fs))
    (fun fs => match find_node fs root with
               | inl e => (if has_kind KNotExist e then None else Some e, fs)
               | inr _ =>
                   let fs' := remove_tree root fs in
                   (match paths_under root fs' with [] => None | _ => Some perm_denied end, fs')
               end) h.

(** os.MkdirAll: every directory on the way that is not there. *)
Fixpoint mkdirs (perm : Z) (done rest : path) (fs : Fs) : option error * Fs :=
  match fs !! done with
  | Some (NDir mode) =>
      match rest with
      | [] => (None, fs)
      | x :: rest' => mkdirs perm (done ++ [x]) rest' fs
      end
  | Some _ => (Some not_a_dir, fs)
  | None =>
      if bool_decide (done = []) || unlinkable fs wx done then
        let fs := <[done := NDir perm]> fs in
        match rest with
        | [] => (None, fs)
        | x :: rest' => mkdirs perm (done ++ [x]) rest' fs
        end
      else (Some perm_denied, fs)
  end.

Definition MkdirAll (p : path) (perm : Z) : IO Hist (option error) :=
  sys (OMkdirAll p) (fun e fs => (Some e, fs)) (mkdirs perm [] p).

(** os.MkdirTemp(dir, prefix): a new directory, with permissions 0700. *)
Definition MkdirTemp (dir : path) (prefix : string) : IO Hist (result path) :=
  fun h =>
    let p := dir ++ [prefix +:+ os_temp E h] in
    sys (OMkdirTemp dir) (fun e fs => (inl e, fs))
      (fun fs => match paths_under p fs with
                 | _ :: _ => (inl (ENew "file exists"), fs)
                 | [] => if unlinkable fs wx p then (inr p, <[p := NDir rwx]> fs) else (inl not_exist, fs)
                 end) h.

(** os.WriteFile(p, data, perm): the file is opened, which creates or empties
    it, and written. *)
Definition w_bit : Z := 128. (* 0200 *)

Definition Create (p : path) (perm : Z) : IO Hist (option error) :=
  sys (OCreate p) (fun e fs => (Some e, fs))
    (fun fs => match find_node fs p with
               | inr (NFile mode _) => if has_bits mode w_bit then (None, <[p := NFile mode EmptyString]> fs) else (Some perm_denied, fs)
               | inr (NDir _) => (Some (ENew "is a directory"), fs)
               | inr _ => (Some perm_denied, fs)
               | inl e =>
                   if has_kind KNotExist e && bool_decide (fs !! p = None) && unlinkable fs wx p
                   then (None, <[p := NFile perm EmptyString]> fs) else (Some e, fs)
               end).

Definition set_data (p : path) (data : string) (fs : Fs) : Fs :=
  match fs !! p with Some (NFile mode _) => <[p := NFile mode data]> fs | _ => fs end.

Definition Write (p : path) (data : string) : IO Hist (option error) :=
  fun h => sys (OWrite p) (fun e fs => (Some e, set_data p (str_take (os_short E h) data) fs))
             (fun fs => (None, set_data p data fs)) h.

Definition WriteFile (p : path) (data : string) (perm : Z) : IO Hist (option error) :=
  let* err := Create p perm in
  match err with Some e => io_ret (Some e) | None => Write p data end.

(** os.Rename of a directory: what is below it moves along; the new path may
    only be an empty directory. *)
Definition move_path (old new p : path) : path := if under old p then new ++ drop (length old) p else p.

Definition move_tree (old new : path) (fs : Fs) : Fs :=
  list_to_map (map (fun '(p, n) => (move_path old new p, n))
    (List.filter (fun '(p, _) => negb (under new p)) (map_to_list fs))).

Definition Rename (old new : path) : IO Hist (option error) :=
  sys (ORename old new) (fun e fs => (Some e, fs))
    (fun fs => match find_node fs old with
               | inl e => (Some e, fs)
               | inr (NDir _) =>
                   if unlinkable fs wx old && unlinkable fs wx new then
                     match List.filter (fun p => negb (bool_decide (p = new))) (paths_under new fs), fs !! new with
                     | _ :: _, _ => (Some (ENew "directory not empty"), fs)
                     | [], None | [], Some (NDir _) => (None, move_tree old new fs)
                     | [], Some _ => (Some not_a_dir, fs)
                     end
                   else (Some perm_denied, fs)
               | inr _ => (Some not_a_dir, fs)
               end).

(** ** fs.go *)

Definition ownerWritableFileMode : Z := 448.
Definition ownerWritableDirMode : Z := 448.
Definition ownerReadOnlyFileMode : Z := 256.
Definition ownerReadOnlyDirMode : Z := 320.

(** filepath.Join below the base directory, for messages. *)
Definition path_String (p : path) : string := "/" +:+ strings_Join p "/".

(** The callback of setModeRecursive for an entry that is there. *)
Definition set_mode (fileMode dirMode : Z) (p : path) : IO Hist (option error) :=
  let* fi := Lstat p in
  match fi with
  | inl err => io_ret (Some err)
  | inr (NSymlink _) => io_ret None
  | inr (NDir _) => Chmod p dirMode
  | inr (NFile _ _) => Chmod p fileMode
  | inr (NSpecial typ) =>
      io_ret (Some (ENew ("refusing to change ownership of file " +:+ fmt_q (path_String p) +:+ " with type " +:+ typ)))
  end.

(** filepath.WalkDir with that callback, over the paths of the tree: after the
    callback a directory is listed; the callback passes over a directory that
    is gone, whose contents are then not visited. *)
Fixpoint walk (fileMode dirMode : Z) (skip : path -> bool) (ps : list path) : IO Hist (option error) :=
  match ps with
  | [] => io_ret None
  | p :: rest =>
      if skip p then walk fileMode dirMode skip rest
      else
        let* err := set_mode fileMode dirMode p in
        match err with
        | Some e => io_ret (Some e)
        | None =>
            let* fs := (fun h => (fs_cur h, h)) in
            match find_node fs p with
            | inr (NDir _) =>
                let* r := ReadDir p in
                match r with
                | inr _ => walk fileMode dirMode skip rest
                | inl e =>
                    if has_kind KNotExist e then walk fileMode dirMode (fun q => skip q || under p q) rest
                    else io_ret (Some e)
                end
            | _ => walk fileMode dirMode skip rest
            end
        end
  end.

(** func setModeRecursive(path, fileMode, dirMode) error *)
Definition setModeRecursive (root : path) (fileMode dirMode : Z) : IO Hist (option error) :=
  let* d := Lstat root in
  match d with
  | inl err => io_ret (if has_kind KNotExist err then None else Some err)
  | inr _ =>
      let* fs := (fun h => (fs_cur h, h)) in
      walk fileMode dirMode (fun _ => false) (paths_under root fs)
  end.

(** func SetReadOnlyRecursive(root string) error *)
Definition SetReadOnlyRecursive (root : path) : IO Hist (option error) :=
  setModeRecursive root ownerReadOnlyFileMode ownerReadOnlyDirMode.

(** func SetWritableRecursive(root string) error *)
Definition SetWritableRecursive (root : path) : IO Hist (option error) :=
  setModeRecursive root ownerWritableFileMode ownerWritableDirMode.

(** func DeleteReadOnlyRecursive(root string) error *)
Definition DeleteReadOnlyRecursive (root : path) : IO Hist (option error) :=
  let* err := SetWritableRecursive root in
  match err with
  | Some e => io_ret (Some (EWrap "error making directory writable for deletion: " e ""))
  | None => RemoveAll root
  end.

Fixpoint delete_entries (dir : path) (names : list string) : IO Hist (option error) :=
  match names with
  | [] => io_ret None
  | name :: rest =>
      let* err := DeleteReadOnlyRecursive (dir ++ [name]) in
      match err with
      | Some e => io_ret (Some e)
      | None => delete_entries dir rest
      end
  end.

(** func EnsureEmptyDirectory(path string, perm fs.FileMode) error *)
Definition EnsureEmptyDirectory (p : path) (perm : Z) : IO Hist (option error) :=
  let* entries := ReadDir p in
  match entries with
  | inl err => if has_kind KNotExist err then MkdirAll p perm else io_ret (Some err)
  | inr names =>
      let* err := delete_entries p names in
      match err with
      | Some e => io_ret (Some e)
      | None => MkdirAll p perm
      end
  end.

Definition ErrNotDirectory : error := not_a_dir.

(** func GetDirectoryModTime(dirPath string) (time.Time, error); the error
    says whether it is ErrNotDirectory. *)
Definition GetDirectoryModTime (p : path) : IO Hist (result (option Z)) :=
  let* dirStat := Stat p in
  match dirStat with
  | inl err => io_ret (inl err)
  | inr (NDir _) => fun h => (inr (Some (os_mtime E h p)), h)
  | inr _ => io_ret (inr None)
  end.

End Os.
