(* ===== verification/DiskProps.v ===== *)
(** * Correctness of the file system helpers

    A tree whose entries are files, directories and symbolic links is deleted
    completely, whatever its permissions, and nothing else is touched; the modes
    are set from the root down, which is what makes the next level reachable. *)

From Stdlib Require Import Ascii.
From S2P Require Import Prelude GoErrors DiskFs.

(** ** Running *)

(** From a history that ends in [fs], [m] answers [a] and leaves [fs']. *)
Definition exec {A} (m : IO Hist A) (fs : Fs) (a : A) (fs' : Fs) : Prop :=
  forall h, fs_cur h = fs -> exists t, m h = (a, h ++ t) /\ fs_cur (h ++ t) = fs'.

Lemma exec_ret {A} (a : A) fs : exec (io_ret a) fs a fs.
Proof. intros h <-. exists []. by rewrite app_nil_r. Qed.

Lemma exec_bind {A B} (m : IO Hist A) (k : A -> IO Hist B) fs a fs1 b fs2 :
  exec m fs a fs1 -> exec (k a) fs1 b fs2 -> exec (io_bind m k) fs b fs2.
Proof.
  intros Hm Hk h E. destruct (Hm h E) as (t & Et & E1). destruct (Hk _ E1) as (t' & Et' & E2).
  exists (t ++ t'). unfold io_bind. rewrite Et, Et', app_assoc. by rewrite <- app_assoc in *.
Qed.

Lemma exec_get fs : exec (fun h => (fs_cur h, h)) fs fs fs.
Proof. intros h <-. exists []. by rewrite app_nil_r. Qed.

Lemma fs_cur_snoc h fs : fs_cur (h ++ [fs]) = fs.
Proof. unfold fs_cur. by rewrite last_snoc. Qed.

Lemma exec_det {A} (m : IO Hist A) fs a a' fs1 fs2 : exec m fs a fs1 -> exec m fs a' fs2 -> a = a' /\ fs1 = fs2.
Proof.
  intros H1 H2. destruct (H1 [fs]) as (t & E & F); [done|]. destruct (H2 [fs]) as (t' & E' & F'); [done|].
  rewrite E in E'. injection E' as -> E'. by rewrite <- F, <- F', E'.
Qed.

(** What a run from a given history ends in. *)
Lemma exec_run {A} (m : IO Hist A) h a fs' : exec m (fs_cur h) a fs' -> (m h).1 = a /\ fs_cur (m h).2 = fs'.
Proof. intros H. destruct (H h eq_refl) as (t & E & F). by rewrite E. Qed.

(** ** Paths *)

#[export] Instance path_cmp_order : CmpOrder path_cmp.
Proof.
  split.
  - induction x as [|a x IH]; intros [|b y]; cbn; try lia.
    pose proof (cmp_anti (cmp := string_cmp) a b). pose proof (cmp_anti (cmp := string_cmp) b a).
    destruct (Z.eqb_spec (string_cmp a b) 0), (Z.eqb_spec (string_cmp b a) 0); try lia. apply IH.
  - induction x as [|a x IH]; intros [|b y] [|c z]; cbn; try lia.
    pose proof (cmp_anti (cmp := string_cmp) a b). pose proof (cmp_anti (cmp := string_cmp) b c).
    destruct (Z.eqb_spec (string_cmp a b) 0) as [E|E].
    + apply string_cmp_eq in E as ->. destruct (Z.eqb_spec (string_cmp b c) 0); [apply IH|done].
    + destruct (Z.eqb_spec (string_cmp b c) 0) as [F|F].
      * apply string_cmp_eq in F as ->. destruct (Z.eqb_spec (string_cmp a c) 0); [lia|done].
      * intros H1 H2. pose proof (cmp_trans (cmp := string_cmp) a b c H1 H2).
        destruct (Z.eqb_spec (string_cmp a c) 0) as [G|G]; [|done].
        apply string_cmp_eq in G as ->. pose proof (cmp_anti (cmp := string_cmp) c b). lia.
Qed.

Lemma path_cmp_below q r : r <> [] -> path_cmp q (q ++ r) < 0.
Proof.
  intros Hr. induction q as [|x q IH]; cbn; [by destruct r|].
  replace (string_cmp x x) with 0 by (symmetry; by apply string_cmp_eq). done.
Qed.

Lemma under_spec root p : under root p = true <-> root `prefix_of` p.
Proof. unfold under. by rewrite bool_decide_eq_true. Qed.

Lemma under_app root p : under root (root ++ p) = true.
Proof. apply under_spec. by exists p. Qed.

Lemma under_refl root : under root root = true.
Proof. apply under_spec. done. Qed.

Lemma under_trans a b c : under a b = true -> under b c = true -> under a c = true.
Proof. rewrite !under_spec. by etrans. Qed.

(** [q] is strictly above [p]. *)
Definition above (q p : path) : Prop := exists x r, p = q ++ x :: r.

Lemma above_under q p root : above q p -> under root p = true -> under root q = true \/ above q root.
Proof.
  intros (x & r & ->) [s Es]%under_spec. revert q Es. induction root as [|y root IH]; intros q Es.
  { left. apply under_spec, prefix_nil. }
  destruct q as [|z q]; [right; by exists y, root|]. injection Es as <- Es.
  destruct (IH _ Es) as [H|(x' & r' & ->)].
  - left. apply under_spec in H. by apply under_spec, prefix_cons.
  - right. by exists x', r'.
Qed.

Lemma parent_snoc p x : parent (p ++ [x]) = p.
Proof. unfold parent. apply removelast_last. Qed.

Lemma above_parent p : p <> [] -> above (parent p) p.
Proof.
  intros Hp. destruct (exists_last Hp) as (q & x & ->). rewrite parent_snoc. by exists x, [].
Qed.

Lemma above_trans a b c : above a b -> above b c -> above a c.
Proof. intros (x & r & ->) (y & s & ->). exists x, (r ++ y :: s). by rewrite <- app_assoc. Qed.

(** ** Finding *)

(** A directory that can be searched, or fully used. *)
Definition dir_with (bits : Z) (fs : Fs) (p : path) : Prop :=
  exists mode, fs !! p = Some (NDir mode) /\ has_bits mode bits = true.

(** The directories above [p] that are there can be searched. *)
Definition reachable (fs : Fs) (p : path) : Prop :=
  forall q, above q p -> is_Some (fs !! q) -> dir_with x_bit fs q.

(** The directories of the tree are there. *)
Definition wf (fs : Fs) : Prop := forall p q, above q p -> is_Some (fs !! p) -> exists mode, fs !! q = Some (NDir mode).

Lemma find_from_reachable fs (p d : path) :
  wf fs -> reachable fs (d ++ p) ->
  find_from fs d p = match fs !! (d ++ p) with Some n => inr n | None => inl not_exist end.
Proof.
  intros Hwf. revert d. induction p as [|x p IH]; intros d Hr.
  - assert (E : d ++ [] = d) by apply app_nil_r. rewrite E. cbn. by destruct (fs !! d) as [[]|].
  - destruct (fs !! d) as [n|] eqn:En.
    + destruct (Hr d) as (mode & El & Hb); [by exists x, p|eauto|]. cbn. rewrite El, Hb.
      change (x :: p) with ([x] ++ p) in *. rewrite app_assoc in *. by apply IH.
    + cbn. rewrite En. destruct (fs !! (d ++ x :: p)) as [n|] eqn:Ep; [|done].
      destruct (Hwf (d ++ x :: p) d) as [mode Em]; [by exists x, p|eauto|congruence].
Qed.

Lemma find_node_reachable fs p :
  wf fs -> reachable fs p -> find_node fs p = match fs !! p with Some n => inr n | None => inl not_exist end.
Proof. intros Hwf. by apply (find_from_reachable fs p []). Qed.

Lemma has_bits_weaken mode a b : has_bits mode a = true -> Z.land a b = b -> has_bits mode b = true.
Proof.
  unfold has_bits. rewrite !Z.eqb_eq. intros H1 H2. rewrite <- H2 at 1. rewrite Z.land_assoc, H1. done.
Qed.

Lemma dir_with_x fs p bits : Z.land bits x_bit = x_bit -> dir_with bits fs p -> dir_with x_bit fs p.
Proof. intros Hb (mode & E & H). exists mode. split; [done|]. by apply (has_bits_weaken _ bits). Qed.

Lemma elem_of_paths_under root fs p : p ∈ paths_under root fs <-> under root p = true /\ is_Some (fs !! p).
Proof.
  unfold paths_under. rewrite elem_of_sort_by, list_elem_of_In, filter_In, <- list_elem_of_In, list_elem_of_fmap. split.
  - intros [((q & n) & -> & Hq%elem_of_map_to_list) Hu]. split; [done|]. by exists n.
  - intros [Hu [n Hn]]. split; [|done]. exists (p, n). split; [done|]. by apply elem_of_map_to_list.
Qed.

Lemma paths_under_nodup root fs : NoDup (paths_under root fs).
Proof.
  unfold paths_under. rewrite sort_by_perm. assert (H : NoDup (map fst (map_to_list fs))) by apply NoDup_fst_map_to_list.
  induction H as [|p l Hp Hl IH]; cbn; [constructor|]. destruct (under root p); [|done]. constructor; [|done].
  rewrite list_elem_of_In, filter_In, <- list_elem_of_In. tauto.
Qed.

(** In the order of the walk, what is above a path comes before it. *)
Lemma walk_order root fs done p rest q :
  paths_under root fs = done ++ p :: rest -> above q p -> q ∈ paths_under root fs -> q ∈ done.
Proof.
  intros E (x & r & Ep) Hq. pose proof (sort_by_sorted path_cmp (List.filter (under root) (map fst (map_to_list fs)))) as Hs.
  fold (paths_under root fs) in Hs. rewrite E in Hs, Hq. apply elem_of_app in Hq as [|Hq]; [done|exfalso].
  assert (Hlt : path_cmp q p < 0) by (rewrite Ep; by apply path_cmp_below).
  apply elem_of_cons in Hq as [->|Hq]; [rewrite (cmp_refl path_cmp p) in Hlt; lia|].
  assert (Hs2 : StronglySorted (cmp_le path_cmp) (p :: rest)).
  { clear -Hs. induction done as [|a d IH]; [done|]. inversion Hs; subst. auto. }
  inversion Hs2 as [|? ? _ Hp]; subst. rewrite Forall_forall in Hp. specialize (Hp _ Hq). unfold cmp_le in Hp.
  apply cmp_anti in Hlt. lia.
Qed.

(** ** Setting modes *)

(** The operating system decides on no failures of its own. *)
Class Quiet (E : OsEnv) : Prop := quiet : forall h c, os_fails E h c = None.

Definition is_special (n : node) : bool := match n with NSpecial _ => true | _ => false end.

(** Nothing but files, directories and symbolic links below [root]. *)
Definition plain (root : path) (fs : Fs) : Prop :=
  forall p n, under root p = true -> fs !! p = Some n -> is_special n = false.

Definition chmod_to (fileMode dirMode : Z) (n : node) : node :=
  match n with
  | NFile _ data => NFile fileMode data
  | NDir _ => NDir dirMode
  | n => n
  end.

(** The tree with the modes of the given paths set. *)
Definition chmods (fileMode dirMode : Z) (ps : list path) (fs : Fs) : Fs :=
  map_imap (fun p n => Some (if decide (p ∈ ps) then chmod_to fileMode dirMode n else n)) fs.

(** The tree with all modes at [root] and below set. *)
Definition chmod_tree (fileMode dirMode : Z) (root : path) (fs : Fs) : Fs :=
  map_imap (fun p n => Some (if under root p then chmod_to fileMode dirMode n else n)) fs.

Lemma lookup_chmods fm dm ps fs p :
  chmods fm dm ps fs !! p = (fun n => if decide (p ∈ ps) then chmod_to fm dm n else n) <$> fs !! p.
Proof. unfold chmods. rewrite map_lookup_imap. by destruct (fs !! p). Qed.

Lemma lookup_chmod_tree fm dm root fs p :
  chmod_tree fm dm root fs !! p = (fun n => if under root p then chmod_to fm dm n else n) <$> fs !! p.
Proof. unfold chmod_tree. rewrite map_lookup_imap. by destruct (fs !! p). Qed.

Lemma lookup_chmods_in fm dm ps fs p : p ∈ ps -> chmods fm dm ps fs !! p = chmod_to fm dm <$> fs !! p.
Proof. intros H. rewrite lookup_chmods. destruct (fs !! p); [|done]. cbn. by rewrite decide_True. Qed.

Lemma lookup_chmods_out fm dm ps fs p : p ∉ ps -> chmods fm dm ps fs !! p = fs !! p.
Proof. intros H. rewrite lookup_chmods. destruct (fs !! p); [|done]. cbn. by rewrite decide_False. Qed.

Lemma chmods_nil fm dm fs : chmods fm dm [] fs = fs.
Proof. apply map_eq. intros p. rewrite lookup_chmods. destruct (fs !! p); [|done]. cbn. by rewrite decide_False by apply not_elem_of_nil. Qed.

Lemma chmods_all fm dm root fs : chmods fm dm (paths_under root fs) fs = chmod_tree fm dm root fs.
Proof.
  apply map_eq. intros p. rewrite lookup_chmods, lookup_chmod_tree. destruct (fs !! p) as [n|] eqn:E; [|done]. cbn. f_equal.
  destruct (under root p) eqn:Eu.
  - rewrite decide_True; [done|]. apply elem_of_paths_under. eauto.
  - rewrite decide_False; [done|]. intros [H _]%elem_of_paths_under. congruence.
Qed.

Lemma wf_chmods fm dm ps fs : wf fs -> wf (chmods fm dm ps fs).
Proof.
  intros Hwf p q Hq [n Hn]. rewrite lookup_chmods in *. destruct (fs !! p) as [np|] eqn:Ep; [|done].
  destruct (Hwf p q Hq) as [m Em]; [eauto|]. rewrite Em. cbn. destruct (decide (q ∈ ps)); eauto.
Qed.

Section Modes.
Context (E : OsEnv) `{!Quiet E}.

Lemma exec_sys {A} (c : os_call) (failed : error -> Fs -> A * Fs) (f : Fs -> A * Fs) (fs : Fs) : exec (sys E c failed f) fs (f fs).1 (f fs).2.
Proof.
  intros h <-. unfold sys. rewrite quiet. destruct (f (fs_cur h)) as [a fs']. exists [fs']. by rewrite fs_cur_snoc.
Qed.

Lemma exec_Lstat fs p : exec (Lstat E p) fs (find_node fs p) fs.
Proof. apply (exec_sys (OLstat p)). Qed.

Lemma exec_ReadDir fs p :
  exec (ReadDir E p) fs
    (match find_node fs p with
     | inr (NDir mode) => if has_bits mode r_bit then inr (dir_names p fs) else inl perm_denied
     | inr _ => inl not_a_dir
     | inl e => inl e
     end) fs.
Proof. apply (exec_sys (OReadDir p)). Qed.

Lemma exec_Chmod fs p mode n : find_node fs p = inr n -> exec (Chmod E p mode) fs None (<[p := chmod_node mode n]> fs).
Proof.
  intros Hn. assert (H : exec (Chmod E p mode) fs
    (match find_node fs p with inr n => (None, <[p := chmod_node mode n]> fs) | inl e => (Some e, fs) end).1
    (match find_node fs p with inr n => (None, <[p := chmod_node mode n]> fs) | inl e => (Some e, fs) end).2).
  { apply (exec_sys (OChmod p)). }
  by rewrite Hn in H.
Qed.

Context (fm dm : Z) (Hx : has_bits dm x_bit = true) (Hr : has_bits dm r_bit = true).

Lemma exec_set_mode fs p n :
  find_node fs p = inr n -> is_special n = false ->
  exec (set_mode E fm dm p) fs None (<[p := chmod_to fm dm n]> fs).
Proof.
  intros Hn Hs. assert (Hsame : fs !! p = Some n -> <[p := n]> fs = fs) by apply insert_id.
  assert (Hl : fs !! p = Some n).
  { clear -Hn. unfold find_node in Hn. change p with ([] ++ p). revert Hn. generalize (@nil string).
    induction p as [|x p IH]; intros d Hn.
    - rewrite app_nil_r. cbn in Hn. by destruct (fs !! d) as [[]|]; simplify_eq.
    - change (x :: p) with ([x] ++ p). rewrite app_assoc. apply IH. cbn in Hn. destruct (fs !! d) as [[]|]; try done.
      by destruct (has_bits _ _). }
  eapply exec_bind; [apply exec_Lstat|]. rewrite Hn. destruct n; try done.
  - by eapply exec_Chmod in Hn.
  - by eapply exec_Chmod in Hn.
  - cbn. rewrite Hsame by done. apply exec_ret.
Qed.

(** The state of the walk: what was visited has its mode. *)
Lemma walk_reachable root fs done p rest :
  wf fs -> reachable fs root -> paths_under root fs = done ++ p :: rest -> reachable (chmods fm dm done fs) p.
Proof.
  intros Hwf Hroot Ep q Hq _.
  assert (Hp : under root p = true /\ is_Some (fs !! p)).
  { apply elem_of_paths_under. rewrite Ep. set_solver. }
  destruct Hp as [Hu Hp]. destruct (Hwf p q Hq Hp) as [mode Em].
  destruct (above_under q p root Hq Hu) as [Huq|Haq].
  - assert (Hd : q ∈ done).
    { apply (walk_order root fs done p rest); [done..|]. apply elem_of_paths_under. eauto. }
    exists dm. by rewrite lookup_chmods_in, Em.
  - destruct (Hroot q Haq) as (m & Eq & Hm); [eauto|]. exists m. rewrite lookup_chmods_out; [done|].
    intros Hd. assert (Hin : q ∈ paths_under root fs) by (rewrite Ep; set_solver).
    apply elem_of_paths_under in Hin as [Huq _]. apply under_spec in Huq as [s ->]. destruct Haq as (x & r & Er).
    apply (f_equal length) in Er. rewrite !length_app in Er. cbn in Er. lia.
Qed.

Lemma chmods_snoc done p fs n :
  fs !! p = Some n -> p ∉ done -> <[p := chmod_to fm dm n]> (chmods fm dm done fs) = chmods fm dm (done ++ [p]) fs.
Proof.
  intros En Hp. apply map_eq. intros q. rewrite lookup_chmods. destruct (decide (q = p)) as [->|Hq].
  - rewrite lookup_insert_eq, <- lookup_chmods, lookup_chmods_in, En by set_solver. done.
  - rewrite lookup_insert_ne, lookup_chmods by done. destruct (fs !! q); [|done]. cbn. f_equal.
    destruct (decide (q ∈ done)); [by rewrite decide_True by set_solver|by rewrite decide_False by set_solver].
Qed.

(** One step of the walk. *)
Lemma walk_step root fs done p rest n a fs' :
  wf fs -> reachable fs root -> paths_under root fs = done ++ p :: rest ->
  fs !! p = Some n -> is_special n = false ->
  exec (walk E fm dm (fun _ => false) rest) (chmods fm dm (done ++ [p]) fs) a fs' ->
  exec (walk E fm dm (fun _ => false) (p :: rest)) (chmods fm dm done fs) a fs'.
Proof.
  intros Hwf Hroot Ep En Hs Hrest. pose proof (walk_reachable root fs done p rest Hwf Hroot Ep) as Hre.
  assert (Hp : p ∉ done).
  { pose proof (paths_under_nodup root fs) as Hn. rewrite Ep in Hn. apply NoDup_app in Hn as (_ & Hn & _).
    intros Hd. apply (Hn p Hd). set_solver. }
  cbn [walk]. eapply exec_bind; [eapply (exec_set_mode _ _ n)|].
  - rewrite find_node_reachable, lookup_chmods_out by (done || by apply wf_chmods). by rewrite En.
  - done.
  - rewrite (chmods_snoc done p fs n) by done. eapply exec_bind; [apply exec_get|].
    assert (Hre' : reachable (chmods fm dm (done ++ [p]) fs) p).
    { intros q Hq [nq' Hnq]. assert (His : is_Some (chmods fm dm done fs !! q)).
      { rewrite lookup_chmods in *. destruct (fs !! q); [by eexists|done]. }
      destruct (Hre q Hq His) as (m & Eq & Hm). rewrite lookup_chmods in Eq.
      destruct (fs !! q) as [nq|] eqn:Enq; [|done]. injection Eq as Eq. exists m. split; [|done].
      rewrite <- Eq. destruct (decide (q ∈ done)); [by rewrite lookup_chmods_in, Enq by set_solver|].
      rewrite lookup_chmods_out; [done|]. rewrite elem_of_app, list_elem_of_singleton. intros [?| ->]; [done|].
      destruct Hq as (x & r & Er). apply (f_equal length) in Er. rewrite length_app in Er. cbn in Er. lia. }
    assert (Hf : find_node (chmods fm dm (done ++ [p]) fs) p = inr (chmod_to fm dm n)).
    { rewrite find_node_reachable, lookup_chmods_in, En by (done || by apply wf_chmods || set_solver). done. }
    rewrite Hf. destruct n; try done; cbn [chmod_to] in *.
    eapply exec_bind; [apply exec_ReadDir|]. by rewrite Hf, Hr.
Qed.

Lemma exec_walk root fs done rest :
  wf fs -> reachable fs root -> plain root fs -> paths_under root fs = done ++ rest ->
  exec (walk E fm dm (fun _ => false) rest) (chmods fm dm done fs) None (chmod_tree fm dm root fs).
Proof.
  intros Hwf Hroot Hplain. revert done. induction rest as [|p rest IH]; intros done Ep.
  - rewrite app_nil_r in Ep. rewrite <- Ep, chmods_all. apply exec_ret.
  - assert (Hp : under root p = true /\ is_Some (fs !! p)) by (apply elem_of_paths_under; rewrite Ep; set_solver).
    destruct Hp as [Hu [n En]]. apply (walk_step root fs done p rest n); try done; [by eapply Hplain|].
    apply IH. by rewrite <- app_assoc.
Qed.

(** The callback passes over a root that is not there. *)
Lemma exec_setModeRecursive root fs :
  wf fs -> reachable fs root -> plain root fs ->
  exec (setModeRecursive E root fm dm) fs None (chmod_tree fm dm root fs).
Proof.
  intros Hwf Hroot Hplain. eapply exec_bind; [apply exec_Lstat|]. rewrite find_node_reachable by done.
  destruct (fs !! root) as [n|] eqn:En.
  - eapply exec_bind; [apply exec_get|]. rewrite <- (chmods_nil fm dm fs) at 2. by apply exec_walk.
  - assert (Hsame : chmod_tree fm dm root fs = fs).
    { apply map_eq. intros p. rewrite lookup_chmod_tree. destruct (fs !! p) as [np|] eqn:Enp; [|done]. cbn.
      destruct (under root p) eqn:Hu; [|done]. exfalso. apply under_spec in Hu as [s ->]. destruct s as [|x s].
      - rewrite app_nil_r in Enp. congruence.
      - destruct (Hwf (root ++ x :: s) root) as [m Em]; [by exists x, s|eauto|congruence]. }
    rewrite Hsame. apply exec_ret.
Qed.

(** Anything else ends the walk with an error, after the modes of some of the
    entries were set. *)
Lemma exec_walk_special root fs done rest p0 n0 :
  wf fs -> reachable fs root -> paths_under root fs = done ++ rest -> p0 ∈ rest -> fs !! p0 = Some n0 ->
  is_special n0 = true ->
  exists e done', exec (walk E fm dm (fun _ => false) rest) (chmods fm dm done fs) (Some e) (chmods fm dm done' fs) /\
    (forall q, q ∈ done' -> under root q = true).
Proof.
  intros Hwf Hroot. revert done. induction rest as [|p rest IH]; intros done Ep Hin E0 Hs0; [by apply not_elem_of_nil in Hin|].
  assert (Hp : under root p = true /\ is_Some (fs !! p)) by (apply elem_of_paths_under; rewrite Ep; set_solver).
  destruct Hp as [Hu [n En]]. destruct (is_special n) eqn:Hs.
  - destruct n as [| | |typ]; try done. eexists _, done. split.
    + assert (Hf : find_node (chmods fm dm done fs) p = inr (NSpecial typ)).
      { rewrite find_node_reachable, lookup_chmods, En by (by apply wf_chmods || by eapply walk_reachable). cbn.
        by destruct (decide _). }
      cbn [walk]. eapply exec_bind; [eapply exec_bind; [apply exec_Lstat|rewrite Hf; apply exec_ret]|apply exec_ret].
    + intros q Hq. assert (Hin' : q ∈ paths_under root fs) by (rewrite Ep; set_solver).
      by apply elem_of_paths_under in Hin' as [? _].
  - apply elem_of_cons in Hin as [->|Hin]; [congruence|].
    destruct (IH (done ++ [p])) as (e & done' & Hex & Hd); [by rewrite <- app_assoc|done..|].
    exists e, done'. split; [|done]. by eapply walk_step.
Qed.

End Modes.

(** ** Deleting *)

(** The tree without [root]. *)
Definition without (root : path) (fs : Fs) : Fs := filter (fun '(p, _) => under root p = false) fs.

Lemma lookup_without root fs p : without root fs !! p = if under root p then None else fs !! p.
Proof.
  unfold without. destruct (under root p) eqn:Hu.
  - apply map_lookup_filter_None. right. intros n _. congruence.
  - destruct (fs !! p) as [n|] eqn:En; [by apply map_lookup_filter_Some|]. apply map_lookup_filter_None. by left.
Qed.

(** The directories above [root] can be used. *)
Definition open_above (fs : Fs) (root : path) : Prop :=
  forall q, above q root -> is_Some (fs !! q) -> dir_with rwx fs q.

Lemma open_reachable fs root : open_above fs root -> reachable fs root.
Proof. intros H q Hq Hs. apply (dir_with_x _ _ rwx); [done|]. by apply H. Qed.

(** Every directory of the tree can be used. *)
Definition open_tree (root : path) (fs : Fs) : Prop :=
  forall p mode, under root p = true -> fs !! p = Some (NDir mode) -> has_bits mode rwx = true.

Lemma unlinkable_open fs root p bits :
  wf fs -> open_above fs root -> open_tree root fs -> root <> [] -> under root p = true -> is_Some (fs !! p) ->
  Z.land rwx bits = bits -> unlinkable fs bits p = true.
Proof.
  intros Hwf Ho Ht Hr Hu Hp Hb. assert (Hne : p <> []).
  { intros ->. apply under_spec in Hu as [s Es]. by destruct root. }
  assert (Hdir : forall q, above q p -> dir_with rwx fs q).
  { intros q Hq. destruct (Hwf p q Hq Hp) as [mode Em]. destruct (above_under q p root Hq Hu) as [Huq|Haq]; [|apply Ho; eauto].
    exists mode. split; [done|]. by eapply Ht. }
  unfold unlinkable. rewrite find_node_reachable; [|done|].
  - destruct (Hdir (parent p)) as (mode & Em & Hm); [by apply above_parent|]. rewrite Em. by apply (has_bits_weaken _ rwx).
  - intros q Hq _. apply (dir_with_x _ _ rwx); [done|]. apply Hdir. eapply above_trans; [done|by apply above_parent].
Qed.

Lemma paths_under_nil root fs : paths_under root fs = [] <-> forall p, under root p = true -> fs !! p = None.
Proof.
  split.
  - intros H p Hu. destruct (fs !! p) as [n|] eqn:En; [|done]. exfalso.
    assert (Hin : p ∈ paths_under root fs) by (apply elem_of_paths_under; eauto). rewrite H in Hin. by apply not_elem_of_nil in Hin.
  - intros H. destruct (paths_under root fs) as [|p l] eqn:Ep; [done|]. exfalso.
    assert (Hin : p ∈ paths_under root fs) by (rewrite Ep; set_solver). apply elem_of_paths_under in Hin as [Hu [n En]].
    by rewrite H in En.
Qed.

Section Deleting.
Context (E : OsEnv) `{!Quiet E}.

Lemma wf_absent root fs : wf fs -> fs !! root = None -> forall p, under root p = true -> fs !! p = None.
Proof.
  intros Hwf Hn p [s ->]%under_spec. destruct s as [|x s]; [by rewrite app_nil_r|].
  destruct (fs !! (root ++ x :: s)) as [n|] eqn:En; [|done].
  destruct (Hwf (root ++ x :: s) root) as [m Em]; [by exists x, s|eauto|congruence].
Qed.

Lemma without_absent root fs : wf fs -> fs !! root = None -> without root fs = fs.
Proof.
  intros Hwf Hn. apply map_eq. intros p. rewrite lookup_without. destruct (under root p) eqn:Hu; [|done].
  symmetry. by eapply wf_absent.
Qed.

Lemma remove_tree_open fs root :
  wf fs -> open_above fs root -> open_tree root fs -> root <> [] -> remove_tree root fs = without root fs.
Proof.
  intros Hwf Ho Ht Hr. unfold remove_tree, without. apply map_filter_ext. intros p n Hp.
  destruct (under root p) eqn:Hu; cbn [andb]; [|done].
  assert (Hrm : removable fs root p = true); [|by rewrite Hrm].
  unfold removable. apply forallb_elem. intros q Hq. destruct (under p q) eqn:Hpq; cbn; [|done].
  apply list_elem_of_fmap in Hq as ((q' & nq) & -> & Hq%elem_of_map_to_list). cbn in *.
  apply (unlinkable_open fs root); try done.
  - by eapply under_trans.
  - by case_decide.
Qed.

Lemma exec_RemoveAll fs root :
  wf fs -> open_above fs root -> open_tree root fs -> root <> [] -> exec (RemoveAll E root) fs None (without root fs).
Proof.
  intros Hwf Ho Ht Hr h Eh. unfold RemoveAll, sys. rewrite quiet, Eh, find_node_reachable by (done || by apply open_reachable).
  destruct (fs !! root) as [n|] eqn:En; cbn.
  - rewrite remove_tree_open by done. rewrite (proj2 (paths_under_nil root (without root fs))).
    + exists [without root fs]. by rewrite fs_cur_snoc.
    + intros p Hu. by rewrite lookup_without, Hu.
  - exists [fs]. rewrite fs_cur_snoc. by rewrite without_absent.
Qed.

Lemma wf_chmod_tree fm dm root fs : wf fs -> wf (chmod_tree fm dm root fs).
Proof.
  intros Hwf p q Hq [n Hn]. rewrite lookup_chmod_tree in *. destruct (fs !! p) as [np|] eqn:Ep; [|done].
  destruct (Hwf p q Hq) as [m Em]; [eauto|]. rewrite Em. cbn. destruct (under root q); eauto.
Qed.

Lemma open_above_chmod_tree fm dm root fs : open_above fs root -> open_above (chmod_tree fm dm root fs) root.
Proof.
  intros Ho q Hq [n Hn]. rewrite lookup_chmod_tree in Hn. destruct (Ho q Hq) as (m & Em & Hm).
  { destruct (fs !! q); [by eexists|done]. }
  exists m. split; [|done]. rewrite lookup_chmod_tree, Em. cbn.
  destruct (under root q) eqn:Hu; [|done]. apply under_spec in Hu as [s ->]. destruct Hq as (x & r & Er).
  apply (f_equal length) in Er. rewrite !length_app in Er. cbn in Er. lia.
Qed.

Lemma without_chmod_tree fm dm root fs : without root (chmod_tree fm dm root fs) = without root fs.
Proof.
  apply map_eq. intros p. rewrite !lookup_without, lookup_chmod_tree. destruct (under root p); [done|]. by destruct (fs !! p).
Qed.

Lemma exec_DeleteReadOnlyRecursive fs root :
  wf fs -> open_above fs root -> plain root fs -> root <> [] ->
  exec (DeleteReadOnlyRecursive E root) fs None (without root fs).
Proof.
  intros Hwf Ho Hp Hr. eapply exec_bind.
  { apply exec_setModeRecursive; [done..| |done]. by apply open_reachable. }
  cbn. rewrite <- (without_chmod_tree ownerWritableFileMode ownerWritableDirMode root fs). apply exec_RemoveAll.
  - by apply wf_chmod_tree.
  - by apply open_above_chmod_tree.
  - intros p mode Hu Hl. rewrite lookup_chmod_tree in Hl. destruct (fs !! p) as [n|]; [|done]. rewrite Hu in Hl.
    destruct n; try done. by injection Hl as <-.
  - done.
Qed.

(** With anything else in the tree its modes are set in part. *)
Lemma exec_setMode_special fs root p n fm dm :
  has_bits dm x_bit = true -> has_bits dm r_bit = true ->
  wf fs -> reachable fs root -> under root p = true -> fs !! p = Some n -> is_special n = true ->
  exists e vis, exec (setModeRecursive E root fm dm) fs (Some e) (chmods fm dm vis fs) /\
    (forall q, q ∈ vis -> under root q = true).
Proof.
  intros Hx Hr Hwf Ho Hu Hl Hs.
  assert (Hin : p ∈ paths_under root fs) by (apply elem_of_paths_under; eauto).
  destruct (exec_walk_special E fm dm Hx Hr root fs [] (paths_under root fs) p n) as (e & vis & Hex & Hd); try done. 
  rewrite chmods_nil in Hex. exists e, vis. split; [|done].
  eapply exec_bind; [by apply exec_Lstat|]. rewrite find_node_reachable by done.
  destruct (fs !! root) as [nr|] eqn:En; [|by rewrite (wf_absent root fs Hwf En p Hu) in Hl].
  eapply exec_bind; [apply exec_get|done].
Qed.

(** Nothing of it is deleted then. *)
Lemma exec_DeleteReadOnlyRecursive_special fs root p n :
  wf fs -> open_above fs root -> under root p = true -> fs !! p = Some n -> is_special n = true ->
  exists e vis, exec (DeleteReadOnlyRecursive E root) fs (Some e)
      (chmods ownerWritableFileMode ownerWritableDirMode vis fs) /\
    (forall q, q ∈ vis -> under root q = true).
Proof.
  intros Hwf Ho Hu Hl Hs. apply open_reachable in Ho.
  destruct (exec_setMode_special fs root p n ownerWritableFileMode ownerWritableDirMode eq_refl eq_refl Hwf Ho Hu Hl Hs)
    as (e & vis & Hex & Hd).
  eexists _, vis. split; [|done]. eapply exec_bind; [exact Hex|apply exec_ret].
Qed.

End Deleting.

Lemma wf_without root fs : wf fs -> wf (without root fs).
Proof.
  intros Hwf p q Hq [n Hn]. rewrite lookup_without in *. destruct (under root p) eqn:Hu; [done|].
  destruct (Hwf p q Hq) as [m Em]; [eauto|]. exists m. destruct (under root q) eqn:Huq; [|done].
  destruct Hq as (x & r & ->). apply under_spec in Huq as [s ->]. rewrite <- app_assoc, under_app in Hu. done.
Qed.

(** ** Runs with a choice of answers *)

Definition runs {A} (m : IO Hist A) (fs : Fs) (Q : A -> Fs -> Prop) : Prop :=
  forall h, fs_cur h = fs -> exists t, (m h).2 = h ++ t /\ Q (m h).1 (fs_cur (h ++ t)).

Lemma runs_exec {A} (m : IO Hist A) (fs : Fs) (a : A) (fs' : Fs) (Q : A -> Fs -> Prop) : exec m fs a fs' -> Q a fs' -> runs m fs Q.
Proof. intros Hm HQ h Eh. destruct (Hm h Eh) as (t & Et & Ef). exists t. rewrite Et. cbn. by rewrite Ef. Qed.

Lemma runs_ret {A} (a : A) (fs : Fs) (Q : A -> Fs -> Prop) : Q a fs -> runs (io_ret a) fs Q.
Proof. apply runs_exec, exec_ret. Qed.

Lemma runs_bind {A B} (m : IO Hist A) (k : A -> IO Hist B) (fs : Fs) (Q : B -> Fs -> Prop) :
  runs m fs (fun a fs1 => runs (k a) fs1 Q) -> runs (io_bind m k) fs Q.
Proof.
  intros Hm h Eh. destruct (Hm h Eh) as (t & Et & Hk). destruct (Hk (h ++ t) eq_refl) as (t' & Et' & HQ).
  exists (t ++ t'). rewrite io_bind_run, Et, app_assoc. done.
Qed.

Lemma runs_exec_bind {A B} (m : IO Hist A) (k : A -> IO Hist B) (fs : Fs) (a : A) (fs1 : Fs) (Q : B -> Fs -> Prop) :
  exec m fs a fs1 -> runs (k a) fs1 Q -> runs (io_bind m k) fs Q.
Proof. intros Hm Hk. apply runs_bind. by eapply runs_exec. Qed.

Lemma runs_weaken {A} (m : IO Hist A) (fs : Fs) (Q R : A -> Fs -> Prop) :
  runs m fs Q -> (forall a fs', Q a fs' -> R a fs') -> runs m fs R.
Proof. intros Hm HQR h Eh. destruct (Hm h Eh) as (t & Et & HQ). eauto. Qed.

Lemma runs_spec {A} (m : IO Hist A) (h : Hist) (Q : A -> Fs -> Prop) : runs m (fs_cur h) Q -> Q (m h).1 (fs_cur (m h).2).
Proof. intros Hm. destruct (Hm h eq_refl) as (t & -> & HQ). done. Qed.

(** The tree below a path. *)
Definition tree_at (root : path) (fs : Fs) : Fs := filter (fun '(p, _) => under root p = true) fs.

Lemma lookup_tree_at root fs p : tree_at root fs !! p = if under root p then fs !! p else None.
Proof.
  unfold tree_at. destruct (under root p) eqn:Hu.
  - destruct (fs !! p) as [n|] eqn:En; [by apply map_lookup_filter_Some|]. apply map_lookup_filter_None. by left.
  - apply map_lookup_filter_None. right. intros n _. congruence.
Qed.


Lemma elem_of_dir_names dir fs x : x ∈ dir_names dir fs <-> is_Some (fs !! (dir ++ [x])).
Proof.
  unfold dir_names. rewrite elem_of_sort_by, list_elem_of_omap. split.
  - intros (p & Hp & Hx). apply list_elem_of_fmap in Hp as ((p' & n) & -> & Hn%elem_of_map_to_list). cbn in *.
    case_bool_decide as Hd; [|done]. destruct Hd as [<- Hne]. destruct (exists_last Hne) as (q & y & ->).
    rewrite last_snoc in Hx. injection Hx as ->. rewrite parent_snoc. eauto.
  - intros [n Hn]. exists (dir ++ [x]). split.
    + apply list_elem_of_fmap. exists (dir ++ [x], n). split; [done|]. by apply elem_of_map_to_list.
    + rewrite bool_decide_eq_true_2; [by rewrite last_snoc|]. rewrite parent_snoc. split; [done|by destruct dir].
Qed.

(** ** Calls that may fail *)

Section Any.
Context (E : OsEnv).

Lemma runs_sys {A} (c : os_call) (failed : error -> Fs -> A * Fs) (f : Fs -> A * Fs) (fs : Fs) (Q : A -> Fs -> Prop) :
  (forall e, Q (failed e fs).1 (failed e fs).2) -> Q (f fs).1 (f fs).2 -> runs (sys E c failed f) fs Q.
Proof.
  intros Hf Hs h Eh. unfold sys. rewrite Eh. destruct (os_fails E h c) as [e|].
  - specialize (Hf e). destruct (failed e fs) as [a fs']. exists [fs']. by rewrite fs_cur_snoc.
  - destruct (f fs) as [a fs']. exists [fs']. by rewrite fs_cur_snoc.
Qed.

(** A call whose parts look at the history. *)
Lemma runs_dep {A} (m : Hist -> IO Hist A) (fs : Fs) (Q : A -> Fs -> Prop) :
  (forall h, runs (m h) fs Q) -> runs (fun h => m h h) fs Q.
Proof. intros Hm h Eh. by apply Hm. Qed.

(** What making directories changes. *)
Lemma mkdirs_frame (perm : Z) (rest : path) : forall (dir : path) (fs : Fs) (q : path),
  let fs' := (mkdirs perm dir rest fs).2 in
  fs' !! q = fs !! q \/ (fs !! q = None /\ fs' !! q = Some (NDir perm) /\ dir `prefix_of` q /\ q `prefix_of` dir ++ rest).
Proof.
  induction rest as [|x rest IH]; intros dir fs q; cbn [mkdirs].
  - destruct (fs !! dir) as [[]|] eqn:Ed; auto. destruct (_ || _); [|auto]. cbn.
    destruct (decide (q = dir)) as [->|]; [|rewrite lookup_insert_ne by done; auto].
    right. rewrite lookup_insert_eq, app_nil_r. auto.
  - destruct (fs !! dir) as [[]|] eqn:Ed; auto.
    + destruct (IH (dir ++ [x]) fs q) as [H|(H1 & H2 & H3 & H4)]; [auto|]. right. split_and!; try done.
      * etrans; [|apply H3]. by exists [x].
      * by rewrite <- app_assoc in H4.
    + destruct (_ || _); [|auto]. destruct (IH (dir ++ [x]) (<[dir := NDir perm]> fs) q) as [H|(H1 & H2 & H3 & H4)].
      * destruct (decide (q = dir)) as [->|Hq]; [|rewrite lookup_insert_ne in H by done; auto].
        right. rewrite lookup_insert_eq in H. split_and!; try done. by exists (x :: rest).
      * right. destruct (decide (q = dir)) as [->|Hq]; [by rewrite lookup_insert_eq in H1|].
        rewrite lookup_insert_ne in H1 by done. split_and!; try done; [etrans; [|apply H3]; by exists [x]|].
        by rewrite <- app_assoc in H4.
Qed.

Lemma runs_MkdirAll (p : path) (perm : Z) (fs : Fs) :
  runs (MkdirAll E p perm) fs (fun _ fs' => forall q,
    fs' !! q = fs !! q \/ (fs !! q = None /\ fs' !! q = Some (NDir perm) /\ q `prefix_of` p)).
Proof.
  apply runs_sys; cbn; [auto|]. intros q. destruct (mkdirs_frame perm p [] fs q) as [|(?&?&_&?)]; auto.
Qed.

Lemma runs_RemoveAll (root : path) (fs : Fs) :
  runs (RemoveAll E root) fs (fun r fs' =>
    (forall q, under root q = false -> fs' !! q = fs !! q) /\ (forall q, fs' !! q = fs !! q \/ fs' !! q = None)).
Proof.
  assert (Hfil : forall (P : path * node -> Prop) `{!forall x, Decision (P x)},
    (forall p n, under root p = false -> P (p, n)) ->
    (forall q, under root q = false -> filter P fs !! q = fs !! q) /\
    (forall q, filter P fs !! q = fs !! q \/ filter P fs !! q = None)).
  { intros P HP Hu. assert (H2 : forall q, filter P fs !! q = fs !! q \/ filter P fs !! q = None).
    { intros q. destruct (filter P fs !! q) as [n|] eqn:En; [|by right]. left. by apply map_lookup_filter_Some in En as [-> _]. }
    split; [|done]. intros q Hq. destruct (fs !! q) as [n|] eqn:En.
    - apply map_lookup_filter_Some. auto.
    - destruct (H2 q) as [H|H]; congruence. }
  assert (Hid : (forall q, under root q = false -> fs !! q = fs !! q) /\ (forall q, fs !! q = fs !! q \/ fs !! q = None)) by auto.
  refine (runs_dep (fun h => sys E (ORemoveAll root) _ _) fs _ _). intros h. apply runs_sys.
  - intros e. apply Hfil. intros p n Hp. cbn. by rewrite Hp.
  - destruct (find_node fs root) as [e|n]; [done|]. cbn. apply Hfil. intros p m Hp. by rewrite Hp.
Qed.

Lemma runs_MkdirTemp (dir : path) (prefix : string) (fs : Fs) :
  runs (MkdirTemp E dir prefix) fs (fun r fs' => match r with
    | inl _ => fs' = fs
    | inr p => (exists h, p = dir ++ [prefix +:+ os_temp E h]) /\ fs' = <[p := NDir rwx]> fs /\
        forall q, under p q = true -> fs !! q = None
    end).
Proof.
  refine (runs_dep (fun h => sys E (OMkdirTemp dir) _ _) fs _ _). intros h. apply runs_sys; [done|].
  destruct (paths_under _ fs) eqn:Ep; [|done].
  destruct (unlinkable _ _ _); [|done]. cbn. split; [by exists h|]. split; [done|]. intros q Hq.
  destruct (fs !! q) as [n|] eqn:En; [|done]. exfalso.
  assert (Hin : q ∈ paths_under (dir ++ [prefix +:+ os_temp E h]) fs) by (apply elem_of_paths_under; eauto).
  rewrite Ep in Hin. by apply not_elem_of_nil in Hin.
Qed.

Lemma find_from_here (fs : Fs) n : forall rest dir, find_from fs dir rest = inr n -> fs !! (dir ++ rest) = Some n.
Proof.
  induction rest as [|x rest IH]; intros dir; cbn.
  - rewrite app_nil_r. by destruct (fs !! dir) as [[]|]; intros [= <-].
  - destruct (fs !! dir) as [[]|] eqn:Ed; try done. destruct (has_bits mode x_bit); [|done]. intros H.
    apply IH in H. by rewrite <- app_assoc in H.
Qed.

Lemma find_node_here (fs : Fs) p n : find_node fs p = inr n -> fs !! p = Some n.
Proof. apply find_from_here. Qed.

Lemma runs_WriteFile (p : path) (data : string) (perm : Z) (fs : Fs) :
  runs (WriteFile E p data perm) fs (fun r fs' =>
    (forall q, q <> p -> fs' !! q = fs !! q) /\
    (r = None -> exists mode, fs' = <[p := NFile mode data]> fs /\
      (fs !! p = None /\ mode = perm \/ exists d, fs !! p = Some (NFile mode d)))).
Proof.
  apply runs_bind.
  apply (runs_weaken _ _ (fun r fs1 => match r with
    | Some _ => fs1 = fs
    | None => exists mode, fs1 = <[p := NFile mode EmptyString]> fs /\ (fs !! p = None /\ mode = perm \/ exists d, fs !! p = Some (NFile mode d))
    end)).
  - apply runs_sys; [done|]. destruct (find_node fs p) as [e|[mode d|mode|t|t]] eqn:Ef; try done.
    + destruct (has_kind KNotExist e), (bool_decide_reflect (fs !! p = None)), (unlinkable fs wx p); cbn; try done.
      exists perm. auto.
    + destruct (has_bits mode w_bit); cbn; [|done]. exists mode. split; [done|]. right. exists d. by eapply find_node_here.
  - intros [e|] fs1; [intros ->; by apply runs_ret|]. intros (mode & -> & Hm).
    refine (runs_dep (fun h => sys E (OWrite p) _ _) _ _ _). intros h. apply runs_sys; cbn; unfold set_data; rewrite lookup_insert_eq, insert_insert_eq.
    + intros e. split; [|done]. intros q Hq. by rewrite lookup_insert_ne.
    + split; [intros q Hq; by rewrite lookup_insert_ne|]. intros _. by exists mode.
Qed.

Lemma under_drop root p : under root p = true -> p = root ++ drop (length root) p.
Proof. intros [r ->]%under_spec. by rewrite drop_app_length. Qed.

Lemma under_comparable a b p : under a p = true -> under b p = true -> under a b = true \/ under b a = true.
Proof.
  intros [r ->]%under_spec [s Es]%under_spec. rewrite !under_spec.
  destruct (prefix_weak_total a b (a ++ r)) as [H|H]; [by exists r|by exists s|by left|by right].
Qed.

Lemma lookup_move_tree (old new : path) (fs : Fs) (q : path) :
  under old new = false -> under new old = false ->
  move_tree old new fs !! q =
    if under new q then fs !! (old ++ drop (length new) q) else if under old q then None else fs !! q.
Proof.
  intros Hon Hno. unfold move_tree. set (l := List.filter _ _).
  assert (Hl : forall p n, (p, n) ∈ l <-> fs !! p = Some n /\ under new p = false).
  { intros p n. unfold l. rewrite list_elem_of_In, filter_In, <- list_elem_of_In, elem_of_map_to_list.
    destruct (under new p); cbn; naive_solver. }
  assert (Hnu : forall p, under old p = true -> under new p = false).
  { intros p Hp. destruct (under new p) eqn:Hn; [|done]. destruct (under_comparable old new p Hp Hn); congruence. }
  assert (Hinj : forall p p', under new p = false -> under new p' = false -> move_path old new p = move_path old new p' -> p = p').
  { intros p p' Hp Hp'. unfold move_path. destruct (under old p) eqn:Ho, (under old p') eqn:Ho'; intros Heq; [| | |done].
    - apply app_inv_head in Heq. by rewrite (under_drop old p), (under_drop old p'), Heq.
    - subst p'. by rewrite under_app in Hp'.
    - subst p. by rewrite under_app in Hp. }
  assert (Hnd : NoDup (map (fun '(p, n) => (move_path old new p, n)) l).*1).
  { assert (Hndl : NoDup l) by (unfold l; apply NoDup_ListNoDup, List.NoDup_filter, NoDup_ListNoDup, NoDup_map_to_list).
    rewrite <- list_fmap_compose. apply NoDup_fmap_2_strong; [|done]. intros [p n] [p' n'] [Hp Hu]%Hl [Hp' Hu']%Hl. cbn.
    intros Heq. apply Hinj in Heq as ->; try done. congruence. }
  assert (Hlk : forall n, list_to_map (M := Fs) (map (fun '(p, n) => (move_path old new p, n)) l) !! q = Some n <->
    exists p, fs !! p = Some n /\ under new p = false /\ move_path old new p = q).
  { intros n. rewrite <- elem_of_list_to_map by done. rewrite list_elem_of_fmap. split.
    - intros ([p m] & [= -> ->] & [Hp Hu]%Hl). eauto.
    - intros (p & Hp & Hu & <-). exists (p, n). split; [done|]. by apply Hl. }
  apply option_eq. intros n. rewrite Hlk. unfold move_path. destruct (under new q) eqn:Hq.
  - split.
    + intros (p & Hp & Hu & Heq). destruct (under old p) eqn:Ho; [|congruence].
      subst q. rewrite drop_app_length, <- under_drop by done. done.
    + intros Hp. eexists. split; [exact Hp|]. rewrite (Hnu _ (under_app _ _)), under_app, drop_app_length. split; [done|].
      symmetry. by apply under_drop.
  - destruct (under old q) eqn:Ho.
    + split; [|done]. intros (p & Hp & Hu & Heq). destruct (under old p) eqn:Hop; [|congruence].
      subst q. by rewrite under_app in Hq.
    + split.
      * intros (p & Hp & Hu & Heq). destruct (under old p) eqn:Hop; [|congruence]. subst q. by rewrite under_app in Hq.
      * intros Hp. exists q. by rewrite Ho.
Qed.

Lemma runs_Rename (old new : path) (fs : Fs) :
  runs (Rename E old new) fs (fun r fs' => match r with
    | Some _ => fs' = fs
    | None => fs' = move_tree old new fs /\ (exists mode, fs !! old = Some (NDir mode))
    end).
Proof.
  apply runs_sys; [done|]. destruct (find_node fs old) as [e|[]] eqn:Ef; try done. apply find_node_here in Ef.
  destruct (_ && _); [|done]. destruct (List.filter _ _); [|done].
  destruct (fs !! new) as [[]|]; try done; cbn; eauto.
Qed.

End Any.

(** ** Any failures

    What holds whatever fails, at every step: the state after each system call
    is one a process that is killed may leave behind. *)

(** The operating system does not report something missing that is there,
    and a RemoveAll that fails leaves a tree. *)
Class Honest (E : OsEnv) : Prop := {
  honest_fails : forall h c e, os_fails E h c = Some e -> has_kind KNotExist e = false;
  honest_left : forall h p q, above q p -> os_left E h p = true -> os_left E h q = true;
}.

(** Every state after [h] up to [h'], the last one included. *)
Definition every_state (I : Fs -> Prop) (h h' : Hist) : Prop := exists t, h' = h ++ t /\ Forall I t.

(** Like [runs], with what holds in every state. *)
Definition steps {A : Type} (I : Fs -> Prop) (m : IO Hist A) (fs : Fs) (Q : A -> Fs -> Prop) : Prop :=
  forall h, fs_cur h = fs -> every_state I h (m h).2 /\ Q (m h).1 (fs_cur (m h).2).

Lemma steps_spec {A : Type} (I : Fs -> Prop) (m : IO Hist A) (h : Hist) (Q : A -> Fs -> Prop) :
  steps I m (fs_cur h) Q -> every_state I h (m h).2 /\ Q (m h).1 (fs_cur (m h).2).
Proof. intros Hm. by apply Hm. Qed.

Lemma steps_ret {A : Type} (I : Fs -> Prop) (a : A) (fs : Fs) (Q : A -> Fs -> Prop) : Q a fs -> steps I (io_ret a) fs Q.
Proof. intros HQ h <-. split; [|done]. exists []. by rewrite app_nil_r. Qed.

Lemma steps_bind {A B : Type} (I : Fs -> Prop) (m : IO Hist A) (k : A -> IO Hist B) (fs : Fs) (Q : B -> Fs -> Prop) :
  steps I m fs (fun a fs1 => steps I (k a) fs1 Q) -> steps I (io_bind m k) fs Q.
Proof.
  intros Hm h Eh. destruct (Hm h Eh) as [(t & Et & Ht) Hk]. rewrite io_bind_run.
  destruct (Hk _ eq_refl) as [(t' & Et' & Ht') HQ]. split; [|done]. exists (t ++ t').
  split; [by rewrite Et', Et, app_assoc|]. by apply Forall_app.
Qed.

Lemma steps_weaken {A : Type} (I J : Fs -> Prop) (m : IO Hist A) (fs : Fs) (Q R : A -> Fs -> Prop) :
  steps I m fs Q -> (forall fs', I fs' -> J fs') -> (forall a fs', Q a fs' -> R a fs') -> steps J m fs R.
Proof.
  intros Hm HI HQ h Eh. destruct (Hm h Eh) as [(t & Et & Ht) HR]. split; [|auto]. exists t. split; [done|].
  by eapply Forall_impl.
Qed.

(** The state a run ends in is one of its states, or the first. *)
Lemma steps_last {A : Type} (I : Fs -> Prop) (m : IO Hist A) (fs : Fs) (Q : A -> Fs -> Prop) :
  I fs -> steps I m fs Q -> steps I m fs (fun a fs' => Q a fs' /\ I fs').
Proof.
  intros HI Hm h Eh. destruct (Hm h Eh) as [(t & Et & Ht) HQ]. split; [by exists t|]. split; [done|]. rewrite Et.
  unfold fs_cur. destruct t as [|x t] using rev_ind; [by rewrite app_nil_r, <- Eh in *|].
  rewrite app_assoc, last_snoc. apply Forall_app in Ht as [_ Hx]. by inversion Hx.
Qed.

Lemma steps_get (I : Fs -> Prop) (fs : Fs) (Q : Fs -> Fs -> Prop) : Q fs fs -> steps I (fun h => (fs_cur h, h)) fs Q.
Proof. intros HQ h <-. split; [|done]. exists []. by rewrite app_nil_r. Qed.

Lemma steps_dep {A : Type} (I : Fs -> Prop) (m : Hist -> IO Hist A) (fs : Fs) (Q : A -> Fs -> Prop) :
  (forall h, steps I (m h) fs Q) -> steps I (fun h => m h h) fs Q.
Proof. intros Hm h Eh. by apply Hm. Qed.

(** [fs] is [fs0] after some entries at [root] and below went, or had their
    modes set. *)
Definition shrunk (root : path) (fs0 fs : Fs) : Prop :=
  wf fs /\ forall p, match fs !! p with
    | Some n => exists n0, fs0 !! p = Some n0 /\ (n = n0 \/ under root p = true /\ exists mode, n = chmod_node mode n0)
    | None => fs0 !! p = None \/ under root p = true
    end.

Lemma shrunk_refl root fs : wf fs -> shrunk root fs fs.
Proof. intros Hwf. split; [done|]. intros p. destruct (fs !! p); eauto. Qed.

Lemma chmod_node_twice m m' n : chmod_node m (chmod_node m' n) = chmod_node m n.
Proof. by destruct n. Qed.

Lemma shrunk_trans root fs0 fs1 fs : shrunk root fs0 fs1 -> shrunk root fs1 fs -> shrunk root fs0 fs.
Proof.
  intros [_ H1] [Hwf H2]. split; [done|]. intros p. specialize (H1 p). specialize (H2 p).
  destruct (fs !! p) as [n|].
  - destruct H2 as (n1 & E1 & Hn). rewrite E1 in H1. destruct H1 as (n0 & E0 & Hn1). exists n0. split; [done|].
    destruct Hn as [->|[Hu [m ->]]], Hn1 as [->|[Hu' [m' ->]]]; eauto.
    right. split; [done|]. exists m. apply chmod_node_twice.
  - destruct H2 as [H2|H2]; [|by right]. by rewrite H2 in H1.
Qed.

Lemma shrunk_outside root fs0 fs p : shrunk root fs0 fs -> under root p = false -> fs !! p = fs0 !! p.
Proof.
  intros [_ H] Hu. specialize (H p). destruct (fs !! p) as [n|].
  - destruct H as (n0 & -> & [->|[Hu' _]]); [done|congruence].
  - destruct H as [->|Hu']; [done|congruence].
Qed.

Lemma shrunk_absent root fs0 fs p : shrunk root fs0 fs -> fs0 !! p = None -> fs !! p = None.
Proof. intros [_ H] Hn. specialize (H p). destruct (fs !! p) as [n|]; [|done]. destruct H as (n0 & E0 & _). congruence. Qed.

(** A node keeps its kind. *)
Lemma shrunk_node root fs0 fs p n : shrunk root fs0 fs -> fs !! p = Some n ->
  exists n0, fs0 !! p = Some n0 /\ forall m, chmod_node m n = chmod_node m n0.
Proof.
  intros [_ H] Hn. specialize (H p). rewrite Hn in H. destruct H as (n0 & E0 & [->|[_ [m ->]]]); exists n0; [done|].
  split; [done|]. intros m'. apply chmod_node_twice.
Qed.

Lemma shrunk_chmods root fs0 fs fm dm ps :
  shrunk root fs0 fs -> (forall p, p ∈ ps -> under root p = true) -> shrunk root fs0 (chmods fm dm ps fs).
Proof.
  intros Hs Hu. apply (shrunk_trans _ _ fs); [done|]. split; [apply wf_chmods, Hs|]. intros p. rewrite lookup_chmods.
  destruct (fs !! p) as [n|]; cbn; [|by left]. exists n. split; [done|].
  destruct (decide (p ∈ ps)) as [Hp|]; [|by left]. right. split; [by apply Hu|].
  destruct n; [by exists fm|by exists dm|by exists 0|by exists 0].
Qed.

Lemma shrunk_filter root fs0 fs (P : path * node -> Prop) `{!forall x, Decision (P x)} :
  shrunk root fs0 fs -> (forall p n, under root p = false -> P (p, n)) ->
  (forall p q n m, above q p -> P (p, n) -> fs !! p = Some n -> fs !! q = Some m -> P (q, m)) -> shrunk root fs0 (filter P fs).
Proof.
  intros Hs Hout Hup. apply (shrunk_trans _ _ fs); [done|]. destruct Hs as [Hwf _]. split.
  - intros p q Hq [n [Hn HP]%map_lookup_filter_Some]. destruct (Hwf p q Hq) as [m Hm]; [eauto|]. exists m.
    apply map_lookup_filter_Some. split; [done|]. by eapply Hup.
  - intros p. destruct (filter P fs !! p) as [n|] eqn:En.
    + apply map_lookup_filter_Some in En as [En _]. eauto.
    + destruct (under root p) eqn:Hu; [by right|left]. destruct (fs !! p) as [n|] eqn:Ep; [|done].
      assert (filter P fs !! p = Some n) by (apply map_lookup_filter_Some; auto). congruence.
Qed.

Lemma shrunk_without root fs : wf fs -> shrunk root fs (without root fs).
Proof.
  intros Hwf. apply (shrunk_filter root fs fs); [by apply shrunk_refl|done|]. intros p q n m (x & r & ->) Hp _ _.
  destruct (under root q) eqn:Hu; [|done]. apply under_spec in Hu as [s ->]. by rewrite <- app_assoc, under_app in Hp.
Qed.

Lemma find_not_exist (fs : Fs) e : forall rest dir, wf fs -> find_from fs dir rest = inl e -> has_kind KNotExist e = true ->
  fs !! (dir ++ rest) = None.
Proof.
  induction rest as [|x rest IH]; intros dir Hwf; cbn.
  - rewrite app_nil_r. by destruct (fs !! dir) as [[]|].
  - destruct (fs !! dir) as [[| mode | |]|] eqn:Ed; try by intros [= <-].
    + destruct (has_bits mode x_bit); [|by intros [= <-]]. intros H Hk.
      change (x :: rest) with ([x] ++ rest). rewrite app_assoc. by apply IH.
    + intros _ _. destruct (fs !! (dir ++ x :: rest)) as [n|] eqn:En; [|done].
      destruct (Hwf (dir ++ x :: rest) dir) as [m Em]; [by exists x, rest|eauto|congruence].
Qed.

Section AnyFailure.
Context (E : OsEnv) `{!Honest E}.

Lemma steps_sys {A : Type} (I : Fs -> Prop) (c : os_call) (failed : error -> Fs -> A * Fs) (f : Fs -> A * Fs) (fs : Fs) (Q : A -> Fs -> Prop) :
  (forall e, has_kind KNotExist e = false -> I (failed e fs).2 /\ Q (failed e fs).1 (failed e fs).2) ->
  I (f fs).2 /\ Q (f fs).1 (f fs).2 -> steps I (sys E c failed f) fs Q.
Proof.
  intros Hf Hs h Eh. unfold sys. rewrite Eh. destruct (os_fails E h c) as [e|] eqn:Ee.
  - destruct (Hf e) as [Hi HQ]; [by eapply honest_fails|]. destruct (failed e fs) as [a fs']. cbn [fst snd] in *. rewrite fs_cur_snoc.
    split; [|done]. exists [fs']. split; [done|]. by constructor.
  - destruct Hs as [Hi HQ]. destruct (f fs) as [a fs']. cbn [fst snd] in *. rewrite fs_cur_snoc.
    split; [|done]. exists [fs']. split; [done|]. by constructor.
Qed.

Lemma steps_read {A : Type} (I : Fs -> Prop) (c : os_call) (f : Fs -> result A) (fs : Fs) (Q : result A -> Fs -> Prop) :
  I fs -> (forall e, has_kind KNotExist e = false -> Q (inl e) fs) -> Q (f fs) fs -> steps I (sys_read E c f) fs Q.
Proof. intros HI Hf Hs. apply steps_sys; cbn; auto. Qed.

(** A mode that was set. *)
Lemma steps_set_mode (I : Fs -> Prop) (fm dm : Z) (p : path) (fs : Fs) :
  I fs -> (forall fm' dm', I (chmods fm' dm' [p] fs)) ->
  steps I (set_mode E fm dm p) fs (fun r fs' => r = None ->
    fs' = chmods fm dm [p] fs /\ exists n, find_node fs p = inr n /\ is_special n = false).
Proof.
  intros HI HIp. apply steps_bind. apply steps_read; [done|intros e _; by apply steps_ret|].
  assert (Hins : forall n mode, find_node fs p = inr n -> <[p := chmod_node mode n]> fs = chmods mode mode [p] fs).
  { intros n mode Hn%find_node_here. apply map_eq. intros q. rewrite lookup_chmods. destruct (decide (q = p)) as [->|Hq].
    - rewrite lookup_insert_eq, Hn. cbn. rewrite decide_True by set_solver. by destruct n.
    - rewrite lookup_insert_ne by done. destruct (fs !! q); [|done]. cbn. by rewrite decide_False by set_solver. }
  assert (Hch : forall n mode, find_node fs p = inr n -> is_special n = false ->
    chmods mode mode [p] fs = chmods fm dm [p] fs ->
    steps I (Chmod E p mode) fs (fun r fs' => r = None ->
      fs' = chmods fm dm [p] fs /\ exists n, find_node fs p = inr n /\ is_special n = false)).
  { intros n mode Hn Hs Hm. apply steps_sys; [done|]. rewrite Hn. cbn. rewrite (Hins n mode Hn). split; [done|]. eauto. }
  destruct (find_node fs p) as [e|n] eqn:Hn; [by apply steps_ret|].
  assert (Hone : forall fm1 dm1 fm2 dm2, chmod_to fm1 dm1 n = chmod_to fm2 dm2 n -> chmods fm1 dm1 [p] fs = chmods fm2 dm2 [p] fs).
  { intros fm1 dm1 fm2 dm2 He. apply find_node_here in Hn. apply map_eq. intros q. rewrite !lookup_chmods.
    destruct (decide (q ∈ [p])) as [Hq|Hq]; [|done]. apply list_elem_of_singleton in Hq as ->. rewrite Hn. cbn. by rewrite He. }
  destruct n; [by eapply Hch, Hone|by eapply Hch, Hone| |by apply steps_ret].
  apply steps_ret. intros _. split; [|eauto]. apply find_node_here in Hn. apply map_eq. intros q. rewrite lookup_chmods.
  destruct (decide (q ∈ [p])) as [Hq|Hq]; [apply list_elem_of_singleton in Hq as ->; by rewrite Hn|by destruct (fs !! q)].
Qed.

Lemma chmods_cons fm dm p ps fs : chmods fm dm ps (chmods fm dm [p] fs) = chmods fm dm (p :: ps) fs.
Proof.
  apply map_eq. intros q. rewrite !lookup_chmods. destruct (fs !! q) as [n|]; [|done]. cbn. f_equal.
  repeat case_decide; try set_solver; by destruct n.
Qed.

Lemma chmods_kind fm dm ps fs p n : chmods fm dm ps fs !! p = Some n -> is_special n = false ->
  exists n0, fs !! p = Some n0 /\ is_special n0 = false.
Proof.
  rewrite lookup_chmods. destruct (fs !! p) as [n0|]; [|done]. cbn. intros [= <-] Hs. exists n0. split; [done|].
  revert Hs. by destruct (decide _), n0.
Qed.

(** The walk, over paths at or below [root]. *)
Lemma steps_walk root fs0 fm dm ps : forall fs, shrunk root fs0 fs -> (forall p, p ∈ ps -> under root p = true) ->
  steps (shrunk root fs0) (walk E fm dm (fun _ => false) ps) fs (fun r fs' => r = None ->
    fs' = chmods fm dm ps fs /\ forall p, p ∈ ps -> exists n, fs !! p = Some n /\ is_special n = false).
Proof.
  induction ps as [|p ps IH]; intros fs Hs Hu; cbn [walk].
  { apply steps_ret. intros _. split; [by rewrite chmods_nil|]. intros p Hp. by apply not_elem_of_nil in Hp. }
  assert (Hone : forall fm' dm', shrunk root fs0 (chmods fm' dm' [p] fs)).
  { intros fm' dm'. apply shrunk_chmods; [done|]. intros q ->%list_elem_of_singleton. apply Hu. set_solver. }
  apply steps_bind. eapply steps_weaken; [by apply steps_set_mode|done|]. intros [e|] fs1 H1; [by apply steps_ret|].
  destruct (H1 eq_refl) as [-> (n & Hn & Hk)]. clear H1.
  assert (Hrest : steps (shrunk root fs0) (walk E fm dm (fun _ => false) ps) (chmods fm dm [p] fs) (fun r fs' => r = None ->
    fs' = chmods fm dm (p :: ps) fs /\ forall q, q ∈ p :: ps -> exists n, fs !! q = Some n /\ is_special n = false)).
  { eapply steps_weaken; [apply IH; [done|intros q Hq; apply Hu; set_solver]|done|]. intros r fs' Hr Hr'.
    destruct (Hr Hr') as [-> Hps]. split; [apply chmods_cons|]. intros q [->|Hq]%elem_of_cons.
    - exists n. split; [by apply find_node_here|done].
    - destruct (Hps q Hq) as (m & Hm & Hkm). by eapply chmods_kind. }
  apply steps_bind, steps_get. destruct (find_node (chmods fm dm [p] fs) p) as [|[]] eqn:Hf; try done.
  apply steps_bind. apply steps_read; [done| |].
  - intros e He. rewrite He. by apply steps_ret.
  - rewrite Hf. destruct (has_bits _ _); [done|]. by apply steps_ret.
Qed.

Lemma steps_setMode root fs0 fm dm fs : shrunk root fs0 fs ->
  steps (shrunk root fs0) (setModeRecursive E root fm dm) fs (fun r fs' => r = None ->
    fs' = chmod_tree fm dm root fs /\ plain root fs).
Proof.
  intros Hs. pose proof (proj1 Hs) as Hwf. apply steps_bind. apply steps_read; [done| |].
  - intros e He. rewrite He. by apply steps_ret.
  - destruct (find_node fs root) as [e|n] eqn:Hf.
    + apply steps_ret. destruct (has_kind KNotExist e) eqn:Hk; [|done]. intros _.
      pose proof (find_not_exist fs e root [] Hwf Hf Hk) as Hn. cbn in Hn. split.
      * apply map_eq. intros p. rewrite lookup_chmod_tree. destruct (under root p) eqn:Hu; [|by destruct (fs !! p)].
        by rewrite (wf_absent root fs Hwf Hn p Hu).
      * intros p n Hu Hp. by rewrite (wf_absent root fs Hwf Hn p Hu) in Hp.
    + apply steps_bind, steps_get. eapply steps_weaken; [apply steps_walk; [done|]|done|].
      * intros p Hp. by apply elem_of_paths_under in Hp as [Hu _].
      * intros r fs' Hr Hr'. destruct (Hr Hr') as [-> Hps]. split; [apply chmods_all|].
        intros p m Hu Hp. destruct (Hps p) as (m' & Hm' & Hk); [apply elem_of_paths_under; eauto|]. congruence.
Qed.

Lemma not_removable fs root p q : above q p -> removable fs root p = false -> removable fs root q = false.
Proof.
  intros (x & r & ->) Hp. apply not_true_iff_false in Hp. apply not_true_iff_false. intros Hq. apply Hp. clear Hp.
  unfold removable in *. rewrite forallb_elem in *. intros y Hy. specialize (Hq y Hy).
  destruct (under (q ++ x :: r) y) eqn:Hu; [|done].
  by rewrite (under_trans q (q ++ x :: r) y (under_app _ _) Hu) in Hq.
Qed.

Lemma steps_RemoveAll root fs0 fs : shrunk root fs0 fs ->
  steps (shrunk root fs0) (RemoveAll E root) fs (fun r fs' => r = None -> fs' = without root fs).
Proof.
  intros Hs. pose proof (proj1 Hs) as Hwf.
  assert (Habove : forall (f : path -> bool) p q, above q p -> under root p && f p = false -> (f p = false -> f q = false) ->
    under root q && f q = false).
  { intros f p q (x & r & ->) Hp Hf. destruct (under root q) eqn:Hu; [|done]. cbn. apply Hf.
    by rewrite (under_trans root q (q ++ x :: r) Hu (under_app _ _)) in Hp. }
  refine (steps_dep _ (fun h => sys E (ORemoveAll root) _ _) fs _ _). intros h. apply steps_sys.
  - intros e _. cbn. split; [|done]. apply shrunk_filter; [done|intros p n Hu; cbn; by rewrite Hu|].
    intros p q n m Hq Hp _ _. cbn in *. apply (Habove (fun p => negb (os_left E h p)) p q Hq Hp).
    rewrite !negb_false_iff. by apply honest_left.
  - destruct (find_node fs root) as [e|n] eqn:Hf; cbn.
    + split; [done|]. destruct (has_kind KNotExist e) eqn:Hk; [|done]. intros _. symmetry. apply without_absent; [done|].
      exact (find_not_exist fs e root [] Hwf Hf Hk).
    + assert (Hr : shrunk root fs0 (remove_tree root fs)).
      { apply shrunk_filter; [done|intros p m Hu; cbn; by rewrite Hu|]. intros p q m m' Hq Hp _ _.
        apply (Habove (removable fs root) p q Hq Hp). by apply not_removable. }
      split; [done|]. destruct (paths_under root (remove_tree root fs)) eqn:Hp; [|done]. intros _.
      apply map_eq. intros p. rewrite lookup_without. destruct (under root p) eqn:Hu.
      * by apply (proj1 (paths_under_nil root (remove_tree root fs))).
      * unfold remove_tree. destruct (fs !! p) as [m|] eqn:Em.
        -- apply map_lookup_filter_Some. split; [done|]. by rewrite Hu.
        -- apply map_lookup_filter_None. by left.
Qed.

(** Deleting a tree: whatever happens nothing else changes, and if it succeeds
    the tree is gone. *)
Lemma steps_Delete root fs0 fs : shrunk root fs0 fs ->
  steps (shrunk root fs0) (DeleteReadOnlyRecursive E root) fs (fun r fs' => r = None -> fs' = without root fs).
Proof.
  intros Hs. apply steps_bind. eapply steps_weaken; [apply steps_last; [done|by apply steps_setMode]|done|].
  intros [e|] fs1 [H1 Hs1]; [by apply steps_ret|]. destruct (H1 eq_refl) as [-> _].
  eapply steps_weaken; [by apply steps_RemoveAll|done|]. intros r fs' Hr Hr'. rewrite (Hr Hr'). apply without_chmod_tree.
Qed.

End AnyFailure.

(** ** Making directories, whatever happens *)

Lemma wf_nothing_below fs p q : wf fs -> (forall m, fs !! p <> Some (NDir m)) -> above p q -> fs !! q = None.
Proof.
  intros Hwf Hp Hq. destruct (fs !! q) as [n|] eqn:En; [|done]. destruct (Hwf q p Hq) as [m Hm]; [eauto|].
  by destruct (Hp m).
Qed.

Lemma above_parent_inv q p : above q p -> q = parent p \/ above q (parent p).
Proof.
  intros (x & r & ->). destruct (exists_last (l := x :: r)) as (r' & y & Er); [done|].
  rewrite Er, app_assoc, parent_snoc. destruct r' as [|z r']; [left; by rewrite app_nil_r|right; by exists z, r'].
Qed.

Lemma wf_insert fs p n : wf fs -> (forall m, fs !! p <> Some (NDir m)) -> (p = [] \/ exists m, fs !! parent p = Some (NDir m)) ->
  wf (<[p := n]> fs).
Proof.
  intros Hwf Hp Hpar q r Hr Hq. destruct (decide (q = p)) as [->|Hqp].
  - assert (Hd : exists m, fs !! r = Some (NDir m)).
    { destruct Hpar as [->|[m Hm]]; [by destruct Hr as (? & ? & Hr); destruct r|].
      destruct (above_parent_inv _ _ Hr) as [->|Ha]; [eauto|]. apply (Hwf (parent p)); eauto. }
    destruct Hd as [m Hm]. exists m. rewrite lookup_insert_ne; [done|]. intros ->. by apply (Hp m).
  - rewrite lookup_insert_ne in Hq by done. destruct (Hwf q r Hr Hq) as [m Hm]. exists m.
    rewrite lookup_insert_ne; [done|]. intros ->. by apply (Hp m).
Qed.

Lemma unlinkable_parent fs bits p : unlinkable fs bits p = true -> exists m, fs !! parent p = Some (NDir m).
Proof.
  unfold unlinkable. destruct (find_node fs (parent p)) as [|[]] eqn:Hf; try done. apply find_node_here in Hf. eauto.
Qed.

Lemma mkdirs_wf perm rest : forall dir fs, wf fs -> wf (mkdirs perm dir rest fs).2.
Proof.
  assert (Hnew : forall dir fs, wf fs -> fs !! dir = None -> bool_decide (dir = []) || unlinkable fs wx dir = true ->
    wf (<[dir := NDir perm]> fs)).
  { intros dir fs Hwf Hd Hu. apply wf_insert; [done|by rewrite Hd|].
    apply orb_true_iff in Hu as [Hu|Hu]; [left; by apply bool_decide_eq_true_1 in Hu|right; by eapply unlinkable_parent]. }
  induction rest as [|x rest IH]; intros dir fs Hwf; cbn [mkdirs]; destruct (fs !! dir) as [[]|] eqn:Ed; auto;
    destruct (_ || _) eqn:Hu; eauto using Hnew.
Qed.

(** The last directory is there exactly if it was made, or was there. *)
Lemma mkdirs_result perm rest : forall dir fs,
  match (mkdirs perm dir rest fs).1 with
  | None => exists m, (mkdirs perm dir rest fs).2 !! (dir ++ rest) = Some (NDir m) /\ (fs !! (dir ++ rest) = None -> m = perm)
  | Some _ => (mkdirs perm dir rest fs).2 !! (dir ++ rest) = fs !! (dir ++ rest)
  end.
Proof.
  induction rest as [|x rest IH]; intros dir fs; cbn [mkdirs].
  - rewrite app_nil_r. destruct (fs !! dir) as [[]|] eqn:Ed; cbn; try done; [exists mode; by split|].
    destruct (_ || _); cbn; [|done]. exists perm. by rewrite lookup_insert_eq.
  - assert (Happ : dir ++ x :: rest = (dir ++ [x]) ++ rest) by (by rewrite <- app_assoc). rewrite !Happ.
    destruct (fs !! dir) as [[]|] eqn:Ed; try done; [apply IH|]. destruct (_ || _); [|done].
    specialize (IH (dir ++ [x]) (<[dir := NDir perm]> fs)).
    assert (Hne : (<[dir := NDir perm]> fs) !! ((dir ++ [x]) ++ rest) = fs !! ((dir ++ [x]) ++ rest)).
    { apply lookup_insert_ne. intros H. apply (f_equal length) in H. rewrite !length_app in H. cbn in H. lia. }
    by rewrite Hne in IH.
Qed.

Lemma steps_MkdirAll (E : OsEnv) `{!Honest E} (I : Fs -> Prop) (p : path) (perm : Z) (fs : Fs) :
  wf fs -> I fs -> I (mkdirs perm [] p fs).2 ->
  steps I (MkdirAll E p perm) fs (fun r fs' => wf fs' /\
    (forall q, fs' !! q = fs !! q \/ (fs !! q = None /\ fs' !! q = Some (NDir perm) /\ q `prefix_of` p)) /\
    match r with
    | None => exists m, fs' !! p = Some (NDir m) /\ (fs !! p = None -> m = perm)
    | Some _ => fs' !! p = fs !! p
    end).
Proof.
  intros Hwf HI HI'. apply steps_sys; [done|..].
  - intros e _. cbn. split_and!; auto.
  - split; [done|]. split_and!; [by apply mkdirs_wf| |].
    + intros q. destruct (mkdirs_frame perm p [] fs q) as [|(?&?&_&?)]; auto.
    + apply (mkdirs_result perm p []).
Qed.
