(* ===== verification/ImageCache.v ===== *)
(** * The cache of unpacked images

    src/internal/shared/util/image/cache.go, and the inspection of charts of
    image/helm.go.

    An image is unpacked into <base>/<owner>/<digest>; the file system returned
    for it is the path of that directory, which is read when it is used.
    containerd's archive.Apply, Helm's chart loader and renameio are parameters:
    [un_apply] is what unpacking a layer does to the tree, step by step. *)

From Stdlib Require Import Ascii.
From S2P Require Import Prelude GoErrors GoPath ImageFilter DiskFs.

(** type LayerData struct; the contents of a layer are what its reader gives,
    if it has one. *)
Record LayerData := mkLayer {
  ld_MediaType : string;
  ld_Reader : option (result string);
  ld_Index : Z;
  ld_Err : option error;
}.

(** chart.Metadata and what else inspectChart looks at of a chart. *)
Record ChartMetadata := mkChartMeta { cm_Name : string; cm_Version : string }.
Record Chart := mkChart { ch_Metadata : option ChartMetadata; ch_Templates : list (string * string) }.

(** The libraries that unpack. *)
Record Unpacker := mkUnpacker {
  (* archive.Apply with the filter, if there is one *)
  un_apply : Hist -> option Filter -> path -> LayerData -> list Fs * option error;
  un_LoadArchive : string -> result Chart;
  un_TempFile : Hist -> path -> option error;
  un_Copy : Hist -> option error;
  un_Replace : Hist -> option error;
  un_file_mode : Z;
}.

(** reference.Named, and whether it is a reference.Canonical. *)
Record Named := mkNamed { n_String : string; n_Digest : option string }.

(** ocispecv1.Image: the labels of its configuration. *)
Record Image := mkOCIImage { img_Labels : gmap string string }.

Definition ConfigDirLabel : string := "operators.operatorframework.io.index.configs.v1".

(** registry.ChartLayerMediaType and registry.ProvLayerMediaType of Helm. *)
Definition ChartLayerMediaType : string := "application/vnd.cncf.helm.chart.content.v1.tar+gzip".
Definition ProvLayerMediaType : string := "application/vnd.cncf.helm.chart.provenance.v1.prov".

Definition FilterFunc : Type := Named -> Image -> result Filter.

(** func filterForCatalogImage() *)
Definition filterForCatalogImage (uid gid : Z) : FilterFunc :=
  fun srcRef image =>
    let specIsCanonical := match n_Digest srcRef with Some _ => true | None => false end in
    match img_Labels image !! ConfigDirLabel with
    | None =>
        let err := ENew ("catalog image is missing the required label " +:+ fmt_q ConfigDirLabel) in
        inl (default err (WrapTerminal (Some err) specIsCanonical))
    | Some dirToUnpack => inr (allFilters [onlyPath dirToUnpack; forceOwnershipRWX uid gid])
    end.

(** func filterForBundleImage() *)
Definition filterForBundleImage (uid gid : Z) : FilterFunc := fun _ _ => inr (forceOwnershipRWX uid gid).

(** [let? x := m in k]: an error ends the sequence. *)
Definition fs_try {A B} (m : IO Hist (result A)) (k : A -> IO Hist (result B)) : IO Hist (result B) :=
  let* r := m in match r with inl e => io_ret (inl e) | inr a => k a end.

(** [if err := m; err != nil { return ctx(err) }], and then [k]. *)
Definition fs_check {B} (ctx : error -> error) (m : IO Hist (option error)) (k : IO Hist (result B))
  : IO Hist (result B) :=
  let* r := m in match r with Some e => io_ret (inl (ctx e)) | None => k end.

Definition wrapped (pre : string) (e : error) : error := EWrap pre e "".

(** type chartInspectionResult struct *)
Record chartInspectionResult := mkInspection { templatesExist : bool; chartfileExists : bool }.

(** func inspectChart(data []byte, metadata *chart.Metadata); the metadata is
    returned, and stays as it was if the chart has none. *)
Definition inspectChart (U : Unpacker) (data : string) (metadata : ChartMetadata)
  : result (chartInspectionResult * ChartMetadata) :=
  match un_LoadArchive U data with
  | inl err => inl (wrapped "loading chart archive: " err)
  | inr chart =>
      inr (mkInspection (match ch_Templates chart with [] => false | _ => true end)
             (match ch_Metadata chart with Some _ => true | None => false end),
           default metadata (ch_Metadata chart))
  end.

Definition no_metadata : ChartMetadata := mkChartMeta "" "".

(** The path filepath.Join(dir, name) stands for, [dir] being clean; [None] if
    it leaves the base directory. *)
Definition join_below (dir : path) (name : string) : option path :=
  let segs := rev (foldl (clean_step false) (rev dir) (strings_Split slash name)) in
  match segs with x :: _ => if bool_decide (x = dotdot) then None else Some segs | [] => Some [] end.

(** The name storeChartLayer gives a chart, and IsBundleSourceChart's caller. *)
Definition chart_file (meta : ChartMetadata) : string := cm_Name meta +:+ "-" +:+ cm_Version meta +:+ ".tgz".

Section Cache.
Context (E : OsEnv) (U : Unpacker).
(* whether the HelmChartSupport feature is on *)
Context (HelmChartSupport : bool).
(* the field filterFunc of the diskCache *)
Context (filterFunc : option FilterFunc).

(** func (a *diskCache) ownerIDPath / unpackPath: below the base path.  Owner
    and digest are single elements (an object's name, an algorithm and a hash). *)
Definition ownerIDPath (ownerID : string) : path := [ownerID].
Definition unpackPath (ownerID digest : string) : path := [ownerID; digest].

(** func (a *diskCache) Fetch(ctx, ownerID, canonicalRef) (fs.FS, time.Time, error) *)
Definition Fetch (ownerID digest : string) : IO Hist (result (option (path * Z))) :=
  let p := unpackPath ownerID digest in
  let* r := GetDirectoryModTime E p in
  match r with
  | inl err =>
      io_ret (if has_kind KNotExist err then inr None
              else inl (wrapped "error checking image content already unpacked: " err))
  | inr None =>
      let* err := DeleteReadOnlyRecursive E p in
      io_ret (match err with Some e => inl e | None => inr None end)
  | inr (Some modTime) => io_ret (inr (Some (p, modTime)))
  end.

(** chart.CloseAtomicallyReplace(): put the file in place, replacing what is
    there unless that is a directory.  What lies outside the base directory is
    not modelled, and counts as not writable. *)
Definition put_chart (dest : path) (meta : ChartMetadata) (data : string) : IO Hist (option error) :=
  fun h =>
    let fs := fs_cur h in
    match un_Replace U h, join_below dest (chart_file meta) with
    | Some e, _ => (Some e, h ++ [fs])
    | None, Some p =>
        match find_node fs (parent p) with
        | inr (NDir mode) =>
            match fs !! p with
            | Some (NDir _) => (Some (ENew "file exists"), h ++ [fs])
            | _ =>
                if has_bits mode wx then (None, h ++ [<[p := NFile (un_file_mode U) data]> fs])
                else (Some perm_denied, h ++ [fs])
            end
        | inr _ => (Some not_a_dir, h ++ [fs])
        | inl e => (Some e, h ++ [fs])
        end
    | None, None => (Some perm_denied, h ++ [fs])
    end.

(** func storeChartLayer(path string, layer LayerData) error; those who make
    layers (ImagePull.v) give a chart layer a reader or an error, so that the
    case of no reader, in which io.ReadAll would panic, does not occur. *)
Definition storeChartLayer (dest : path) (layer : LayerData) : IO Hist (option error) :=
  match ld_Err layer with
  | Some err => io_ret (Some (wrapped "error found in layer data: " err))
  | None =>
      match ld_Reader layer with
      | None => io_ret (Some (ENew "nil reader"))
      | Some (inl err) => io_ret (Some (wrapped ("error reading layer[" +:+ fmt_d (ld_Index layer) +:+ "]: ") err))
      | Some (inr data) =>
          match inspectChart U data no_metadata with
          | inl err => io_ret (Some (wrapped "inspecting chart layer: " err))
          | inr (_, meta) =>
              let* h := (fun h => (h, h)) in
              match un_TempFile U h dest with
              | Some err => io_ret (Some (wrapped "create temp file: " err))
              | None =>
                  match un_Copy U h with
                  | Some err => io_ret (Some (wrapped "copying chart archive: " err))
                  | None => put_chart dest meta data
                  end
              end
          end
      end
  end.

(** func imageLayerUnpacker(layer) LayerUnpacker, and the Unpack methods *)
Definition Unpack (applyOpts : option Filter) (dest : path) (layer : LayerData) : IO Hist (option error) :=
  if HelmChartSupport && bool_decide (ld_MediaType layer = ChartLayerMediaType) then
    let* err := storeChartLayer dest layer in
    io_ret (wrapped ("error applying chart layer[" +:+ fmt_d (ld_Index layer) +:+ "]: ") <$> err)
  else
    let* err := (fun h => let '(states, err) := un_apply U h applyOpts dest layer in (err, h ++ states)) in
    io_ret (wrapped ("error applying layer[" +:+ fmt_d (ld_Index layer) +:+ "]: ") <$> err).

(** The loop of Store over the layers. *)
Fixpoint unpack_layers (applyOpts : option Filter) (dest : path) (layers : list LayerData)
  : IO Hist (option error) :=
  match layers with
  | [] => io_ret None
  | layer :: rest =>
      match ld_Err layer with
      | Some err => io_ret (Some (wrapped ("error reading layer[" +:+ fmt_d (ld_Index layer) +:+ "]: ") err))
      | None =>
          let* err := Unpack applyOpts dest layer in
          match err with
          | Some e => io_ret (Some (wrapped "unpacking layer: " e))
          | None => unpack_layers applyOpts dest rest
          end
      end
  end.

(** The function literal of Store. *)
Definition unpack_image (applyOpts : option Filter) (dest : path) (layers : list LayerData)
  : IO Hist (option error) :=
  let* err := unpack_layers applyOpts dest layers in
  match err with
  | Some e => io_ret (Some e)
  | None =>
      let* err := SetReadOnlyRecursive E dest in
      io_ret (wrapped "error making unpack directory read-only: " <$> err)
  end.

(** Store, once the directory is empty. *)
Definition store_layers (applyOpts : option Filter) (dest : path) (layers : list LayerData)
  : IO Hist (result (path * Z)) :=
  let* err := unpack_image applyOpts dest layers in
  match err with
  | Some e =>
      let* e2 := DeleteReadOnlyRecursive E dest in
      io_ret (inl (default e (errors_Join [Some e; e2])))
  | None =>
      let* r := GetDirectoryModTime E dest in
      match r with
      | inl err => io_ret (inl (wrapped "error getting mod time of unpack directory: " err))
      | inr None => io_ret (inl (wrapped "error getting mod time of unpack directory: " ErrNotDirectory))
      | inr (Some modTime) => io_ret (inr (dest, modTime))
      end
  end.

(** The archive filter for an image, if the cache has one. *)
Definition image_filter (srcRef : Named) (imgCfg : Image) : result (option Filter) :=
  match filterFunc with
  | Some f => match f srcRef imgCfg with inl err => inl err | inr filter => inr (Some filter) end
  | None => inr None
  end.

(** func (a *diskCache) Store(ctx, ownerID, srcRef, canonicalRef, imgCfg, layers) *)
Definition Store (ownerID : string) (srcRef : Named) (digest : string) (imgCfg : Image) (layers : list LayerData)
  : IO Hist (result (path * Z)) :=
  match image_filter srcRef imgCfg with
  | inl err => io_ret (inl err)
  | inr applyOpts =>
      let dest := unpackPath ownerID digest in
      fs_check (wrapped "error ensuring empty unpack directory: ") (EnsureEmptyDirectory E dest rwx)
        (store_layers applyOpts dest layers)
  end.

(** func (a *diskCache) Delete(ctx, ownerID) error *)
Definition Delete (ownerID : string) : IO Hist (option error) := DeleteReadOnlyRecursive E (ownerIDPath ownerID).

Fixpoint gc_entries (ownerID : string) (names : list string) : IO Hist (option error) :=
  match names with
  | [] => io_ret None
  | name :: rest =>
      let* err := DeleteReadOnlyRecursive E (ownerIDPath ownerID ++ [name]) in
      match err with
      | Some e => io_ret (Some (wrapped ("error removing entry " +:+ name +:+ ": ") e))
      | None => gc_entries ownerID rest
      end
  end.

(** func (a *diskCache) GarbageCollect(ctx, ownerID, keep) error *)
Definition GarbageCollect (ownerID keep : string) : IO Hist (option error) :=
  let* r := ReadDir E (ownerIDPath ownerID) in
  match r with
  | inl err => io_ret (if has_kind KNotExist err then None else Some (wrapped "error reading owner directory: " err))
  | inr names =>
      let foundKeep := existsb (fun n => bool_decide (n = keep)) names in
      let* err := gc_entries ownerID (List.filter (fun n => negb (bool_decide (n = keep))) names) in
      match err with
      | Some e => io_ret (Some e)
      | None =>
          if foundKeep then io_ret None
          else
            let* err := DeleteReadOnlyRecursive E (ownerIDPath ownerID) in
            io_ret (wrapped "error deleting unused owner data: " <$> err)
      end
  end.

End Cache.
