(* ===== verification/ImageCacheProps.v ===== *)
(** * Correctness of the image cache

    What the cache promises the image puller, [ImageCacheLaws], and that the
    disk cache keeps it whichever system calls fail, at every step; and what more
    it does where none fails and the layers hold files, directories and links,
    [ReliableCache].  What happens otherwise is at the end: a layer with anything
    else, or a process that is killed while it unpacks, leaves a directory that
    the cache takes for the image. *)

From Stdlib Require Import Ascii.
From S2P Require Import Prelude GoErrors GoPath ImageFilter DiskFs DiskProps ImageCache.

(** ** The interface *)

(** type Cache interface; the file system it returns is a path and a time. *)
Class ImageCache (S : Type) := {
  ic_Fetch : string -> string -> IO S (result (option (path * Z)));
  ic_Store : string -> Named -> string -> Image -> list LayerData -> IO S (result (path * Z));
  ic_Delete : string -> IO S (option error);
  ic_GarbageCollect : string -> string -> IO S (option error);
}.

(** What a cache promises, from a state with its invariant, whatever fails:
    [content] is what it holds for an owner and a digest, and [unpacked] what
    the layers of an image make, unless they cannot be unpacked. *)
Class ImageCacheLaws {S} (IC : ImageCache S) (inv : S -> Prop) (content : S -> string -> string -> option Fs)
    (unpacked : string -> Named -> string -> Image -> list LayerData -> option Fs) : Prop := {
  fetch_law : forall o d s, inv s ->
    inv (ic_Fetch o d s).2 /\ (forall o' d', content (ic_Fetch o d s).2 o' d' = content s o' d') /\
    match (ic_Fetch o d s).1 with
    | inr None => content s o d = None
    | inr (Some (p, _)) => is_Some (content s o d) /\ p = [o; d]
    | inl _ => True
    end;
  (* an image that is not there *)
  store_law : forall o src d img layers s, inv s -> content s o d = None ->
    inv (ic_Store o src d img layers s).2 /\
    (forall o' d', (o', d') <> (o, d) -> content (ic_Store o src d img layers s).2 o' d' = content s o' d') /\
    match (ic_Store o src d img layers s).1 with
    | inr (p, _) => is_Some (unpacked o src d img layers) /\ p = [o; d] /\
                    content (ic_Store o src d img layers s).2 o d = unpacked o src d img layers
    | inl _ => True
    end;
  delete_law : forall o s, inv s ->
    inv (ic_Delete o s).2 /\
    (forall o' d', o' <> o -> content (ic_Delete o s).2 o' d' = content s o' d') /\
    ((ic_Delete o s).1 = None -> forall d', content (ic_Delete o s).2 o d' = None);
  gc_law : forall o keep s, inv s ->
    inv (ic_GarbageCollect o keep s).2 /\
    (forall o' d', o' <> o \/ d' = keep -> content (ic_GarbageCollect o keep s).2 o' d' = content s o' d') /\
    ((ic_GarbageCollect o keep s).1 = None -> forall d', d' <> keep -> content (ic_GarbageCollect o keep s).2 o d' = None);
}.

(** What it promises where nothing fails, for layers that are [plain]: every
    operation succeeds that can, and a store that fails leaves nothing. *)
Class ReliableCache {S} (IC : ImageCache S) (inv : S -> Prop) (content : S -> string -> string -> option Fs)
    (unpacked : string -> Named -> string -> Image -> list LayerData -> option Fs) (plain : LayerData -> Prop) : Prop := {
  reliable_fetch : forall o d s, inv s ->
    inv (ic_Fetch o d s).2 /\ content (ic_Fetch o d s).2 = content s /\
    match (ic_Fetch o d s).1 with
    | inr None => content s o d = None
    | inr (Some (p, _)) => is_Some (content s o d) /\ p = [o; d]
    | inl _ => False
    end;
  reliable_store : forall o src d img layers s, inv s -> content s o d = None -> Forall plain layers ->
    inv (ic_Store o src d img layers s).2 /\
    (forall o' d', (o', d') <> (o, d) -> content (ic_Store o src d img layers s).2 o' d' = content s o' d') /\
    content (ic_Store o src d img layers s).2 o d = unpacked o src d img layers /\
    match (ic_Store o src d img layers s).1 with
    | inr (p, _) => is_Some (unpacked o src d img layers) /\ p = [o; d]
    | inl _ => unpacked o src d img layers = None
    end;
  reliable_delete : forall o s, inv s ->
    (ic_Delete o s).1 = None /\ inv (ic_Delete o s).2 /\
    forall o' d', content (ic_Delete o s).2 o' d' = if decide (o' = o) then None else content s o' d';
  reliable_gc : forall o keep s, inv s ->
    (ic_GarbageCollect o keep s).1 = None /\ inv (ic_GarbageCollect o keep s).2 /\
    forall o' d', content (ic_GarbageCollect o keep s).2 o' d' =
      if decide (o' = o /\ d' <> keep) then None else content s o' d';
}.

(** ** What the cache holds *)

(** The image an owner has for a digest. *)
Definition content (fs : Fs) (o d : string) : option Fs :=
  match fs !! [o; d] with Some (NDir _) => Some (tree_at [o; d] fs) | _ => None end.

Lemma content_ext fs fs' o d : (forall p, under [o; d] p = true -> fs' !! p = fs !! p) -> content fs' o d = content fs o d.
Proof.
  intros H. unfold content. rewrite (H [o; d]) by apply under_refl. destruct (fs !! [o; d]) as [[]|]; try done. f_equal.
  apply map_eq. intros p. rewrite !lookup_tree_at. destruct (under [o; d] p) eqn:Hu; [by apply H|done].
Qed.

Lemma under_images o d o' d' p : under [o; d] p = true -> under [o'; d'] p = true -> (o, d) = (o', d').
Proof. rewrite !under_spec. intros [s ->] [s' E]. cbn in E. by injection E as <- <-. Qed.

(** Only what is below [dest] changed since [fs0], and it is a directory. *)
Definition within (dest : path) (fs0 fs : Fs) : Prop :=
  wf fs /\ (forall p, under dest p = false -> fs !! p = fs0 !! p) /\ exists m, fs !! dest = Some (NDir m).

(** ** Unpacking *)

Abbreviation LayerResult := (option Filter -> path -> LayerData -> Fs -> option Fs).

(** What the code relies on when it unpacks a layer into a directory: at every
    step only what is below the directory changes; and if it succeeds
    [un_result] is what the layer makes of the tree.  Helm does not load a chart
    whose name or version holds a slash. *)
Class UnpackLaws (U : Unpacker) (un_result : LayerResult) : Prop := {
  unpack_law : forall h f dest layer,
    wf (fs_cur h) -> (exists m, fs_cur h !! dest = Some (NDir m)) ->
    Forall (within dest (fs_cur h)) (un_apply U h f dest layer).1 /\
    ((un_apply U h f dest layer).2 = None ->
     un_result f dest layer (tree_at dest (fs_cur h)) = Some (tree_at dest (fs_cur (h ++ (un_apply U h f dest layer).1))));
  chart_law : forall data c m, un_LoadArchive U data = inr c -> ch_Metadata c = Some m ->
    str_has slash (cm_Name m) = false /\ str_has slash (cm_Version m) = false;
}.

(** For layers that are [plain_layer]: unpacking decides on no failure of its
    own, and they hold files, directories and links only. *)
Class ReliableUnpack (U : Unpacker) (un_result : LayerResult) (plain_layer : LayerData -> Prop) : Prop :=
  reliable_unpack : forall h f dest layer,
    let fs := fs_cur h in
    let fs' := fs_cur (h ++ (un_apply U h f dest layer).1) in
    wf fs -> dir_with rwx fs dest -> plain dest fs -> plain_layer layer ->
    without dest fs' = without dest fs /\ wf fs' /\ dir_with rwx fs' dest /\ plain dest fs' /\
    match (un_apply U h f dest layer).2 with
    | None => un_result f dest layer (tree_at dest fs) = Some (tree_at dest fs')
    | Some _ => un_result f dest layer (tree_at dest fs) = None
    end.

(** What a layer makes of a directory; the archive of a chart is put there as
    it is. *)
Definition layer_result (U : Unpacker) (un_result : LayerResult) (HelmChartSupport : bool) : LayerResult :=
  fun f dest layer t =>
    if HelmChartSupport && bool_decide (ld_MediaType layer = ChartLayerMediaType) then
      match ld_Reader layer with
      | Some (inr data) =>
          match inspectChart U data no_metadata with
          | inr (_, meta) => Some (<[dest ++ [chart_file meta] := NFile (un_file_mode U) data]> t)
          | inl _ => None
          end
      | _ => None
      end
    else un_result f dest layer t.

(** What the layers make of a directory, unless one of them fails. *)
Fixpoint unpacked_layers (res : LayerResult) (f : option Filter) (dest : path) (layers : list LayerData) (t : Fs) : option Fs :=
  match layers with
  | [] => Some t
  | layer :: rest =>
      match ld_Err layer with
      | Some _ => None
      | None =>
          match res f dest layer t with
          | Some t' => unpacked_layers res f dest rest t'
          | None => None
          end
      end
  end.

(** The tree Store leaves for an image: what its layers make of an empty
    directory, read-only. *)
Definition unpacked (res : LayerResult) (filterFunc : option FilterFunc)
    (o : string) (src : Named) (d : string) (img : Image) (layers : list LayerData) : option Fs :=
  match image_filter filterFunc src img with
  | inl _ => None
  | inr f =>
      chmod_tree ownerReadOnlyFileMode ownerReadOnlyDirMode [o; d] <$>
        unpacked_layers res f [o; d] layers {[ [o; d] := NDir rwx ]}
  end.

(** ** Where nothing fails *)

(** Owners are directories that can be used, images directories. *)
Record cache_inv (fs : Fs) : Prop := {
  ci_wf : wf fs;
  ci_plain : plain [] fs;
  ci_owner : forall p n, (length p <= 1)%nat -> fs !! p = Some n -> exists mode, n = NDir mode /\ has_bits mode rwx = true;
  ci_image : forall p n, length p = 2%nat -> fs !! p = Some n -> exists mode, n = NDir mode;
}.

Lemma above_length q p : above q p -> (length q < length p)%nat.
Proof. intros (x & r & ->). rewrite length_app. cbn. lia. Qed.

Lemma cache_open fs p : cache_inv fs -> (length p <= 2)%nat -> open_above fs p.
Proof.
  intros Hi Hp q Hq [n En]. pose proof (above_length q p Hq). destruct (ci_owner fs Hi q n) as (mode & -> & Hm); [lia|done|].
  by exists mode.
Qed.

Lemma cache_plain fs p : cache_inv fs -> plain p fs.
Proof. intros Hi q n Hu. apply (ci_plain fs Hi). by apply under_spec, prefix_nil. Qed.

Lemma cache_find fs p : cache_inv fs -> (length p <= 2)%nat ->
  find_node fs p = match fs !! p with Some n => inr n | None => inl not_exist end.
Proof. intros Hi Hp. apply find_node_reachable; [by apply ci_wf|]. by apply open_reachable, cache_open. Qed.

Lemma cache_without fs p : cache_inv fs -> cache_inv (without p fs).
Proof.
  intros [Hwf Hp Ho Hm]. split.
  - by apply wf_without.
  - intros q n Hu Hq. rewrite lookup_without in Hq. destruct (under p q); [done|]. by eapply Hp.
  - intros q n Hl Hq. rewrite lookup_without in Hq. destruct (under p q); [done|]. by apply (Ho q).
  - intros q n Hl Hq. rewrite lookup_without in Hq. destruct (under p q); [done|]. by apply (Hm q).
Qed.

Section Disk.
Context (E : OsEnv) `{!Quiet E}.

(** *** Fetch *)

Lemma runs_ModTime_at fs p : wf fs -> reachable fs p ->
  runs (GetDirectoryModTime E p) fs (fun r fs' => fs' = fs /\
    match fs !! p with
    | Some (NDir _) => exists t, r = inr (Some t)
    | None => r = inl not_exist
    | Some _ => True
    end).
Proof.
  intros Hi Hp h Eh. unfold GetDirectoryModTime, Stat, sys_read, sys. unfold io_bind.
  rewrite quiet, Eh, find_node_reachable by done.
  destruct (fs !! p) as [[]|]; cbn; try (exists [fs]; rewrite fs_cur_snoc; eauto).
  by destruct (os_follow _ _ _) as [e|[]]; cbn.
Qed.

Lemma runs_ModTime fs p : cache_inv fs -> (length p <= 2)%nat ->
  runs (GetDirectoryModTime E p) fs (fun r fs' => fs' = fs /\
    match fs !! p with
    | Some (NDir _) => exists t, r = inr (Some t)
    | None => r = inl not_exist
    | Some _ => True
    end).
Proof. intros Hi Hp. apply runs_ModTime_at; [by apply ci_wf|]. by apply open_reachable, cache_open. Qed.

Lemma runs_Fetch fs o d : cache_inv fs ->
  runs (Fetch E o d) fs (fun r fs' => fs' = fs /\
    match r with
    | inr None => content fs o d = None
    | inr (Some (p, _)) => is_Some (content fs o d) /\ p = [o; d]
    | inl _ => False
    end).
Proof.
  intros Hi. apply runs_bind. eapply runs_weaken; [by apply runs_ModTime|]. intros r fs' [-> Hr]. unfold content, unpackPath in *.
  destruct (fs !! [o; d]) as [n|] eqn:En.
  - destruct (ci_image fs Hi [o; d] n eq_refl En) as [mode ->]. destruct Hr as [t ->]. apply runs_ret. eauto.
  - subst r. by apply runs_ret.
Qed.

(** *** Delete *)

Lemma exec_delete fs p : cache_inv fs -> p <> [] -> (length p <= 2)%nat ->
  exec (DeleteReadOnlyRecursive E p) fs None (without p fs).
Proof.
  intros Hi Hp Hl. apply exec_DeleteReadOnlyRecursive; [done|by apply ci_wf|by apply cache_open|by apply cache_plain|done].
Qed.

Lemma content_without fs p o d :
  content (without p fs) o d =
    if under p [o; d] then None else content (without p fs) o d.
Proof. destruct (under p [o; d]) eqn:Hu; [|done]. unfold content. by rewrite lookup_without, Hu. Qed.

Lemma content_without_other fs p o d :
  (forall q, under [o; d] q = true -> under p q = false) -> content (without p fs) o d = content fs o d.
Proof. intros H. apply content_ext. intros q Hq. rewrite lookup_without. by rewrite H. Qed.

Lemma content_without_owner fs o o' d :
  content (without [o] fs) o' d = if decide (o' = o) then None else content fs o' d.
Proof.
  case_decide as H.
  - subst. rewrite content_without. replace (under [o] [o; d]) with true; [done|]. symmetry. apply under_spec. by exists [d].
  - apply content_without_other. intros q [s ->]%under_spec. destruct (under [o] _) eqn:Hu; [|done].
    apply under_spec in Hu as [s' Es]. by injection Es as -> _.
Qed.

Lemma content_without_image fs o d o' d' :
  content (without [o; d] fs) o' d' = if decide (o' = o /\ d' = d) then None else content fs o' d'.
Proof.
  case_decide as H.
  - destruct H as [-> ->]. rewrite content_without. by rewrite under_refl.
  - apply content_without_other. intros q Hq. destruct (under [o; d] q) eqn:Hu; [|done].
    destruct H. pose proof (under_images _ _ _ _ _ Hu Hq) as Ep. by injection Ep as -> ->.
Qed.

(** *** GarbageCollect *)

Lemma exec_gc_entries fs o names : cache_inv fs ->
  exists fs', exec (gc_entries E o names) fs None fs' /\ cache_inv fs' /\
    (forall o' d', content fs' o' d' = if decide (o' = o /\ d' ∈ names) then None else content fs o' d') /\
    (forall p, (length p <= 1)%nat -> fs' !! p = fs !! p).
Proof.
  revert fs. induction names as [|x names IH]; intros fs Hi.
  - exists fs. split_and!; [apply exec_ret|done| |done]. intros o' d'. by rewrite decide_False by set_solver.
  - destruct (IH (without [o; x] fs)) as (fs' & He & Hi' & Hc & Hs); [by apply cache_without|].
    exists fs'. split_and!; [|done| |].
    + eapply exec_bind; [by apply exec_delete|done].
    + intros o' d'. rewrite Hc, content_without_image. repeat case_decide; set_solver.
    + intros p Hp. rewrite Hs, lookup_without by done. destruct (under [o; x] p) eqn:Hu; [|done].
      apply under_spec in Hu as [s ->]. cbn in Hp. lia.
Qed.

Lemma exec_GarbageCollect fs o keep : cache_inv fs ->
  exists fs', exec (GarbageCollect E o keep) fs None fs' /\ cache_inv fs' /\
    forall o' d', content fs' o' d' = if decide (o' = o /\ d' <> keep) then None else content fs o' d'.
Proof.
  intros Hi. pose proof (exec_ReadDir E fs [o]) as Hrd. rewrite cache_find in Hrd by (done || (cbn; lia)).
  destruct (fs !! [o]) as [n|] eqn:En.
  - destruct (ci_owner fs Hi [o] n) as (mode & -> & Hm); [cbn; lia|done|].
    rewrite (has_bits_weaken mode rwx r_bit Hm eq_refl) in Hrd.
    set (names := List.filter (fun n => negb (bool_decide (n = keep))) (dir_names [o] fs)).
    destruct (exec_gc_entries fs o names Hi) as (fs1 & He & Hi1 & Hc & Hs).
    assert (Hin : forall d, d ∈ names <-> is_Some (fs !! [o; d]) /\ d <> keep).
    { intros d. unfold names. rewrite list_elem_of_In, filter_In, <- list_elem_of_In, elem_of_dir_names, negb_true_iff,
        bool_decide_eq_false. done. }
    assert (Hc' : forall o' d', content fs1 o' d' = if decide (o' = o /\ d' <> keep) then None else content fs o' d').
    { intros o' d'. rewrite Hc. destruct (decide (o' = o /\ d' <> keep)) as [[-> Hk]|Hk].
      - case_decide as Hd; [done|]. unfold content. destruct (fs !! [o; d']) as [n|] eqn:Ed; [|done].
        destruct Hd. split; [done|]. apply Hin. split; [eauto|done].
      - rewrite decide_False; [done|]. intros [-> Hd%Hin]. tauto. }
    destruct (existsb (fun n => bool_decide (n = keep)) (dir_names [o] fs)) eqn:Hf.
    + exists fs1. split_and!; [|done..]. unfold GarbageCollect. eapply exec_bind; [exact Hrd|]. cbv iota zeta.
      eapply exec_bind; [exact He|]. cbv iota. rewrite Hf. apply exec_ret.
    + exists (without [o] fs1). split_and!; [| by apply cache_without|].
      * unfold GarbageCollect. eapply exec_bind; [exact Hrd|]. cbv iota zeta. eapply exec_bind; [exact He|].
        cbv iota. rewrite Hf. eapply exec_bind; [apply exec_delete; [done..|cbn; lia]|apply exec_ret].
      * intros o' d'. rewrite content_without_owner, Hc'. destruct (decide (o' = o)) as [->|Ho].
        -- case_decide as Hk; [done|]. assert (d' = keep) as -> by (destruct (decide (d' = keep)); [done|tauto]).
           unfold content. destruct (fs !! [o; keep]) as [n|] eqn:Ek; [|done]. exfalso.
           assert (Ht : existsb (fun n => bool_decide (n = keep)) (dir_names [o] fs) = true).
           { apply existsb_elem. exists keep. split; [|by apply bool_decide_eq_true_2]. apply elem_of_dir_names. eauto. }
           congruence.
        -- done.
  - exists fs. split_and!; [|done|].
    + eapply exec_bind; [exact Hrd|]. apply exec_ret.
    + intros o' d'. case_decide as Hk; [|done]. destruct Hk as [-> _]. unfold content.
      destruct (fs !! [o; d']) as [n|] eqn:Ed; [|done].
      destruct (ci_wf fs Hi [o; d'] [o]) as [m Em]; [by exists d', []|eauto|congruence].
Qed.
End Disk.

Section Storing.
Context (E : OsEnv) `{!Quiet E} (U : Unpacker) (un_result : LayerResult) (plain_layer : LayerData -> Prop).
Context `{!ReliableUnpack U un_result plain_layer} (filterFunc : option FilterFunc).

(** *** An empty directory *)

Definition ensure (p : path) (fs : Fs) : Fs := match fs !! p with Some _ => fs | None => <[p := NDir rwx]> fs end.

Lemma lookup_ensure p fs q :
  ensure p fs !! q = if decide (q = p) then Some (default (NDir rwx) (fs !! p)) else fs !! q.
Proof.
  unfold ensure. case_decide as H.
  - subst. destruct (fs !! p) as [n|] eqn:Ep; [done|]. by rewrite lookup_insert_eq.
  - destruct (fs !! p); [done|]. by rewrite lookup_insert_ne.
Qed.

Lemma cache_ensure p fs :
  cache_inv fs -> (p = [] \/ is_Some (fs !! parent p)) -> (length p <= 2)%nat -> cache_inv (ensure p fs).
Proof.
  intros Hi Hp Hl.
  assert (Hnode : forall q n, ensure p fs !! q = Some n -> fs !! q = Some n \/ (q = p /\ n = NDir rwx)).
  { intros q n. rewrite lookup_ensure. case_decide as Hq; [subst|by left]. destruct (fs !! p) eqn:Ep; intros [= <-]; auto. }
  split.
  - intros q r Hr [n Hn]. assert (Hfs : exists m, fs !! r = Some (NDir m)).
    { destruct (Hnode q n Hn) as [Hq|[-> ->]]; [by apply (ci_wf fs Hi q); eauto|].
      destruct Hp as [->|[np Hnp]]; [by destruct Hr as (? & ? & Hr); destruct r|].
      destruct (decide (r = parent p)) as [->|Hne].
      - destruct (ci_owner fs Hi (parent p) np) as (m & -> & _); [|done|by exists m].
        assert (p <> []) by (intros ->; apply above_length in Hr; cbn in Hr; lia). pose proof (above_length _ _ (above_parent p H)). lia.
      - apply (ci_wf fs Hi (parent p) r); [|eauto]. destruct Hr as (x & s & ->). destruct s as [|y s].
        { by rewrite parent_snoc in Hne. }
        exists x, (removelast (y :: s)). unfold parent. rewrite removelast_app by done. done. }
    destruct Hfs as [m Hm]. rewrite lookup_ensure. case_decide as Hd; [subst; rewrite Hm|]; eauto.
  - intros q n Hu Hq. destruct (Hnode q n Hq) as [Hq'|[_ ->]]; [by eapply (ci_plain fs Hi)|done].
  - intros q n Hl' Hq. destruct (Hnode q n Hq) as [Hq'|[_ ->]]; [by eapply (ci_owner fs Hi)|by exists rwx].
  - intros q n Hl' Hq. destruct (Hnode q n Hq) as [Hq'|[_ ->]]; [by eapply (ci_image fs Hi)|by exists rwx].
Qed.

Lemma mkdirs_step dir rest fs :
  cache_inv fs -> (length dir <= 2)%nat -> (dir = [] \/ is_Some (fs !! parent dir)) ->
  mkdirs rwx dir rest fs =
    match rest with [] => (None, ensure dir fs) | x :: rest' => mkdirs rwx (dir ++ [x]) rest' (ensure dir fs) end.
Proof.
  intros Hi Hl Hp. assert (Hdir : forall n, fs !! dir = Some n -> exists m, n = NDir m).
  { intros n Hn. destruct (decide (length dir = 2)%nat); [by eapply ci_image|].
    destruct (ci_owner fs Hi dir n) as (m & -> & _); [lia|done|eauto]. }
  assert (Hun : fs !! dir = None -> bool_decide (dir = []) || unlinkable fs wx dir = true).
  { intros Hn. destruct Hp as [->|[np Hnp]]; [done|]. apply orb_true_iff. destruct (decide (dir = [])) as [->|Hne]; [by left|right].
    pose proof (above_length _ _ (above_parent dir Hne)). unfold unlinkable. rewrite cache_find, Hnp by (done || lia).
    destruct (ci_owner fs Hi (parent dir) np) as (m & -> & Hm); [lia|done|]. by apply (has_bits_weaken _ rwx). }
  unfold ensure. destruct rest as [|x rest]; cbn [mkdirs]; destruct (fs !! dir) as [n|] eqn:En.
  all: try (destruct (Hdir n eq_refl) as [m ->]; done).
  all: by rewrite Hun.
Qed.

Lemma exec_EnsureEmptyDirectory fs o d :
  cache_inv fs -> fs !! [o; d] = None ->
  exists fs1, exec (EnsureEmptyDirectory E [o; d] rwx) fs None fs1 /\ cache_inv fs1 /\
    tree_at [o; d] fs1 = {[ [o; d] := NDir rwx ]} /\
    forall o' d', (o', d') <> (o, d) -> content fs1 o' d' = content fs o' d'.
Proof.
  intros Hi Hn. set (fa := ensure [] fs). set (fb := ensure [o] fa). set (fc := ensure [o; d] fb).
  assert (Ha : cache_inv fa) by (apply cache_ensure; [done|by left|cbn; lia]).
  assert (Hea : is_Some (fa !! [])) by (unfold fa; rewrite lookup_ensure; by eexists).
  assert (Hb : cache_inv fb) by (apply cache_ensure; [done|by right|cbn; lia]).
  assert (Heb : is_Some (fb !! [o])) by (unfold fb; rewrite lookup_ensure, decide_True by done; by eexists).
  assert (Hc : cache_inv fc) by (apply cache_ensure; [done|by right|cbn; lia]).
  assert (Hl : forall p, fc !! p = if decide (p = [o; d]) then Some (NDir rwx) else fb !! p).
  { intros p. unfold fc. rewrite lookup_ensure. case_decide; [|done]. subst. unfold fb, fa.
    rewrite !lookup_ensure, !decide_False by done. by rewrite Hn. }
  assert (Hlow : forall p, (2 <= length p)%nat -> fb !! p = fs !! p).
  { intros p Hp. assert (p <> [] /\ p <> [o]) as [H1 H2] by (split; intros ->; cbn in Hp; lia).
    unfold fb, fa. rewrite lookup_ensure, decide_False by done. by rewrite lookup_ensure, decide_False. }
  exists fc. split_and!; [|done| |].
  - unfold EnsureEmptyDirectory. eapply exec_bind; [by apply exec_ReadDir|]. rewrite cache_find, Hn by (done || (cbn; lia)).
    cbn [has_kind not_exist]. rewrite bool_decide_eq_true_2 by done.
    pose proof (exec_sys E (OMkdirAll [o; d]) (fun e fs => (Some e, fs)) (mkdirs rwx [] [o; d]) fs) as Hm.
    rewrite !mkdirs_step in Hm by (done || (by left) || (by right) || (cbn; lia)). exact Hm.
  - apply map_eq. intros p. rewrite lookup_tree_at, Hl. destruct (under [o; d] p) eqn:Hu.
    + case_decide as Hp; [by subst; rewrite lookup_singleton_eq|]. rewrite lookup_singleton_ne by done.
      rewrite Hlow; [exact (wf_absent [o; d] fs (ci_wf fs Hi) Hn p Hu)|]. apply under_spec in Hu as [s ->]. cbn. lia.
    + rewrite lookup_singleton_ne; [done|]. intros <-. by rewrite under_refl in Hu.
  - intros o' d' Hne. apply content_ext. intros p Hp. rewrite Hl. rewrite decide_False.
    + apply Hlow. apply under_spec in Hp as [s ->]. cbn. lia.
    + intros ->. destruct Hne. apply (under_images o' d' o d [o; d]); [done|apply under_refl].
Qed.

(** *** The layers *)

(** Only the directory has changed since [fs0]. *)
Definition only_at (dest : path) (fs0 fs : Fs) : Prop :=
  without dest fs = without dest fs0 /\ wf fs /\ dir_with rwx fs dest /\ plain dest fs.

Lemma runs_unpack_layers f dest fs0 layers fs :
  only_at dest fs0 fs -> Forall plain_layer layers ->
  runs (unpack_layers U false f dest layers) fs (fun err fs' => only_at dest fs0 fs' /\
    match err with
    | None => unpacked_layers un_result f dest layers (tree_at dest fs) = Some (tree_at dest fs')
    | Some _ => unpacked_layers un_result f dest layers (tree_at dest fs) = None
    end).
Proof.
  revert fs. induction layers as [|layer rest IH]; intros fs Hat Hpl; cbn [unpack_layers unpacked_layers].
  { by apply runs_ret. }
  apply Forall_cons in Hpl as [Hpl1 Hpl].
  destruct (ld_Err layer) as [e|]; [by apply runs_ret|]. apply runs_bind.
  assert (Hun : runs (Unpack U false f dest layer) fs (fun err fs' => only_at dest fs0 fs' /\
    match err with
    | None => un_result f dest layer (tree_at dest fs) = Some (tree_at dest fs')
    | Some _ => un_result f dest layer (tree_at dest fs) = None
    end)).
  { unfold Unpack. cbn [andb]. apply runs_bind. intros h Eh. destruct Hat as (Hw & Hwf & Hd & Hp).
    pose proof (reliable_unpack h f dest layer) as Hlaw. cbv zeta in Hlaw. rewrite Eh in Hlaw.
    destruct (un_apply U h f dest layer) as [states err]. cbn in Hlaw. destruct (Hlaw Hwf Hd Hp Hpl1) as (H1 & H2 & H3 & H4 & H5).
    exists states. split; [done|]. cbn. apply runs_ret. split; [split_and!; [congruence|done..]|]. by destruct err. }
  eapply runs_weaken; [exact Hun|]. intros [e|] fs' [Hat' Hr].
  - apply runs_ret. split; [done|]. by rewrite Hr.
  - rewrite Hr. by apply IH.
Qed.

Lemma only_at_inv o d fs0 fs : cache_inv fs0 -> only_at [o; d] fs0 fs -> cache_inv fs.
Proof.
  intros Hi (Hw & Hwf & (m & Hm & _) & Hp).
  assert (Hl : forall p, under [o; d] p = false -> fs !! p = fs0 !! p).
  { intros p Hu. pose proof (f_equal (lookup p) Hw) as H. rewrite !lookup_without, Hu in H. done. }
  assert (Hs : forall p, (length p <= 2)%nat -> p <> [o; d] -> fs !! p = fs0 !! p).
  { intros p Hlp Hne. apply Hl. destruct (under [o; d] p) eqn:Hu; [|done]. apply under_spec in Hu as [[|x s] ->]; [done|].
    cbn in Hlp. lia. }
  split; [done| | |].
  - intros p n _ Hn. destruct (under [o; d] p) eqn:Hu; [by eapply Hp|]. rewrite Hl in Hn by done.
    apply (ci_plain fs0 Hi p); [|done]. apply under_spec, prefix_nil.
  - intros p n Hlp Hn. assert (p <> [o; d]) by (intros ->; cbn in Hlp; lia). rewrite Hs in Hn by (done || lia). by eapply ci_owner.
  - intros p n Hlp Hn. destruct (decide (p = [o; d])) as [->|Hne]; [exists m; congruence|].
    rewrite Hs in Hn by (done || lia). by eapply ci_image.
Qed.

Lemma only_at_content o d fs0 fs o' d' : only_at [o; d] fs0 fs -> (o', d') <> (o, d) -> content fs o' d' = content fs0 o' d'.
Proof.
  intros (Hw & _) Hne. apply content_ext. intros p Hp. pose proof (f_equal (lookup p) Hw) as H. rewrite !lookup_without in H.
  destruct (under [o; d] p) eqn:Hu; [|done]. destruct Hne. by apply (under_images o' d' o d p).
Qed.

Lemma content_only_at o d fs0 fs : only_at [o; d] fs0 fs -> content fs o d = Some (tree_at [o; d] fs).
Proof. intros (_ & _ & (m & Hm & _) & _). unfold content. by rewrite Hm. Qed.

Lemma tree_at_chmod_tree fm dm root fs : tree_at root (chmod_tree fm dm root fs) = chmod_tree fm dm root (tree_at root fs).
Proof.
  apply map_eq. intros p. rewrite lookup_tree_at, !lookup_chmod_tree, lookup_tree_at. by destruct (under root p), (fs !! p).
Qed.

Lemma cache_chmod_tree o d fs : cache_inv fs -> cache_inv (chmod_tree ownerReadOnlyFileMode ownerReadOnlyDirMode [o; d] fs).
Proof.
  intros Hi. split.
  - apply wf_chmod_tree. by apply ci_wf.
  - intros p n Hu Hn. rewrite lookup_chmod_tree in Hn. destruct (fs !! p) as [np|] eqn:Ep; [|done].
    pose proof (ci_plain fs Hi p np Hu Ep). injection Hn as <-. by destruct (under [o; d] p), np.
  - intros p n Hlp Hn. rewrite lookup_chmod_tree in Hn. destruct (fs !! p) as [np|] eqn:Ep; [|done].
    destruct (under [o; d] p) eqn:Hu; [apply under_spec in Hu as [s ->]; cbn in Hlp; lia|]. injection Hn as <-. by eapply ci_owner.
  - intros p n Hlp Hn. rewrite lookup_chmod_tree in Hn. destruct (fs !! p) as [np|] eqn:Ep; [|done].
    destruct (ci_image fs Hi p np Hlp Ep) as [m ->]. injection Hn as <-. destruct (under [o; d] p); eauto.
Qed.

Lemma runs_unpack_image f o d fs0 layers fs :
  cache_inv fs0 -> only_at [o; d] fs0 fs -> tree_at [o; d] fs = {[ [o; d] := NDir rwx ]} -> Forall plain_layer layers ->
  runs (unpack_image E U false f [o; d] layers) fs (fun err fs' => cache_inv fs' /\
    (forall o' d', (o', d') <> (o, d) -> content fs' o' d' = content fs0 o' d') /\
    match err with
    | None => exists t, unpacked_layers un_result f [o; d] layers {[ [o; d] := NDir rwx ]} = Some t /\
                content fs' o d = Some (chmod_tree ownerReadOnlyFileMode ownerReadOnlyDirMode [o; d] t)
    | Some _ => unpacked_layers un_result f [o; d] layers {[ [o; d] := NDir rwx ]} = None
    end).
Proof.
  intros Hi Hat Ht Hpl. apply runs_bind. eapply runs_weaken; [by apply runs_unpack_layers|]. rewrite Ht.
  intros [e|] fs1 [Hat1 Hr].
  { apply runs_ret. split_and!; [by eapply only_at_inv|by intros; eapply only_at_content|done]. }
  pose proof (only_at_inv o d fs0 fs1 Hi Hat1) as Hi1.
  eapply runs_exec_bind; [apply (exec_setModeRecursive E ownerReadOnlyFileMode ownerReadOnlyDirMode eq_refl eq_refl);
    [by apply ci_wf|by apply open_reachable, cache_open|by apply cache_plain]|].
  apply runs_ret. split_and!.
  - by apply cache_chmod_tree.
  - intros o' d' Hne. rewrite <- (only_at_content o d fs0 fs1 o' d') by done. apply content_ext. intros p Hp.
    rewrite lookup_chmod_tree. destruct (under [o; d] p) eqn:Hu; [destruct Hne; by apply (under_images o' d' o d p)|].
    by destruct (fs1 !! p).
  - exists (tree_at [o; d] fs1). split; [done|]. rewrite <- tree_at_chmod_tree. unfold content. rewrite lookup_chmod_tree, under_refl.
    destruct Hat1 as (_ & _ & (m & Hm & _) & _). by rewrite Hm.
Qed.

Lemma runs_store_layers f o d fs0 layers fs :
  cache_inv fs0 -> only_at [o; d] fs0 fs -> tree_at [o; d] fs = {[ [o; d] := NDir rwx ]} -> Forall plain_layer layers ->
  runs (store_layers E U false f [o; d] layers) fs (fun r fs' => cache_inv fs' /\
    (forall o' d', (o', d') <> (o, d) -> content fs' o' d' = content fs0 o' d') /\
    content fs' o d = chmod_tree ownerReadOnlyFileMode ownerReadOnlyDirMode [o; d] <$>
      unpacked_layers un_result f [o; d] layers {[ [o; d] := NDir rwx ]} /\
    match r with
    | inr (p, _) => is_Some (unpacked_layers un_result f [o; d] layers {[ [o; d] := NDir rwx ]}) /\ p = [o; d]
    | inl _ => unpacked_layers un_result f [o; d] layers {[ [o; d] := NDir rwx ]} = None
    end).
Proof.
  intros Hi Hat Ht Hpl. apply runs_bind. eapply runs_weaken; [by apply (runs_unpack_image f o d fs0)|].
  intros [e|] fs2 (Hi2 & Hc2 & Hr).
  - rewrite Hr. eapply runs_exec_bind; [apply exec_delete; [done..|cbn; lia]|]. apply runs_ret. split_and!; try done.
    + by apply cache_without.
    + intros o' d' Hne. rewrite content_without_image, decide_False by (intros [-> ->]; done). by rewrite Hc2.
    + by rewrite content_without_image, decide_True.
  - destruct Hr as (t & Hr & Hc). rewrite Hr. cbn [fmap option_fmap option_map].
    apply runs_bind. eapply runs_weaken; [apply runs_ModTime; try done; cbn; lia|]. intros r fs3 [-> Hm].
    assert (Hd : exists m, fs2 !! [o; d] = Some (NDir m)) by (unfold content in Hc; destruct (fs2 !! [o; d]) as [[]|]; eauto; done).
    destruct Hd as [m Hd]. rewrite Hd in Hm. destruct Hm as [tm ->]. apply runs_ret. split_and!; [done| |done..].
    intros o' d' Hne. by rewrite Hc2.
Qed.

Lemma only_at_empty o d fs : cache_inv fs -> tree_at [o; d] fs = {[ [o; d] := NDir rwx ]} -> only_at [o; d] fs fs.
Proof.
  intros Hi Ht. split_and!; [done|by apply ci_wf| |by apply cache_plain].
  exists rwx. split; [|done]. pose proof (f_equal (lookup [o; d]) Ht) as H.
  by rewrite lookup_tree_at, under_refl, lookup_singleton_eq in H.
Qed.

Lemma content_none fs o d : cache_inv fs -> content fs o d = None -> fs !! [o; d] = None.
Proof.
  intros Hi Hn. unfold content in Hn. destruct (fs !! [o; d]) as [n|] eqn:En; [|done].
  by destruct (ci_image fs Hi [o; d] n eq_refl En) as [m ->].
Qed.

Lemma runs_Store fs o src d img layers :
  cache_inv fs -> content fs o d = None -> Forall plain_layer layers ->
  runs (Store E U false filterFunc o src d img layers) fs (fun r fs' => cache_inv fs' /\
    (forall o' d', (o', d') <> (o, d) -> content fs' o' d' = content fs o' d') /\
    content fs' o d = unpacked un_result filterFunc o src d img layers /\
    match r with
    | inr (p, _) => is_Some (unpacked un_result filterFunc o src d img layers) /\ p = [o; d]
    | inl _ => unpacked un_result filterFunc o src d img layers = None
    end).
Proof.
  intros Hi Hn Hpl. unfold Store, unpacked. destruct (image_filter filterFunc src img) as [err|f]; [by apply runs_ret|].
  destruct (exec_EnsureEmptyDirectory fs o d Hi (content_none fs o d Hi Hn)) as (fs1 & He & Hi1 & Ht1 & Hc1).
  unfold fs_check. eapply runs_exec_bind; [exact He|]. cbv iota. eapply runs_weaken.
  { apply (runs_store_layers f o d fs1); [done|by apply only_at_empty|done|done]. }
  intros r fs2 (Hi2 & Hc2 & Hc & Hr). split_and!; [done| |done|].
  - intros o' d' Hne. by rewrite Hc2, Hc1.
  - destruct r as [e|[p t]]; [by rewrite Hr|]. by rewrite fmap_is_Some.
Qed.

End Storing.

(** ** Whatever fails *)

(** The disk holds a tree, whose owners and images are no symbolic links,
    which the cache never makes. *)
Definition cache_wf (fs : Fs) : Prop := wf fs /\ forall p t, (length p <= 2)%nat -> fs !! p <> Some (NSymlink t).

Lemma shrunk_cache_wf root fs0 fs : cache_wf fs0 -> shrunk root fs0 fs -> cache_wf fs.
Proof.
  intros [_ Hl] Hs. split; [apply Hs|]. intros p t Hp Hn. destruct (shrunk_node _ _ _ _ _ Hs Hn) as (n0 & E0 & Hc).
  specialize (Hc 0). destruct n0; try done. by apply (Hl p target).
Qed.

Lemma shrunk_content root fs0 fs o d :
  shrunk root fs0 fs -> (forall q, under [o; d] q = true -> under root q = false) -> content fs o d = content fs0 o d.
Proof. intros Hs Hu. apply content_ext. intros p Hp. eapply shrunk_outside; eauto. Qed.

Lemma shrunk_content_none root fs0 fs o d : shrunk root fs0 fs -> content fs0 o d = None -> content fs o d = None.
Proof.
  intros Hs Hc. unfold content in *. destruct (fs !! [o; d]) as [[| m | |]|] eqn:En; try done.
  destruct (shrunk_node _ _ _ _ _ Hs En) as (n0 & E0 & Hm). rewrite E0 in Hc. specialize (Hm 0). by destruct n0.
Qed.

Lemma under_owner_other o o' d' q : o' <> o -> under [o'; d'] q = true -> under [o] q = false.
Proof.
  intros Ho [s ->]%under_spec. destruct (under [o] _) eqn:Hu; [|done]. apply under_spec in Hu as [s' Es]. by injection Es as -> _.
Qed.

Lemma under_image_other o d o' d' q : (o', d') <> (o, d) -> under [o'; d'] q = true -> under [o; d] q = false.
Proof.
  intros Hne Hu. destruct (under [o; d] q) eqn:Hu'; [|done]. destruct Hne. by eapply under_images.
Qed.

(** The images of [fs0] that [touched] leaves alone are as they were. *)
Definition kept (touched : string -> string -> Prop) (fs0 fs : Fs) : Prop :=
  cache_wf fs /\ forall o d, ~ touched o d -> content fs o d = content fs0 o d.

Lemma kept_refl touched fs : cache_wf fs -> kept touched fs fs.
Proof. done. Qed.

Lemma kept_shrunk touched root fs0 fs1 fs :
  kept touched fs0 fs1 -> (forall o d, ~ touched o d -> forall q, under [o; d] q = true -> under root q = false) ->
  shrunk root fs1 fs -> kept touched fs0 fs.
Proof.
  intros [Hwf Hc] Hr Hs. split; [by eapply shrunk_cache_wf|]. intros o d Ht. rewrite <- Hc by done. eapply shrunk_content; eauto.
Qed.

Definition nothing : string -> string -> Prop := fun _ _ => False.
Definition only_image (o d : string) : string -> string -> Prop := fun o' d' => (o', d') = (o, d).
Definition dir_of_owner (o : string) : string -> string -> Prop := fun o' _ => o' = o.
Definition others_of (o keep : string) : string -> string -> Prop := fun o' d' => o' = o /\ d' <> keep.

Section AnyFailure.
Context (E : OsEnv) `{!Honest E}.

Lemma steps_ModTime (I : Fs -> Prop) fs p : I fs -> cache_wf fs -> (length p <= 2)%nat ->
  steps I (GetDirectoryModTime E p) fs (fun r fs' => fs' = fs /\
    match r with
    | inl e => has_kind KNotExist e = true -> fs !! p = None
    | inr None => forall m, fs !! p <> Some (NDir m)
    | inr (Some _) => exists m, fs !! p = Some (NDir m)
    end).
Proof.
  intros HI [Hwf Hl] Hp. apply steps_bind.
  refine (steps_dep _ (fun h => sys_read E (OStat p) _) fs _ _). intros h. apply (steps_read E); [done| |].
  - intros e He. apply steps_ret. split; [done|]. by rewrite He.
  - destruct (find_node fs p) as [e|n] eqn:Hf.
    + apply steps_ret. split; [done|]. intros Hk. exact (find_not_exist fs e p [] Hwf Hf Hk).
    + pose proof (find_node_here _ _ _ Hf) as Hn. destruct n as [| m |t|].
      * apply steps_ret. split; [done|]. by rewrite Hn.
      * intros h' Eh. split; [exists []; by rewrite app_nil_r|]. cbn [fst snd]. split; [done|]. by exists m.
      * by destruct (Hl p t Hp).
      * apply steps_ret. split; [done|]. by rewrite Hn.
Qed.

Lemma content_is_dir fs o d : is_Some (content fs o d) <-> exists m, fs !! [o; d] = Some (NDir m).
Proof.
  unfold content. split.
  - destruct (fs !! [o; d]) as [[| m | |]|]; intros [? ?]; try done. by exists m.
  - intros [m ->]. by eexists.
Qed.

Lemma content_no_dir fs o d : content fs o d = None <-> forall m, fs !! [o; d] <> Some (NDir m).
Proof.
  unfold content. destruct (fs !! [o; d]) as [[| m | |]|]; split; try done. intros H. by destruct (H m).
Qed.

Lemma steps_Fetch fs o d : cache_wf fs ->
  steps (kept nothing fs) (Fetch E o d) fs (fun r fs' => match r with
    | inr None => content fs o d = None
    | inr (Some (p, _)) => is_Some (content fs o d) /\ p = [o; d]
    | inl _ => True
    end).
Proof.
  intros Hi. apply steps_bind. eapply steps_weaken; [by apply (steps_ModTime (kept nothing fs) fs [o; d])|done|].
  intros [e|[t|]] fs' [-> Hr].
  - apply steps_ret. destruct (has_kind KNotExist e) eqn:Hk; [|done]. apply content_no_dir. by rewrite Hr.
  - apply steps_ret. split; [by apply content_is_dir|done].
  - assert (Hc : content fs o d = None) by (by apply content_no_dir).
    apply steps_bind. eapply steps_weaken; [apply (steps_Delete E [o; d] fs fs), shrunk_refl, Hi| |].
    + intros fs1 Hs. split; [by eapply shrunk_cache_wf|]. intros o' d' _. destruct (decide ((o', d') = (o, d))) as [[= -> ->]|Hne].
      * rewrite Hc. by eapply shrunk_content_none.
      * eapply shrunk_content; [done|]. intros q. by apply under_image_other.
    + intros r fs1 _. apply steps_ret. by destruct r.
Qed.

Lemma steps_Delete_owner fs o : cache_wf fs ->
  steps (kept (dir_of_owner o) fs) (Delete E o) fs (fun r fs' => r = None -> forall d, content fs' o d = None).
Proof.
  intros Hi. eapply steps_weaken; [apply (steps_Delete E [o] fs fs), shrunk_refl, Hi| |].
  - intros fs' Hs. apply (kept_shrunk _ [o] fs fs); [done| |done]. intros o' d' Ho q. by apply under_owner_other.
  - intros r fs' Hr Hr' d. rewrite (Hr Hr'), content_without_owner. by rewrite decide_True.
Qed.

(** While garbage is collected no image appears. *)
Definition collecting (o keep : string) (fs0 fs : Fs) : Prop :=
  kept (others_of o keep) fs0 fs /\ forall d, content fs0 o d = None -> content fs o d = None.

Lemma collecting_image o keep x fs0 fs1 fs :
  collecting o keep fs0 fs1 -> x <> keep -> shrunk [o; x] fs1 fs -> collecting o keep fs0 fs.
Proof.
  intros [Hk Hn] Hx Hs. split.
  - eapply kept_shrunk; [done| |done]. intros o' d' Ht q. apply under_image_other. intros [= -> ->]. by apply Ht.
  - intros d Hd. eapply shrunk_content_none; eauto.
Qed.

Lemma steps_gc_entries o keep names fs0 : forall fs, Forall (fun x => x <> keep) names -> collecting o keep fs0 fs ->
  steps (collecting o keep fs0) (gc_entries E o names) fs (fun r fs' => r = None ->
    (forall d, d ∈ names -> content fs' o d = None) /\ forall d, content fs o d = None -> content fs' o d = None).
Proof.
  induction names as [|x names IH]; intros fs Hx Hc; cbn [gc_entries].
  { apply steps_ret. intros _. split; [|done]. intros d Hd. by apply not_elem_of_nil in Hd. }
  apply Forall_cons in Hx as [Hx Hxs]. apply steps_bind.
  assert (Hwf : wf fs) by apply Hc.
  assert (Hall : forall fs', shrunk [o; x] fs fs' -> collecting o keep fs0 fs') by (intros; by eapply collecting_image).
  eapply steps_weaken; [apply (steps_Delete E [o; x] fs fs), shrunk_refl, Hwf|exact Hall|].
  intros [e|] fs1 H1; [by apply steps_ret|]. rewrite (H1 eq_refl).
  assert (Hs : shrunk [o; x] fs (without [o; x] fs)) by (by apply shrunk_without).
  eapply steps_weaken; [apply IH; auto|done|]. intros r fs' Hr Hr'. destruct (Hr Hr') as [Hin Hno]. split.
  - intros d [->|Hd]%elem_of_cons; [|auto]. apply Hno. rewrite content_without_image. by rewrite decide_True.
  - intros d Hd. apply Hno. by eapply shrunk_content_none.
Qed.

Lemma steps_GC fs o keep : cache_wf fs ->
  steps (kept (others_of o keep) fs) (GarbageCollect E o keep) fs (fun r fs' => r = None ->
    forall d, d <> keep -> content fs' o d = None).
Proof.
  intros Hi. eapply (steps_weaken (collecting o keep fs)); [|by intros ? [? _]|intros r fs1 HQ; exact HQ].
  unfold GarbageCollect, ownerIDPath. assert (Hc0 : collecting o keep fs fs) by done. apply steps_bind. apply (steps_read E); [done| |].
  - intros e He. rewrite He. by apply steps_ret.
  - destruct (find_node fs [o]) as [e|n] eqn:Hf.
    { apply steps_ret. destruct (has_kind KNotExist e) eqn:Hk; [|done]. intros _ d _. apply content_no_dir. intros m Hm.
      pose proof (find_not_exist fs e [o] [] (proj1 Hi) Hf Hk) as Hn.
      destruct (proj1 Hi [o; d] [o]) as [mo Hmo]; [by exists d, []|eauto|]. cbn in Hn. congruence. }
    destruct n as [| mode | |]; try (by apply steps_ret). destruct (has_bits mode r_bit); [|by apply steps_ret].
    set (names := List.filter (fun n => negb (bool_decide (n = keep))) (dir_names [o] fs)).
    assert (Hin : forall d, d ∈ names <-> is_Some (fs !! [o; d]) /\ d <> keep).
    { intros d. unfold names. rewrite list_elem_of_In, filter_In, <- list_elem_of_In, elem_of_dir_names, negb_true_iff,
        bool_decide_eq_false. done. }
    cbv zeta. apply steps_bind. eapply steps_weaken.
    { apply steps_last; [exact Hc0|]. apply (steps_gc_entries o keep names fs fs); [|exact Hc0].
      apply Forall_forall. intros d Hd. by apply Hin. }
    { done. }
    intros [e|] fs1 [H1 Hc1]; [by apply steps_ret|]. destruct (H1 eq_refl) as [Hgone _]. clear H1.
    assert (Hall : forall d, d <> keep -> content fs1 o d = None).
    { intros d Hd. destruct (fs !! [o; d]) as [n|] eqn:En; [apply Hgone, Hin; eauto|].
      apply (proj2 Hc1). apply content_no_dir. by rewrite En. }
    destruct (existsb (fun n => bool_decide (n = keep)) (dir_names [o] fs)) eqn:Hk; [by apply steps_ret|].
    assert (Hkn : content fs o keep = None).
    { apply content_no_dir. intros m Hm. apply not_true_iff_false in Hk. apply Hk. apply existsb_elem. exists keep.
      split; [|by apply bool_decide_eq_true_2]. apply elem_of_dir_names. eauto. }
    assert (Hwf1 : wf fs1) by apply Hc1.
    apply steps_bind. eapply steps_weaken; [apply (steps_Delete E [o] fs1 fs1), shrunk_refl, Hwf1| |].
    + intros fs2 Hs. destruct Hc1 as [[Hw1 Hk1] Hn1].
      assert (Hn2 : forall d, content fs o d = None -> content fs2 o d = None).
      { intros d Hd. eapply shrunk_content_none; eauto. }
      split; [split|exact Hn2].
      * by eapply shrunk_cache_wf.
      * intros o' d' Ht. destruct (decide (o' = o)) as [->|Ho].
        -- assert (d' = keep) as -> by (destruct (decide (d' = keep)); [done|by destruct Ht]). rewrite Hkn. by apply Hn2.
        -- rewrite <- Hk1 by done. eapply shrunk_content; [done|]. intros q. by apply under_owner_other.
    + intros r fs2 Hr. apply steps_ret. destruct r as [e|]; [done|]. intros _ d _. rewrite (Hr eq_refl), content_without_owner.
      by rewrite decide_True.
Qed.

End AnyFailure.

(** *** Storing *)

Lemma within_trans dest fs0 fs1 fs : within dest fs0 fs1 -> within dest fs1 fs -> within dest fs0 fs.
Proof. intros (_ & H1 & _) (Hwf & H2 & Hd). split_and!; [done| |done]. intros p Hp. by rewrite H2, H1. Qed.

Lemma kept_within o d fs0 fs1 fs : kept (only_image o d) fs0 fs1 -> within [o; d] fs1 fs -> kept (only_image o d) fs0 fs.
Proof.
  intros [[_ Hl] Hc] (Hwf & Hout & m & Hm). split; [split; [done|]|].
  - intros p t Hp Hn. destruct (under [o; d] p) eqn:Hu; [|rewrite Hout in Hn by done; by apply (Hl p t)].
    apply under_spec in Hu as [[|x s] ->]; [cbn in Hn; congruence|cbn in Hp; lia].
  - intros o' d' Ht. rewrite <- Hc by done. apply content_ext. intros q Hq. apply Hout. eapply under_image_other; [|done]. exact Ht.
Qed.

Lemma kept_image_shrunk o d fs0 fs1 fs : kept (only_image o d) fs0 fs1 -> shrunk [o; d] fs1 fs -> kept (only_image o d) fs0 fs.
Proof. intros Hk. eapply kept_shrunk; [done|]. intros o' d' Ht q. by apply under_image_other. Qed.

Lemma within_refl dest fs m : wf fs -> fs !! dest = Some (NDir m) -> within dest fs fs.
Proof. intros. split_and!; eauto. Qed.

(** A run keeps what it started from in sight. *)
Lemma steps_from {A : Type} (I : Fs -> Prop) (m : IO Hist A) (fs : Fs) (Q : A -> Fs -> Prop) :
  steps I m fs Q -> steps I m fs (fun a fs' => Q a fs' /\ exists h, (m h).1 = a /\ fs_cur (m h).2 = fs').
Proof. intros Hm h Eh. destruct (Hm h Eh) as [Hi HQ]. split; [done|]. split; [done|]. by exists h. Qed.

Section StoringAny.
Context (E : OsEnv) `{!Honest E} (U : Unpacker) (un_result : LayerResult) `{!UnpackLaws U un_result}.
Context (HelmChartSupport : bool) (filterFunc : option FilterFunc).

Abbreviation result_of := (layer_result U un_result HelmChartSupport).

Lemma steps_Ensure fs o d : cache_wf fs -> content fs o d = None ->
  steps (kept (only_image o d) fs) (EnsureEmptyDirectory E [o; d] rwx) fs (fun r fs' => match r with
    | Some _ => content fs' o d = None
    | None => within [o; d] fs' fs' /\ tree_at [o; d] fs' = {[ [o; d] := NDir rwx ]}
    end).
Proof.
  intros Hi Hn. apply steps_bind. apply (steps_read E); [done| |].
  - intros e He. rewrite He. by apply steps_ret.
  - destruct (find_node fs [o; d]) as [e|n] eqn:Hf.
    2: { apply find_node_here in Hf. destruct n; try (by apply steps_ret). exfalso.
         apply (proj1 (content_no_dir fs o d) Hn mode Hf). }
    destruct (has_kind KNotExist e) eqn:Hk; [|by apply steps_ret].
    pose proof (find_not_exist fs e [o; d] [] (proj1 Hi) Hf Hk) as Habs. cbn in Habs.
    assert (Hkept : forall fs', wf fs' ->
      (forall q, fs' !! q = fs !! q \/ (fs !! q = None /\ fs' !! q = Some (NDir rwx) /\ q `prefix_of` [o; d])) ->
      kept (only_image o d) fs fs').
    { intros fs' Hwf' Hfr. split; [split; [done|]|].
      - intros p t Hp Hs. destruct (Hfr p) as [Hq|(_ & Hq & _)]; [rewrite Hq in Hs; by apply (proj2 Hi p t)|congruence].
      - intros o' d' Ht. apply content_ext. intros q Hq. destruct (Hfr q) as [|(_ & _ & [s Es])]; [done|].
        apply under_spec in Hq as [s' ->]. injection Es as -> -> _. by destruct Ht. }
    assert (Hmk : forall q, (mkdirs rwx [] [o; d] fs).2 !! q = fs !! q \/
      (fs !! q = None /\ (mkdirs rwx [] [o; d] fs).2 !! q = Some (NDir rwx) /\ q `prefix_of` [o; d])).
    { intros q. destruct (mkdirs_frame rwx [o; d] [] fs q) as [|(?&?&_&?)]; auto. }
    eapply steps_weaken; [apply (steps_MkdirAll E (kept (only_image o d) fs) [o; d] rwx fs (proj1 Hi))|done|].
    + done.
    + apply Hkept; [apply mkdirs_wf, Hi|done].
    + intros [e'|] fs' (Hwf' & Hfr & Hr).
      * apply content_no_dir. intros m Hm. rewrite Hr, Habs in Hm. done.
      * destruct Hr as (m & Hm & Hr). rewrite (Hr Habs) in Hm. split; [by apply (within_refl _ _ rwx)|].
        apply map_eq. intros q. rewrite lookup_tree_at. destruct (decide (q = [o; d])) as [->|Hq].
        -- by rewrite under_refl, lookup_singleton_eq.
        -- rewrite lookup_singleton_ne by done. destruct (under [o; d] q) eqn:Hu; [|done].
           destruct (Hfr q) as [->|(_ & _ & Hp)]; [by apply (wf_absent [o; d] fs (proj1 Hi))|].
           apply under_spec in Hu. destruct Hq. by apply (anti_symm prefix).
Qed.

Lemma chart_file_plain m : str_has slash (cm_Name m) = false -> str_has slash (cm_Version m) = false ->
  str_has slash (chart_file m) = false /\ chart_file m <> EmptyString /\ chart_file m <> "." /\ chart_file m <> dotdot.
Proof.
  intros H1 H2. unfold chart_file. split; [by rewrite !str_has_app, H1, H2|].
  split_and!; intros H; apply (f_equal String.length) in H; rewrite !length_app_str in H; cbn in H; lia.
Qed.

Lemma inspected_chart data t meta : inspectChart U data no_metadata = inr (t, meta) ->
  str_has slash (cm_Name meta) = false /\ str_has slash (cm_Version meta) = false.
Proof.
  unfold inspectChart. destruct (un_LoadArchive U data) as [|c] eqn:Hl; [done|]. intros [= _ <-].
  destruct (ch_Metadata c) as [m|] eqn:Hm; [|done]. exact (chart_law data c m Hl Hm).
Qed.

Lemma join_chart dest meta p : str_has slash (cm_Name meta) = false -> str_has slash (cm_Version meta) = false ->
  join_below dest (chart_file meta) = Some p -> p = dest ++ [chart_file meta].
Proof.
  intros H1 H2. destruct (chart_file_plain meta H1 H2) as (Hs & He & Hd & Hdd). unfold join_below.
  rewrite Split_no_sep by done. cbn [foldl]. rewrite clean_step_push by done. cbn [rev]. rewrite rev_involutive.
  destruct (dest ++ [chart_file meta]) as [|x l] eqn:El; [by destruct dest|].
  case_bool_decide; [done|]. by intros [= <-].
Qed.

Lemma tree_at_insert dest x n fs :
  tree_at dest (<[dest ++ [x] := n]> fs) = <[dest ++ [x] := n]> (tree_at dest fs).
Proof.
  apply map_eq. intros q. rewrite lookup_tree_at. destruct (decide (q = dest ++ [x])) as [->|Hq].
  - by rewrite under_app, !lookup_insert_eq.
  - by rewrite !lookup_insert_ne, lookup_tree_at.
Qed.

(** The file of a chart is put into the directory. *)
Lemma steps_put_chart dest meta data fs :
  wf fs -> (exists m, fs !! dest = Some (NDir m)) ->
  str_has slash (cm_Name meta) = false -> str_has slash (cm_Version meta) = false ->
  steps (within dest fs) (put_chart U dest meta data) fs (fun r fs' => r = None ->
    tree_at dest fs' = <[dest ++ [chart_file meta] := NFile (un_file_mode U) data]> (tree_at dest fs)).
Proof.
  intros Hwf [m Hm] H1 H2 h Eh. unfold put_chart. rewrite Eh.
  assert (Hsame : forall e : error, every_state (within dest fs) h (h ++ [fs]) /\
    (Some e = None -> tree_at dest (fs_cur (h ++ [fs])) =
      <[dest ++ [chart_file meta] := NFile (un_file_mode U) data]> (tree_at dest fs))).
  { intros e. split; [|done]. exists [fs]. split; [done|]. constructor; [|done]. by apply (within_refl _ _ m). }
  destruct (un_Replace U h) as [e|]; [apply (Hsame e)|].
  destruct (join_below dest (chart_file meta)) as [p|] eqn:Hj; [|apply (Hsame perm_denied)].
  apply join_chart in Hj as ->; [|done..].
  destruct (find_node fs (parent (dest ++ [chart_file meta]))) as [e|n]; [apply (Hsame e)|].
  destruct n; try apply (Hsame not_a_dir).
  assert (Hput : (forall m', fs !! (dest ++ [chart_file meta]) <> Some (NDir m')) ->
    let fs1 := <[dest ++ [chart_file meta] := NFile (un_file_mode U) data]> fs in
    every_state (within dest fs) h (h ++ [fs1]) /\ ((None : option error) = None -> tree_at dest (fs_cur (h ++ [fs1])) =
      <[dest ++ [chart_file meta] := NFile (un_file_mode U) data]> (tree_at dest fs))).
  { intros Hnd. cbv zeta. rewrite fs_cur_snoc, tree_at_insert. split; [|done]. eexists [_]. split; [done|].
    constructor; [|done]. split_and!.
    - apply wf_insert; [done..|]. right. rewrite parent_snoc. by exists m.
    - intros q Hq. apply lookup_insert_ne. intros <-. by rewrite under_app in Hq.
    - exists m. rewrite lookup_insert_ne; [done|]. intros H. apply (f_equal length) in H. rewrite length_app in H. cbn in H. lia. }
  destruct (fs !! (dest ++ [chart_file meta])) as [[| m' | |]|];
    try (destruct (has_bits mode wx); [apply Hput; done|apply (Hsame perm_denied)]).
  apply (Hsame (ENew "file exists")).
Qed.

Lemma steps_store_chart dest layer fs :
  wf fs -> (exists m, fs !! dest = Some (NDir m)) ->
  steps (within dest fs) (storeChartLayer U dest layer) fs (fun r fs' => r = None ->
    exists data t meta, ld_Reader layer = Some (inr data) /\ inspectChart U data no_metadata = inr (t, meta) /\
      tree_at dest fs' = <[dest ++ [chart_file meta] := NFile (un_file_mode U) data]> (tree_at dest fs)).
Proof.
  intros Hwf Hd. unfold storeChartLayer. destruct (ld_Err layer); [by apply steps_ret|].
  destruct (ld_Reader layer) as [[e|data]|]; [by apply steps_ret| |by apply steps_ret].
  destruct (inspectChart U data no_metadata) as [e|[t meta]] eqn:Hc; [by apply steps_ret|].
  destruct (inspected_chart data t meta Hc) as [H1 H2]. apply steps_bind. intros h Eh. cbn [fst snd].
  split; [exists []; by rewrite app_nil_r|]. rewrite Eh.
  destruct (un_TempFile U h dest); [by apply steps_ret|]. destruct (un_Copy U h); [by apply steps_ret|].
  eapply steps_weaken; [by apply steps_put_chart|done|]. intros r fs' Hr Hr'. exists data, t, meta. by rewrite (Hr Hr').
Qed.

Lemma steps_Unpack f dest layer fs :
  wf fs -> (exists m, fs !! dest = Some (NDir m)) ->
  steps (within dest fs) (Unpack U HelmChartSupport f dest layer) fs (fun r fs' => r = None ->
    result_of f dest layer (tree_at dest fs) = Some (tree_at dest fs')).
Proof.
  intros Hwf Hd. unfold Unpack, layer_result. destruct (_ && _).
  - apply steps_bind. eapply steps_weaken; [by apply steps_store_chart|done|].
    intros [e|] fs' Hr; apply steps_ret; [done|]. intros _. destruct (Hr eq_refl) as (data & t & meta & -> & -> & ->). done.
  - apply steps_bind. intros h Eh. destruct (unpack_law h f dest layer) as [H1 H2]; [by rewrite Eh..|].
    destruct (un_apply U h f dest layer) as [states err]. cbn [fst snd] in *. rewrite Eh in *.
    split; [by exists states|]. apply steps_ret. destruct err; [done|]. intros _. by apply H2.
Qed.

Lemma steps_unpack_layers f dest layers fs0 : forall fs, within dest fs0 fs ->
  steps (within dest fs0) (unpack_layers U HelmChartSupport f dest layers) fs (fun r fs' => r = None ->
    unpacked_layers result_of f dest layers (tree_at dest fs) = Some (tree_at dest fs')).
Proof.
  induction layers as [|layer rest IH]; intros fs Hw; cbn [unpack_layers unpacked_layers]; [by apply steps_ret|].
  destruct (ld_Err layer); [by apply steps_ret|]. destruct Hw as (Hwf & Hout & Hd). apply steps_bind.
  eapply steps_weaken.
  { apply steps_last; [|by apply steps_Unpack]. by split_and!. }
  { intros fs' Hw'. by apply (within_trans dest fs0 fs). }
  intros [e|] fs1 [Hr Hw1]; [by apply steps_ret|]. rewrite (Hr eq_refl). apply IH. by apply (within_trans dest fs0 fs).
Qed.

Lemma steps_unpack_image f o d layers fs0 fs :
  kept (only_image o d) fs0 fs -> within [o; d] fs fs ->
  steps (kept (only_image o d) fs0) (unpack_image E U HelmChartSupport f [o; d] layers) fs (fun r fs' => r = None ->
    exists t, unpacked_layers result_of f [o; d] layers (tree_at [o; d] fs) = Some t /\
      content fs' o d = Some (chmod_tree ownerReadOnlyFileMode ownerReadOnlyDirMode [o; d] t)).
Proof.
  intros Hk Hw. apply steps_bind. eapply steps_weaken.
  { apply steps_last; [exact Hw|]. by apply (steps_unpack_layers f [o; d] layers fs). }
  { intros fs1 Hw1. by eapply kept_within. }
  intros [e|] fs1 [Hr Hw1]; [by apply steps_ret|]. assert (Hk1 : kept (only_image o d) fs0 fs1) by (by eapply kept_within).
  pose proof (proj1 Hw1) as Hwf1. apply steps_bind.
  eapply steps_weaken; [apply (steps_setMode E [o; d] fs1), shrunk_refl, Hwf1| |].
  { intros fs2 Hs. by eapply kept_image_shrunk. }
  intros r fs2 Hr2. apply steps_ret. destruct r as [e|]; [done|]. intros _. destruct (Hr2 eq_refl) as [-> _].
  exists (tree_at [o; d] fs1). split; [by apply Hr|]. rewrite <- tree_at_chmod_tree. unfold content.
  rewrite lookup_chmod_tree, under_refl. destruct Hw1 as (_ & _ & m & ->). done.
Qed.

(** A directory that could not be deleted. *)
Definition stuck (p : path) (fs : Fs) : Prop :=
  exists h, (DeleteReadOnlyRecursive E p h).1 <> None /\ fs_cur (DeleteReadOnlyRecursive E p h).2 = fs.

Lemma steps_store_layers f o d layers fs0 fs :
  kept (only_image o d) fs0 fs -> within [o; d] fs fs ->
  steps (kept (only_image o d) fs0) (store_layers E U HelmChartSupport f [o; d] layers) fs (fun r fs' =>
    let tree := chmod_tree ownerReadOnlyFileMode ownerReadOnlyDirMode [o; d] <$>
                  unpacked_layers result_of f [o; d] layers (tree_at [o; d] fs) in
    match r with
    | inr (p, _) => is_Some tree /\ p = [o; d] /\ content fs' o d = tree
    | inl _ => content fs' o d = None \/ is_Some tree /\ content fs' o d = tree \/ stuck [o; d] fs'
    end).
Proof.
  intros Hk Hw. cbv zeta. apply steps_bind. eapply steps_weaken.
  { apply steps_last; [exact Hk|]. by apply (steps_unpack_image f o d layers fs0 fs). }
  { done. }
  intros [e|] fs1 [Hr Hk1].
  - pose proof (proj1 (proj1 Hk1)) as Hwf1. apply steps_bind.
    eapply steps_weaken; [apply steps_from, (steps_Delete E [o; d] fs1), shrunk_refl, Hwf1| |].
    { intros fs2 Hs. by eapply kept_image_shrunk. }
    intros r fs2 [Hr2 (h & E1 & E2)]. apply steps_ret. destruct r as [e2|].
    + right. right. exists h. split; [by rewrite E1|done].
    + left. rewrite (Hr2 eq_refl), content_without_image. by rewrite decide_True.
  - destruct (Hr eq_refl) as (t & -> & Hc). cbn [fmap option_fmap option_map]. apply steps_bind.
    eapply steps_weaken; [apply (steps_ModTime E (kept (only_image o d) fs0) fs1 [o; d]); [exact Hk1|apply Hk1|done]|done|].
    intros [e|[tm|]] fs2 [-> _]; apply steps_ret; eauto.
Qed.

Lemma steps_Store o src d img layers fs : cache_wf fs -> content fs o d = None ->
  steps (kept (only_image o d) fs) (ImageCache.Store E U HelmChartSupport filterFunc o src d img layers) fs (fun r fs' =>
    let tree := unpacked result_of filterFunc o src d img layers in
    match r with
    | inr (p, _) => is_Some tree /\ p = [o; d] /\ content fs' o d = tree
    | inl _ => content fs' o d = None \/ is_Some tree /\ content fs' o d = tree \/ stuck [o; d] fs'
    end).
Proof.
  intros Hi Hn. cbv zeta. unfold ImageCache.Store, unpacked. destruct (image_filter filterFunc src img) as [err|f].
  { apply steps_ret. by left. }
  unfold fs_check, unpackPath. apply steps_bind. eapply steps_weaken.
  { apply steps_last; [by apply kept_refl|]. by apply steps_Ensure. }
  { done. }
  intros [e|] fs1 [Hr Hk]; [apply steps_ret; by left|]. destruct Hr as [Hw Ht]. rewrite <- Ht. by apply steps_store_layers.
Qed.

End StoringAny.


(** ** The promises *)

(** func BundleCache / CatalogCache: the disk cache, with a filter. *)
#[export] Instance diskCache (E : OsEnv) (U : Unpacker) (HelmChartSupport : bool) (filterFunc : option FilterFunc)
  : ImageCache Hist := {
  ic_Fetch := Fetch E;
  ic_Store := Store E U HelmChartSupport filterFunc;
  ic_Delete := Delete E;
  ic_GarbageCollect := GarbageCollect E;
}.

Lemma diskCache_reliable (E : OsEnv) `{!Quiet E} (U : Unpacker) (un_result : LayerResult) (plain_layer : LayerData -> Prop)
    `{!ReliableUnpack U un_result plain_layer} filterFunc :
  ReliableCache (diskCache E U false filterFunc) (fun h => cache_inv (fs_cur h)) (fun h => content (fs_cur h))
    (unpacked un_result filterFunc) plain_layer.
Proof.
  split.
  - intros o d h Hi. destruct (runs_spec _ _ _ (runs_Fetch E (fs_cur h) o d Hi)) as [Hf Hr]. cbn [ic_Fetch diskCache].
    rewrite Hf. by split_and!.
  - intros o src d img layers h Hi Hn Hpl.
    apply (runs_spec _ _ _ (runs_Store E U un_result plain_layer filterFunc (fs_cur h) o src d img layers Hi Hn Hpl)).
  - intros o h Hi. pose proof (exec_delete E (fs_cur h) [o] Hi) as He. destruct (exec_run _ _ _ _ (He ltac:(done) ltac:(cbn; lia))) as [E1 E2].
    cbn [ic_Delete diskCache]. unfold Delete, ownerIDPath. rewrite E1, E2. split_and!; [done|by apply cache_without|].
    intros o' d'. apply content_without_owner.
  - intros o keep h Hi. destruct (exec_GarbageCollect E (fs_cur h) o keep Hi) as (fs' & He & Hi' & Hc).
    destruct (exec_run _ _ _ _ He) as [E1 E2]. cbn [ic_GarbageCollect diskCache]. by rewrite E1, E2.
Qed.

Lemma diskCache_laws (E : OsEnv) `{!Honest E} (U : Unpacker) (un_result : LayerResult) `{!UnpackLaws U un_result}
    HelmChartSupport filterFunc :
  ImageCacheLaws (diskCache E U HelmChartSupport filterFunc) (fun h => cache_wf (fs_cur h)) (fun h => content (fs_cur h))
    (unpacked (layer_result U un_result HelmChartSupport) filterFunc).
Proof.
  assert (Hall : forall {A : Type} touched (m : IO Hist A) h (Q : A -> Fs -> Prop), cache_wf (fs_cur h) ->
    steps (kept touched (fs_cur h)) m (fs_cur h) Q -> kept touched (fs_cur h) (fs_cur (m h).2) /\ Q (m h).1 (fs_cur (m h).2)).
  { intros A touched m h Q Hi Hm. apply steps_last in Hm; [|done]. destruct (Hm h eq_refl) as (_ & HQ & Hk). done. }
  split.
  - intros o d h Hi. destruct (Hall _ _ _ h _ Hi (steps_Fetch E (fs_cur h) o d Hi)) as [[Hi' Hc] Hr].
    split_and!; [done| |done]. intros o' d'. apply Hc. by intros [].
  - intros o src d img layers h Hi Hn.
    destruct (Hall _ _ _ h _ Hi (steps_Store E U un_result HelmChartSupport filterFunc o src d img layers _ Hi Hn)) as [[Hi' Hc] Hr].
    split_and!; [done|done|]. cbn [ic_Store diskCache]. destruct (ImageCache.Store _ _ _ _ _ _ _ _ _ h).1 as [e|[p t]]; done.
  - intros o h Hi. destruct (Hall _ _ _ h _ Hi (steps_Delete_owner E (fs_cur h) o Hi)) as [[Hi' Hc] Hr]. by split_and!.
  - intros o keep h Hi. destruct (Hall _ _ _ h _ Hi (steps_GC E (fs_cur h) o keep Hi)) as [[Hi' Hc] Hr].
    split_and!; [done| |done]. intros o' d' Hk. apply Hc. intros [-> ?]. by destruct Hk.
Qed.

(** The states an operation goes through, in which a process may be killed:
    none touches other images; and what a store that fails leaves. *)
Record every_step_safe (E : OsEnv) (U : Unpacker) (un_result : LayerResult) (HelmChartSupport : bool)
    (filterFunc : option FilterFunc) : Prop := {
  fetch_steps : forall o d h, cache_wf (fs_cur h) -> every_state (kept nothing (fs_cur h)) h (Fetch E o d h).2;
  store_steps : forall o src d img layers h, cache_wf (fs_cur h) -> content (fs_cur h) o d = None ->
    every_state (kept (only_image o d) (fs_cur h)) h (ImageCache.Store E U HelmChartSupport filterFunc o src d img layers h).2;
  delete_steps : forall o h, cache_wf (fs_cur h) -> every_state (kept (dir_of_owner o) (fs_cur h)) h (Delete E o h).2;
  gc_steps : forall o keep h, cache_wf (fs_cur h) ->
    every_state (kept (others_of o keep) (fs_cur h)) h (GarbageCollect E o keep h).2;
  (* a store that fails: nothing is there, or all, or what could not be deleted *)
  store_failed : forall o src d img layers h e, cache_wf (fs_cur h) -> content (fs_cur h) o d = None ->
    let r := ImageCache.Store E U HelmChartSupport filterFunc o src d img layers h in
    let tree := unpacked (layer_result U un_result HelmChartSupport) filterFunc o src d img layers in
    r.1 = inl e ->
    content (fs_cur r.2) o d = None \/ is_Some tree /\ content (fs_cur r.2) o d = tree \/ stuck E [o; d] (fs_cur r.2);
}.

Lemma diskCache_steps (E : OsEnv) `{!Honest E} (U : Unpacker) (un_result : LayerResult) `{!UnpackLaws U un_result}
    HelmChartSupport filterFunc : every_step_safe E U un_result HelmChartSupport filterFunc.
Proof.
  split.
  - intros o d h Hi. apply (steps_spec _ _ h _ (steps_Fetch E (fs_cur h) o d Hi)).
  - intros o src d img layers h Hi Hn.
    apply (steps_spec _ _ h _ (steps_Store E U un_result HelmChartSupport filterFunc o src d img layers _ Hi Hn)).
  - intros o h Hi. apply (steps_spec _ _ h _ (steps_Delete_owner E (fs_cur h) o Hi)).
  - intros o keep h Hi. apply (steps_spec _ _ h _ (steps_GC E (fs_cur h) o keep Hi)).
  - intros o src d img layers h e Hi Hn. cbv zeta. intros Hr.
    pose proof (proj2 (steps_spec _ _ h _ (steps_Store E U un_result HelmChartSupport filterFunc o src d img layers _ Hi Hn))) as H.
    cbv zeta in H. by rewrite Hr in H.
Qed.

(** C13. The cache on disk keeps the promises of the cache interface, whichever
    system calls fail: a fetch that answers, answers an image exactly if it is
    there; a store of an image that is not there, if it succeeds, leaves it as
    unpacking its layers makes it, read-only; a deletion that succeeds leaves
    none of the owner's images, a collection none but the one to keep; and no
    operation, wherever it fails or is killed on the way, changes other images
    than these (what a killed store leaves of its own image is served:
    [killed_unpacking_is_served]).  A store that fails leaves nothing of its
    image, unless only the modification time could not be read, when it is
    complete, or deleting what was unpacked failed as well, which it does for
    layers with devices or pipes ([special_file_sticks]).

    Where the operating system decides on no failure, Helm charts are off and
    the layers hold files, directories and links only, all operations succeed,
    up to a store whose layers cannot be unpacked, which leaves nothing.

    Relied on: a failing system call does not claim that what is there is not,
    and a RemoveAll that fails leaves a tree ([Honest]); unpacking a layer
    changes only what is below the directory given, and Helm loads no chart
    whose name or version holds a slash ([UnpackLaws]). *)
Theorem diskCache_keeps_promises (E : OsEnv) (U : Unpacker) (un_result : LayerResult) (HelmChartSupport : bool)
    (filterFunc : option FilterFunc) :
  Honest E -> UnpackLaws U un_result ->
  ImageCacheLaws (diskCache E U HelmChartSupport filterFunc) (fun h => cache_wf (fs_cur h)) (fun h => content (fs_cur h))
    (unpacked (layer_result U un_result HelmChartSupport) filterFunc) /\
  every_step_safe E U un_result HelmChartSupport filterFunc /\
  (forall plain_layer, Quiet E -> HelmChartSupport = false -> ReliableUnpack U un_result plain_layer ->
   ReliableCache (diskCache E U HelmChartSupport filterFunc) (fun h => cache_inv (fs_cur h)) (fun h => content (fs_cur h))
     (unpacked (layer_result U un_result HelmChartSupport) filterFunc) plain_layer).
Proof.
  intros HE HU. split_and!; [by apply diskCache_laws|by apply diskCache_steps|].
  intros plain_layer HQ -> HR. by apply diskCache_reliable.
Qed.

(** ** What goes wrong *)

(** Setting modes below [root] leaves what is above as it was. *)
Lemma chmods_below fm dm vis root fs :
  (forall q, q ∈ vis -> under root q = true) -> open_above fs root -> open_above (chmods fm dm vis fs) root.
Proof.
  intros Hv Ho q Hq [n Hn]. assert (Hout : q ∉ vis).
  { intros Hin%Hv. apply under_spec in Hin as [s ->]. apply above_length in Hq. rewrite length_app in Hq. lia. }
  rewrite lookup_chmods_out in Hn by done. destruct (Ho q Hq) as (m & Hm & Hb); [eauto|]. exists m.
  by rewrite lookup_chmods_out.
Qed.

Lemma chmods_special fm dm vis fs p n :
  fs !! p = Some n -> is_special n = true -> chmods fm dm vis fs !! p = Some n.
Proof. intros Hp Hs. rewrite lookup_chmods, Hp. cbn. by destruct (decide _), n. Qed.

Lemma chmods_dir fm dm vis fs p m : fs !! p = Some (NDir m) -> exists m', chmods fm dm vis fs !! p = Some (NDir m').
Proof. intros Hp. rewrite lookup_chmods, Hp. cbn. destruct (decide _); eauto. Qed.

Section Troubles.
Context (E : OsEnv) `{!Quiet E} (U : Unpacker) (un_result : LayerResult) (plain_layer : LayerData -> Prop).
Context `{!ReliableUnpack U un_result plain_layer} (filterFunc : option FilterFunc).

(** A process that is killed while it unpacks an image leaves a directory
    that the cache serves as the image from then on: between the creation of the
    directory and the first layer the disk is such that a fetch answers the
    empty directory. *)
Theorem killed_unpacking_is_served o src d img layers h f :
  cache_inv (fs_cur h) -> content (fs_cur h) o d = None -> image_filter filterFunc src img = inr f ->
  Forall plain_layer layers ->
  exists h1 h2, (Store E U false filterFunc o src d img layers h).2 = h1 ++ h2 /\
    content (fs_cur h1) o d = Some {[ [o; d] := NDir rwx ]} /\
    exists t, (Fetch E o d h1).1 = inr (Some ([o; d], t)).
Proof.
  intros Hi Hn Hf Hpl.
  destruct (exec_EnsureEmptyDirectory E (fs_cur h) o d Hi (content_none _ o d Hi Hn)) as (fs1 & He & Hi1 & Ht1 & Hc1).
  destruct (He h eq_refl) as (t1 & E1 & Ef1).
  assert (Hd1 : content fs1 o d = Some {[ [o; d] := NDir rwx ]}).
  { unfold content. pose proof (f_equal (lookup [o; d]) Ht1) as Hl. rewrite lookup_tree_at, under_refl, lookup_singleton_eq in Hl.
    by rewrite Hl, Ht1. }
  destruct (runs_Fetch E fs1 o d Hi1 (h ++ t1) Ef1) as (t2 & _ & _ & Hr).
  destruct (runs_store_layers E U un_result plain_layer f o d fs1 layers fs1 Hi1 (only_at_empty o d fs1 Hi1 Ht1) Ht1 Hpl (h ++ t1) Ef1)
    as (h2 & Hh2 & _).
  exists (h ++ t1), h2. split_and!.
  - unfold Store. rewrite Hf. unfold fs_check, unpackPath. unfold io_bind at 1. rewrite E1. exact Hh2.
  - by rewrite Ef1.
  - destruct (Fetch E o d (h ++ t1)).1 as [e|[[p t]|]]; [done| |congruence]. destruct Hr as [_ ->]. by exists t.
Qed.

End Troubles.

(** A layer that holds something else than files, directories and links, say
    a pipe, makes a store fail; but its content stays, is served by the next
    fetch, and the owner's images cannot be deleted any more. *)
Theorem special_file_sticks (E : OsEnv) (U : Unpacker) filterFunc o src d img layers h f h1 p n :
  Quiet E -> image_filter filterFunc src img = inr f ->
  (* the layers could be unpacked, and hold something that is neither a file
     nor a directory nor a link *)
  (EnsureEmptyDirectory E [o; d] rwx h).1 = None ->
  unpack_layers U false f [o; d] layers (EnsureEmptyDirectory E [o; d] rwx h).2 = (None, h1) ->
  wf (fs_cur h1) -> open_above (fs_cur h1) [o; d] -> is_Some (content (fs_cur h1) o d) ->
  under [o; d] p = true -> fs_cur h1 !! p = Some n -> is_special n = true ->
  let h2 := (Store E U false filterFunc o src d img layers h).2 in
  (exists e, (Store E U false filterFunc o src d img layers h).1 = inl e) /\
  (exists t, (Fetch E o d h2).1 = inr (Some ([o; d], t))) /\
  (exists e, (Delete E o h2).1 = Some e).
Proof.
  intros HE Hf He Hu Hwf Ho Hc Hp Hn Hs.
  destruct (exec_setMode_special E (fs_cur h1) [o; d] p n ownerReadOnlyFileMode ownerReadOnlyDirMode eq_refl eq_refl
    Hwf (open_reachable _ _ Ho) Hp Hn Hs) as (e1 & v1 & Hex1 & Hv1).
  destruct (Hex1 h1 eq_refl) as (t1 & Et1 & Ef1).
  pose proof (wf_chmods ownerReadOnlyFileMode ownerReadOnlyDirMode v1 _ Hwf) as Hwf1.
  pose proof (chmods_below ownerReadOnlyFileMode ownerReadOnlyDirMode v1 _ _ Hv1 Ho) as Ho1.
  pose proof (chmods_special ownerReadOnlyFileMode ownerReadOnlyDirMode v1 _ _ _ Hn Hs) as Hn1.
  destruct (exec_DeleteReadOnlyRecursive_special E _ [o; d] p n Hwf1 Ho1 Hp Hn1 Hs) as (e2 & v2 & Hex2 & Hv2).
  destruct (Hex2 (h1 ++ t1) Ef1) as (t2 & Et2 & Ef2).
  pose proof (wf_chmods ownerWritableFileMode ownerWritableDirMode v2 _ Hwf1) as Hwf2.
  pose proof (chmods_below ownerWritableFileMode ownerWritableDirMode v2 _ _ Hv2 Ho1) as Ho2.
  pose proof (chmods_special ownerWritableFileMode ownerWritableDirMode v2 _ _ _ Hn1 Hs) as Hn2.
  assert (Hst : exists e, Store E U false filterFunc o src d img layers h = (inl e, (h1 ++ t1) ++ t2)).
  { unfold Store. rewrite Hf. unfold fs_check, unpackPath, io_bind at 1.
    destruct (EnsureEmptyDirectory E [o; d] rwx h) as [r0 h0]. cbn in He, Hu. rewrite He.
    unfold store_layers, unpack_image. unfold io_bind. rewrite Hu. unfold SetReadOnlyRecursive. rewrite Et1. cbn [fmap option_fmap option_map io_ret].
    cbv beta iota. rewrite Et2. by eexists. }
  destruct Hst as [e Hst]. rewrite Hst. cbn [fst snd]. split_and!; [by eexists| |].
  - assert (Hd : exists m, fs_cur ((h1 ++ t1) ++ t2) !! [o; d] = Some (NDir m)).
    { unfold content in Hc. destruct (fs_cur h1 !! [o; d]) as [[| m | |]|] eqn:Ed; try by destruct Hc.
      rewrite Ef2. destruct (chmods_dir ownerReadOnlyFileMode ownerReadOnlyDirMode v1 _ _ _ Ed) as [m1 Hm1].
      apply (chmods_dir _ _ v2 _ _ _ Hm1). }
    destruct Hd as [m Hd]. destruct (runs_ModTime_at E (fs_cur ((h1 ++ t1) ++ t2)) [o; d]) with (h := (h1 ++ t1) ++ t2)
      as (t3 & Et3 & _ & Hr); [by rewrite Ef2|rewrite Ef2; by apply open_reachable|done|].
    rewrite Hd in Hr. destruct Hr as [tm Hr]. exists tm. unfold Fetch, unpackPath. rewrite io_bind_run, Hr. done.
  - assert (Ho3 : open_above (fs_cur ((h1 ++ t1) ++ t2)) [o]).
    { intros q Hq Hs'. rewrite Ef2 in *. apply Ho2; [|done]. eapply above_trans; [done|]. by exists d, []. }
    assert (Hp' : under [o] p = true) by (apply (under_trans _ [o; d]); [apply under_spec; by exists [d]|done]).
    rewrite <- Ef2 in Hwf2, Hn2.
    destruct (exec_DeleteReadOnlyRecursive_special E _ [o] p n Hwf2 Ho3 Hp' Hn2 Hs) as (e3 & v3 & Hex3 & _).
    destruct (Hex3 _ eq_refl) as (t3 & Et3 & _). exists e3. unfold Delete, ownerIDPath. by rewrite Et3.
Qed.
