(* ===== verification/ImagePull.v ===== *)
(** * Pulling images

    src/internal/shared/util/image/pull.go, and of image/helm.go the charts
    among the images and the chart in the file system of a bundle.

    The registry, the local OCI layout, the signature policies and the parsing
    of references are third-party code: [PullEnv].  What the registry answers
    may depend on what it was asked before; its answer to a copy is the whole
    image, which the layout then holds.  The state is that of the cache, any
    [ImageCache], next to the requests made of the registry. *)

From Stdlib Require Import Ascii.
From S2P Require Import Prelude GoErrors GoPath ImageFilter DiskFs ImageCache ImageCacheProps.

(** A layer of an image as it can be read: the compressed blob, then what it
    decompresses to. *)
Record Blob := mkBlob { bl_MediaType : string; bl_Get : result (result (result string)) }.

(** An image in the layout, and what reading it can fail with. *)
Record Copied := mkCopied {
  cp_NewImageSource : option error;
  cp_FromSource : option error;
  cp_CloseSource : option error;
  cp_Close : option error;
  cp_ConfigMediaType : string;
  cp_OCIConfig : result Image;
  cp_Layers : list Blob;
  (* as a chart: the manifest, its layers with their blobs *)
  cp_GetManifest : option error;
  cp_Unmarshal : option error;
  cp_ChartLayers : list (string * result (result string));
}.

Inductive registry_call :=
| CManifest (ref : Named)
| CCopy (ref : Named).

Abbreviation Calls := (list registry_call).

Record PullEnv := mkPullEnv {
  pe_SourceCtx : Calls -> option error;
  pe_ParseNamed : string -> result Named;
  pe_NewReference : Named -> option error;
  pe_NewImageSource : Calls -> Named -> option error;
  pe_GetManifest : Calls -> Named -> result string;
  pe_Digest : string -> result string;
  pe_WithDigest : Named -> string -> result Named;
  pe_MkdirTemp : Calls -> option error;
  pe_LayoutReference : Named -> option error;
  pe_DefaultPolicy : option error;
  pe_NewPolicyFromBytes : option error;
  pe_NewPolicyContext : option error;
  pe_Copy : Calls -> Named -> result Copied;
}.

(** registry.ConfigMediaType of Helm. *)
Definition ConfigMediaType : string := "application/vnd.cncf.helm.config.v1+json".

(** reference.Canonical: the digest of a reference that has one. *)
Definition canonical_digest (ref : Named) : string := default EmptyString (n_Digest ref).

(** func hasChart(imgCloser types.ImageCloser) bool *)
Definition hasChart (img : Copied) : bool := bool_decide (cp_ConfigMediaType img = ConfigMediaType).

(** The layers the iterator of applyImage yields, up to the first error: its
    consumer stops there. *)
Fixpoint layer_iter (i : Z) (layers : list Blob) : list LayerData :=
  match layers with
  | [] => []
  | b :: rest =>
      match bl_Get b with
      | inl err => [mkLayer (bl_MediaType b) None i (Some (wrapped "error getting layer blob reader: " err))]
      | inr (inl err) => [mkLayer (bl_MediaType b) None i (Some (wrapped "error decompressing layer: " err))]
      | inr (inr reader) => mkLayer (bl_MediaType b) (Some reader) i None :: layer_iter (i + 1) rest
      end
  end.

(** The layers the iterator of pullChart yields; only those of charts get a
    reader. *)
Fixpoint chart_iter (i : Z) (layers : list (string * result (result string))) : list LayerData :=
  match layers with
  | [] => []
  | (mediaType, blob) :: rest =>
      let ld :=
        if bool_decide (mediaType = ChartLayerMediaType) then
          match blob with
          | inl err => mkLayer mediaType None i (Some err)
          | inr reader => mkLayer mediaType (Some reader) i None
          end
        else mkLayer mediaType None i None in
      if bool_decide (mediaType = ProvLayerMediaType) then chart_iter (i + 1) rest
      else ld :: chart_iter (i + 1) rest
  end.

Section Pull.
Context {S : Type} {IC : ImageCache S} (R : PullEnv) (HelmChartSupport : bool).

Abbreviation World := (S * Calls)%type.

(** An operation of the cache. *)
Definition on_cache {A} (m : IO S A) : IO World A := fun w => let '(a, s) := m w.1 in (a, (s, w.2)).

(** A request of the registry. *)
Definition on_registry {A} (c : registry_call) (f : Calls -> A) : IO World A :=
  fun w => (f w.2, (w.1, w.2 ++ [c])).

Definition calls : IO World Calls := fun w => (w.2, w).

Definition pull_try {A B} (m : IO World (result A)) (k : A -> IO World (go (result B))) : IO World (go (result B)) :=
  let* r := m in match r with inl e => io_ret (Ret (inl e)) | inr a => k a end.

Definition pull_check {B} (ctx : error -> error) (err : option error) (k : IO World (go (result B)))
  : IO World (go (result B)) :=
  match err with Some e => io_ret (Ret (inl (ctx e))) | None => k end.

(** func resolveCanonicalRef(ctx, imgRef, srcCtx) (reference.Canonical, error) *)
Definition resolveCanonicalRef (imgRef : Named) : IO World (result Named) :=
  match n_Digest imgRef with
  | Some _ => io_ret (inr imgRef)
  | None =>
      let* r := on_registry (CManifest imgRef) (fun c =>
        match pe_NewImageSource R c imgRef with
        | Some err => inl (wrapped "error creating image source: " err)
        | None =>
            match pe_GetManifest R c imgRef with
            | inl err => inl (wrapped "error getting manifest: " err)
            | inr manifestBlob => inr manifestBlob
            end
        end) in
      io_ret (match r with
              | inl err => inl err
              | inr manifestBlob =>
                  match pe_Digest R manifestBlob with
                  | inl err => inl (wrapped "error getting digest of manifest: " err)
                  | inr imgDigest =>
                      match pe_WithDigest R imgRef imgDigest with
                      | inl err => inl (wrapped "error creating canonical reference: " err)
                      | inr canonicalRef => inr canonicalRef
                      end
                  end
              end)
  end.

(** func pullChart(ctx, ownerID, srcRef, canonicalRef, imgSrc, cache) *)
Definition pullChart (ownerID : string) (srcRef canonicalRef : Named) (img : Copied) : IO World (result (path * Z)) :=
  match cp_GetManifest img with
  | Some err => io_ret (inl (wrapped "get OCI helm chart manifest; " err))
  | None =>
      match cp_Unmarshal img with
      | Some err => io_ret (inl (wrapped "unmarshaling chart manifest; " err))
      | None =>
          on_cache (ic_Store ownerID srcRef (canonical_digest canonicalRef) (mkOCIImage ∅)
            (chart_iter 0 (cp_ChartLayers img)))
      end
  end.

(** func (p *ContainersImagePuller) applyImage(...); closing the image may
    panic. *)
Definition applyImage (ownerID : string) (srcRef canonicalRef : Named) (img : Copied)
  : IO World (go (result (path * Z))) :=
  match cp_NewImageSource img, cp_FromSource img with
  | Some err, _ => io_ret (Ret (inl (wrapped "error creating image source: " err)))
  | None, Some err =>
      let joined := errors_Join [Some (wrapped "error reading image: " err); cp_CloseSource img] in
      io_ret (Ret (inl (default err joined)))
  | None, None =>
      let* r :=
        (if HelmChartSupport && hasChart img then pullChart ownerID srcRef canonicalRef img
         else
           match cp_OCIConfig img with
           | inl err => io_ret (inl err)
           | inr ociImg =>
               on_cache (ic_Store ownerID srcRef (canonical_digest canonicalRef) ociImg (layer_iter 0 (cp_Layers img)))
           end) in
      match cp_Close img with
      | Some err => io_ret (Panic (Error err))
      | None => io_ret (Ret r)
      end
  end.

(** func loadPolicyContext(sourceContext, l) (the error only) *)
Definition loadPolicyContext : option error :=
  let policy_err := match pe_DefaultPolicy R with None => None | Some _ => pe_NewPolicyFromBytes R end in
  match policy_err with
  | Some err => Some (wrapped "error loading signature policy: " err)
  | None => pe_NewPolicyContext R
  end.

(** func (p *ContainersImagePuller) pull(ctx, ownerID, dockerRef, cache, srcCtx) *)
Definition pull (ownerID : string) (dockerRef : Named) : IO World (go (result (path * Named * Z))) :=
  pull_check (fun e => ETerminal (wrapped "error creating reference: " e)) (pe_NewReference R dockerRef)
  (pull_try (resolveCanonicalRef dockerRef) (fun canonicalRef =>
   let* f := on_cache (ic_Fetch ownerID (canonical_digest canonicalRef)) in
   match f with
   | inl err => io_ret (Ret (inl (wrapped "error checking cache for existing content: " err)))
   | inr (Some (fsys, modTime)) => io_ret (Ret (inr (fsys, canonicalRef, modTime)))
   | inr None =>
       let* c := calls in
       pull_check (wrapped "error creating temporary directory: ") (pe_MkdirTemp R c)
       (pull_check (wrapped "error creating reference: ") (pe_LayoutReference R canonicalRef)
       (pull_check (wrapped "error loading policy context: ") loadPolicyContext
       (let* copied := on_registry (CCopy dockerRef) (fun c => pe_Copy R c dockerRef) in
        match copied with
        | inl err => io_ret (Ret (inl (wrapped "error copying image: " err)))
        | inr img =>
            let* a := applyImage ownerID dockerRef canonicalRef img in
            match a with
            | Panic msg => io_ret (Panic msg)
            | Ret (inl err) => io_ret (Ret (inl (wrapped "error applying image: " err)))
            | Ret (inr (fsys, modTime)) =>
                let* g := on_cache (ic_GarbageCollect ownerID (canonical_digest canonicalRef)) in
                match g with
                | Some err => io_ret (Ret (inl (wrapped "error deleting old images: " err)))
                | None => io_ret (Ret (inr (fsys, canonicalRef, modTime)))
                end
            end
        end)))
   end)).

(** func (p *ContainersImagePuller) Pull(ctx, ownerID, ref, cache) *)
Definition Pull (ownerID ref : string) : IO World (go (result (path * Named * Z))) :=
  let* c := calls in
  pull_check id (pe_SourceCtx R c)
  (match pe_ParseNamed R ref with
   | inl err => io_ret (Ret (inl (ETerminal (wrapped ("error parsing image reference " +:+ fmt_q ref +:+ ": ") err))))
   | inr dockerRef => pull ownerID dockerRef
   end).

End Pull.

(** ** Charts *)

(** func IsValidChart(chart) error; [Validate] is the metadata's own. *)
Definition IsValidChart (Validate : ChartMetadata -> option error) (c : Chart) : option error :=
  match ch_Metadata c with
  | None => Some (ENew "chart metadata is missing")
  | Some m =>
      if bool_decide (cm_Name m = EmptyString) then Some (ENew "chart name is required")
      else if bool_decide (cm_Version m = EmptyString) then Some (ENew "chart version is required")
      else Validate m
  end.

(** strings.HasSuffix *)
Definition strings_HasSuffix (s suffix : string) : bool :=
  bool_decide (str_drop (String.length s - String.length suffix) s = suffix).

(** The chart among the files at the top of a bundle, sorted by name. *)
Definition chart_path (files : list string) : string :=
  default EmptyString (List.find (fun f => strings_HasSuffix f ".tgz" || strings_HasSuffix f ".tar.gz") files).

(** func IsBundleSourceChart(bundleFS fs.FS, metadata *chart.Metadata) (bool, error);
    the metadata is returned. *)
Definition IsBundleSourceChart (U : Unpacker) (files : list string) (ReadFile : string -> result string)
    (metadata : ChartMetadata) : result bool * ChartMetadata :=
  let chartPath := chart_path files in
  match ReadFile chartPath with
  | inl err => (inl err, metadata)
  | inr chartData =>
      match inspectChart U chartData metadata with
      | inl err => (inl (EWrap ("reading " +:+ chartPath +:+ " from fs: ") err ""), metadata)
      | inr (result, metadata') => (inr (templatesExist result && chartfileExists result), metadata')
      end
  end.

(** *** The namespace of a chart

    The expression of WithInstallNamespace: two opening braces, at least one
    character that is not of a word, ".Release.Namespace", at least one such
    character again, two closing braces.  Greedy runs of such characters end at
    the next letter, digit or underscore; the dot before "Release" is the last
    of the first run, and the closing braces are the last of the second run. *)
Definition is_word (c : ascii) : bool :=
  let n := nat_of_ascii c in
  ((48 <=? n) && (n <=? 57) || (65 <=? n) && (n <=? 90) || (97 <=? n) && (n <=? 122) || (n =? 95))%nat.

Fixpoint span_nonword (s : string) : string * string :=
  match s with
  | String c s' => if is_word c then (EmptyString, s) else let '(w, r) := span_nonword s' in (String c w, r)
  | EmptyString => (EmptyString, EmptyString)
  end.

(** What follows the last two closing braces that are not at the start. *)
Fixpoint after_close (start : bool) (w : string) : option string :=
  match w with
  | EmptyString => None
  | String _ w' =>
      match after_close false w' with
      | Some r => Some r
      | None => if negb start && strings_HasPrefix w "}}" then Some (str_drop 2 w) else None
      end
  end.

(** What follows a match at the start of the text. *)
Definition match_namespace (s : string) : option string :=
  if strings_HasPrefix s "{{" then
    let '(w, r) := span_nonword (str_drop 2 s) in
    if (2 <=? String.length w)%nat && strings_HasSuffix w "." && strings_HasPrefix r "Release.Namespace" then
      let '(w2, r2) := span_nonword (str_drop 17 r) in
      (fun rest => rest +:+ r2) <$> after_close true w2
    else None
  else None.

(** re.ReplaceAll; [skip] bytes belong to the match before. *)
Fixpoint replace_namespace (namespace : string) (skip : nat) (s : string) : string :=
  match s with
  | EmptyString => EmptyString
  | String c s' =>
      match skip with
      | S k => replace_namespace namespace k s'
      | O =>
          match match_namespace s with
          | Some rest => namespace +:+ replace_namespace namespace (String.length s' - String.length rest) s'
          | None => String c (replace_namespace namespace 0 s')
          end
      end
  end.

(** type ChartOption func(chart *chart.Chart) *)
Definition ChartOption : Type := Chart -> Chart.

(** func WithInstallNamespace(namespace string) ChartOption; the namespace
    holds no dollar sign, which ReplaceAll would expand. *)
Definition WithInstallNamespace (namespace : string) : ChartOption :=
  fun c => mkChart (ch_Metadata c) (map (fun t => (t.1, replace_namespace namespace 0 t.2)) (ch_Templates c)).

Example namespace_replaced :
  replace_namespace "ns" 0 "a: {{ .Release.Namespace }}/{{ .Release.Name }}" = "a: ns/{{ .Release.Name }}".
Proof. reflexivity. Qed.

(** Without a space the expression does not match. *)
Example unspaced_namespace_kept : replace_namespace "ns" 0 "a: {{.Release.Namespace}}" = "a: {{.Release.Namespace}}".
Proof. reflexivity. Qed.

(** func enrichChart(chart, options ...) *)
Definition enrichChart (c : option Chart) (options : list ChartOption) : result Chart :=
  match c with
  | None => inl (ENew "chart can not be nil")
  | Some c => inr (foldl (fun c f => f c) c options)
  end.

(** func loadChartFS(bundleFS fs.FS, filename string) *)
Definition loadChartFS (U : Unpacker) (ReadFile : string -> result string) (filename : string) : result Chart :=
  if bool_decide (filename = EmptyString) then inl (ENew "chart file name was not provided")
  else
    match ReadFile filename with
    | inl err => inl (ENew ("reading chart " +:+ filename +:+ "; " +:+ Error err))
    | inr tarball => un_LoadArchive U tarball
    end.

(** func LoadChartFSWithOptions(bundleFS, filename, options ...) *)
Definition LoadChartFSWithOptions (U : Unpacker) (ReadFile : string -> result string) (filename : string)
    (options : list ChartOption) : result Chart :=
  match loadChartFS U ReadFile filename with
  | inl err => inl err
  | inr ch => enrichChart (Some ch) options
  end.
