(* ===== verification/ImagePullProps.v ===== *)
(** * Correctness of the image puller

    Against any cache that keeps its promises (ImageCacheProps.v): what a pull
    leaves in the cache, for a reference with a digest and for a tag; that an
    image that is there is not pulled again; and what a tag that moves between
    the two requests of a pull does to the cache. *)

From Stdlib Require Import Ascii.
From S2P Require Import Prelude GoErrors GoPath ImageFilter DiskFs DiskProps ImageCache ImageCacheProps ImagePull.

Section Pulling.
Context {S : Type} {IC : ImageCache S} (inv : S -> Prop) (content : S -> string -> string -> option Fs).
Context (unpacked : string -> Named -> string -> Image -> list LayerData -> option Fs).
Context `{!ImageCacheLaws IC inv content unpacked} (R : PullEnv) (HelmChartSupport : bool).

(** The layers and the configuration the cache is given for an image. *)
Definition stored_layers (img : Copied) : option (Image * list LayerData) :=
  if HelmChartSupport && hasChart img then
    match cp_GetManifest img, cp_Unmarshal img with
    | None, None => Some (mkOCIImage ∅, chart_iter 0 (cp_ChartLayers img))
    | _, _ => None
    end
  else match cp_OCIConfig img with inl _ => None | inr cfg => Some (cfg, layer_iter 0 (cp_Layers img)) end.

(** The tree an image makes in the cache, if reading and unpacking it works. *)
Definition image_tree (o : string) (src : Named) (d : string) (img : Copied) : option Fs :=
  match cp_NewImageSource img, cp_FromSource img, stored_layers img with
  | None, None, Some (cfg, layers) => unpacked o src d cfg layers
  | _, _, _ => None
  end.

(** Applying an image leaves the other images alone; if it succeeds the image
    is as its layers make it. *)
Definition applied (o : string) (src : Named) (d : string) (img : Copied) (s : S) (r : go (result (path * Z))) (s' : S) : Prop :=
  inv s' /\ (forall o' d', (o', d') <> (o, d) -> content s' o' d' = content s o' d') /\
  match r with
  | Ret (inr (p, _)) => p = [o; d] /\ is_Some (image_tree o src d img) /\ content s' o d = image_tree o src d img
  | _ => True
  end.

Lemma applied_same o src d img s e : inv s -> applied o src d img s (Ret (inl e)) s.
Proof. done. Qed.

Lemma applyImage_spec o src can img s c :
  let d := canonical_digest can in
  inv s -> content s o d = None ->
  let r := applyImage HelmChartSupport o src can img (s, c) in
  r.2.2 = c /\ applied o src d img s r.1 r.2.1.
Proof.
  cbv zeta. intros Hi Hn. set (d := canonical_digest can). unfold applyImage, io_ret.
  destruct (cp_NewImageSource img) as [e|] eqn:H1; [done|]. destruct (cp_FromSource img) as [e|] eqn:H2; [done|].
  (* the cache, or nothing; and closing the image *)
  assert (Hclose : forall (r : result (path * Z)) s', applied o src d img s (Ret r) s' ->
    let w := match cp_Close img with Some err => (Panic (Error err), (s', c)) | None => (Ret r, (s', c)) end in
    w.2.2 = c /\ applied o src d img s w.1 w.2.1).
  { intros r s' (Ha & Hb & Hr). destruct (cp_Close img); done. }
  assert (Hst : forall cfg layers, stored_layers img = Some (cfg, layers) ->
    applied o src d img s (Ret (ic_Store o src d cfg layers s).1) (ic_Store o src d cfg layers s).2).
  { intros cfg layers Hl. destruct (store_law o src d cfg layers s Hi Hn) as (Ha & Hb & Hr). split_and!; [done..|].
    unfold image_tree. rewrite H1, H2, Hl. destruct (ic_Store o src d cfg layers s).1 as [|[p t]]; [done|].
    destruct Hr as (? & ? & ?). done. }
  unfold stored_layers, pullChart, io_bind, io_ret, on_cache in *. fold d.
  destruct (HelmChartSupport && hasChart img).
  - destruct (cp_GetManifest img) as [e|]; [by specialize (Hclose (inl (wrapped "get OCI helm chart manifest; " e)) s); destruct (cp_Close img); apply Hclose|].
    destruct (cp_Unmarshal img) as [e|]; [by specialize (Hclose (inl (wrapped "unmarshaling chart manifest; " e)) s); destruct (cp_Close img); apply Hclose|].
    specialize (Hst _ _ eq_refl). cbn [fst snd]. destruct (ic_Store _ _ _ _ _ s) as [r s']. specialize (Hclose r s' Hst).
    destruct (cp_Close img); exact Hclose.
  - destruct (cp_OCIConfig img) as [e|cfg]; [by specialize (Hclose (inl e) s); destruct (cp_Close img); apply Hclose|].
    specialize (Hst _ _ eq_refl). cbn [fst snd]. destruct (ic_Store _ _ _ _ _ s) as [r s']. specialize (Hclose r s' Hst).
    destruct (cp_Close img); exact Hclose.
Qed.

(** What a pull of a reference, once its digest is known, leaves. *)
Definition pulled (o d : string) (src : Named) (s : S) (c : Calls) (r : go (result (path * Named * Z)))
    (s' : S) (c' : Calls) : Prop :=
  (forall o' d', o' <> o -> content s' o' d' = content s o' d') /\
  match r with
  | Ret (inr (p, _, _)) =>
      p = [o; d] /\
      match content s o d with
      | Some _ => (forall d', content s' o d' = content s o d') /\ c' = c
      | None =>
          exists img, pe_Copy R c src = inr img /\ is_Some (image_tree o src d img) /\
            (forall d', content s' o d' = if decide (d' = d) then image_tree o src d img else None) /\
            c' = c ++ [CCopy src]
      end
  | _ =>
      (* it failed before there was an image to unpack ... *)
      (forall d', content s' o d' = content s o d') /\ (c' = c \/ content s o d = None /\ c' = c ++ [CCopy src]) \/
      content s o d = None /\ c' = c ++ [CCopy src] /\ exists img, pe_Copy R c src = inr img /\
        (* ... while it was unpacked ... *)
        ((forall d', d' <> d -> content s' o d' = content s o d') \/
         (* ... or while older images were deleted *)
         is_Some (image_tree o src d img) /\ content s' o d = image_tree o src d img)
  end.

Lemma pulled_same o d src s c (r : go (result (path * Named * Z))) s' c' :
  (forall o' d', content s' o' d' = content s o' d') -> (c' = c \/ content s o d = None /\ c' = c ++ [CCopy src]) ->
  match r with Ret (inr _) => False | _ => True end -> pulled o d src s c r s' c'.
Proof. intros Hs Hc Hr. split; [done|]. destruct r as [[e|r]|msg]; [left|done|left]; auto. Qed.

(** The part of pull after the digest was resolved. *)
Lemma pull_resolved_spec o src can s c c0 res s' c' :
  inv s -> resolveCanonicalRef R src (s, c0) = (inr can, (s, c)) -> pe_NewReference R src = None ->
  pull R HelmChartSupport o src (s, c0) = (res, (s', c')) ->
  inv s' /\ pulled o (canonical_digest can) src s c res s' c' /\
  match res with Ret (inr (_, can', _)) => can' = can | _ => True end.
Proof.
  intros Hi Hres Hnr. unfold pull, pull_check. rewrite Hnr.
  unfold pull_try, io_bind at 1. rewrite Hres. set (d := canonical_digest can).
  pose proof (fetch_law o d s Hi) as Hf. unfold io_bind at 1, on_cache at 1. cbn [fst snd]. revert Hf.
  destruct (ic_Fetch o d s) as [[e|[[p tm]|]] s1]; cbn [fst snd]; intros (Hi1 & Hc1 & Hf).
  { intros [= <- <- <-]. split_and!; [done| |done]. apply pulled_same; auto. }
  { destruct Hf as [[t Ht] ->]. intros [= <- <- <-]. unfold pulled. rewrite Ht. by split_and!. }
  assert (Hn1 : content s1 o d = None) by (by rewrite Hc1).
  assert (Herr : forall (e : error) c1, (c1 = c \/ c1 = c ++ [CCopy src]) -> (Ret (inl e), (s1, c1)) = (res, (s', c')) ->
    inv s' /\ pulled o d src s c res s' c' /\ match res with Ret (inr (_, can', _)) => can' = can | _ => True end).
  { intros e c1 Hc' [= <- <- <-]. split_and!; [done| |done]. apply pulled_same; [done| |done]. destruct Hc' as [->| ->]; auto. }
  unfold io_bind at 1, calls. cbn [fst snd].
  destruct (pe_MkdirTemp R c) as [e|]; [apply Herr; by left|].
  destruct (pe_LayoutReference R can) as [e|]; [apply Herr; by left|].
  destruct (loadPolicyContext R) as [e|]; [apply Herr; by left|].
  unfold io_bind at 1, on_registry. cbn [fst snd].
  destruct (pe_Copy R c src) as [e|img] eqn:Hcp; [apply Herr; by right|]. clear Herr.
  pose proof (applyImage_spec o src can img s1 (c ++ [CCopy src]) Hi1 Hn1) as Ha. cbv zeta in Ha. fold d in Ha.
  unfold io_bind at 1. revert Ha.
  destruct (applyImage HelmChartSupport o src can img (s1, c ++ [CCopy src])) as [[[e|[p tm]]|msg] [s2 c2]];
    cbn [fst snd]; intros (-> & Hi2 & Ho & Hr).
  1,3: intros [= <- <- <-]; split_and!; [done| |done]; split;
    [intros o' d' Ho'; rewrite Ho, Hc1; [done|congruence]|right];
    split_and!; [done..|]; exists img; split; [done|]; left; intros d' Hd'; rewrite Ho, Hc1; [done|congruence].
  pose proof (gc_law o d s2 Hi2) as Hgl. unfold io_bind at 1, on_cache. cbn [fst snd]. revert Hgl.
  destruct (ic_GarbageCollect o d s2) as [g s3]. cbn [fst snd]. intros (Hi3 & Hkeep & Hgone). destruct Hr as (-> & Hs & Hd).
  assert (Hoth : forall o' d', o' <> o -> content s3 o' d' = content s o' d').
  { intros o' d' Ho'. rewrite Hkeep by (by left). rewrite Ho, Hc1; [done|congruence]. }
  assert (Hd3 : content s3 o d = image_tree o src d img) by (rewrite Hkeep by (by right); done).
  destruct g as [e|]; intros [= <- <- <-]; (split_and!; [done| |done]); (split; [done|]).
  - right. split_and!; [done..|]. exists img. split; [done|]. by right.
  - split; [done|]. rewrite Hf. exists img. split_and!; try done. intros d'. destruct (decide (d' = d)) as [->|Hk]; [done|].
    by apply Hgone.
Qed.

Lemma Pull_runs o ref src s c res s' c' :
  pe_ParseNamed R ref = inr src -> Pull R HelmChartSupport o ref (s, c) = (res, (s', c')) ->
  (exists e, res = Ret (inl e) /\ s' = s /\ c' = c) \/
  (pe_NewReference R src = None /\ pull R HelmChartSupport o src (s, c) = (res, (s', c'))).
Proof.
  intros Hp. unfold Pull, io_bind, calls, pull_check. cbn [fst snd]. rewrite Hp.
  destruct (pe_SourceCtx R c) as [e|]; [intros [= <- <- <-]; left; eauto|].
  destruct (pe_NewReference R src) as [e|] eqn:Hn; [|auto].
  unfold pull, pull_check. rewrite Hn. intros [= <- <- <-]. left. eauto.
Qed.

Lemma resolve_digest src d (w : S * Calls) : n_Digest src = Some d -> resolveCanonicalRef R src w = (inr src, w).
Proof. unfold resolveCanonicalRef. by intros ->. Qed.

(** C31. A reference with a digest is pulled under that digest, whatever fails on
    the way.  If its image is in the cache, it is served, or the pull fails,
    without a request to the registry, and every image stays as it is.
    Otherwise the registry is asked at most once, to copy it; if the pull
    succeeds, what is unpacked is in the cache and the owner's other images are
    gone.  Other owners keep theirs in any case.  A pull that fails changes no
    image, unless an image was copied: then either at most what the cache holds
    for the pulled digest has changed (unpacking it failed), or the image is there
    complete and older images of the owner may be gone (deleting them failed).

    Relied on: a cache that keeps its promises ([ImageCacheLaws], which allow it
    to fail at any point; [diskCache_keeps_promises] for the one on disk). *)
Theorem Pull_by_digest o ref src d s c res s' c' :
  inv s -> pe_ParseNamed R ref = inr src -> n_Digest src = Some d ->
  Pull R HelmChartSupport o ref (s, c) = (res, (s', c')) ->
  inv s' /\ pulled o d src s c res s' c' /\
  match res with Ret (inr (_, can, _)) => can = src | _ => True end.
Proof.
  intros Hi Hp Hd HP. destruct (Pull_runs _ _ _ _ _ _ _ _ Hp HP) as [(e & -> & -> & ->)|[Hn HP']].
  { split_and!; [done| |done]. by apply pulled_same; [|left|]. }
  replace d with (canonical_digest src) by (unfold canonical_digest; by rewrite Hd).
  eapply pull_resolved_spec; [done|by eapply resolve_digest|done..].
Qed.

(** An image that is in the cache is served, unless looking for it fails. *)
Definition served (o d : string) (can : Named) (s : S) (c : Calls) (r : go (result (path * Named * Z)) * (S * Calls)) : Prop :=
  r.2.2 = c /\ (forall o' d', content r.2.1 o' d' = content s o' d') /\
  match r.1 with Ret (inr (p, can', _)) => p = [o; d] /\ can' = can | Ret (inl _) => True | Panic _ => False end.

Lemma cached_pull o ref src d s c :
  inv s -> pe_ParseNamed R ref = inr src -> n_Digest src = Some d -> is_Some (content s o d) ->
  served o d src s c (Pull R HelmChartSupport o ref (s, c)).
Proof.
  intros Hi Hp Hd [t Ht]. unfold Pull, io_bind at 1, calls, pull_check. cbn [fst snd].
  destruct (pe_SourceCtx R c); [done|]. rewrite Hp. unfold pull, pull_check. destruct (pe_NewReference R src); [done|].
  unfold pull_try, io_bind at 1. rewrite (resolve_digest src d) by done.
  assert (Hcd : canonical_digest src = d) by (unfold canonical_digest; by rewrite Hd). rewrite Hcd.
  unfold io_bind at 1, on_cache at 1. cbn [fst snd]. pose proof (fetch_law o d s Hi) as Hf. revert Hf.
  destruct (ic_Fetch o d s) as [[e|[[p tm]|]] s1]; cbn [fst snd]; intros (_ & Hc & Hf); [done| |congruence].
  by destruct Hf as [_ ->].
Qed.

(** A reference with a digest whose image is in the cache is served without
    a request to the registry, and the cache keeps its content. *)
Theorem cached_image_needs_no_registry o ref src d s c :
  inv s -> pe_ParseNamed R ref = inr src -> n_Digest src = Some d -> is_Some (content s o d) ->
  served o d src s c (Pull R HelmChartSupport o ref (s, c)).
Proof. apply cached_pull. Qed.

(** A tag is resolved by one request and copied by another.  *)
Lemma pull_tag o ref src s c res s' c' manifest d can :
  inv s -> pe_ParseNamed R ref = inr src -> n_Digest src = None ->
  pe_NewImageSource R c src = None -> pe_GetManifest R c src = inr manifest -> pe_Digest R manifest = inr d ->
  pe_WithDigest R src d = inr can -> n_Digest can = Some d ->
  Pull R HelmChartSupport o ref (s, c) = (res, (s', c')) ->
  (exists e, res = Ret (inl e) /\ s' = s /\ c' = c) \/
  (inv s' /\ pulled o d src s (c ++ [CManifest src]) res s' c' /\
   match res with Ret (inr (_, can', _)) => can' = can | _ => True end).
Proof.
  intros Hi Hp Ht H1 H2 H3 H4 H5 HP. destruct (Pull_runs _ _ _ _ _ _ _ _ Hp HP) as [?|[Hn HP']]; [by left|right].
  replace d with (canonical_digest can) by (unfold canonical_digest; by rewrite H5).
  eapply pull_resolved_spec; [done| |done..].
  unfold resolveCanonicalRef. rewrite Ht. unfold io_bind, on_registry, io_ret. cbn [fst snd].
  by rewrite H1, H2, H3, H4.
Qed.

(** A tag is resolved to a digest by one request and copied by another; if
    it moves in between, the cache holds the new image under the old digest, and
    every later pull of that digest that is answered is answered with the new
    image, without asking the registry again. *)
Theorem moved_tag_poisons_cache o ref src s c p0 can0 tm0 s' c' manifest d can img :
  inv s -> content s o d = None -> pe_ParseNamed R ref = inr src -> n_Digest src = None ->
  (* the tag leads to a manifest with digest [d] ... *)
  pe_NewImageSource R c src = None -> pe_GetManifest R c src = inr manifest -> pe_Digest R manifest = inr d ->
  pe_WithDigest R src d = inr can -> n_Digest can = Some d ->
  (* ... and to whatever image when it is copied *)
  pe_Copy R (c ++ [CManifest src]) src = inr img ->
  Pull R HelmChartSupport o ref (s, c) = (Ret (inr (p0, can0, tm0)), (s', c')) ->
  can0 = can /\ content s' o d = image_tree o src d img /\
  (* from then on the digest stands for that image, and no request is made *)
  forall ref', pe_ParseNamed R ref' = inr can -> served o d can s' c' (Pull R HelmChartSupport o ref' (s', c')).
Proof.
  intros Hi Hc Hp Ht H1 H2 H3 H4 H5 Hcp HP.
  destruct (pull_tag _ _ _ _ _ _ _ _ _ _ _ Hi Hp Ht H1 H2 H3 H4 H5 HP) as [(e & He & _)|(Hi' & Hpl & Hcan)]; [done|].
  unfold pulled in Hpl. rewrite Hc in Hpl. destruct Hpl as (_ & _ & img' & Hcp' & Hs & Hd & _).
  rewrite Hcp in Hcp'. injection Hcp' as <-. assert (Hdd : content s' o d = image_tree o src d img) by (rewrite Hd; by rewrite decide_True).
  split_and!; [done|done|]. intros ref' Hp'. apply cached_pull; try done. by rewrite Hdd.
Qed.

End Pulling.
