(* ===== verification/ImageSamples.v ===== *)
(** * The image cache and the puller at work

    An operating system without failures, and one that fails from some point
    on; an archive library that writes one file per layer, or a named pipe; and a
    registry whose tag moves. *)

From Stdlib Require Import Ascii.
From S2P Require Import Prelude GoErrors GoPath ImageFilter DiskFs DiskProps ImageCache ImageCacheProps ImagePull ImagePullProps.

Module ImageSamples.

Definition os_sample : OsEnv :=
  {| os_fails _ _ := None; os_left _ _ := true; os_follow _ _ := inl not_exist; os_mtime h _ := Z.of_nat (length h);
     os_temp _ := EmptyString; os_short _ := O |}.

#[export] Instance os_sample_quiet : Quiet os_sample.
Proof. done. Qed.

#[export] Instance os_sample_honest : Honest os_sample.
Proof. by split. Qed.

Definition data_path (dest : path) : path := dest ++ ["data"].

(** A layer is one file; a directory is not replaced by it. *)
Definition write_data (dest : path) (layer : LayerData) (t : Fs) : option Fs :=
  match ld_Reader layer, t !! data_path dest with
  | Some (inr _), Some (NDir _) => None
  | Some (inr data), _ => Some (<[data_path dest := NFile rwx data]> t)
  | _, _ => None
  end.

Definition unpacker_sample : Unpacker :=
  {| un_apply h _ dest layer :=
       match write_data dest layer (fs_cur h) with
       | Some fs => ([fs], None)
       | None => ([], Some (ENew "cannot write"))
       end;
     un_LoadArchive _ := inl (ENew "not a chart"); un_TempFile _ _ := None; un_Copy _ := None; un_Replace _ := None;
     un_file_mode := 384 |}.

Lemma write_data_inserts (dest : path) (fs : Fs) data : wf fs -> (exists m, fs !! dest = Some (NDir m)) ->
  (forall m, fs !! data_path dest <> Some (NDir m)) ->
  within dest fs (<[data_path dest := NFile rwx data]> fs) /\
  tree_at dest (<[data_path dest := NFile rwx data]> fs) = <[data_path dest := NFile rwx data]> (tree_at dest fs).
Proof.
  intros Hwf [m Hm] Hnd. split; [split_and!|apply tree_at_insert].
  - apply wf_insert; [done..|]. right. unfold data_path. rewrite parent_snoc. eauto.
  - intros p Hp. apply lookup_insert_ne. intros <-. unfold data_path in Hp. by rewrite under_app in Hp.
  - exists m. rewrite lookup_insert_ne; [done|]. unfold data_path. intros H. apply (f_equal length) in H.
    rewrite length_app in H. cbn in H. lia.
Qed.

Lemma write_data_tree (dest : path) (layer : LayerData) (fs : Fs) : write_data dest layer (tree_at dest fs) =
  match ld_Reader layer, fs !! data_path dest with
  | Some (inr _), Some (NDir _) => None
  | Some (inr data), _ => Some (<[data_path dest := NFile rwx data]> (tree_at dest fs))
  | _, _ => None
  end.
Proof. unfold write_data. by rewrite lookup_tree_at, (under_app dest ["data"] : under dest (data_path dest) = true). Qed.

#[export] Instance unpacker_sample_laws : UnpackLaws unpacker_sample (fun _ => write_data).
Proof.
  split; [|done]. intros h f dest layer Hwf Hd. cbn [un_apply unpacker_sample]. rewrite write_data_tree. unfold write_data.
  destruct (ld_Reader layer) as [[e|data]|]; try (split; [constructor|done]).
  destruct (fs_cur h !! data_path dest) as [[| m | |]|] eqn:En; try (split; [constructor|done]).
  all: destruct (write_data_inserts dest (fs_cur h) data Hwf Hd) as [Hw Ht]; [by rewrite En|].
  all: split; [by constructor|intros _]; cbn [fst]; by rewrite fs_cur_snoc, Ht.
Qed.

#[export] Instance unpacker_sample_reliable : ReliableUnpack unpacker_sample (fun _ => write_data) (fun _ => True).
Proof.
  intros h f dest layer. cbv zeta. cbn [un_apply unpacker_sample]. intros Hwf Hd Hp _. rewrite write_data_tree. unfold write_data.
  assert (Hno : forall A (x : A), without dest (fs_cur (h ++ [])) = without dest (fs_cur h) /\ wf (fs_cur (h ++ [])) /\
    dir_with rwx (fs_cur (h ++ [])) dest /\ plain dest (fs_cur (h ++ [])) /\ x = x) by (intros; by rewrite app_nil_r).
  destruct Hd as (md & Hmd & Hb). assert (Hd : dir_with rwx (fs_cur h) dest) by (by exists md).
  destruct (ld_Reader layer) as [[e|data]|]; try apply (Hno _ (@None Fs)).
  assert (Hok : (forall m, fs_cur h !! data_path dest <> Some (NDir m)) ->
    let fs' := <[data_path dest := NFile rwx data]> (fs_cur h) in
    without dest fs' = without dest (fs_cur h) /\ wf fs' /\ dir_with rwx fs' dest /\ plain dest fs' /\
    Some (<[data_path dest := NFile rwx data]> (tree_at dest (fs_cur h))) = Some (tree_at dest fs')).
  { intros Hnd. cbv zeta. destruct (write_data_inserts dest (fs_cur h) data Hwf (ex_intro _ md Hmd) Hnd) as [(Hw & Hout & _) Ht].
    split_and!; [|done| | |by rewrite Ht].
    - apply map_eq. intros p. rewrite !lookup_without. destruct (under dest p) eqn:Hu; [done|]. by apply Hout.
    - exists md. rewrite lookup_insert_ne; [done|]. unfold data_path. intros H. apply (f_equal length) in H.
      rewrite length_app in H. cbn in H. lia.
    - intros p n Hup Hn. destruct (decide (p = data_path dest)) as [->|Hpn].
      + rewrite lookup_insert_eq in Hn. by injection Hn as <-.
      + rewrite lookup_insert_ne in Hn by done. by eapply Hp. }
  destruct (fs_cur h !! data_path dest) as [[| m | |]|]; cbn [fst snd];
    try (rewrite fs_cur_snoc; apply Hok; intros m'; discriminate).
  apply (Hno _ (@None Fs)).
Qed.

(** A layer with a named pipe. *)
Definition unpacker_fifo : Unpacker :=
  {| un_apply h _ dest _ := ([<[data_path dest := NSpecial "p---------"]> (fs_cur h)], None);
     un_LoadArchive _ := inl (ENew "not a chart"); un_TempFile _ _ := None; un_Copy _ := None; un_Replace _ := None;
     un_file_mode := 384 |}.

(** *** Checking small file systems *)

Definition wf_check (fs : Fs) : bool :=
  forallb (fun p => forallb (fun n => match fs !! take n p with Some (NDir _) => true | _ => false end) (seq 0 (length p)))
    (map fst (map_to_list fs)).

Lemma wf_check_sound fs : wf_check fs = true -> wf fs.
Proof.
  intros Hc p q (x & r & ->) [n Hn]. unfold wf_check in Hc. rewrite forallb_elem in Hc.
  specialize (Hc (q ++ x :: r)). rewrite forallb_elem in Hc.
  assert (Ht : match fs !! take (length q) (q ++ x :: r) with Some (NDir _) => true | _ => false end = true).
  { apply Hc.
    - apply list_elem_of_fmap. exists (q ++ x :: r, n). split; [done|]. by apply elem_of_map_to_list.
    - apply elem_of_seq. rewrite length_app. cbn. lia. }
  rewrite take_app_length in Ht. destruct (fs !! q) as [[| m | |]|]; try done. eauto.
Qed.

Definition open_check (fs : Fs) (root : path) : bool :=
  forallb (fun n => match fs !! take n root with Some (NDir m) => has_bits m rwx | None => true | _ => false end)
    (seq 0 (length root)).

Lemma open_check_sound fs root : open_check fs root = true -> open_above fs root.
Proof.
  intros Hc q (x & r & ->) [n Hn]. unfold open_check in Hc. rewrite forallb_elem in Hc.
  specialize (Hc (length q)). rewrite take_app_length, Hn in Hc.
  assert (Hin : length q ∈ seq 0 (length (q ++ x :: r))) by (apply elem_of_seq; rewrite length_app; cbn; lia).
  specialize (Hc Hin). destruct n as [| m | |]; try done. by exists m.
Qed.

Lemma cache_inv_empty : cache_inv ∅.
Proof.
  split.
  - intros p q _ [n Hn]. by rewrite lookup_empty in Hn.
  - intros p n _ Hn. by rewrite lookup_empty in Hn.
  - intros p n _ Hn. by rewrite lookup_empty in Hn.
  - intros p n _ Hn. by rewrite lookup_empty in Hn.
Qed.

Lemma cache_wf_empty : cache_wf ∅.
Proof. split; [apply cache_inv_empty|]. intros p t _. by rewrite lookup_empty. Qed.

(** *** Images and a registry *)

Definition layer_of (data : string) : LayerData := mkLayer "application/vnd.oci.image.layer.v1.tar+gzip" (Some (inr data)) 0 None.
Definition tag_ref : Named := mkNamed "registry/img:latest" None.
Definition digest_ref : Named := mkNamed "registry/img@sha256:1" (Some "sha256:1").
Definition other_ref : Named := mkNamed "registry/img@sha256:0" (Some "sha256:0").

Definition image_of (data : string) : Copied :=
  mkCopied None None None None "application/vnd.oci.image.config.v1+json" (inr (mkOCIImage ∅))
    [mkBlob "application/vnd.oci.image.layer.v1.tar+gzip" (inr (inr (inr data)))] None None [].

(** The tag leads to the manifest with digest sha256:1 when it is asked for,
    and to another image when it is copied. *)
Definition registry_sample : PullEnv :=
  {| pe_SourceCtx _ := None;
     pe_ParseNamed ref :=
       if bool_decide (ref = n_String tag_ref) then inr tag_ref
       else if bool_decide (ref = n_String digest_ref) then inr digest_ref else inl (ENew "invalid reference format");
     pe_NewReference _ := None; pe_NewImageSource _ _ := None; pe_GetManifest _ _ := inr "manifest 1";
     pe_Digest m := inr "sha256:1"; pe_WithDigest _ _ := inr digest_ref; pe_MkdirTemp _ := None; pe_LayoutReference _ := None;
     pe_DefaultPolicy := None; pe_NewPolicyFromBytes := None; pe_NewPolicyContext := None;
     pe_Copy _ ref := inr (image_of (if bool_decide (n_String ref = n_String tag_ref) then "content of sha256:2" else "content of sha256:1")) |}.

Definition cache_sample : ImageCache Hist := diskCache os_sample unpacker_sample false None.

Abbreviation tree_sample := (unpacked (layer_result unpacker_sample (fun _ => write_data) false) None).

Lemma cache_sample_laws :
  ImageCacheLaws cache_sample (fun h => cache_wf (fs_cur h)) (fun h => content (fs_cur h)) tree_sample.
Proof. apply diskCache_laws; apply _. Qed.

(** A disk on which every system call fails once something was unpacked. *)
Definition os_dying : OsEnv :=
  {| os_fails h _ := match h with _ :: _ :: _ :: _ => Some (ENew "input/output error") | _ => None end;
     os_left _ _ := true; os_follow _ _ := inl not_exist; os_mtime h _ := Z.of_nat (length h);
     os_temp _ := EmptyString; os_short _ := O |}.

#[export] Instance os_dying_honest : Honest os_dying.
Proof. split; [|done]. intros h c e. destruct h as [|? [|? [|? ?]]]; cbn; try done. by intros [= <-]. Qed.

(** It holds of a disk that fails, where a store fails and leaves what it
    unpacked, since deleting it fails too; and of one that does not fail, where
    all operations succeed. *)
Lemma diskCache_keeps_promises_witness :
  (ImageCacheLaws (diskCache os_dying unpacker_sample false None) (fun h => cache_wf (fs_cur h)) (fun h => content (fs_cur h)) tree_sample /\
   every_step_safe os_dying unpacker_sample (fun _ => write_data) false None) /\
  (exists e, (ImageCache.Store os_dying unpacker_sample false None "ext" digest_ref "sha256:1" (mkOCIImage ∅) [layer_of "x"] []).1 = inl e) /\
  is_Some (content (fs_cur (ImageCache.Store os_dying unpacker_sample false None "ext" digest_ref "sha256:1" (mkOCIImage ∅) [layer_of "x"] []).2)
    "ext" "sha256:1") /\
  ReliableCache cache_sample (fun h => cache_inv (fs_cur h)) (fun h => content (fs_cur h)) tree_sample (fun _ => True).
Proof.
  destruct (diskCache_keeps_promises os_dying unpacker_sample (fun _ => write_data) false None os_dying_honest unpacker_sample_laws)
    as (H1 & H2 & _).
  destruct (diskCache_keeps_promises os_sample unpacker_sample (fun _ => write_data) false None os_sample_honest unpacker_sample_laws)
    as (_ & _ & H3).
  split; [exact (conj H1 H2)|]. split; [vm_compute; by eexists|]. split.
  - apply (bool_decide_eq_true_1 (is_Some _)). vm_compute. reflexivity.
  - exact (H3 (fun _ => True) os_sample_quiet eq_refl unpacker_sample_reliable).
Defined.

Lemma killed_unpacking_is_served_witness :
  exists h1 h2, (Store os_sample unpacker_sample false None "ext" digest_ref "sha256:1" (mkOCIImage ∅) [layer_of "x"] []).2 = h1 ++ h2 /\
    content (fs_cur h1) "ext" "sha256:1" = Some {[ ["ext"; "sha256:1"] := NDir rwx ]} /\
    exists t, (Fetch os_sample "ext" "sha256:1" h1).1 = inr (Some (["ext"; "sha256:1"], t)).
Proof.
  exact (killed_unpacking_is_served os_sample unpacker_sample (fun _ => write_data) (fun _ => True) None "ext" digest_ref "sha256:1"
    (mkOCIImage ∅) [layer_of "x"] [] None cache_inv_empty eq_refl eq_refl (List.Forall_cons _ _ _ I (List.Forall_nil _))).
Defined.

(** What unpacking the pipe leaves. *)
Definition emptied : Hist := (EnsureEmptyDirectory os_sample ["ext"; "sha256:1"] rwx []).2.
Definition with_pipe : Hist := (unpack_layers unpacker_fifo false None ["ext"; "sha256:1"] [layer_of "x"] emptied).2.

Lemma special_file_sticks_witness :
  let h2 := (Store os_sample unpacker_fifo false None "ext" digest_ref "sha256:1" (mkOCIImage ∅) [layer_of "x"] []).2 in
  (exists e, (Store os_sample unpacker_fifo false None "ext" digest_ref "sha256:1" (mkOCIImage ∅) [layer_of "x"] []).1 = inl e) /\
  (exists t, (Fetch os_sample "ext" "sha256:1" h2).1 = inr (Some (["ext"; "sha256:1"], t))) /\
  (exists e, (Delete os_sample "ext" h2).1 = Some e).
Proof.
  assert (H1 : (EnsureEmptyDirectory os_sample ["ext"; "sha256:1"] rwx []).1 = None) by (vm_compute; reflexivity).
  assert (H2 : unpack_layers unpacker_fifo false None ["ext"; "sha256:1"] [layer_of "x"]
    (EnsureEmptyDirectory os_sample ["ext"; "sha256:1"] rwx []).2 = (None, with_pipe)).
  { assert (H : (unpack_layers unpacker_fifo false None ["ext"; "sha256:1"] [layer_of "x"] emptied).1 = None)
      by (vm_compute; reflexivity).
    rewrite <- H. fold emptied. unfold with_pipe. by rewrite <- surjective_pairing. }
  assert (H3 : wf (fs_cur with_pipe)) by (apply wf_check_sound; vm_compute; reflexivity).
  assert (H4 : open_above (fs_cur with_pipe) ["ext"; "sha256:1"]) by (apply open_check_sound; vm_compute; reflexivity).
  assert (H5 : is_Some (content (fs_cur with_pipe) "ext" "sha256:1"))
    by (apply (bool_decide_eq_true_1 (is_Some _)); vm_compute; reflexivity).
  assert (H6 : fs_cur with_pipe !! ["ext"; "sha256:1"; "data"] = Some (NSpecial "p---------")) by (vm_compute; reflexivity).
  exact (special_file_sticks os_sample unpacker_fifo None "ext" digest_ref "sha256:1" (mkOCIImage ∅) [layer_of "x"] []
    None with_pipe ["ext"; "sha256:1"; "data"] (NSpecial "p---------") os_sample_quiet eq_refl H1 H2 H3 H4 H5 eq_refl H6 eq_refl).
Defined.

(** A pull by digest, from an empty cache. *)
Definition first_pull := Pull (IC := cache_sample) registry_sample false "ext" "registry/img@sha256:1" ([] : Hist, []).

Lemma Pull_by_digest_witness :
  cache_wf (fs_cur first_pull.2.1) /\
  pulled (fun h => content (fs_cur h)) tree_sample registry_sample false
    "ext" "sha256:1" digest_ref ([] : Hist) [] first_pull.1 first_pull.2.1 first_pull.2.2 /\
  match first_pull.1 with Ret (inr (_, can, _)) => can = digest_ref | _ => True end.
Proof.
  exact (Pull_by_digest (IC := cache_sample) (fun h => cache_wf (fs_cur h)) (fun h => content (fs_cur h))
    tree_sample (ImageCacheLaws0 := cache_sample_laws) registry_sample false
    "ext" "registry/img@sha256:1" digest_ref "sha256:1" [] [] first_pull.1 first_pull.2.1 first_pull.2.2
    cache_wf_empty eq_refl eq_refl eq_refl).
Defined.

Lemma cached_image_needs_no_registry_witness :
  served (fun h => content (fs_cur h)) "ext" "sha256:1" digest_ref first_pull.2.1 []
    (Pull (IC := cache_sample) registry_sample false "ext" "registry/img@sha256:1" (first_pull.2.1, [])).
Proof.
  destruct Pull_by_digest_witness as (Hi & _).
  assert (Hc : is_Some (content (fs_cur first_pull.2.1) "ext" "sha256:1"))
    by (apply (bool_decide_eq_true_1 (is_Some _)); vm_compute; reflexivity).
  exact (cached_image_needs_no_registry (IC := cache_sample) (fun h => cache_wf (fs_cur h)) (fun h => content (fs_cur h))
    tree_sample (ImageCacheLaws0 := cache_sample_laws) registry_sample false
    "ext" "registry/img@sha256:1" digest_ref "sha256:1" first_pull.2.1 [] Hi eq_refl eq_refl Hc).
Defined.

(** A pull of the tag, which moves while it is pulled. *)
Definition tag_pull := Pull (IC := cache_sample) registry_sample false "ext" "registry/img:latest" ([] : Hist, []).

Lemma moved_tag_poisons_cache_witness :
  exists tm, tag_pull.1 = Ret (inr (["ext"; "sha256:1"], digest_ref, tm)) /\
  (digest_ref = digest_ref /\
   content (fs_cur tag_pull.2.1) "ext" "sha256:1" =
     image_tree tree_sample false "ext" tag_ref "sha256:1" (image_of "content of sha256:2") /\
   forall ref', pe_ParseNamed registry_sample ref' = inr digest_ref ->
     served (fun h => content (fs_cur h)) "ext" "sha256:1" digest_ref tag_pull.2.1 tag_pull.2.2
       (Pull (IC := cache_sample) registry_sample false "ext" ref' (tag_pull.2.1, tag_pull.2.2))).
Proof.
  exists 11. assert (Hp : tag_pull.1 = Ret (inr (["ext"; "sha256:1"], digest_ref, 11))) by (vm_compute; reflexivity).
  split; [exact Hp|].
  assert (Hrun : Pull (IC := cache_sample) registry_sample false "ext" "registry/img:latest" ([] : Hist, [])
    = (Ret (inr (["ext"; "sha256:1"], digest_ref, 11)), (tag_pull.2.1, tag_pull.2.2))).
  { rewrite <- Hp. fold tag_pull. by destruct tag_pull as [? [? ?]]. }
  exact (moved_tag_poisons_cache (IC := cache_sample) (fun h => cache_wf (fs_cur h)) (fun h => content (fs_cur h))
    tree_sample (ImageCacheLaws0 := cache_sample_laws) registry_sample false
    "ext" "registry/img:latest" tag_ref [] [] ["ext"; "sha256:1"] digest_ref 11 tag_pull.2.1 tag_pull.2.2 "manifest 1" "sha256:1"
    digest_ref (image_of "content of sha256:2") cache_wf_empty eq_refl eq_refl eq_refl eq_refl eq_refl eq_refl eq_refl eq_refl
    eq_refl Hrun).
Defined.

End ImageSamples.
