(* ===== verification/HelmApply.v ===== *)
(** * Applying a bundle as a Helm release

    src/internal/operator-controller/applier/helm.go, the Helm applier, with the
    error translation of src/internal/operator-controller/action/helm.go and
    action/error/errors.go.

    Helm's action client, the pre-authorizer, the preflights and the content
    manager answer through [HelmEnv], and may depend on the history of
    [hevent]s.  Each collaborator that may be nil is an option.  A chart, as
    Helm sees it, is any type. *)

From Stdlib Require Import Ascii.
From S2P Require Import Prelude GoErrors ApiTypes Phase ExtSteps RevisionGen Rbac Bundle BoxApply GoPath ImageFilter DiskFs ImageCache ImageCacheProps ImagePull.

(** ** Translating Helm's errors

    action/error/errors.go.  The expression

      Unable to continue with install: (\w+) "(.*)" in namespace "(.*)" exists
      and cannot be imported into the current release.*

    is matched leftmost, its groups as long as possible. *)
Definition conflict_prefix : string := "Unable to continue with install: ".
Definition dquote : ascii := ascii_of_nat 34.
Definition conflict_middle : string := String dquote (" in namespace " +:+ String dquote EmptyString).
Definition conflict_end : string := String dquote " exists and cannot be imported into the current release".

(** The longest run of characters other than a newline after which [k]
    succeeds, with its result. *)
Fixpoint greedy {A} (k : string -> option A) (s : string) : option (string * A) :=
  let here := (fun a => (EmptyString, a)) <$> k s in
  match s with
  | EmptyString => here
  | String c s' =>
      if bool_decide (c = ascii_of_nat 10) then here
      else match greedy k s' with
           | Some (g, a) => Some (String c g, a)
           | None => here
           end
  end.

Definition after (prefix s : string) : option string :=
  if strings_HasPrefix s prefix then Some (str_drop (String.length prefix) s) else None.

Fixpoint span_word (s : string) : string * string :=
  match s with
  | String c s' => if is_word c then let '(w, r) := span_word s' in (String c w, r) else (EmptyString, s)
  | EmptyString => (EmptyString, EmptyString)
  end.

(** The groups of a match at the start of the text. *)
Definition conflict_here (s : string) : option (string * string * string) :=
  match after conflict_prefix s with
  | None => None
  | Some s =>
      let '(kind, s) := span_word s in
      if bool_decide (kind = EmptyString) then None
      else
        match after (" " +:+ String dquote EmptyString) s with
        | None => None
        | Some s =>
            match greedy (fun s => match after conflict_middle s with
                                   | None => None
                                   | Some s => greedy (after conflict_end) s
                                   end) s with
            | Some (name, (namespace, _)) => Some (kind, name, namespace)
            | None => None
            end
        end
  end.

Fixpoint FindStringSubmatch (s : string) : option (string * string * string) :=
  match conflict_here s with
  | Some m => Some m
  | None => match s with String _ s' => FindStringSubmatch s' | EmptyString => None end
  end.

(** func helmInstallConflictErr(originalErr error) error; an Olmv1Err does not
    unwrap to the error it was made from. *)
Definition helmInstallConflictErr (originalErr : error) : option error :=
  match FindStringSubmatch (Error originalErr) with
  | None => None
  | Some (kind, name, namespace) =>
      Some (ENew (kind +:+ " '" +:+ name +:+ "' already exists in namespace '" +:+ namespace +:+
                  "' and cannot be managed by operator-controller"))
  end.

(** func AsOlmErr(originalErr error) error *)
Definition AsOlmErr (originalErr : option error) : option error :=
  match originalErr with
  | None => None
  | Some e => match helmInstallConflictErr e with Some e' => Some e' | None => Some e end
  end.

(** ** The environment *)

(** What the applier sets of an action.Install; the rest keeps its zero value. *)
Record InstallOpts := mkInstallOpts {
  io_DryRun : bool;
  io_DryRunOption : string;
  io_ReleaseName : string;
  io_Replace : bool;
  io_ClientOnly : bool;
  io_IncludeCRDs : bool;
  io_IsUpgrade : bool;
  io_CreateNamespace : bool;
  io_Labels : gmap string string;
}.

Record UpgradeOpts := mkUpgradeOpts {
  uo_MaxHistory : Z;
  uo_DryRun : bool;
  uo_DryRunOption : string;
  uo_Labels : gmap string string;
}.

Section Helm.
Context {Chart FS : Type}.

(** The requests; the last argument of an installation or an upgrade are the
    labels of the post-renderer. *)
Inductive hevent :=
| HActionClientFor
| HGet (name : string)
| HInstall (name namespace : string) (c : Chart) (opts : InstallOpts) (post : gmap string string)
| HUpgrade (name namespace : string) (c : Chart) (opts : UpgradeOpts) (post : gmap string string)
| HReconcile (rel : HelmRelease)
| HPreAuthorize (user manifest : string) (perms : list AttributesRecord)
| HPreflightInstall (i : nat) (objs : list Unstructured)
| HPreflightUpgrade (i : nat) (objs : list Unstructured)
| HManagerGet
| HWatch (objs : list Unstructured).

Definition HH : Type := list hevent.

Record HelmPreflight := mkHelmPreflight {
  hp_isCRDUpgradeSafety : bool;
  hp_Install : HH -> list Unstructured -> option error;
  hp_Upgrade : HH -> list Unstructured -> option error;
}.

Record HelmEnv := mkHelmEnv {
  he_ActionClientFor : HH -> option error;
  he_Get : HH -> string -> option HelmRelease * option error;
  he_Install : HH -> string -> string -> Chart -> InstallOpts -> gmap string string -> option HelmRelease * option error;
  he_Upgrade : HH -> string -> string -> Chart -> UpgradeOpts -> gmap string string -> option HelmRelease * option error;
  he_Reconcile : HH -> HelmRelease -> option error;
  (* the fields of the Helm struct *)
  he_PreAuthorizer : option (HH -> string -> string -> list AttributesRecord -> list ScopedPolicyRules * option error);
  he_Preflights : list HelmPreflight;
  he_HelmChartProvider : option (FS -> ClusterExtension -> result Chart);
  he_Manager : option (HH -> option error);                     (* Get: the cache, or the error *)
  he_Watcher : bool;
  he_Watch : HH -> list Unstructured -> option error;
  (* util.ManifestObjects of a release's manifest, and the name of a release *)
  he_ManifestObjects : HelmRelease -> result (list Unstructured);
  he_ReleaseName : HelmRelease -> string;
  (* the bundle as a chart *)
  he_HelmChartSupport : bool;
  he_files : FS -> list string;
  he_ReadFile : FS -> string -> result string;
  he_Unpacker : Unpacker;
  he_chart : ImageCache.Chart -> Chart;
}.

Context (E : HelmEnv).

(** Fallible code that may panic. *)
Definition HR (A : Type) : Type := IO HH (go (result A)).

Definition h_ok {A} (a : A) : HR A := io_ret (Ret (inr a)).
Definition h_err {A} (e : error) : HR A := io_ret (Ret (inl e)).
Definition h_panic {A} (msg : string) : HR A := io_ret (Panic msg).

Definition h_bind {A B} (m : HR A) (k : A -> HR B) : HR B :=
  let* r := m in
  match r with
  | Ret (inr a) => k a
  | Ret (inl e) => h_err e
  | Panic msg => h_panic msg
  end.

Definition h_lift {A} (r : result A) : HR A := io_ret (Ret r).

(** [if err := m; err != nil { return ctx(err) }] *)
Definition h_check (ctx : error -> error) (m : IO HH (option error)) : HR unit :=
  let* r := m in io_ret (Ret (match r with Some e => inl (ctx e) | None => inr tt end)).

Definition nil_deref : string := "invalid memory address or nil pointer dereference".

(** ** The wrapped action client of action/helm.go *)

Definition ActionClientFor : HR unit := h_check id (ask HActionClientFor (fun h => he_ActionClientFor E h)).

Definition ac_Get (name : string) : IO HH (option HelmRelease * option error) :=
  let* r := ask (HGet name) (fun h => he_Get E h name) in io_ret (r.1, AsOlmErr r.2).

Definition ac_Install (name namespace : string) (c : Chart) (opts : InstallOpts) (post : gmap string string)
  : IO HH (option HelmRelease * option error) :=
  let* r := ask (HInstall name namespace c opts post) (fun h => he_Install E h name namespace c opts post) in
  io_ret (r.1, AsOlmErr r.2).

Definition ac_Upgrade (name namespace : string) (c : Chart) (opts : UpgradeOpts) (post : gmap string string)
  : IO HH (option HelmRelease * option error) :=
  let* r := ask (HUpgrade name namespace c opts post) (fun h => he_Upgrade E h name namespace c opts post) in
  io_ret (r.1, AsOlmErr r.2).

Definition ac_Reconcile (rel : HelmRelease) : IO HH (option error) :=
  let* r := ask (HReconcile rel) (fun h => he_Reconcile E h rel) in io_ret (AsOlmErr r).

(** (rel, err): the release a caller goes on with when there is no error; what
    it dereferences must be there. *)
Definition release_of (r : option HelmRelease * option error) : HR HelmRelease :=
  match r with
  | (_, Some e) => h_err e
  | (Some rel, None) => h_ok rel
  | (None, None) => h_panic nil_deref
  end.

(** ** helm.go *)

Definition StateError : string := "Error".
Definition maxHelmReleaseHistory : Z := 10.

(** The option functions of the calls. *)
Definition client_only (name : string) (isUpgrade : bool) : InstallOpts :=
  mkInstallOpts true EmptyString name true true true isUpgrade false ∅.
Definition server_dry_run : InstallOpts := mkInstallOpts true "server" EmptyString false false false false false ∅.
Definition real_install (storageLabels : gmap string string) : InstallOpts :=
  mkInstallOpts false EmptyString EmptyString false false false false false storageLabels.
Definition upgrade_dry_run : UpgradeOpts := mkUpgradeOpts maxHelmReleaseHistory true "server" ∅.
Definition real_upgrade (storageLabels : gmap string string) : UpgradeOpts :=
  mkUpgradeOpts maxHelmReleaseHistory false EmptyString storageLabels.

(** func extManagementPerms(ext) func(user.Info) []authorizer.AttributesRecord *)
Definition extManagementPerms (ext : ClusterExtension) (user : string) : list AttributesRecord :=
  [mkAttributes user "" (ext_Name ext) api_Group api_Version "clusterextensions/finalizers" "" true "" "update"].

(** func (h *Helm) renderClientOnlyRelease(ctx, ext, chrt, values, post) *)
Definition renderClientOnlyRelease (ext : ClusterExtension) (chrt : Chart) (post : gmap string string) : HR HelmRelease :=
  h_bind ActionClientFor (fun _ =>
  let* r := ac_Get (ext_Name ext) in
  let install (currentRelease : option HelmRelease) : HR HelmRelease :=
    let isUpgrade := match currentRelease with Some _ => true | None => false end in
    let* r := ac_Install (ext_Name ext) (es_Namespace (ext_Spec ext)) chrt (client_only (ext_Name ext) isUpgrade) post in
    release_of r in
  match r with
  | (currentRelease, Some err) =>
      if has_kind KReleaseNotFound err then install currentRelease else h_err err
  | (currentRelease, None) => install currentRelease
  end).

(** func (h *Helm) runPreAuthorizationChecks(ctx, ext, chart, values, post) error *)
Definition runPreAuthorizationChecks (PreAuthorize : HH -> string -> string -> list AttributesRecord -> list ScopedPolicyRules * option error)
    (ext : ClusterExtension) (chrt : Chart) (post : gmap string string) : HR unit :=
  let* r := renderClientOnlyRelease ext chrt post in
  match r with
  | Panic msg => h_panic msg
  | Ret (inl err) => h_err (EWrap "error rendering content for pre-authorization checks: " err "")
  | Ret (inr tmplRel) =>
      let manifestManager := getUserInfo ext in
      let perms := extManagementPerms ext manifestManager in
      let* a := ask (HPreAuthorize manifestManager (rel_Manifest tmplRel) perms)
                  (fun h => PreAuthorize h manifestManager (rel_Manifest tmplRel) perms) in
      match formatPreAuthorizerOutput a.1 a.2 with
      | Some err => h_err err
      | None => h_ok tt
      end
  end.

(** func (h *Helm) buildHelmChart(bundleFS, ext) (_, error) *)
Definition buildHelmChart (bundleFS : FS) (ext : ClusterExtension) : result Chart :=
  match he_HelmChartProvider E with
  | None => inl (ENew "HelmChartProvider is nil")
  | Some provider =>
      if he_HelmChartSupport E then
        match IsBundleSourceChart (he_Unpacker E) (he_files E bundleFS) (he_ReadFile E bundleFS) no_metadata with
        | (inr true, meta) =>
            match LoadChartFSWithOptions (he_Unpacker E) (he_ReadFile E bundleFS) (chart_file meta)
                    [WithInstallNamespace (es_Namespace (ext_Spec ext))] with
            | inl err => inl err
            | inr c => inr (he_chart E c)
            end
        | _ => provider bundleFS ext
        end
      else provider bundleFS ext
  end.

(** The state of a release that is there. *)
Definition release_state (currentRelease desiredRelease : HelmRelease) : go string :=
  if negb (bool_decide (rel_Manifest desiredRelease = rel_Manifest currentRelease)) then Ret StateNeedsUpgrade
  else match rel_Status currentRelease with
       | None => Panic nil_deref
       | Some status =>
           if bool_decide (status = "failed") || bool_decide (status = "superseded") then Ret StateNeedsUpgrade
           else Ret StateUnchanged
       end.

(** func (h *Helm) getReleaseState(cl, ext, chrt, values, post): the current
    release, the desired one and the state. *)
Definition getReleaseState (ext : ClusterExtension) (chrt : Chart) (post : gmap string string)
  : HR (option HelmRelease * option HelmRelease * string) :=
  let name := ext_Name ext in
  let ns := es_Namespace (ext_Spec ext) in
  let* cur := ac_Get name in
  match cur with
  | (currentRelease, Some err) =>
      if has_kind KReleaseNotFound err then
        let* d := ac_Install name ns chrt server_dry_run post in
        match d with
        | (_, Some err) => h_err err
        | (desiredRelease, None) => h_ok (None, desiredRelease, StateNeedsInstall)
        end
      else h_err err
  | (currentRelease, None) =>
      let* d := ac_Upgrade name ns chrt upgrade_dry_run post in
      match d with
      | (_, Some err) => h_err err
      | (desiredRelease, None) =>
          match currentRelease, desiredRelease with
          | Some c, Some d =>
              match release_state c d with
              | Ret st => h_ok (currentRelease, desiredRelease, st)
              | Panic msg => h_panic msg
              end
          | _, _ => h_panic nil_deref
          end
      end
  end.

(** func (h HelmReleaseToObjectsConverter) GetObjectsFromRelease(rel) *)
Definition GetObjectsFromRelease (rel : option HelmRelease) : result (list Unstructured) :=
  match rel with
  | None => inr []
  | Some rel =>
      match he_ManifestObjects E rel with
      | inl err => inl (EWrap ("parsing release " +:+ fmt_q (he_ReleaseName E rel) +:+ " objects: ") err "")
      | inr relObjects => inr relObjects
      end
  end.

(** The loop of Apply over the preflights. *)
Fixpoint helm_preflights (i : nat) (ext : ClusterExtension) (state : string) (objs : list Unstructured)
    (preflights : list HelmPreflight) : HR unit :=
  match preflights with
  | [] => h_ok tt
  | pf :: rest =>
      h_bind
        (if shouldSkipPreflight (hp_isCRDUpgradeSafety pf) ext then h_ok tt
         else if decide (state = StateNeedsInstall) then
           h_check id (ask (HPreflightInstall i objs) (fun h => hp_Install pf h objs))
         else if decide (state = StateNeedsUpgrade) then
           h_check id (ask (HPreflightUpgrade i objs) (fun h => hp_Upgrade pf h objs))
         else h_ok tt)
        (fun _ => helm_preflights (S i) ext state objs rest)
  end.

(** The second switch of Apply: the release afterwards. *)
Definition apply_release (ext : ClusterExtension) (chrt : Chart) (state : string) (rel : option HelmRelease)
    (objectLabels storageLabels : gmap string string) : HR HelmRelease :=
  let name := ext_Name ext in
  let ns := es_Namespace (ext_Spec ext) in
  if decide (state = StateNeedsInstall) then
    let* r := ac_Install name ns chrt (real_install storageLabels) objectLabels in release_of r
  else if decide (state = StateNeedsUpgrade) then
    let* r := ac_Upgrade name ns chrt (real_upgrade storageLabels) objectLabels in release_of r
  else if decide (state = StateUnchanged) then
    match rel with
    | None => h_panic nil_deref
    | Some rel => h_bind (h_check id (ac_Reconcile rel)) (fun _ => h_ok rel)
    end
  else h_err (ENew ("unexpected release state " +:+ fmt_q state)).

(** The last part of Apply: watching what was applied. *)
Definition watch_release (rel : HelmRelease) : HR unit :=
  h_bind (h_lift (he_ManifestObjects E rel)) (fun relObjects =>
  match he_Manager E with
  | None => h_panic nil_deref
  | Some Get =>
      h_bind (h_check id (ask HManagerGet Get)) (fun _ =>
      h_check id (ask (HWatch relObjects) (fun h => he_Watch E h relObjects)))
  end).

(** Apply up to the release: everything before returns (false, "", err). *)
Definition apply_new_content (bundleFS : FS) (ext : ClusterExtension) (objectLabels storageLabels : gmap string string)
  : HR HelmRelease :=
  h_bind (h_lift (buildHelmChart bundleFS ext)) (fun chrt =>
  h_bind (match he_PreAuthorizer E with
          | Some PreAuthorize => runPreAuthorizationChecks PreAuthorize ext chrt objectLabels
          | None => h_ok tt
          end) (fun _ =>
  h_bind ActionClientFor (fun _ =>
  let* st := getReleaseState ext chrt objectLabels in
  match st with
  | Panic msg => h_panic msg
  | Ret (inl err) => h_err (EWrap "failed to get release state using server-side dry-run: " err "")
  | Ret (inr (rel, desiredRel, state)) =>
      h_bind (h_lift (GetObjectsFromRelease desiredRel)) (fun objs =>
      h_bind (helm_preflights 0 ext state objs (he_Preflights E)) (fun _ =>
      apply_release ext chrt state rel objectLabels storageLabels))
  end))).

(** func (h *Helm) reconcileExistingRelease(ctx, ac, ext) (bool, string, error):
    errors of the watches are logged. *)
Definition reconcileExistingRelease (ext : ClusterExtension) : IO HH (go (bool * option error)) :=
  let* r := ac_Get (ext_Name ext) in
  match r with
  | (_, Some err) =>
      io_ret (Ret (false, Some (if has_kind KReleaseNotFound err then ENew "catalog content unavailable and no release installed"
                                else EWrap "failed to get current release: " err "")))
  | (None, None) => io_ret (Panic nil_deref)
  | (Some rel, None) =>
      let* err := ac_Reconcile rel in
      match err with
      | Some e => io_ret (Ret (false, Some e))
      | None =>
          let maintained := io_ret (Ret (true, None)) in
          match he_ManifestObjects E rel, he_Manager E with
          | inl _, _ => maintained
          | inr _, None => maintained
          | inr relObjects, Some Get =>
              let* err := ask HManagerGet Get in
              match err, he_Watcher E with
              | Some _, _ => maintained
              | None, false => maintained
              | None, true =>
                  let* _ := ask (HWatch relObjects) (fun h => he_Watch E h relObjects) in maintained
              end
          end
      end
  end.

(** func (h *Helm) Apply(ctx, contentFS, ext, objectLabels, storageLabels) (bool, string, error):
    the message is always empty. *)
Definition Helm_Apply (contentFS : option FS) (ext : ClusterExtension) (objectLabels storageLabels : gmap string string)
  : IO HH (go (bool * option error)) :=
  match contentFS with
  | None =>
      let* r := ActionClientFor in
      match r with
      | Panic msg => io_ret (Panic msg)
      | Ret (inl err) => io_ret (Ret (false, Some err))
      | Ret (inr _) => reconcileExistingRelease ext
      end
  | Some bundleFS =>
      let* r := apply_new_content bundleFS ext objectLabels storageLabels in
      match r with
      | Panic msg => io_ret (Panic msg)
      | Ret (inl err) => io_ret (Ret (false, Some err))
      | Ret (inr rel) =>
          let* w := watch_release rel in
          io_ret (match w with
                  | Panic msg => Panic msg
                  | Ret (inl err) => Ret (true, Some err)
                  | Ret (inr _) => Ret (true, None)
                  end)
      end
  end.

End Helm.

(** ** The post-renderer *)

Section PostRenderer.
Context `{UA : UnstructuredAPI}.
(* the documents a YAML decoder finds, and the error that ended it, if it was
   not the end of the text; json.Marshal *)
Context (decode : string -> list Unstructured * option error) (MarshalJSON : Unstructured -> result string).

Fixpoint render_labels (labels : gmap string string) (objs : list Unstructured) (err : option error) (buf : string)
  : result string :=
  match objs with
  | [] => match err with Some e => inl e | None => inr buf end
  | obj :: rest =>
      let obj := u_SetLabels (Some (MergeMaps (default ∅ (u_GetLabels obj)) labels)) obj in
      match MarshalJSON obj with
      | inl e => inl e
      | inr b => render_labels labels rest err (buf +:+ b)
      end
  end.

(** func (p *postrenderer) Run(renderedManifests) (_, error) *)
Definition postrenderer_Run (labels : gmap string string) (cascade : option (string -> result string))
    (renderedManifests : string) : result string :=
  let '(objs, err) := decode renderedManifests in
  match render_labels labels objs err EmptyString with
  | inl e => inl e
  | inr buf => match cascade with Some run => run buf | None => inr buf end
  end.

End PostRenderer.

Arguments hevent : clear implicits.
Arguments HH : clear implicits.
Arguments HelmEnv : clear implicits.
Arguments HelmPreflight : clear implicits.
