(* ===== verification/HelmProps.v ===== *)
(** * Correctness of the Helm applier

    What an application asks of Helm: nothing that changes the cluster before
    the permissions are granted and the preflights passed, then one call at
    most, the one the dry run decided on; and what an application without
    content does with the release that is there. *)

From Stdlib Require Import Ascii.
From S2P Require Import Prelude GoErrors ApiTypes Phase ExtSteps RevisionGen Rbac Bundle BoxApply GoPath ImageFilter DiskFs ImageCache ImageCacheProps ImagePull HelmApply.

(** ** Translated errors *)

Lemma AsOlmErr_None e : AsOlmErr e = None -> e = None.
Proof. destruct e as [e|]; cbn; [destruct (helmInstallConflictErr e)|]; naive_solver. Qed.

(** A translated error hides the kind of the one it was made from. *)
Lemma AsOlmErr_kind k e : from_option (has_kind k) false (AsOlmErr e) = true ->
  AsOlmErr e = e /\ from_option (has_kind k) false e = true.
Proof.
  destruct e as [e|]; cbn; [|done]. unfold helmInstallConflictErr.
  destruct (FindStringSubmatch (Error e)) as [[[? ?] ?]|]; done.
Qed.

Section Helm.
Context {Chart FS : Type} (E : HelmEnv Chart FS).

Implicit Types (h t : HH Chart) (ev : hevent Chart).

(** The requests that change the cluster: what is not a dry run. *)
Definition mutates (ev : hevent Chart) : bool :=
  match ev with
  | HInstall _ _ _ o _ => negb (io_DryRun o)
  | HUpgrade _ _ _ o _ => negb (uo_DryRun o)
  | HReconcile _ => true
  | _ => false
  end.

Definition silent (t : HH Chart) : Prop := Forall (fun ev => mutates ev = false) t.

(** Helm carries a changing request out. *)
Definition carried_out (h : HH Chart) (ev : hevent Chart) : Prop :=
  match ev with
  | HInstall n ns c o p => let r := he_Install E h n ns c o p in r.2 = None /\ is_Some r.1
  | HUpgrade n ns c o p => let r := he_Upgrade E h n ns c o p in r.2 = None /\ is_Some r.1
  | HReconcile rel => he_Reconcile E h rel = None
  | _ => False
  end.

(** ** The logic of the fallible code *)

(** The postcondition of a run that may fail: [Q] of a value, [F] otherwise. *)
Definition outcome {A} (Q : A -> HH Chart -> Prop) (F : HH Chart -> Prop) (r : go (result A)) (t : HH Chart) : Prop :=
  match r with Ret (inr a) => Q a t | _ => F t end.

Lemma wp_h_bind {A B} h (m : HR A) (k : A -> HR B) Q F :
  wp h m (outcome (fun a t => wp (h ++ t) (k a) (fun r t' => outcome Q F r (t ++ t'))) F) ->
  wp h (h_bind m k) (outcome Q F).
Proof.
  intros Hm. unfold h_bind. apply wp_bind. apply (wp_weaken _ _ _ _ Hm).
  intros [[e|a]|msg] t HQ; cbn in *; [|done|]; (apply wp_ret; cbn; by rewrite app_nil_r).
Qed.

(** A step that cannot change the cluster before the rest. *)
Lemma wp_h_step {A B} h t0 (m : HR A) (k : A -> HR B) (P : A -> HH Chart -> Prop) Q :
  silent t0 ->
  wp h m (outcome (fun a t => silent t /\ P a t) silent) ->
  (forall a t, silent t -> P a t ->
     wp (h ++ t) (k a) (fun r t' => outcome Q silent r (t0 ++ t ++ t'))) ->
  wp h (h_bind m k) (fun r t => outcome Q silent r (t0 ++ t)).
Proof.
  intros H0 Hm Hk. unfold h_bind. apply wp_bind. apply (wp_weaken _ _ _ _ Hm).
  intros [[e|a]|msg] t HQ; cbn in *.
  - apply wp_ret. cbn. rewrite app_nil_r. by apply Forall_app.
  - destruct HQ. by apply Hk.
  - apply wp_ret. cbn. rewrite app_nil_r. by apply Forall_app.
Qed.

Lemma wp_h_lift {A} h (r : result A) : wp h (h_lift r) (outcome (fun a t => t = [] /\ r = inr a) (fun t => t = [])).
Proof. apply wp_ret. by destruct r. Qed.

Lemma wp_h_check h (ev : hevent Chart) ctx (f : HH Chart -> option error) :
  wp h (h_check ctx (ask ev f)) (outcome (fun _ t => t = [ev] /\ f h = None) (fun t => t = [ev])).
Proof. apply wp_bind, wp_ask, wp_ret. by destruct (f h). Qed.

Lemma silent_one ev : mutates ev = false -> silent [ev].
Proof. intros H. by apply Forall_singleton. Qed.

Lemma silent_nil : silent [].
Proof. by apply Forall_nil. Qed.

Lemma silent_cons ev t : mutates ev = false -> silent t -> silent (ev :: t).
Proof. intros. by apply Forall_cons. Qed.

Lemma silent_app t1 t2 : silent t1 -> silent t2 -> silent (t1 ++ t2).
Proof. intros. by apply Forall_app. Qed.

Hint Resolve silent_one silent_nil silent_cons silent_app : core.

(** ** What is known before the call *)

(** The request is in the trace, and [P] holds of the history it met. *)
Definition asked (h t : HH Chart) (ev : hevent Chart) (P : HH Chart -> Prop) : Prop :=
  exists ta tb, t = ta ++ ev :: tb /\ P (h ++ ta).

Lemma asked_app h t0 t ev P : asked (h ++ t0) t ev P -> asked h (t0 ++ t) ev P.
Proof.
  intros (ta & tb & -> & HP). exists (t0 ++ ta), tb. by rewrite !app_assoc in *.
Qed.

Lemma asked_more h t t' ev P : asked h t ev P -> asked h (t ++ t') ev P.
Proof. intros (ta & tb & -> & HP). exists ta, (tb ++ t'). by rewrite <- app_assoc. Qed.

Lemma asked_here h t ev P : P h -> asked h (ev :: t) ev P.
Proof. intros HP. exists [], t. by rewrite app_nil_r. Qed.

Hint Resolve asked_app asked_more asked_here : core.

Context (ext : ClusterExtension) (objectLabels storageLabels : gmap string string).
Local Notation name := (ext_Name ext).
Local Notation ns := (es_Namespace (ext_Spec ext)).

(** The permissions of what is rendered are granted. *)
Definition permitted (chrt : Chart) (h t : HH Chart) : Prop :=
  match he_PreAuthorizer E with
  | None => True
  | Some PreAuthorize => exists isUpgrade rel perms,
      asked h t (HInstall name ns chrt (client_only name isUpgrade) objectLabels)
        (fun h => he_Install E h name ns chrt (client_only name isUpgrade) objectLabels = (Some rel, None)) /\
      perms = extManagementPerms ext (getUserInfo ext) /\
      asked h t (HPreAuthorize (getUserInfo ext) (rel_Manifest rel) perms)
        (fun h => PreAuthorize h (getUserInfo ext) (rel_Manifest rel) perms = ([], None))
  end.

(** Every preflight that is not skipped passed on the objects. *)
Definition preflights_passed (upgrade : bool) (objs : list Unstructured) (h t : HH Chart) : Prop :=
  forall i pf, he_Preflights E !! i = Some pf -> shouldSkipPreflight (hp_isCRDUpgradeSafety pf) ext = false ->
    if upgrade then asked h t (HPreflightUpgrade i objs) (fun h => hp_Upgrade pf h objs = None)
    else asked h t (HPreflightInstall i objs) (fun h => hp_Install pf h objs = None).

(** The objects a dry run gives. *)
Definition dry_objects (d : option HelmRelease) (objs : list Unstructured) : Prop :=
  match d with None => objs = [] | Some d => he_ManifestObjects E d = inr objs end.

(** The release to bring about differs from the one that is there, or the one
    that is there did not succeed. *)
Definition drifted (c d : HelmRelease) : Prop :=
  rel_Manifest d <> rel_Manifest c \/ rel_Status c = Some "failed" \/ rel_Status c = Some "superseded".

(** The call an application makes, by what it found. *)
Definition warranted (chrt : Chart) (h t : HH Chart) (ev : hevent Chart) : Prop :=
  (* no release: it is installed *)
  (ev = HInstall name ns chrt (real_install storageLabels) objectLabels /\
   exists e d objs,
     asked h t (HGet name) (fun h => (he_Get E h name).2 = Some e /\ has_kind KReleaseNotFound e = true) /\
     asked h t (HInstall name ns chrt server_dry_run objectLabels)
       (fun h => he_Install E h name ns chrt server_dry_run objectLabels = (d, None)) /\
     dry_objects d objs /\ preflights_passed false objs h t) \/
  (exists c d,
     asked h t (HGet name) (fun h => he_Get E h name = (Some c, None)) /\
     asked h t (HUpgrade name ns chrt upgrade_dry_run objectLabels)
       (fun h => he_Upgrade E h name ns chrt upgrade_dry_run objectLabels = (Some d, None)) /\
     ( (* one that drifted: it is upgraded *)
      (ev = HUpgrade name ns chrt (real_upgrade storageLabels) objectLabels /\ drifted c d /\
       exists objs, he_ManifestObjects E d = inr objs /\ preflights_passed true objs h t) \/
      (* or not: it is maintained *)
      (ev = HReconcile c /\ ~ drifted c d))).

(** ** The steps *)

Lemma AC_spec h : wp h (ActionClientFor E) (outcome (fun _ t => silent t /\ True) silent).
Proof. eapply wp_weaken; [apply wp_h_check|]. intros [[e|[]]|msg] t; cbn; [intros ->|intros [-> _]; split|intros ->]; auto using silent_one. Qed.

Lemma wp_ac_Get h n (Q : option HelmRelease * option error -> HH Chart -> Prop) :
  Q ((he_Get E h n).1, AsOlmErr (he_Get E h n).2) [HGet n] -> wp h (ac_Get E n) Q.
Proof. intros HQ. by apply wp_bind, wp_ask, wp_ret. Qed.

Lemma wp_ac_Install h n m c o p (Q : option HelmRelease * option error -> HH Chart -> Prop) :
  Q ((he_Install E h n m c o p).1, AsOlmErr (he_Install E h n m c o p).2) [HInstall n m c o p] ->
  wp h (ac_Install E n m c o p) Q.
Proof. intros HQ. by apply wp_bind, wp_ask, wp_ret. Qed.

Lemma wp_ac_Upgrade h n m c o p (Q : option HelmRelease * option error -> HH Chart -> Prop) :
  Q ((he_Upgrade E h n m c o p).1, AsOlmErr (he_Upgrade E h n m c o p).2) [HUpgrade n m c o p] ->
  wp h (ac_Upgrade E n m c o p) Q.
Proof. intros HQ. by apply wp_bind, wp_ask, wp_ret. Qed.

Lemma wp_ac_Reconcile h rel (Q : option error -> HH Chart -> Prop) :
  Q (AsOlmErr (he_Reconcile E h rel)) [HReconcile rel] -> wp h (ac_Reconcile E rel) Q.
Proof. intros HQ. by apply wp_bind, wp_ask, wp_ret. Qed.

(** A release the caller goes on with. *)
Lemma release_of_spec h (r : option HelmRelease * option error) :
  wp h (release_of (Chart:=Chart) (r.1, AsOlmErr r.2)) (outcome (fun rel t => t = [] /\ r = (Some rel, None)) (fun t => t = [] /\ ~ (r.2 = None /\ is_Some r.1))).
Proof.
  destruct r as [rel [e|]]; cbn [fst snd].
  - destruct (AsOlmErr (Some e)) eqn:Ea; [|by apply AsOlmErr_None in Ea].
    unfold release_of. destruct rel; apply wp_ret; cbn; naive_solver.
  - destruct rel; apply wp_ret; cbn; [done|]. split; [done|]. intros [_ [? [=]]].
Qed.

Lemma render_spec chrt h :
  wp h (renderClientOnlyRelease E ext chrt objectLabels)
    (outcome (fun rel t => silent t /\ exists isUpgrade,
       asked h t (HInstall name ns chrt (client_only name isUpgrade) objectLabels)
        (fun h => he_Install E h name ns chrt (client_only name isUpgrade) objectLabels = (Some rel, None))) silent).
Proof.
  unfold renderClientOnlyRelease. eapply (wp_h_step _ []); [done|apply AC_spec|].
  intros [] t0 Ht0 _. cbn [app]. apply wp_bind, wp_ac_Get.
  set (isU := fun cur : option HelmRelease => match cur with Some _ => true | None => false end).
  assert (Hin : forall cur h1 t1, silent t1 -> h1 = (h ++ t1) ->
    wp h1 (let* r := ac_Install E name ns chrt (client_only name (isU cur)) objectLabels in release_of r)
      (fun r t' => outcome (fun rel t => silent t /\ exists isUpgrade,
         asked h t (HInstall name ns chrt (client_only name isUpgrade) objectLabels)
           (fun h => he_Install E h name ns chrt (client_only name isUpgrade) objectLabels = (Some rel, None))) silent r (t1 ++ t'))).
  { intros cur h1 t1 Ht1 ->. apply wp_bind, wp_ac_Install.
    eapply wp_weaken; [apply release_of_spec|].
    intros [[e|rel]|msg] t'; cbn.
    - intros [-> _]. auto.
    - intros [-> Hr]. split; [auto|]. exists (isU cur). auto.
    - intros [-> _]. auto. }
  cbn. destruct (he_Get E (h ++ t0) name) as [cur e]; cbn.
  destruct (AsOlmErr e) as [err|].
  - destruct (has_kind KReleaseNotFound err).
    + eapply wp_weaken; [apply (Hin cur _ (t0 ++ [HGet name])); [auto|by rewrite app_assoc]|].
      intros r t'. cbn. by rewrite <- app_assoc.
    + apply wp_ret. cbn. auto.
  - eapply wp_weaken; [apply (Hin cur _ (t0 ++ [HGet name])); [auto|by rewrite app_assoc]|].
    intros r t'. cbn. by rewrite <- app_assoc.
Qed.

Lemma errors_Join_None es : errors_Join es = None -> forall e, e ∈ es -> e = None.
Proof.
  unfold errors_Join. intros H e He. destruct e as [e|]; [|done].
  assert (He' : e ∈ omap id es) by (apply list_elem_of_omap; by exists (Some e)).
  destruct (omap id es); [by apply not_elem_of_nil in He'|done].
Qed.

Lemma format_None missing e : formatPreAuthorizerOutput missing e = None -> missing = [] /\ e = None.
Proof.
  unfold formatPreAuthorizerOutput. destruct (errors_Join _) eqn:Ej; [done|intros _].
  pose proof (errors_Join_None _ Ej) as HJ. split.
  - assert (H1 := HJ _ (list_elem_of_here _ _)). by destruct missing.
  - assert (H2 := HJ _ (list_elem_of_further _ _ _ (list_elem_of_here _ _))). by destruct e.
Qed.

Lemma preauthorization_spec chrt h :
  wp h (match he_PreAuthorizer E with
        | Some PreAuthorize => runPreAuthorizationChecks E PreAuthorize ext chrt objectLabels
        | None => h_ok tt
        end) (outcome (fun _ t => silent t /\ permitted chrt h t) silent).
Proof.
  unfold permitted. destruct (he_PreAuthorizer E) as [PA|]; [|apply wp_ret; cbn; auto].
  unfold runPreAuthorizationChecks. apply wp_bind.
  eapply wp_weaken; [apply render_spec|]. intros [[e|rel]|msg] t; cbn.
  - intros Ht. apply wp_ret. cbn. rewrite app_nil_r. auto.
  - intros [Ht [isU Hr]]. apply wp_bind, wp_ask.
    destruct (formatPreAuthorizerOutput _ _) as [e|] eqn:Ef; apply wp_ret; cbn; [auto|].
    apply format_None in Ef as [Hm He]. split; [auto|]. eexists isU, rel, _. split; [auto|]. split; [done|].
    apply asked_app, asked_here. by rewrite (surjective_pairing (PA _ _ _ _)), Hm, He.
  - intros Ht. apply wp_ret. cbn. rewrite app_nil_r. auto.
Qed.

(** What a state stands for. *)
Definition found (chrt : Chart) (h t : HH Chart) (s : option HelmRelease * option HelmRelease * string) : Prop :=
  let '(c, d, state) := s in
  (state = StateNeedsInstall /\ c = None /\ exists e,
     asked h t (HGet name) (fun h => (he_Get E h name).2 = Some e /\ has_kind KReleaseNotFound e = true) /\
     asked h t (HInstall name ns chrt server_dry_run objectLabels)
       (fun h => he_Install E h name ns chrt server_dry_run objectLabels = (d, None))) \/
  (exists c' d', c = Some c' /\ d = Some d' /\
     asked h t (HGet name) (fun h => he_Get E h name = (Some c', None)) /\
     asked h t (HUpgrade name ns chrt upgrade_dry_run objectLabels)
       (fun h => he_Upgrade E h name ns chrt upgrade_dry_run objectLabels = (Some d', None)) /\
     (state = StateNeedsUpgrade /\ drifted c' d' \/ state = StateUnchanged /\ ~ drifted c' d')).

Lemma found_app chrt h t0 t s : found chrt (h ++ t0) t s -> found chrt h (t0 ++ t) s.
Proof. destruct s as [[c d] st]. unfold found. naive_solver eauto. Qed.

Lemma found_more chrt h t t' s : found chrt h t s -> found chrt h (t ++ t') s.
Proof. destruct s as [[c d] st]. unfold found. naive_solver eauto. Qed.

Lemma release_state_drifted c d st : release_state c d = Ret st ->
  st = StateNeedsUpgrade /\ drifted c d \/ st = StateUnchanged /\ ~ drifted c d.
Proof.
  unfold release_state, drifted. case_bool_decide as Hm; cbn; [|naive_solver].
  destruct (rel_Status c) as [status|]; [|done]. case_bool_decide; case_bool_decide; cbn; intros [= <-]; naive_solver.
Qed.

Lemma getReleaseState_spec chrt h :
  wp h (getReleaseState E ext chrt objectLabels) (outcome (fun s t => silent t /\ found chrt h t s) silent).
Proof.
  unfold getReleaseState. apply wp_bind, wp_ac_Get.
  destruct (he_Get E h name) as [c [e|]] eqn:Eg.
  - cbn [fst snd]. destruct (AsOlmErr (Some e)) as [e'|] eqn:Ea; [|by apply AsOlmErr_None in Ea].
    destruct (has_kind KReleaseNotFound e') eqn:Ek; [|apply wp_ret; cbn; auto].
    pose proof (AsOlmErr_kind KReleaseNotFound (Some e)) as Hk. rewrite Ea in Hk. destruct (Hk Ek) as [[= ->] _].
    apply wp_bind, wp_ac_Install.
    destruct (he_Install E (h ++ [HGet name]) name ns chrt server_dry_run objectLabels) as [d [e'|]] eqn:Ei.
    + cbn [fst snd]. destruct (AsOlmErr (Some e')) as [e''|] eqn:Ea'; [|by apply AsOlmErr_None in Ea'].
      apply wp_ret. cbn. auto.
    + apply wp_ret. cbn. split; [auto|]. left. split; [done|]. split; [done|]. exists e. split.
      * apply asked_here. by rewrite Eg.
      * eapply (asked_app h [_] [_]), asked_here. done.
  - cbn [fst snd AsOlmErr]. apply wp_bind, wp_ac_Upgrade.
    destruct (he_Upgrade E (h ++ [HGet name]) name ns chrt upgrade_dry_run objectLabels) as [d [e'|]] eqn:Eu.
    + cbn [fst snd]. destruct (AsOlmErr (Some e')) as [e''|] eqn:Ea'; [|by apply AsOlmErr_None in Ea'].
      apply wp_ret. cbn. auto.
    + cbn [fst snd AsOlmErr]. destruct c as [c|]; [|apply wp_ret; cbn; auto].
      destruct d as [d|]; [|apply wp_ret; cbn; auto].
      destruct (release_state c d) as [st|msg] eqn:Er; [|apply wp_ret; cbn; auto].
      apply wp_ret. cbn. split; [auto|]. right. exists c, d. do 2 (split; [done|]). split; [by apply asked_here|].
      split; [eapply (asked_app h [_] [_]), asked_here; done|]. by apply release_state_drifted.
Qed.

Lemma helm_preflights_spec state objs pfs : forall i h,
  wp h (helm_preflights i ext state objs pfs)
    (outcome (fun _ t => silent t /\ forall j pf, pfs !! j = Some pf -> shouldSkipPreflight (hp_isCRDUpgradeSafety pf) ext = false ->
        (state = StateNeedsInstall -> asked h t (HPreflightInstall (i + j) objs) (fun h => hp_Install pf h objs = None)) /\
        (state = StateNeedsUpgrade -> asked h t (HPreflightUpgrade (i + j) objs) (fun h => hp_Upgrade pf h objs = None))) silent).
Proof.
  induction pfs as [|pf pfs IH]; intros i h.
  - apply wp_ret. cbn. split; [auto|]. intros j pf Hj. by rewrite lookup_nil in Hj.
  - cbn [helm_preflights]. eapply (wp_h_step _ [] _ _
      (fun _ t => shouldSkipPreflight (hp_isCRDUpgradeSafety pf) ext = false ->
        (state = StateNeedsInstall -> asked h t (HPreflightInstall i objs) (fun h => hp_Install pf h objs = None)) /\
        (state = StateNeedsUpgrade -> asked h t (HPreflightUpgrade i objs) (fun h => hp_Upgrade pf h objs = None)))); [done| |].
    + destruct (shouldSkipPreflight _ _); [apply wp_ret; cbn; split; [auto|done]|].
      destruct (decide (state = StateNeedsInstall)) as [->|].
      { eapply wp_weaken; [apply wp_h_check|]. intros [[e|[]]|msg] t; cbn; [intros ->; auto| |intros ->; auto].
        intros [-> Hr]. split; [auto|]. intros _. split; [auto|done]. }
      destruct (decide (state = StateNeedsUpgrade)) as [->|]; [|apply wp_ret; cbn; split; [auto|done]].
      eapply wp_weaken; [apply wp_h_check|]. intros [[e|[]]|msg] t; cbn; [intros ->; auto| |intros ->; auto].
      intros [-> Hr]. split; [auto|]. intros _. split; [done|auto].
    + intros [] t Ht Hpf. eapply wp_weaken; [apply IH|]. intros [[e|[]]|msg] t'; cbn; [auto| |auto].
      intros [Ht' Hj]. split; [auto|]. intros [|j] pf' Hpf' Hsk; cbn in Hpf'.
      * injection Hpf' as <-. rewrite Nat.add_0_r. destruct (Hpf Hsk) as [Hi Hu]. auto.
      * destruct (Hj j pf' Hpf' Hsk) as [Hi Hu]. rewrite <- Nat.add_succ_comm. auto.
Qed.

(** One call on [ev], and whether it was carried out. *)
Definition called (h : HH Chart) (ev : hevent Chart) (r : go (result HelmRelease)) (t : HH Chart) : Prop :=
  t = [ev] /\ (carried_out h ev <-> exists rel, r = Ret (inr rel)).

Lemma release_called h ev r :
  (carried_out h ev <-> r.2 = None /\ is_Some r.1) ->
  wp (h ++ [ev]) (release_of (r.1, AsOlmErr r.2)) (fun o t => called h ev o ([ev] ++ t)).
Proof.
  intros Hc. eapply wp_weaken; [apply release_of_spec|].
  intros [[e|rel]|msg] t; cbn; intros [-> Hr]; split; try done; rewrite Hc.
  - naive_solver.
  - rewrite Hr. cbn. naive_solver.
  - naive_solver.
Qed.

Lemma apply_release_spec chrt h t c d state objs :
  found chrt h t (c, d, state) ->
  dry_objects d objs ->
  (state = StateNeedsInstall -> preflights_passed false objs h t) ->
  (state = StateNeedsUpgrade -> preflights_passed true objs h t) ->
  wp (h ++ t) (apply_release E ext chrt state c objectLabels storageLabels)
    (fun r t' => exists ev, mutates ev = true /\ warranted chrt h t ev /\ called (h ++ t) ev r t').
Proof.
  intros Hf Hd Hpi Hpu. unfold apply_release.
  destruct Hf as [(-> & -> & e & Hg & Hi)|(c' & d' & -> & -> & Hg & Hu & [[-> Hdr]|[-> Hdr]])].
  - rewrite decide_True by done. apply wp_bind, wp_ac_Install.
    eapply wp_weaken; [by apply release_called|]. intros r t' Hr. eexists. split; [|split; [|exact Hr]]; [done|].
    left. split; [done|]. exists e, d, objs. auto.
  - rewrite decide_False, decide_True by done. apply wp_bind, wp_ac_Upgrade.
    eapply wp_weaken; [by apply release_called|]. intros r t' Hr. eexists. split; [|split; [|exact Hr]]; [done|].
    right. exists c', d'. do 2 (split; [done|]). left. split; [done|]. split; [done|]. exists objs. auto.
  - rewrite decide_False, decide_False, decide_True by done. apply wp_bind, wp_bind, wp_ac_Reconcile.
    apply wp_ret. destruct (he_Reconcile E (h ++ t) c') as [e|] eqn:Er.
    + destruct (AsOlmErr (Some e)) as [e'|] eqn:Ea; [|by apply AsOlmErr_None in Ea].
      apply wp_ret. cbn. exists (HReconcile c'). split; [done|]. split; [right; exists c', d'; auto|].
      split; [done|]. cbn. rewrite Er. naive_solver.
    + apply wp_ret. cbn. exists (HReconcile c'). split; [done|]. split; [right; exists c', d'; auto|].
      split; [done|]. cbn. rewrite Er. naive_solver.
Qed.

Lemma watch_silent rel h : wp h (watch_release E rel) (fun _ t => silent t).
Proof.
  unfold watch_release. eapply (wp_weaken _ _ (outcome (fun _ t => silent t) silent)).
  - apply wp_h_bind. eapply wp_weaken; [apply wp_h_lift|]. intros [[e|objs]|msg] t; cbn; [by intros ->| |by intros ->].
    intros [-> _]. destruct (he_Manager E) as [Get|]; [|apply wp_ret; cbn; auto].
    eapply (wp_weaken _ _ (outcome (fun _ t => silent t) silent)); [|by intros [[e|a]|msg] t].
    apply wp_h_bind. eapply wp_weaken; [apply wp_h_check|]. intros [[e|[]]|msg] t; cbn; [intros ->; auto| |intros ->; auto].
    intros [-> _]. eapply wp_weaken; [apply wp_h_check|]. intros [[e|[]]|msg] t'; cbn; [intros ->|intros [-> _]|intros ->]; auto.
  - by intros [[e|a]|msg] t.
Qed.

(** The release phase of an application: silent, or silent up to one call. *)
Lemma apply_new_content_spec bundleFS h :
  wp h (apply_new_content E bundleFS ext objectLabels storageLabels) (fun r t =>
    (silent t /\ (forall rel, r <> Ret (inr rel))) \/
    exists chrt t1 ev, buildHelmChart E bundleFS ext = inr chrt /\ silent t1 /\ mutates ev = true /\
      permitted chrt h t1 /\ warranted chrt h t1 ev /\ (exists t', t = t1 ++ t' /\ called (h ++ t1) ev r t')).
Proof.
  unfold apply_new_content. apply wp_bind, wp_ret. destruct (buildHelmChart E bundleFS ext) as [e|chrt] eqn:Eb.
  { apply wp_ret. left. split; [auto|done]. }
  rewrite app_nil_r. apply wp_bind. eapply wp_weaken; [apply preauthorization_spec|].
  intros [[e|[]]|msg] t1; cbn [outcome]; [intros Ht; apply wp_ret; rewrite app_nil_r; left; auto| |
    intros Ht; apply wp_ret; rewrite app_nil_r; left; auto].
  intros [Ht1 Hp]. apply wp_bind. eapply wp_weaken; [apply AC_spec|].
  intros [[e|[]]|msg] t2; cbn [outcome]; [intros Ht; apply wp_ret; rewrite app_nil_r; left; auto| |
    intros Ht; apply wp_ret; rewrite app_nil_r; left; auto].
  intros [Ht2 _]. apply wp_bind. eapply wp_weaken; [apply getReleaseState_spec|].
  intros [[e|[[c d] state]]|msg] t3; cbn [outcome]; [intros Ht; apply wp_ret; rewrite app_nil_r; left; auto| |
    intros Ht; apply wp_ret; rewrite app_nil_r; left; auto].
  intros [Ht3 Hf]. apply wp_bind, wp_ret.
  destruct (GetObjectsFromRelease E d) as [e|objs] eqn:Eo; [apply wp_ret; left; cbn; split; [auto|done]|].
  apply wp_bind. eapply wp_weaken; [apply helm_preflights_spec|].
  intros [[e|[]]|msg] t4; cbn [outcome]; [intros Ht; apply wp_ret; rewrite !app_nil_r; left; cbn; auto| |
    intros Ht; apply wp_ret; rewrite !app_nil_r; left; cbn; auto].
  intros [Ht4 Hpf].
  pose (t := t1 ++ t2 ++ t3 ++ t4).
  assert (Heq : (((h ++ t1) ++ t2) ++ t3) ++ [] ++ t4 = h ++ t) by (unfold t; by rewrite <- !app_assoc).
  rewrite app_assoc in Heq. cbn in Heq. rewrite app_nil_r in Heq.
  eapply wp_weaken.
  - rewrite app_nil_r, Heq. eapply (apply_release_spec chrt h t c d state objs).
    + unfold t. rewrite !app_assoc. apply found_more. rewrite <- app_assoc. apply found_app, found_app. done.
    + unfold GetObjectsFromRelease in Eo. destruct d as [d|]; cbn in *; [|naive_solver].
      by destruct (he_ManifestObjects E d); naive_solver.
    + intros Hs i pf Hi Hsk. destruct (Hpf i pf Hi Hsk) as [Hin _]. cbn in Hin |- *. unfold t.
      do 3 apply asked_app. rewrite app_nil_r in Hin. auto.
    + intros Hs i pf Hi Hsk. destruct (Hpf i pf Hi Hsk) as [_ Hup]. cbn in Hup |- *. unfold t.
      do 3 apply asked_app. rewrite app_nil_r in Hup. auto.
  - intros r t' (ev & Hm & Hw & Hc). right. exists chrt, t, ev. split; [done|]. split; [unfold t; auto|].
    split; [done|]. split; [|split; [done|]].
    + unfold permitted in *. destruct (he_PreAuthorizer E); [|done]. unfold t. naive_solver eauto.
    + exists t'. split; [unfold t; cbn; by rewrite <- !app_assoc|done].
Qed.

(** The release that is there, when Helm has it and maintains it. *)
Definition maintained (h : HH Chart) (rel : HelmRelease) : Prop :=
  he_ActionClientFor E h = None /\
  he_Get E (h ++ [HActionClientFor]) name = (Some rel, None) /\
  he_Reconcile E (h ++ [HActionClientFor; HGet name]) rel = None.

Lemma reconcileExisting_spec h : he_ActionClientFor E h = None ->
  wp (h ++ [HActionClientFor]) (reconcileExistingRelease E ext) (fun r t =>
    Forall (fun ev => mutates ev = true -> exists rel, ev = HReconcile rel) t /\
    match r with
    | Ret (true, err) => err = None /\ exists rel, maintained h rel
    | Ret (false, err) => is_Some err /\ ~ (exists rel, maintained h rel)
    | Panic _ => he_Get E (h ++ [HActionClientFor]) name = (None, None)
    end).
Proof.
  intros Hac. unfold reconcileExistingRelease. apply wp_bind, wp_ac_Get. unfold maintained.
  destruct (he_Get E (h ++ [HActionClientFor]) name) as [rel [e|]]; cbn [fst snd].
  { destruct (AsOlmErr (Some e)) eqn:Ea; [|by apply AsOlmErr_None in Ea].
    destruct rel; apply wp_ret; (split; [by apply Forall_singleton|]; split; [done|naive_solver]). }
  destruct rel as [rel|]; [|by apply wp_ret; cbn; split; [apply Forall_singleton|]].
  apply wp_bind, wp_ac_Reconcile.
  replace ((h ++ [HActionClientFor]) ++ [HGet name]) with (h ++ [HActionClientFor; HGet name]) by (by rewrite <- app_assoc).
  destruct (he_Reconcile E (h ++ [HActionClientFor; HGet name]) rel) as [e|] eqn:Er.
  { destruct (AsOlmErr (Some e)) eqn:Ea; [|by apply AsOlmErr_None in Ea].
    apply wp_ret. split; [by repeat constructor; eauto|]. split; [done|naive_solver]. }
  cbn [AsOlmErr].
  assert (Hok : forall t, Forall (fun ev => mutates ev = true -> exists rel, ev = HReconcile rel) t ->
    Forall (fun ev : hevent Chart => mutates ev = true -> exists rel, ev = HReconcile rel) ([HGet name; HReconcile rel] ++ t) /\
    @None error = None /\ exists rel, he_ActionClientFor E h = None /\ (Some rel, @None error) = (Some rel, None) /\
      he_Reconcile E (h ++ [HActionClientFor; HGet name]) rel = None).
  { intros t Ht. split; [by repeat (constructor; [cbn; eauto|])|]. split; [done|]. by exists rel. }
  assert (Hok' : exists rel0, he_ActionClientFor E h = None /\ (Some rel, @None error) = (Some rel0, None) /\
      he_Reconcile E (h ++ [HActionClientFor; HGet name]) rel0 = None) by (by exists rel).
  destruct (he_ManifestObjects E rel) as [e|objs]; [apply wp_ret; split; [apply (Hok []); constructor|done]|].
  destruct (he_Manager E) as [Get|]; [|apply wp_ret; split; [apply (Hok []); constructor|done]].
  apply wp_bind, wp_ask. destruct (Get _) as [e|]; [apply wp_ret; split; [by apply (Hok [HManagerGet]); repeat constructor|done]|].
  destruct (he_Watcher E); [|apply wp_ret; split; [by apply (Hok [HManagerGet]); repeat constructor|done]].
  apply wp_bind, wp_ask, wp_ret. split; [by apply (Hok [HManagerGet; HWatch objs]); repeat constructor|done].
Qed.

(** ** The properties *)

(** C12. Applying a bundle: nothing changes the cluster before the permissions
    of what Helm renders were granted (when there is a pre-authorizer) and every
    preflight that is not skipped passed on the objects of the server's dry run;
    then there is one changing request at most: an installation when there is no
    release, an upgrade, carrying the storage labels and the object labels, when
    the dry run differs from the release or the release failed or was
    superseded, and a reconciliation of the release otherwise.  The application
    reports the bundle as rolled out exactly if that request was carried out,
    whatever happens to the watches afterwards. *)
Theorem Helm_Apply_once bundleFS h :
  wp h (Helm_Apply E (Some bundleFS) ext objectLabels storageLabels) (fun r t =>
    (silent t /\ forall b err, r = Ret (b, err) -> b = false /\ is_Some err) \/
    exists chrt t1 ev t2, t = t1 ++ ev :: t2 /\ silent t1 /\ mutates ev = true /\ silent t2 /\
      buildHelmChart E bundleFS ext = inr chrt /\ permitted chrt h t1 /\ warranted chrt h t1 ev /\
      forall b err, r = Ret (b, err) -> (b = true <-> carried_out (h ++ t1) ev) /\ (b = false -> is_Some err)).
Proof.
  cbn [Helm_Apply]. apply wp_bind. eapply wp_weaken; [apply apply_new_content_spec|].
  intros r t [[Ht Hr]|(chrt & t1 & ev & Hb & Ht1 & Hm & Hp & Hw & t' & -> & -> & Hc)].
  - destruct r as [[e|rel]|msg]; [|by destruct (Hr rel)|]; apply wp_ret; rewrite app_nil_r; left; split; [done| |done|done].
    by intros b err [= <- <-].
  - destruct r as [[e|rel]|msg].
    + apply wp_ret. right. exists chrt, t1, ev, []. rewrite app_nil_r. do 7 (split; [done|]).
      intros b err [= <- <-]. split; [|done]. rewrite Hc. naive_solver.
    + apply wp_bind. eapply wp_weaken; [apply watch_silent|]. intros w t2 Ht2. apply wp_ret. right.
      exists chrt, t1, ev, t2. rewrite app_nil_r. split; [by rewrite <- app_assoc|]. do 6 (split; [done|]).
      intros b err Hw'. assert (b = true) as -> by (destruct w as [[?|?]|?]; congruence).
      split; [|done]. split; [intros _; apply Hc; by exists rel|done].
    + apply wp_ret. right. exists chrt, t1, ev, []. rewrite app_nil_r. do 7 (split; [done|]). done.
Qed.

(** Without content, when a catalog is gone: the application neither
    installs nor upgrades, and reconciles at most the release that is there.
    It succeeds exactly if Helm has a release and maintains it, and then without
    an error, whatever happens to the watches; it panics only when Helm answers
    neither a release nor an error. *)
Theorem Helm_Apply_maintains h :
  wp h (Helm_Apply E None ext objectLabels storageLabels) (fun r t =>
    Forall (fun ev => mutates ev = true -> exists rel, ev = HReconcile rel) t /\
    match r with
    | Ret (true, err) => err = None /\ exists rel, maintained h rel
    | Ret (false, err) => is_Some err /\ ~ (exists rel, maintained h rel)
    | Panic _ => he_Get E (h ++ [HActionClientFor]) name = (None, None)
    end).
Proof.
  cbn [Helm_Apply]. apply wp_bind, wp_bind, wp_ask, wp_ret.
  destruct (he_ActionClientFor E h) as [e|] eqn:Eac.
  - apply wp_ret. cbn. split; [by apply Forall_singleton|]. split; [done|]. unfold maintained. naive_solver.
  - rewrite app_nil_r. eapply wp_weaken; [by apply reconcileExisting_spec|].
    intros r t [Ht Hr]. split; [|done]. cbn. by constructor.
Qed.

End Helm.
