(* ===== verification/CatalogCache.v ===== *)
(** * The catalog client and its cache

    src/internal/operator-controller/catalogmetadata/cache/cache.go,
    catalogmetadata/client/client.go and
    controllers/clustercatalog_controller.go: fetching the content of a catalog
    from catalogd, keeping it in files, one per meta, and loading packages.

    The base directory of [DiskFs] is the cache path; a catalog name is one path
    element.  What the cache remembers, and the history of its disk, is the
    state [CacheState]; Put, Get and Remove hold the cache's lock, so that each
    is one step.  The parser of a catalog (declcfg.WalkMetasReader) is known by
    the metas it delivers and the error that ended it, declcfg.LoadFS by what it
    makes of the files of a tree, and HTTP by [HttpEnv]. *)

From Stdlib Require Import Ascii.
From S2P Require Import Prelude GoErrors ApiTypes CatalogIndex GoPath DiskFs ImageFilter ImageCache.

(** ** cache.go *)

(** type cacheData struct *)
Record cacheData := mkCacheData { cd_Ref : string; cd_Error : option error }.

Record CacheState := mkCacheState {
  cacheDataByCatalogName : gmap string cacheData;
  cs_disk : Hist;
}.

Definition cacheDir (catalogName : string) : path := [catalogName].

Definition tmp_prefix (catalogName : string) : string := "." +:+ catalogName +:+ "-".

(** The element names of a meta's file below the temporary directory. *)
Definition meta_pkg (m : Meta) : string := if bool_decide (mt_Schema m = "olm.package") then mt_Name m else mt_Package m.
Definition meta_file (m : Meta) : string :=
  (if bool_decide (mt_Name m = EmptyString) then mt_Schema m else mt_Name m) +:+ ".json".

(** filepath.Join(tmpDir, pkgName, meta.Schema, metaName+".json"); [None] if it
    leaves the cache path. *)
Definition meta_path (tmpDir : path) (m : Meta) : option path :=
  join_below tmpDir (meta_pkg m +:+ "/" +:+ mt_Schema m +:+ "/" +:+ meta_file m).

Definition ModePerm : Z := 511. (* 0777 *)
Definition metaMode : Z := 384. (* 0600 *)

(** fmt.Errorf with the verb v: the text of the error only. *)
Definition flat (pre : string) (e : error) : error := ENew (pre +:+ Error e).

Section Cache.
Context (E : OsEnv).

Fixpoint remove_orphan_dirs (prefix : string) (names : list string) : IO Hist (option error) :=
  match names with
  | [] => io_ret None
  | name :: rest =>
      if strings_HasPrefix name prefix then
        let* err := RemoveAll E [name] in
        match err with
        | Some e => io_ret (Some (EWrap ("error removing orphaned temp directory " +:+ fmt_q name +:+ ": ") e ""))
        | None => remove_orphan_dirs prefix rest
        end
      else remove_orphan_dirs prefix rest
  end.

(** func (fsc *filesystemCache) removeOrphanedTempDirs(catalogName string) error *)
Definition removeOrphanedTempDirs (catalogName : string) : IO Hist (option error) :=
  let* entries := ReadDir E [] in
  match entries with
  | inl err => io_ret (if has_kind KNotExist err then None else Some (EWrap "error reading cache directory: " err ""))
  | inr names => remove_orphan_dirs (tmp_prefix catalogName) names
  end.

(** The callback of writeFS for a meta; what lies outside the cache path is not
    modelled, and counts as not writable. *)
Definition write_meta (tmpDir : path) (m : Meta) : IO Hist (option error) :=
  match meta_path tmpDir m with
  | None => io_ret (Some (flat "error creating directory for catalog metadata: " perm_denied))
  | Some metaPath =>
      let* err := MkdirAll E (parent metaPath) ModePerm in
      match err with
      | Some e => io_ret (Some (flat "error creating directory for catalog metadata: " e))
      | None =>
          let* err := WriteFile E metaPath (mt_Blob m) metaMode in
          io_ret (flat "error writing catalog metadata to file: " <$> err)
      end
  end.

Fixpoint write_metas (tmpDir : path) (metas : list Meta) : IO Hist (option error) :=
  match metas with
  | [] => io_ret None
  | m :: rest =>
      let* err := write_meta tmpDir m in
      match err with Some e => io_ret (Some e) | None => write_metas tmpDir rest end
  end.

(** The part of writeFS between the creation of the temporary directory and its
    deferred removal. *)
Definition write_tmp (catalogName : string) (tmpDir : path) (source : list Meta * option error) : IO Hist (result path) :=
  let* err := write_metas tmpDir source.1 in
  match err, source.2 with
  | Some e, _ => io_ret (inl e)
  | None, Some e => io_ret (inl (flat "error parsing catalog contents: " e))
  | None, None =>
      let* err := RemoveAll E (cacheDir catalogName) in
      match err with
      | Some e => io_ret (inl (flat "error removing old cache directory: " e))
      | None =>
          let* err := Rename E tmpDir (cacheDir catalogName) in
          io_ret (match err with
                  | Some e => inl (flat "error moving temporary directory to cache directory: " e)
                  | None => inr (cacheDir catalogName)
                  end)
      end
  end.

(** func (fsc *filesystemCache) writeFS(catalogName string, source io.Reader) (fs.FS, error) *)
Definition writeFS (catalogName : string) (source : list Meta * option error) : IO Hist (result path) :=
  let* err := removeOrphanedTempDirs catalogName in
  match err with
  | Some e => io_ret (inl e)
  | None =>
      let* r := MkdirTemp E [] (tmp_prefix catalogName) in
      match r with
      | inl e => io_ret (inl (flat "error creating temporary directory to unpack catalog metadata: " e))
      | inr tmpDir =>
          let* r := write_tmp catalogName tmpDir source in
          let* _ := RemoveAll E tmpDir in
          io_ret r
      end
  end.

Definition on_disk {A} (m : IO Hist A) : IO CacheState A :=
  fun s => let '(a, h) := m (cs_disk s) in (a, mkCacheState (cacheDataByCatalogName s) h).

Definition set_data_of (catalogName : string) (d : option cacheData) : IO CacheState unit :=
  fun s => (tt, mkCacheState (match d with
                              | Some d => <[catalogName := d]> (cacheDataByCatalogName s)
                              | None => delete catalogName (cacheDataByCatalogName s)
                              end) (cs_disk s)).

(** func (fsc *filesystemCache) Put(catalogName, resolvedRef, source, errToCache) (fs.FS, error);
    the source is the stream, or the error to cache. *)
Definition Cache_Put (catalogName resolvedRef : string) (source : error + (list Meta * option error))
  : IO CacheState (result path) :=
  let* r := match source with
            | inl errToCache => io_ret (inl errToCache)
            | inr source => on_disk (writeFS catalogName source)
            end in
  let* _ := set_data_of catalogName
              (Some (mkCacheData resolvedRef (match r with inl e => Some e | inr _ => None end))) in
  io_ret r.

(** func (fsc *filesystemCache) Get(catalogName, resolvedRef string) (fs.FS, error) *)
Definition Cache_Get (s : CacheState) (catalogName resolvedRef : string) : result (option path) :=
  match cacheDataByCatalogName s !! catalogName with
  | Some data =>
      if decide (resolvedRef = cd_Ref data) then
        match cd_Error data with
        | Some e => inl e
        | None => inr (Some (cacheDir catalogName))
        end
      else inr None
  | None => inr None
  end.

(** func (fsc *filesystemCache) Remove(catalogName string) error *)
Definition Cache_Remove (catalogName : string) : IO CacheState (option error) :=
  let* s := (fun s => (s, s)) in
  match cacheDataByCatalogName s !! catalogName with
  | None => io_ret None
  | Some _ =>
      let* err := on_disk (RemoveAll E (cacheDir catalogName)) in
      match err with
      | Some e => io_ret (Some (flat "error removing cache directory: " e))
      | None => let* _ := set_data_of catalogName None in io_ret None
      end
  end.

(** ** client.go *)

Context {FBC : Type}.
Context `{CA : ConditionsAPI}.

(** The stream of a response: its status, and the catalog its body holds. *)
Record Response := mkResponse { StatusCode : Z; Body : list Meta * option error }.

Record HttpEnv := mkHttpEnv {
  ht_client : list string -> option error;               (* c.httpClient() *)
  ht_JoinPath : string -> string -> result string;       (* url.JoinPath *)
  ht_NewRequest : string -> option error;
  ht_Do : list string -> string -> result Response;
  (* declcfg.LoadFS on the files of a tree; the empty configuration *)
  ht_LoadFS : gmap path string -> result FBC;
  ht_empty : FBC;
}.

Context (H : HttpEnv).

(** The cache, and the requests that were sent. *)
Abbreviation ClientWorld := (CacheState * list string)%type.

Definition on_cache_state {A} (m : IO CacheState A) : IO ClientWorld A :=
  fun w => let '(a, s) := m w.1 in (a, (s, w.2)).

Definition clusterCatalogV1ApiURL : string := "api/v1/all".
Definition StatusOK : Z := 200.

(** meta.IsStatusConditionPresentAndEqual *)
Definition is_serving (catalog : ClusterCatalog) : bool :=
  match FindStatusCondition (cst_Conditions (cat_Status catalog)) "Serving" with
  | Some c => bool_decide (c_Status c = ConditionTrue)
  | None => false
  end.

(** func validateCatalog(catalog) error: the reference of the resolved image,
    or the error. *)
Definition validateCatalog (catalog : option ClusterCatalog) : result (ClusterCatalog * string) :=
  match catalog with
  | None => inl (ENew "error: provided catalog must be non-nil")
  | Some catalog =>
      if negb (is_serving catalog) then inl (ENew ("catalog " +:+ fmt_q (cat_Name catalog) +:+ " is not being served"))
      else
        match cst_ResolvedSource (cat_Status catalog) with
        | None => inl (ENew ("error: catalog " +:+ fmt_q (cat_Name catalog) +:+ " has a nil status.resolvedSource value"))
        | Some src =>
            match res_Image src with
            | None => inl (ENew ("error: catalog " +:+ fmt_q (cat_Name catalog) +:+ " has a nil status.resolvedSource.image value"))
            | Some ref => inr (catalog, ref)
            end
        end
  end.

(** fs.ValidPath, for a path other than ".". *)
Definition valid_elem (s : string) : bool :=
  negb (bool_decide (s = EmptyString)) && negb (bool_decide (s = ".")) && negb (bool_decide (s = dotdot)).

(** fs.Sub(catalogFsys, pkgName): the directory, or the error. *)
Definition fs_Sub (dir : path) (pkgName : string) : result path :=
  if bool_decide (pkgName = ".") then inr dir
  else
    let segs := strings_Split slash pkgName in
    if forallb valid_elem segs then inr (dir ++ segs)
    else inl (ENew ("sub " +:+ pkgName +:+ ": invalid argument")).

(** The regular files below a path, by their paths from there. *)
Definition files_below (root : path) (fs : Fs) : gmap path string :=
  list_to_map (omap (fun '(p, n) =>
    match n with
    | NFile _ data => if under root p then Some (drop (length root) p, data) else None
    | _ => None
    end) (map_to_list fs)).

(** declcfg.LoadFS on a directory: a directory that is not there is
    fs.ErrNotExist. *)
Definition LoadFS (root : path) (fs : Fs) : result FBC :=
  match find_node fs root with
  | inl e => inl e
  | inr _ => ht_LoadFS H (files_below root fs)
  end.

(** func (c *Client) GetPackage(ctx, catalog, pkgName) (_, error);
    the files are read after the cache gave its lock back, so that the disk may
    be any later one. *)
Definition GetPackage (s : CacheState) (later : Fs) (catalog : option ClusterCatalog) (pkgName : string) : result FBC :=
  match validateCatalog catalog with
  | inl err => inl err
  | inr (catalog, ref) =>
      match Cache_Get s (cat_Name catalog) ref with
      | inl err => inl (flat ("error retrieving cache for catalog " +:+ fmt_q (cat_Name catalog) +:+ ": ") err)
      | inr None => inl (ENew ("cache for catalog " +:+ fmt_q (cat_Name catalog) +:+ " not found"))
      | inr (Some catalogFsys) =>
          match fs_Sub catalogFsys pkgName with
          | inl err =>
              if has_kind KNotExist err then inr (ht_empty H)
              else inl (flat ("error getting package " +:+ fmt_q pkgName +:+ ": ") err)
          | inr pkgFsys =>
              match LoadFS pkgFsys later with
              | inl err =>
                  if has_kind KNotExist err then inr (ht_empty H)
                  else inl (flat ("error loading package " +:+ fmt_q pkgName +:+ ": ") err)
              | inr pkgFBC => inr pkgFBC
              end
          end
      end
  end.

(** func (c *Client) doRequest(ctx, catalog) (_, error) *)
Definition doRequest (catalog : ClusterCatalog) : IO ClientWorld (result Response) :=
  match cst_URLs (cat_Status catalog) with
  | None => io_ret (inl (ENew ("error: catalog " +:+ fmt_q (cat_Name catalog) +:+ " has a nil status.urls value")))
  | Some base =>
      match ht_JoinPath H base clusterCatalogV1ApiURL with
      | inl err => io_ret (inl (flat "error forming catalogd API endpoint: " err))
      | inr catalogdURL =>
          match ht_NewRequest H catalogdURL with
          | Some err => io_ret (inl (flat "error forming request: " err))
          | None => fun w =>
              match ht_client H w.2 with
              | Some err => (inl (flat "error getting HTTP client: " err), w)
              | None =>
                  (match ht_Do H w.2 catalogdURL with
                   | inl err => inl (flat "error performing request: " err)
                   | inr resp => inr resp
                   end, (w.1, w.2 ++ [catalogdURL]))
              end
          end
      end
  end.

(** func (c *Client) PopulateCache(ctx, catalog) (fs.FS, error) *)
Definition PopulateCache (catalog : option ClusterCatalog) : IO ClientWorld (result path) :=
  match validateCatalog catalog with
  | inl err => io_ret (inl err)
  | inr (catalog, ref) =>
      let* r := doRequest catalog in
      match r with
      | inl err => on_cache_state (Cache_Put (cat_Name catalog) ref (inl err))
      | inr resp =>
          if negb (StatusCode resp =? StatusOK) then
            on_cache_state (Cache_Put (cat_Name catalog) ref
              (inl (ENew ("error: received unexpected response status code " +:+ pretty (StatusCode resp)))))
          else on_cache_state (Cache_Put (cat_Name catalog) ref (inr (Body resp)))
      end
  end.

(** ** clustercatalog_controller.go *)

(** func (r *ClusterCatalogReconciler) Reconcile(ctx, req) (ctrl.Result, error);
    [existing] is the answer of the API server. *)
Definition Catalog_Reconcile (name : string) (existing : result ClusterCatalog) : IO ClientWorld (option error) :=
  match existing with
  | inl err =>
      if has_kind KNotFound err then
        let* err := on_cache_state (Cache_Remove name) in
        io_ret (flat ("error removing cache for catalog " +:+ fmt_q name +:+ ": ") <$> err)
      else io_ret (Some err)
  | inr existingCatalog =>
      let populate :=
        let* r := PopulateCache (Some existingCatalog) in
        io_ret (match r with
                | inl err => Some (flat ("error populating cache for catalog " +:+ fmt_q (cat_Name existingCatalog) +:+ ": ") err)
                | inr _ => None
                end) in
      match cst_ResolvedSource (cat_Status existingCatalog) with
      | Some (mkResolvedSource _ (Some ref)) =>
          if bool_decide (ref = EmptyString) then io_ret None
          else
            let* w := (fun w => (w, w)) in
            match Cache_Get w.1 (cat_Name existingCatalog) ref with
            | inr (Some _) => io_ret None
            | _ => populate
            end
      | _ => io_ret None
      end
  end.

End Cache.

Arguments HttpEnv : clear implicits.
