(* ===== verification/CatalogCacheProps.v ===== *)
(** * Correctness of the catalog client and its cache

    However the operating system fails, what the cache answers for a catalog is
    what the last Put wrote, completely, and the other catalogs are untouched;
    on a disk that works a Put succeeds, and a package that is loaded afterwards
    consists of exactly the metas of that package; and what a catalog with
    unchecked names does to another one. *)

From Stdlib Require Import Ascii.
From S2P Require Import Prelude GoErrors ApiTypes CatalogIndex GoPath DiskFs DiskProps ImageFilter ImageCache CatalogCache.

(** ** Names *)

(** One element of a path. *)
Definition name_ok (s : string) : Prop := seg_ok s /\ s <> dotdot.

(** A catalog name: an element that does not start with a dot. *)
Definition catalog_ok (c : string) : Prop := name_ok c /\ strings_HasPrefix c "." = false.

(** A meta whose file is three elements below the catalog. *)
Definition clean_meta (m : Meta) : Prop :=
  name_ok (meta_pkg m) /\ name_ok (mt_Schema m) /\ str_has slash (mt_Name m) = false.

Definition meta_segs (m : Meta) : path := [meta_pkg m; mt_Schema m; meta_file m].

Lemma meta_file_ok m : clean_meta m -> name_ok (meta_file m).
Proof.
  intros (_ & [(_ & _ & Hs) _] & Hn). unfold meta_file. set (b := if bool_decide _ then _ else _).
  assert (Hb : str_has slash b = false) by (unfold b; by case_bool_decide).
  split; [split_and!|].
  - by destruct b.
  - intros H. apply (f_equal String.length) in H. rewrite length_app_str in H. cbn in H. lia.
  - rewrite str_has_app, Hb. done.
  - intros H. apply (f_equal String.length) in H. rewrite length_app_str in H. cbn in H. lia.
Qed.

Lemma meta_path_clean tmp m : Forall name_ok tmp -> clean_meta m -> meta_path tmp m = Some (tmp ++ meta_segs m).
Proof.
  intros Ht Hm. pose proof (meta_file_ok m Hm) as Hf. destruct Hm as (Hp & Hs & _).
  unfold meta_path, join_below.
  assert (Hsp : strings_Split slash (meta_pkg m +:+ "/" +:+ mt_Schema m +:+ "/" +:+ meta_file m) = meta_segs m).
  { apply (Split_slash_join (meta_segs m)); [done|].
    apply Forall_cons; split; [apply Hp|]. apply Forall_cons; split; [apply Hs|]. apply Forall_singleton, Hf. }
  rewrite Hsp.
  assert (Hsegs : Forall name_ok (meta_segs m)) by (apply Forall_cons; split; [done|]; apply Forall_cons; split; [done|]; by apply Forall_singleton).
  assert (Hall : Forall name_ok (tmp ++ meta_segs m)) by (by apply Forall_app).
  assert (Hcl : rev (foldl (clean_step false) (rev tmp) (meta_segs m)) = tmp ++ meta_segs m).
  { rewrite foldl_push; [by rewrite rev_app_distr, !rev_involutive| |];
    (eapply Forall_impl; [exact Hsegs|]; intros x [? ?]; done). }
  rewrite Hcl. destruct (tmp ++ meta_segs m) as [|x l] eqn:El; [by destruct tmp|].
  inversion Hall as [|? ? [_ Hx] _]; subst. by rewrite bool_decide_eq_false_2.
Qed.

(** ** Files of a tree *)

Lemma lookup_files_below (root : path) (fs : Fs) (r : path) :
  files_below root fs !! r = match fs !! (root ++ r) with Some (NFile _ d) => Some d | _ => None end.
Proof.
  unfold files_below. set (f := fun '(p, n) => _). set (l := omap f (map_to_list fs)).
  assert (Hl : forall r' d, (r', d) ∈ l <-> exists mode, fs !! (root ++ r') = Some (NFile mode d)).
  { intros r' d. unfold l. rewrite list_elem_of_omap. split.
    - intros ([p n] & Hp%elem_of_map_to_list & Hf). destruct n as [mode d'| | |]; try done. cbn in Hf.
      destruct (under root p) eqn:Hu; [|done]. injection Hf as <- <-. rewrite <- under_drop by done. eauto.
    - intros [mode Hp]. exists (root ++ r', NFile mode d). split; [by apply elem_of_map_to_list|].
      cbn. by rewrite under_app, drop_app_length. }
  apply option_eq. intros d. destruct (fs !! (root ++ r)) as [n|] eqn:En.
  - destruct n as [mode d'| | |]; cbn.
    + rewrite <- elem_of_list_to_map'; [rewrite Hl; naive_solver|]. intros y [m Hy]%Hl. naive_solver.
    + split; [|done]. intros H%elem_of_list_to_map_2. apply Hl in H as [m H]. congruence.
    + split; [|done]. intros H%elem_of_list_to_map_2. apply Hl in H as [m H]. congruence.
    + split; [|done]. intros H%elem_of_list_to_map_2. apply Hl in H as [m H]. congruence.
  - split; [|done]. intros H%elem_of_list_to_map_2. apply Hl in H as [m H]. congruence.
Qed.

(** The files a catalog consists of: one per meta, the last one of a path wins. *)
Definition catalog_files (metas : list Meta) : gmap path string :=
  foldl (fun acc m => <[meta_segs m := mt_Blob m]> acc) ∅ metas.

Lemma catalog_files_snoc metas m : catalog_files (metas ++ [m]) = <[meta_segs m := mt_Blob m]> (catalog_files metas).
Proof. unfold catalog_files. by rewrite foldl_app. Qed.

(** The directories above its files. *)
Definition above_meta (metas : list Meta) (r : path) : Prop := exists m, m ∈ metas /\ above r (meta_segs m).

(** A tree that holds a catalog and nothing else. *)
Record holds (root : path) (metas : list Meta) (fs : Fs) : Prop := mkHolds {
  h_root : exists mode, fs !! root = Some (NDir mode);
  h_files : files_below root fs = catalog_files metas;
  h_nodes : forall r n, r <> [] -> fs !! (root ++ r) = Some n ->
    match n with NFile _ _ => True | NDir _ => above_meta metas r | _ => False end;
}.

Lemma holds_empty (root : path) (fs : Fs) mode :
  fs !! root = Some (NDir mode) -> (forall r, r <> [] -> fs !! (root ++ r) = None) -> holds root [] fs.
Proof.
  intros Hd Hn. split; [eauto| |].
  - apply map_eq. intros r. rewrite lookup_files_below. destruct (decide (r = [])) as [->|Hr]; [by rewrite app_nil_r, Hd|].
    by rewrite Hn.
  - intros r n Hr Hx. by rewrite Hn in Hx.
Qed.

(** Nothing changed outside of the trees below [roots], the base aside. *)
Definition framed (roots : list path) (fs fs' : Fs) : Prop :=
  forall q, q <> [] -> Forall (fun root => under root q = false) roots -> fs' !! q = fs !! q.

Lemma framed_trans (roots : list path) (fs1 fs2 fs3 : Fs) : framed roots fs1 fs2 -> framed roots fs2 fs3 -> framed roots fs1 fs3.
Proof. intros H1 H2 q Hq Hr. by rewrite H2, H1. Qed.

Lemma framed_refl (roots : list path) (fs : Fs) : framed roots fs fs.
Proof. by intros q Hq Hr. Qed.

Lemma framed_more (roots roots' : list path) (fs fs' : Fs) : (forall r, r ∈ roots -> r ∈ roots') -> framed roots fs fs' -> framed roots' fs fs'.
Proof. intros Hs Hf q Hq Hr. apply Hf; [done|]. rewrite Forall_forall in *. auto. Qed.

(** ** Whatever fails *)

Section Any.
Context (E : OsEnv) (Hsuffix : forall h, str_has slash (os_temp E h) = false).

Lemma runs_write_meta (t : string) (done_ : list Meta) (m : Meta) (fs0 fs : Fs) :
  name_ok t -> clean_meta m -> framed [[t]] fs0 fs -> holds [t] done_ fs ->
  runs (write_meta E [t] m) fs (fun r fs' => framed [[t]] fs0 fs' /\ (r = None -> holds [t] (done_ ++ [m]) fs')).
Proof.
  intros Ht Hm Hfr [[tm Htm] Hfi Hno]. unfold write_meta. rewrite meta_path_clean by (done || by apply Forall_singleton).
  change ([t] ++ meta_segs m) with [t; meta_pkg m; mt_Schema m; meta_file m].
  change (parent [t; meta_pkg m; mt_Schema m; meta_file m]) with [t; meta_pkg m; mt_Schema m].
  set (p := [t; meta_pkg m; mt_Schema m; meta_file m]).
  apply runs_bind. eapply runs_weaken; [apply runs_MkdirAll|]. intros r fs1 Hmk. cbn beta in Hmk.
  assert (Hfr1 : framed [[t]] fs0 fs1).
  { intros q Hq Hr. rewrite <- Hfr by done. destruct (Hmk q) as [H|(_ & _ & [s Hp])]; [done|]. exfalso.
    apply Forall_inv in Hr; cbn beta in Hr. destruct q as [|x q]; [done|]. injection Hp as Hx Hp. subst x.
    change (t :: q) with ([t] ++ q) in Hr. by rewrite under_app in Hr. }
  destruct r as [e|]; [by apply runs_ret|].
  apply runs_bind. eapply runs_weaken; [apply runs_WriteFile|]. intros r fs2 [Hwf Hws]. cbn beta in Hwf, Hws.
  apply runs_ret. split.
  - intros q Hq Hr. rewrite <- Hfr1 by done. apply Hwf. intros ->. apply Forall_inv in Hr; cbn beta in Hr.
    change p with ([t] ++ meta_segs m) in Hr. by rewrite under_app in Hr.
  - destruct r as [e|]; [done|]. intros _. destruct (Hws eq_refl) as (mode & -> & Hp).
    (* directories and files so far *)
    assert (Hmk' : forall r, fs1 !! ([t] ++ r) = fs !! ([t] ++ r) \/
      (fs !! ([t] ++ r) = None /\ fs1 !! ([t] ++ r) = Some (NDir ModePerm) /\ above r (meta_segs m))).
    { intros r. destruct (Hmk ([t] ++ r)) as [H|(H1 & H2 & [s Hs])]; [by left|right]. split_and!; [done..|].
      injection Hs as Hs. exists (hd EmptyString (s ++ [meta_file m])), (tl (s ++ [meta_file m])).
      change (meta_segs m) with ([meta_pkg m; mt_Schema m] ++ [meta_file m]). rewrite Hs, <- app_assoc. by destruct s. }
    split.
    + exists tm. rewrite lookup_insert_ne by done. destruct (Hmk [t]) as [->|(H & _)]; [done|congruence].
    + apply map_eq. intros r. rewrite lookup_files_below, catalog_files_snoc.
      destruct (decide (r = meta_segs m)) as [->|Hr].
      { change ([t] ++ meta_segs m) with p. by rewrite !lookup_insert_eq. }
      rewrite lookup_insert_ne by (intros H; apply Hr; by injection H). rewrite lookup_insert_ne by done. rewrite <- Hfi, lookup_files_below.
      destruct (Hmk' r) as [->|(-> & -> & _)]; done.
    + intros r n Hr. destruct (decide (r = meta_segs m)) as [->|Hne].
      { change ([t] ++ meta_segs m) with p. rewrite lookup_insert_eq. by intros [= <-]. }
      rewrite lookup_insert_ne by (intros H; apply Hne; by injection H).
      destruct (Hmk' r) as [->|(_ & -> & Hab)].
      * intros Hn. specialize (Hno r n Hr Hn). destruct n; try done. destruct Hno as (m' & Hm' & Ha). exists m'. set_solver.
      * intros [= <-]. exists m. set_solver.
Qed.

Lemma runs_write_metas (t : string) (metas : list Meta) : forall (done_ : list Meta) (fs0 fs : Fs),
  name_ok t -> Forall clean_meta metas -> framed [[t]] fs0 fs -> holds [t] done_ fs ->
  runs (write_metas E [t] metas) fs (fun r fs' => framed [[t]] fs0 fs' /\ (r = None -> holds [t] (done_ ++ metas) fs')).
Proof.
  induction metas as [|m metas IH]; intros done_ fs0 fs Ht Hc Hfr Hh; cbn [write_metas].
  - apply runs_ret. by rewrite app_nil_r.
  - inversion Hc; subst. apply runs_bind. eapply runs_weaken; [by apply runs_write_meta|].
    intros [e|] fs1 [Hf1 Hh1]; [by apply runs_ret|]. rewrite cons_middle, app_assoc. apply IH; auto.
Qed.

(** Entries that start with a prefix are removed. *)
Lemma runs_orphans (prefix : string) (names : list string) (fs : Fs) :
  runs (remove_orphan_dirs E prefix names) fs (fun _ fs' =>
    forall x r, strings_HasPrefix x prefix = false -> fs' !! (x :: r) = fs !! (x :: r)).
Proof.
  revert fs. induction names as [|n names IH]; intros fs; cbn [remove_orphan_dirs]; [by apply runs_ret|].
  destruct (strings_HasPrefix n prefix) eqn:Hn; [|apply IH].
  apply runs_bind. eapply runs_weaken; [apply runs_RemoveAll|]. intros r fs1 [Hu _].
  assert (H1 : forall x r, strings_HasPrefix x prefix = false -> fs1 !! (x :: r) = fs !! (x :: r)).
  { intros x r' Hx. apply Hu. unfold under. apply bool_decide_eq_false_2. intros [s Hs]. injection Hs as Hxn _. congruence. }
  destruct r as [e|]; [by apply runs_ret|]. eapply runs_weaken; [apply IH|]. intros a fs' H2 x r' Hx. cbn beta in H2. by rewrite H2, H1.
Qed.

Lemma runs_removeOrphaned (c : string) (fs : Fs) :
  runs (removeOrphanedTempDirs E c) fs (fun _ fs' =>
    forall x r, strings_HasPrefix x (tmp_prefix c) = false -> fs' !! (x :: r) = fs !! (x :: r)).
Proof.
  apply runs_bind. apply (runs_weaken _ _ (fun _ fs' => fs' = fs)).
  { apply runs_sys; [done|]. by destruct (find_node fs []) as [|[]]. }
  intros [e|names] fs1 ->; [|apply runs_orphans]. by apply runs_ret.
Qed.

Lemma catalog_no_dot c x : strings_HasPrefix c "." = false -> strings_HasPrefix c (tmp_prefix x) = false.
Proof.
  intros Hc. destruct (strings_HasPrefix c (tmp_prefix x)) eqn:H; [|done]. exfalso.
  apply HasPrefix_spec in H as [t ->]. destruct (HasPrefix_spec (tmp_prefix x +:+ t) ".") as [_ Hb].
  rewrite Hb in Hc; [done|]. eexists. unfold tmp_prefix. by rewrite <- !str_app_assoc.
Qed.

Lemma tmp_name_ok c s : name_ok c -> str_has slash s = false -> name_ok (tmp_prefix c +:+ s).
Proof.
  intros [(Hc & _ & Hs) _] Hx. unfold tmp_prefix.
  assert (Hl : (3 <= String.length (("." +:+ c +:+ "-") +:+ s))%nat).
  { rewrite !length_app_str. destruct c; [done|]. cbn. lia. }
  split; [split_and!|].
  - intros H. rewrite H in Hl. cbn in Hl. lia.
  - intros H. rewrite H in Hl. cbn in Hl. lia.
  - rewrite !str_has_app, Hs, Hx. done.
  - intros H. rewrite H in Hl. cbn in Hl. lia.
Qed.

(** A Put that reports success wrote the whole catalog; one that fails, or not,
    touches no other catalog. *)
Lemma runs_writeFS (c : string) (metas : list Meta) (werr : option error) (fs : Fs) :
  catalog_ok c -> Forall clean_meta metas ->
  runs (writeFS E c (metas, werr)) fs (fun r fs' =>
    (forall c', catalog_ok c' -> c' <> c -> forall q, under [c'] q = true -> fs' !! q = fs !! q) /\
    match r with
    | inl _ => True
    | inr p => p = [c] /\ werr = None /\ holds [c] metas fs'
    end).
Proof.
  intros [Hc Hdot] Hcl. unfold writeFS.
  assert (Hframe : forall t fs1 fs2, strings_HasPrefix t "." = true ->
    framed [[t]; [c]] fs1 fs2 -> (forall c', catalog_ok c' -> forall q, under [c'] q = true -> fs1 !! q = fs !! q) ->
    forall c', catalog_ok c' -> c' <> c -> forall q, under [c'] q = true -> fs2 !! q = fs !! q).
  { intros t fs1 fs2 Ht Hf H0 c' Hc' Hne q Hq. rewrite <- (H0 c' Hc' q Hq). apply under_spec in Hq as [r ->]. apply Hf; [done|].
    apply Forall_cons. split; [|apply Forall_singleton]; apply bool_decide_eq_false_2; intros [s Hs]; injection Hs as Hxn _; [|done].
    destruct Hc' as [_ Hd]. congruence. }
  apply runs_bind. eapply runs_weaken; [apply runs_removeOrphaned|]. intros r fs1 H1. cbn beta in H1.
  assert (H1' : forall c', catalog_ok c' -> forall q, under [c'] q = true -> fs1 !! q = fs !! q).
  { intros c' [_ Hd] q [s ->]%under_spec. by apply H1, catalog_no_dot. }
  destruct r as [e|]; [by apply runs_ret; split; [intros; eapply H1'|]|].
  apply runs_bind. eapply runs_weaken; [apply runs_MkdirTemp|]. intros [e|tmp] fs2; cbn beta iota.
  { intros ->. apply runs_ret. split; [intros; by eapply H1'|done]. }
  intros ([h ->] & -> & Hfresh). cbn [app] in *. set (t := tmp_prefix c +:+ os_temp E h) in *.
  assert (Hok : name_ok t) by (apply tmp_name_ok; auto).
  assert (Hd : strings_HasPrefix t "." = true).
  { apply HasPrefix_spec. unfold t, tmp_prefix. rewrite <- !str_app_assoc. by eexists. }
  assert (Htc : t <> c) by (intros ->; congruence).
  assert (Hu1 : under [t] [c] = false) by (apply bool_decide_eq_false_2; intros [? Hx]; injection Hx; congruence).
  assert (Hu2 : under [c] [t] = false) by (apply bool_decide_eq_false_2; intros [? Hx]; injection Hx; congruence).
  set (fs2 := <[[t] := NDir rwx]> fs1).
  assert (Hf2 : framed [[t]] fs1 fs2).
  { intros q Hq Hr. apply Forall_inv in Hr; cbn beta in Hr. unfold fs2. rewrite lookup_insert_ne; [done|]. intros <-. by rewrite under_refl in Hr. }
  assert (Hh2 : holds [t] [] fs2).
  { apply (holds_empty _ _ rwx); [unfold fs2; by rewrite lookup_insert_eq|]. intros r Hr. unfold fs2.
    rewrite lookup_insert_ne; [apply Hfresh, (under_app [t])|]. by intros [= <-]. }
  apply runs_bind. apply (runs_weaken _ _ (fun r fs' => framed [[t]; [c]] fs1 fs' /\
    match r with inl _ => True | inr p => p = [c] /\ werr = None /\ holds [c] metas fs' end)).
  - unfold write_tmp, cacheDir. cbn [fst snd]. apply runs_bind. eapply runs_weaken; [by apply (runs_write_metas t metas [])|].
    intros r fs3 [Hf3 Hh3]. cbn beta in Hh3.
    assert (Hf3' : framed [[t]; [c]] fs1 fs3) by (eapply framed_more; [|exact Hf3]; set_solver).
    destruct r as [e|]; [by apply runs_ret|]. specialize (Hh3 eq_refl). destruct werr as [e|]; [by apply runs_ret|].
    apply runs_bind. eapply runs_weaken; [apply runs_RemoveAll|]. intros r fs4 [Hu4 _].
    assert (Hf4 : framed [[t]; [c]] fs1 fs4).
    { eapply framed_trans; [exact Hf3'|]. intros q Hq Hr. apply Hu4. inversion Hr as [|? ? _ Hr']. by apply Forall_inv in Hr'. }
    destruct r as [e|]; [by apply runs_ret|].
    apply runs_bind. eapply runs_weaken; [apply runs_Rename|]. intros r fs5 H5. destruct r as [e|]; apply runs_ret; [by subst|].
    destruct H5 as [-> [mode Hold]]. split.
    + intros q Hq Hr. rewrite lookup_move_tree by done. inversion Hr as [|? ? Hr1 Hr2]; subst. apply Forall_inv in Hr2; cbn beta in Hr2.
      cbn beta in *. rewrite Hr1, Hr2. by apply Hf4.
    + split; [done|]. split; [done|].
      assert (Hmv : forall r, move_tree [t] [c] fs4 !! ([c] ++ r) = fs3 !! ([t] ++ r)).
      { intros r. rewrite lookup_move_tree by done. rewrite under_app, drop_app_length. apply Hu4.
        apply bool_decide_eq_false_2. intros [? Hx]; injection Hx; congruence. }
      destruct Hh3 as [[m3 Hr3] Hfi3 Hn3]. split.
      * exists m3. exact (eq_trans (Hmv []) Hr3).
      * apply map_eq. intros r. cbn [app] in Hfi3. rewrite <- Hfi3, !lookup_files_below, Hmv. done.
      * intros r n Hr. rewrite Hmv. by apply Hn3.
  - intros r fs3 [Hf3 Hh3]. apply runs_bind. eapply runs_weaken; [apply runs_RemoveAll|]. intros r4 fs4 [Hu4 _].
    apply runs_ret. split.
    + eapply (Hframe t fs1); [done| |done]. eapply framed_trans; [exact Hf3|]. intros q Hq Hr. apply Hu4. by inversion Hr.
    + destruct r as [|p]; [done|]. destruct Hh3 as (-> & -> & [[m3 Hr3] Hfi3 Hn3]). split; [done|]. split; [done|].
      assert (Hk : forall r, fs4 !! ([c] ++ r) = fs3 !! ([c] ++ r)).
      { intros r. apply Hu4. apply bool_decide_eq_false_2. intros [? Hx]; injection Hx; congruence. }
      split.
      * exists m3. exact (eq_trans (Hk []) Hr3).
      * apply map_eq. intros r. rewrite <- Hfi3, !lookup_files_below, Hk. done.
      * intros r n Hr. rewrite Hk. by apply Hn3.
Qed.

(** *** Whatever the metas are called *)

(** The file of a meta, below a temporary directory, is in the directory of
    another catalog: its names, which are not checked, lead there. *)
Definition leads_into (c : string) (m : Meta) : Prop :=
  exists t p, name_ok t /\ strings_HasPrefix t "." = true /\ meta_path [t] m = Some p /\ under [c] p = true.

Lemma clean_stays c m : catalog_ok c -> clean_meta m -> ~ leads_into c m.
Proof.
  intros [_ Hd] Hm (t & p & Ht & Hdot & Hp & Hu). rewrite meta_path_clean in Hp by (done || by apply Forall_singleton).
  injection Hp as <-. apply under_spec in Hu as [s Hs]. injection Hs as -> _. congruence.
Qed.

Lemma under_parent c p q : under [c] p = false -> q `prefix_of` parent p -> under [c] q = false.
Proof.
  intros Hp [s Hs]. destruct (under [c] q) eqn:Hq; [|done]. destruct (decide (p = [])) as [->|Hne].
  - apply under_spec in Hq as [r ->]. by destruct s.
  - destruct (exists_last Hne) as (p' & x & ->). rewrite parent_snoc in Hs. subst p'.
    apply under_spec in Hq as [r ->]. by rewrite <- !app_assoc, under_app in Hp.
Qed.

Lemma runs_write_meta_frame (c t : string) (m : Meta) (fs : Fs) :
  (forall p, meta_path [t] m = Some p -> under [c] p = false) ->
  runs (write_meta E [t] m) fs (fun _ fs' => forall q, under [c] q = true -> fs' !! q = fs !! q).
Proof.
  intros Hm. unfold write_meta. destruct (meta_path [t] m) as [p|]; [|by apply runs_ret]. specialize (Hm p eq_refl).
  apply runs_bind. eapply runs_weaken; [apply runs_MkdirAll|]. intros r fs1 Hmk. cbn beta in Hmk.
  assert (H1 : forall q, under [c] q = true -> fs1 !! q = fs !! q).
  { intros q Hq. destruct (Hmk q) as [|(_ & _ & Hp)]; [done|]. by rewrite (under_parent c p q Hm Hp) in Hq. }
  destruct r as [e|]; [by apply runs_ret|]. apply runs_bind. eapply runs_weaken; [apply runs_WriteFile|].
  intros r fs2 [H2 _]. apply runs_ret. intros q Hq. rewrite H2, H1; [done..|]. intros ->. congruence.
Qed.

Lemma runs_write_metas_frame (c t : string) (metas : list Meta) : forall fs,
  (forall m p, m ∈ metas -> meta_path [t] m = Some p -> under [c] p = false) ->
  runs (write_metas E [t] metas) fs (fun _ fs' => forall q, under [c] q = true -> fs' !! q = fs !! q).
Proof.
  induction metas as [|m metas IH]; intros fs Hm; cbn [write_metas]; [by apply runs_ret|].
  apply runs_bind. eapply runs_weaken; [apply (runs_write_meta_frame c); intros p; apply Hm; by left|].
  intros [e|] fs1 H1; [by apply runs_ret|]. eapply runs_weaken; [apply IH; intros m' p Hm'; apply Hm; by right|].
  intros r fs2 H2 q Hq. by rewrite H2, H1.
Qed.

(** A Put changes another catalog only if a meta leads there. *)
Lemma runs_writeFS_frame (c c' : string) (metas : list Meta) (werr : option error) (fs : Fs) :
  catalog_ok c -> catalog_ok c' -> c' <> c -> (forall m, m ∈ metas -> ~ leads_into c' m) ->
  runs (writeFS E c (metas, werr)) fs (fun _ fs' => forall q, under [c'] q = true -> fs' !! q = fs !! q).
Proof.
  intros [Hc Hdot] [Hc' Hdot'] Hne Hno. unfold writeFS. apply runs_bind.
  apply (runs_weaken _ _ (fun _ fs1 => forall q, under [c'] q = true -> fs1 !! q = fs !! q)).
  { eapply runs_weaken; [apply runs_removeOrphaned|]. intros r fs1 H1 q [s ->]%under_spec. by apply H1, catalog_no_dot. }
  intros [e|] fs1 H1; [by apply runs_ret|].
  apply runs_bind. eapply runs_weaken; [apply runs_MkdirTemp|]. intros [e|tmp] fs2; cbn beta iota; [intros ->; by apply runs_ret|].
  intros ([h ->] & -> & _). cbn [app] in *. set (t := tmp_prefix c +:+ os_temp E h) in *.
  assert (Hok : name_ok t) by (apply tmp_name_ok; auto).
  assert (Hd : strings_HasPrefix t "." = true).
  { apply HasPrefix_spec. unfold t, tmp_prefix. rewrite <- !str_app_assoc. by eexists. }
  assert (Hother : forall x q, x <> c' -> under [c'] q = true -> under [x] q = false).
  { intros x q Hx [s ->]%under_spec. apply bool_decide_eq_false_2. intros [? H]. injection H. congruence. }
  assert (Htc : t <> c') by (intros H; congruence).
  apply runs_bind. apply (runs_weaken _ _ (fun _ fs' => forall q, under [c'] q = true -> fs' !! q = fs !! q)).
  - unfold write_tmp, cacheDir. cbn [fst snd]. apply runs_bind.
    apply (runs_weaken _ _ (fun _ fs3 => forall q, under [c'] q = true -> fs3 !! q = fs !! q)).
    { eapply runs_weaken; [apply (runs_write_metas_frame c')|].
      - intros m p Hm Hp. destruct (under [c'] p) eqn:Hu; [|done]. destruct (Hno m Hm). by exists t, p.
      - intros r fs3 H3 q Hq. rewrite H3 by done. rewrite lookup_insert_ne; [by apply H1|]. intros <-.
        by rewrite (Hother c' [t]) in Hq by (done || (apply under_spec in Hq as [? Hs]; by injection Hs)). }
    intros r fs3 H3. destruct r as [e|], werr as [e'|]; try by apply runs_ret.
    apply runs_bind. eapply runs_weaken; [apply runs_RemoveAll|]. intros r fs4 [H4 _].
    assert (H4' : forall q, under [c'] q = true -> fs4 !! q = fs !! q) by (intros q Hq; rewrite H4, H3; eauto).
    destruct r as [e|]; [by apply runs_ret|]. apply runs_bind. eapply runs_weaken; [apply runs_Rename|].
    intros r fs5 H5. apply runs_ret. destruct r as [e|]; [by subst|]. destruct H5 as [-> _]. intros q Hq.
    rewrite lookup_move_tree, !Hother by (done || (intros Hcc; congruence) || (apply bool_decide_eq_false_2; intros [? Hx]; injection Hx; congruence)).
    by apply H4'.
  - intros r fs3 H3. apply runs_bind. eapply runs_weaken; [apply runs_RemoveAll|]. intros r4 fs4 [H4 _].
    apply runs_ret. intros q Hq. rewrite H4, H3; eauto.
Qed.

Lemma runs_write_metas_some (tmp : path) (metas : list Meta) : forall fs, runs (write_metas E tmp metas) fs (fun _ _ => True).
Proof.
  induction metas as [|m metas IH]; intros fs; cbn [write_metas]; [by apply runs_ret|]. apply runs_bind.
  apply (runs_weaken _ _ (fun _ _ => True)); [|intros [e|] fs1 _; [by apply runs_ret|done]].
  unfold write_meta. destruct (meta_path tmp m); [|by apply runs_ret].
  apply runs_bind. eapply runs_weaken; [apply runs_MkdirAll|]. intros [e|] fs1 _; [by apply runs_ret|].
  apply runs_bind. eapply runs_weaken; [apply runs_WriteFile|]. intros r fs2 _. by apply runs_ret.
Qed.

(** A stream that ends in an error is not kept. *)
Lemma runs_writeFS_error (c : string) (metas : list Meta) (e : error) (fs : Fs) :
  runs (writeFS E c (metas, Some e)) fs (fun r _ => exists e', r = inl e').
Proof.
  unfold writeFS.
  apply runs_bind. eapply runs_weaken; [apply runs_removeOrphaned|]. intros [e'|] fs1 _; [apply runs_ret; eauto|].
  apply runs_bind. eapply runs_weaken; [apply runs_MkdirTemp|]. intros [e'|tmp] fs2 Hm; [apply runs_ret; eauto|].
  destruct Hm as ([h ->] & _). cbn [app].
  apply runs_bind. apply (runs_weaken _ _ (fun r _ => exists e', r = inl e')).
  - unfold write_tmp. cbn [fst snd]. apply runs_bind. apply (runs_weaken _ _ (fun _ _ => True)).
    { apply runs_write_metas_some. }
    intros [e'|] fs3 _; apply runs_ret; eauto.
  - intros r fs3 [e' ->]. apply runs_bind. eapply runs_weaken; [apply runs_RemoveAll|]. intros r4 fs4 _. apply runs_ret. eauto.
Qed.

End Any.

(** ** On a disk that works *)

Lemma runs_and {A} (m : IO Hist A) (fs : Fs) (Q R : A -> Fs -> Prop) :
  runs m fs Q -> runs m fs R -> runs m fs (fun a fs' => Q a fs' /\ R a fs').
Proof.
  intros HQ HR h Eh. destruct (HQ h Eh) as (t & Et & Hq). destruct (HR h Eh) as (t' & Et' & Hr).
  rewrite Et in Et'. apply app_inv_head in Et' as <-. exists t. auto.
Qed.

(** Every directory is there and can be used. *)
Record tidy (fs : Fs) : Prop := mkTidy {
  t_wf : wf fs;
  t_open : forall p mode, fs !! p = Some (NDir mode) -> has_bits mode rwx = true;
  t_base : exists mode, fs !! [] = Some (NDir mode);
}.

Lemma tidy_find (fs : Fs) (p : path) : tidy fs ->
  (forall q n, above q p -> fs !! q = Some n -> exists mode, n = NDir mode) ->
  find_node fs p = match fs !! p with Some n => inr n | None => inl not_exist end.
Proof.
  intros [Hw Ho _] Hd. apply find_node_reachable; [done|]. intros q Hq [n Hn].
  destruct (Hd q n Hq Hn) as [mode ->]. exists mode. split; [done|]. eapply has_bits_weaken; [by eapply Ho|done].
Qed.

Lemma tidy_unlinkable (fs : Fs) (p : path) mode bits : tidy fs -> p <> [] -> fs !! parent p = Some (NDir mode) ->
  Z.land rwx bits = bits -> unlinkable fs bits p = true.
Proof.
  intros Ht Hp Hd Hb. unfold unlinkable. rewrite tidy_find, Hd; [|done|].
  - eapply has_bits_weaken; [by eapply (t_open fs Ht)|done].
  - intros q n Hq Hn. destruct (t_wf fs Ht (parent p) q Hq) as [m Hm]; [eauto|]. naive_solver.
Qed.

Lemma tidy_insert (fs : Fs) (p : path) (n : node) mode : tidy fs -> p <> [] -> fs !! parent p = Some (NDir mode) ->
  (forall m, fs !! p <> Some (NDir m)) -> (forall m, n = NDir m -> has_bits m rwx = true) -> tidy (<[p := n]> fs).
Proof.
  intros [Hw Ho [bm Hb]] Hp Hd Hn Hm. split.
  - intros r q Hq [k Hk]. assert (Hqd : exists m, fs !! q = Some (NDir m)).
    { destruct (decide (r = p)) as [->|Hr].
      - destruct (decide (q = parent p)) as [->|Hqp]; [eauto|]. apply (Hw (parent p) q); [|eauto].
        destruct Hq as (x & s & ->). destruct s as [|y s]; [by rewrite parent_snoc in Hqp|].
        exists x, (removelast (y :: s)). unfold parent. by rewrite removelast_app.
      - rewrite lookup_insert_ne in Hk by done. apply (Hw r q Hq). eauto. }
    destruct Hqd as [m Hqd]. exists m. rewrite lookup_insert_ne; [done|]. intros <-. by destruct (Hn m).
  - intros r m. destruct (decide (r = p)) as [->|Hr].
    + rewrite lookup_insert_eq. intros [= ->]. by apply Hm.
    + rewrite lookup_insert_ne by done. apply Ho.
  - exists bm. by rewrite lookup_insert_ne.
Qed.

Lemma tidy_without (fs : Fs) (p : path) : tidy fs -> p <> [] -> tidy (without p fs).
Proof.
  intros [Hw Ho [bm Hb]] Hp. split; [by apply wf_without| |].
  - intros q mode. rewrite lookup_without. destruct (under p q); [done|]. apply Ho.
  - exists bm. rewrite lookup_without. destruct (under p []) eqn:Hu; [|done].
    apply under_spec in Hu as [s Hs]. by destruct p.
Qed.

Lemma tidy_mkdirs (perm : Z) (rest : path) : forall (dir : path) (fs : Fs),
  has_bits perm rwx = true -> tidy fs -> (dir = [] \/ exists mode, fs !! parent dir = Some (NDir mode)) ->
  (forall q n, dir `prefix_of` q -> q `prefix_of` dir ++ rest -> fs !! q = Some n -> exists mode, n = NDir mode) ->
  let r := mkdirs perm dir rest fs in
  r.1 = None /\ tidy r.2 /\ exists mode, r.2 !! (dir ++ rest) = Some (NDir mode).
Proof.
  induction rest as [|x rest IH]; intros dir fs Hp Ht Hpar Hd; cbn [mkdirs].
  - rewrite app_nil_r in *. destruct (fs !! dir) as [n|] eqn:Ed.
    + destruct (Hd dir n) as [mode ->]; [done..|]. cbn. eauto.
    + destruct Hpar as [->|[mode Hm]]; [destruct (t_base fs Ht); congruence|].
      destruct (decide (dir = [])) as [->|Hne]; [destruct (t_base fs Ht); congruence|].
      rewrite (tidy_unlinkable fs dir mode), orb_true_r by done. cbn. split; [done|]. split.
      * eapply tidy_insert; try done; [|by intros ? [= <-]]. intros m. congruence.
      * rewrite lookup_insert_eq. eauto.
  - assert (Hstep : forall fs1 mode, tidy fs1 -> fs1 !! dir = Some (NDir mode) -> (forall q, q <> dir -> fs1 !! q = fs !! q) ->
      let r := mkdirs perm (dir ++ [x]) rest fs1 in r.1 = None /\ tidy r.2 /\ exists mode, r.2 !! (dir ++ x :: rest) = Some (NDir mode)).
    { intros fs1 mode Ht1 Hd1 He. assert (Ea : dir ++ x :: rest = (dir ++ [x]) ++ rest) by (by rewrite <- app_assoc).
      rewrite Ea. apply IH; [done|done| |].
      - right. exists mode. by rewrite parent_snoc.
      - intros q n [s ->] Hq Hn. rewrite He in Hn.
        + apply (Hd ((dir ++ [x]) ++ s) n); [exists (x :: s); by rewrite <- app_assoc|by rewrite Ea|done].
        + intros H. rewrite <- app_assoc in H. apply (f_equal length) in H. rewrite length_app in H. cbn in H. lia. }
    destruct (fs !! dir) as [n|] eqn:Ed.
    + destruct (Hd dir n) as [mode ->]; [done|by eexists|done|]. by apply (Hstep fs mode).
    + destruct Hpar as [->|[mode Hm]]; [destruct (t_base fs Ht); congruence|].
      destruct (decide (dir = [])) as [->|Hne]; [destruct (t_base fs Ht); congruence|].
      rewrite (tidy_unlinkable fs dir mode), orb_true_r by done. apply (Hstep _ perm).
      * eapply tidy_insert; try done; [|by intros ? [= <-]]. intros m. congruence.
      * by rewrite lookup_insert_eq.
      * intros q Hq. by rewrite lookup_insert_ne.
Qed.

Lemma tidy_move (fs : Fs) (a b : string) : tidy fs -> a <> b -> tidy (move_tree [a] [b] fs).
Proof.
  intros [Hw Ho [bm Hb]] Hab.
  assert (H1 : under [a] [b] = false) by (apply bool_decide_eq_false_2; intros [? Hx]; injection Hx; congruence).
  assert (H2 : under [b] [a] = false) by (apply bool_decide_eq_false_2; intros [? Hx]; injection Hx; congruence).
  assert (Hup : forall c r q, above q r -> under [c] r = false -> under [c] q = false).
  { intros c r q (x & s & ->) Hr. destruct (under [c] q) eqn:Hq; [|done]. apply under_spec in Hq as [t ->].
    by rewrite <- app_assoc, under_app in Hr. }
  split.
  - intros p q Hq [n Hn]. rewrite lookup_move_tree in * by done. destruct (under [b] p) eqn:Hp.
    + apply under_spec in Hp as [r ->]. rewrite drop_app_length in Hn. destruct Hq as (x & s & Hq).
      destruct q as [|y q].
      { assert (Hnil : forall c : string, under [c] [] = false) by (intros c; apply bool_decide_eq_false_2; intros [? Hx]; discriminate Hx).
        rewrite !Hnil. eauto. }
      injection Hq as <- ->. change (b :: q) with ([b] ++ q). rewrite under_app, drop_app_length.
      apply (Hw ([a] ++ q ++ x :: s)); [|eauto]. exists x, s. by rewrite <- app_assoc.
    + destruct (under [a] p) eqn:Hpa; [done|]. rewrite (Hup b p q), (Hup a p q) by done. apply (Hw p q Hq). eauto.
  - intros p m. rewrite lookup_move_tree by done. destruct (under [b] p); [apply Ho|]. destruct (under [a] p); [done|]. apply Ho.
  - exists bm. rewrite lookup_move_tree by done.
    assert (Hnil : forall c : string, under [c] [] = false) by (intros c; apply bool_decide_eq_false_2; intros [? Hx]; discriminate Hx).
    by rewrite !Hnil.
Qed.

Section Working.
Context (E : OsEnv) `{Hquiet : !Quiet E} (Hsuffix : forall h, str_has slash (os_temp E h) = false).

Lemma exec_RemoveAll_tidy (fs : Fs) x : tidy fs -> exec (RemoveAll E [x]) fs None (without [x] fs).
Proof.
  intros [Hw Ho [bm Hb]]. apply exec_RemoveAll; [exact Hquiet|done| | |done].
  - intros q (y & s & Hq) _. destruct q as [|z q]; [|injection Hq as _ Hq; by destruct q]. exists bm. split; [done|]. by apply (Ho []).
  - intros p mode _ Hp. by apply (Ho p).
Qed.

Lemma runs_orphans_tidy (prefix : string) (names : list string) : forall fs : Fs, tidy fs ->
  runs (remove_orphan_dirs E prefix names) fs (fun r fs' => r = None /\ tidy fs' /\
    forall p, fs' !! p = fs !! p \/ fs' !! p = None) /\
  runs (remove_orphan_dirs E prefix names) fs (fun _ fs' =>
    forall x, x ∈ names -> strings_HasPrefix x prefix = true -> fs' !! [x] = None).
Proof.
  induction names as [|n names IH]; intros fs Ht; cbn [remove_orphan_dirs].
  { split; apply runs_ret; [auto|]. intros x Hx. by apply not_elem_of_nil in Hx. }
  destruct (strings_HasPrefix n prefix) eqn:Hn.
  - assert (Ht1 : tidy (without [n] fs)) by by apply tidy_without.
    destruct (IH _ Ht1) as [H1 H2]. split.
    + eapply runs_exec_bind; [by apply exec_RemoveAll_tidy|]. eapply runs_weaken; [exact H1|].
      intros r fs' (-> & Ht' & Hsub). split; [done|]. split; [done|]. intros p. destruct (Hsub p) as [->|]; [|auto].
      rewrite lookup_without. destruct (under [n] p); auto.
    + eapply runs_exec_bind; [by apply exec_RemoveAll_tidy|]. eapply runs_weaken; [apply (runs_and _ _ _ _ H1 H2)|].
      intros r fs' [(_ & _ & Hsub) Hno] x [->|Hx]%elem_of_cons Hp; [|auto].
      destruct (Hsub [n]) as [->|]; [|done]. by rewrite lookup_without, under_refl.
  - destruct (IH _ Ht) as [H1 H2]. split; [done|]. eapply runs_weaken; [exact H2|].
    intros r fs' Hno x [->|Hx]%elem_of_cons Hp; [congruence|auto].
Qed.

Lemma runs_orphaned_tidy (c : string) (fs : Fs) : tidy fs ->
  runs (removeOrphanedTempDirs E c) fs (fun r fs' => r = None /\ tidy fs' /\
    forall x s, strings_HasPrefix x (tmp_prefix c) = true -> fs' !! (x :: s) = None).
Proof.
  intros Ht. unfold removeOrphanedTempDirs. eapply runs_exec_bind; [by apply exec_ReadDir|].
  destruct (t_base fs Ht) as [bm Hb]. rewrite tidy_find, Hb; [|done|by intros q n (y & s & Hq); destruct q].
  rewrite (has_bits_weaken bm rwx r_bit) by (done || by apply (t_open fs Ht [])).
  destruct (runs_orphans_tidy (tmp_prefix c) (dir_names [] fs) fs Ht) as [H1 H2].
  eapply runs_weaken; [apply (runs_and _ _ _ _ H1 H2)|]. intros r fs' [(-> & Ht' & Hsub) Hno].
  split; [done|]. split; [done|]. intros x s Hx.
  assert (Hn : fs' !! [x] = None).
  { destruct (fs !! [x]) as [n|] eqn:En.
    - apply Hno; [|done]. apply elem_of_dir_names. cbn [app]. rewrite En. eauto.
    - destruct (Hsub [x]) as [Hs|Hs]; [by rewrite Hs|done]. }
  apply (wf_absent [x] fs'); [apply Ht'|done|apply (under_app [x])].
Qed.

Lemma runs_MkdirTemp_tidy (c : string) (fs : Fs) : tidy fs ->
  (forall x s, strings_HasPrefix x (tmp_prefix c) = true -> fs !! (x :: s) = None) ->
  runs (MkdirTemp E [] (tmp_prefix c)) fs (fun r fs' => tidy fs' /\ match r with inr _ => True | inl _ => False end).
Proof.
  intros Ht Hno. refine (runs_dep (fun h => sys E (OMkdirTemp []) _ _) fs _ _). intros h.
  eapply runs_exec; [by apply exec_sys|]. cbn beta. set (p := [] ++ [tmp_prefix c +:+ os_temp E h]).
  assert (Hp : forall s, fs !! (p ++ s) = None).
  { intros s. apply Hno, HasPrefix_spec. eauto. }
  rewrite (proj2 (paths_under_nil p fs)) by (by intros q [s ->]%under_spec).
  destruct (t_base fs Ht) as [bm Hb]. rewrite (tidy_unlinkable fs p bm) by done. cbn. split; [|done].
  apply (tidy_insert fs p (NDir rwx) bm); try done; [|by intros m [= <-]].
  intros m Hm. specialize (Hp []). rewrite app_nil_r in Hp. congruence.
Qed.

(** The files of a tree can be rewritten. *)
Definition writable (root : path) (fs : Fs) : Prop :=
  forall r mode d, fs !! (root ++ r) = Some (NFile mode d) -> has_bits mode w_bit = true.

Lemma quiet_MkdirAll (p : path) (perm : Z) (fs : Fs) : exec (MkdirAll E p perm) fs (mkdirs perm [] p fs).1 (mkdirs perm [] p fs).2.
Proof. by apply exec_sys. Qed.

Lemma holds_above (t : string) (done_ : list Meta) (m : Meta) (fs : Fs) : clean_meta m -> Forall clean_meta done_ -> tidy fs -> holds [t] done_ fs ->
  forall q n, q `prefix_of` [t; meta_pkg m; mt_Schema m] -> fs !! q = Some n -> exists mode, n = NDir mode.
Proof.
  intros Hm Hd Ht Hh q n Hq Hn. destruct q as [|x q]; [destruct (t_base fs Ht) as [bm Hb]; naive_solver|].
  destruct Hq as [s Hs]. injection Hs as <- Hs.
  destruct (decide (q = [])) as [->|Hne]; [destruct (h_root _ _ _ Hh) as [k Hk]; naive_solver|].
  pose proof (h_nodes _ _ _ Hh q n Hne Hn) as Hk. destruct n as [mode d|mode| |]; try done; [|eauto].
  exfalso. assert (Hf : files_below [t] fs !! q = Some d) by (rewrite lookup_files_below; cbn [app]; by rewrite Hn).
  rewrite (h_files _ _ _ Hh) in Hf.
  assert (Hlen : forall metas r d, catalog_files metas !! r = Some d -> length r = 3%nat).
  { clear. intros metas. induction metas as [|m metas IH] using rev_ind; intros r d; [done|].
    rewrite catalog_files_snoc. destruct (decide (r = meta_segs m)) as [->|Hr]; [done|]. rewrite lookup_insert_ne by done. apply IH. }
  apply Hlen in Hf. apply (f_equal length) in Hs. rewrite length_app in Hs. cbn in Hs. lia.
Qed.

Lemma exec_Create_file (p : path) (perm : Z) (fs : Fs) (mode : Z) (d : string) :
  find_node fs p = inr (NFile mode d) -> has_bits mode w_bit = true ->
  exec (Create E p perm) fs None (<[p := NFile mode EmptyString]> fs).
Proof.
  intros Hf Hb h <-. exists [<[p := NFile mode EmptyString]> (fs_cur h)]. rewrite fs_cur_snoc.
  unfold Create, sys. by rewrite quiet, Hf, Hb.
Qed.

Lemma exec_Create_new (p : path) (perm : Z) (fs : Fs) :
  find_node fs p = inl not_exist -> fs !! p = None -> unlinkable fs wx p = true ->
  exec (Create E p perm) fs None (<[p := NFile perm EmptyString]> fs).
Proof.
  intros Hf Hn Hu h <-. exists [<[p := NFile perm EmptyString]> (fs_cur h)]. rewrite fs_cur_snoc.
  unfold Create, sys. by rewrite quiet, Hf, (bool_decide_eq_true_2 _ Hn), Hu.
Qed.

Lemma runs_write_meta_tidy (t : string) (done_ : list Meta) (m : Meta) (fs : Fs) :
  name_ok t -> clean_meta m -> Forall clean_meta done_ -> holds [t] done_ fs -> tidy fs -> writable [t] fs ->
  runs (write_meta E [t] m) fs (fun r fs' => r = None /\ tidy fs' /\ writable [t] fs').
Proof.
  intros Ht Hm Hd Hh Hti Hwr. unfold write_meta. rewrite meta_path_clean by (done || by apply Forall_singleton).
  change ([t] ++ meta_segs m) with [t; meta_pkg m; mt_Schema m; meta_file m].
  change (parent [t; meta_pkg m; mt_Schema m; meta_file m]) with [t; meta_pkg m; mt_Schema m].
  set (dir := [t; meta_pkg m; mt_Schema m]). set (p := [t; meta_pkg m; mt_Schema m; meta_file m]).
  destruct (tidy_mkdirs ModePerm dir [] fs) as (Hn & Ht1 & Hdir); [done|done|by left|intros q n _; by apply (holds_above t done_ m fs)|].
  eapply runs_exec_bind; [apply quiet_MkdirAll|]. rewrite Hn. pose proof (mkdirs_frame ModePerm dir [] fs) as Hfr.
  set (fs1 := (mkdirs ModePerm [] dir fs).2) in *. cbn [app] in Hdir. destruct Hdir as [dm Hdm].
  assert (Hwr1 : writable [t] fs1).
  { intros r mode d Hr. destruct (Hfr ([t] ++ r)) as [H|(_ & H & _)]; [|congruence]. rewrite H in Hr. by eapply Hwr. }
  assert (Hnp : forall n, fs1 !! p = Some n -> exists mode d, n = NFile mode d).
  { intros n Hp. destruct (Hfr p) as [H|(_ & _ & _ & [s Hs])]; [|by apply (f_equal length) in Hs].
    rewrite H in Hp. pose proof (h_nodes _ _ _ Hh (meta_segs m) n) as Hk. destruct n as [mode d|mode|tg|ty]; [eauto| | |]; exfalso.
    - destruct Hk as (m' & _ & x & s & Hs); [done|done|]. apply (f_equal length) in Hs. rewrite length_app in Hs. cbn in Hs. lia.
    - by apply Hk.
    - by apply Hk. }
  assert (Hfind : find_node fs1 p = match fs1 !! p with Some n => inr n | None => inl not_exist end).
  { apply tidy_find; [done|]. intros q n Hq Hqn. destruct (decide (q = dir)) as [->|Hqd]; [naive_solver|].
    destruct Hq as (x & s & Hs). destruct (t_wf fs1 Ht1 dir q) as [k Hk]; [|eauto|naive_solver].
    destruct (decide (s = [])) as [->|Hse].
    { change p with (dir ++ [meta_file m]) in Hs. apply app_inj_tail in Hs as [-> _]. done. }
    destruct (exists_last Hse) as (s' & y & ->). exists x, s'.
    change p with (dir ++ [meta_file m]) in Hs. rewrite app_comm_cons, app_assoc in Hs. by apply app_inj_tail in Hs as [-> _]. }
  assert (Hpar : parent p = dir) by done.
  (* the file is opened *)
  unfold WriteFile.
  assert (Hcr : exists fs2 mode, exec (Create E p metaMode) fs1 None fs2 /\ fs2 = <[p := NFile mode EmptyString]> fs1 /\ has_bits mode w_bit = true).
  { destruct (fs1 !! p) as [n|] eqn:Ep.
    - destruct (Hnp n eq_refl) as (mode & d & ->). assert (Hb : has_bits mode w_bit = true) by by apply (Hwr1 (meta_segs m) mode d).
      eexists _, mode. split; [|done]. by apply (exec_Create_file p metaMode fs1 mode d).
    - eexists _, metaMode. split; [|done]. apply exec_Create_new; [done|done|]. by apply (tidy_unlinkable fs1 p dm). }
  destruct Hcr as (fs2 & mode & Hex & -> & Hb).
  assert (Hti2 : forall d, tidy (<[p := NFile mode d]> fs1)).
  { intros d. apply (tidy_insert fs1 p _ dm); [done|done|by rewrite Hpar| |done]. intros k Hk. destruct (Hnp _ Hk) as (? & ? & [=]). }
  assert (Hwr2 : forall d, writable [t] (<[p := NFile mode d]> fs1)).
  { intros d r md d' Hr. destruct (decide ([t] ++ r = p)) as [Hrp|Hrp].
    - rewrite Hrp, lookup_insert_eq in Hr. injection Hr as <- _. done.
    - rewrite lookup_insert_ne in Hr by done. by eapply Hwr1. }
  apply runs_bind. eapply runs_exec_bind; [exact Hex|].
  refine (runs_dep (fun h => sys E (OWrite p) _ _) _ _ _). intros h. eapply runs_exec; [by apply exec_sys|]. cbn beta.
  unfold set_data. rewrite lookup_insert_eq, insert_insert_eq. cbn [fst snd fmap option_fmap option_map].
  apply runs_ret. split; [done|]. auto.
Qed.

Lemma runs_write_metas_tidy (t : string) (metas : list Meta) : forall (done_ : list Meta) (fs : Fs),
  name_ok t -> Forall clean_meta metas -> Forall clean_meta done_ -> holds [t] done_ fs -> tidy fs -> writable [t] fs ->
  runs (write_metas E [t] metas) fs (fun r fs' => r = None /\ tidy fs').
Proof.
  induction metas as [|m metas IH]; intros done_ fs Ht Hc Hd Hh Hti Hw; cbn [write_metas]; [by apply runs_ret|].
  inversion Hc; subst. apply runs_bind. eapply runs_weaken.
  { apply runs_and; [by apply (runs_write_meta E Hsuffix t done_ m fs); auto using framed_refl|].
    by apply (runs_write_meta_tidy t done_ m fs). }
  intros r fs1 [[_ Hh1] (-> & Hti1 & Hw1)]. apply (IH (done_ ++ [m])); auto. apply Forall_app. split; [done|by apply Forall_singleton].
Qed.

Lemma runs_Rename_tidy (a b : string) (fs : Fs) mode : tidy fs -> a <> b -> fs !! [a] = Some (NDir mode) ->
  (forall q, under [b] q = true -> fs !! q = None) ->
  runs (Rename E [a] [b]) fs (fun r fs' => r = None /\ tidy fs').
Proof.
  intros Ht Hab Ha Hb. destruct (t_base fs Ht) as [bm Hbm].
  assert (Hex : exec (Rename E [a] [b]) fs None (move_tree [a] [b] fs)).
  { intros h <-. exists [move_tree [a] [b] (fs_cur h)]. rewrite fs_cur_snoc. unfold Rename, sys. rewrite quiet.
    rewrite tidy_find, Ha; [|done|].
    - rewrite !(tidy_unlinkable (fs_cur h) _ bm) by done. cbn [andb].
      rewrite (proj2 (paths_under_nil [b] (fs_cur h))) by done. cbn [List.filter]. by rewrite (Hb [b]) by apply under_refl.
    - intros q n Hq Hn. destruct (t_wf _ Ht [a] q Hq) as [k Hk]; [eauto|naive_solver]. }
  eapply runs_exec; [exact Hex|]. split; [done|]. by apply tidy_move.
Qed.

(** A catalog that can be read is stored. *)
Lemma runs_writeFS_tidy (c : string) (metas : list Meta) (werr : option error) (fs : Fs) :
  catalog_ok c -> Forall clean_meta metas -> tidy fs ->
  runs (writeFS E c (metas, werr)) fs (fun r fs' => tidy fs' /\ match r with inr _ => True | inl _ => werr <> None end).
Proof.
  intros Hcok Hcl Hti. destruct Hcok as [Hc Hdot]. unfold writeFS.
  apply runs_bind. eapply runs_weaken; [by apply runs_orphaned_tidy|]. intros r fs1 (-> & Ht1 & Hno).
  apply runs_bind. eapply runs_weaken; [apply runs_and; [apply runs_MkdirTemp|by apply (runs_MkdirTemp_tidy c fs1)]|].
  intros [e|tmp] fs2 [H2 [Ht2 Hr]]; [done|]. destruct H2 as ([h ->] & -> & Hfresh). cbn [app] in *.
  set (t := tmp_prefix c +:+ os_temp E h) in *.
  assert (Hok : name_ok t) by (apply tmp_name_ok; auto).
  assert (Htc : t <> c).
  { intros Heq. assert (Hd : strings_HasPrefix t "." = true); [|congruence].
    apply HasPrefix_spec. unfold t, tmp_prefix. rewrite <- !str_app_assoc. by eexists. }
  set (fs2 := <[[t] := NDir rwx]> fs1) in *.
  assert (Hn : forall r, r <> [] -> fs2 !! ([t] ++ r) = None).
  { intros r Hr'. unfold fs2. rewrite lookup_insert_ne; [apply Hfresh, (under_app [t])|]. by intros [= <-]. }
  assert (Hh2 : holds [t] [] fs2) by (apply (holds_empty _ _ rwx); [unfold fs2; by rewrite lookup_insert_eq|done]).
  assert (Hw2 : writable [t] fs2).
  { intros r mode d Hr'. destruct (decide (r = [])) as [->|Hne]; [|by rewrite Hn in Hr'].
    cbn [app] in Hr'. unfold fs2 in Hr'. by rewrite lookup_insert_eq in Hr'. }
  apply runs_bind. apply (runs_weaken _ _ (fun r fs' => tidy fs' /\ match r with inr _ => True | inl _ => werr <> None end)).
  - unfold write_tmp, cacheDir. cbn [fst snd]. apply runs_bind. eapply runs_weaken.
    { apply runs_and; [by apply (runs_write_metas E Hsuffix t metas [] fs2); auto using framed_refl|].
      by apply (runs_write_metas_tidy t metas [] fs2). }
    intros r fs3 [[_ Hh3] [-> Ht3]]. specialize (Hh3 eq_refl). destruct werr as [e|]; [by apply runs_ret|].
    eapply runs_exec_bind; [by apply exec_RemoveAll_tidy|].
    destruct (h_root _ _ _ Hh3) as [m3 Hm3].
    apply runs_bind. eapply runs_weaken; [apply (runs_Rename_tidy t c _ m3)|].
    + by apply tidy_without.
    + done.
    + rewrite lookup_without. assert (Hu : under [c] [t] = false) by (apply bool_decide_eq_false_2; intros [? Hx]; injection Hx; congruence).
      by rewrite Hu.
    + intros q Hq. by rewrite lookup_without, Hq.
    + intros r fs4 [-> Ht4]. by apply runs_ret.
  - intros r fs3 [Ht3 Hr3]. eapply runs_exec_bind; [by apply exec_RemoveAll_tidy|]. apply runs_ret. split; [|done]. by apply tidy_without.
Qed.

End Working.

(** ** What the cache answers *)

(** What is remembered of a catalog: the reference, and the error or the files. *)
Definition cached (s : CacheState) (c : string) : option (string * result (gmap path string)) :=
  (fun d => (cd_Ref d, match cd_Error d with
                       | Some e => inl e
                       | None => inr (files_below [c] (fs_cur (cs_disk s)))
                       end)) <$> cacheDataByCatalogName s !! c.

Lemma cached_ext s s' c :
  cacheDataByCatalogName s' !! c = cacheDataByCatalogName s !! c ->
  (forall q, under [c] q = true -> fs_cur (cs_disk s') !! q = fs_cur (cs_disk s) !! q) -> cached s' c = cached s c.
Proof.
  intros Hd Hq. unfold cached. rewrite Hd. destruct (cacheDataByCatalogName s !! c) as [[r [e|]]|]; try done. cbn. do 2 f_equal.
  f_equal. apply map_eq. intros p. rewrite !lookup_files_below, Hq; [done|apply under_app].
Qed.

Section Answers.
Context (E : OsEnv) (Hsuffix : forall h, str_has slash (os_temp E h) = false).

Lemma Put_stream_spec c ref metas werr s :
  catalog_ok c -> Forall clean_meta metas ->
  let r := Cache_Put E c ref (inr (metas, werr)) s in
  cached r.2 c = Some (ref, match r.1 with inl e => inl e | inr _ => inr (catalog_files metas) end) /\
  (forall p, r.1 = inr p -> p = [c] /\ werr = None /\ holds [c] metas (fs_cur (cs_disk r.2))) /\
  (forall c', catalog_ok c' -> c' <> c -> cached r.2 c' = cached s c').
Proof.
  intros Hc Hm. cbv zeta.
  pose proof (runs_spec _ (cs_disk s) _ (runs_writeFS E Hsuffix c metas werr (fs_cur (cs_disk s)) Hc Hm)) as [Hoth Hr].
  unfold Cache_Put. rewrite !io_bind_run. unfold on_disk, set_data_of.
  destruct (writeFS E c (metas, werr) (cs_disk s)) as [r h']. cbn in *.
  assert (Hothers : forall d c', catalog_ok c' -> c' <> c ->
    cached (mkCacheState (<[c := d]> (cacheDataByCatalogName s)) h') c' = cached s c').
  { intros d c' Hc' Hne. apply cached_ext; cbn; [by rewrite lookup_insert_ne|]. by apply Hoth. }
  destruct r as [e|p]; cbn; (split; [|split; [|by apply Hothers]]).
  - unfold cached. cbn. by rewrite lookup_insert_eq.
  - done.
  - destruct Hr as (-> & -> & Hh). unfold cached. cbn. rewrite lookup_insert_eq. cbn. by rewrite (h_files _ _ _ Hh).
  - intros p' [= <-]. done.
Qed.

Lemma Put_stream_frame c c' ref metas werr s :
  catalog_ok c -> catalog_ok c' -> c' <> c -> (forall m, m ∈ metas -> ~ leads_into c' m) ->
  cached (Cache_Put E c ref (inr (metas, werr)) s).2 c' = cached s c'.
Proof.
  intros Hc Hc' Hne Hno.
  pose proof (runs_spec _ (cs_disk s) _ (runs_writeFS_frame E Hsuffix c c' metas werr (fs_cur (cs_disk s)) Hc Hc' Hne Hno)) as H.
  unfold Cache_Put. rewrite !io_bind_run. unfold on_disk, set_data_of.
  destruct (writeFS E c (metas, werr) (cs_disk s)) as [r h']. cbn in *. apply cached_ext; cbn; [by rewrite lookup_insert_ne|done].
Qed.

Lemma Put_stream_failed c ref metas werr s e :
  (Cache_Put E c ref (inr (metas, werr)) s).1 = inl e -> cached (Cache_Put E c ref (inr (metas, werr)) s).2 c = Some (ref, inl e).
Proof.
  unfold Cache_Put. rewrite !io_bind_run. unfold on_disk, set_data_of.
  destruct (writeFS E c (metas, werr) (cs_disk s)) as [r h']. cbn. intros ->. unfold cached. cbn. by rewrite lookup_insert_eq.
Qed.

Lemma Put_stream_error c ref metas e s : exists e', (Cache_Put E c ref (inr (metas, Some e)) s).1 = inl e'.
Proof.
  pose proof (runs_spec _ (cs_disk s) _ (runs_writeFS_error E c metas e (fs_cur (cs_disk s)))) as [e' H].
  exists e'. unfold Cache_Put. rewrite !io_bind_run. unfold on_disk, set_data_of.
  destruct (writeFS E c (metas, Some e) (cs_disk s)) as [r h']. exact H.
Qed.

(** C18. However the operating system fails: a Put of a catalog's stream that
    fails is answered, for that reference, with its error, as is one whose stream
    ended in an error; one that succeeds, where the names of its metas are clean
    ([clean_meta]), with every meta of the stream in its file, and never a part of
    them; a Put of an error is answered with that error (as the code has it: the
    comment of Put says that an error is ignored where content is cached),
    another reference with nothing; a Remove that succeeds forgets the catalog.
    What is answered for another catalog is changed by none of them but by a Put
    of a meta whose names, which the code does not check, lead into that
    catalog's directory ([crafted_package_overwrites]), which clean names never
    do ([clean_stays]).

    Relied on: catalog names are names of objects, one element that does not
    start with a dot ([catalog_ok]); the suffix of a temporary directory holds no
    slash. *)
Theorem filesystemCache_keeps_promises :
  (forall c ref metas werr s, catalog_ok c ->
    let r := Cache_Put E c ref (inr (metas, werr)) s in
    (is_Some werr -> exists e, r.1 = inl e) /\
    (forall e, r.1 = inl e -> cached r.2 c = Some (ref, inl e)) /\
    (forall p, r.1 = inr p -> Forall clean_meta metas -> p = [c] /\ cached r.2 c = Some (ref, inr (catalog_files metas))) /\
    (forall c', catalog_ok c' -> c' <> c -> (forall m, m ∈ metas -> ~ leads_into c' m) -> cached r.2 c' = cached s c')) /\
  (forall c ref e s,
    let r := Cache_Put E c ref (inl e) s in
    r.1 = inl e /\ cached r.2 c = Some (ref, inl e) /\ (forall c', c' <> c -> cached r.2 c' = cached s c')) /\
  (forall c ref s,
    Cache_Get s c ref =
      match cached s c with
      | Some (ref', r) => if decide (ref = ref') then match r with inl e => inl e | inr _ => inr (Some [c]) end else inr None
      | None => inr None
      end) /\
  (forall c s,
    let r := Cache_Remove E c s in
    (r.1 = None -> cached r.2 c = None) /\ (forall c', c' <> c -> cached r.2 c' = cached s c')).
Proof.
  split; [|split; [|split]].
  - intros c ref metas werr s Hc. cbv zeta. split; [|split; [|split]].
    + intros [e ->]. exact (Put_stream_error c ref metas e s).
    + apply Put_stream_failed.
    + intros p Hr Hm. destruct (Put_stream_spec c ref metas werr s Hc Hm) as (H1 & H2 & _). rewrite Hr in H1.
      split; [by apply H2|exact H1].
    + intros c' Hc' Hne Hno. by apply Put_stream_frame.
  - intros c ref e s. cbn. split; [done|]. split.
    + unfold cached. cbn. by rewrite lookup_insert_eq.
    + intros c' Hne. by apply cached_ext; cbn; [rewrite lookup_insert_ne|].
  - intros c ref s. unfold Cache_Get, cached. destruct (cacheDataByCatalogName s !! c) as [[r [e|]]|]; cbn; by repeat case_decide.
  - intros c s. cbv zeta. unfold Cache_Remove. rewrite io_bind_run. cbn [fst snd].
    destruct (cacheDataByCatalogName s !! c) as [d|] eqn:Ed; [|cbn; split; [unfold cached; by rewrite Ed|done]].
    rewrite io_bind_run. unfold on_disk. rewrite (surjective_pairing (RemoveAll E (cacheDir c) (cs_disk s))).
    destruct (runs_spec _ (cs_disk s) _ (runs_RemoveAll E (cacheDir c) (fs_cur (cs_disk s)))) as [Hu _].
    destruct (RemoveAll E (cacheDir c) (cs_disk s)) as [r h']. cbn [fst snd] in *.
    assert (Hoth : forall m c', c' <> c -> m !! c' = cacheDataByCatalogName s !! c' -> cached (mkCacheState m h') c' = cached s c').
    { intros m c' Hne Hmm. apply cached_ext; cbn; [done|]. intros q [t ->]%under_spec. apply Hu.
      apply bool_decide_eq_false_2. intros [? Hx]. injection Hx. congruence. }
    destruct r as [e|]; cbn; (split; [|intros c' Hne; apply Hoth; [done|]]); try done.
    + intros _. unfold cached. cbn. by rewrite lookup_delete_eq.
    + by rewrite lookup_delete_ne.
Qed.

End Answers.

(** ** Packages *)

(** The files of one package, by schema and name. *)
Definition package_files (pkg : string) (metas : list Meta) : gmap path string :=
  foldl (fun acc m => if decide (meta_pkg m = pkg) then <[[mt_Schema m; meta_file m] := mt_Blob m]> acc else acc) ∅ metas.

Lemma package_files_spec pkg metas r : package_files pkg metas !! r = catalog_files metas !! (pkg :: r).
Proof.
  induction metas as [|m metas IH] using rev_ind; [done|]. rewrite catalog_files_snoc. unfold package_files in *. rewrite foldl_app.
  cbn [foldl]. case_decide as Hp.
  - subst pkg. destruct (decide (r = [mt_Schema m; meta_file m])) as [->|Hr]; [by rewrite !lookup_insert_eq|].
    rewrite !lookup_insert_ne; [done| |done]. intros H. apply Hr. by injection H.
  - rewrite lookup_insert_ne; [done|]. intros H. by injection H.
Qed.

Lemma catalog_files_key metas r d : catalog_files metas !! r = Some d -> exists m, m ∈ metas /\ r = meta_segs m.
Proof.
  induction metas as [|m metas IH] using rev_ind; [done|]. rewrite catalog_files_snoc.
  destruct (decide (r = meta_segs m)) as [->|Hr]; [intros _; exists m; set_solver|]. rewrite lookup_insert_ne by done.
  intros H. destruct (IH H) as (m' & Hm & ->). exists m'. set_solver.
Qed.

Lemma catalog_files_has metas m : m ∈ metas -> is_Some (catalog_files metas !! meta_segs m).
Proof.
  induction metas as [|m' metas IH] using rev_ind; [by intros ?%not_elem_of_nil|]. rewrite catalog_files_snoc.
  intros Hm. destruct (decide (meta_segs m = meta_segs m')) as [->|Hne]; [rewrite lookup_insert_eq; eauto|].
  rewrite lookup_insert_ne by done. apply IH. apply elem_of_app in Hm as [Hm|Hm%list_elem_of_singleton]; [done|]. by subst.
Qed.

Section Client.
Context (E : OsEnv) `{Hquiet : !Quiet E} (Hsuffix : forall h, str_has slash (os_temp E h) = false).
Context {FBC : Type} `{CA : ConditionsAPI} (H : HttpEnv FBC).

Lemma LoadFS_package (c pkg : string) (metas : list Meta) (fs : Fs) : tidy fs -> holds [c] metas fs ->
  LoadFS H [c; pkg] fs = if decide (pkg ∈ map meta_pkg metas) then ht_LoadFS H (package_files pkg metas) else inl not_exist.
Proof.
  intros Ht Hh. unfold LoadFS.
  assert (Hf : forall r, files_below [c] fs !! r = catalog_files metas !! r) by (intros r; by rewrite (h_files _ _ _ Hh)).
  assert (Hfind : find_node fs [c; pkg] = match fs !! [c; pkg] with Some n => inr n | None => inl not_exist end).
  { apply tidy_find; [done|]. intros q n (x & s & Hq) Hn. destruct (h_root _ _ _ Hh) as [k Hk]. destruct (t_base fs Ht) as [b Hb].
    destruct q as [|y [|z q]]; [naive_solver|injection Hq as <- _; naive_solver|]. injection Hq as _ _ Hq. by destruct q. }
  rewrite Hfind. case_decide as Hp.
  - apply list_elem_of_fmap in Hp as (m & -> & Hm). destruct (catalog_files_has metas m Hm) as [d Hd].
    rewrite <- Hf, lookup_files_below in Hd. destruct (t_wf fs Ht ([c] ++ meta_segs m) [c; meta_pkg m]) as [k ->].
    { by exists (mt_Schema m), [meta_file m]. }
    { destruct (fs !! ([c] ++ meta_segs m)); [eauto|done]. }
    f_equal. apply map_eq. intros r. rewrite package_files_spec, <- Hf, !lookup_files_below. done.
  - destruct (fs !! [c; pkg]) as [n|] eqn:En; [|done]. exfalso. apply Hp, list_elem_of_fmap.
    pose proof (h_nodes _ _ _ Hh [pkg] n ltac:(done) En) as Hn. destruct n as [mode d|mode| |]; try done.
    + specialize (Hf [pkg]). rewrite lookup_files_below in Hf. cbn [app] in Hf. rewrite En in Hf. symmetry in Hf.
      apply catalog_files_key in Hf as (m & _ & [=]).
    + destruct Hn as (m & Hm & x & s & Hs). exists m. split; [|done]. by injection Hs.
Qed.

(** From catalogd to a package: when the catalog is served and catalogd
    answers its content, populating the cache succeeds with one request, and a
    package then consists of exactly the metas of that package (the last one,
    if several have the same schema and name), or is empty if there are none;
    and reconciling the catalog again asks for nothing. *)
Theorem populated_package_loaded catalog ref typ base url metas w pkg :
  is_serving catalog = true ->
  cst_ResolvedSource (cat_Status catalog) = Some (mkResolvedSource typ (Some ref)) -> ref <> EmptyString ->
  cst_URLs (cat_Status catalog) = Some base ->
  ht_JoinPath H base clusterCatalogV1ApiURL = inr url -> ht_NewRequest H url = None -> ht_client H w.2 = None ->
  ht_Do H w.2 url = inr (mkResponse StatusOK (metas, None)) ->
  catalog_ok (cat_Name catalog) -> Forall clean_meta metas -> tidy (fs_cur (cs_disk w.1)) -> name_ok pkg ->
  let '(r, w') := PopulateCache E H (Some catalog) w in
  r = inr [cat_Name catalog] /\ w'.2 = w.2 ++ [url] /\ tidy (fs_cur (cs_disk w'.1)) /\
  GetPackage H w'.1 (fs_cur (cs_disk w'.1)) (Some catalog) pkg =
    (if decide (pkg ∈ map meta_pkg metas) then
       match ht_LoadFS H (package_files pkg metas) with
       | inr fbc => inr fbc
       | inl e => if has_kind KNotExist e then inr (ht_empty H)
                  else inl (flat ("error loading package " +:+ fmt_q pkg +:+ ": ") e)
       end
     else inr (ht_empty H)) /\
  Catalog_Reconcile E H (cat_Name catalog) (inr catalog) w' = (None, w').
Proof.
  intros Hs Hsrc Href Hu Hj Hnr Hcl Hdo Hc Hm Ht Hp.
  unfold PopulateCache, validateCatalog. rewrite Hs, Hsrc. cbn [negb res_Image].
  unfold doRequest. rewrite Hu, Hj, Hnr. rewrite io_bind_run. rewrite Hcl, Hdo. cbn [fst snd StatusCode Body].
  change (negb (StatusOK =? StatusOK)) with false. cbn iota. unfold on_cache_state. cbn [fst snd].
  destruct (Put_stream_spec E Hsuffix (cat_Name catalog) ref metas None w.1 Hc Hm) as (Hca & Hok & _).
  assert (Hres : (exists p, (Cache_Put E (cat_Name catalog) ref (inr (metas, None)) w.1).1 = inr p) /\
    tidy (fs_cur (cs_disk (Cache_Put E (cat_Name catalog) ref (inr (metas, None)) w.1).2))).
  { pose proof (runs_spec _ (cs_disk w.1) _ (runs_writeFS_tidy E Hsuffix (cat_Name catalog) metas None _ Hc Hm Ht)) as [Ht' Hr].
    unfold Cache_Put. rewrite !io_bind_run. unfold on_disk. destruct (writeFS _ _ _ _) as [[e|p] h']; [done|]. cbn in *. eauto. }
  destruct (Cache_Put E (cat_Name catalog) ref (inr (metas, None)) w.1) as [r s'] eqn:Ep. cbn [fst snd] in *.
  destruct Hres as [[p ->] Ht']. destruct (Hok p eq_refl) as (-> & _ & Hh).
  assert (Hget : Cache_Get s' (cat_Name catalog) ref = inr (Some [cat_Name catalog])).
  { unfold Cache_Get. unfold cached in Hca. destruct (cacheDataByCatalogName s' !! cat_Name catalog) as [d|]; [|done].
    cbn in Hca. injection Hca as <- Hd. rewrite decide_True by done. by destruct (cd_Error d). }
  split; [done|]. split; [done|]. split; [done|]. split.
  - unfold GetPackage, validateCatalog. rewrite Hs, Hsrc. cbn [negb res_Image]. rewrite Hget.
    destruct Hp as [(Hp1 & Hp2 & Hp3) Hp4]. unfold fs_Sub. rewrite bool_decide_eq_false_2 by done.
    rewrite Split_no_sep by done. unfold valid_elem. cbn [forallb]. rewrite !bool_decide_eq_false_2 by done. cbn [negb andb].
    change ([cat_Name catalog] ++ [pkg]) with [cat_Name catalog; pkg]. rewrite (LoadFS_package _ _ metas) by done.
    by case_decide.
  - unfold Catalog_Reconcile. rewrite Hsrc, bool_decide_eq_false_2 by done. rewrite io_bind_run. cbn [fst snd]. by rewrite Hget.
Qed.

End Client.
