(* ===== verification/CatalogCacheSamples.v ===== *)
(** * The catalog cache on concrete catalogs

    Witnesses of the properties of CatalogCacheProps.v, and a catalog whose
    package names lead out of its own directory. *)

From Stdlib Require Import Ascii.
From S2P Require Import Prelude GoErrors ApiTypes CatalogIndex GoPath DiskFs DiskProps ImageFilter ImageCache CatalogCache CatalogCacheProps.

Module CatalogCacheSamples.

(** An operating system where every call works. *)
Definition os_named : OsEnv :=
  {| os_fails _ _ := None; os_left _ _ := true; os_follow _ _ := inl not_exist; os_mtime _ _ := 0;
     os_temp _ := "tmp"; os_short _ := O |}.

Lemma named_quiet : Quiet os_named.
Proof. by intros h c. Qed.

Definition empty_disk : Hist := [ {[ [] := NDir rwx ]} ].
Definition empty_cache : CacheState := mkCacheState ∅ empty_disk.

Lemma empty_tidy : tidy (fs_cur empty_disk).
Proof.
  assert (Hl : forall p n, fs_cur empty_disk !! p = Some n -> p = [] /\ n = NDir rwx).
  { intros p n. cbn. intros [<- <-]%lookup_singleton_Some. done. }
  split.
  - intros p q (x & s & ->) [n Hn]. apply Hl in Hn as [Hn _]. by destruct q.
  - intros p mode [_ Hn]%Hl. by injection Hn as ->.
  - by exists rwx.
Qed.

Definition catalog_metas : list Meta :=
  [mkBlob "olm.package" "" "argocd" "{package argocd}";
   mkBlob "olm.bundle" "argocd" "argocd.v1" "{bundle 1}";
   mkBlob "olm.bundle" "argocd" "argocd.v2" "{bundle 2}";
   mkBlob "olm.package" "" "kiali" "{package kiali}"].

Lemma metas_clean : Forall clean_meta catalog_metas.
Proof. repeat (apply Forall_cons; split; [by vm_compute|]). by apply Forall_nil. Qed.

Definition served : ClusterCatalog :=
  mkCatalog (mkMeta "operatorhub" "" "" 1 ∅ ∅ [] [] 0 None)
    (mkCatSpec (mkCatSource "Image" None) 0 "Available")
    (mkCatStatus [mkCond "Serving" ConditionTrue "Available" "" 1]
       (Some (mkResolvedSource "Image" (Some "quay.io/operatorhub@sha256:1"))) (Some "https://catalogd/catalogs/operatorhub") None).

Definition http_sample : HttpEnv (list (path * string)) :=
  {| ht_client _ := None; ht_JoinPath base p := inr (base +:+ "/" +:+ p); ht_NewRequest _ := None;
     ht_Do _ _ := inr (mkResponse StatusOK (catalog_metas, None));
     ht_LoadFS files := inr (map_to_list files); ht_empty := [] |}.

Lemma argocd_ok : name_ok "argocd".
Proof. by vm_compute. Qed.

Lemma unknown_ok : name_ok "unknown".
Proof. by vm_compute. Qed.

Lemma operatorhub_ok : catalog_ok "operatorhub".
Proof. by vm_compute. Qed.

Lemma community_ok : catalog_ok "community".
Proof. by vm_compute. Qed.

Definition succeeds {A} (r : result A) : bool := match r with inr _ => true | inl _ => false end.

Definition first_put := Cache_Put os_named "operatorhub" "r1" (inr (catalog_metas, None)) empty_cache.

(** The content of a catalog is answered, also after a Put of another one. *)
Lemma filesystemCache_keeps_promises_witness :
  cached first_put.2 "operatorhub" = Some ("r1", inr (catalog_files catalog_metas)) /\
  cached (Cache_Put os_named "community" "r2" (inr (catalog_metas, Some (ENew "unexpected EOF"))) first_put.2).2 "operatorhub" =
    Some ("r1", inr (catalog_files catalog_metas)).
Proof.
  destruct (filesystemCache_keeps_promises os_named ltac:(done)) as [HPut _].
  assert (H1 : cached first_put.2 "operatorhub" = Some ("r1", inr (catalog_files catalog_metas))).
  { destruct (HPut "operatorhub" "r1" catalog_metas None empty_cache operatorhub_ok) as (_ & _ & H & _). fold first_put in H.
    assert (Hs : succeeds first_put.1 = true) by (vm_compute; reflexivity).
    destruct first_put.1 as [e|p] eqn:Ep; [discriminate Hs|]. exact (proj2 (H p eq_refl metas_clean)). }
  split; [exact H1|]. rewrite <- H1.
  destruct (HPut "community" "r2" catalog_metas (Some (ENew "unexpected EOF")) first_put.2 community_ok) as (_ & _ & _ & H).
  apply (H "operatorhub" operatorhub_ok ltac:(done)). intros m Hm. apply clean_stays; [exact operatorhub_ok|].
  exact (proj1 (List.Forall_forall _ _) metas_clean m (proj1 (list_elem_of_In _ _) Hm)).
Defined.

Lemma populated_package_loaded_witness :
  let '(r, w') := PopulateCache os_named http_sample (Some served) (empty_cache, []) in
  r = inr ["operatorhub"] /\
  GetPackage http_sample w'.1 (fs_cur (cs_disk w'.1)) (Some served) "argocd" =
    inr (map_to_list (package_files "argocd" catalog_metas)) /\
  GetPackage http_sample w'.1 (fs_cur (cs_disk w'.1)) (Some served) "unknown" = inr [].
Proof.
  pose proof (fun pkg (Hp : name_ok pkg) =>
    populated_package_loaded os_named (Hquiet := named_quiet) ltac:(done) http_sample served "quay.io/operatorhub@sha256:1" "Image"
      "https://catalogd/catalogs/operatorhub" "https://catalogd/catalogs/operatorhub/api/v1/all" catalog_metas (empty_cache, []) pkg
      eq_refl eq_refl ltac:(done) eq_refl eq_refl eq_refl eq_refl eq_refl operatorhub_ok metas_clean empty_tidy Hp) as HP.
  pose proof (HP "argocd" argocd_ok) as H1. pose proof (HP "unknown" unknown_ok) as H2. clear HP.
  destruct (PopulateCache os_named http_sample (Some served) (empty_cache, [])) as [r w'].
  destruct H1 as (-> & _ & _ & H1 & _). destruct H2 as (_ & _ & _ & H2 & _).
  split; [done|]. split; [exact H1|exact H2].
Defined.

(** The names of a catalog's metas are not checked: a meta of the catalog
    [evil] whose package is [../victim/argocd] replaces a bundle in the cached
    content of the catalog [victim], for which the cache goes on answering as
    if nothing had happened. *)
Theorem crafted_package_overwrites blob blob' :
  let bundle := ["argocd"; "olm.bundle"; "argocd.v1.json"] in
  let s1 := (Cache_Put os_named "victim" "r1" (inr ([mkBlob "olm.bundle" "argocd" "argocd.v1" blob], None)) empty_cache).2 in
  let s2 := Cache_Put os_named "evil" "r2" (inr ([mkBlob "olm.bundle" "../victim/argocd" "argocd.v1" blob'], None)) s1 in
  s2.1 = inr ["evil"] /\
  Cache_Get s1 "victim" "r1" = inr (Some ["victim"]) /\ Cache_Get s2.2 "victim" "r1" = inr (Some ["victim"]) /\
  files_below ["victim"] (fs_cur (cs_disk s1)) !! bundle = Some blob /\
  files_below ["victim"] (fs_cur (cs_disk s2.2)) !! bundle = Some blob'.
Proof. cbv zeta. do 4 (split; [by vm_compute|]). by vm_compute. Qed.

End CatalogCacheSamples.
