(* ===== verification/ContentManager.v ===== *)
(** * Watching the content of an extension

    src/internal/operator-controller/contentmanager/: the informer of one kind
    (source/dynamicsource.go, source/internal/eventhandler.go), the watched
    kinds of an extension (cache/cache.go) and the caches of all extensions
    (contentmanager.go, sourcerer.go).

    A cache runs many goroutines: a Watch, which holds the mutex, starts one for
    each new kind; every source has an informer, a goroutine that reports its
    synchronisation, and a handler of watch errors, which calls back into the
    cache.  The state [cache_state] is what they share, each [action] is what
    one of them does up to the next point where another one can get in between,
    and [step] says whether an action is possible and what it leaves.  Channels
    and contexts are kept as far as they can be seen: whether they are closed or
    done, and whether a goroutine waits to send.  The informers and the
    controller answer through the arguments of the actions. *)

From stdpp Require Import countable.
From S2P Require Import Prelude GoErrors ApiTypes Phase.

#[export] Instance GroupVersionKind_countable : Countable GroupVersionKind.
Proof.
  apply (inj_countable' (fun g => (gvk_Group g, gvk_Version g, gvk_Kind g)) (fun '(g, v, k) => mkGVK g v k)). by intros [].
Defined.

(** ** dynamicsource.go *)

(** The channel syncedChan: nobody sends, a goroutine is blocked sending, or it
    is closed. *)
Inductive syncedChan := ChanEmpty | ChanSending | ChanClosed.

#[export] Instance syncedChan_eq_dec : EqDecision syncedChan.
Proof. solve_decision. Defined.

(** type dynamicInformerSource struct; startedChan and erroredChan are closed
    when [dis_started] is true and [dis_err] is set. *)
Record dynamicInformerSource := mkDIS {
  dis_gvk : GroupVersionKind;
  dis_started : bool;
  dis_synced : syncedChan;
  dis_err : option error;
  dis_cancelled : bool;   (* informerCtx *)
}.

Definition NewDynamicSource (gvk : GroupVersionKind) : dynamicInformerSource := mkDIS gvk false ChanEmpty None false.

Definition with_synced (c : syncedChan) (s : dynamicInformerSource) : dynamicInformerSource :=
  mkDIS (dis_gvk s) (dis_started s) c (dis_err s) (dis_cancelled s).
Definition informerCancel (s : dynamicInformerSource) : dynamicInformerSource :=
  mkDIS (dis_gvk s) (dis_started s) (dis_synced s) (dis_err s) true.

(** func (dis *dynamicInformerSource) Start(ctx, q) error, when the informer can
    be set up: closing a closed channel panics. *)
Definition Start (s : dynamicInformerSource) : go dynamicInformerSource :=
  if dis_started s then Panic "close of closed channel"
  else Ret (mkDIS (dis_gvk s) true (dis_synced s) (dis_err s) (dis_cancelled s)).

(** func (dis *dynamicInformerSource) hasSynced() bool: a goroutine that waits
    to send goes on, and closes the channel. *)
Definition hasSynced (s : dynamicInformerSource) : bool * dynamicInformerSource :=
  match dis_synced s with
  | ChanEmpty => (false, s)
  | _ => (true, with_synced ChanClosed s)
  end.

(** dis.errOnce.Do *)
Definition errOnce (e : error) (s : dynamicInformerSource) : dynamicInformerSource :=
  mkDIS (dis_gvk s) (dis_started s) (dis_synced s) (match dis_err s with Some e' => Some e' | None => Some e end) (dis_cancelled s).

(** func (dis *dynamicInformerSource) Close() error *)
Definition Close (s : dynamicInformerSource) : option error * dynamicInformerSource :=
  if dis_started s then (None, informerCancel s) else (Some (ENew "source has not yet started"), s).

(** The cases of the select statement of WaitForSync. *)
Inductive wait_case := WDone | WErrored | WCancelled | WSynced.

(** func (dis *dynamicInformerSource) WaitForSync(ctx) error, taking the given
    case, if it is ready; the timeout of ctx may run out at any time. *)
Definition WaitForSync (c : wait_case) (s : dynamicInformerSource) : option (option error * dynamicInformerSource) :=
  if negb (dis_started s) then Some (Some (ENew "not yet started"), s)
  else
    match c with
    | WDone => Some (Some (ENew "context deadline exceeded"), s)
    | WErrored => match dis_err s with Some e => Some (Some e, s) | None => None end
    | WCancelled => if dis_cancelled s then Some (Some (ENew "context canceled"), s) else None
    | WSynced => match hasSynced s with (true, s') => Some (None, s') | (false, _) => None end
    end.

(** ** cache.go *)

(** A goroutine of startNewSources, by what it does next: make the source, hand
    it to the watcher, wait for it, or send its result. *)
Inductive start_thread :=
| StNew
| StWatch (id : nat)
| StWait (id : nat)
| StResult (r : error + nat).

(** A watch error handler, by what it does next: call OnPostSyncError, cancel
    the informer (and then, maybe, requeue), or requeue the owner. *)
Inductive error_handler :=
| HCallback
| HCancel (requeue : bool)
| HQueue.

(** A Watch in progress: its set of kinds, its goroutines and the errors it
    collected. *)
Record watch_call := mkWatch {
  wc_gvks : gset GroupVersionKind;
  wc_threads : gmap GroupVersionKind start_thread;
  wc_errors : list error;
}.

(** type cache struct, with all sources ever made, the handlers that run, the
    requests put into the queue and what Watch and Close returned. *)
Record cache_state := mkCacheSt {
  c_sources : gmap GroupVersionKind nat;
  c_heap : gmap nat dynamicInformerSource;
  c_next : nat;
  c_watch : option watch_call;     (* holds the mutex *)
  c_handlers : gmap nat error_handler;
  c_queue : list string;
  c_returned : list (option error);
  c_panic : option string;
}.

Definition NewCache : cache_state := mkCacheSt ∅ ∅ 0 None ∅ [] [] None.

Definition with_heap (h : gmap nat dynamicInformerSource) (st : cache_state) : cache_state :=
  mkCacheSt (c_sources st) h (c_next st) (c_watch st) (c_handlers st) (c_queue st) (c_returned st) (c_panic st).
Definition with_sources (m : gmap GroupVersionKind nat) (st : cache_state) : cache_state :=
  mkCacheSt m (c_heap st) (c_next st) (c_watch st) (c_handlers st) (c_queue st) (c_returned st) (c_panic st).
Definition with_watch (w : option watch_call) (st : cache_state) : cache_state :=
  mkCacheSt (c_sources st) (c_heap st) (c_next st) w (c_handlers st) (c_queue st) (c_returned st) (c_panic st).
Definition with_handlers (h : gmap nat error_handler) (st : cache_state) : cache_state :=
  mkCacheSt (c_sources st) (c_heap st) (c_next st) (c_watch st) h (c_queue st) (c_returned st) (c_panic st).
Definition with_queue (q : list string) (st : cache_state) : cache_state :=
  mkCacheSt (c_sources st) (c_heap st) (c_next st) (c_watch st) (c_handlers st) q (c_returned st) (c_panic st).
Definition returns (r : option error) (st : cache_state) : cache_state :=
  mkCacheSt (c_sources st) (c_heap st) (c_next st) (c_watch st) (c_handlers st) (c_queue st) (c_returned st ++ [r]) (c_panic st).
Definition panics (msg : string) (st : cache_state) : cache_state :=
  mkCacheSt (c_sources st) (c_heap st) (c_next st) (c_watch st) (c_handlers st) (c_queue st) (c_returned st) (Some msg).

(** func gvksForObjects(objs) (sets.Set, error), on names and kinds. *)
Fixpoint gvksForObjects (objs : list (string * GroupVersionKind)) : result (gset GroupVersionKind) :=
  match objs with
  | [] => inr ∅
  | (name, gvk) :: rest =>
      if bool_decide (gvk_Kind gvk = EmptyString) then inl (ENew ("adding " +:+ name +:+ " to set; object Kind is not defined"))
      else if bool_decide (gvk_Version gvk = EmptyString) then
        inl (ENew ("adding " +:+ name +:+ " to set; object Version is not defined"))
      else match gvksForObjects rest with inl e => inl e | inr s => inr ({[gvk]} ∪ s) end
  end.

(** errors.Join of the errors, sorted by their texts. *)
Definition join_sorted (errs : list error) : option error :=
  errors_Join (map Some (sort_by (fun a b => string_cmp (Error a) (Error b)) errs)).

(** func (c *cache) removeSource(gvk) error *)
Definition removeSource (gvk : GroupVersionKind) (st : cache_state) : option error * cache_state :=
  match c_sources st !! gvk with
  | None => (None, st)
  | Some id =>
      match c_heap st !! id with
      | None => (None, st)
      | Some s =>
          match Close s with
          | (Some err, _) => (Some (EWrap ("closing source for GVK " +:+ fmt_q (gv_String gvk +:+ ", Kind=" +:+ gvk_Kind gvk) +:+ ": ") err ""), st)
          | (None, s') => (None, with_sources (delete gvk (c_sources st)) (with_heap (<[id := s']> (c_heap st)) st))
          end
      end
  end.

Fixpoint remove_all (gvks : list GroupVersionKind) (st : cache_state) : list error * cache_state :=
  match gvks with
  | [] => ([], st)
  | gvk :: rest =>
      let '(err, st) := removeSource gvk st in
      let '(errs, st) := remove_all rest st in
      (match err with Some e => e :: errs | None => errs end, st)
  end.

(** func (c *cache) removeStaleSources(gvks) error *)
Definition removeStaleSources (gvks : gset GroupVersionKind) (st : cache_state) : option error * cache_state :=
  let '(errs, st) := remove_all (elements (dom (c_sources st) ∖ gvks)) st in (join_sorted errs, st).

(** func (c *cache) addSource(gvk, source) error *)
Definition addSource (gvk : GroupVersionKind) (id : nat) (st : cache_state) : option error * cache_state :=
  match c_sources st !! gvk with
  | None => (None, with_sources (<[gvk := id]> (c_sources st)) st)
  | Some _ => (Some (ENew "source already exists"), st)
  end.

(** Closing every source, for Close. *)
Fixpoint close_all (ids : list nat) (heap : gmap nat dynamicInformerSource) : list error * gmap nat dynamicInformerSource :=
  match ids with
  | [] => ([], heap)
  | id :: rest =>
      match heap !! id with
      | None => close_all rest heap
      | Some s =>
          let '(err, s') := Close s in
          let '(errs, heap) := close_all rest (<[id := s']> heap) in
          (match err with Some e => e :: errs | None => errs end, heap)
      end
  end.

(** func (c *cache) Close() error *)
Definition cache_Close (st : cache_state) : option error * cache_state :=
  let '(errs, heap) := close_all (map snd (map_to_list (c_sources st))) (c_heap st) in
  (join_sorted errs, with_heap heap st).

(** The threads of startNewSources for the kinds that are not watched yet. *)
Definition new_threads (gvks : gset GroupVersionKind) (st : cache_state) : gmap GroupVersionKind start_thread :=
  gset_to_gmap StNew (gvks ∖ dom (c_sources st)).

(** ** The actions *)

Inductive action :=
| AWatch (objs : list (string * GroupVersionKind))        (* Watch is called and gets the mutex *)
| ASource (gvk : GroupVersionKind) (err : option error)   (* c.sourcerer.Source *)
| AStart (gvk : GroupVersionKind) (err : option error)    (* watcher.Watch(s), which calls s.Start *)
| AWait (gvk : GroupVersionKind) (c : wait_case)          (* s.WaitForSync returns *)
| ACollect (gvk : GroupVersionKind)                       (* a result is received *)
| AReturn                                                 (* Watch returns *)
| ASync (id : nat)                                        (* the informer has synced *)
| AError (id : nat) (e : error)                           (* the informer reports a watch error *)
| ACallback (id : nat)                                    (* OnPostSyncError *)
| ACancel (id : nat)                                      (* the handler cancels the informer *)
| AQueue (id : nat)                                       (* the deferred q.Add *)
| AClose.                                                 (* Close *)

Section Steps.
Context (owner : string).

Definition thread_step (gvk : GroupVersionKind) (w : watch_call) (th : option start_thread) (errs : list error) (st : cache_state) : cache_state :=
  with_watch (Some (mkWatch (wc_gvks w) (match th with Some th => <[gvk := th]> (wc_threads w) | None => delete gvk (wc_threads w) end)
                      (wc_errors w ++ errs))) st.

(** The goroutine of startNewSources for a kind. *)
Definition step_thread (a : action) (gvk : GroupVersionKind) (w : watch_call) (th : start_thread) (st : cache_state) : option cache_state :=
  match a, th with
  | ASource _ (Some err), StNew => Some (thread_step gvk w (Some (StResult (inl (EWrap "getting source: " err "")))) [] st)
  | ASource _ None, StNew =>
      let id := c_next st in
      Some (thread_step gvk w (Some (StWatch id)) []
        (mkCacheSt (c_sources st) (<[id := NewDynamicSource gvk]> (c_heap st)) (S id) (c_watch st) (c_handlers st)
           (c_queue st) (c_returned st) (c_panic st)))
  | AStart _ (Some err), StWatch id =>
      Some (thread_step gvk w (Some (StResult (inl (EWrap ("establishing watch for GVK " +:+ fmt_q (gv_String gvk +:+ ", Kind=" +:+ gvk_Kind gvk) +:+ ": ") err "")))) [] st)
  | AStart _ None, StWatch id =>
      match c_heap st !! id with
      | None => None
      | Some s =>
          match Start s with
          | Panic msg => Some (panics msg st)
          | Ret s' => Some (thread_step gvk w (Some (StWait id)) [] (with_heap (<[id := s']> (c_heap st)) st))
          end
      end
  | AWait _ c, StWait id =>
      match c_heap st !! id with
      | None => None
      | Some s =>
          match WaitForSync c s with
          | None => None
          | Some (Some err, s') =>
              Some (thread_step gvk w (Some (StResult (inl (EWrap "waiting for sync: " err "")))) [] (with_heap (<[id := s']> (c_heap st)) st))
          | Some (None, s') =>
              Some (thread_step gvk w (Some (StResult (inr id))) [] (with_heap (<[id := s']> (c_heap st)) st))
          end
      end
  | ACollect _, StResult (inl err) => Some (thread_step gvk w None [err] st)
  | ACollect _, StResult (inr id) =>
      match addSource gvk id st with
      | (None, st) => Some (thread_step gvk w None [] st)
      | (Some err, st) => Some (panics (Error err) st)
      end
  | _, _ => None
  end.

(** A watch error handler, and the informer of a source. *)
Definition step_source (a : action) (id : nat) (s : dynamicInformerSource) (st : cache_state) : option cache_state :=
  match a, c_handlers st !! id with
  | ASync _, _ =>
      if dis_started s && negb (dis_cancelled s) && bool_decide (dis_synced s = ChanEmpty)
      then Some (with_heap (<[id := with_synced ChanSending s]> (c_heap st)) st) else None
  | AError _ e, None =>
      if dis_started s && negb (dis_cancelled s) then
        let '(synced, s') := hasSynced (errOnce e s) in
        Some (with_handlers (<[id := if synced then HCallback else HCancel false]> (c_handlers st))
                (with_heap (<[id := s']> (c_heap st)) st))
      else None
  | ACallback _, Some HCallback =>
      match c_watch st with
      | Some _ => None
      | None =>
          let '(_, st) := removeSource (dis_gvk s) st in
          Some (with_handlers (<[id := HCancel true]> (c_handlers st)) st)
      end
  | ACancel _, Some (HCancel requeue) =>
      Some (with_handlers (if requeue then <[id := HQueue]> (c_handlers st) else delete id (c_handlers st))
              (with_heap (<[id := informerCancel s]> (c_heap st)) st))
  | AQueue _, Some HQueue =>
      Some (with_handlers (delete id (c_handlers st)) (with_queue (c_queue st ++ [owner]) st))
  | _, _ => None
  end.

(** What an action does, if it is possible. *)
Definition step (st : cache_state) (a : action) : option cache_state :=
  match a with
  | AWatch objs =>
      match c_watch st with
      | Some _ => None
      | None =>
          match gvksForObjects objs with
          | inl err => Some (returns (Some (EWrap "getting set of GVKs for managed objects: " err "")) st)
          | inr gvkSet =>
              match removeStaleSources gvkSet st with
              | (Some err, st) => Some (returns (Some (EWrap "removing stale sources: " err "")) st)
              | (None, st) => Some (with_watch (Some (mkWatch gvkSet (new_threads gvkSet st) [])) st)
              end
          end
      end
  | ASource gvk _ | AStart gvk _ | AWait gvk _ | ACollect gvk =>
      match c_watch st with
      | None => None
      | Some w => match wc_threads w !! gvk with Some th => step_thread a gvk w th st | None => None end
      end
  | AReturn =>
      match c_watch st with
      | Some w =>
          if bool_decide (wc_threads w = ∅) then Some (returns (join_sorted (wc_errors w)) (with_watch None st)) else None
      | None => None
      end
  | ASync id | AError id _ | ACallback id | ACancel id | AQueue id =>
      match c_heap st !! id with Some s => step_source a id s st | None => None end
  | AClose =>
      match c_watch st with
      | Some _ => None
      | None => let '(err, st) := cache_Close st in Some (returns err st)
      end
  end.

Fixpoint run (acts : list action) (st : cache_state) : option cache_state :=
  match acts with
  | [] => Some st
  | a :: rest => match step st a with Some st' => run rest st' | None => None end
  end.

(** What a cache can come to. *)
Inductive reachable : cache_state -> Prop :=
| reach_new : reachable NewCache
| reach_step st a st' : reachable st -> step st a = Some st' -> reachable st'.

End Steps.

(** ** contentmanager.go *)

(** type managerImpl struct: the caches by the names of their extensions. *)
Definition managerImpl : Type := gmap string cache_state.

(** func (i *managerImpl) Get(ctx, ce) (_, error); [cfg] is the error of mapping
    the configuration, [client] the one of making a client. *)
Definition Manager_Get (ce : option string) (cfg client : option error) (m : managerImpl) : go (result cache_state) * managerImpl :=
  match ce with
  | None => (Panic "nil ClusterExtension provided", m)
  | Some name =>
      match m !! name with
      | Some cache => (Ret (inr cache), m)
      | None =>
          match cfg, client with
          | Some err, _ => (Ret (inl (EWrap "getting rest.Config: " err "")), m)
          | None, Some err => (Ret (inl (EWrap "getting dynamic client: " err "")), m)
          | None, None => (Ret (inr NewCache), <[name := NewCache]> m)
          end
      end
  end.

(** func (i *managerImpl) Delete(ce) error *)
Definition Manager_Delete (ce : option string) (m : managerImpl) : go (option error) * managerImpl :=
  match ce with
  | None => (Panic "nil ClusterExtension provided", m)
  | Some name =>
      match m !! name with
      | None => (Ret None, m)
      | Some cache =>
          match cache_Close cache with
          | (Some err, cache) => (Ret (Some (EWrap "closing cache: " err "")), <[name := cache]> m)
          | (None, _) => (Ret None, delete name m)
          end
      end
  end.

(** ** eventhandler.go and the predicates of sourcerer.go *)

Section Events.
Context {object request : Type}.

(** What an informer hands to a handler: nothing, an object, a
    DeletedFinalStateUnknown around something, or anything else. *)
Inductive informer_obj :=
| ObjNil
| Obj (o : object)
| Tombstone (o : informer_obj)
| ObjOther.

(** The predicates of the events. *)
Record predicate := mkPredicate {
  p_Create : object -> bool;
  p_Update : object -> object -> bool;
  p_Delete : object -> bool -> bool;   (* DeleteStateUnknown *)
}.

(** The handler, which adds requests to the queue. *)
Record handler := mkHandler {
  h_Create : object -> list request;
  h_Update : object -> object -> list request;
  h_Delete : object -> bool -> list request;
}.

Context (h : handler) (predicates : list predicate).

(** func (e *EventHandler[object, request]) OnAdd(obj interface{}); the requests
    that are added to the queue. *)
Definition OnAdd (obj : informer_obj) : list request :=
  match obj with
  | Obj o => if forallb (fun p => p_Create p o) predicates then h_Create h o else []
  | _ => []
  end.

(** func (e *EventHandler[object, request]) OnUpdate(oldObj, newObj interface{}) *)
Definition OnUpdate (oldObj newObj : informer_obj) : list request :=
  match oldObj, newObj with
  | Obj o, Obj n => if forallb (fun p => p_Update p o n) predicates then h_Update h o n else []
  | _, _ => []
  end.

(** func (e *EventHandler[object, request]) OnDelete(obj interface{}) *)
Definition OnDelete (obj : informer_obj) : list request :=
  let deliver (o : informer_obj) (unknown : bool) :=
    match o with
    | Obj o => if forallb (fun p => p_Delete p o unknown) predicates then h_Delete h o unknown else []
    | _ => []
    end in
  match obj with
  | ObjNil | ObjOther => []
  | Tombstone o => deliver o true
  | Obj _ => deliver obj false
  end.

End Events.

Arguments informer_obj : clear implicits.
Arguments predicate : clear implicits.
Arguments handler : clear implicits.

(** The predicates of dynamicSourcerer.Source: creations are ignored. *)
Definition source_predicate {object} : predicate object :=
  mkPredicate (fun _ => false) (fun _ _ => true) (fun _ _ => true).
