(* ===== verification/ContentProps.v ===== *)
(** * Correctness of the content caches

    In every interleaving: a Watch never panics, closing never fails, and a
    Watch that returns without error leaves synchronised sources for exactly the
    kinds it was asked for, which still run unless their informers failed.
    A source whose synchronisation timed out is not closed by anything, and
    its late error closes the source that replaced it; and an error in the wrong
    moment leaves a dead source in the cache. *)

From stdpp Require Import countable.
From S2P Require Import Prelude GoErrors ApiTypes Phase ContentManager.

(** ** The invariant *)

(** A source of the given kind that runs, and was seen to be synchronised. *)
Definition running (st : cache_state) (gvk : GroupVersionKind) (id : nat) (synced : bool) : Prop :=
  exists s, c_heap st !! id = Some s /\ dis_gvk s = gvk /\ dis_started s = true /\ (synced = true -> dis_synced s = ChanClosed).

Definition thread_ok (st : cache_state) (gvk : GroupVersionKind) (th : start_thread) : Prop :=
  match th with
  | StNew => True
  | StWatch id => exists s, c_heap st !! id = Some s /\ dis_gvk s = gvk /\ dis_started s = false
  | StWait id => running st gvk id false
  | StResult (inr id) => running st gvk id true
  | StResult (inl _) => True
  end.

Record sound (st : cache_state) : Prop := mkSound {
  s_panic : c_panic st = None;
  s_fresh : forall id s, c_heap st !! id = Some s -> (id < c_next st)%nat;
  s_sources : forall gvk id, c_sources st !! gvk = Some id -> running st gvk id true;
  s_threads : forall w gvk th, c_watch st = Some w -> wc_threads w !! gvk = Some th ->
    c_sources st !! gvk = None /\ thread_ok st gvk th;
  s_handlers : forall id h, c_handlers st !! id = Some h -> exists s, c_heap st !! id = Some s /\ dis_started s = true;
  (* a Watch without errors so far: its kinds are watched, or being started *)
  s_gvks : forall w, c_watch st = Some w ->
    dom (c_sources st) ∪ dom (wc_threads w) ⊆ wc_gvks w /\
    (wc_errors w = [] -> (forall gvk err, wc_threads w !! gvk <> Some (StResult (inl err))) ->
      wc_gvks w ⊆ dom (c_sources st) ∪ dom (wc_threads w));
}.

(** One source changes, and nothing the invariant knows about it is lost. *)
Definition grows (s s' : dynamicInformerSource) : Prop :=
  dis_gvk s' = dis_gvk s /\ dis_started s' = dis_started s /\ (dis_synced s = ChanClosed -> dis_synced s' = ChanClosed).

Lemma heap_running st id s s' gvk id' b : c_heap st !! id = Some s -> grows s s' ->
  running st gvk id' b -> running (with_heap (<[id := s']> (c_heap st)) st) gvk id' b.
Proof.
  intros Hs (Hg & Hst & Hsy) (r & Hr & Hrg & Hrs & Hrc). unfold running. cbn. destruct (decide (id' = id)) as [->|Hne].
  - rewrite Hs in Hr. injection Hr as <-. exists s'. rewrite lookup_insert_eq, Hg, Hst. naive_solver.
  - exists r. by rewrite lookup_insert_ne.
Qed.

Lemma heap_thread st id s s' gvk th : c_heap st !! id = Some s -> grows s s' ->
  thread_ok st gvk th -> thread_ok (with_heap (<[id := s']> (c_heap st)) st) gvk th.
Proof.
  intros Hs Hg. destruct th as [|id'|id'|[e|id']]; cbn [thread_ok]; try done; [|by eapply heap_running..].
  intros (r & Hr & Hrg & Hrs). destruct Hg as (Hg & Hst & _). cbn. destruct (decide (id' = id)) as [->|Hne].
  - rewrite Hs in Hr. injection Hr as <-. exists s'. rewrite lookup_insert_eq, Hg, Hst. naive_solver.
  - exists r. by rewrite lookup_insert_ne.
Qed.

Lemma sound_heap st id s s' : c_heap st !! id = Some s -> grows s s' -> sound st -> sound (with_heap (<[id := s']> (c_heap st)) st).
Proof.
  intros Hs Hg [Hp Hf Hso Hth Hh Hk]. split; cbn; [done| | | | |done].
  - intros id' r. destruct (decide (id' = id)) as [->|Hne]; [rewrite lookup_insert_eq; intros _; by eapply Hf|].
    rewrite lookup_insert_ne by done. apply Hf.
  - intros gvk id' Hid. eapply heap_running; [done|done|]. by apply Hso.
  - intros w gvk th Hw Hl. destruct (Hth w gvk th Hw Hl) as [H1 H2]. split; [done|]. by eapply heap_thread.
  - intros id' h Hid. destruct (Hh id' h Hid) as (r & Hr & Hrs). destruct (decide (id' = id)) as [->|Hne].
    + exists s'. rewrite lookup_insert_eq. split; [done|]. rewrite Hs in Hr. injection Hr as <-. destruct Hg as (_ & -> & _). done.
    + exists r. by rewrite lookup_insert_ne.
Qed.

Lemma grows_cancel s : grows s (informerCancel s).
Proof. done. Qed.

Lemma grows_hasSynced s : grows s (hasSynced s).2.
Proof. unfold hasSynced. by destruct (dis_synced s) eqn:E; repeat split. Qed.

Lemma grows_errOnce e s : grows s (errOnce e s).
Proof. done. Qed.

Lemma grows_trans a b c : grows a b -> grows b c -> grows a c.
Proof. intros (H1 & H2 & H3) (H4 & H5 & H6). split; [congruence|]. split; [congruence|auto]. Qed.

(** Parts the invariant says nothing about. *)
Lemma sound_handlers st h : (forall id x, h !! id = Some x -> exists s, c_heap st !! id = Some s /\ dis_started s = true) ->
  sound st -> sound (with_handlers h st).
Proof. intros Hh [Hp Hf Hso Hth _ Hk]. by split. Qed.

Lemma sound_queue st q : sound st -> sound (with_queue q st).
Proof. intros [Hp Hf Hso Hth Hh Hk]. by split. Qed.

Lemma sound_returns st r : sound st -> sound (returns r st).
Proof. intros [Hp Hf Hso Hth Hh Hk]. by split. Qed.

(** Removing a source never fails. *)
Lemma removeSource_sound gvk st : sound st ->
  (removeSource gvk st).1 = None /\
  c_watch (removeSource gvk st).2 = c_watch st /\
  c_sources (removeSource gvk st).2 = delete gvk (c_sources st) /\
  (c_watch st = None -> sound (removeSource gvk st).2).
Proof.
  intros Hs. unfold removeSource. destruct (c_sources st !! gvk) as [id|] eqn:Hid.
  - destruct (s_sources st Hs gvk id Hid) as (s & Hh & Hg & Hst & _). rewrite Hh. unfold Close. rewrite Hst. cbn.
    split; [done|]. split; [done|]. split; [done|]. intros Hw.
    pose proof (sound_heap st id s (informerCancel s) Hh (grows_cancel s) Hs) as [Hp Hf Hso Hth Hhd Hk].
    split; cbn in *; [done|done| |intros w ? ? Hw'; congruence|done|intros w Hw'; congruence].
    intros gvk' id' [_ Hl]%lookup_delete_Some. by apply Hso.
  - cbn. split; [done|]. split; [done|]. split; [by rewrite delete_id|done].
Qed.

Lemma remove_all_sound gvks : forall st, sound st -> c_watch st = None ->
  (remove_all gvks st).1 = [] /\ c_watch (remove_all gvks st).2 = None /\ sound (remove_all gvks st).2 /\
  forall gvk, c_sources (remove_all gvks st).2 !! gvk = if decide (gvk ∈ gvks) then None else c_sources st !! gvk.
Proof.
  induction gvks as [|g gvks IH]; intros st Hs Hw; cbn [remove_all].
  - split; [done|]. split; [done|]. split; [done|]. intros gvk. by rewrite decide_False by (by apply not_elem_of_nil).
  - destruct (removeSource_sound g st Hs) as (Hn & Hw' & Hso & Hs'). destruct (removeSource g st) as [err st1]. cbn in *. subst err.
    destruct (IH st1 (Hs' Hw)) as (H1 & H2 & H3 & H4); [congruence|]. destruct (remove_all gvks st1) as [errs st2]. cbn in *.
    split; [done|]. split; [done|]. split; [done|]. intros gvk. rewrite H4, Hso. destruct (decide (gvk ∈ gvks)).
    + by rewrite decide_True by set_solver.
    + destruct (decide (gvk = g)) as [->|Hne]; [rewrite lookup_delete_eq, decide_True by set_solver; done|].
      rewrite lookup_delete_ne by done. by rewrite decide_False by set_solver.
Qed.

Lemma close_all_sound ids : forall st, sound st -> (forall id, id ∈ ids -> exists gvk, c_sources st !! gvk = Some id) ->
  (close_all ids (c_heap st)).1 = [] /\ sound (with_heap (close_all ids (c_heap st)).2 st) /\
  (forall id s, c_heap st !! id = Some s ->
    (close_all ids (c_heap st)).2 !! id = Some (if decide (id ∈ ids) then informerCancel s else s)).
Proof.
  induction ids as [|id ids IH]; intros st Hs Hin; cbn [close_all].
  - split; [done|]. split; [by destruct st|]. intros id s Hid. by rewrite decide_False by (by apply not_elem_of_nil).
  - destruct (Hin id ltac:(set_solver)) as [gvk Hg]. destruct (s_sources st Hs gvk id Hg) as (s & Hh & _ & Hst & _).
    rewrite Hh. unfold Close. rewrite Hst.
    set (st1 := with_heap (<[id := informerCancel s]> (c_heap st)) st).
    destruct (IH st1) as (H1 & H2 & H3).
    { by apply (sound_heap st id s). }
    { intros id' Hid'. apply Hin. set_solver. }
    change (c_heap st1) with (<[id := informerCancel s]> (c_heap st)) in *.
    destruct (close_all ids (<[id := informerCancel s]> (c_heap st))) as [errs heap]. cbn in *. split; [done|]. split; [done|].
    intros id' s' Hs'. destruct (decide (id' = id)) as [->|Hne].
    + rewrite Hh in Hs'. injection Hs' as <-. rewrite (H3 id (informerCancel s)) by apply lookup_insert_eq.
      rewrite (decide_True (P := id ∈ id :: ids)) by set_solver. by case_decide.
    + rewrite (H3 id' s') by (by rewrite lookup_insert_ne). destruct (decide (id' ∈ ids)).
      * by rewrite decide_True by set_solver.
      * by rewrite decide_False by set_solver.
Qed.

Lemma source_ids st id : id ∈ map snd (map_to_list (c_sources st)) <-> exists gvk, c_sources st !! gvk = Some id.
Proof.
  rewrite list_elem_of_fmap. split.
  - intros ([gvk id'] & -> & Hl%elem_of_map_to_list). eauto.
  - intros [gvk Hl]. exists (gvk, id). split; [done|]. by apply elem_of_map_to_list.
Qed.

Lemma join_sorted_nil : join_sorted [] = None.
Proof. done. Qed.

Lemma cache_Close_sound st : sound st ->
  (cache_Close st).1 = None /\ sound (cache_Close st).2 /\
  forall id s, c_heap st !! id = Some s ->
    c_heap (cache_Close st).2 !! id =
      Some (if decide (id ∈ map snd (map_to_list (c_sources st))) then informerCancel s else s).
Proof.
  intros Hs. unfold cache_Close.
  destruct (close_all_sound (map snd (map_to_list (c_sources st))) st Hs) as (H1 & H2 & H3); [intros id; apply source_ids|].
  destruct (close_all _ (c_heap st)) as [errs heap]. cbn in *. subst errs. by rewrite join_sorted_nil.
Qed.

(** ** Every step keeps it *)

Section Steps.
Context (owner : string).

Lemma sound_thread st w gvk th th' : sound st -> c_watch st = Some w -> wc_threads w !! gvk = Some th ->
  (forall err, th <> StResult (inl err)) -> thread_ok st gvk th' -> sound (thread_step gvk w (Some th') [] st).
Proof.
  intros Hs Hw Hth Hne Hok. pose proof (s_threads st Hs w gvk th Hw Hth) as [Hn _]. destruct (s_gvks st Hs w Hw) as [Hk1 Hk2].
  destruct Hs as [Hp Hf Hso Ht Hh Hk]. split; cbn; try done.
  - intros w' g t [= <-]. cbn. destruct (decide (g = gvk)) as [->|Hg].
    + rewrite lookup_insert_eq. intros [= <-]. done.
    + rewrite lookup_insert_ne by done. intros Hl. by apply (Ht w).
  - intros w' [= <-]. cbn. rewrite app_nil_r.
    assert (Hd : dom (<[gvk := th']> (wc_threads w)) = dom (wc_threads w)).
    { rewrite dom_insert_L. assert (gvk ∈ dom (wc_threads w)) by (apply elem_of_dom; eauto). set_solver. }
    rewrite Hd. split; [done|]. intros He Hr. apply Hk2; [done|]. intros g err Hg. destruct (decide (g = gvk)) as [->|Hgn].
    + rewrite Hth in Hg. injection Hg as ->. by apply (Hne err).
    + apply (Hr g err). by rewrite lookup_insert_ne.
Qed.

Lemma sound_new st gvk : sound st -> let id := c_next st in
  sound (mkCacheSt (c_sources st) (<[id := NewDynamicSource gvk]> (c_heap st)) (S id) (c_watch st) (c_handlers st)
           (c_queue st) (c_returned st) (c_panic st)).
Proof.
  intros [Hp Hf Hso Ht Hh Hk]. cbv zeta.
  assert (Hrun : forall i, (exists x, c_heap st !! i = Some x) ->
    <[c_next st := NewDynamicSource gvk]> (c_heap st) !! i = c_heap st !! i).
  { intros i [x Hx]. rewrite lookup_insert_ne; [done|]. intros <-. apply Hf in Hx. lia. }
  split; cbn; try done.
  - intros i s. destruct (decide (i = c_next st)) as [->|Hne]; [lia|]. rewrite lookup_insert_ne by done. intros Hi%Hf. lia.
  - intros g i Hi. destruct (Hso g i Hi) as (s & Hx & Hr). exists s. split; [|done]. cbn. rewrite Hrun; eauto.
  - intros w g th Hw Hg. destruct (Ht w g th Hw Hg) as [H1 H2]. split; [done|].
    destruct th as [|i|i|[e|i]]; try done; destruct H2 as (s & Hx & Hr); exists s; (split; [|done]); cbn; rewrite Hrun; eauto.
  - intros i h Hi. destruct (Hh i h Hi) as (s & Hx & Hr). exists s. split; [|done]. rewrite Hrun; eauto.
Qed.

Lemma WaitForSync_grows c s err s' : WaitForSync c s = Some (err, s') -> dis_started s = true ->
  grows s s' /\ (err = None -> dis_synced s' = ChanClosed).
Proof.
  unfold WaitForSync. intros H Hst. rewrite Hst in H. cbn in H. destruct c.
  - by injection H as <- <-.
  - destruct (dis_err s); [|done]. by injection H as <- <-.
  - destruct (dis_cancelled s); [|done]. by injection H as <- <-.
  - pose proof (grows_hasSynced s) as Hg. unfold hasSynced in *. destruct (dis_synced s) eqn:E; try done; injection H as <- <-; done.
Qed.

Lemma step_thread_sound a gvk w th st st' : sound st -> c_watch st = Some w -> wc_threads w !! gvk = Some th ->
  step_thread a gvk w th st = Some st' -> sound st'.
Proof.
  intros Hs Hw Hth Hstep. destruct (s_threads st Hs w gvk th Hw Hth) as [Hn Hok].
  destruct a as [ |g [err|]|g [err|]|g c|g| |a1|a2 ?|a3|a4|a5| ], th as [|id|id|[err'|id]]; cbn in Hstep; try discriminate Hstep.
  - injection Hstep as <-. by eapply sound_thread.
  - injection Hstep as <-. eapply (sound_thread (mkCacheSt _ _ _ _ _ _ _ _)); try done; [by apply sound_new|].
    exists (NewDynamicSource gvk). cbn. by rewrite lookup_insert_eq.
  - injection Hstep as <-. by eapply sound_thread.
  - destruct Hok as (s & Hh & Hg & Hst). rewrite Hh in Hstep. unfold Start in Hstep. rewrite Hst in Hstep. injection Hstep as <-.
    (* a source that is started was in no map yet *)
    assert (Hns : forall g i, c_sources st !! g = Some i -> i <> id).
    { intros g0 i Hi ->. destruct (s_sources st Hs g0 id Hi) as (s' & Hh' & _ & Hst' & _). congruence. }
    set (s' := mkDIS (dis_gvk s) true (dis_synced s) (dis_err s) (dis_cancelled s)).
    assert (Hs' : sound (thread_step gvk w (Some (StWait id)) [] (with_heap (<[id := s']> (c_heap st)) st))); [|done].
    destruct (s_gvks st Hs w Hw) as [Hk1 Hk2]. pose proof Hs as [Hp Hf Hso Ht Hhd _]. split; cbn; try done.
    + intros i r. destruct (decide (i = id)) as [->|Hne]; [intros _; by eapply Hf|]. rewrite lookup_insert_ne by done. apply Hf.
    + intros g0 i Hi. destruct (Hso g0 i Hi) as (r & Hr & Hrest). exists r. split; [|done]. cbn.
      rewrite lookup_insert_ne; [done|]. intros <-. by apply (Hns g0 id).
    + intros w' g0 t [= <-]. cbn. destruct (decide (g0 = gvk)) as [->|Hg0].
      * rewrite lookup_insert_eq. intros [= <-]. split; [done|]. exists s'. cbn. by rewrite lookup_insert_eq.
      * rewrite lookup_insert_ne by done. intros Hl. destruct (Ht w g0 t Hw Hl) as [H1 H2]. split; [done|].
        assert (Hne : forall i r, c_heap st !! i = Some r -> dis_gvk r = g0 -> i <> id) by (intros i r Hi Hri ->; congruence).
        destruct t as [|i|i|[e|i]]; try done; destruct H2 as (r & Hr & Hrg & Hrest); exists r; (split; [|done]); cbn;
          (rewrite lookup_insert_ne; [done|]); intros <-; by apply (Hne id r).
    + intros i h Hi. destruct (Hhd i h Hi) as (r & Hr & Hrs). destruct (decide (i = id)) as [->|Hne].
      * exists s'. by rewrite lookup_insert_eq.
      * exists r. by rewrite lookup_insert_ne.
    + intros w' [= <-]. cbn. rewrite app_nil_r.
      assert (Hd : dom (<[gvk := StWait id]> (wc_threads w)) = dom (wc_threads w)).
      { rewrite dom_insert_L. assert (gvk ∈ dom (wc_threads w)) by (apply elem_of_dom; eauto). set_solver. }
      rewrite Hd. split; [done|]. intros He Hr. apply Hk2; [done|]. intros g0 err Hg0. destruct (decide (g0 = gvk)) as [->|Hgn].
      * congruence.
      * apply (Hr g0 err). by rewrite lookup_insert_ne.
  - destruct Hok as (s & Hh & Hg & Hst & _). rewrite Hh in Hstep. destruct (WaitForSync c s) as [[[err|] s']|] eqn:Ewt; [| |done];
      injection Hstep as <-; destruct (WaitForSync_grows c s _ s' Ewt Hst) as [Hgr Hcl].
    + eapply sound_thread; try done. by apply (sound_heap st id s).
    + eapply sound_thread; try done; [by apply (sound_heap st id s)|].
      exists s'. cbn. rewrite lookup_insert_eq. destruct Hgr as (Hg1 & Hg2 & _). rewrite Hg1, Hg2. auto.
  - injection Hstep as <-. destruct (s_gvks st Hs w Hw) as [Hk1 _]. destruct Hs as [Hp Hf Hso Ht Hh Hk]. split; cbn; try done.
    + intros w' g0 t [= <-]. cbn. intros [_ Hl]%lookup_delete_Some. by apply (Ht w).
    + intros w' [= <-]. cbn. split; [set_solver|]. intros He. by destruct (wc_errors w).
  - unfold addSource in Hstep. rewrite Hn in Hstep. injection Hstep as <-.
    destruct (s_gvks st Hs w Hw) as [Hk1 Hk2]. destruct Hs as [Hp Hf Hso Ht Hh Hk].
    assert (Hdom : gvk ∈ dom (wc_threads w)) by (apply elem_of_dom; eauto).
    split; cbn; try done.
    + intros g0 i. destruct (decide (g0 = gvk)) as [->|Hne]; [rewrite lookup_insert_eq; by intros [= <-]|].
      rewrite lookup_insert_ne by done. apply Hso.
    + intros w' g0 t [= <-]. cbn. intros [Hne Hl]%lookup_delete_Some. rewrite lookup_insert_ne by done. by apply (Ht w).
    + intros w' [= <-]. cbn. rewrite app_nil_r, dom_insert_L, dom_delete_L. split; [set_solver|].
      intros He Hr. transitivity (dom (c_sources st) ∪ dom (wc_threads w)).
      * apply Hk2; [done|]. intros g0 err Hg0. destruct (decide (g0 = gvk)) as [->|Hgn]; [congruence|].
        apply (Hr g0 err). by rewrite lookup_delete_ne.
      * intros x Hx. destruct (decide (x = gvk)) as [->|Hne]; set_solver.
Qed.

Lemma step_source_sound a id s st st' : sound st -> c_heap st !! id = Some s -> step_source owner a id s st = Some st' -> sound st'.
Proof.
  intros Hs Hh Hstep.
  destruct a; cbn in Hstep; try (destruct (c_handlers st !! id) as [[| |]|]; discriminate Hstep).
  - assert (Hstep' : (if dis_started s && negb (dis_cancelled s) && bool_decide (dis_synced s = ChanEmpty)
      then Some (with_heap (<[id := with_synced ChanSending s]> (c_heap st)) st) else None) = Some st').
    { by destruct (c_handlers st !! id) as [[| |]|]. }
    destruct (_ && bool_decide _) eqn:Eb; [|done]. injection Hstep' as <-. apply andb_true_iff in Eb as [_ Eb%bool_decide_eq_true].
    apply (sound_heap st id s); [done| |done]. split; [done|]. split; [done|]. congruence.
  - destruct (c_handlers st !! id) as [[| |]|] eqn:Eh; try done. destruct (dis_started s) eqn:Est; [|done].
    destruct (dis_cancelled s); [done|]. cbn in Hstep.
    pose proof (grows_trans _ _ _ (grows_errOnce e s) (grows_hasSynced (errOnce e s))) as Hg.
    destruct (hasSynced (errOnce e s)) as [b s'] eqn:Ehs. cbn in Hg. injection Hstep as <-.
    pose proof (sound_heap st id s s' Hh Hg Hs) as Hs'. apply sound_handlers; [|done].
    intros i x. destruct (decide (i = id)) as [->|Hne].
    + intros _. exists s'. cbn. rewrite lookup_insert_eq. split; [done|]. destruct Hg as (_ & -> & _). done.
    + rewrite lookup_insert_ne by done. intros Hi. by apply (s_handlers _ Hs' i x).
  - destruct (c_handlers st !! id) as [[| |]|] eqn:Eh; try done. destruct (c_watch st) eqn:Ew; [done|].
    destruct (removeSource_sound (dis_gvk s) st Hs) as (_ & _ & _ & Hs'). specialize (Hs' Ew).
    assert (Hkeep : exists s1, c_heap (removeSource (dis_gvk s) st).2 !! id = Some s1 /\ dis_started s1 = true).
    { destruct (s_handlers st Hs id _ Eh) as (s0 & Hs0 & Hst). unfold removeSource.
      destruct (c_sources st !! dis_gvk s) as [j|]; [|eauto]. destruct (c_heap st !! j) as [r|] eqn:Ej; [|eauto].
      unfold Close. destruct (dis_started r) eqn:Er; [|eauto]. cbn. destruct (decide (id = j)) as [->|Hne].
      - rewrite lookup_insert_eq. eauto.
      - rewrite lookup_insert_ne by done. eauto. }
    destruct (removeSource (dis_gvk s) st) as [err st1]. cbn in *. injection Hstep as <-. apply sound_handlers; [|done].
    intros i x. destruct (decide (i = id)) as [->|Hne]; [done|]. rewrite lookup_insert_ne by done.
    intros Hi. apply (s_handlers st1 Hs' i x). exact Hi.
  - destruct (c_handlers st !! id) as [[|rq|]|] eqn:Eh; try done. injection Hstep as <-.
    pose proof (sound_heap st id s (informerCancel s) Hh (grows_cancel s) Hs) as Hs'. apply sound_handlers; [|done].
    intros i x Hi. destruct (s_handlers st Hs id _ Eh) as (s0 & Hs0 & Hst). rewrite Hh in Hs0. injection Hs0 as <-.
    destruct (decide (i = id)) as [->|Hne].
    + exists (informerCancel s). cbn. by rewrite lookup_insert_eq.
    + apply (s_handlers _ Hs' i x). cbn. destruct rq; [by rewrite lookup_insert_ne in Hi|by rewrite lookup_delete_ne in Hi].
  - destruct (c_handlers st !! id) as [[| |]|] eqn:Eh; try done. injection Hstep as <-. apply sound_handlers; [|by apply sound_queue].
    intros i x [_ Hi]%lookup_delete_Some. by apply (s_handlers st Hs i x).
Qed.

Lemma step_sound st a st' : sound st -> step owner st a = Some st' -> sound st'.
Proof.
  intros Hs Hstep.
  assert (Hthr : forall gvk, (match c_watch st with
    | None => None
    | Some w => match wc_threads w !! gvk with Some th => step_thread a gvk w th st | None => None end
    end) = Some st' -> sound st').
  { intros gvk H. destruct (c_watch st) as [w|] eqn:Ew; [|done]. destruct (wc_threads w !! gvk) as [th|] eqn:Eth; [|done].
    by apply (step_thread_sound a gvk w th st). }
  assert (Hsrc : forall id, (match c_heap st !! id with Some s => step_source owner a id s st | None => None end) = Some st' -> sound st').
  { intros id H. destruct (c_heap st !! id) as [s|] eqn:Eh; [|done]. by apply (step_source_sound a id s st). }
  destruct a; cbn in Hstep; try (by eapply Hthr); try (by eapply Hsrc).
  - destruct (c_watch st) eqn:Ew; [done|]. destruct (gvksForObjects objs) as [e|gvks]; [injection Hstep as <-; by apply sound_returns|].
    unfold removeStaleSources in Hstep.
    destruct (remove_all_sound (elements (dom (c_sources st) ∖ gvks)) st Hs Ew) as (H1 & H2 & H3 & H4).
    destruct (remove_all _ st) as [errs st1]. cbn in *. subst errs. rewrite join_sorted_nil in Hstep. injection Hstep as <-.
    assert (Hsub : dom (c_sources st1) ⊆ gvks).
    { intros x [i Hi]%elem_of_dom. rewrite H4 in Hi. case_decide as Hd; [done|].
      destruct (decide (x ∈ gvks)); [done|]. exfalso. apply Hd, elem_of_elements, elem_of_difference. split; [|done].
      apply elem_of_dom. eauto. }
    destruct H3 as [Hp Hf Hso Ht Hh Hk]. split; cbn; try done.
    + intros w gvk th [= <-]. cbn. unfold new_threads. rewrite lookup_gset_to_gmap_Some. intros [Hd <-].
      split; [|done]. apply not_elem_of_dom. set_solver.
    + intros w [= <-]. cbn. unfold new_threads. rewrite dom_gset_to_gmap. split; [set_solver|].
      intros _ _ x Hx. destruct (decide (x ∈ dom (c_sources st1))); set_solver.
  - destruct (c_watch st) as [w|] eqn:Ew; [|done]. case_bool_decide; [|done]. injection Hstep as <-. apply sound_returns.
    destruct Hs as [Hp Hf Hso Ht Hh Hk]. split; cbn; done.
  - destruct (c_watch st) eqn:Ew; [done|]. destruct (cache_Close_sound st Hs) as (H1 & H2 & _).
    destruct (cache_Close st) as [err st1]. cbn in *. injection Hstep as <-. by apply sound_returns.
Qed.

Lemma reachable_sound st : reachable owner st -> sound st.
Proof.
  induction 1 as [|st a st' _ IH Hs]; [|by eapply step_sound]. by split.
Qed.

End Steps.

Lemma join_sorted_None errs : join_sorted errs = None -> errs = [].
Proof.
  unfold join_sorted, errors_Join. intros H. destruct errs as [|e errs]; [done|].
  assert (Hl : length (sort_by (fun a b => string_cmp (Error a) (Error b)) (e :: errs)) = S (length errs)) by (by rewrite sort_by_length).
  destruct (sort_by _ (e :: errs)); [done|]. by cbn in H.
Qed.

Lemma gvksForObjects_spec objs gvks : gvksForObjects objs = inr gvks -> gvks = list_to_set (map snd objs).
Proof.
  revert gvks. induction objs as [|[n g] objs IH]; intros gvks; cbn; [by intros [= <-]|].
  case_bool_decide; [done|]. case_bool_decide; [done|]. destruct (gvksForObjects objs) as [e|s]; [done|].
  intros [= <-]. by rewrite (IH s).
Qed.

(** ** Runs *)

Section Runs.
Context (owner : string).

(** The mutex is held until Watch returns, and its set of kinds stays. *)
Lemma step_watch st a st' w : c_watch st = Some w -> a <> AReturn -> step owner st a = Some st' ->
  exists w', c_watch st' = Some w' /\ wc_gvks w' = wc_gvks w.
Proof.
  intros Hw Ha Hstep.
  assert (Hthr : forall gvk, (match c_watch st with
    | None => None
    | Some w => match wc_threads w !! gvk with Some th => step_thread a gvk w th st | None => None end
    end) = Some st' -> exists w', c_watch st' = Some w' /\ wc_gvks w' = wc_gvks w).
  { intros gvk. rewrite Hw. destruct (wc_threads w !! gvk) as [th|]; [|done]. intros H.
    unfold step_thread, addSource in H. cbn in H. repeat (case_match; simplify_eq/=); eauto. }
  assert (Hsrc : forall id, (match c_heap st !! id with Some s => step_source owner a id s st | None => None end) = Some st' ->
    exists w', c_watch st' = Some w' /\ wc_gvks w' = wc_gvks w).
  { intros id. destruct (c_heap st !! id) as [s|]; [|done]. unfold step_source. rewrite Hw. intros H.
    repeat (case_match; simplify_eq/=); eauto. }
  destruct a; try done; cbn in Hstep; try (by eapply Hthr); try (by eapply Hsrc).
  - by rewrite Hw in Hstep.
  - by rewrite Hw in Hstep.
Qed.

Lemma run_watch acts : forall st st' w, c_watch st = Some w -> AReturn ∉ acts -> run owner acts st = Some st' ->
  exists w', c_watch st' = Some w' /\ wc_gvks w' = wc_gvks w.
Proof.
  induction acts as [|a acts IH]; intros st st' w Hw Ha Hrun; cbn in Hrun; [injection Hrun as <-; eauto|].
  destruct (step owner st a) as [st1|] eqn:Es; [|done]. apply not_elem_of_cons in Ha as [Ha1 Ha2].
  destruct (step_watch st a st1 w Hw ltac:(congruence) Es) as (w1 & Hw1 & Hg1).
  destruct (IH st1 st' w1 Hw1 Ha2 Hrun) as (w' & Hw' & Hg'). exists w'. split; [done|]. congruence.
Qed.

Lemma reachable_run acts : forall st st', reachable owner st -> run owner acts st = Some st' -> reachable owner st'.
Proof.
  induction acts as [|a acts IH]; intros st st' Hr Hrun; cbn in Hrun; [by injection Hrun as <-|].
  destruct (step owner st a) as [st1|] eqn:Es; [|done]. apply (IH st1); [|done]. by eapply reach_step.
Qed.

Lemma run_app acts1 acts2 st st1 st2 : run owner acts1 st = Some st1 -> run owner acts2 st1 = Some st2 -> run owner (acts1 ++ acts2) st = Some st2.
Proof.
  revert st. induction acts1 as [|a acts1 IH]; intros st H1 H2; cbn in *; [by injection H1 as ->|].
  destruct (step owner st a); [by apply IH|done].
Qed.

End Runs.

(** ** Sources that were cancelled

    Until the cache is closed, a source it keeps is cancelled only by the error
    handler of its own informer. *)

Definition fine (s : dynamicInformerSource) : Prop := dis_cancelled s = true -> is_Some (dis_err s).

(** In the cache, or on the way into it. *)
Definition kept_id (st : cache_state) (id : nat) : Prop :=
  (exists gvk, c_sources st !! gvk = Some id) \/
  exists w gvk th, c_watch st = Some w /\ wc_threads w !! gvk = Some th /\ (th = StWatch id \/ th = StWait id \/ th = StResult (inr id)).

Definition live (st : cache_state) : Prop :=
  (forall id s, kept_id st id -> c_heap st !! id = Some s -> fine s) /\
  (forall id h s, c_handlers st !! id = Some h -> c_heap st !! id = Some s -> is_Some (dis_err s)).

(** What happens to a source that is there already. *)
Definition ages (s s' : dynamicInformerSource) : Prop := (fine s -> fine s') /\ (is_Some (dis_err s) -> is_Some (dis_err s')).

Lemma live_mono st st' : sound st -> live st ->
  (forall id, kept_id st' id -> kept_id st id \/ c_heap st !! id = None) ->
  (forall id s', c_heap st' !! id = Some s' ->
     (exists s, c_heap st !! id = Some s /\ (kept_id st' id -> fine s -> fine s') /\ (is_Some (dis_err s) -> is_Some (dis_err s'))) \/
     (c_heap st !! id = None /\ fine s')) ->
  (forall id h s', c_handlers st' !! id = Some h -> c_heap st' !! id = Some s' -> is_Some (c_handlers st !! id) \/ is_Some (dis_err s')) ->
  live st'.
Proof.
  intros Hs [L1 L2] Hk Hh Hhd. split.
  - intros id s' Hk' Hs'. destruct (Hh id s' Hs') as [(s & Es & Hf & _)|[_ ?]]; [|done].
    destruct (Hk id Hk') as [Hko|Hn]; [|congruence]. apply Hf; [done|]. by eapply L1.
  - intros id h s' Hid Hs'. destruct (Hhd id h s' Hid Hs') as [[h0 Hh0]|?]; [|done].
    destruct (s_handlers st Hs id h0 Hh0) as (s & Es & _). destruct (Hh id s' Hs') as [(s1 & Es1 & _ & He)|[Hn _]]; [|congruence].
    apply He. eapply L2; [exact Hh0|done].
Qed.

Lemma ages_refl s : ages s s.
Proof. done. Qed.

Lemma ages_hasSynced s : ages s (hasSynced s).2.
Proof. unfold hasSynced. by destruct (dis_synced s). Qed.

Lemma WaitForSync_ages c s err s' : WaitForSync c s = Some (err, s') -> ages s s'.
Proof.
  unfold WaitForSync. destruct (dis_started s); cbn; [|by intros [= _ <-]]. pose proof (ages_hasSynced s) as Ha.
  destruct c; [by intros [= _ <-]|destruct (dis_err s); [by intros [= _ <-]|done]|destruct (dis_cancelled s); [by intros [= _ <-]|done]|].
  destruct (hasSynced s) as [[] s1]; [by intros [= _ <-]|done].
Qed.

(** The heap after one source changed. *)
Lemma heap_ages (h : gmap nat dynamicInformerSource) id s s' (P : nat -> Prop) :
  h !! id = Some s -> ages s s' -> forall i r, <[id := s']> h !! i = Some r ->
    (exists r0, h !! i = Some r0 /\ (P i -> fine r0 -> fine r) /\ (is_Some (dis_err r0) -> is_Some (dis_err r))) \/ (h !! i = None /\ fine r).
Proof.
  intros Hs Ha i r. destruct (decide (i = id)) as [->|Hne].
  - rewrite lookup_insert_eq. intros [= <-]. left. exists s. destruct Ha. auto.
  - rewrite lookup_insert_ne by done. intros Hr. left. eauto.
Qed.

Lemma heap_same (h : gmap nat dynamicInformerSource) (P : nat -> Prop) : forall i r, h !! i = Some r ->
    (exists r0, h !! i = Some r0 /\ (P i -> fine r0 -> fine r) /\ (is_Some (dis_err r0) -> is_Some (dis_err r))) \/ (h !! i = None /\ fine r).
Proof. intros i r Hr. left. eauto. Qed.

(** A thread goes on, or ends. *)
Lemma kept_thread st w gvk th th' errs h n id : c_watch st = Some w -> wc_threads w !! gvk = Some th ->
  kept_id (thread_step gvk w th' errs (mkCacheSt (c_sources st) h n (c_watch st) (c_handlers st) (c_queue st) (c_returned st) (c_panic st))) id ->
  kept_id st id \/ match th' with Some (StWatch i) | Some (StWait i) | Some (StResult (inr i)) => i = id | _ => False end.
Proof.
  intros Hw Hth [Hso|(w' & g & t & Hw' & Hl & Ht)]; [left; by left|]. cbn in Hw'. injection Hw' as <-. cbn in Hl.
  destruct th' as [th'|].
  - destruct (decide (g = gvk)) as [->|Hg].
    + rewrite lookup_insert_eq in Hl. injection Hl as ->. right. by destruct Ht as [->|[->| ->]].
    + rewrite lookup_insert_ne in Hl by done. left. right. by exists w, g, t.
  - apply lookup_delete_Some in Hl as [_ Hl]. left. right. by exists w, g, t.
Qed.

Lemma step_thread_live a gvk w th st st' : sound st -> live st -> c_watch st = Some w -> wc_threads w !! gvk = Some th ->
  step_thread a gvk w th st = Some st' -> live st'.
Proof.
  intros Hs Hl Hw Hth Hstep.
  assert (Hkept : forall id, th = StWatch id \/ th = StWait id \/ th = StResult (inr id) -> kept_id st id)
    by (intros id Hid; right; by exists w, gvk, th).
  destruct (s_threads st Hs w gvk th Hw Hth) as [Hn Hok].
  destruct a as [ |g [err|]|g [err|]|g c|g| |a1|a2 ?|a3|a4|a5| ], th as [|id|id|[err'|id]]; cbn in Hstep; try discriminate Hstep.
  - injection Hstep as <-. apply (live_mono st); try done; [|apply heap_same|by left; eexists].
    intros i Hi. apply (kept_thread st w gvk _ _ _ (c_heap st) (c_next st) i Hw Hth) in Hi. by destruct Hi; [left|].
  - injection Hstep as <-. apply (live_mono st); try done; [| |by left; eexists].
    + intros i Hi. apply (kept_thread st w gvk _ _ _ _ _ i Hw Hth) in Hi as [Hi|<-]; [by left|right].
      destruct (c_heap st !! c_next st) eqn:En; [|done]. apply (s_fresh st Hs) in En. lia.
    + intros i r. cbn. destruct (decide (i = c_next st)) as [->|Hne].
      * rewrite lookup_insert_eq. intros [= <-]. right. split; [|done].
        destruct (c_heap st !! c_next st) eqn:En; [|done]. apply (s_fresh st Hs) in En. lia.
      * rewrite lookup_insert_ne by done. by apply heap_same.
  - injection Hstep as <-. apply (live_mono st); try done; [|apply heap_same|by left; eexists].
    intros i Hi. apply (kept_thread st w gvk _ _ _ (c_heap st) (c_next st) i Hw Hth) in Hi. by destruct Hi; [left|].
  - destruct Hok as (s & Hh & _ & Hst). rewrite Hh in Hstep. unfold Start in Hstep. rewrite Hst in Hstep. injection Hstep as <-.
    apply (live_mono st); try done; [|by apply (heap_ages _ _ s)|by left; eexists].
    intros i Hi. apply (kept_thread st w gvk _ _ _ _ _ i Hw Hth) in Hi as [Hi|<-]; left; [done|]. apply Hkept. auto.
  - destruct Hok as (s & Hh & _ & Hst & _). rewrite Hh in Hstep.
    destruct (WaitForSync c s) as [[[err|] s']|] eqn:Ewt; [| |done]; injection Hstep as <-; apply WaitForSync_ages in Ewt;
      (apply (live_mono st); try done; [|by apply (heap_ages _ _ s)|by left; eexists]);
      intros i Hi; apply (kept_thread st w gvk _ _ _ _ _ i Hw Hth) in Hi as [Hi|Hi]; left; try done.
    subst i. apply Hkept. auto.
  - injection Hstep as <-. apply (live_mono st); try done; [|apply heap_same|by left; eexists].
    intros i Hi. apply (kept_thread st w gvk _ _ _ (c_heap st) (c_next st) i Hw Hth) in Hi. by destruct Hi; [left|].
  - unfold addSource in Hstep. rewrite Hn in Hstep. injection Hstep as <-.
    apply (live_mono st); try done; [|apply heap_same|by left; eexists].
    intros i [[g0 Hg0]|(w' & g0 & t & Hw' & Hlt & Ht)]; left; cbn in *.
    + destruct (decide (g0 = gvk)) as [->|Hg]; [rewrite lookup_insert_eq in Hg0; injection Hg0 as <-; apply Hkept; auto|].
      rewrite lookup_insert_ne in Hg0 by done. left. eauto.
    + injection Hw' as <-. cbn in Hlt. apply lookup_delete_Some in Hlt as [_ Hlt]. right. by exists w, g0, t.
Qed.

(** A source that is removed is not kept. *)
Lemma removeSource_live gvk st : sound st -> c_watch st = None -> live st -> live (removeSource gvk st).2.
Proof.
  intros Hs Hw Hl. unfold removeSource. destruct (c_sources st !! gvk) as [j|] eqn:Hj; [|done].
  destruct (s_sources st Hs gvk j Hj) as (r & Hr & Hg & Hrs & _). rewrite Hr. unfold Close. rewrite Hrs. cbn.
  assert (Hkj : forall i, kept_id (with_sources (delete gvk (c_sources st)) (with_heap (<[j := informerCancel r]> (c_heap st)) st)) i ->
    kept_id st i /\ i <> j).
  { intros i [[g Hi]|(w & g & th & Hw' & _)]; [|cbn in Hw'; congruence]. cbn in Hi. apply lookup_delete_Some in Hi as [Hne Hi].
    split; [left; eauto|]. intros ->. destruct (s_sources st Hs g j Hi) as (r' & Hr' & Hg' & _). congruence. }
  apply (live_mono st); try done; [|..].
  - intros i Hi. left. by apply Hkj.
  - intros i s'. cbn. destruct (decide (i = j)) as [->|Hne].
    + rewrite lookup_insert_eq. intros [= <-]. left. exists r. split; [done|]. split; [|done]. intros Hi. by destruct (Hkj j Hi).
    + rewrite lookup_insert_ne by done. by apply heap_same.
  - left. by eexists.
Qed.

Lemma remove_all_live gvks : forall st, sound st -> c_watch st = None -> live st -> live (remove_all gvks st).2.
Proof.
  induction gvks as [|g gvks IH]; intros st Hs Hw Hl; cbn [remove_all]; [done|].
  destruct (removeSource_sound g st Hs) as (_ & Hw' & _ & Hs'). pose proof (removeSource_live g st Hs Hw Hl) as Hl'.
  destruct (removeSource g st) as [err st1]. cbn in *. specialize (IH st1 (Hs' Hw) ltac:(congruence) Hl').
  by destruct (remove_all gvks st1).
Qed.

Lemma live_ext st st' : c_heap st' = c_heap st -> c_sources st' = c_sources st -> c_handlers st' = c_handlers st ->
  c_watch st' = c_watch st \/ c_watch st' = None -> live st -> live st'.
Proof.
  intros E1 E2 E3 E4 [L1 L2]. unfold live. rewrite E1, E3. split; [|done]. intros id s [[g Hg]|(w & g & th & Hw & Hr)] Hs.
  - apply (L1 id); [|done]. left. exists g. by rewrite <- E2.
  - apply (L1 id); [|done]. right. exists w, g, th. destruct E4 as [E4|E4]; [by rewrite <- E4|congruence].
Qed.

Section LiveSteps.
Context (owner : string).

Lemma step_source_live a id s st st' : sound st -> live st -> c_heap st !! id = Some s ->
  step_source owner a id s st = Some st' -> live st'.
Proof.
  intros Hs Hl Hh Hstep.
  destruct a; cbn in Hstep; try (destruct (c_handlers st !! id) as [[| |]|]; discriminate Hstep).
  - assert (Hst : with_heap (<[id := with_synced ChanSending s]> (c_heap st)) st = st').
    { destruct (c_handlers st !! id) as [[| |]|]; (destruct (_ && bool_decide _); [by injection Hstep|done]). }
    subst st'. apply (live_mono st); try done; [by left|by apply (heap_ages _ _ s)|by left; eexists].
  - destruct (c_handlers st !! id) as [[| |]|] eqn:Eh; try done. destruct (dis_started s && negb (dis_cancelled s)); [|done].
    pose proof (ages_hasSynced (errOnce e s)) as [_ He]. assert (Herr : is_Some (dis_err (errOnce e s))) by (cbn; by destruct (dis_err s)).
    specialize (He Herr). destruct (hasSynced (errOnce e s)) as [b s']. cbn in He. injection Hstep as <-.
    apply (live_mono st); try done; [by left|apply (heap_ages _ _ s); [done|by split; [intros _ _|]]|].
    intros i h r. cbn. destruct (decide (i = id)) as [->|Hne].
    + rewrite !lookup_insert_eq. intros _ [= <-]. by right.
    + rewrite !lookup_insert_ne by done. left. by eexists.
  - destruct (c_handlers st !! id) as [[| |]|] eqn:Eh; try done. destruct (c_watch st) eqn:Ew; [done|].
    pose proof (removeSource_live (dis_gvk s) st Hs Ew Hl) as [L1 L2].
    assert (Hhd : c_handlers (removeSource (dis_gvk s) st).2 = c_handlers st).
    { unfold removeSource, Close. by repeat case_match; simplify_eq/=. }
    destruct (removeSource (dis_gvk s) st) as [err st1]. cbn in *. injection Hstep as <-. split; [exact L1|].
    intros i h r. cbn. rewrite Hhd in *. destruct (decide (i = id)) as [->|Hne].
    + rewrite lookup_insert_eq. intros _ Hr. by eapply L2.
    + rewrite lookup_insert_ne by done. apply L2.
  - destruct (c_handlers st !! id) as [[|rq|]|] eqn:Eh; try done. injection Hstep as <-.
    assert (He : is_Some (dis_err s)) by (eapply (proj2 Hl); done).
    apply (live_mono st); try done; [by left|apply (heap_ages _ _ s); [done|split; [intros _ _; exact He|done]]|].
    intros i h r. cbn. destruct (decide (i = id)) as [->|Hne]; [rewrite Eh; left; by eexists|].
    destruct rq; [rewrite lookup_insert_ne by done|rewrite lookup_delete_ne by done]; left; by eexists.
  - destruct (c_handlers st !! id) as [[| |]|] eqn:Eh; try done. injection Hstep as <-.
    apply (live_mono st); try done; [by left|apply heap_same|]. intros i h r. cbn. intros [_ Hi]%lookup_delete_Some _. left. by eexists.
Qed.

Lemma step_live st a st' : sound st -> live st -> a <> AClose -> step owner st a = Some st' -> live st'.
Proof.
  intros Hs Hl Hna Hstep.
  assert (Hthr : forall gvk, (match c_watch st with
    | None => None
    | Some w => match wc_threads w !! gvk with Some th => step_thread a gvk w th st | None => None end
    end) = Some st' -> live st').
  { intros gvk H. destruct (c_watch st) as [w|] eqn:Ew; [|done]. destruct (wc_threads w !! gvk) as [th|] eqn:Eth; [|done].
    by apply (step_thread_live a gvk w th st). }
  assert (Hsrc : forall id, (match c_heap st !! id with Some s => step_source owner a id s st | None => None end) = Some st' -> live st').
  { intros id H. destruct (c_heap st !! id) as [s|] eqn:Eh; [|done]. by apply (step_source_live a id s st). }
  destruct a; cbn in Hstep; try done; try (by eapply Hthr); try (by eapply Hsrc).
  - destruct (c_watch st) eqn:Ew; [done|].
    destruct (gvksForObjects objs) as [e|gvks]; [injection Hstep as <-; by apply (live_ext st); [..|left|]|].
    unfold removeStaleSources in Hstep. set (l := elements _) in Hstep.
    pose proof (remove_all_live l st Hs Ew Hl) as Hl'. destruct (remove_all_sound l st Hs Ew) as (_ & Hw' & _).
    destruct (remove_all l st) as [errs st1]. cbn in *.
    destruct (join_sorted errs); injection Hstep as <-; [by apply (live_ext st1); [..|left|]|].
    destruct Hl' as [L1 L2]. split; [|exact L2]. intros id s [[g Hg]|(w & g & th & Hw & Hth & Ht)] Hsd; [apply (L1 id); [left; eauto|done]|].
    cbn in Hw. injection Hw as <-. cbn in Hth. unfold new_threads in Hth. apply lookup_gset_to_gmap_Some in Hth as [_ <-].
    by destruct Ht as [|[|]].
  - destruct (c_watch st) as [w|] eqn:Ew; [|done]. case_bool_decide; [|done]. injection Hstep as <-.
    by apply (live_ext st); [..|right|].
Qed.

Lemma run_live acts : forall st st', sound st -> live st -> AClose ∉ acts -> run owner acts st = Some st' -> live st'.
Proof.
  induction acts as [|a acts IH]; intros st st' Hs Hl Hno Hrun; cbn in Hrun; [by injection Hrun as <-|].
  destruct (step owner st a) as [st1|] eqn:Es; [|done]. apply not_elem_of_cons in Hno as [Hne Hno].
  apply (IH st1); [by eapply step_sound|by eapply step_live|done|done].
Qed.

(** While a Watch runs the cache is not closed. *)
Lemma run_no_close acts : forall st st' w, c_watch st = Some w -> AReturn ∉ acts -> run owner acts st = Some st' -> AClose ∉ acts.
Proof.
  induction acts as [|a acts IH]; intros st st' w Hw Ha Hrun; [apply not_elem_of_nil|]. cbn in Hrun.
  destruct (step owner st a) as [st1|] eqn:Es; [|done]. apply not_elem_of_cons in Ha as [Ha1 Ha2].
  destruct (step_watch owner st a st1 w Hw ltac:(congruence) Es) as (w1 & Hw1 & _).
  apply not_elem_of_cons. split; [|by eapply IH]. intros <-. cbn in Es. by rewrite Hw in Es.
Qed.

Lemma live_new : live NewCache.
Proof.
  split; [intros id s _ H; cbn in H; by rewrite lookup_empty in H|intros id h s H; cbn in H; by rewrite lookup_empty in H].
Qed.

End LiveSteps.

(** ** The properties *)

Section Properties.
Context (owner : string).

(** C20. In every interleaving of a cache's goroutines: no Watch panics; every
    source in the cache is of the kind it is kept for, was started and was seen
    to be synchronised; so that removing a source and closing the cache never
    fail, closing cancels the informer of every watched kind, and the content
    manager can always delete the cache of an extension. *)
Theorem content_cache_sound st : reachable owner st ->
  c_panic st = None /\
  (forall gvk id, c_sources st !! gvk = Some id -> exists s, c_heap st !! id = Some s /\
     dis_gvk s = gvk /\ dis_started s = true /\ dis_synced s = ChanClosed) /\
  (forall gvk, (removeSource gvk st).1 = None) /\
  ((cache_Close st).1 = None /\ forall gvk id, c_sources st !! gvk = Some id ->
     exists s, c_heap (cache_Close st).2 !! id = Some s /\ dis_cancelled s = true) /\
  (forall m name, m !! name = Some st -> Manager_Delete (Some name) m = (Ret None, delete name m)).
Proof.
  intros Hr%reachable_sound. split; [apply Hr|]. split; [|split; [|split]].
  - intros gvk id Hid. destruct (s_sources st Hr gvk id Hid) as (s & H1 & H2 & H3 & H4). eauto 10.
  - intros gvk. by apply removeSource_sound.
  - destruct (cache_Close_sound st Hr) as (H1 & _ & H3). split; [done|]. intros gvk id Hid.
    destruct (s_sources st Hr gvk id Hid) as (s & Hs & _). exists (informerCancel s). split; [|done].
    rewrite (H3 id s Hs), decide_True; [done|]. apply source_ids. eauto.
  - intros m name Hm. cbn. rewrite Hm. destruct (cache_Close_sound st Hr) as (H1 & _). destruct (cache_Close st) as [err st1].
    cbn in H1. by subst err.
Qed.

(** A cache that was not closed yet. *)
Definition unclosed (st : cache_state) : Prop := exists acts, run owner acts NewCache = Some st /\ AClose ∉ acts.

(** C33. A Watch that returns without error leaves a source in the cache for
    exactly the kinds of its objects, whatever else happened while it ran; each
    has synchronised; and if the cache was not closed before, each still runs,
    unless its own informer reported an error, which may have come in between
    ([dead_source_registered]).  (Closing the cache cancels its sources but keeps
    them, so that a Watch after that would find them there.) *)
Theorem Watch_exact st objs st1 acts st2 st3 :
  reachable owner st -> step owner st (AWatch objs) = Some st1 -> c_watch st1 <> None ->
  run owner acts st1 = Some st2 -> AReturn ∉ acts ->
  step owner st2 AReturn = Some st3 -> last (c_returned st3) = Some None ->
  dom (c_sources st3) = list_to_set (map snd objs) /\
  (forall gvk id, c_sources st3 !! gvk = Some id -> exists s, c_heap st3 !! id = Some s /\
     dis_gvk s = gvk /\ dis_started s = true /\ dis_synced s = ChanClosed /\
     (unclosed st -> dis_err s = None -> dis_cancelled s = false)).
Proof.
  intros Hr Hst1 Hw1 Hrun Hno Hst3 Hlast.
  assert (Hr2 : reachable owner st2) by (eapply reachable_run; [by eapply reach_step|done]).
  assert (Hg1 : exists w1, c_watch st1 = Some w1 /\ wc_gvks w1 = list_to_set (map snd objs)).
  { cbn in Hst1. destruct (c_watch st) eqn:Ew; [done|].
    destruct (gvksForObjects objs) as [e|gvks] eqn:Eg; [by injection Hst1 as <-|]. apply gvksForObjects_spec in Eg as <-.
    unfold removeStaleSources in Hst1.
    destruct (remove_all_sound (elements (dom (c_sources st) ∖ gvks)) st (reachable_sound _ _ Hr) Ew) as (H1 & _).
    destruct (remove_all _ st) as [errs st1']. cbn in H1. subst errs. rewrite join_sorted_nil in Hst1. injection Hst1 as <-. eauto. }
  destruct Hg1 as (w1 & Hw & Hg). destruct (run_watch owner acts st1 st2 w1 Hw Hno Hrun) as (w2 & Hw2 & Hg2).
  pose proof (reachable_sound _ _ Hr2) as Hs2. destruct (s_gvks st2 Hs2 w2 Hw2) as [Hk1 Hk2].
  assert (Hlive : unclosed st -> live st2).
  { intros (acts0 & Hrun0 & Hno0). apply (run_live owner (acts0 ++ AWatch objs :: acts) NewCache); [by apply (reachable_sound owner), reach_new|apply live_new| |].
    - rewrite not_elem_of_app, not_elem_of_cons. split; [done|]. split; [done|]. exact (run_no_close owner acts st1 st2 w1 Hw Hno Hrun).
    - eapply run_app; [exact Hrun0|]. cbn [run]. by rewrite Hst1. }
  cbn in Hst3. rewrite Hw2 in Hst3. case_bool_decide as He; [|done]. injection Hst3 as <-. cbn in *.
  rewrite last_snoc in Hlast. injection Hlast as Hlast%join_sorted_None.
  rewrite He, dom_empty_L, union_empty_r_L in *. split.
  - apply (anti_symm (⊆)); [by rewrite <- Hg, <- Hg2|]. rewrite <- Hg, <- Hg2. apply Hk2; [done|]. intros gvk err. by rewrite lookup_empty.
  - intros gvk id Hid. destruct (s_sources st2 Hs2 gvk id Hid) as (s & H1 & H2 & H3 & H4). exists s. split_and!; auto.
    intros Hun Herr. apply not_true_is_false. intros Hc. destruct (Hlive Hun) as [L1 _].
    destruct (L1 id s) as [e He']; [left; eauto|done|done|congruence].
Qed.

(** A source that runs, but is neither in the cache nor being started. *)
Definition abandoned (st : cache_state) (id : nat) : Prop :=
  (exists s, c_heap st !! id = Some s /\ dis_started s = true /\ dis_cancelled s = false) /\
  (forall gvk, c_sources st !! gvk <> Some id) /\
  (forall w gvk th, c_watch st = Some w -> wc_threads w !! gvk = Some th -> th <> StWatch id /\ th <> StWait id /\ th <> StResult (inr id)).

Lemma removeSource_abandoned gvk st id : sound st -> abandoned st id -> abandoned (removeSource gvk st).2 id.
Proof.
  intros Hs ((s & Hh & Hst & Hc) & Hno & Hth). unfold removeSource. destruct (c_sources st !! gvk) as [j|] eqn:Hj; [|by split; [eauto|]].
  destruct (s_sources st Hs gvk j Hj) as (r & Hr & _ & Hrs & _). rewrite Hr. unfold Close. rewrite Hrs. cbn.
  assert (Hne : j <> id) by (intros ->; by apply (Hno gvk)). split; [|split; [|done]].
  - exists s. cbn. by rewrite lookup_insert_ne.
  - intros g. cbn. intros [_ Hg]%lookup_delete_Some. by apply (Hno g).
Qed.

Lemma remove_all_abandoned gvks : forall st id, sound st -> c_watch st = None -> abandoned st id -> abandoned (remove_all gvks st).2 id.
Proof.
  induction gvks as [|g gvks IH]; intros st id Hs Hw Ha; cbn [remove_all]; [done|].
  destruct (removeSource_sound g st Hs) as (_ & Hw' & _ & Hs'). pose proof (removeSource_abandoned g st id Hs Ha) as Ha'.
  destruct (removeSource g st) as [err st1]. cbn in *. specialize (IH st1 id (Hs' Hw) ltac:(congruence) Ha').
  by destruct (remove_all gvks st1) as [errs st2].
Qed.

Lemma abandoned_ext st st' id : c_heap st' !! id = c_heap st !! id -> c_sources st' = c_sources st -> c_watch st' = c_watch st ->
  abandoned st id -> abandoned st' id.
Proof. unfold abandoned. intros -> -> ->. done. Qed.

Lemma abandoned_thread st id w gvk th : c_watch st = Some w -> abandoned st id ->
  th <> StWatch id -> th <> StWait id -> th <> StResult (inr id) -> abandoned (thread_step gvk w (Some th) [] st) id.
Proof.
  intros Hw (H1 & H2 & H3) Ha Hb Hc. split; [done|]. split; [done|]. intros w' g t [= <-]. cbn.
  destruct (decide (g = gvk)) as [->|Hne]; [rewrite lookup_insert_eq; by intros [= <-]|]. rewrite lookup_insert_ne by done. by apply H3.
Qed.

Lemma abandoned_heap st id j s : j <> id -> abandoned st id -> abandoned (with_heap (<[j := s]> (c_heap st)) st) id.
Proof. intros Hne. apply abandoned_ext; [cbn; by rewrite lookup_insert_ne|done..]. Qed.

Lemma abandoned_collect st id w gvk errs : c_watch st = Some w -> abandoned st id -> abandoned (thread_step gvk w None errs st) id.
Proof.
  intros Hw (H1 & H2 & H3). split; [done|]. split; [done|]. intros w' g t [= <-]. cbn. intros [_ Hl]%lookup_delete_Some. by apply (H3 w g).
Qed.

Lemma step_thread_abandoned a gvk w th st st' id : sound st -> c_watch st = Some w -> wc_threads w !! gvk = Some th ->
  abandoned st id -> step_thread a gvk w th st = Some st' -> abandoned st' id.
Proof.
  intros Hs Hw Hth Ha Hstep. pose proof Ha as (Hx & _ & Ht). destruct (Ht w gvk th Hw Hth) as (T1 & T2 & T3).
  destruct a as [ |g [err|]|g [err|]|g c|g| |a1|a2 ?|a3|a4|a5| ], th as [|j|j|[err'|j]]; cbn in Hstep; try discriminate Hstep.
  - injection Hstep as <-. by apply abandoned_thread.
  - injection Hstep as <-. assert (Hne : c_next st <> id).
    { destruct Hx as (s & Hi & _). apply (s_fresh st Hs) in Hi. lia. }
    apply (abandoned_thread (mkCacheSt _ _ _ _ _ _ _ _)); [done| |congruence|done|done].
    eapply abandoned_ext; [| | |exact Ha]; cbn; [by rewrite lookup_insert_ne|done..].
  - injection Hstep as <-. by apply abandoned_thread.
  - assert (Hne : j <> id) by congruence. destruct (c_heap st !! j) as [s|]; [|done]. destruct (Start s); [|].
    + injection Hstep as <-. apply (abandoned_thread (with_heap _ st)); [done| |congruence|congruence|done]. by apply abandoned_heap.
    + injection Hstep as <-. by eapply abandoned_ext; [| | |exact Ha].
  - assert (Hne : j <> id) by congruence. destruct (c_heap st !! j) as [s|]; [|done].
    destruct (WaitForSync c s) as [[[err|] s']|]; [| |done]; injection Hstep as <-;
      (apply (abandoned_thread (with_heap _ st)); [done| |congruence|congruence|congruence]); by apply abandoned_heap.
  - injection Hstep as <-. by apply abandoned_collect.
  - assert (Hne : j <> id) by congruence. unfold addSource in Hstep.
    destruct (c_sources st !! gvk); injection Hstep as <-; [by eapply abandoned_ext; [| | |exact Ha]|].
    apply (abandoned_collect (with_sources _ st)); [done|]. destruct Ha as (H1 & H2 & H3). split; [done|]. split; [|done].
    intros g0. cbn. destruct (decide (g0 = gvk)) as [->|Hg]; [rewrite lookup_insert_eq; congruence|by rewrite lookup_insert_ne].
Qed.

Lemma step_abandoned st a st' id : sound st -> abandoned st id -> a <> ACancel id -> step owner st a = Some st' -> abandoned st' id.
Proof.
  intros Hs Ha Hna Hstep.
  assert (Hthr : forall gvk, (match c_watch st with
    | None => None
    | Some w => match wc_threads w !! gvk with Some th => step_thread a gvk w th st | None => None end
    end) = Some st' -> abandoned st' id).
  { intros gvk H. destruct (c_watch st) as [w|] eqn:Ew; [|done]. destruct (wc_threads w !! gvk) as [th|] eqn:Eth; [|done].
    by apply (step_thread_abandoned a gvk w th st). }
  assert (Hheap : forall j s s' h q r, c_heap st !! j = Some s -> (j = id -> dis_started s' = dis_started s /\ dis_cancelled s' = dis_cancelled s) ->
    abandoned (mkCacheSt (c_sources st) (<[j := s']> (c_heap st)) (c_next st) (c_watch st) h q r (c_panic st)) id).
  { intros j s s' h q r Hj Hsame. destruct Ha as ((x & Hi & Hst & Hc) & H2 & H3). split; [|done]. cbn.
    destruct (decide (j = id)) as [->|Hne].
    - destruct (Hsame eq_refl) as [E1 E2]. rewrite Hj in Hi. injection Hi as ->. exists s'. rewrite lookup_insert_eq, E1, E2. done.
    - exists x. by rewrite lookup_insert_ne. }
  destruct a; try (by eapply Hthr).
  - cbn in Hstep. destruct (c_watch st) eqn:Ew; [done|].
    destruct (gvksForObjects objs) as [e|gvks]; [injection Hstep as <-; by eapply abandoned_ext; [| | |exact Ha]|].
    unfold removeStaleSources in Hstep. set (l := elements _) in Hstep.
    pose proof (remove_all_abandoned l st id Hs Ew Ha) as Hr. destruct (remove_all l st) as [errs st1]. cbn in Hr.
    destruct (join_sorted errs); injection Hstep as <-; [by eapply abandoned_ext; [| | |exact Hr]|].
    destruct Hr as (H1 & H2 & H3). split; [done|]. split; [done|]. intros w g th [= <-]. cbn. unfold new_threads.
    rewrite lookup_gset_to_gmap_Some. by intros [_ <-].
  - cbn in Hstep. destruct (c_watch st) as [w|] eqn:Ew; [|done]. case_bool_decide; [|done]. injection Hstep as <-.
    destruct Ha as (H1 & H2 & H3). split; [done|]. split; [done|]. intros w' g th [=].
  - cbn in Hstep. destruct (c_heap st !! id0) as [s|] eqn:Ej; [|done].
    assert (Hst : with_heap (<[id0 := with_synced ChanSending s]> (c_heap st)) st = st').
    { destruct (c_handlers st !! id0) as [[| |]|]; (destruct (_ && bool_decide _); [by injection Hstep|done]). }
    subst st'. by eapply Hheap.
  - cbn in Hstep. destruct (c_heap st !! id0) as [s|] eqn:Ej; [|done]. cbn in Hstep.
    destruct (c_handlers st !! id0) as [[| |]|]; try done. destruct (_ && _); [|done].
    assert (Hsame : dis_started (hasSynced (errOnce e s)).2 = dis_started s /\ dis_cancelled (hasSynced (errOnce e s)).2 = dis_cancelled s).
    { unfold hasSynced. by destruct (dis_synced (errOnce e s)). }
    destruct (hasSynced (errOnce e s)) as [b s']. injection Hstep as <-. by eapply Hheap.
  - cbn in Hstep. destruct (c_heap st !! id0) as [s|] eqn:Ej; [|done]. cbn in Hstep.
    destruct (c_handlers st !! id0) as [[| |]|]; try done. destruct (c_watch st) eqn:Ew; [done|].
    pose proof (removeSource_abandoned (dis_gvk s) st id Hs Ha) as Hr. destruct (removeSource (dis_gvk s) st) as [e st1].
    injection Hstep as <-. by eapply abandoned_ext; [| | |exact Hr].
  - cbn in Hstep. destruct (c_heap st !! id0) as [s|] eqn:Ej; [|done]. cbn in Hstep.
    destruct (c_handlers st !! id0) as [[|rq|]|]; try done. injection Hstep as <-. eapply Hheap; [done|congruence].
  - cbn in Hstep. destruct (c_heap st !! id0) as [s|] eqn:Ej; [|done]. cbn in Hstep.
    destruct (c_handlers st !! id0) as [[| |]|]; try done. injection Hstep as <-. by eapply abandoned_ext; [| | |exact Ha].
  - cbn in Hstep. destruct (c_watch st) eqn:Ew; [done|]. destruct (cache_Close_sound st Hs) as (_ & _ & H3).
    assert (Hso : c_sources (cache_Close st).2 = c_sources st /\ c_watch (cache_Close st).2 = c_watch st).
    { unfold cache_Close. by destruct (close_all _ _). }
    destruct (cache_Close st) as [err st1]. cbn in *. injection Hstep as <-. destruct Ha as ((s & Hi & Hst & Hc) & H2 & Hth).
    destruct Hso as [E1 E2]. split; [|split].
    + exists s. cbn. rewrite (H3 id s Hi), decide_False; [done|]. rewrite source_ids. intros [g Hg]. by apply (H2 g).
    + cbn. by rewrite E1.
    + cbn. rewrite E2, Ew. done.
Qed.

(** A source whose synchronisation timed out is lost: once WaitForSync has
    given up, the informer runs on, and nothing the cache or the content manager
    does, neither closing the cache nor any Watch, cancels it; only an error of
    its own does. *)
Theorem timed_out_source_runs_on st w gvk id s st1 acts st2 :
  reachable owner st -> c_watch st = Some w -> wc_threads w !! gvk = Some (StWait id) ->
  c_heap st !! id = Some s -> dis_cancelled s = false ->
  step owner st (AWait gvk WDone) = Some st1 ->
  run owner acts st1 = Some st2 -> ACancel id ∉ acts ->
  exists s', c_heap st2 !! id = Some s' /\ dis_started s' = true /\ dis_cancelled s' = false /\
    forall g, c_sources st2 !! g <> Some id.
Proof.
  intros Hr Hw Hth Hid Hc Hst Hrun Hno. pose proof (reachable_sound _ _ Hr) as Hs.
  destruct (s_threads st Hs w gvk _ Hw Hth) as [Hn (s0 & Hs0 & Hg & Hstd & _)]. rewrite Hid in Hs0. injection Hs0 as <-.
  assert (Hr1 : reachable owner st1) by by eapply reach_step.
  assert (Ha1 : abandoned st1 id).
  { cbn in Hst. rewrite Hw, Hth in Hst. cbn in Hst. rewrite Hid in Hst. unfold WaitForSync in Hst. rewrite Hstd in Hst. injection Hst as <-.
    split; [|split].
    - exists s. cbn. by rewrite lookup_insert_eq.
    - intros g Hg'. cbn in Hg'. destruct (s_sources st Hs g id Hg') as (s' & Hs' & Hgg & _). congruence.
    - intros w' g th [= <-]. cbn. destruct (decide (g = gvk)) as [->|Hne]; [rewrite lookup_insert_eq; by intros [= <-]|].
      rewrite lookup_insert_ne by done. intros Hl. destruct (s_threads st Hs w g th Hw Hl) as [_ Hok].
      assert (Hgv : forall r, c_heap st !! id = Some r -> dis_gvk r = g -> False) by (intros r; rewrite Hid; intros [= <-]; congruence).
      destruct th as [|j|j|[e|j]]; (split; [|split]); try done; intros [= ->]; destruct Hok as (r & ? & ? & _); by eapply Hgv. }
  clear - Hr1 Ha1 Hrun Hno. revert st1 Hr1 Ha1 Hrun. induction acts as [|a acts IH]; intros st1 Hr1 Ha1 Hrun; cbn in Hrun.
  - injection Hrun as <-. destruct Ha1 as ((s & H1 & H2 & H3) & H4 & _). eauto 10.
  - destruct (step owner st1 a) as [st'|] eqn:Es; [|done]. apply not_elem_of_cons in Hno as [Hne Hno].
    apply (IH Hno st'); [by eapply reach_step| |done]. apply (step_abandoned st1 a st' id); [by apply (reachable_sound owner)|done|congruence|done].
Qed.

(** A goroutine of a Watch can always end: the timeout runs out. *)
Lemma thread_ends st w gvk th : sound st -> c_watch st = Some w -> wc_threads w !! gvk = Some th ->
  exists acts st' w', run owner acts st = Some st' /\ c_watch st' = Some w' /\ wc_threads w' = delete gvk (wc_threads w).
Proof.
  intros Hs Hw Hth. destruct (s_threads st Hs w gvk th Hw Hth) as [Hn Hok].
  assert (Hcollect : forall st1 err, c_watch st1 = Some (mkWatch (wc_gvks w) (<[gvk := StResult (inl err)]> (wc_threads w)) (wc_errors w)) ->
    exists st' w', run owner [ACollect gvk] st1 = Some st' /\ c_watch st' = Some w' /\ wc_threads w' = delete gvk (wc_threads w)).
  { intros st1 err H1. cbn. rewrite H1. cbn. rewrite lookup_insert_eq. eexists _, _. split; [done|]. split; [done|]. cbn. by rewrite delete_insert_eq. }
  assert (Hone : forall a st1 err, step owner st a = Some st1 ->
    c_watch st1 = Some (mkWatch (wc_gvks w) (<[gvk := StResult (inl err)]> (wc_threads w)) (wc_errors w)) ->
    exists acts st' w', run owner acts st = Some st' /\ c_watch st' = Some w' /\ wc_threads w' = delete gvk (wc_threads w)).
  { intros a st1 err Ha H1. destruct (Hcollect st1 err H1) as (st' & w' & Hr & Hrest). exists [a; ACollect gvk], st', w'.
    split; [|done]. cbn [run] in *. by rewrite Ha. }
  destruct th as [|id|id|[err|id]].
  - eapply (Hone (ASource gvk (Some (ENew "")))); [cbn; by rewrite Hw, Hth|]. cbn. by rewrite app_nil_r.
  - eapply (Hone (AStart gvk (Some (ENew "")))); [cbn; by rewrite Hw, Hth|]. cbn. by rewrite app_nil_r.
  - destruct Hok as (s & Hh & _ & Hst & _).
    eapply (Hone (AWait gvk WDone)); [cbn; rewrite Hw, Hth; cbn; rewrite Hh; unfold WaitForSync; by rewrite Hst|]. cbn. by rewrite app_nil_r.
  - exists [ACollect gvk]. cbn. rewrite Hw, Hth. cbn. eexists _, _. split; [done|]. by split.
  - exists [ACollect gvk]. cbn. rewrite Hw, Hth. cbn. unfold addSource. rewrite Hn. eexists _, _. split; [done|]. by split.
Qed.

(** A Watch never waits for ever: from every state with a Watch in progress
    its goroutines can end, with errors if nothing synchronises in time, and
    Watch returns and gives its mutex back. *)
Theorem Watch_can_return st w : reachable owner st -> c_watch st = Some w ->
  exists acts st', run owner acts st = Some st' /\ c_watch st' = None /\ c_panic st' = None.
Proof.
  intros Hr. remember (size (wc_threads w)) as n eqn:En. revert st w Hr En. induction n as [|n IH]; intros st w Hr En Hw.
  - symmetry in En. apply map_size_empty_inv in En.
    assert (Hst : exists st', step owner st AReturn = Some st' /\ c_watch st' = None).
    { cbn. rewrite Hw, bool_decide_eq_true_2 by done. eexists. by split. }
    destruct Hst as (st' & Hst & Hw'). exists [AReturn], st'. cbn [run]. rewrite Hst. split; [done|]. split; [done|].
    apply (reachable_sound owner). by eapply reach_step.
  - destruct (map_choose (wc_threads w)) as (gvk & th & Hth); [intros He; by rewrite He, map_size_empty in En|].
    destruct (thread_ends st w gvk th (reachable_sound _ _ Hr) Hw Hth) as (acts & st1 & w1 & Hrun & Hw1 & Hd).
    destruct (IH st1 w1) as (acts' & st' & Hrun' & Hrest); [by eapply reachable_run| |done|].
    { rewrite Hd, map_size_delete_Some by eauto. lia. }
    exists (acts ++ acts'), st'. split; [by eapply run_app|done].
Qed.

End Properties.

(** ** Events *)

(** With the predicates of the content manager, a creation queues nothing, and
    an update or a deletion, also one that was missed, is handled. *)
Lemma source_events {object request} (h : handler object request) (o n : object) :
  OnAdd h [source_predicate] (Obj o) = [] /\
  OnUpdate h [source_predicate] (Obj o) (Obj n) = h_Update h o n /\
  OnDelete h [source_predicate] (Obj o) = h_Delete h o false /\
  OnDelete h [source_predicate] (Tombstone (Obj o)) = h_Delete h o true.
Proof. done. Qed.

(** ** Late errors *)

Module ContentSamples.

Definition cm : GroupVersionKind := mkGVK "" "v1" "ConfigMap".
Definition one_object : list (string * GroupVersionKind) := [("settings", cm)].

(** A Watch of one kind whose source does not synchronise in time. *)
Definition timed_out : list action :=
  [AWatch one_object; ASource cm None; AStart cm None; AWait cm WDone; ACollect cm; AReturn].

(** A Watch of one kind that works, with the source [id]. *)
Definition watched (id : nat) : list action :=
  [AWatch one_object; ASource cm None; AStart cm None; ASync id; AWait cm WSynced; ACollect cm; AReturn].

Lemma content_cache_sound_witness :
  match run "owner" (watched 0) NewCache with
  | Some st => c_panic st = None /\ (cache_Close st).1 = None /\ c_sources st !! cm = Some 0%nat
  | None => False
  end.
Proof.
  destruct (run "owner" (watched 0) NewCache) as [st|] eqn:E; [|by vm_compute in E].
  destruct (content_cache_sound "owner" st (reachable_run "owner" _ _ _ (reach_new "owner") E)) as (H1 & _ & _ & (H2 & _) & _).
  split; [exact H1|]. split; [exact H2|].
  assert (Hs : (fun st => c_sources st !! cm) <$> run "owner" (watched 0) NewCache = Some (Some 0%nat)) by (vm_compute; reflexivity).
  rewrite E in Hs. by injection Hs.
Defined.

Definition after (acts : list action) : cache_state := default NewCache (run "owner" acts NewCache).

Lemma after_run acts : match run "owner" acts NewCache with Some _ => true | None => false end = true ->
  run "owner" acts NewCache = Some (after acts).
Proof. unfold after. by destruct (run "owner" acts NewCache). Qed.

Lemma after_reachable acts : match run "owner" acts NewCache with Some _ => true | None => false end = true -> reachable "owner" (after acts).
Proof. intros H%after_run. eapply (reachable_run "owner"); [apply reach_new|exact H]. Qed.

Lemma Watch_exact_witness :
  dom (c_sources (after (watched 0))) = {[ cm ]} /\ last (c_returned (after (watched 0))) = Some None /\
  exists s, c_heap (after (watched 0)) !! 0%nat = Some s /\ dis_synced s = ChanClosed /\ (dis_err s = None -> dis_cancelled s = false).
Proof.
  assert (Hl : last (c_returned (after (watched 0))) = Some None) by (vm_compute; reflexivity).
  assert (Hw : c_watch (after [AWatch one_object]) <> None) by (vm_compute; discriminate).
  destruct (Watch_exact "owner" NewCache one_object (after [AWatch one_object])
    [ASource cm None; AStart cm None; ASync 0; AWait cm WSynced; ACollect cm]
    (after [AWatch one_object; ASource cm None; AStart cm None; ASync 0; AWait cm WSynced; ACollect cm])
    (after (watched 0)) (reach_new "owner") ltac:(vm_compute; reflexivity) Hw ltac:(vm_compute; reflexivity)
    ltac:(set_solver) ltac:(vm_compute; reflexivity) Hl) as [Hd Hs].
  split; [rewrite Hd; apply (right_id_L ∅ (∪))|]. split; [exact Hl|].
  destruct (Hs cm 0%nat ltac:(vm_compute; reflexivity)) as (s & H1 & _ & _ & H2 & H3). exists s. split; [exact H1|]. split; [exact H2|].
  apply H3. exists []. split; [done|apply not_elem_of_nil].
Defined.

Lemma timed_out_source_runs_on_witness :
  exists s, c_heap (after (timed_out ++ [AClose])) !! 0%nat = Some s /\ dis_started s = true /\ dis_cancelled s = false.
Proof.
  destruct (timed_out_source_runs_on "owner" (after [AWatch one_object; ASource cm None; AStart cm None])
    (mkWatch {[ cm ]} {[ cm := StWait 0 ]} []) cm 0 (mkDIS cm true ChanEmpty None false)
    (after [AWatch one_object; ASource cm None; AStart cm None; AWait cm WDone]) [ACollect cm; AReturn; AClose]
    (after (timed_out ++ [AClose])) ltac:(apply after_reachable; vm_compute; reflexivity)
    ltac:(vm_compute; reflexivity) ltac:(vm_compute; reflexivity) ltac:(vm_compute; reflexivity) eq_refl
    ltac:(vm_compute; reflexivity) ltac:(vm_compute; reflexivity) ltac:(set_solver)) as (s & H1 & H2 & H3 & _).
  exists s. auto.
Defined.

Lemma Watch_can_return_witness :
  exists acts st', run "owner" acts (after [AWatch one_object; ASource cm None]) = Some st' /\ c_watch st' = None.
Proof.
  destruct (Watch_can_return "owner" (after [AWatch one_object; ASource cm None]) (mkWatch {[ cm ]} {[ cm := StWatch 0 ]} [])
    ltac:(apply after_reachable; vm_compute; reflexivity) ltac:(vm_compute; reflexivity)) as (acts & st' & H1 & H2 & _).
  exists acts, st'. auto.
Defined.

(** A source that timed out reports a later error like any other: its
    handler removes whatever source is in the cache for its kind, and so closes
    the one that has replaced it and works. *)
Theorem late_error_closes_fresh_source owner e :
  match run owner (timed_out ++ watched 1 ++ [ASync 0; AError 0 e]) NewCache with
  | Some st => c_sources st !! cm = Some 1%nat /\ (dis_cancelled <$> c_heap st !! 1%nat) = Some false /\
      match run owner [ACallback 0] st with
      | Some st' => c_sources st' !! cm = None /\ (dis_cancelled <$> c_heap st' !! 1%nat) = Some true /\
          (dis_err <$> c_heap st' !! 1%nat) = Some None
      | None => False
      end
  | None => False
  end.
Proof. vm_compute. do 4 (split; [reflexivity|]). reflexivity. Qed.

(** An error that is reported before the synchronisation was seen, but after
    which the synchronisation wins the race, leaves a source in the cache that
    is cancelled, while Watch returned no error and nobody is requeued. *)
Lemma dead_source_registered owner e :
  match run owner [AWatch one_object; ASource cm None; AStart cm None; AError 0 e; ASync 0; ACancel 0; AWait cm WSynced; ACollect cm; AReturn] NewCache with
  | Some st => c_sources st !! cm = Some 0%nat /\ (dis_cancelled <$> c_heap st !! 0%nat) = Some true /\
      c_returned st = [None] /\ c_queue st = [] /\ c_handlers st !! 0%nat = None
  | None => False
  end.
Proof. vm_compute. do 4 (split; [reflexivity|]). reflexivity. Qed.

End ContentSamples.
