(* ===== verification/Admission.v ===== *)
(** * What the API server admits of a revision

    src/api/v1/clusterobjectset_types.go: the kubebuilder markers of
    ClusterObjectSet and of the types in it, as the API server evaluates them
    on the configuration of a new revision, and whether the revisions the
    boxcutter applier creates satisfy them.

    The check of an embedded object is an argument.  The strings the markers
    bound are ASCII here, so that their length is that of their bytes. *)

From Stdlib Require Import Ascii.
From S2P Require Import Prelude GoErrors ApiTypes Phase ExtSteps SecretPacker ObjectInstances PackProps Instances RevisionGen BoxApply BoxLogic BoxProps.

(** ** Formats *)

Definition char_between (lo hi : nat) (c : ascii) : bool := (lo <=? nat_of_ascii c)%nat && (nat_of_ascii c <=? hi)%nat.
Definition is_digit_char : ascii -> bool := char_between 48 57.
Definition is_lower_char : ascii -> bool := char_between 97 122.
Definition is_upper_char : ascii -> bool := char_between 65 90.
Definition label_char (c : ascii) : bool := is_lower_char c || is_digit_char c.

Definition all_chars (f : ascii -> bool) (s : string) : bool := forallb f (String.list_ascii_of_string s).

Definition length_between (lo hi : Z) (s : string) : bool := (lo <=? slen s) && (slen s <=? hi).

(** The DNS label standard, as the documentation of a phase's name has it. *)
Definition dns1123Label (s : string) : bool :=
  length_between 1 63 s && all_chars (fun c => label_char c || (nat_of_ascii c =? 45)%nat) s &&
  match String.list_ascii_of_string s with
  | [] => false
  | c :: cs => label_char c && label_char (List.last cs c)
  end.

(** ^[a-zA-Z0-9]+(?:\\.[a-zA-Z0-9]+)*$ *)
Definition valid_field_path (s : string) : bool :=
  forallb (fun seg => bool_decide (seg <> EmptyString) && all_chars (fun c => label_char c || is_upper_char c) seg)
    (strings_Split (ascii_of_nat 46) s).

Definition collision_protections : list string :=
  [CollisionProtectionPrevent; CollisionProtectionIfNoController; CollisionProtectionNone].

(** ** Probes *)

(** A member of a union is present unless it is zero (omitzero). *)
Definition has_groupKind (s : ObjectSelector) : bool := bool_decide (os_GroupKind s <> mkGK "" "").
Definition has_label (s : ObjectSelector) : bool :=
  bool_decide (ls_MatchLabels (os_Label s) <> ∅) || bool_decide (ls_MatchExpressions (os_Label s) <> []).

Definition selector_admitted (s : ObjectSelector) : bool :=
  bool_decide (os_Type s ∈ [SelectorTypeGroupKind; SelectorTypeLabel]) &&
  eqb (bool_decide (os_Type s = SelectorTypeGroupKind)) (has_groupKind s) &&
  eqb (bool_decide (os_Type s = SelectorTypeLabel)) (has_label s) &&
  (if has_label s then
     xorb (bool_decide (ls_MatchExpressions (os_Label s) <> [])) (bool_decide (ls_MatchLabels (os_Label s) <> ∅))
   else true).

Definition field_path_admitted (s : string) : bool := length_between 1 200 s && valid_field_path s.

Definition assertion_admitted (a : Assertion) : bool :=
  let ce := as_ConditionEqual a in
  let fe := as_FieldsEqual a in
  let fv := as_FieldValue a in
  bool_decide (as_Type a ∈ [ProbeTypeConditionEqual; ProbeTypeFieldsEqual; ProbeTypeFieldValue]) &&
  eqb (bool_decide (as_Type a = ProbeTypeConditionEqual)) (bool_decide (ce <> no_ce)) &&
  eqb (bool_decide (as_Type a = ProbeTypeFieldsEqual)) (bool_decide (fe <> no_fe)) &&
  eqb (bool_decide (as_Type a = ProbeTypeFieldValue)) (bool_decide (fv <> no_fv)) &&
  (if bool_decide (ce <> no_ce) then length_between 1 200 (cep_Type ce) && bool_decide (cep_Status ce ∈ ["True"; "False"]) else true) &&
  (if bool_decide (fe <> no_fe) then field_path_admitted (fep_FieldA fe) && field_path_admitted (fep_FieldB fe) else true) &&
  (if bool_decide (fv <> no_fv) then field_path_admitted (fvp_FieldPath fv) && length_between 1 200 (fvp_Value fv) else true).

Definition probe_admitted (p : ProgressionProbe) : bool :=
  selector_admitted (pp_Selector p) &&
  ((1 <=? length (pp_Assertions p))%nat && (length (pp_Assertions p) <=? 20)%nat) &&
  forallb assertion_admitted (pp_Assertions p).

(** ** Objects, phases, revisions *)

Section Markers.
Context (EmbeddedResource : Unstructured -> bool).

Definition ref_admitted (r : ObjectSourceRef) : bool :=
  length_between 1 253 (osr_Name r) && length_between 0 63 (osr_Namespace r) && length_between 1 253 (osr_Key r).

(** ExactlyOneOf={object,ref} *)
Definition object_admitted (o : ObjectAC) : bool :=
  xorb (bool_decide (is_Some (oa_Object o))) (bool_decide (is_Some (oa_Ref o))) &&
  match oa_Object o with Some u => EmbeddedResource u | None => true end &&
  match oa_Ref o with Some r => ref_admitted r | None => true end &&
  match oa_CollisionProtection o with Some cp => bool_decide (cp ∈ collision_protections) | None => true end.

Definition phase_admitted (p : PhaseAC) : bool :=
  match pa_Name p with Some n => dns1123Label n | None => false end &&
  (length (pa_Objects p) <=? 50)%nat && forallb object_admitted (pa_Objects p).

Definition deadline_admitted (n : Z) : bool := (10 <=? n) && (n <=? 720).

Definition spec_admitted (s : COSSpecAC) : bool :=
  match sa_LifecycleState s with Some l => bool_decide (l ∈ [LifecycleStateActive; LifecycleStateArchived]) | None => false end &&
  match sa_Revision s with Some n => 1 <=? n | None => false end &&
  (length (sa_Phases s) <=? 20)%nat && bool_decide (NoDup (map pa_Name (sa_Phases s))) && forallb phase_admitted (sa_Phases s) &&
  match sa_ProgressDeadlineMinutes s with Some n => deadline_admitted n | None => true end &&
  ((length (sa_ProgressionProbes s) <=? 20)%nat && forallb probe_admitted (sa_ProgressionProbes s)) &&
  match sa_CollisionProtection s with Some cp => bool_decide (cp ∈ collision_protections) | None => false end.

End Markers.

(** ** What the default probes and the phases satisfy *)

Lemma default_probes_admitted : forallb probe_admitted defaultProgressionProbes = true.
Proof. vm_compute. reflexivity. Qed.

Lemma phase_names_admitted : Forall (fun p => dns1123Label p = true) defaultPhaseOrder.
Proof. apply (bool_decide_unpack _). vm_compute. exact I. Qed.

(** A phase of the sorted objects. *)
Definition sorted_phase `{UnstructuredAPI} (objs : list ObjectAC) (p : Phase) : PhaseAC :=
  mkPhaseAC (Some p) (sort_by compareClusterObjectSetObjectApplyConfigurations (in_phase p objs)).

Section Phases.
Context `{UA : UnstructuredAPI} (objs : list ObjectAC).

Lemma PhaseSort_elem ph :
  ph ∈ PhaseSort objs <-> exists p, p ∈ defaultPhaseOrder /\ in_phase p objs <> [] /\ ph = sorted_phase objs p.
Proof.
  rewrite PhaseSort_unfold, list_elem_of_omap. unfold sorted_phase. split.
  - intros (p & Hp & He). exists p. destruct (in_phase p objs); [done|]. injection He as <-. done.
  - intros (p & Hp & Hn & ->). exists p. split; [done|]. by destruct (in_phase p objs).
Qed.

Lemma PhaseSort_names : sublist (map pa_Name (PhaseSort objs)) (map Some defaultPhaseOrder).
Proof.
  rewrite PhaseSort_unfold. induction defaultPhaseOrder as [|p ps IH]; [constructor|]. cbn [omap list_omap map].
  destruct (in_phase p objs); [by apply sublist_cons|]. by apply sublist_skip.
Qed.

Lemma in_phase_nonempty p : in_phase p objs <> [] -> p ∈ defaultPhaseOrder.
Proof.
  intros Hn. destruct (in_phase p objs) as [|o l] eqn:E; [done|].
  assert (Ho : o ∈ in_phase p objs) by (rewrite E; by left).
  apply list_elem_of_filter in Ho as [<- _]. apply determinePhase_known.
Qed.

Lemma phases_fit_iff :
  (forall p, (length (in_phase p objs) <= 50)%nat) <->
  (forall ph, ph ∈ PhaseSort objs -> (length (pa_Objects ph) <= 50)%nat).
Proof.
  split.
  - intros H ph (p & _ & _ & ->)%PhaseSort_elem. cbn [sorted_phase pa_Objects].
    rewrite (Permutation_length (sort_by_perm compareClusterObjectSetObjectApplyConfigurations _)). apply H.
  - intros H p. destruct (decide (in_phase p objs = [])) as [->|Hn]; [cbn; lia|].
    rewrite <- (Permutation_length (sort_by_perm compareClusterObjectSetObjectApplyConfigurations (in_phase p objs))).
    apply (H (sorted_phase objs p)). apply PhaseSort_elem. exists p. split; [by apply in_phase_nonempty|done].
Qed.

End Phases.

(** ** The references Pack makes *)

(** The digests have the length of a SHA-256 digest's first 8 bytes in
    hexadecimal, and of the whole digest in base64. *)
Definition digest_lengths `{Codec} : Prop :=
  (forall d, slen (sha256_hex8 d) = 16) /\ (forall d, slen (sha256_base64url d) = 43).

Section References.
Context `{CO : Codec} (p : SecretPacker).

Lemma Pack_ref phases res i j ph obj m :
  no_collision (map snd (encodings (positions 0 phases))) -> Pack p phases = inr res ->
  phases !! i = Some ph -> ph_Objects ph !! j = Some obj -> u_Object (oo_Object obj) = Some m ->
  exists data d, Refs res !! (i, j) = Some (mkSourceRef (secretNameFromData p data) (SystemNamespace p) (contentHash d)).
Proof.
  intros Hnc Hp Hph Hobj Hm.
  assert (Hpos : (i, j, obj) ∈ positions 0 phases).
  { apply positions_elem. split; [lia|]. exists ph. by rewrite Nat.sub_0_r. }
  destruct (Pack_inv p phases res Hnc Hp) as [Hs Hall]. rewrite Forall_forall in Hall.
  unfold Pack in Hp. rewrite pack_phases_all in Hp.
  destruct (pack_all p (positions 0 phases) pack_init) as [e|st] eqn:E; [done|].
  destruct (pack_all_encoded p _ _ _ _ _ _ _ E Hpos Hm) as [d Hd].
  destruct (Hall (i, j, d)) as (ref & s & Href & Hin & Hn & Hns & Hk & _).
  { apply list_elem_of_omap. exists (i, j, obj). split; [done|]. cbn. by rewrite Hm, Hd. }
  destruct (Hs s Hin) as [_ Es]. rewrite Es in Hn, Hns. destruct ref as [n ns k]. cbn in *. subst. eauto.
Qed.

Lemma made_ref_admitted data d :
  digest_lengths -> slen (RevisionName p) <= 236 -> slen (SystemNamespace p) <= 63 ->
  ref_admitted (mkSourceRef (secretNameFromData p data) (SystemNamespace p) (contentHash d)) = true.
Proof.
  intros [H8 H64] Hn Hs. unfold ref_admitted, length_between, secretNameFromData, contentHash. cbn [osr_Name osr_Namespace osr_Key].
  rewrite !slen_app, H8, H64. change (slen "-") with 1. pose proof (slen_nonneg (RevisionName p)). pose proof (slen_nonneg (SystemNamespace p)).
  rewrite !andb_true_iff, !Z.leb_le. lia.
Qed.

End References.

(** ** The revision an apply sends *)

(** The marker of a ClusterExtension's progress deadline; zero stands for an
    absent one. *)
Definition ext_deadline_admitted (n : Z) : bool := (n =? 0) || deadline_admitted n.

(** What every generator hands over for an object. *)
Definition generated_object (o : ObjectAC) : Prop :=
  oa_Ref o = None /\ oa_CollisionProtection o = None /\ exists u m, oa_Object o = Some u /\ u_Object u = Some m.

Section NewRevision.
Context `{UA : UnstructuredAPI} `{CO : Codec} (EmbeddedResource : Unstructured -> bool).
Context (packer : SecretPacker) (objs : list ObjectAC) (pack : PackResult).
Context (Hlen : digest_lengths) (Hname : slen (RevisionName packer) <= 236) (Hns : slen (SystemNamespace packer) <= 63).
Context (Hobjs : Forall generated_object objs).
Context (Hnc : no_collision (map snd (encodings (positions 0 (extractPhasesForPacking (PhaseSort objs)))))).
Context (Hpack : Pack packer (extractPhasesForPacking (PhaseSort objs)) = inr pack).

Lemma packed_object_admitted i j ph o :
  PhaseSort objs !! i = Some ph -> pa_Objects ph !! j = Some o ->
  object_admitted EmbeddedResource (replace_object (Refs pack) i j o) = true.
Proof.
  intros Hi Hj.
  assert (Ho : generated_object o).
  { rewrite Forall_forall in Hobjs. apply Hobjs. apply list_elem_of_lookup_2, PhaseSort_elem in Hi as (p & _ & _ & ->).
    apply list_elem_of_lookup_2 in Hj. cbn [sorted_phase pa_Objects] in Hj. rewrite elem_of_sort_by in Hj.
    by apply list_elem_of_filter in Hj as [_ ?]. }
  destruct Ho as (_ & Hcp & u & m & Hu & Hm).
  destruct (Pack_ref packer _ pack i j
    (mkCOSPhase (default EmptyString (pa_Name ph)) (map extract_object (pa_Objects ph)) EmptyString) (extract_object o) m Hnc Hpack)
    as (data & d & Href).
  - unfold extractPhasesForPacking. by rewrite list_lookup_fmap, Hi.
  - cbn. by rewrite list_lookup_fmap, Hj.
  - cbn. by rewrite Hu.
  - unfold replace_object. rewrite Href. unfold object_admitted. cbn [oa_Object oa_Ref oa_CollisionProtection].
    rewrite (made_ref_admitted packer data d Hlen Hname Hns), Hcp. reflexivity.
Qed.

Lemma packed_phase_admitted i ph :
  PhaseSort objs !! i = Some ph ->
  phase_admitted EmbeddedResource (mkPhaseAC (pa_Name ph) (imap (replace_object (Refs pack) i) (pa_Objects ph))) = true <->
  (length (pa_Objects ph) <= 50)%nat.
Proof.
  intros Hi. unfold phase_admitted. cbn [pa_Name pa_Objects]. rewrite length_imap, !andb_true_iff, Nat.leb_le.
  assert (Hn : match pa_Name ph with Some n => dns1123Label n | None => false end = true).
  { apply list_elem_of_lookup_2, PhaseSort_elem in Hi as (p & Hp & _ & ->). cbn.
    pose proof phase_names_admitted as H. rewrite Forall_forall in H. by apply H. }
  assert (Ho : forallb (object_admitted EmbeddedResource) (imap (replace_object (Refs pack) i) (pa_Objects ph)) = true).
  { apply forallb_forall. intros x Hx%list_elem_of_In. apply elem_of_lookup_imap in Hx as (j & o & -> & Hj).
    by eapply packed_object_admitted. }
  tauto.
Qed.

Lemma replaced_spec_admitted rev :
  ca_Spec rev = mkSpecAC (Some LifecycleStateActive) (sa_Revision (ca_Spec rev)) (PhaseSort objs)
    (sa_ProgressDeadlineMinutes (ca_Spec rev)) defaultProgressionProbes (sa_CollisionProtection (ca_Spec rev)) ->
  (exists n, sa_Revision (ca_Spec rev) = Some n /\ 1 <= n) ->
  (forall n, sa_ProgressDeadlineMinutes (ca_Spec rev) = Some n -> deadline_admitted n = true) ->
  (exists cp, sa_CollisionProtection (ca_Spec rev) = Some cp /\ cp ∈ collision_protections) ->
  spec_admitted EmbeddedResource (ca_Spec (replaceInlineWithRefs rev pack)) = true <->
  forall p, (length (in_phase p objs) <= 50)%nat.
Proof.
  intros Hspec (n & Hn & Hn1) Hd (cp & Hcp & Hcpe). rewrite phases_fit_iff.
  unfold replaceInlineWithRefs, ca_Phases, set_phases. cbn [WithSpec ca_Spec]. rewrite Hspec.
  unfold spec_admitted. cbn [sa_LifecycleState sa_Revision sa_Phases sa_ProgressDeadlineMinutes sa_ProgressionProbes sa_CollisionProtection].
  rewrite Hn, Hcp. set (phases := imap _ (PhaseSort objs)).
  assert (Hnames : map pa_Name phases = map pa_Name (PhaseSort objs)).
  { unfold phases. change (map pa_Name) with (fmap (M := list) pa_Name). rewrite fmap_imap.
    apply list_eq. intros i. by rewrite list_lookup_imap, list_lookup_fmap. }
  assert (Hlen20 : (length phases <= 20)%nat).
  { rewrite <- (length_map pa_Name phases), Hnames. etransitivity; [apply sublist_length, PhaseSort_names|]. cbn. lia. }
  assert (Hnd : NoDup (map pa_Name phases)).
  { rewrite Hnames. eapply sublist_NoDup; [|apply PhaseSort_names]. apply (bool_decide_unpack _). vm_compute. exact I. }
  assert (Hdl : match sa_ProgressDeadlineMinutes (ca_Spec rev) with Some n => deadline_admitted n | None => true end = true).
  { destruct (sa_ProgressDeadlineMinutes (ca_Spec rev)) as [k|] eqn:E; [by apply Hd|done]. }
  rewrite Hdl, default_probes_admitted, (proj2 (Z.leb_le 1 n)), (proj2 (Nat.leb_le _ _) Hlen20) by done.
  rewrite !bool_decide_eq_true_2 by (done || by left). change (length defaultProgressionProbes <=? 20)%nat with true.
  cbn [andb]. rewrite !andb_true_r, forallb_forall. split.
  - intros H ph Hph. apply list_elem_of_lookup_1 in Hph as [i Hi]. apply (packed_phase_admitted i ph Hi). apply H.
    apply list_elem_of_In, elem_of_lookup_imap. by exists i, ph.
  - intros H x Hx%list_elem_of_In. apply elem_of_lookup_imap in Hx as (i & ph & -> & Hi).
    apply packed_phase_admitted; [done|]. apply H. by eapply list_elem_of_lookup_2.
Qed.

End NewRevision.

Lemma next_revision_positive items :
  (forall x, x ∈ items -> 0 <= cos_Revision x < 2 ^ 63 - 1) -> 1 <= next_revision (sort_by revisions_cmp items).
Proof.
  intros Hb. unfold next_revision, latestRevisionNumber.
  destruct (last (sort_by revisions_cmp items)) as [y|] eqn:El; [|by vm_compute].
  assert (Hy : y ∈ items) by (apply last_elem_of in El; by rewrite elem_of_sort_by in El).
  specialize (Hb y Hy). rewrite int64_id by lia. lia.
Qed.

Section Runs.
Context `{UA : UnstructuredAPI} `{CO : Codec} (EmbeddedResource : Unstructured -> bool).
Context {FS : Type} (E : BoxEnv).
Context (gen : FS -> ClusterExtension -> gmap string string -> gmap string string -> result COSAC) `{IG : !InlineGenerator gen}.
Context (preflights : list Preflight) (ns : string).
Context (ext : ClusterExtension) (ol ra : gmap string string) (fs : FS).

(** C27. The new revision an apply sends for a valid extension satisfies every
    marker of the API types, those of its phases, references and probes
    included, exactly if no phase gets more than fifty objects: sorting the
    objects into phases never splits a phase. *)
Theorem new_revision_admitted h r t1 rev t2 items objs annotations cp :
  be_ListRevisions E h (ext_Name ext) = inr items ->
  (forall x, x ∈ items -> 0 <= cos_Revision x < 2 ^ 63 - 1) ->
  gen fs ext ol ra = inr (WithCollisionProtection cp (buildClusterObjectSet objs ext annotations)) ->
  cp ∈ collision_protections -> Forall generated_object objs ->
  no_collision (map snd (encodings (positions 0 (extractPhasesForPacking (PhaseSort objs))))) ->
  ext_deadline_admitted (es_ProgressDeadlineMinutes (ext_Spec ext)) = true ->
  digest_lengths -> slen (next_name ext (revisions_at E ext h)) <= 236 -> slen ns <= 63 ->
  Boxcutter_apply E gen preflights ns (Some fs) ext ol ra h = (r, h ++ t1 ++ EvApply rev :: t2) ->
  sa_Revision (ca_Spec rev) = Some (next_revision (revisions_at E ext h)) ->
  spec_admitted EmbeddedResource (ca_Spec rev) = true <-> forall p, (length (in_phase p objs) <= 50)%nat.
Proof.
  intros Hl Hb Hg Hcp Hobjs Hnc Hdl Hlen Hname Hns Hrun Hrev.
  assert (Hst : stage (next_revision (revisions_at E ext h)) (EvApply rev) = 6%nat) by (cbn; by rewrite decide_True).
  apply (run_created E gen preflights ns ext ol ra fs) in Hrun as (desired & pre & pa & pack & t1' & Hw & -> & _ & Hp & Hc); [|lia].
  destruct Hw as (generated & gvk & Hg' & _ & ->). rewrite Hg in Hg'. injection Hg' as <-.
  apply (creation_apply gen) in Hc as [-> ->].
  apply (replaced_spec_admitted EmbeddedResource (mkPacker (next_name ext (revisions_at E ext h)) (ext_Name ext) ns) objs pack Hlen Hname Hns Hobjs Hnc Hp); [reflexivity| | |].
  - eexists. split; [reflexivity|]. unfold revisions_at. rewrite Hl. by apply next_revision_positive.
  - cbn. intros n. destruct (Z.ltb_spec 0 (es_ProgressDeadlineMinutes (ext_Spec ext))) as [Hpos|]; [|done].
    intros [= <-]. unfold ext_deadline_admitted in Hdl. apply orb_true_iff in Hdl as [H%Z.eqb_eq|H]; [lia|done].
  - by exists cp.
Qed.

End Runs.

(** ** Witnesses *)

Module AdmissionSamples.

Definition digest (n : nat) (d : string) : string :=
  long_message n +:+ (if decide (d = "{sa}") then "a" else "b").

(** The codec of the packing samples, with digests of the real length. *)
#[local] Instance codec_digests : Codec := {|
  json_Marshal := @json_Marshal codec_sample;
  json_Unmarshal := @json_Unmarshal codec_sample;
  gzip_compress := @gzip_compress codec_sample;
  gzip_read := @gzip_read codec_sample;
  sha256_base64url := digest 42;
  sha256_hex8 := digest 15;
  representable := @representable codec_sample;
  unmarshal_marshal := @unmarshal_marshal codec_sample;
  marshal_plain := @marshal_plain codec_sample;
  gunzip_gzip := @gunzip_gzip codec_sample;
  gzip_magic := @gzip_magic codec_sample;
|}.

Lemma codec_digests_lengths : digest_lengths.
Proof. split; intros d; cbn; unfold digest; rewrite slen_app; by case_decide. Qed.

(** A bundle of [n] service accounts. *)
Definition accounts (n : nat) (_ : unit) (ext : ClusterExtension) (_ _ : gmap string string) : result COSAC :=
  inr (WithCollisionProtection CollisionProtectionPrevent (buildClusterObjectSet (replicate n sample_sa) ext ∅)).

Lemma accounts_inline n : InlineGenerator (accounts n).
Proof.
  intros fs ext ol ra rev [= <-]. unfold inline_only. change (ca_Phases _) with (PhaseSort (replicate n sample_sa)).
  apply Forall_forall. intros ph (p & _ & _ & ->)%PhaseSort_elem. apply Forall_forall. intros o Ho.
  cbn [sorted_phase pa_Objects] in Ho. rewrite elem_of_sort_by in Ho. apply list_elem_of_filter in Ho as [_ Ho].
  by apply elem_of_replicate in Ho as [-> _].
Qed.

(** A cluster without revisions that checks what it is asked to apply. *)
Definition admitting_env : BoxEnv :=
  let E := Samples.sample_env [] in {|
  be_ListRevisions := be_ListRevisions E;
  be_Apply _ rev := if spec_admitted (fun _ => true) (ca_Spec rev) then None else Some (EApi KInvalid "spec.phases is invalid");
  be_Create := be_Create E; be_Delete := be_Delete E; be_Get := be_Get E; be_ListSecrets := be_ListSecrets E;
  be_Patch := be_Patch E; be_StatusUpdate := be_StatusUpdate E; be_PreAuthorize := be_PreAuthorize E;
  be_PrintObj := be_PrintObj E; be_ActionClientFor := be_ActionClientFor E; be_HelmGet := be_HelmGet E;
  be_HelmHistory := be_HelmHistory E; be_ExtGVK := be_ExtGVK E;
|}.

Definition account_run (n : nat) : result unit * H :=
  Boxcutter_apply admitting_env (accounts n) [] "olmv1-system" (Some tt) Samples.the_ext ∅ ∅ [].

Definition sent (n : nat) : COSAC :=
  match (account_run n).2 !! 3%nat with Some ev => Samples.applied_rev ev | None => Samples.applied_rev EvActionClient end.

Lemma split2 :
  Boxcutter_apply admitting_env (accounts 2) [] "olmv1-system" (Some tt) Samples.the_ext ∅ ∅ [] =
  ((account_run 2).1, [] ++ take 3 (account_run 2).2 ++ EvApply (sent 2) :: drop 4 (account_run 2).2).
Proof. vm_compute. reflexivity. Qed.

Lemma account_collisions n : no_collision (map snd (encodings (positions 0 (extractPhasesForPacking (PhaseSort (replicate n sample_sa)))))).
Proof.
  intros a b Ha Hb _. assert (Hone : forall d, d ∈ map snd (encodings (positions 0 (extractPhasesForPacking (PhaseSort (replicate n sample_sa))))) -> d = "{sa}"); [|by rewrite (Hone a Ha), (Hone b Hb)].
  intros d Hd. apply list_elem_of_fmap in Hd as ([[i j] x] & -> & Hx). apply list_elem_of_omap in Hx as ([[i' j'] o] & Ho & Hx).
  apply positions_elem in Ho as (_ & ph & Hph & Ho). unfold extractPhasesForPacking in Hph. rewrite list_lookup_fmap in Hph.
  destruct (PhaseSort _ !! _) as [p|] eqn:Ep; [|done]. injection Hph as <-. cbn in Ho. rewrite list_lookup_fmap in Ho.
  destruct (pa_Objects p !! j') as [a0|] eqn:Ea; [|done]. injection Ho as <-.
  apply list_elem_of_lookup_2, PhaseSort_elem in Ep as (q & _ & _ & ->). apply list_elem_of_lookup_2 in Ea.
  cbn [sorted_phase pa_Objects] in Ea. rewrite elem_of_sort_by in Ea. apply list_elem_of_filter in Ea as [_ [-> _]%elem_of_replicate].
  revert Hx. vm_compute. by intros [= _ _ <-].
Qed.

Lemma accounts_generated n : Forall generated_object (replicate n sample_sa).
Proof. apply Forall_replicate. split; [done|]. split; [done|]. by eexists _, _. Qed.

Lemma new_revision_admitted_witness :
  spec_admitted (fun _ => true) (ca_Spec (sent 2)) = true <->
  forall p, (length (in_phase p [sample_sa; sample_sa]) <= 50)%nat.
Proof.
  apply (new_revision_admitted (fun _ => true) admitting_env (accounts 2) (IG := accounts_inline 2) [] "olmv1-system" Samples.the_ext ∅ ∅ tt
    [] (account_run 2).1 (take 3 (account_run 2).2) (sent 2) (drop 4 (account_run 2).2) [] [sample_sa; sample_sa] ∅ CollisionProtectionPrevent).
  - reflexivity.
  - intros x Hx. by apply not_elem_of_nil in Hx.
  - reflexivity.
  - by left.
  - apply (accounts_generated 2).
  - apply (account_collisions 2).
  - reflexivity.
  - apply codec_digests_lengths.
  - by vm_compute.
  - by vm_compute.
  - exact split2.
  - vm_compute. reflexivity.
Defined.

(** A bundle with fifty-one service accounts cannot be installed: the API
    server rejects its revision, and only after its Secret was created. *)
Lemma overfull_phase_rejected :
  (account_run 51).1 = inl (EWrap "creating new Revision: " (EApi KInvalid "spec.phases is invalid") "") /\
  exists s, EvCreate s ∈ (account_run 51).2.
Proof.
  split; [vm_compute; reflexivity|].
  assert (Hs : exists s, (account_run 51).2 !! 2%nat = Some (EvCreate s)) by (vm_compute; eauto).
  destruct Hs as [s Hs]. exists s. by eapply list_elem_of_lookup_2.
Qed.

End AdmissionSamples.
