(* ===== verification/CrdSafety.v ===== *)
(** * The CRD upgrade safety preflight

    src/internal/operator-controller/rukpak/preflights/crdupgradesafety/crdupgradesafety.go:
    the check of the CustomResourceDefinitions of a bundle against those on the
    cluster, the errors it reports, and the summary of crdify's diffs.

    The converter of Kubernetes objects, the client and crdify are the
    environment [CrdEnv]; what the client answers is that of one moment.  Of
    crdify's results only the fields the code reads are kept. *)

From Stdlib Require Import Ascii.
From S2P Require Import Prelude GoErrors ApiTypes Phase.

(** ** crdify's configuration and results *)

Record ValidationConfig := mkValidationConfig {
  vc_Name : string;
  vc_Enforcement : string;
  vc_Configuration : option (gmap string string);
}.
Record Config := mkConfig {
  cf_Conversion : string;
  cf_UnhandledEnforcement : string;
  cf_Validations : list ValidationConfig;
}.

(** config.ConversionPolicyIgnore, config.EnforcementPolicyError and None,
    property.AdditionPolicyAllow *)
Definition ConversionPolicyIgnore : string := "Ignore".
Definition EnforcementPolicyError : string := "Error".
Definition EnforcementPolicyNone : string := "None".
Definition AdditionPolicyAllow : string := "Allow".

Record ComparisonResult := mkComparison { rs_CheckName : string; rs_Errors : list string; rs_Warnings : list string }.
Record PropertyComparison := mkPropertyComparison { rs_Property : string; rs_Comparisons : list ComparisonResult }.
Record VersionComparison := mkVersionComparison { rs_Version : string; rs_Properties : list PropertyComparison }.
Record Results := mkResults {
  CRDValidation : list ComparisonResult;
  SameVersionValidation : list VersionComparison;
  ServedVersionValidation : list VersionComparison;
}.

(** func defaultConfig() *config.Config *)
Definition defaultConfig : Config :=
  mkConfig ConversionPolicyIgnore EnforcementPolicyError
    [mkValidationConfig "description" EnforcementPolicyNone None;
     mkValidationConfig "enum" EnforcementPolicyError (Some (<["additionPolicy" := AdditionPolicyAllow]> ∅))].

(** ** Strings

    The diffs contain non-breaking spaces, so that TrimSpace is that of Go on
    UTF-8: the Unicode spaces of two and of three bytes, besides the ASCII
    ones. *)
Definition bytes_are (l : list nat) (s : list ascii) : bool := bool_decide (map nat_of_ascii s = l).

(** U+0085 and U+00A0 *)
Definition space2 (a b : ascii) : bool := bytes_are [194; 133]%nat [a; b] || bytes_are [194; 160]%nat [a; b].

(** U+1680, U+2000 to U+200A, U+2028, U+2029, U+202F, U+205F, U+3000 *)
Definition space3 (a b c : ascii) : bool :=
  let n := nat_of_ascii c in
  bytes_are [225; 154; 128]%nat [a; b; c] ||
  bytes_are [226; 128]%nat [a; b] && ((128 <=? n)%nat && (n <=? 138)%nat || bool_decide (n ∈ [168; 169; 175]%nat)) ||
  bytes_are [226; 129; 159]%nat [a; b; c] || bytes_are [227; 128; 128]%nat [a; b; c].

Fixpoint utf8_trim_left (s : string) : string :=
  match s with
  | String a s1 =>
      if is_space a then utf8_trim_left s1
      else match s1 with
           | String b s2 =>
               if space2 a b then utf8_trim_left s2
               else match s2 with
                    | String c s3 => if space3 a b c then utf8_trim_left s3 else s
                    | EmptyString => s
                    end
           | EmptyString => s
           end
  | EmptyString => s
  end.

(** The same on the bytes in reverse. *)
Fixpoint utf8_trim_reversed (s : string) : string :=
  match s with
  | String c s1 =>
      if is_space c then utf8_trim_reversed s1
      else match s1 with
           | String b s2 =>
               if space2 b c then utf8_trim_reversed s2
               else match s2 with
                    | String a s3 => if space3 a b c then utf8_trim_reversed s3 else s
                    | EmptyString => s
                    end
           | EmptyString => s
           end
  | EmptyString => s
  end.

Fixpoint str_rev_app (s t : string) : string :=
  match s with
  | EmptyString => t
  | String c s => str_rev_app s (String c t)
  end.
Definition str_rev (s : string) : string := str_rev_app s EmptyString.

Definition utf8_TrimSpace (s : string) : string := str_rev (utf8_trim_reversed (str_rev (utf8_trim_left s))).

(** [strings.TrimPrefix], [strings.TrimSuffix] for one byte. *)
Definition trim_prefix_byte (c : ascii) (s : string) : string :=
  match s with String d s' => if decide (d = c) then s' else s | EmptyString => s end.
Fixpoint trim_suffix_byte (c : ascii) (s : string) : string :=
  match s with
  | EmptyString => EmptyString
  | String d EmptyString => if decide (d = c) then EmptyString else s
  | String d s' => String d (trim_suffix_byte c s')
  end.

(** [strings.SplitN(s, c, 2)]: cut at the first separator, if there is one. *)
Fixpoint split_first (c : ascii) (s : string) : option (string * string) :=
  match s with
  | EmptyString => None
  | String d s' =>
      if decide (d = c) then Some (EmptyString, s')
      else match split_first c s' with Some (a, b) => Some (String d a, b) | None => None end
  end.

(** [strings.ReplaceAll(s, p, EmptyString)] for a non-empty p; every step takes at least one
    byte, so that the length of the string is enough fuel. *)
Fixpoint remove_all_from (fuel : nat) (p s : string) : string :=
  match fuel, s with
  | S fuel, String c s' =>
      if strings_HasPrefix s p then remove_all_from fuel p (str_drop (String.length p) s)
      else String c (remove_all_from fuel p s')
  | _, _ => s
  end.
Definition remove_all_of (p s : string) : string := remove_all_from (String.length s) p s.

(** ** The summary of a diff *)

Definition tab_char : ascii := ascii_of_nat 9.
Definition nl_char : ascii := ascii_of_nat 10.
Definition comma_char : ascii := ascii_of_nat 44.
Definition colon_char : ascii := ascii_of_nat 58.
Definition minus_char : ascii := ascii_of_nat 45.
Definition plus_char : ascii := ascii_of_nat 43.
Definition two_quotes : string := String (ascii_of_nat 34) (String (ascii_of_nat 34) EmptyString).

(** func normalizeUnhandledValue(value string) string *)
Definition normalizeUnhandledValue (value : string) : string :=
  let value := trim_suffix_byte comma_char value in
  let value := utf8_TrimSpace value in
  if decide (value = EmptyString) then "<empty>"
  else if decide (value = two_quotes) then two_quotes
  else
    let value := remove_all_of "v1." value in
    if strings_Contains value "JSONSchemaProps" then "<complex value>" else value.

(** func parseUnhandledDiffValue(fragment string) (string, string, string) *)
Definition parseUnhandledDiffValue (fragment : string) : string * string * string :=
  let cleaned := utf8_TrimSpace fragment in
  let cleaned := trim_prefix_byte tab_char cleaned in
  let cleaned := utf8_TrimSpace cleaned in
  let cleaned := trim_suffix_byte comma_char cleaned in
  match split_first colon_char cleaned with
  | None => (EmptyString, EmptyString, EmptyString)
  | Some (part0, part1) =>
      let field := utf8_TrimSpace part0 in
      let rawValue := utf8_TrimSpace part1 in
      let value := normalizeUnhandledValue rawValue in
      if decide (field = EmptyString) then (EmptyString, EmptyString, EmptyString) else (field, value, rawValue)
  end.

(** type diffEntry struct *)
Record diffEntry := mkDiffEntry { de_before : string; de_after : string; de_beforeRaw : string; de_afterRaw : string }.
Definition no_diff : diffEntry := mkDiffEntry EmptyString EmptyString EmptyString EmptyString.

(** The variables of the loop: entries and order. *)
Definition diffState : Type := gmap string diffEntry * list string.

Definition record_before (value rawValue : string) (e : diffEntry) : diffEntry :=
  mkDiffEntry value (de_after e) rawValue (de_afterRaw e).
Definition record_after (value rawValue : string) (e : diffEntry) : diffEntry :=
  mkDiffEntry (de_before e) value (de_beforeRaw e) rawValue.

(** The first loop of extractUnhandledDetails. *)
Definition read_diff_line (st : diffState) (line : string) : diffState :=
  match utf8_TrimSpace line with
  | String sign (String _ _ as rest) =>
      if bool_decide (sign <> minus_char) && bool_decide (sign <> plus_char) then st
      else
        let '(field, value, rawValue) := parseUnhandledDiffValue rest in
        if decide (field = EmptyString) then st
        else
          let '(entries, order) := st in
          let order := match entries !! field with Some _ => order | None => order ++ [field] end in
          let entry := default no_diff (entries !! field) in
          let entry := if decide (sign = minus_char) then record_before value rawValue entry
                       else record_after value rawValue entry in
          (<[field := entry]> entries, order)
  | _ => st
  end.

(** The second loop: what is reported of a field. *)
Definition diff_detail (entries : gmap string diffEntry) (field : string) : option string :=
  let entry := default no_diff (entries !! field) in
  if bool_decide (de_before entry = EmptyString) && bool_decide (de_after entry = EmptyString) then None
  else if bool_decide (de_before entry = de_after entry) && bool_decide (de_beforeRaw entry = de_afterRaw entry) then None
  else
    let before := if decide (de_before entry = EmptyString) then "<empty>" else de_before entry in
    let after := if decide (de_after entry = EmptyString) then "<empty>" else de_after entry in
    let after := if bool_decide (de_before entry = de_after entry) && bool_decide (de_beforeRaw entry <> de_afterRaw entry)
                 then after +:+ " (changed)" else after in
    Some (field +:+ " " +:+ before +:+ " -> " +:+ after).

(** func extractUnhandledDetails(raw string) []string *)
Definition extractUnhandledDetails (raw : string) : list string :=
  let '(entries, order) := foldl read_diff_line (∅, []) (strings_Split nl_char raw) in
  omap (diff_detail entries) order.

Definition unhandledSummaryPrefix : string := "unhandled changes found".

(** func conciseUnhandledMessage(raw string) string *)
Definition conciseUnhandledMessage (raw : string) : string :=
  if negb (strings_Contains raw unhandledSummaryPrefix) then raw
  else
    match extractUnhandledDetails raw with
    | [] => unhandledSummaryPrefix
    | details => unhandledSummaryPrefix +:+ " (" +:+ strings_Join details "; " +:+ ")"
    end.

(** ** The errors of crdify's results *)

(** func crdWideErrors(results *runner.Results) []error *)
Definition crdWideErrors (results : option Results) : list error :=
  match results with
  | None => []
  | Some results =>
      flat_map (fun result => map (fun err => ENew (rs_CheckName result +:+ ": " +:+ err)) (rs_Errors result))
        (CRDValidation results)
  end.

(** The nested loops of sameVersionErrors and servedVersionErrors. *)
Definition version_errors (versions : list VersionComparison) : list error :=
  flat_map (fun versionResult =>
    flat_map (fun propertyResult =>
      flat_map (fun result =>
        map (fun err =>
          let msg := if decide (rs_CheckName result = "unhandled") then conciseUnhandledMessage err else err in
          ENew (rs_Version versionResult +:+ ": " +:+ rs_Property propertyResult +:+ ": " +:+
                rs_CheckName result +:+ ": " +:+ msg))
          (rs_Errors result))
        (rs_Comparisons propertyResult))
      (rs_Properties versionResult))
    versions.

(** func sameVersionErrors, func servedVersionErrors *)
Definition sameVersionErrors (results : option Results) : list error :=
  match results with None => [] | Some results => version_errors (SameVersionValidation results) end.
Definition servedVersionErrors (results : option Results) : list error :=
  match results with None => [] | Some results => version_errors (ServedVersionValidation results) end.

(** ** The preflight *)

Record CrdEnv {CRD Runner : Type} := mkCrdEnv {
  (* runner.New of the configuration and the default registry *)
  ce_NewRunner : Config -> result Runner;
  ce_Run : Runner -> CRD -> CRD -> option Results;
  ce_HasFailures : option Results -> bool;
  (* runtime.DefaultUnstructuredConverter *)
  ce_ToUnstructured : Unstructured -> result (gmap string json);
  ce_FromUnstructured : gmap string json -> result CRD;
  ce_Name : CRD -> string;
  (* crdClient.Get *)
  ce_Get : string -> result CRD;
}.
Arguments CrdEnv : clear implicits.

(** What crdify documents: results with an error have failures. *)
Class CrdifyLaws {CRD Runner} (E : CrdEnv CRD Runner) : Prop := {
  has_failures : forall r, crdWideErrors r ++ sameVersionErrors r ++ servedVersionErrors r <> [] -> ce_HasFailures E r = true;
}.

Definition crd_gvk : GroupVersionKind := mkGVK "apiextensions.k8s.io" "v1" "CustomResourceDefinition".

Section Preflight.
Context `{UA : UnstructuredAPI} {CRD Runner : Type} (E : CrdEnv CRD Runner) (config : Config).

(** What the loop does with one object: an error that ends it, or the error
    that is collected, if any. *)
Definition check_object (runner : Runner) (obj : Unstructured) : result (option error) :=
  if decide (u_GVK obj <> crd_gvk) then inr None
  else
    match ce_ToUnstructured E obj with
    | inl err => inl (EWrap ("converting object " +:+ fmt_q (u_GetName obj) +:+ " to unstructured: ") err "")
    | inr uMap =>
        match ce_FromUnstructured E uMap with
        | inl err => inl (EWrap "converting unstructured to CRD object: " err "")
        | inr newCrd =>
            match ce_Get E (ce_Name E newCrd) with
            | inl err =>
                if has_kind KNotFound err then inr None
                else inl (EWrap ("getting existing resource for CRD " +:+ fmt_q (ce_Name E newCrd) +:+ ": ") err "")
            | inr oldCrd =>
                let results := ce_Run E runner oldCrd newCrd in
                if ce_HasFailures E results then
                  let resultErrs := crdWideErrors results ++ sameVersionErrors results ++ servedVersionErrors results in
                  match errors_Join (map Some resultErrs) with
                  | None => inr None
                  | Some joined =>
                      inr (Some (EWrap ("validating upgrade for CRD " +:+ fmt_q (ce_Name E newCrd) +:+ ": ") joined ""))
                  end
                else inr None
            end
        end
    end.

Fixpoint check_objects (runner : Runner) (objs : list Unstructured) : result (list error) :=
  match objs with
  | [] => inr []
  | obj :: rest =>
      match check_object runner obj with
      | inl err => inl err
      | inr e =>
          match check_objects runner rest with
          | inl err => inl err
          | inr errs => inr (match e with Some e => e :: errs | None => errs end)
          end
      end
  end.

(** func (p *Preflight) runPreflight(ctx, relObjects) error *)
Definition runPreflight (relObjects : list Unstructured) : option error :=
  match relObjects with
  | [] => None
  | _ =>
      match ce_NewRunner E config with
      | inl err => Some (EWrap "creating CRD validation runner: " err "")
      | inr runner =>
          match check_objects runner relObjects with
          | inl err => Some err
          | inr validateErrors => errors_Join (map Some validateErrors)
          end
      end
  end.

(** func (p *Preflight) Install, func (p *Preflight) Upgrade *)
Definition CrdSafety_Install (objs : list Unstructured) : option error := runPreflight objs.
Definition CrdSafety_Upgrade (objs : list Unstructured) : option error := runPreflight objs.

End Preflight.
