(* ===== verification/CrdSafetyProps.v ===== *)
(** * Properties of the CRD upgrade safety preflight

    The preflight passes exactly for safe objects; nothing of a new revision
    is created before it has passed; and the summary of a diff reports every
    change of a field. *)

From Stdlib Require Import Ascii.
From S2P Require Import Prelude GoErrors ApiTypes Phase ExtSteps SecretPacker Instances ObjectInstances PackProps RevisionGen BoxApply BoxLogic BoxProps CrdSafety.

(** ** The preflight *)

Lemma joined_nothing es : errors_Join (map Some es) = None <-> es = [].
Proof. unfold errors_Join. rewrite omap_id_Some. by destruct es. Qed.

(** More fuel than bytes does not change what strings.ReplaceAll leaves. *)
Lemma remove_all_from_enough p : p <> EmptyString -> forall n m s,
  (String.length s <= n)%nat -> (String.length s <= m)%nat -> remove_all_from n p s = remove_all_from m p s.
Proof.
  intros Hp n. induction n as [|n IH]; intros m s Hn Hm.
  - destruct s; [|cbn in Hn; lia]. by destruct m.
  - destruct s as [|c s]; [by destruct m|]. destruct m as [|m]; [cbn in Hm; lia|]. cbn in Hn, Hm.
    cbn [remove_all_from]. destruct (strings_HasPrefix (String c s) p); [|f_equal; apply IH; lia].
    assert (Hd : (String.length (str_drop (String.length p) (String c s)) <= String.length s)%nat).
    { destruct p as [|d p]; [done|]. cbn [String.length str_drop]. apply str_drop_length. }
    apply IH; lia.
Qed.

Section Safe.
Context `{UA : UnstructuredAPI} {CRD Runner : Type} (E : CrdEnv CRD Runner).

(** Nothing can break: not a CRD, a new one, or one that crdify finds no error
    in. *)
Definition safe_object (runner : Runner) (obj : Unstructured) : Prop :=
  u_GVK obj = crd_gvk ->
  exists uMap newCrd, ce_ToUnstructured E obj = inr uMap /\ ce_FromUnstructured E uMap = inr newCrd /\
    match ce_Get E (ce_Name E newCrd) with
    | inl err => has_kind KNotFound err = true
    | inr oldCrd =>
        let results := ce_Run E runner oldCrd newCrd in
        crdWideErrors results = [] /\ sameVersionErrors results = [] /\ servedVersionErrors results = []
    end.

Lemma check_object_safe `{!CrdifyLaws E} runner obj : check_object E runner obj = inr None <-> safe_object runner obj.
Proof.
  unfold check_object, safe_object. destruct (decide (u_GVK obj <> crd_gvk)) as [Hn|Hk]; [tauto|].
  apply dec_stable in Hk. rewrite Hk.
  destruct (ce_ToUnstructured E obj) as [err|uMap]; [split; [done|]; by intros (? & ? & [=] & _)|].
  destruct (ce_FromUnstructured E uMap) as [err|newCrd] eqn:Ef; [split; [done|]; intros (m & ? & [= <-] & Hf & _); congruence|].
  transitivity (match ce_Get E (ce_Name E newCrd) with
    | inl err => has_kind KNotFound err = true
    | inr oldCrd =>
        let results := ce_Run E runner oldCrd newCrd in
        crdWideErrors results = [] /\ sameVersionErrors results = [] /\ servedVersionErrors results = []
    end).
  - destruct (ce_Get E (ce_Name E newCrd)) as [err|oldCrd]; [by destruct (has_kind KNotFound err)|]. cbv zeta.
    set (r := ce_Run E runner oldCrd newCrd). pose proof (has_failures r) as Hfail.
    destruct (ce_HasFailures E r).
    + destruct (errors_Join _) as [e|] eqn:Ej.
      * split; [done|]. intros (H1 & H2 & H3). by rewrite H1, H2, H3 in Ej.
      * apply joined_nothing in Ej. split; [|done]. intros _. apply app_nil in Ej as [-> Ej]. by apply app_nil in Ej as [-> ->].
    + split; [|done]. intros _.
      destruct (decide (crdWideErrors r ++ sameVersionErrors r ++ servedVersionErrors r = [])) as [Ej|Hne]; [|by specialize (Hfail Hne)].
      apply app_nil in Ej as [-> Ej]. by apply app_nil in Ej as [-> ->].
  - split; [by intros H; exists uMap, newCrd|]. intros H. destruct (H eq_refl) as (m & c & [= <-] & Hf & Hg).
    rewrite Ef in Hf. by injection Hf as <-.
Qed.

Lemma check_objects_safe `{!CrdifyLaws E} runner objs :
  check_objects E runner objs = inr [] <-> Forall (safe_object runner) objs.
Proof.
  induction objs as [|obj objs IH]; [by split|]. cbn [check_objects]. rewrite Forall_cons, <- IH, <- check_object_safe.
  destruct (check_object E runner obj) as [err|[e|]].
  - split; [done|]. by intros [[=] _].
  - split; [|by intros [[=] _]]. by destruct (check_objects E runner objs).
  - destruct (check_objects E runner objs) as [err|errs]; [split; [done|]; by intros [_ [=]]|]. split; [by intros [= ->]|]. by intros [_ [= ->]].
Qed.

(** C32. The preflight passes exactly if there is nothing to check or if every
    CustomResourceDefinition among the objects either does not exist on the
    cluster yet or is changed in a way in which crdify finds no error; what is
    no CustomResourceDefinition does not matter, and an object that cannot be
    read or looked up makes it fail. *)
Theorem preflight_exact `{!CrdifyLaws E} config objs :
  runPreflight E config objs = None <->
  objs = [] \/ exists runner, ce_NewRunner E config = inr runner /\ Forall (safe_object runner) objs.
Proof.
  unfold runPreflight. destruct objs as [|obj objs]; [tauto|].
  destruct (ce_NewRunner E config) as [err|runner]; [split; [done|]; by intros [?|(? & [=] & _)]|].
  transitivity (check_objects E runner (obj :: objs) = inr []).
  - destruct (check_objects E runner (obj :: objs)) as [err|errs]; [done|]. rewrite joined_nothing. split; [by intros ->|by intros [= ->]].
  - rewrite check_objects_safe. split; [by right; exists runner|]. intros [?|(r & [= <-] & H)]; [done|exact H].
Qed.

End Safe.

(** ** The preflight in an apply *)

Section Passed.
Context (pf : Preflight) (ext : ClusterExtension).

(** The preflight was asked and passed at some point of a run. *)
Definition passed_in (objs : list Unstructured) (h t : H) : Prop :=
  exists t0, t0 `prefix_of` t /\ (pf_Install pf (h ++ t0) objs = None \/ pf_Upgrade pf (h ++ t0) objs = None).

Lemma passed_later objs h t t' : passed_in objs h t -> passed_in objs h (t ++ t').
Proof. intros (t0 & Ht & H). exists t0. split; [by apply prefix_app_r|done]. Qed.

Lemma passed_after objs h t t' : passed_in objs (h ++ t) t' -> passed_in objs h (t ++ t').
Proof. intros (t0 & Ht & H). exists (t ++ t0). split; [by apply prefix_app|]. by rewrite app_assoc. Qed.

Lemma preflights_passed state objs preflights h :
  shouldSkipPreflight (pf_isCRDUpgradeSafety pf) ext = false -> state = StateNeedsInstall \/ state = StateNeedsUpgrade ->
  wp h (run_preflights ext state objs preflights)
    (fun r t => Forall preflight_call t /\ (pf ∈ preflights -> r = inr tt -> passed_in objs h t)).
Proof.
  intros Hskip Hst. revert h. induction preflights as [|pf' rest IH]; intros h; cbn [run_preflights].
  { apply wp_ret. split; [constructor|]. by intros ?%not_elem_of_nil. }
  assert (Hgo : forall ev (answer : option error), preflight_call ev ->
    (pf = pf' -> answer = None -> pf_Install pf h objs = None \/ pf_Upgrade pf h objs = None) ->
    wp h (io_try (check id (ask ev (fun _ => answer))) (fun _ => run_preflights ext state objs rest))
      (fun r t => Forall preflight_call t /\ (pf ∈ pf' :: rest -> r = inr tt -> passed_in objs h t))).
  { intros ev answer Hev Hpass. apply wp_try, wp_check, wp_ask. destruct answer as [e|]; [split; [by repeat constructor|done]|].
    eapply wp_weaken; [apply IH|]. intros r t [Ht Hp]. split; [by constructor|]. intros Hin Hr.
    apply elem_of_cons in Hin as [Heq|Hin]; [|apply (passed_after _ _ [ev]); auto].
    exists []. split; [apply prefix_nil|]. rewrite app_nil_r. auto. }
  destruct (shouldSkipPreflight (pf_isCRDUpgradeSafety pf') ext) eqn:Es.
  - apply wp_try, wp_ret. rewrite app_nil_r. eapply wp_weaken; [apply IH|]. intros r t [Ht Hp]. split; [done|].
    intros [->|Hin]%elem_of_cons; [congruence|auto].
  - destruct Hst as [->| ->]; (apply Hgo; [done|]; intros ->; auto).
Qed.

End Passed.

Section InApply.
Context `{CO : Codec} {FS : Type} (E : BoxEnv).
Context (gen : FS -> ClusterExtension -> gmap string string -> gmap string string -> result COSAC) `{IG : !InlineGenerator gen}.
Context (preflights : list Preflight) (ns : string) (ext : ClusterExtension) (ol ra : gmap string string) (fs : FS).
Context (pf : Preflight) (Hpf : pf ∈ preflights) (Hskip : shouldSkipPreflight (pf_isCRDUpgradeSafety pf) ext = false).

(** What precedes the creation of a new revision in a run. *)
Definition created_after_passing (existing : list ClusterObjectSet) (objs : list Unstructured) (h t : H) : Prop :=
  forall t1 ev t2, t = t1 ++ ev :: t2 -> (5 <= stage (next_revision existing) ev <= 6)%nat -> passed_in pf objs h t1.

Lemma early_nothing existing objs h t :
  Forall (fun ev => (stage (next_revision existing) ev < 5)%nat) t -> created_after_passing existing objs h t.
Proof.
  intros Hf t1 ev t2 -> [Hev _]. apply Forall_app in Hf as [_ Hf]. apply Forall_cons in Hf as [Hf _]. lia.
Qed.

Lemma creation_passed existing state desired objs h :
  state = StateNeedsInstall \/ state = StateNeedsUpgrade ->
  wp h (io_try (run_preflights ext state objs preflights) (fun _ => createExternalizedRevision E ns ext desired existing))
    (fun r t => created_after_passing existing objs h t).
Proof.
  intros Hst. apply wp_try. eapply wp_weaken; [by apply (preflights_passed pf ext)|]. intros r pre [Hpre Hpass].
  assert (Hlow : Forall (fun ev => (stage (next_revision existing) ev < 5)%nat) pre).
  { eapply Forall_impl; [by apply (preflight_stage existing)|]. cbn. lia. }
  destruct r as [e|[]]; [by apply early_nothing|]. eapply wp_weaken; [apply create_shape|]. intros r tail _ t1 ev t2 Ht [Hev _].
  destruct (staged_split _ _ _ _ _ _ 5 Ht Hlow Hev) as (t1' & -> & _). by apply passed_later, Hpass.
Qed.

Lemma apply_content_passed existing generated gvk h :
  gen fs ext ol ra = inr generated -> be_ExtGVK E = inr gvk ->
  wp h (apply_content E gen preflights ns fs ext ol ra existing)
    (fun r t => created_after_passing existing (getObjects generated) h t).
Proof.
  intros Hg Hk. assert (Hin : inline_only generated) by (by eapply IG). unfold apply_content. rewrite Hg, Hk. set (d := WithOwnerReferences _ generated).
  destruct (last existing) as [cur|] eqn:El.
  - unfold compare_with_current. fold (as_current cur d). apply wp_try.
    destruct (Pack _ _) as [err|pack]; [by apply wp_ret, early_nothing|].
    rewrite restore_replace by done. set (ac := replaceInlineWithRefs (as_current cur d) pack).
    assert (Hac : Forall (fun ev => (stage (next_revision existing) ev < 5)%nat) [EvApply ac]).
    { constructor; [|constructor]. unfold ac. rewrite (compare_stage existing) by done. lia. }
    apply wp_bind, wp_ask, wp_ret. destruct (be_Apply E h ac) as [e|].
    + destruct (has_kind KInvalid e); [|by apply early_nothing].
      rewrite decide_False by done. eapply wp_weaken; [apply creation_passed; by right|].
      intros r t Ht t1 ev t2 Heq Hev. rewrite app_nil_r in *.
      destruct (staged_split _ _ _ _ _ _ 5 Heq Hac (proj1 Hev)) as (t1' & -> & Heq').
      apply passed_after. by eapply Ht.
    + apply wp_try. eapply wp_weaken; [apply preflights_shape|]. intros r pre [_ Hu]. destruct (Hu eq_refl) as [-> ->].
      rewrite decide_True by done. rewrite app_nil_r.
      assert (Hown : forall own, Forall ownership own -> created_after_passing existing (getObjects generated) h (EvApply ac :: own)).
      { intros own Ho t1 ev t2 Heq Hev. exfalso. assert (Hev' : ev ∈ EvApply ac :: own) by (rewrite Heq; set_solver).
        apply elem_of_cons in Hev' as [->|Hev']; [apply Forall_cons in Hac as [Hac _]; lia|].
        apply (ownership_stage existing) in Ho. rewrite Forall_forall in Ho. specialize (Ho ev Hev'). lia. }
      destruct (decide (cos_Name cur = EmptyString)); [by apply wp_ret, Hown|].
      apply wp_context. eapply wp_weaken; [apply ensure_shape|]. intros r t Ht%ensured_ownership. cbn [app]. destruct r as [e|[]]; by apply Hown.
  - apply wp_try, wp_ret. rewrite app_nil_r. rewrite decide_False by done. apply creation_passed. by left.
Qed.

(** Nothing of a new revision is created before the preflight has passed. *)
Lemma run_passed h r t1 ev t2 :
  Boxcutter_apply E gen preflights ns (Some fs) ext ol ra h = (r, h ++ t1 ++ ev :: t2) ->
  (5 <= stage (next_revision (revisions_at E ext h)) ev <= 6)%nat ->
  exists generated, gen fs ext ol ra = inr generated /\ passed_in pf (getObjects generated) h t1.
Proof.
  intros Hrun Hev. pose proof Hrun as Hw. apply (run_created E gen preflights ns ext ol ra fs) in Hw as (d & _ & _ & _ & _ & Hw & _); [|done].
  destruct Hw as (generated & gvk & Hg & Hk & _). exists generated. split; [done|].
  unfold Boxcutter_apply, getExistingRevisions in Hrun.
  eapply (wp_run _ (fun _ t => created_after_passing (revisions_at E ext h) (getObjects generated) h t)) in Hrun as (t & Ht & Hc).
  - apply app_inv_head in Ht as <-. by eapply Hc.
  - apply wp_try, wp_bind, wp_ask. unfold revisions_at.
    assert (Hl : forall ex, Forall (fun ev => (stage (next_revision ex) ev < 5)%nat) [EvListRevisions (ext_Name ext)]).
    { intros ex. constructor; [cbn; lia|constructor]. }
    destruct (be_ListRevisions E h (ext_Name ext)) as [e|items]; apply wp_ret; rewrite app_nil_r; [by apply early_nothing|].
    eapply wp_weaken; [by apply (apply_content_passed _ generated gvk)|]. intros r' t' Hc t1' ev' t2' Heq Hev'.
    destruct (staged_split _ _ _ _ _ _ 5 Heq (Hl _) (proj1 Hev')) as (t3 & -> & Heq'). apply passed_after. by eapply Hc.
Qed.

End InApply.

(** The CRD upgrade safety check as a preflight of the applier; what the
    cluster answers it may change from call to call. *)
Definition crd_preflight `{UnstructuredAPI} {CRD Runner} (at_ : H -> CrdEnv CRD Runner) : Preflight :=
  mkPreflightCheck true (fun h => CrdSafety_Install (at_ h) defaultConfig) (fun h => CrdSafety_Upgrade (at_ h) defaultConfig).

(** C11. While the CRD upgrade safety check is not switched off for an
    extension, an apply creates the Secrets and the set of a new revision only
    after a point at which every CustomResourceDefinition of the bundle was new
    or changed without an error, so that an unsafe upgrade leaves no trace. *)
Theorem unsafe_upgrade_blocked `{UA : UnstructuredAPI} `{CO : Codec} {FS CRD Runner : Type} (E : BoxEnv)
    (gen : FS -> ClusterExtension -> gmap string string -> gmap string string -> result COSAC) `{IG : !InlineGenerator gen}
    (at_ : H -> CrdEnv CRD Runner) `{HL : !forall h, CrdifyLaws (at_ h)} preflights ns ext ol ra fs h r t1 ev t2 :
  crd_preflight at_ ∈ preflights -> shouldSkipPreflight true ext = false ->
  Boxcutter_apply E gen preflights ns (Some fs) ext ol ra h = (r, h ++ t1 ++ ev :: t2) ->
  (5 <= stage (next_revision (revisions_at E ext h)) ev <= 6)%nat ->
  exists generated t0, gen fs ext ol ra = inr generated /\ t0 `prefix_of` t1 /\
    (getObjects generated = [] \/
     exists runner, ce_NewRunner (at_ (h ++ t0)) defaultConfig = inr runner /\
       Forall (safe_object (at_ (h ++ t0)) runner) (getObjects generated)).
Proof.
  intros Hpf Hskip Hrun Hev. destruct (run_passed E gen preflights ns ext ol ra fs (crd_preflight at_) Hpf Hskip h r t1 ev t2 Hrun Hev)
    as (generated & Hg & t0 & Ht0 & Hp).
  exists generated, t0. split; [done|]. split; [done|]. by apply preflight_exact; destruct Hp.
Qed.

(** ** Trimming *)

Definition graph (c : ascii) : bool := (33 <=? nat_of_ascii c)%nat && (nat_of_ascii c <=? 126)%nat.

Definition first_char (s : string) : option ascii := match s with String c _ => Some c | EmptyString => None end.
Fixpoint last_char (s : string) : option ascii :=
  match s with EmptyString => None | String c EmptyString => Some c | String _ s' => last_char s' end.

(** A text that begins and ends with a visible ASCII character. *)
Definition solid (s : string) : bool :=
  match first_char s, last_char s with Some c, Some d => graph c && graph d | _, _ => false end.

Lemma graph_bound c : graph c = true -> (33 <= nat_of_ascii c <= 126)%nat.
Proof. unfold graph. rewrite andb_true_iff, !Nat.leb_le. done. Qed.

Lemma graph_no_space c : graph c = true -> is_space c = false.
Proof.
  intros H%graph_bound. unfold is_space. destruct (nat_of_ascii c) as [|n]; [done|].
  do 32 (destruct n as [|n]; [lia|]). done.
Qed.

Lemma bytes_are_length l s : bytes_are l s = true -> l = map nat_of_ascii s.
Proof. unfold bytes_are. by intros <-%bool_decide_eq_true. Qed.

Lemma graph_space2_l a b : graph a = true -> space2 a b = false.
Proof.
  intros H%graph_bound. apply not_true_is_false. unfold space2. rewrite orb_true_iff.
  intros [E%bytes_are_length|E%bytes_are_length]; injection E as E1 E2; lia.
Qed.

Lemma graph_space2_r b c : graph c = true -> space2 b c = false.
Proof.
  intros H%graph_bound. apply not_true_is_false. unfold space2. rewrite orb_true_iff.
  intros [E%bytes_are_length|E%bytes_are_length]; injection E as E1 E2; lia.
Qed.

Lemma graph_space3 a b c : graph a = true \/ graph c = true -> space3 a b c = false.
Proof.
  intros H. assert (Hb : ((nat_of_ascii a <= 126)%nat \/ (nat_of_ascii c <= 126)%nat)) by (destruct H as [H%graph_bound|H%graph_bound]; lia).
  apply not_true_is_false. unfold space3. rewrite !orb_true_iff, !andb_true_iff, orb_true_iff, andb_true_iff, !Nat.leb_le.
  intros [[[E%bytes_are_length|[E%bytes_are_length H3]]|E%bytes_are_length]|E%bytes_are_length]; try (injection E as E1 E2 E3; lia).
  injection E as E1 E2. destruct H3 as [?|H3%bool_decide_eq_true]; [lia|].
  rewrite !elem_of_cons in H3. destruct H3 as [?|[?|[?|[]%not_elem_of_nil]]]; lia.
Qed.

Lemma str_rev_app_app s t u : str_rev_app (s +:+ t) u = str_rev_app t (str_rev_app s u).
Proof. revert u. induction s as [|c s IH]; intros u; [done|]. apply IH. Qed.

Lemma str_rev_app_acc s t : str_rev_app s t = str_rev s +:+ t.
Proof.
  unfold str_rev. assert (H : forall t u, str_rev_app s (t +:+ u) = str_rev_app s t +:+ u); [|apply (H "")].
  induction s as [|c s IH]; intros t' u; [done|]. apply (IH (String c t')).
Qed.

Lemma str_rev_snoc s c : str_rev (s +:+ String c "") = String c (str_rev s).
Proof. unfold str_rev. by rewrite str_rev_app_app. Qed.

Lemma str_rev_involutive s : str_rev (str_rev s) = s.
Proof.
  induction s as [|c s IH]; [done|]. change (str_rev (String c s)) with (str_rev_app s (String c "")).
  by rewrite str_rev_app_acc, str_rev_snoc, IH.
Qed.

Lemma last_char_split s d : last_char s = Some d -> exists s', s = s' +:+ String d "".
Proof.
  induction s as [|c s IH]; [done|]. destruct s as [|c' s']; [intros [= ->]; by exists ""|].
  intros H. destruct (IH H) as [t ->]. by exists (String c t).
Qed.

Lemma last_char_app s t : last_char t <> None -> last_char (s +:+ t) = last_char t.
Proof.
  intros H. induction s as [|c s IH]; [done|]. change (String c s +:+ t) with (String c (s +:+ t)).
  destruct (s +:+ t) as [|c' s'] eqn:E; [by rewrite <- IH in H|]. done.
Qed.

Lemma trim_left_solid s : solid s = true -> utf8_trim_left s = s.
Proof.
  unfold solid. destruct s as [|a s]; [done|]. cbn [first_char]. destruct (last_char _); [|done].
  intros [Ha _]%andb_true_iff. cbn [utf8_trim_left]. rewrite graph_no_space by done.
  destruct s as [|b s]; [done|]. rewrite graph_space2_l by done. destruct s as [|c s]; [done|]. by rewrite graph_space3 by auto.
Qed.

Lemma trim_right_solid s : solid s = true -> str_rev (utf8_trim_reversed (str_rev s)) = s.
Proof.
  unfold solid. destruct (first_char s); [|done]. destruct (last_char s) as [d|] eqn:El; [|done].
  intros [_ Hd]%andb_true_iff. apply last_char_split in El as [s' ->]. rewrite str_rev_snoc.
  transitivity (str_rev (String d (str_rev s'))); [|by rewrite <- str_rev_snoc, str_rev_involutive].
  f_equal. cbn [utf8_trim_reversed]. rewrite graph_no_space by done. destruct (str_rev s') as [|b s]; [done|].
  rewrite graph_space2_r by done. destruct s as [|c s]; [done|]. by rewrite graph_space3 by auto.
Qed.

(** Text that TrimSpace removes from the front. *)
Definition blank (ws : string) : Prop := forall x, utf8_trim_left (ws +:+ x) = utf8_trim_left x.

Lemma TrimSpace_solid ws s : blank ws -> solid s = true -> utf8_TrimSpace (ws +:+ s) = s.
Proof. intros Hw Hs. unfold utf8_TrimSpace. by rewrite Hw, trim_left_solid, trim_right_solid. Qed.

Lemma blank_nil : blank "".
Proof. by intros x. Qed.

Lemma solid_TrimSpace s : solid s = true -> utf8_TrimSpace s = s.
Proof. apply (TrimSpace_solid "" s blank_nil). Qed.

(** ** Lines of a diff *)

(** What the summary shows of a value. *)
Definition shown (v : string) : string :=
  let v := remove_all_of "v1." v in
  if strings_Contains v "JSONSchemaProps" then "<complex value>" else v.

Definition value_ok (v : string) : Prop := solid v = true /\ last_char v <> Some comma_char /\ shown v <> EmptyString.
Definition field_ok (f : string) : Prop := solid f = true /\ str_has colon_char f = false.

Lemma trim_suffix_comma s : trim_suffix_byte comma_char (s +:+ String comma_char "") = s.
Proof.
  induction s as [|c s IH]; [done|]. change (String c s +:+ String comma_char "") with (String c (s +:+ String comma_char "")).
  destruct (s +:+ String comma_char "") as [|c' s'] eqn:E; [by destruct s|]. cbn. f_equal. exact IH.
Qed.

Lemma trim_suffix_other s : last_char s <> Some comma_char -> trim_suffix_byte comma_char s = s.
Proof.
  induction s as [|c s IH]; [done|]. destruct s as [|c' s']; intros H.
  - change (trim_suffix_byte comma_char (String c "")) with (if decide (c = comma_char) then EmptyString else String c "").
    rewrite decide_False; [done|]. intros ->. by apply H.
  - change (String c (trim_suffix_byte comma_char (String c' s')) = String c (String c' s')). f_equal. by apply IH.
Qed.

Lemma split_first_app c s t : str_has c s = false -> split_first c (s +:+ String c t) = Some (s, t).
Proof.
  induction s as [|d s IH]; intros H.
  - change (split_first c ("" +:+ String c t)) with (if decide (c = c) then Some ("", t)
      else match split_first c t with Some (a, b) => Some (String c a, b) | None => None end). by rewrite decide_True.
  - cbn [str_has] in H. apply orb_false_iff in H as [Hd%bool_decide_eq_false Hs].
    change (String d s +:+ String c t) with (String d (s +:+ String c t)). 
    change (split_first c (String d (s +:+ String c t))) with (if decide (d = c) then Some ("", s +:+ String c t)
      else match split_first c (s +:+ String c t) with Some (a, b) => Some (String d a, b) | None => None end).
    rewrite decide_False by done. by rewrite IH.
Qed.

Lemma solid_app s m t : solid s = true -> solid t = true -> solid (s +:+ m +:+ t) = true.
Proof.
  unfold solid. intros Hs Ht. destruct s as [|c s]; [done|]. cbn [first_char] in *.
  destruct (first_char t); [|done]. destruct (last_char t) as [d|] eqn:El; [|done].
  change (String c s +:+ m +:+ t) with (String c (s +:+ m +:+ t)). cbn [first_char].
  change (String c (s +:+ m +:+ t)) with (String c s +:+ m +:+ t).
  rewrite str_app_assoc, last_char_app, El by congruence. destruct (last_char (String c s)); [|done].
  apply andb_true_iff in Hs as [-> _]. by apply andb_true_iff in Ht as [_ ->].
Qed.

Lemma normalize_shown v : value_ok v -> normalizeUnhandledValue v = shown v.
Proof.
  intros (Hs & Hc & Hn). unfold normalizeUnhandledValue. rewrite trim_suffix_other, solid_TrimSpace by done.
  destruct (decide (v = EmptyString)) as [->|_]; [done|]. by destruct (decide (v = two_quotes)) as [->|_].
Qed.

(** The tail of a line may be a comma. *)
Definition diff_text (ind field sp value tail_ : string) : string :=
  ind +:+ field +:+ String colon_char (sp +:+ value +:+ tail_).

Lemma parse_text ind field sp value tail_ :
  blank ind -> blank sp -> field_ok field -> value_ok value -> tail_ = "" \/ tail_ = "," ->
  parseUnhandledDiffValue (diff_text ind field sp value tail_) = (field, shown value, value).
Proof.
  intros Hi Hs [Hf Hc] Hv Ht. pose proof Hv as (Hsv & Hl & _). set (y := field +:+ String colon_char (sp +:+ value)).
  assert (Ey : y = field +:+ String colon_char sp +:+ value) by done.
  assert (Hy : solid y = true) by (rewrite Ey; by apply solid_app).
  assert (Hly : last_char y <> Some comma_char).
  { rewrite Ey, str_app_assoc, last_char_app; [done|]. unfold solid in Hsv. destruct (first_char value), (last_char value); done. }
  set (x := field +:+ String colon_char (sp +:+ value +:+ tail_)).
  assert (Hx : solid x = true /\ trim_suffix_byte comma_char x = y).
  { unfold x. destruct Ht as [-> | ->].
    - rewrite str_app_nil. split; [done|]. by apply trim_suffix_other.
    - assert (Ex : field +:+ String colon_char (sp +:+ value +:+ ",") = y +:+ String comma_char "").
      { rewrite Ey. rewrite <- !str_app_assoc. done. }
      rewrite Ex. split; [|apply trim_suffix_comma]. apply (solid_app y "" ","); done. }
  destruct Hx as [Hx Hxy]. unfold parseUnhandledDiffValue, diff_text. fold x.
  rewrite (TrimSpace_solid ind x) by done.
  assert (Hp : trim_prefix_byte tab_char x = x).
  { unfold solid in Hx. destruct x as [|c x']; [done|]. cbn [first_char] in Hx. destruct (last_char (String c x')); [|done].
    apply andb_true_iff in Hx as [Hg%graph_bound _]. change (trim_prefix_byte tab_char (String c x')) with (if decide (c = tab_char) then x' else String c x').
    rewrite decide_False; [done|]. intros ->. change (nat_of_ascii tab_char) with 9%nat in Hg. lia. }
  rewrite Hp, solid_TrimSpace, Hxy by done. unfold y. rewrite split_first_app by done.
  rewrite solid_TrimSpace, (TrimSpace_solid sp value), normalize_shown by done.
  rewrite decide_False; [done|]. intros ->. done.
Qed.

(** ** Reading a whole diff *)

(** A changed field: what it was and what it is, when the diff says so. *)
Record change := mkChange { ch_field : string; ch_before : option string; ch_after : option string }.

(** The line that shows a value of a field. *)
Definition value_line (sign : ascii) (field value line : string) : Prop :=
  exists ind sp tail_, blank ind /\ blank sp /\ (tail_ = "" \/ tail_ = ",") /\
    line = String sign (diff_text ind field sp value tail_).

(** A line that is not marked as removed or added. *)
Definition context_line (line : string) : Prop :=
  match utf8_TrimSpace line with
  | String sign (String _ _) => sign <> minus_char /\ sign <> plus_char
  | _ => True
  end.

(** The lines of a diff that shows the changes. *)
Inductive shows : list string -> list change -> Prop :=
| shows_nil : shows [] []
| shows_context l ls cs : context_line l -> shows ls cs -> shows (l :: ls) cs
| shows_removed l ls f b cs : field_ok f -> value_ok b -> value_line minus_char f b l ->
    shows ls cs -> shows (l :: ls) (mkChange f (Some b) None :: cs)
| shows_added l ls f a cs : field_ok f -> value_ok a -> value_line plus_char f a l ->
    shows ls cs -> shows (l :: ls) (mkChange f None (Some a) :: cs)
| shows_changed l l' ls f b a cs : field_ok f -> value_ok b -> value_ok a ->
    value_line minus_char f b l -> value_line plus_char f a l' ->
    shows ls cs -> shows (l :: l' :: ls) (mkChange f (Some b) (Some a) :: cs).

(** What the summary says of a change. *)
Definition report (c : change) : option string :=
  let text := fun v => match v with Some v => shown v | None => "<empty>" end in
  let line := ch_field c +:+ " " +:+ text (ch_before c) +:+ " -> " +:+ text (ch_after c) in
  match ch_before c, ch_after c with
  | Some b, Some a => if decide (b = a) then None
                      else if decide (shown b = shown a) then Some (line +:+ " (changed)") else Some line
  | _, _ => Some line
  end.

Lemma read_value_line sign f v l st :
  sign = minus_char \/ sign = plus_char -> field_ok f -> value_ok v -> value_line sign f v l ->
  read_diff_line st l =
    (<[f := (if decide (sign = minus_char) then record_before (shown v) v else record_after (shown v) v) (default no_diff (st.1 !! f))]> st.1,
     match st.1 !! f with Some _ => st.2 | None => st.2 ++ [f] end).
Proof.
  intros Hsign Hf Hv (ind & sp & tail_ & Hi & Hs & Ht & ->). unfold read_diff_line.
  assert (Hsolid : solid (String sign (diff_text ind f sp v tail_)) = true).
  { destruct Hf as [Hsf _]. destruct Hv as [Hsv _]. change (String sign (diff_text ind f sp v tail_)) with
      (String sign "" +:+ (ind +:+ f +:+ String colon_char (sp +:+ v +:+ tail_))).
    assert (Hend : solid (f +:+ String colon_char sp +:+ (v +:+ tail_)) = true).
    { apply solid_app; [done|]. destruct Ht as [-> | ->]; [by rewrite str_app_nil|]. by apply (solid_app v "" ","). }
    apply (solid_app (String sign "") ind); [by destruct Hsign as [-> | ->]|exact Hend]. }
  rewrite (solid_TrimSpace _ Hsolid).
  destruct (diff_text ind f sp v tail_) as [|c rest] eqn:Ed.
  { unfold diff_text in Ed. destruct Hf as [Hsf _]. by destruct ind, f. }
  rewrite <- Ed, (parse_text ind f sp v tail_) by done.
  assert (Hb : bool_decide (sign <> minus_char) && bool_decide (sign <> plus_char) = false) by (by destruct Hsign as [-> | ->]).
  rewrite Hb. rewrite decide_False by (intros ->; by destruct Hf). destruct st as [entries order]. cbn [fst snd].
  by destruct (decide (sign = minus_char)).
Qed.

Lemma read_context l st : context_line l -> read_diff_line st l = st.
Proof.
  unfold context_line, read_diff_line. destruct (utf8_TrimSpace l) as [|s [|c r]]; [done..|]. intros [H1 H2].
  by rewrite !bool_decide_eq_true_2.
Qed.

(** The entry of a change. *)
Definition entry_of (c : change) : diffEntry :=
  let text := fun v => match v with Some v => shown v | None => "" end in
  mkDiffEntry (text (ch_before c)) (text (ch_after c)) (default "" (ch_before c)) (default "" (ch_after c)).

Lemma read_lines ls cs entries order :
  shows ls cs -> NoDup (map ch_field cs) -> Forall (fun c => entries !! ch_field c = None) cs ->
  let st := foldl read_diff_line (entries, order) ls in
  st.2 = order ++ map ch_field cs /\
  (forall c, c ∈ cs -> st.1 !! ch_field c = Some (entry_of c)) /\
  (forall f, f ∉ map ch_field cs -> st.1 !! f = entries !! f).
Proof.
  intros Hsh. revert entries order.
  assert (Hstep : forall ls cs c entries entries' order,
    (forall entries order, NoDup (map ch_field cs) -> Forall (fun c => entries !! ch_field c = None) cs ->
       let st := foldl read_diff_line (entries, order) ls in
       st.2 = order ++ map ch_field cs /\ (forall c, c ∈ cs -> st.1 !! ch_field c = Some (entry_of c)) /\
       (forall f, f ∉ map ch_field cs -> st.1 !! f = entries !! f)) ->
    NoDup (map ch_field (c :: cs)) -> Forall (fun c => entries !! ch_field c = None) (c :: cs) ->
    entries' = <[ch_field c := entry_of c]> entries ->
    let st := foldl read_diff_line (entries', order ++ [ch_field c]) ls in
    st.2 = order ++ map ch_field (c :: cs) /\ (forall d, d ∈ c :: cs -> st.1 !! ch_field d = Some (entry_of d)) /\
    (forall f, f ∉ map ch_field (c :: cs) -> st.1 !! f = entries !! f)).
  { clear. intros ls cs c entries entries' order IH Hnd Hnew ->. cbn [map] in Hnd. apply NoDup_cons in Hnd as [Hc Hnd].
    apply Forall_cons in Hnew as [_ Hnew]. destruct (IH (<[ch_field c := entry_of c]> entries) (order ++ [ch_field c]) Hnd) as (H1 & H2 & H3).
    { rewrite Forall_forall in *. intros d Hd. rewrite lookup_insert_ne; [by apply Hnew|]. intros E. apply Hc. rewrite E.
      by apply list_elem_of_fmap_2. }
    cbn zeta in *. split; [by rewrite H1, <- app_assoc|]. split.
    - intros d [->|Hd]%elem_of_cons; [|by apply H2]. by rewrite H3, lookup_insert_eq.
    - intros f Hf. cbn [map] in Hf. apply not_elem_of_cons in Hf as [Hne Hf]. by rewrite H3, lookup_insert_ne. }
  induction Hsh as [|l ls cs Hl _ IH|l ls f b cs Hf Hb Hl _ IH|l ls f a cs Hf Ha Hl _ IH|l l' ls f b a cs Hf Hb Ha Hl Hl' _ IH];
    intros entries order Hnd Hnew; cbn [foldl].
  - split; [by rewrite app_nil_r|]. split; [|done]. by intros c ?%not_elem_of_nil.
  - rewrite read_context by done. by apply IH.
  - pose proof (Forall_inv Hnew) as Hn. cbn in Hn. rewrite (read_value_line minus_char f b) by auto. cbn [fst snd]. rewrite Hn.
    by apply (Hstep ls cs (mkChange f (Some b) None) entries).
  - pose proof (Forall_inv Hnew) as Hn. cbn in Hn. rewrite (read_value_line plus_char f a) by auto. cbn [fst snd]. rewrite Hn.
    by apply (Hstep ls cs (mkChange f None (Some a)) entries).
  - pose proof (Forall_inv Hnew) as Hn. cbn in Hn. rewrite (read_value_line minus_char f b l), (read_value_line plus_char f a) by auto.
    cbn [fst snd]. rewrite Hn, lookup_insert_eq. apply (Hstep ls cs (mkChange f (Some b) (Some a)) entries); [done..|].
    by rewrite insert_insert_eq.
Qed.

Definition change_ok (c : change) : Prop :=
  (forall b, ch_before c = Some b -> value_ok b) /\ (forall a, ch_after c = Some a -> value_ok a) /\
  (ch_before c <> None \/ ch_after c <> None).

Lemma shows_ok ls cs : shows ls cs -> Forall change_ok cs.
Proof.
  induction 1; [constructor|done|..]; (constructor; [|done]); (split; [|split]); cbn; try (intros ? [= <-]); auto; by left + right.
Qed.

Lemma value_nonempty v : value_ok v -> v <> EmptyString /\ shown v <> EmptyString.
Proof. intros (Hs & _ & Hn). split; [|done]. by intros ->. Qed.

Lemma diff_detail_report entries c :
  change_ok c -> entries !! ch_field c = Some (entry_of c) -> diff_detail entries (ch_field c) = report c.
Proof.
  intros (Hb & Ha & Hsome) He. unfold diff_detail, report, entry_of in *. rewrite He. cbn [default from_option id].
  destruct c as [f [b|] [a|]]; cbn [ch_field ch_before ch_after de_before de_after de_beforeRaw de_afterRaw default from_option id] in *;
    [| | |by destruct Hsome].
  - destruct (value_nonempty b (Hb b eq_refl)) as [Hb1 Hb2]. destruct (value_nonempty a (Ha a eq_refl)) as [Ha1 Ha2].
    rewrite (bool_decide_eq_false_2 (shown b = _)), !(decide_False (P := shown _ = EmptyString)) by done. cbn [andb].
    destruct (decide (b = a)) as [->|Hne]; [by rewrite (bool_decide_eq_true_2 (shown a = _)), (bool_decide_eq_true_2 (a = a))|].
    rewrite (bool_decide_eq_false_2 (b = a)), (bool_decide_eq_true_2 (b <> a)), andb_false_r, andb_true_r by done.
    destruct (decide (shown b = shown a)) as [E|E].
    + rewrite bool_decide_eq_true_2 by done. by rewrite <- !str_app_assoc.
    + by rewrite bool_decide_eq_false_2.
  - destruct (value_nonempty b (Hb b eq_refl)) as [Hb1 Hb2].
    rewrite !(bool_decide_eq_false_2 (shown b = _)), (decide_False (P := shown _ = EmptyString)) by done. by rewrite decide_True.
  - destruct (value_nonempty a (Ha a eq_refl)) as [Ha1 Ha2].
    rewrite (bool_decide_eq_false_2 (shown a = _)), !(bool_decide_eq_false_2 ("" = shown a)) by done. cbn [andb].
    rewrite bool_decide_eq_true_2, (decide_False (P := shown a = _)) by done. by rewrite decide_True.
Qed.

(** The summary of a diff loses no change: for a diff whose lines show the
    changes of distinct fields, among any other lines, it names exactly the
    fields whose values differ, in order, with what they were and what they
    are. *)
Theorem concise_reports_changes raw cs :
  strings_Contains raw unhandledSummaryPrefix = true -> shows (strings_Split nl_char raw) cs -> NoDup (map ch_field cs) ->
  conciseUnhandledMessage raw =
    match omap report cs with
    | [] => unhandledSummaryPrefix
    | details => unhandledSummaryPrefix +:+ " (" +:+ strings_Join details "; " +:+ ")"
    end.
Proof.
  intros Hc Hs Hnd. unfold conciseUnhandledMessage. rewrite Hc. cbn [negb].
  enough (Hd : extractUnhandledDetails raw = omap report cs) by (rewrite Hd; by destruct (omap report cs)).
  unfold extractUnhandledDetails. destruct (read_lines _ _ ∅ [] Hs Hnd) as (H1 & H2 & _).
  { apply Forall_forall. intros c _. apply lookup_empty. }
  destruct (foldl read_diff_line _ _) as [entries order]. cbn in H1, H2. subst order.
  pose proof (shows_ok _ _ Hs) as Hok. clear -Hok H2. induction cs as [|c cs IH]; [done|].
  apply Forall_cons in Hok as [Hc Hok]. cbn [map omap list_omap]. rewrite (diff_detail_report entries c Hc (H2 c (list_elem_of_here _ _))).
  assert (IH' : omap (diff_detail entries) (map ch_field cs) = omap report cs) by (apply IH; [|done]; intros d Hd; apply H2; by right).
  destruct (report c); [f_equal|]; exact IH'.
Qed.

(** ** Witnesses *)

Module CrdSamples.

(** A cluster with the CRD [foos.example.com]; crdify finds fault with every
    change of its content. *)
Definition removed_field : string := "field spec.size was removed".

Definition compare_contents (_ : unit) (old new : gmap string json) : option Results :=
  Some (mkResults (if decide (old = new) then [] else [mkComparison "existingFieldRemoval" [removed_field] []]) [] []).

Definition crd_sample (old : gmap string json) : CrdEnv (gmap string json) unit := {|
  ce_NewRunner _ := inr tt;
  ce_Run := compare_contents;
  ce_HasFailures r := match crdWideErrors r ++ sameVersionErrors r ++ servedVersionErrors r with [] => false | _ => true end;
  ce_ToUnstructured u := inr (ObjectInstances.content u);
  ce_FromUnstructured m := inr m;
  ce_Name m := u_GetName (mkUnstr (Some m));
  ce_Get name := if decide (name = "foos.example.com") then inr old else inl (EApi KNotFound "not found");
|}.

#[local] Instance crd_sample_laws old : CrdifyLaws (crd_sample old).
Proof. split. intros r H. cbn. by destruct (crdWideErrors r ++ _). Qed.

Definition crd_content : gmap string json := ObjectInstances.content (ac_object sample_crd).

Lemma crd_is_safe : safe_object (crd_sample crd_content) tt (ac_object sample_crd).
Proof.
  intros _. exists crd_content, crd_content. split; [reflexivity|]. split; [reflexivity|].
  assert (Hn : ce_Name (crd_sample crd_content) crd_content = "foos.example.com") by (vm_compute; reflexivity).
  rewrite Hn. cbn [ce_Get ce_Run crd_sample]. rewrite decide_True by done. cbv zeta. unfold compare_contents.
  by rewrite decide_True.
Qed.

Lemma preflight_exact_witness :
  runPreflight (crd_sample crd_content) defaultConfig [ac_object sample_sa; ac_object sample_crd] = None.
Proof.
  apply (preflight_exact (crd_sample crd_content) defaultConfig). right. exists tt. split; [reflexivity|].
  constructor; [intros Hk; vm_compute in Hk; discriminate Hk|]. constructor; [exact crd_is_safe|constructor].
Defined.

(** With another content on the cluster the preflight fails. *)
Lemma changed_crd_fails : runPreflight (crd_sample ∅) defaultConfig [ac_object sample_crd] <> None.
Proof. vm_compute. done. Qed.

(** A codec for the one manifest, and a bundle of it. *)
#[local] Program Instance codec_crd : Codec := {|
  json_Marshal m := if decide (m = crd_content) then inr "{crd}" else inl (ENew "unsupported value");
  json_Unmarshal d := if decide (d = "{crd}") then inr (Some crd_content) else inl (ENew "invalid character");
  gzip_compress d := inr (magic +:+ d);
  gzip_read n c := inr (inr (str_takeZ n (str_drop 2 c)));
  sha256_base64url d := d;
  sha256_hex8 d := d;
  representable _ := true;
|}.
Next Obligation. intros m d. cbv beta. destruct (decide (m = crd_content)) as [->|]; [by intros [= <-] _|done]. Qed.
Next Obligation. intros m d. cbv beta. destruct (decide (m = crd_content)); [by intros [= <-]|done]. Qed.
Next Obligation. by intros d c n [= <-]. Qed.
Next Obligation. by intros d c [= <-]. Qed.

Definition generate_crd (_ : unit) (ext : ClusterExtension) (_ _ : gmap string string) : result COSAC :=
  inr (buildClusterObjectSet [sample_crd] ext ∅).

#[local] Instance generate_crd_inline : InlineGenerator generate_crd.
Proof.
  intros fs ext ol ra rev [= <-]. unfold inline_only. change (ca_Phases _) with (PhaseSort [sample_crd]).
  apply (bool_decide_unpack _). vm_compute. exact I.
Qed.

Definition crd_checks (old : gmap string json) : list Preflight := [crd_preflight (fun _ => crd_sample old)].

Definition crd_run : H :=
  (Boxcutter_apply (Samples.sample_env Samples.seven) generate_crd (crd_checks crd_content) "olmv1-system" (Some tt) Samples.the_ext ∅ ∅ []).2.

Definition applied_at (n : nat) : COSAC :=
  match crd_run !! n with Some ev => Samples.applied_rev ev | None => Samples.applied_rev EvActionClient end.

Lemma crd_run_split :
  Boxcutter_apply (Samples.sample_env Samples.seven) generate_crd (crd_checks crd_content) "olmv1-system" (Some tt) Samples.the_ext ∅ ∅ [] =
  (inr tt, [] ++ take 7 crd_run ++ EvApply (applied_at 7) :: drop 8 crd_run).
Proof. vm_compute. reflexivity. Qed.

Lemma unsafe_upgrade_blocked_witness :
  exists generated t0, generate_crd tt Samples.the_ext ∅ ∅ = inr generated /\ t0 `prefix_of` take 7 crd_run /\
    (getObjects generated = [] \/
     exists runner, ce_NewRunner (crd_sample crd_content) defaultConfig = inr runner /\
       Forall (safe_object (crd_sample crd_content) runner) (getObjects generated)).
Proof.
  apply (unsafe_upgrade_blocked (Samples.sample_env Samples.seven) generate_crd (fun _ => crd_sample crd_content)
    (crd_checks crd_content) "olmv1-system" Samples.the_ext ∅ ∅ tt [] (inr tt) (take 7 crd_run) (EvApply (applied_at 7)) (drop 8 crd_run)).
  - by left.
  - reflexivity.
  - exact crd_run_split.
  - split; apply (bool_decide_unpack _); vm_compute; exact I.
Defined.

(** A bundle that takes a field away stops before anything is created. *)
Lemma unsafe_upgrade_stops :
  let run := Boxcutter_apply (Samples.sample_env Samples.seven) generate_crd (crd_checks ∅) "olmv1-system" (Some tt) Samples.the_ext ∅ ∅ [] in
  failed run.1 /\ length run.2 = 3%nat.
Proof. vm_compute. split; [exact I|reflexivity]. Qed.

(** A diff that changes a format, keeps a title and drops a pattern. *)
Definition nbsp : string := String (ascii_of_nat 194) (String (ascii_of_nat 160) EmptyString).
Definition tab : string := String tab_char EmptyString.

Definition sample_diff : list string :=
  ["unhandled changes found :"; "  &v1.JSONSchemaProps{"; "-" +:+ nbsp +:+ tab +:+ "Format: int32,"; "+" +:+ nbsp +:+ tab +:+ "Format: int64,";
   "- Title: v1.Size,"; "+ Title: Size"; "-" +:+ tab +:+ "Pattern: ^a"; "  }"].

Definition sample_changes : list change :=
  [mkChange "Format" (Some "int32") (Some "int64"); mkChange "Title" (Some "v1.Size") (Some "Size"); mkChange "Pattern" (Some "^a") None].

Lemma sample_value_ok v : bool_decide (solid v = true /\ last_char v <> Some comma_char /\ shown v <> EmptyString) = true -> value_ok v.
Proof. by intros H%bool_decide_eq_true. Qed.

Lemma blank_space : blank " ".
Proof. by intros x. Qed.

Lemma blank_indent : blank (nbsp +:+ tab).
Proof. by intros x. Qed.

Lemma blank_tab : blank tab.
Proof. by intros x. Qed.

Lemma sample_shows : shows sample_diff sample_changes.
Proof.
  assert (Hline : forall sign ind f sp v tail_, blank ind -> blank sp -> tail_ = "" \/ tail_ = "," ->
            value_line sign f v (String sign (diff_text ind f sp v tail_))) by (intros sign ind f sp v tail_ H1 H2 H3; by exists ind, sp, tail_).
  apply shows_context; [vm_compute; done|]. apply shows_context; [vm_compute; done|].
  apply shows_changed; [by split|by apply sample_value_ok|by apply sample_value_ok|..].
  { apply (Hline minus_char (nbsp +:+ tab) "Format" " " "int32" ","); auto using blank_indent, blank_space. }
  { apply (Hline plus_char (nbsp +:+ tab) "Format" " " "int64" ","); auto using blank_indent, blank_space. }
  apply shows_changed; [by split|by apply sample_value_ok|by apply sample_value_ok|..].
  { apply (Hline minus_char " " "Title" " " "v1.Size" ","); auto using blank_space. }
  { apply (Hline plus_char " " "Title" " " "Size" ""); auto using blank_space. }
  apply shows_removed; [by split|by apply sample_value_ok|..].
  { apply (Hline minus_char tab "Pattern" " " "^a" ""); auto using blank_tab, blank_space. }
  apply shows_context; [vm_compute; done|]. apply shows_nil.
Qed.

Lemma concise_reports_changes_witness :
  conciseUnhandledMessage (strings_Join sample_diff nl) =
    "unhandled changes found (Format int32 -> int64; Title Size -> Size (changed); Pattern ^a -> <empty>)".
Proof.
  apply (concise_reports_changes (strings_Join sample_diff nl) sample_changes).
  - vm_compute. reflexivity.
  - assert (E : strings_Split nl_char (strings_Join sample_diff nl) = sample_diff) by (vm_compute; reflexivity).
    rewrite E. exact sample_shows.
  - apply (bool_decide_unpack _). vm_compute. exact I.
Defined.

End CrdSamples.
