(* ===== verification/Auth.v ===== *)
(** * Authentication as the service account of an extension

    src/internal/operator-controller/authentication/tokengetter.go and
    tripper.go: the cache of service account tokens and the transport that
    puts them into requests; synthetic.go and
    src/internal/operator-controller/action/restconfig.go: the configuration a
    client for an extension gets.

    Requests run concurrently on one TokenGetter: each is a thread, which goes
    through RoundTrip in the steps the mutex and the calls of the API server
    separate, and every order of the steps of the threads is a run.  Time is in
    nanoseconds and passes between steps.  What the API server answers to
    CreateToken and what the wrapped transport answers come with the step. *)

From S2P Require Import Prelude GoErrors ApiTypes Rbac.

(** authenticationv1.TokenRequestStatus *)
Record TokenRequestStatus := mkToken { tk_Token : string; tk_ExpirationTimestamp : Z }.

#[export] Instance Token_eq_dec : EqDecision TokenRequestStatus.
Proof. solve_decision. Defined.

(** time.Time{}, the first of January of the year 1, from the epoch *)
Definition zeroTime : Z := - 62135596800 * 1000000000.

(** const DefaultExpirationDuration = 5 * time.Minute *)
Definition DefaultExpirationDuration : Z := 5 * 60 * 1000000000.

(** http.StatusUnauthorized *)
Definition StatusUnauthorized : Z := 401.

(** func (e *ServiceAccountNotFoundError) Error() string; the field Err that
    Unwrap returns is never set, so that the error wraps nothing. *)
Definition ServiceAccountNotFoundError (key : NamespacedName) : error :=
  ENew ("service account " +:+ fmt_q (nn_Name key) +:+ " not found in namespace " +:+ fmt_q (nn_Namespace key) +:+
        ": unable to authenticate with the Kubernetes cluster.").

(** ** The token cache *)

Section TokenGetter.
(* t.expirationDuration, and the part of it the code computes as a float64 *)
Context (expirationDuration rotation : Z).

(** The request of getToken. *)
Definition token_request_seconds : Z := Z.quot expirationDuration 1000000000.

(** What getToken makes of the answer to CreateToken. *)
Definition getToken (key : NamespacedName) (answer : result TokenRequestStatus) : result TokenRequestStatus :=
  match answer with
  | inr status => inr status
  | inl err => if has_kind KNotFound err then inl (ServiceAccountNotFoundError key) else inl err
  end.

(** Whether Get creates a token: expireTime.Before(rotationThresholdAfterNow). *)
Definition needs_token (now : Z) (token : option TokenRequestStatus) : bool :=
  let expireTime := match token with Some token => tk_ExpirationTimestamp token | None => zeroTime end in
  expireTime <? now + rotation.

(** func (t *TokenGetter) reapExpiredTokens(); every token is compared with
    the time of the step. *)
Definition reapExpiredTokens (now : Z) (tokens : gmap NamespacedName TokenRequestStatus)
  : gmap NamespacedName TokenRequestStatus :=
  filter (fun kt => ~ 0 < now - tk_ExpirationTimestamp kt.2) tokens.

(** func (t *TokenGetter) Delete(key) *)
Definition TokenGetter_Delete (key : NamespacedName) (tokens : gmap NamespacedName TokenRequestStatus)
  : gmap NamespacedName TokenRequestStatus := delete key tokens.

(** ** A request

    Where RoundTrip stands, in its first or second [do]: in TokenGetter.Get,
    before the request, before the deletion of a refused token, or returned. *)
Inductive request_pc :=
| AtRead
| AtCheck (token : option TokenRequestStatus)
| AtCreate
| AtStore (token : TokenRequestStatus)
| AtReap (token : TokenRequestStatus)
| AtSend (token : TokenRequestStatus)
| AtDelete (token : TokenRequestStatus) (resp : option Z) (err : option error)
| Returned (resp : option Z) (err : option error).

(** [rq_since] and [rq_rejected] record for the theorems when the current [do]
    began, and the token that was refused. *)
Record request := mkRequest {
  rq_key : NamespacedName;
  rq_retry : bool;
  rq_since : Z;
  rq_rejected : option TokenRequestStatus;
  rq_pc : request_pc;
}.

Record getter_state := mkGetter {
  ts_now : Z;
  ts_tokens : gmap NamespacedName TokenRequestStatus;
  ts_requests : gmap nat request;
  (* what the API server has issued so far, when and for whom *)
  ts_issued : list (Z * NamespacedName * TokenRequestStatus);
}.

Definition NewTokenGetter (now : Z) : getter_state := mkGetter now ∅ ∅ [].

Inductive auth_action :=
| AcPass (ns : Z)                                      (* time passes *)
| AcRequest (id : nat) (key : NamespacedName)          (* RoundTrip is called *)
| AcStep (id : nat)                                    (* a step without an answer *)
| AcCreated (id : nat) (answer : result TokenRequestStatus)
| AcAnswered (id : nat) (resp : option Z) (err : option error).

Definition at_pc (pc : request_pc) (r : request) : request :=
  mkRequest (rq_key r) (rq_retry r) (rq_since r) (rq_rejected r) pc.

Definition with_request (id : nat) (r : request) (st : getter_state) : getter_state :=
  mkGetter (ts_now st) (ts_tokens st) (<[id := r]> (ts_requests st)) (ts_issued st).
Definition with_tokens (tokens : gmap NamespacedName TokenRequestStatus) (st : getter_state) : getter_state :=
  mkGetter (ts_now st) tokens (ts_requests st) (ts_issued st).

(** resp != nil && resp.StatusCode == http.StatusUnauthorized, in the first do *)
Definition is_refused (r : request) (resp : option Z) : bool :=
  negb (rq_retry r) && match resp with Some code => code =? StatusUnauthorized | None => false end.

(** The steps that need no answer: the parts of Get under the mutex, and the
    deletion of a refused token, after which the request is sent once more. *)
Definition request_step (id : nat) (r : request) (st : getter_state) : option getter_state :=
  match rq_pc r with
  | AtRead => Some (with_request id (at_pc (AtCheck (ts_tokens st !! rq_key r)) r) st)
  | AtCheck token =>
      if needs_token (ts_now st) token then Some (with_request id (at_pc AtCreate r) st)
      else match token with
           | Some token => Some (with_request id (at_pc (AtReap token) r) st)
           | None => None  (* token is nil, and token.Token panics *)
           end
  | AtStore token =>
      Some (with_request id (at_pc (AtReap token) r) (with_tokens (<[rq_key r := token]> (ts_tokens st)) st))
  | AtReap token =>
      Some (with_request id (at_pc (AtSend token) r) (with_tokens (reapExpiredTokens (ts_now st) (ts_tokens st)) st))
  | AtDelete token _ _ =>
      Some (with_request id (mkRequest (rq_key r) true (ts_now st) (Some token) AtRead)
              (with_tokens (TokenGetter_Delete (rq_key r) (ts_tokens st)) st))
  | AtCreate | AtSend _ | Returned _ _ => None
  end.

(** One step of a run; [None] when the action is not possible. *)
Definition auth_step (st : getter_state) (a : auth_action) : option getter_state :=
  match a with
  | AcPass ns => if 0 <=? ns then Some (mkGetter (ts_now st + ns) (ts_tokens st) (ts_requests st) (ts_issued st)) else None
  | AcRequest id key =>
      match ts_requests st !! id with
      | Some _ => None
      | None => Some (with_request id (mkRequest key false (ts_now st) None AtRead) st)
      end
  | AcStep id => match ts_requests st !! id with Some r => request_step id r st | None => None end
  | AcCreated id answer =>
      match ts_requests st !! id with
      | Some r =>
          match rq_pc r with
          | AtCreate =>
              match getToken (rq_key r) answer with
              | inl err => Some (with_request id (at_pc (Returned None (Some err)) r) st)
              | inr token =>
                  Some (mkGetter (ts_now st) (ts_tokens st) (<[id := at_pc (AtStore token) r]> (ts_requests st))
                          (ts_issued st ++ [(ts_now st, rq_key r, token)]))
              end
          | _ => None
          end
      | None => None
      end
  | AcAnswered id resp err =>
      match ts_requests st !! id with
      | Some r =>
          match rq_pc r with
          | AtSend token =>
              Some (with_request id (at_pc (if is_refused r resp then AtDelete token resp err else Returned resp err) r) st)
          | _ => None
          end
      | None => None
      end
  end.

Fixpoint auth_run (acts : list auth_action) (st : getter_state) : option getter_state :=
  match acts with
  | [] => Some st
  | a :: acts => match auth_step st a with Some st => auth_run acts st | None => None end
  end.

Inductive auth_reachable : getter_state -> Prop :=
| auth_new now : 0 <= now -> auth_reachable (NewTokenGetter now)
| auth_next st a st' : auth_reachable st -> auth_step st a = Some st' -> auth_reachable st'.

End TokenGetter.

(** ** The configuration of a client *)

(** syntheticUserName, syntheticGroups *)
Definition syntheticUserName (ext : ClusterExtension) : string := "olm:clusterextension:" +:+ ext_Name ext.
Definition syntheticGroups (_ : ClusterExtension) : list string := ["olm:clusterextensions"].

(** The transports a mapper wraps around that of the configuration. *)
Inductive transport_wrapper :=
| TokenInjecting (key : NamespacedName)
| Impersonating (UserName : string) (Groups : list string).

(** func SyntheticImpersonationConfig(ext) transport.ImpersonationConfig, as
    the round tripper that uses it. *)
Definition SyntheticImpersonationConfig (ext : ClusterExtension) : transport_wrapper :=
  Impersonating (syntheticUserName ext) (syntheticGroups ext).

(** rest.Config: whether it holds the credentials of the manager, and the
    wrappers, the outermost last. *)
Record rest_Config := mkRestConfig { rc_Credentials : bool; rc_Wrappers : list transport_wrapper }.

(** rest.AnonymousClientConfig copies a configuration without its credentials
    and wrappers; rest.CopyConfig copies it; Wrap adds a wrapper. *)
Definition AnonymousClientConfig (c : rest_Config) : rest_Config := mkRestConfig false [].
Definition CopyConfig (c : rest_Config) : rest_Config := c.
Definition rc_Wrap (w : transport_wrapper) (c : rest_Config) : rest_Config :=
  mkRestConfig (rc_Credentials c) (rc_Wrappers c ++ [w]).

(** The objects a mapper can be called with. *)
Inductive client_object := NilObject | OtherObject | ExtensionObject (ext : ClusterExtension).

(** func validate(o client.Object, c *rest.Config) *)
Definition validate_mapping (o : client_object) (c : option rest_Config) : result (ClusterExtension * rest_Config) :=
  match c with
  | None => inl (ENew "rest config is nil")
  | Some c =>
      match o with
      | NilObject => inl (ENew "object is nil")
      | OtherObject => inl (ENew "object is not a ClusterExtension")
      | ExtensionObject ext => inr (ext, c)
      end
  end.

Definition ConfigMapper : Type := client_object -> option rest_Config -> result rest_Config.

Definition syntheticServiceAccountName : string := "olm.synthetic-user".

(** func ServiceAccountRestConfigMapper(tokenGetter) *)
Definition ServiceAccountRestConfigMapper : ConfigMapper := fun o c =>
  match validate_mapping o c with
  | inl err => inl err
  | inr (cExt, c) =>
      inr (rc_Wrap (TokenInjecting (mkNN (es_Namespace (ext_Spec cExt)) (es_ServiceAccount (ext_Spec cExt))))
             (AnonymousClientConfig c))
  end.

(** func SyntheticUserRestConfigMapper(defaultAuthMapper) *)
Definition SyntheticUserRestConfigMapper (defaultAuthMapper : ConfigMapper) : ConfigMapper := fun o c =>
  match validate_mapping o c with
  | inl err => inl err
  | inr (cExt, c) =>
      if decide (es_ServiceAccount (ext_Spec cExt) <> syntheticServiceAccountName)
      then defaultAuthMapper (ExtensionObject cExt) (Some c)
      else inr (rc_Wrap (SyntheticImpersonationConfig cExt) (CopyConfig c))
  end.

(** main.go: the mapper of the Helm applier and of the content manager. *)
Definition clientRestConfigMapper (SyntheticPermissions : bool) : ConfigMapper :=
  if SyntheticPermissions then SyntheticUserRestConfigMapper ServiceAccountRestConfigMapper
  else ServiceAccountRestConfigMapper.
