(* ===== verification/AuthProps.v ===== *)
(** * Properties of authentication

    Which tokens requests carry in every interleaving, that a refused token is
    not sent again, that every request returns, and whose rights a client for
    an extension has. *)

From S2P Require Import Prelude GoErrors ApiTypes Rbac Instances Auth.

Section Tokens.
Context (rotation : Z).

Definition issued_for (st : getter_state) (key : NamespacedName) (token : TokenRequestStatus) : Prop :=
  exists t, (t, key, token) ∈ ts_issued st.

(** Issued since a moment. *)
Definition issued_since (st : getter_state) (since : Z) (key : NamespacedName) (token : TokenRequestStatus) : Prop :=
  exists t, since <= t /\ (t, key, token) ∈ ts_issued st.

(** The token a request has in hand. *)
Definition pc_token (pc : request_pc) : option TokenRequestStatus :=
  match pc with
  | AtCheck token => token
  | AtStore token | AtReap token | AtSend token | AtDelete token _ _ => Some token
  | AtRead | AtCreate | Returned _ _ => None
  end.

(** Good enough to be sent: with time left when it was looked up, or new. *)
Definition fresh (st : getter_state) (r : request) (token : TokenRequestStatus) : Prop :=
  rq_since r + rotation <= tk_ExpirationTimestamp token \/ issued_since st (rq_since r) (rq_key r) token.

Record request_ok (st : getter_state) (r : request) : Prop := {
  ro_since : rq_since r <= ts_now st;
  ro_token : forall token, pc_token (rq_pc r) = Some token -> issued_for st (rq_key r) token;
  ro_rejected : forall token, rq_rejected r = Some token -> issued_for st (rq_key r) token;
  ro_retry : rq_retry r = true <-> is_Some (rq_rejected r);
  ro_fresh : forall token, rq_pc r = AtReap token \/ rq_pc r = AtSend token -> fresh st r token;
  ro_new : forall token, rq_pc r = AtStore token -> issued_since st (rq_since r) (rq_key r) token;
  ro_first : forall token resp err, rq_pc r = AtDelete token resp err -> rq_retry r = false;
}.

Record getter_ok (st : getter_state) : Prop := {
  go_now : 0 <= ts_now st;
  go_cache : forall key token, ts_tokens st !! key = Some token -> issued_for st key token;
  go_requests : forall id r, ts_requests st !! id = Some r -> request_ok st r;
}.

(** Nothing a state knows to be issued is forgotten, and time does not go
    back. *)
Definition grows (st st' : getter_state) : Prop :=
  ts_now st <= ts_now st' /\ forall x, x ∈ ts_issued st -> x ∈ ts_issued st'.

Lemma grows_refl st st' : ts_now st = ts_now st' -> ts_issued st = ts_issued st' -> grows st st'.
Proof. intros E1 E2. split; [lia|]. by rewrite E2. Qed.

Lemma issued_grows st st' key token : grows st st' -> issued_for st key token -> issued_for st' key token.
Proof. intros [_ H] [t Ht]. exists t. auto. Qed.

Lemma since_grows st st' t key token : grows st st' -> issued_since st t key token -> issued_since st' t key token.
Proof. intros [_ H] (t' & ? & Ht). exists t'. auto. Qed.

Lemma request_grows st st' r : grows st st' -> request_ok st r -> request_ok st' r.
Proof.
  intros Hg [H1 H2 H3 H4 H5 H6 H7]. pose proof Hg as [Hn _]. split.
  - lia.
  - intros token Ht. eapply issued_grows; eauto.
  - intros token Ht. eapply issued_grows; eauto.
  - done.
  - intros token Ht. destruct (H5 token Ht) as [?|?]; [by left|right; by eapply since_grows].
  - intros token Ht. eapply since_grows; eauto.
  - done.
Qed.

(** One request moves on, the cache changes within what was issued. *)
Lemma getter_moves st st' id r :
  getter_ok st -> grows st st' -> ts_requests st' = <[id := r]> (ts_requests st) -> request_ok st' r ->
  (forall key token, ts_tokens st' !! key = Some token -> issued_for st' key token) -> getter_ok st'.
Proof.
  intros [Hn _ Hr] Hg Er Hok Hc. split; [by destruct Hg; lia|done|]. intros id' r'. rewrite Er.
  destruct (decide (id = id')) as [<-|Hne]; [rewrite lookup_insert_eq; by intros [= <-]|].
  rewrite lookup_insert_ne by done. intros Hl. eapply request_grows; eauto.
Qed.

Lemma step_ok st a st' : getter_ok st -> auth_step rotation st a = Some st' -> getter_ok st'.
Proof.
  intros Hok Hst. pose proof Hok as [Hn Hc Hr].
  destruct a as [ns|id key|id|id answer|id resp err]; cbn in Hst.
  - destruct (Z.leb_spec 0 ns); [|done]. injection Hst as <-. split; cbn; [lia|done|]. intros id r Hl.
    eapply request_grows; [|by eapply Hr]. split; [cbn; lia|done].
  - destruct (ts_requests st !! id) eqn:El; [done|]. injection Hst as <-.
    eapply (getter_moves st _ id); [done|by apply grows_refl|done| |done].
    split; cbn; try done; try (by intros ? [?|?]); try lia; by intros [? ?].
  - destruct (ts_requests st !! id) as [r|] eqn:El; [|done]. pose proof (Hr id r El) as Hro. destruct Hro as [H1 H2 H3 H4 H5 H6 H7].
    destruct r as [key retry since rejected pc]. unfold request_step in Hst. cbn in *.
    destruct pc as [|token| |token|token|token|token resp err|resp err]; try done.
    + injection Hst as <-. eapply (getter_moves st _ id); [done|by apply grows_refl|done| |done].
      split; cbn; try done; try (by intros ? [?|?]). intros token Ht. by apply Hc.
    + destruct (needs_token rotation (ts_now st) token) eqn:En.
      { injection Hst as <-. eapply (getter_moves st _ id); [done|by apply grows_refl|done| |done].
        split; cbn; try done. by intros ? [?|?]. }
      destruct token as [token|]; [|done]. injection Hst as <-. apply Z.ltb_ge in En. cbn in En.
      eapply (getter_moves st _ id); [done|by apply grows_refl|done| |done].
      split; cbn; try done. intros token' [[= <-]|?]; [|done]. left. cbn. lia.
    + injection Hst as <-. eapply (getter_moves st _ id); [done|by apply grows_refl|done| |].
      * split; cbn; try done. intros token' [[= <-]|?]; [|done]. right. by apply H6.
      * cbn. intros key' token'. destruct (decide (key = key')) as [<-|Hne]; [|rewrite lookup_insert_ne by done; by apply Hc].
        rewrite lookup_insert_eq. intros [= <-]. by apply H2.
    + injection Hst as <-. eapply (getter_moves st _ id); [done|by apply grows_refl|done| |].
      * split; cbn; try done. intros token' [?|[= <-]]; [done|]. by apply H5; left.
      * cbn. intros key' token' Hl. unfold reapExpiredTokens in Hl. apply map_lookup_filter_Some in Hl as [Hl _]. by apply Hc.
    + injection Hst as <-. eapply (getter_moves st _ id); [done|by apply grows_refl|done| |].
      * split; cbn; try done; try (by intros ? [?|?]); try lia; intros token' [= <-]; by apply H2.
      * cbn. intros key' token' Hl. unfold TokenGetter_Delete in Hl. apply lookup_delete_Some in Hl as [_ Hl]. by apply Hc.
  - destruct (ts_requests st !! id) as [r|] eqn:El; [|done]. pose proof (Hr id r El) as Hro. destruct Hro as [H1 H2 H3 H4 H5 H6 H7].
    destruct (rq_pc r) eqn:Ep; try done. destruct (getToken (rq_key r) answer) as [err|token].
    + injection Hst as <-. eapply (getter_moves st _ id); [done|by apply grows_refl|done| |done].
      split; cbn; try done. by intros ? [?|?].
    + injection Hst as <-. assert (Hg : grows st (mkGetter (ts_now st) (ts_tokens st) (<[id := at_pc (AtStore token) r]> (ts_requests st))
        (ts_issued st ++ [(ts_now st, rq_key r, token)]))) by (split; [cbn; lia|cbn; set_solver]).
      eapply (getter_moves st _ id); [done|exact Hg|done| |].
      * split; cbn.
        -- done.
        -- intros token' [= <-]. exists (ts_now st). cbn. set_solver.
        -- intros token' Ht. eapply issued_grows; [exact Hg|]. by apply H3.
        -- done.
        -- by intros ? [?|?].
        -- intros token' [= <-]. exists (ts_now st). split; [done|]. cbn. set_solver.
        -- done.
      * intros key' token' Hl. eapply issued_grows; [exact Hg|]. by apply Hc.
  - destruct (ts_requests st !! id) as [r|] eqn:El; [|done]. pose proof (Hr id r El) as Hro. destruct Hro as [H1 H2 H3 H4 H5 H6 H7].
    destruct (rq_pc r) as [| | | | |token| |] eqn:Ep; try done. injection Hst as <-.
    eapply (getter_moves st _ id); [done|by apply grows_refl|done| |done].
    destruct (is_refused r resp) eqn:Ei; split; cbn; try done; try (by intros ? [?|?]).
    intros _ _ _ _. unfold is_refused in Ei. by destruct (rq_retry r).
Qed.

Lemma reachable_ok st : auth_reachable rotation st -> getter_ok st.
Proof.
  induction 1 as [now Hn|st a st' _ IH Hst]; [|by eapply step_ok].
  split; [done|by intros key token; cbn; rewrite lookup_empty|by intros id r; cbn; rewrite lookup_empty].
Qed.

(** Whatever the interleaving of requests, a request carries a token the
    API server issued for the very service account it is made for, and either
    that token had the rotation threshold left to live when the request began,
    or it was issued while the request was made. *)
Theorem sent_token_genuine st id r token :
  auth_reachable rotation st -> ts_requests st !! id = Some r -> rq_pc r = AtSend token ->
  issued_for st (rq_key r) token /\ fresh st r token.
Proof.
  intros Hr%reachable_ok Hl Hp. destruct (go_requests st Hr id r Hl) as [_ H2 _ _ H5 _ _].
  split; [apply H2; by rewrite Hp|auto].
Qed.

(** ** A refused token is not sent again *)

Definition token_of (x : Z * NamespacedName * TokenRequestStatus) : string := tk_Token x.2.

(** The API server does not issue a token twice. *)
Definition distinct_tokens (st : getter_state) : Prop := NoDup (map token_of (ts_issued st)).

Lemma same_token st t t' k k' token token' :
  distinct_tokens st -> (t, k, token) ∈ ts_issued st -> (t', k', token') ∈ ts_issued st -> tk_Token token = tk_Token token' ->
  k = k' /\ token = token'.
Proof.
  intros Hd H1 H2 He. apply list_elem_of_lookup_1 in H1 as [i Hi]. apply list_elem_of_lookup_1 in H2 as [j Hj].
  assert (i = j) as <-; [|rewrite Hi in Hj; by injection Hj as -> -> ->].
  eapply (NoDup_lookup _ i j (tk_Token token)); [exact Hd|..]; rewrite list_lookup_fmap; [by rewrite Hi|]. by rewrite Hj, He.
Qed.

(** A token is not in the cache, nor in hand of, nor refused to a request. *)
Definition not_cached (st : getter_state) (s : string) : Prop :=
  forall k token, ts_tokens st !! k = Some token -> tk_Token token <> s.
Definition not_in_hand (r : request) (s : string) : Prop := forall token, pc_token (rq_pc r) = Some token -> tk_Token token <> s.
Definition not_refused (r : request) (s : string) : Prop := forall token, rq_rejected r = Some token -> tk_Token token <> s.

Record tokens_apart (st : getter_state) : Prop := {
  (* a token that is still to be stored is known to its request alone *)
  ta_new : forall id r token, ts_requests st !! id = Some r -> rq_pc r = AtStore token ->
    not_cached st (tk_Token token) /\ not_refused r (tk_Token token) /\
    forall id' r', id' <> id -> ts_requests st !! id' = Some r' ->
      not_in_hand r' (tk_Token token) /\ not_refused r' (tk_Token token);
  (* a refused token has left the cache, and its request has another one *)
  ta_refused : forall id r token, ts_requests st !! id = Some r -> rq_rejected r = Some token ->
    not_cached st (tk_Token token) /\ not_in_hand r (tk_Token token);
}.

(** A request changes so that it knows no more, and the cache shrinks or stays. *)
Lemma apart_moves st st' id r r' :
  tokens_apart st -> ts_requests st !! id = Some r -> ts_requests st' = <[id := r']> (ts_requests st) ->
  (forall k token, ts_tokens st' !! k = Some token -> ts_tokens st !! k = Some token) ->
  (forall token, rq_pc r' <> AtStore token) ->
  (forall token, pc_token (rq_pc r') = Some token ->
     pc_token (rq_pc r) = Some token \/ exists k, ts_tokens st !! k = Some token) ->
  rq_rejected r' = rq_rejected r -> (forall token, rq_pc r <> AtStore token) -> tokens_apart st'.
Proof.
  intros [Hn Hr] Hl Er Hc Hs Hp Hrej Hold.
  assert (Hsub : forall s, not_cached st s -> not_cached st' s) by (intros s H k token Ht; by apply (H k token), Hc).
  assert (Hand : forall s, not_cached st s -> not_in_hand r s -> not_in_hand r' s).
  { intros s H1 H2 token Ht. destruct (Hp token Ht) as [?|[k Hk]]; [by apply H2|by apply (H1 k)]. }
  split.
  - intros i q token. rewrite Er. destruct (decide (id = i)) as [<-|Hi].
    { rewrite lookup_insert_eq. intros [= <-] Ht. by apply Hs in Ht. }
    rewrite lookup_insert_ne by done. intros Hq Ht. destruct (Hn i q token Hq Ht) as (H1 & H2 & H3). split; [auto|]. split; [done|].
    intros j q' Hj. destruct (decide (id = j)) as [<-|Hj'].
    + rewrite lookup_insert_eq. intros [= <-]. destruct (H3 id r Hj Hl) as [H4 H5]. split; [by apply Hand|]. intros t. rewrite Hrej. apply H5.
    + rewrite lookup_insert_ne by done. by apply H3.
  - intros i q token. rewrite Er. destruct (decide (id = i)) as [<-|Hi].
    + rewrite lookup_insert_eq. intros [= <-] Ht. rewrite Hrej in Ht. destruct (Hr id r token Hl Ht) as [H1 H2]. split; [auto|]. by apply Hand.
    + rewrite lookup_insert_ne by done. intros Hq Ht. destruct (Hr i q token Hq Ht) as [H1 H2]. auto.
Qed.

(** A request stores its new token. *)
Lemma apart_store st id r token :
  tokens_apart st -> ts_requests st !! id = Some r -> rq_pc r = AtStore token ->
  tokens_apart (with_request id (at_pc (AtReap token) r) (with_tokens (<[rq_key r := token]> (ts_tokens st)) st)).
Proof.
  intros [Hn Hr] Hl Hpc. destruct (Hn id r token Hl Hpc) as (Hc & Hown & Hothers).
  assert (Hcache : forall s, tk_Token token <> s -> not_cached st s ->
    not_cached (with_request id (at_pc (AtReap token) r) (with_tokens (<[rq_key r := token]> (ts_tokens st)) st)) s).
  { intros s Hs H k token'. cbn. destruct (decide (rq_key r = k)) as [<-|Hk]; [rewrite lookup_insert_eq; by intros [= <-]|].
    rewrite lookup_insert_ne by done. apply H. }
  assert (Hhand : forall s, tk_Token token <> s -> not_in_hand (at_pc (AtReap token) r) s) by (intros s Hs token' [= <-]; done).
  split; cbn [ts_requests with_request with_tokens].
  - intros i q token'. destruct (decide (id = i)) as [<-|Hi]; [rewrite lookup_insert_eq; by intros [= <-]|].
    rewrite lookup_insert_ne by done. intros Hq Hp. destruct (Hn i q token' Hq Hp) as (H1 & H2 & H3).
    assert (Hne : tk_Token token <> tk_Token token').
    { destruct (H3 id r) as [H4 _]; [done|done|]. apply H4. by rewrite Hpc. }
    split; [auto|]. split; [done|]. intros j q' Hj. destruct (decide (id = j)) as [<-|Hj'].
    + rewrite lookup_insert_eq. intros [= <-]. split; [auto|]. by apply (H3 id r).
    + rewrite lookup_insert_ne by done. by apply H3.
  - intros i q token'. destruct (decide (id = i)) as [<-|Hi].
    + rewrite lookup_insert_eq. intros [= <-] Hrej. cbn in Hrej. destruct (Hr id r token' Hl Hrej) as [H1 _].
      assert (Hne : tk_Token token <> tk_Token token') by (intros E; by apply (Hown token' Hrej)). auto.
    + rewrite lookup_insert_ne by done. intros Hq Hrej. destruct (Hr i q token' Hq Hrej) as [H1 H2].
      destruct (Hothers i q) as [_ H4]; [done|done|]. split; [|done]. apply Hcache; [|done]. intros E. by apply (H4 token' Hrej).
Qed.

(** The refused token leaves the cache. *)
Lemma apart_delete st id r token resp err :
  getter_ok st -> distinct_tokens st -> tokens_apart st -> ts_requests st !! id = Some r -> rq_pc r = AtDelete token resp err ->
  tokens_apart (with_request id (mkRequest (rq_key r) true (ts_now st) (Some token) AtRead)
    (with_tokens (TokenGetter_Delete (rq_key r) (ts_tokens st)) st)).
Proof.
  intros Hok Hd [Hn Hr] Hl Hpc. set (r' := mkRequest (rq_key r) true (ts_now st) (Some token) AtRead).
  set (st' := with_request id r' (with_tokens (TokenGetter_Delete (rq_key r) (ts_tokens st)) st)).
  assert (Hcache : forall s, not_cached st s -> not_cached st' s).
  { intros s H k token' Hk. cbn in Hk. unfold TokenGetter_Delete in Hk. apply lookup_delete_Some in Hk as [_ Hk]. by apply (H k). }
  split; cbn [ts_requests with_request with_tokens st'].
  - intros i q token'. destruct (decide (id = i)) as [<-|Hi]; [rewrite lookup_insert_eq; by intros [= <-]|].
    rewrite lookup_insert_ne by done. intros Hq Hp. destruct (Hn i q token' Hq Hp) as (H1 & H2 & H3).
    split; [auto|]. split; [done|]. intros j q' Hj. destruct (decide (id = j)) as [<-|Hj'].
    + rewrite lookup_insert_eq. intros [= <-]. split; [done|]. intros t [= <-]. destruct (H3 id r) as [H4 _]; [done|done|].
      apply H4. by rewrite Hpc.
    + rewrite lookup_insert_ne by done. by apply H3.
  - intros i q token'. destruct (decide (id = i)) as [<-|Hi].
    + rewrite lookup_insert_eq. intros [= <-] [= <-]. split; [|done]. intros k token' Hk. cbn in Hk. unfold TokenGetter_Delete in Hk.
      apply lookup_delete_Some in Hk as [Hne Hk]. intros E.
      destruct (go_cache st Hok k token' Hk) as [t1 Ht1].
      destruct (ro_token st r (go_requests st Hok id r Hl) token) as [t2 Ht2]; [by rewrite Hpc|].
      by destruct (same_token st _ _ _ _ _ _ Hd Ht2 Ht1) as [? _].
    + rewrite lookup_insert_ne by done. intros Hq Hrej. destruct (Hr i q token' Hq Hrej) as [H1 H2]. auto.
Qed.

(** A new token is unknown to everybody else. *)
Lemma apart_create st id r token :
  getter_ok st -> tokens_apart st -> ts_requests st !! id = Some r -> rq_pc r = AtCreate ->
  let st' := mkGetter (ts_now st) (ts_tokens st) (<[id := at_pc (AtStore token) r]> (ts_requests st))
               (ts_issued st ++ [(ts_now st, rq_key r, token)]) in
  distinct_tokens st' -> tokens_apart st'.
Proof.
  intros Hok [Hn Hr] Hl Hpc st' Hd.
  assert (Hnew : forall k token', issued_for st k token' -> tk_Token token' <> tk_Token token).
  { intros k token' [t Ht] E. unfold distinct_tokens in Hd. cbn in Hd. rewrite map_app in Hd. apply NoDup_app in Hd as (_ & Hd & _).
    apply (Hd (tk_Token token)); [|by left]. apply list_elem_of_fmap. exists (t, k, token'). by rewrite <- E. }
  assert (Hcache : not_cached st (tk_Token token)) by (intros k token' Hk; by eapply Hnew, go_cache).
  assert (Hknown : forall j q, ts_requests st !! j = Some q -> not_in_hand q (tk_Token token) /\ not_refused q (tk_Token token)).
  { intros j q Hq. pose proof (go_requests st Hok j q Hq) as Hro. split; intros t Ht; eapply Hnew;
      [by eapply ro_token|by eapply ro_rejected]. }
  split; cbn [ts_requests st'].
  - intros i q token'. destruct (decide (id = i)) as [<-|Hi].
    + rewrite lookup_insert_eq. intros [= <-] [= <-]. split; [exact Hcache|]. split; [by apply (Hknown id r)|].
      intros j q' Hj. rewrite lookup_insert_ne by done. apply Hknown.
    + rewrite lookup_insert_ne by done. intros Hq Hp. destruct (Hn i q token' Hq Hp) as (H1 & H2 & H3).
      split; [exact H1|]. split; [done|]. intros j q' Hj. destruct (decide (id = j)) as [<-|Hj'].
      * rewrite lookup_insert_eq. intros [= <-]. split; [|by apply (H3 id r)]. intros t [= <-] E.
        destruct (Hknown i q Hq) as [H4 _]. apply (H4 token'); [by rewrite Hp|done].
      * rewrite lookup_insert_ne by done. by apply H3.
  - intros i q token'. destruct (decide (id = i)) as [<-|Hi].
    + rewrite lookup_insert_eq. intros [= <-] Hrej. cbn in Hrej. destruct (Hr id r token' Hl Hrej) as [H1 _]. split; [exact H1|].
      intros t [= <-] E. destruct (Hknown id r Hl) as [_ H4]. by apply (H4 token').
    + rewrite lookup_insert_ne by done. intros Hq Hrej. by apply (Hr i q).
Qed.

Lemma step_distinct st a st' : auth_step rotation st a = Some st' -> distinct_tokens st' -> distinct_tokens st.
Proof.
  assert (H : forall l, ts_issued st' = ts_issued st ++ l -> distinct_tokens st' -> distinct_tokens st).
  { intros l E. unfold distinct_tokens. rewrite E, map_app. intros Hd. by apply NoDup_app in Hd as (? & _). }
  assert (H0 : ts_issued st' = ts_issued st -> distinct_tokens st' -> distinct_tokens st) by (intros E; apply (H []); by rewrite app_nil_r).
  intros Hst. destruct a as [ns|id key|id|id answer|id resp err]; cbn in Hst.
  - destruct (0 <=? ns); [|done]. apply H0. by injection Hst as <-.
  - destruct (ts_requests st !! id); [done|]. apply H0. by injection Hst as <-.
  - apply H0. destruct (ts_requests st !! id) as [r|]; [|done]. unfold request_step in Hst.
    destruct (rq_pc r) as [|token| |token|token|token|token resp err|resp err]; try done; try (by injection Hst as <-).
    destruct (needs_token _ _ _); [by injection Hst as <-|]. destruct token; [|done]. by injection Hst as <-.
  - destruct (ts_requests st !! id) as [r|]; [|done]. destruct (rq_pc r); try done.
    destruct (getToken _ _) as [err|token]; [apply H0; by injection Hst as <-|].
    apply (H [(ts_now st, rq_key r, token)]). by injection Hst as <-.
  - destruct (ts_requests st !! id) as [r|]; [|done]. destruct (rq_pc r); try done. apply H0. by injection Hst as <-.
Qed.

Lemma step_apart st a st' :
  getter_ok st -> tokens_apart st -> auth_step rotation st a = Some st' -> distinct_tokens st' -> tokens_apart st'.
Proof.
  intros Hok Ha Hst Hd. pose proof (step_distinct _ _ _ Hst Hd) as Hd0.
  destruct a as [ns|id key|id|id answer|id resp err]; cbn in Hst.
  - destruct (0 <=? ns); [|done]. injection Hst as <-. by destruct Ha.
  - destruct (ts_requests st !! id) eqn:El; [done|]. injection Hst as <-. destruct Ha as [Hn Hr].
    split; cbn [ts_requests with_request]; intros i q token; (destruct (decide (id = i)) as [<-|Hi];
      [rewrite lookup_insert_eq; by intros [= <-]|rewrite lookup_insert_ne by done; intros Hq Ht]).
    + destruct (Hn i q token Hq Ht) as (H1 & H2 & H3). split; [done|]. split; [done|]. intros j q' Hj.
      destruct (decide (id = j)) as [<-|Hj']; [rewrite lookup_insert_eq; by intros [= <-]|].
      rewrite lookup_insert_ne by done. by apply H3.
    + by apply (Hr i q).
  - destruct (ts_requests st !! id) as [r|] eqn:El; [|done]. unfold request_step in Hst.
    destruct (rq_pc r) as [|token| |token|token|token|token resp err|resp err] eqn:Ep; try done.
    + injection Hst as <-. eapply (apart_moves st _ id r); [done|done|reflexivity|..]; rewrite ?Ep; try done. cbn. eauto.
    + destruct (needs_token rotation (ts_now st) token).
      { injection Hst as <-. eapply (apart_moves st _ id r); [done|done|reflexivity|..]; rewrite ?Ep; done. }
      destruct token as [token|]; [|done]. injection Hst as <-. eapply (apart_moves st _ id r); [done|done|reflexivity|..]; rewrite ?Ep; try done. cbn. auto.
    + injection Hst as <-. by apply apart_store.
    + injection Hst as <-. eapply (apart_moves st _ id r); [done|done|reflexivity|..]; rewrite ?Ep; try done; cbn; [|auto].
      intros k token' Hk. unfold reapExpiredTokens in Hk. by apply map_lookup_filter_Some in Hk as [? _].
    + injection Hst as <-. by eapply apart_delete.
  - destruct (ts_requests st !! id) as [r|] eqn:El; [|done]. destruct (rq_pc r) eqn:Ep; try done.
    destruct (getToken _ _) as [err|token]; injection Hst as <-; [|by apply apart_create].
    eapply (apart_moves st _ id r); [done|done|reflexivity|..]; rewrite ?Ep; done.
  - destruct (ts_requests st !! id) as [r|] eqn:El; [|done]. destruct (rq_pc r) eqn:Ep; try done. injection Hst as <-.
    eapply (apart_moves st _ id r); [done|done|reflexivity|..]; rewrite ?Ep; try done; cbn; destruct (is_refused r resp); try done. cbn. auto.
Qed.

(** C19. When the API server refuses a token, RoundTrip retries with another
    one: provided the server never issues a token twice, the second attempt
    never carries the token the first was refused with, whatever other
    requests store or delete in the meantime. *)
Theorem retry_uses_another_token st id r token :
  auth_reachable rotation st -> distinct_tokens st ->
  ts_requests st !! id = Some r -> rq_retry r = true -> rq_pc r = AtSend token ->
  exists refused, rq_rejected r = Some refused /\ issued_for st (rq_key r) refused /\ tk_Token token <> tk_Token refused.
Proof.
  intros Hr Hd Hl Hretry Hp. pose proof (reachable_ok st Hr) as Hok.
  assert (Ha : tokens_apart st).
  { clear Hl Hp Hretry Hok. induction Hr as [now Hn|st a st' Hr IH Hst].
    - split; intros id' r'; cbn; by rewrite lookup_empty.
    - eapply step_apart; [by apply reachable_ok|apply IH; by eapply step_distinct|done|done]. }
  pose proof (go_requests st Hok id r Hl) as Hro. destruct (proj1 (ro_retry st r Hro) Hretry) as [refused Href].
  exists refused. split; [done|]. split; [by apply (ro_rejected st r Hro)|].
  destruct (ta_refused st Ha id r refused Hl Href) as [_ Hhand]. apply Hhand. by rewrite Hp.
Qed.

(** ** Every request returns *)

Definition own_action (id : nat) (a : auth_action) : Prop :=
  match a with AcStep i | AcCreated i _ | AcAnswered i _ _ => i = id | AcPass _ | AcRequest _ _ => False end.

#[export] Instance own_action_dec id a : Decision (own_action id a).
Proof. destruct a; cbn; apply _. Defined.

(** How many steps a request has left at most. *)
Definition steps_left (r : request) : nat :=
  (if rq_retry r then 0 else 8) +
  match rq_pc r with
  | AtRead => 7 | AtCheck _ => 6 | AtCreate => 5 | AtStore _ => 4 | AtReap _ => 3 | AtSend _ => 2 | AtDelete _ _ _ => 1
  | Returned _ _ => 0
  end.

Lemma own_step st a st' id r :
  getter_ok st -> auth_step rotation st a = Some st' -> own_action id a -> ts_requests st !! id = Some r ->
  exists r', ts_requests st' !! id = Some r' /\ (steps_left r' < steps_left r)%nat.
Proof.
  intros Hok Hst Ho Hl. pose proof (go_requests st Hok id r Hl) as Hro. destruct r as [key retry since rejected pc].
  destruct a as [ns|i key'|i|i answer|i resp err]; cbn in Ho; try done; subst i; cbn in Hst; rewrite Hl in Hst.
  - unfold request_step in Hst. cbn in Hst.
    destruct pc as [|token| |token|token|token|token resp err|resp err]; try done;
      try (injection Hst as <-; cbn; rewrite lookup_insert_eq; eexists; split; [done|]; cbn; lia).
    + destruct (needs_token _ _ _); [|destruct token; [|done]];
        (injection Hst as <-; cbn; rewrite lookup_insert_eq; eexists; split; [done|]; cbn; lia).
    + injection Hst as <-. cbn. rewrite lookup_insert_eq. eexists. split; [done|]. pose proof (ro_first _ _ Hro token resp err eq_refl) as Hf.
      cbn in Hf. subst retry. cbn. lia.
  - destruct pc; try done. cbn in Hst. destruct (getToken _ _);
      (injection Hst as <-; cbn; rewrite lookup_insert_eq; eexists; split; [done|]; cbn; lia).
  - destruct pc; try done. cbn in Hst. injection Hst as <-. cbn. rewrite lookup_insert_eq. eexists. split; [done|].
    destruct (is_refused _ _); cbn; lia.
Qed.

Lemma other_step st a st' id r :
  auth_step rotation st a = Some st' -> ~ own_action id a -> ts_requests st !! id = Some r -> ts_requests st' !! id = Some r.
Proof.
  intros Hst Ho Hl.
  assert (Hins : forall i q, i <> id -> <[i := q]> (ts_requests st) !! id = Some r) by (intros i q Hi; by rewrite lookup_insert_ne).
  destruct a as [ns|i key'|i|i answer|i resp err]; cbn in Ho, Hst.
  - destruct (0 <=? ns); [|done]. by injection Hst as <-.
  - destruct (ts_requests st !! i) eqn:Ei; [done|]. injection Hst as <-. apply Hins. congruence.
  - destruct (ts_requests st !! i) as [q|]; [|done]. unfold request_step in Hst.
    destruct (rq_pc q) as [|token| |token|token|token|token resp err|resp err]; try done; try (injection Hst as <-; by apply Hins).
    destruct (needs_token _ _ _); [|destruct token; [|done]]; (injection Hst as <-; by apply Hins).
  - destruct (ts_requests st !! i) as [q|]; [|done]. destruct (rq_pc q); try done.
    destruct (getToken _ _); (injection Hst as <-; by apply Hins).
  - destruct (ts_requests st !! i) as [q|]; [|done]. destruct (rq_pc q); try done. injection Hst as <-. by apply Hins.
Qed.

(** A request that has not returned can go on. *)
Lemma request_progress st id r :
  0 <= rotation -> getter_ok st -> ts_requests st !! id = Some r -> (forall resp err, rq_pc r <> Returned resp err) ->
  exists a st', own_action id a /\ auth_step rotation st a = Some st'.
Proof.
  intros Hrot Hok Hl Hn. destruct r as [key retry since rejected pc]. cbn in Hn.
  assert (Hstep : forall st', request_step rotation id (mkRequest key retry since rejected pc) st = Some st' ->
            exists a st', own_action id a /\ auth_step rotation st a = Some st').
  { intros st' H. exists (AcStep id), st'. split; [done|]. cbn. by rewrite Hl. }
  destruct pc as [|token| |token|token|token|token resp err|resp err]; try (by eapply Hstep).
  - destruct (needs_token rotation (ts_now st) token) eqn:En; [eapply Hstep; unfold request_step; cbn; by rewrite En|].
    destruct token as [token|]; [eapply Hstep; unfold request_step; cbn; by rewrite En|].
    apply Z.ltb_ge in En. pose proof (go_now st Hok). unfold zeroTime in En. lia.
  - exists (AcCreated id (inl (ENew "unavailable"))). eexists. split; [done|]. cbn. by rewrite Hl.
  - exists (AcAnswered id None None). eexists. split; [done|]. cbn. by rewrite Hl.
  - by destruct (Hn resp err).
Qed.

(** C38. RoundTrip always ends: a request makes at most fifteen steps, in
    whatever way the steps of others come between them; and from every state
    the request can go on until it has returned, so that no step is stuck on a
    missing token. *)
Theorem RoundTrip_returns st id r :
  0 <= rotation -> auth_reachable rotation st -> ts_requests st !! id = Some r ->
  (forall acts st', auth_run rotation acts st = Some st' -> (length (filter (own_action id) acts) <= steps_left r <= 15)%nat) /\
  exists acts st' r' resp err, auth_run rotation acts st = Some st' /\ Forall (own_action id) acts /\
    ts_requests st' !! id = Some r' /\ rq_pc r' = Returned resp err.
Proof.
  intros Hrot Hr Hl. split.
  - assert (H15 : (steps_left r <= 15)%nat) by (destruct r as [? [] ? ? []]; cbn; lia). intros acts st' Hrun. split; [|done]. clear H15.
    revert st r Hr Hl Hrun. induction acts as [|a acts IH]; intros st r Hr Hl Hrun; [cbn; lia|]. cbn in Hrun.
    destruct (auth_step rotation st a) as [st1|] eqn:Es; [|done].
    assert (Hr1 : auth_reachable rotation st1) by by eapply auth_next.
    rewrite filter_cons. destruct (decide (own_action id a)) as [Ho|Ho].
    + destruct (own_step st a st1 id r (reachable_ok st Hr) Es Ho Hl) as (r1 & Hl1 & Hlt). specialize (IH st1 r1 Hr1 Hl1 Hrun). cbn. lia.
    + apply (IH st1 r Hr1); [|done]. by eapply other_step.
  - remember (steps_left r) as n eqn:En. revert st r Hr Hl En. induction n as [n IH] using lt_wf_ind. intros st r Hr Hl ->.
    assert (Hpc : (exists resp err, rq_pc r = Returned resp err) \/ (forall resp err, rq_pc r <> Returned resp err))
      by (destruct (rq_pc r); eauto; by right).
    destruct Hpc as [(resp & err & Hp)|Hn].
    + exists [], st, r, resp, err. done.
    + destruct (request_progress st id r Hrot (reachable_ok st Hr) Hl) as (a & st1 & Ho & Es); [done|].
      destruct (own_step st a st1 id r (reachable_ok st Hr) Es Ho Hl) as (r1 & Hl1 & Hlt).
      destruct (IH _ Hlt st1 r1) as (acts & st' & r' & resp & err & Hrun & Hf & H1 & H2); [by eapply auth_next|done|done|].
      exists (a :: acts), st', r', resp, err. cbn. rewrite Es. split; [done|]. split; [by constructor|done].
Qed.

End Tokens.

(** ** Whose rights a client has *)

(** A client for an extension acts with the manager's own credentials only to
    impersonate the extension's synthetic user, and only if that is enabled
    and asked for; any other client acts as the service account the extension
    names, in its install namespace. *)
Lemma client_rights SyntheticPermissions ext c :
  clientRestConfigMapper SyntheticPermissions (ExtensionObject ext) (Some c) =
    inr (if decide (SyntheticPermissions = true /\ es_ServiceAccount (ext_Spec ext) = syntheticServiceAccountName)
         then mkRestConfig (rc_Credentials c) (rc_Wrappers c ++ [Impersonating ("olm:clusterextension:" +:+ ext_Name ext) ["olm:clusterextensions"]])
         else mkRestConfig false [TokenInjecting (mkNN (es_Namespace (ext_Spec ext)) (es_ServiceAccount (ext_Spec ext)))]).
Proof.
  unfold clientRestConfigMapper. destruct SyntheticPermissions; [|by rewrite decide_False by by intros [? _]].
  unfold SyntheticUserRestConfigMapper. cbn. destruct (decide (es_ServiceAccount (ext_Spec ext) <> syntheticServiceAccountName)) as [Hne|He].
  - by rewrite decide_False by by intros [_ ?].
  - apply dec_stable in He. by rewrite decide_True.
Qed.

(** ** Witnesses *)

Module AuthSamples.

Definition sa_key : NamespacedName := mkNN "argocd" "installer".
Definition one_hour : Z := 3600 * 1000000000.
Definition six_minutes : Z := 360 * 1000000000.
Definition first_token : TokenRequestStatus := mkToken "first" one_hour.
Definition second_token : TokenRequestStatus := mkToken "second" one_hour.

(** A request whose first token is refused, up to its second attempt. *)
Definition refused_run : list auth_action :=
  [AcRequest 0 sa_key; AcStep 0; AcStep 0; AcCreated 0 (inr first_token); AcStep 0; AcStep 0;
   AcAnswered 0 (Some StatusUnauthorized) None; AcStep 0; AcStep 0; AcStep 0; AcCreated 0 (inr second_token); AcStep 0; AcStep 0].

Definition after_refusal : getter_state := default (NewTokenGetter 0) (auth_run six_minutes refused_run (NewTokenGetter 0)).
Definition retried : request := mkRequest sa_key true 0 (Some first_token) (AtSend second_token).

Lemma run_reachable acts : forall st st', auth_reachable six_minutes st -> auth_run six_minutes acts st = Some st' -> auth_reachable six_minutes st'.
Proof.
  induction acts as [|a acts IH]; intros st st' Hr Hrun; cbn in Hrun; [by injection Hrun as <-|].
  destruct (auth_step six_minutes st a) as [st1|] eqn:Es; [|done]. apply (IH st1); [by eapply auth_next|done].
Qed.

Lemma after_refusal_reachable : auth_reachable six_minutes after_refusal.
Proof. apply (run_reachable refused_run (NewTokenGetter 0)); [by constructor|]. vm_compute. reflexivity. Qed.

Lemma after_refusal_request : ts_requests after_refusal !! 0%nat = Some retried.
Proof. vm_compute. reflexivity. Qed.

Lemma sent_token_genuine_witness :
  issued_for after_refusal sa_key second_token /\ fresh six_minutes after_refusal retried second_token.
Proof.
  apply (sent_token_genuine six_minutes after_refusal 0 retried second_token);
    [exact after_refusal_reachable|exact after_refusal_request|reflexivity].
Defined.

Lemma retry_uses_another_token_witness :
  exists refused, rq_rejected retried = Some refused /\ issued_for after_refusal sa_key refused /\ "second" <> tk_Token refused.
Proof.
  apply (retry_uses_another_token six_minutes after_refusal 0 retried second_token);
    [exact after_refusal_reachable| |exact after_refusal_request|reflexivity|reflexivity].
  apply (bool_decide_unpack _). vm_compute. exact I.
Defined.

Lemma RoundTrip_returns_witness :
  exists acts st' r' resp err, auth_run six_minutes acts after_refusal = Some st' /\ Forall (own_action 0) acts /\
    ts_requests st' !! 0%nat = Some r' /\ rq_pc r' = Returned resp err.
Proof.
  apply (RoundTrip_returns six_minutes after_refusal 0 retried);
    [unfold six_minutes; lia|exact after_refusal_reachable|exact after_refusal_request].
Defined.

(** A refusal deletes whatever token the cache holds for the account by then,
    also one that another request has renewed: that costs an issue, no more. *)
Lemma renewed_token_deleted :
  match auth_run six_minutes
    ([AcRequest 0 sa_key; AcStep 0; AcStep 0; AcCreated 0 (inr first_token); AcStep 0; AcStep 0;
      AcPass one_hour; AcRequest 1 sa_key; AcStep 1; AcStep 1; AcCreated 1 (inr (mkToken "second" (2 * one_hour))); AcStep 1;
      AcAnswered 0 (Some StatusUnauthorized) None; AcStep 0]) (NewTokenGetter 0) with
  | Some st => ts_tokens st !! sa_key = None
  | None => False
  end.
Proof. vm_compute. reflexivity. Qed.

End AuthSamples.
