(* ===== verification/PullSecret.v ===== *)
(** * Pull secrets

    src/internal/shared/controllers/pull_secret_controller.go: the reconciler
    that writes the pull secrets of the manager into the file the image library
    reads, and the filters of its events;
    src/internal/shared/util/pullsecretcache/pullsecretcache.go: which secrets
    the manager's cache holds; src/internal/shared/util/sa/serviceaccount.go:
    the service account the manager runs as.

    The answers of the API server during one reconciliation are those of one
    moment.  encoding/json, the JWT library and the operating system are the
    environment [PsEnv]; renameio replaces the file at once or not at all. *)

From Stdlib Require Import Ascii.
From S2P Require Import Prelude GoErrors ApiTypes Rbac.

(** type authEntries struct *)
Record authEntries := mkAuth { au_Auth : string; au_Email : string }.

#[export] Instance authEntries_eq_dec : EqDecision authEntries.
Proof. solve_decision. Defined.

(** type dockerCfg map[string]authEntries; dockerConfigJSON has one as its only
    field. *)
Definition dockerCfg : Type := gmap string authEntries.

(** The data of a Secret. *)
Definition secret_data : Type := gmap string string.

Record PsEnv := mkPsEnv {
  ps_GetSecret : NamespacedName -> result secret_data;
  (* the names of the image pull secrets of a service account *)
  ps_GetServiceAccount : NamespacedName -> result (list string);
  ps_Unmarshal_dockerconfigjson : string -> result dockerCfg;
  ps_Unmarshal_dockercfg : string -> result dockerCfg;
  ps_Marshal : dockerCfg -> result string;
  ps_WriteFile : string -> option error;
  ps_Remove : option error;
}.

(** type PullSecretReconciler struct, and the file it keeps *)
Record PullSecretReconciler := mkReconciler {
  SecretKey : option NamespacedName;
  ServiceAccountKey : NamespacedName;
  ServiceAccountPullSecrets : list NamespacedName;
  AuthFile : option string;
}.

Definition with_pull_secrets (l : list NamespacedName) (r : PullSecretReconciler) : PullSecretReconciler :=
  mkReconciler (SecretKey r) (ServiceAccountKey r) l (AuthFile r).
Definition with_auth_file (f : option string) (r : PullSecretReconciler) : PullSecretReconciler :=
  mkReconciler (SecretKey r) (ServiceAccountKey r) (ServiceAccountPullSecrets r) f.

Section Reconciler.
Context (E : PsEnv).

(** func (r *PullSecretReconciler) getSecret(ctx, logger, nn) *)
Definition ps_getSecret (nn : NamespacedName) : result (option secret_data) :=
  match ps_GetSecret E nn with
  | inr secret => inr (Some secret)
  | inl err => if has_kind KNotFound err then inr None else inl err
  end.

(** The secrets of a list of names that exist, in order. *)
Fixpoint get_secrets (names : list NamespacedName) : result (list secret_data) :=
  match names with
  | [] => inr []
  | nn :: names =>
      match ps_getSecret nn with
      | inl err => inl err
      | inr secret =>
          match get_secrets names with
          | inl err => inl err
          | inr secrets => inr (match secret with Some s => s :: secrets | None => secrets end)
          end
      end
  end.

(** The body of the loop of writeSecretToFile: the entries of one secret. *)
Definition secret_auths (s : secret_data) : result dockerCfg :=
  match s !! ".dockerconfigjson" with
  | Some secretData => ps_Unmarshal_dockerconfigjson E secretData
  | None =>
      match s !! ".dockercfg" with
      | Some secretData => ps_Unmarshal_dockercfg E secretData
      | None => inr ∅
      end
  end.

(** The loop itself: entries of later secrets win. *)
Fixpoint collect_auths (secrets : list secret_data) (auths : dockerCfg) : result dockerCfg :=
  match secrets with
  | [] => inr auths
  | s :: rest =>
      match secret_auths s with
      | inl err => inl err
      | inr m => collect_auths rest (m ∪ auths)
      end
  end.

(** func (r *PullSecretReconciler) writeSecretToFile(logger, secrets) error *)
Definition writeSecretToFile (secrets : list secret_data) (r : PullSecretReconciler) : option error * PullSecretReconciler :=
  match collect_auths secrets ∅ with
  | inl err => (Some err, r)
  | inr auths =>
      match ps_Marshal E auths with
      | inl err => (Some (EWrap "failed to marshal secret data: " err ""), r)
      | inr data =>
          match ps_WriteFile E data with
          | Some err => (Some (EWrap "failed to write secret data to file: " err ""), r)
          | None => (None, with_auth_file (Some data) r)
          end
      end
  end.

(** func (r *PullSecretReconciler) deleteSecretFile(logger) error *)
Definition deleteSecretFile (r : PullSecretReconciler) : option error * PullSecretReconciler :=
  match AuthFile r with
  | None => (None, r)
  | Some _ =>
      match ps_Remove E with
      | Some err => (Some (EWrap "failed to delete secret file: " err ""), r)
      | None => (None, with_auth_file None r)
      end
  end.

(** The names of the pull secrets of the service account. *)
Definition pull_secret_names (key : NamespacedName) (ips : list string) : list NamespacedName :=
  map (mkNN (nn_Namespace key)) ips.

(** The end of Reconcile. *)
Definition save_secrets (secrets : list secret_data) (r : PullSecretReconciler) : option error * PullSecretReconciler :=
  match secrets with
  | [] => deleteSecretFile r
  | _ => writeSecretToFile secrets r
  end.

(** func (r *PullSecretReconciler) Reconcile(ctx, _) *)
Definition PullSecret_Reconcile (r : PullSecretReconciler) : option error * PullSecretReconciler :=
  match (match SecretKey r with Some key => get_secrets [key] | None => inr [] end) with
  | inl err => (Some err, r)
  | inr secrets =>
      match ps_GetServiceAccount E (ServiceAccountKey r) with
      | inl err => if has_kind KNotFound err then save_secrets secrets r else (Some err, r)
      | inr ips =>
          let pullSecrets := pull_secret_names (ServiceAccountKey r) ips in
          match get_secrets pullSecrets with
          | inl err => (Some err, r)
          | inr more => save_secrets (secrets ++ more) (with_pull_secrets pullSecrets r)
          end
      end
  end.

End Reconciler.

(** func newSecretPredicate(r *PullSecretReconciler) predicate.Predicate *)
Definition newSecretPredicate (r : PullSecretReconciler) (nn : NamespacedName) : bool :=
  bool_decide (SecretKey r = Some nn) || existsb (fun ps => bool_decide (nn = ps)) (ServiceAccountPullSecrets r).

(** func newNamespacedPredicate(key) predicate.Predicate *)
Definition newNamespacedPredicate (key nn : NamespacedName) : bool :=
  bool_decide (nn_Name nn = nn_Name key) && bool_decide (nn_Namespace nn = nn_Namespace key).

(** func SetupPullSecretCache(cacheOptions, globalPullSecretKey, saKey): by
    namespace, the name of the only object that is cached, or all of them. *)
Definition serviceaccount_cache (saKey : NamespacedName) : gmap string (option string) :=
  {[ nn_Namespace saKey := Some (nn_Name saKey) ]}.
Definition secret_cache (globalPullSecretKey : option NamespacedName) (saKey : NamespacedName) : gmap string (option string) :=
  let namespaces := {[ nn_Namespace saKey := None ]} in
  match globalPullSecretKey with
  | Some key =>
      if decide (nn_Namespace key <> nn_Namespace saKey) then <[nn_Namespace key := Some (nn_Name key)]> namespaces
      else namespaces
  | None => namespaces
  end.

(** Whether a cache with such options holds an object. *)
Definition in_cache (namespaces : gmap string (option string)) (nn : NamespacedName) : bool :=
  match namespaces !! nn_Namespace nn with
  | Some None => true
  | Some (Some name) => bool_decide (name = nn_Name nn)
  | None => false
  end.

(** func getServiceAccountInternal(data, err), with the subject of the token
    as the JWT library gives it. *)
Definition getServiceAccountInternal (GetSubject : string -> result string) (data : result string) : result NamespacedName :=
  match data with
  | inl err => inl err
  | inr data =>
      match GetSubject data with
      | inl err => inl err
      | inr subject =>
          match strings_Split (ascii_of_nat 58) subject with
          | [_; _; ns; name] =>
              if decide (ns = EmptyString \/ name = EmptyString) then inl (ENew ("badly formatted subject: " +:+ subject))
              else inr (mkNN ns name)
          | _ => inl (ENew ("badly formatted subject: " +:+ subject))
          end
      end
  end.

(** ** What the file holds *)

Section Props.
Context (E : PsEnv).

(** The secrets a reconciliation looks up, in order. *)
Definition looked_up (r : PullSecretReconciler) : list NamespacedName :=
  match SecretKey r with Some key => [key] | None => [] end ++
  match ps_GetServiceAccount E (ServiceAccountKey r) with
  | inr ips => pull_secret_names (ServiceAccountKey r) ips
  | inl _ => []
  end.

(** Those that exist. *)
Definition existing_secrets (names : list NamespacedName) : list secret_data :=
  omap (fun nn => match ps_GetSecret E nn with inr s => Some s | inl _ => None end) names.

(** The entries of a list of secrets, the last one winning; what cannot be
    read has none. *)
Definition auths_of (secrets : list secret_data) : dockerCfg :=
  foldl (fun acc s => match secret_auths E s with inr m => m ∪ acc | inl _ => acc end) ∅ secrets.

Lemma get_secrets_exist names secrets : get_secrets E names = inr secrets -> secrets = existing_secrets names.
Proof.
  revert secrets. induction names as [|nn names IH]; intros secrets; cbn; [by intros [= <-]|].
  unfold ps_getSecret. destruct (ps_GetSecret E nn) as [err|s].
  - destruct (has_kind KNotFound err); [|done]. destruct (get_secrets E names) as [|l]; [done|]. intros [= <-]. by apply IH.
  - destruct (get_secrets E names) as [|l]; [done|]. intros [= <-]. f_equal. by apply IH.
Qed.

Lemma collect_auths_of secrets auths acc :
  collect_auths E secrets acc = inr auths ->
  auths = foldl (fun acc s => match secret_auths E s with inr m => m ∪ acc | inl _ => acc end) acc secrets.
Proof.
  revert acc. induction secrets as [|s rest IH]; intros acc; cbn; [by intros [= ->]|].
  destruct (secret_auths E s) as [|m]; [done|]. apply IH.
Qed.

Lemma save_secrets_file secrets r err r' :
  save_secrets E secrets r = (err, r') ->
  (err = None -> match secrets with
                 | [] => AuthFile r' = None
                 | _ => exists data, ps_Marshal E (auths_of secrets) = inr data /\ AuthFile r' = Some data
                 end) /\
  (err <> None -> AuthFile r' = AuthFile r) /\
  ServiceAccountPullSecrets r' = ServiceAccountPullSecrets r /\ SecretKey r' = SecretKey r /\ ServiceAccountKey r' = ServiceAccountKey r.
Proof.
  unfold save_secrets, deleteSecretFile, writeSecretToFile. destruct secrets as [|s rest].
  - destruct (AuthFile r) as [f|] eqn:Ef; [destruct (ps_Remove E)|]; intros [= <- <-]; by split_and!.
  - destruct (collect_auths E (s :: rest) ∅) as [e|auths] eqn:Ec; [intros [= <- <-]; by split_and!|].
    apply collect_auths_of in Ec. destruct (ps_Marshal E auths) as [e|data] eqn:Em; [intros [= <- <-]; by split_and!|].
    destruct (ps_WriteFile E data); intros [= <- <-]; split_and!; try done. intros _. exists data. by rewrite Ec in Em.
Qed.

(** After a successful reconciliation the auth file holds exactly the
    registry entries of the pull secrets that exist, a later secret of the
    service account winning over an earlier one and all of them over the
    configured secret, or is gone if none exists; a
    reconciliation that fails leaves the file as it was. *)
Theorem pull_secrets_written r err r' :
  PullSecret_Reconcile E r = (err, r') ->
  (err = None ->
     match existing_secrets (looked_up r) with
     | [] => AuthFile r' = None
     | secrets => exists data, ps_Marshal E (auths_of secrets) = inr data /\ AuthFile r' = Some data
     end) /\
  (err <> None -> AuthFile r' = AuthFile r).
Proof.
  unfold PullSecret_Reconcile, looked_up. set (own := match SecretKey r with Some key => [key] | None => [] end).
  assert (Hown : match SecretKey r with Some key => get_secrets E [key] | None => inr [] end = get_secrets E own)
    by (unfold own; by destruct (SecretKey r)).
  rewrite Hown. destruct (get_secrets E own) as [e|secrets] eqn:Eo; [intros [= <- <-]; by split|].
  apply get_secrets_exist in Eo as ->. destruct (ps_GetServiceAccount E (ServiceAccountKey r)) as [e|ips].
  - destruct (has_kind KNotFound e); [|intros [= <- <-]; by split]. rewrite app_nil_r. intros (H1 & H2 & _)%save_secrets_file.
    by destruct (existing_secrets own).
  - destruct (get_secrets E (pull_secret_names (ServiceAccountKey r) ips)) as [e|more] eqn:Em; [intros [= <- <-]; by split|].
    apply get_secrets_exist in Em as ->. intros (H1 & H2 & _)%save_secrets_file.
    assert (Happ : forall a b, existing_secrets (a ++ b) = existing_secrets a ++ existing_secrets b) by (intros; apply omap_app).
    rewrite <- Happ in *. by destruct (existing_secrets (own ++ _)).
Qed.

(** The same cluster with other secrets. *)
Definition with_secrets (f : NamespacedName -> result secret_data) : PsEnv :=
  mkPsEnv f (ps_GetServiceAccount E) (ps_Unmarshal_dockerconfigjson E) (ps_Unmarshal_dockercfg E) (ps_Marshal E)
    (ps_WriteFile E) (ps_Remove E).

Lemma get_secrets_ext f names :
  (forall nn, nn ∈ names -> f nn = ps_GetSecret E nn) -> get_secrets (with_secrets f) names = get_secrets E names.
Proof.
  induction names as [|nn names IH]; intros H; [done|]. cbn. unfold ps_getSecret. cbn. rewrite H by by left.
  rewrite IH; [done|]. intros x Hx. apply H. by right.
Qed.

Lemma collect_auths_ext f secrets acc : collect_auths (with_secrets f) secrets acc = collect_auths E secrets acc.
Proof. revert acc. induction secrets as [|s rest IH]; intros acc; [done|]. cbn. destruct (secret_auths _ s); [done|apply IH]. Qed.

Lemma save_secrets_ext f secrets r : save_secrets (with_secrets f) secrets r = save_secrets E secrets r.
Proof. unfold save_secrets, writeSecretToFile. destruct secrets; [done|]. by rewrite collect_auths_ext. Qed.

Lemma predicate_own r key : SecretKey r = Some key -> newSecretPredicate r key = true.
Proof. intros H. unfold newSecretPredicate. by rewrite H, bool_decide_eq_true_2. Qed.

Lemma predicate_listed r nn : nn ∈ ServiceAccountPullSecrets r -> newSecretPredicate r nn = true.
Proof.
  intros H. unfold newSecretPredicate. apply orb_true_iff. right. apply existsb_exists. exists nn.
  split; [by apply list_elem_of_In|by apply bool_decide_eq_true_2].
Qed.

(** Every secret that was looked up passes the filter afterwards, and is held
    by the manager's cache. *)
Lemma looked_up_watched r r' :
  PullSecret_Reconcile E r = (None, r') -> forall nn, nn ∈ looked_up r ->
  newSecretPredicate r' nn = true /\ in_cache (secret_cache (SecretKey r) (ServiceAccountKey r)) nn = true.
Proof.
  intros Hrec nn Hnn.
  assert (Hr' : SecretKey r' = SecretKey r /\
    forall ips, ps_GetServiceAccount E (ServiceAccountKey r) = inr ips -> ServiceAccountPullSecrets r' = pull_secret_names (ServiceAccountKey r) ips).
  { unfold PullSecret_Reconcile in Hrec. destruct (match SecretKey r with Some key => _ | None => _ end) as [|secrets]; [done|].
    destruct (ps_GetServiceAccount E (ServiceAccountKey r)) as [e|ips].
    - destruct (has_kind KNotFound e); [|done]. apply save_secrets_file in Hrec as (_ & _ & _ & Hk & _). by split.
    - destruct (get_secrets E _) as [|more]; [done|]. apply save_secrets_file in Hrec as (_ & _ & Hl & Hk & _).
      split; [done|]. by intros ? [= <-]. }
  destruct Hr' as [Hk Hl]. unfold looked_up in Hnn. apply elem_of_app in Hnn as [Hnn|Hnn].
  - destruct (SecretKey r) as [key|] eqn:Ek; [|by apply not_elem_of_nil in Hnn]. apply list_elem_of_singleton in Hnn as ->.
    split; [by apply predicate_own|]. unfold in_cache, secret_cache.
    destruct (decide (nn_Namespace key <> nn_Namespace (ServiceAccountKey r))) as [Hne|He].
    + rewrite lookup_insert_eq. by apply bool_decide_eq_true_2.
    + apply dec_stable in He. by rewrite He, lookup_singleton_eq.
  - destruct (ps_GetServiceAccount E (ServiceAccountKey r)) as [e|ips]; [by apply not_elem_of_nil in Hnn|].
    split; [apply predicate_listed; by rewrite (Hl ips)|]. apply list_elem_of_fmap in Hnn as (n & -> & _).
    unfold in_cache, secret_cache. cbn [nn_Namespace nn_Name]. destruct (SecretKey r) as [key|]; [|by rewrite lookup_singleton_eq].
    destruct (decide (nn_Namespace key <> nn_Namespace (ServiceAccountKey r))) as [Hne|He];
      [rewrite lookup_insert_ne by done|]; by rewrite lookup_singleton_eq.
Qed.

(** C40. No event that matters is filtered out: after a successful
    reconciliation the event filter lets pass every secret whose content could
    change what was written, so that whatever happens to the other secrets
    reconciling would give the same result; and the manager's cache, restricted
    as it is, holds all of those. *)
Theorem pull_secret_events_complete r r' f :
  PullSecret_Reconcile E r = (None, r') ->
  (forall nn, newSecretPredicate r' nn = true -> f nn = ps_GetSecret E nn) ->
  PullSecret_Reconcile (with_secrets f) r = (None, r') /\
  forall nn, nn ∈ looked_up r -> in_cache (secret_cache (SecretKey r) (ServiceAccountKey r)) nn = true.
Proof.
  intros Hrec Hf. pose proof (looked_up_watched r r' Hrec) as Hw. split; [|intros nn Hnn; by apply Hw].
  rewrite <- Hrec. unfold PullSecret_Reconcile. cbn [ps_GetServiceAccount with_secrets].
  assert (Hsame : forall names, (forall nn, nn ∈ names -> nn ∈ looked_up r) -> get_secrets (with_secrets f) names = get_secrets E names).
  { intros names Hn. apply get_secrets_ext. intros nn Hnn. apply Hf, Hw, Hn, Hnn. }
  assert (Hown : match SecretKey r with Some key => get_secrets (with_secrets f) [key] | None => inr [] end =
                 match SecretKey r with Some key => get_secrets E [key] | None => inr [] end).
  { destruct (SecretKey r) as [key|] eqn:Ek; [|done]. apply Hsame. intros nn Hnn. unfold looked_up. rewrite Ek. set_solver. }
  rewrite Hown. destruct (match SecretKey r with Some key => get_secrets E [key] | None => inr [] end) as [|secrets]; [done|].
  destruct (ps_GetServiceAccount E (ServiceAccountKey r)) as [e|ips] eqn:Ea.
  - destruct (has_kind KNotFound e); [|done]. apply save_secrets_ext.
  - rewrite Hsame. { destruct (get_secrets E _); [done|]. apply save_secrets_ext. }
    intros nn Hnn. unfold looked_up. rewrite Ea. set_solver.
Qed.

End Props.

(** ** Witnesses *)

Module PullSecretSamples.

Definition manager : NamespacedName := mkNN "olmv1-system" "operator-controller".
Definition global_key : NamespacedName := mkNN "openshift-config" "pull-secret".

(** Data that names its registry, and a marshaler for up to two of them. *)
Definition one_auth (registry : string) : dockerCfg := {[ registry := mkAuth registry "" ]}.

Definition ps_sample : PsEnv := {|
  ps_GetSecret nn :=
    if decide (nn = global_key) then inr {[ ".dockerconfigjson" := "quay.io" ]}
    else if decide (nn = mkNN "olmv1-system" "robot") then inr {[ ".dockercfg" := "docker.io" ]}
    else inl (EApi KNotFound "not found");
  ps_GetServiceAccount _ := inr ["robot"; "missing"];
  ps_Unmarshal_dockerconfigjson d := inr (one_auth d);
  ps_Unmarshal_dockercfg d := inr (one_auth d);
  ps_Marshal m := inr (if decide (m = one_auth "docker.io" ∪ one_auth "quay.io") then "both" else "some");
  ps_WriteFile _ := None;
  ps_Remove := None;
|}.

Definition started : PullSecretReconciler := mkReconciler (Some global_key) manager [] None.
Definition reconciled : PullSecretReconciler :=
  mkReconciler (Some global_key) manager [mkNN "olmv1-system" "robot"; mkNN "olmv1-system" "missing"] (Some "both").

Lemma started_reconciled : PullSecret_Reconcile ps_sample started = (None, reconciled).
Proof. vm_compute. reflexivity. Qed.

Lemma pull_secrets_written_witness :
  exists data, ps_Marshal ps_sample (auths_of ps_sample [ {[ ".dockerconfigjson" := "quay.io" ]}; {[ ".dockercfg" := "docker.io" ]} ]) = inr data /\
    AuthFile reconciled = Some data.
Proof. exact (proj1 (pull_secrets_written ps_sample started None reconciled started_reconciled) eq_refl). Defined.

Lemma pull_secret_events_complete_witness :
  PullSecret_Reconcile (with_secrets ps_sample (fun nn => if decide (nn = mkNN "other" "secret") then inr ∅ else ps_GetSecret ps_sample nn)) started =
    (None, reconciled).
Proof.
  apply (pull_secret_events_complete ps_sample started reconciled _ started_reconciled).
  intros nn Hnn. destruct (decide (nn = mkNN "other" "secret")) as [->|]; [vm_compute in Hnn; discriminate Hnn|reflexivity].
Defined.

End PullSecretSamples.
