(* ===== verification/Tls.v ===== *)
(** * TLS profiles and certificate pools

    src/internal/shared/util/tlsprofiles: the command-line flags that choose a
    TLS profile (flags.go), looking the profile up and applying it
    (tlsprofiles.go), and Mozilla's profiles (mozilla_data.go);
    src/internal/shared/util/http: building a pool from the system's
    certificates and those of a directory (certutil.go), the watcher that keeps
    it current (certpoolwatcher.go), and the HTTP client that trusts it
    (httputil.go).

    The tables of cipher suites of crypto/tls, its identifiers and encoding/csv
    are parameters or constants of the standard library; crypto/x509 and the
    file system are the environment [CertEnv].  The file system may differ from
    one step to the next; the goroutine of the watcher runs in steps: each
    handles what its select receives. *)

From Stdlib Require Import Ascii.
From S2P Require Import Prelude GoErrors ApiTypes Validate.

(** ** crypto/tls *)

Definition VersionTLS10 : Z := 769.
Definition VersionTLS11 : Z := 770.
Definition VersionTLS12 : Z := 771.
Definition VersionTLS13 : Z := 772.

Definition X25519 : Z := 29.
Definition prime256v1 : Z := 23.
Definition secp384r1 : Z := 24.
Definition secp521r1 : Z := 25.

Definition TLS_RSA_WITH_3DES_EDE_CBC_SHA : Z := 10.
Definition TLS_RSA_WITH_AES_128_CBC_SHA : Z := 47.
Definition TLS_RSA_WITH_AES_256_CBC_SHA : Z := 53.
Definition TLS_RSA_WITH_AES_128_CBC_SHA256 : Z := 60.
Definition TLS_RSA_WITH_AES_128_GCM_SHA256 : Z := 156.
Definition TLS_RSA_WITH_AES_256_GCM_SHA384 : Z := 157.
Definition TLS_AES_128_GCM_SHA256 : Z := 4865.
Definition TLS_AES_256_GCM_SHA384 : Z := 4866.
Definition TLS_CHACHA20_POLY1305_SHA256 : Z := 4867.
Definition TLS_ECDHE_ECDSA_WITH_AES_128_CBC_SHA : Z := 49161.
Definition TLS_ECDHE_ECDSA_WITH_AES_256_CBC_SHA : Z := 49162.
Definition TLS_ECDHE_RSA_WITH_AES_128_CBC_SHA : Z := 49171.
Definition TLS_ECDHE_RSA_WITH_AES_256_CBC_SHA : Z := 49172.
Definition TLS_ECDHE_ECDSA_WITH_AES_128_CBC_SHA256 : Z := 49187.
Definition TLS_ECDHE_RSA_WITH_AES_128_CBC_SHA256 : Z := 49191.
Definition TLS_ECDHE_ECDSA_WITH_AES_128_GCM_SHA256 : Z := 49195.
Definition TLS_ECDHE_ECDSA_WITH_AES_256_GCM_SHA384 : Z := 49196.
Definition TLS_ECDHE_RSA_WITH_AES_128_GCM_SHA256 : Z := 49199.
Definition TLS_ECDHE_RSA_WITH_AES_256_GCM_SHA384 : Z := 49200.
Definition TLS_ECDHE_RSA_WITH_CHACHA20_POLY1305 : Z := 52392.
Definition TLS_ECDHE_ECDSA_WITH_CHACHA20_POLY1305 : Z := 52393.

(** ** Profiles *)

(** type cipherSlice struct, type curveSlice struct *)
Record numbered_names := mkNumbered { nn_Nums : list Z; nn_Names : list string }.

(** type tlsProfile struct *)
Record tlsProfile := mkProfile { tp_ciphers : numbered_names; tp_curves : numbered_names; tp_minTLSVersion : Z }.

Definition mozilla_curves : numbered_names := mkNumbered [X25519; prime256v1; secp384r1] [].

Definition modern_ciphers : list Z := [TLS_AES_128_GCM_SHA256; TLS_AES_256_GCM_SHA384; TLS_CHACHA20_POLY1305_SHA256].

Definition modernTLSProfile : tlsProfile := mkProfile (mkNumbered modern_ciphers []) mozilla_curves VersionTLS13.

Definition intermediate_ciphers : list Z :=
  [TLS_AES_128_GCM_SHA256; TLS_AES_256_GCM_SHA384; TLS_CHACHA20_POLY1305_SHA256;
   TLS_ECDHE_ECDSA_WITH_AES_128_GCM_SHA256; TLS_ECDHE_RSA_WITH_AES_128_GCM_SHA256;
   TLS_ECDHE_ECDSA_WITH_AES_256_GCM_SHA384; TLS_ECDHE_RSA_WITH_AES_256_GCM_SHA384;
   TLS_ECDHE_ECDSA_WITH_CHACHA20_POLY1305; TLS_ECDHE_RSA_WITH_CHACHA20_POLY1305].

Definition intermediateTLSProfile : tlsProfile := mkProfile (mkNumbered intermediate_ciphers []) mozilla_curves VersionTLS12.

Definition old_ciphers : list Z :=
  [TLS_AES_128_GCM_SHA256; TLS_AES_256_GCM_SHA384; TLS_CHACHA20_POLY1305_SHA256;
   TLS_ECDHE_ECDSA_WITH_AES_128_GCM_SHA256; TLS_ECDHE_RSA_WITH_AES_128_GCM_SHA256;
   TLS_ECDHE_ECDSA_WITH_AES_256_GCM_SHA384; TLS_ECDHE_RSA_WITH_AES_256_GCM_SHA384;
   TLS_ECDHE_ECDSA_WITH_CHACHA20_POLY1305; TLS_ECDHE_RSA_WITH_CHACHA20_POLY1305;
   TLS_ECDHE_ECDSA_WITH_AES_128_CBC_SHA256; TLS_ECDHE_RSA_WITH_AES_128_CBC_SHA256;
   TLS_ECDHE_ECDSA_WITH_AES_128_CBC_SHA; TLS_ECDHE_RSA_WITH_AES_128_CBC_SHA;
   TLS_ECDHE_ECDSA_WITH_AES_256_CBC_SHA; TLS_ECDHE_RSA_WITH_AES_256_CBC_SHA;
   TLS_RSA_WITH_AES_128_GCM_SHA256; TLS_RSA_WITH_AES_256_GCM_SHA384; TLS_RSA_WITH_AES_128_CBC_SHA256;
   TLS_RSA_WITH_AES_128_CBC_SHA; TLS_RSA_WITH_AES_256_CBC_SHA; TLS_RSA_WITH_3DES_EDE_CBC_SHA].

Definition oldTLSProfile : tlsProfile := mkProfile (mkNumbered old_ciphers []) mozilla_curves VersionTLS10.

(** The variables of the package that the flags set. *)
Record tls_flags := mkTlsFlags { configuredProfile : string; customTLSProfile : tlsProfile }.

Definition tls_initial : tls_flags :=
  mkTlsFlags "intermediate" (mkProfile (mkNumbered [] []) (mkNumbered [] []) VersionTLS12).

(** var profiles *)
Definition profiles (s : tls_flags) : gmap string tlsProfile :=
  list_to_map [("modern", modernTLSProfile); ("intermediate", intermediateTLSProfile); ("old", oldTLSProfile);
               ("custom", customTLSProfile s)].

(** func findTLSProfile(profile tlsProfileName) *)
Definition findTLSProfile (s : tls_flags) (profile : string) : result tlsProfile :=
  match profiles s !! ToLower profile with
  | Some p => inr p
  | None => inl (ENew ("unknown TLS profile: " +:+ fmt_q profile))
  end.

(** var curves *)
Definition curves : gmap string Z :=
  list_to_map [("X25519", X25519); ("prime256v1", prime256v1); ("secp384r1", secp384r1); ("secp521r1", secp521r1)].

(** func curveId(name string) tls.CurveID *)
Definition curveId (name : string) : Z := default 0 (curves !! name).

(** var tlsVersions *)
Definition tlsVersions : gmap string Z :=
  list_to_map [("TLSv1.0", VersionTLS10); ("TLSv1.1", VersionTLS11); ("TLSv1.2", VersionTLS12); ("TLSv1.3", VersionTLS13)].

(** The configuration of a server. *)
Record tls_Config := mkTlsConfig { MinVersion : Z; CipherSuites : list Z; CurvePreferences : list Z }.

(** func GetTLSConfigFunc(): what the function
    writes into a configuration. *)
Definition GetTLSConfigFunc (s : tls_flags) : result tls_Config :=
  match findTLSProfile s (configuredProfile s) with
  | inl err => inl err
  | inr p => inr (mkTlsConfig (tp_minTLSVersion p) (nn_Nums (tp_ciphers p)) (nn_Nums (tp_curves p)))
  end.

Section Flags.
(* tls.CipherSuites(), tls.InsecureCipherSuites(): names and identifiers *)
Context (tls_CipherSuites tls_InsecureCipherSuites : list (string * Z)).
Context (csv_Read : string -> result (list string)).

(** func cipherSuiteId(name string) uint16 *)
Definition cipherSuiteId (name : string) : Z :=
  match list_find (fun c => c.1 = name) tls_CipherSuites with
  | Some (_, c) => c.2
  | None =>
      match list_find (fun c => c.1 = name) tls_InsecureCipherSuites with
      | Some (_, c) => c.2
      | None => 0
      end
  end.

(** func readAsCSV(val string) ([]string, error) *)
Definition readAsCSV (val : string) : result (list string) :=
  if decide (val = EmptyString) then inr [] else csv_Read val.

(** func (s *cipherSlice) Append, func (s *curveSlice) Append *)
Definition slice_Append (what : string) (id : string -> Z) (val : string) (s : numbered_names) : option error * numbered_names :=
  let num := id val in
  if num =? 0 then (Some (ENew ("unknown " +:+ what +:+ " " +:+ fmt_q val)), s)
  else (None, mkNumbered (nn_Nums s ++ [num]) (nn_Names s ++ [val])).

(** func (s *cipherSlice) Replace, func (s *curveSlice) Replace *)
Fixpoint slice_Appends (what : string) (id : string -> Z) (vals : list string) (s : numbered_names)
  : option error * numbered_names :=
  match vals with
  | [] => (None, s)
  | val :: vals =>
      match slice_Append what id val s with
      | (Some err, s) => (Some err, s)
      | (None, s) => slice_Appends what id vals s
      end
  end.
Definition slice_Replace (what : string) (id : string -> Z) (vals : list string) (_ : numbered_names)
  : option error * numbered_names := slice_Appends what id vals (mkNumbered [] []).

(** func (s *cipherSlice) Set, func (s *curveSlice) Set *)
Definition slice_Set (what : string) (id : string -> Z) (val : string) (s : numbered_names) : option error * numbered_names :=
  match readAsCSV val with
  | inl err => (Some err, s)
  | inr v => slice_Replace what id v s
  end.

(** func (v *tlsVersion) Set(value string) error *)
Definition tlsVersion_Set (value : string) (v : Z) : option error * Z :=
  match tlsVersions !! value with
  | None => (Some (ENew ("unknown TLS version: " +:+ fmt_q value)), v)
  | Some n => (None, n)
  end.

(** func (v *tlsVersion) String() string: the loop runs over a map, each of
    whose values has one name. *)
Definition tlsVersion_String (v : Z) : string :=
  match list_find (fun e => e.2 = v) (map_to_list tlsVersions) with
  | Some (_, e) => e.1
  | None => EmptyString
  end.

(** func (p *tlsProfileName) Set(value string) error *)
Definition tlsProfileName_Set (value : string) (s : tls_flags) : option error * tls_flags :=
  match findTLSProfile s value with
  | inl err => (Some err, s)
  | inr _ => (None, mkTlsFlags value (customTLSProfile s))
  end.

(** The flags of AddFlags. *)
Inductive tls_flag := TlsProfileFlag | TlsCustomCiphers | TlsCustomCurves | TlsCustomVersion.

(** Setting one of them. *)
Definition flag_Set (f : tls_flag) (value : string) (s : tls_flags) : option error * tls_flags :=
  let c := customTLSProfile s in
  match f with
  | TlsProfileFlag => tlsProfileName_Set value s
  | TlsCustomCiphers =>
      let '(err, l) := slice_Set "cipher" cipherSuiteId value (tp_ciphers c) in
      (err, mkTlsFlags (configuredProfile s) (mkProfile l (tp_curves c) (tp_minTLSVersion c)))
  | TlsCustomCurves =>
      let '(err, l) := slice_Set "curve" curveId value (tp_curves c) in
      (err, mkTlsFlags (configuredProfile s) (mkProfile (tp_ciphers c) l (tp_minTLSVersion c)))
  | TlsCustomVersion =>
      let '(err, v) := tlsVersion_Set value (tp_minTLSVersion c) in
      (err, mkTlsFlags (configuredProfile s) (mkProfile (tp_ciphers c) (tp_curves c) v))
  end.

(** Parsing a command line: the first error ends it. *)
Fixpoint parse_flags (args : list (tls_flag * string)) (s : tls_flags) : option error * tls_flags :=
  match args with
  | [] => (None, s)
  | (f, value) :: args =>
      match flag_Set f value s with
      | (Some err, s) => (Some err, s)
      | (None, s) => parse_flags args s
      end
  end.

(** ** What can be configured *)

(** A list of flags: the identifiers of its names, all known. *)
Definition slice_ok (id : string -> Z) (s : numbered_names) : Prop :=
  nn_Nums s = map id (nn_Names s) /\ Forall (fun n => n <> 0) (nn_Nums s).

Definition version_ok (v : Z) : Prop := VersionTLS10 <= v <= VersionTLS13.

Record flags_ok (s : tls_flags) : Prop := {
  fo_profile : ToLower (configuredProfile s) ∈ ["modern"; "intermediate"; "old"; "custom"];
  fo_ciphers : slice_ok cipherSuiteId (tp_ciphers (customTLSProfile s));
  fo_curves : slice_ok curveId (tp_curves (customTLSProfile s));
  fo_version : version_ok (tp_minTLSVersion (customTLSProfile s));
}.

Lemma slice_Append_ok what id val s : slice_ok id s -> slice_ok id (slice_Append what id val s).2.
Proof.
  intros [Hn Hf]. unfold slice_Append. destruct (Z.eqb_spec (id val) 0) as [|Hne]; [by split|]. split; cbn.
  - by rewrite Hn, map_app.
  - apply Forall_app. split; [done|]. by constructor.
Qed.

Lemma slice_Appends_ok what id vals s : slice_ok id s -> slice_ok id (slice_Appends what id vals s).2.
Proof.
  revert s. induction vals as [|val vals IH]; intros s Hs; [done|]. cbn. pose proof (slice_Append_ok what id val s Hs) as H.
  destruct (slice_Append what id val s) as [[e|] s']; [done|by apply IH].
Qed.

Lemma slice_Set_ok what id val s : slice_ok id s -> slice_ok id (slice_Set what id val s).2.
Proof.
  intros Hs. unfold slice_Set. destruct (readAsCSV val); [done|]. apply slice_Appends_ok. by split.
Qed.

Lemma tlsVersions_ok value n : tlsVersions !! value = Some n -> version_ok n.
Proof.
  intros H%elem_of_list_to_map_2. unfold version_ok. repeat (apply elem_of_cons in H as [[= _ ->]|H]; [by vm_compute|]).
  by apply not_elem_of_nil in H.
Qed.

Lemma findTLSProfile_known s profile p :
  findTLSProfile s profile = inr p -> ToLower profile ∈ ["modern"; "intermediate"; "old"; "custom"].
Proof.
  unfold findTLSProfile. destruct (profiles s !! _) as [q|] eqn:E; [|done]. intros _.
  apply elem_of_list_to_map_2 in E. apply (list_elem_of_fmap_2 fst) in E. exact E.
Qed.

Lemma flag_Set_ok f value s : flags_ok s -> flags_ok (flag_Set f value s).2.
Proof.
  intros [H1 H2 H3 H4]. destruct f; cbn.
  - unfold tlsProfileName_Set. destruct (findTLSProfile s value) as [err|p] eqn:E; split; try done. by eapply findTLSProfile_known.
  - pose proof (slice_Set_ok "cipher" cipherSuiteId value _ H2) as H. destruct (slice_Set _ _ _ _) as [err l]. by split.
  - pose proof (slice_Set_ok "curve" curveId value _ H3) as H. destruct (slice_Set _ _ _ _) as [err l]. by split.
  - unfold tlsVersion_Set. destruct (tlsVersions !! value) as [n|] eqn:E; split; try done. by eapply tlsVersions_ok.
Qed.

Lemma parse_flags_ok args s : flags_ok s -> flags_ok (parse_flags args s).2.
Proof.
  revert s. induction args as [|[f value] args IH]; intros s Hs; [done|]. cbn. pose proof (flag_Set_ok f value s Hs) as H.
  destruct (flag_Set f value s) as [[e|] s']; [done|by apply IH].
Qed.

Lemma profile_found s : flags_ok s -> exists p, findTLSProfile s (configuredProfile s) = inr p /\
  p ∈ [modernTLSProfile; intermediateTLSProfile; oldTLSProfile; customTLSProfile s].
Proof.
  intros [H _ _ _]. unfold findTLSProfile, profiles. generalize dependent (ToLower (configuredProfile s)). intros name H.
  repeat (apply elem_of_cons in H as [->|H]); [..|by apply not_elem_of_nil in H]; (eexists; split; [vm_compute; reflexivity|]); set_solver.
Qed.

(** Whatever the command line says about TLS, the servers get a
    configuration: the profile in force is always one that exists, its minimal
    version is one of TLS 1.0 to 1.3, and no cipher suite or curve in it is the
    zero one that stands for an unknown name; after an error, too, no half-set
    flag can break this. *)
Theorem tls_flags_well_formed args :
  let s := (parse_flags args tls_initial).2 in
  exists config, GetTLSConfigFunc s = inr config /\ version_ok (MinVersion config) /\
    Forall (fun n => n <> 0) (CipherSuites config) /\ Forall (fun n => n <> 0) (CurvePreferences config).
Proof.
  assert (Hinit : flags_ok tls_initial).
  { split; [vm_compute; set_solver|by split|by split|by vm_compute]. }
  cbv zeta. pose proof (parse_flags_ok args _ Hinit) as Hs. set (s := (parse_flags args tls_initial).2) in *. clearbody s.
  destruct (profile_found s Hs) as (p & Hp & Hin). unfold GetTLSConfigFunc. rewrite Hp. eexists. split; [done|]. cbn.
  destruct Hs as [_ [_ H2] [_ H3] H4].
  repeat (apply elem_of_cons in Hin as [->|Hin]); [..|by apply not_elem_of_nil in Hin];
    [split; [by vm_compute|split; repeat constructor; discriminate]..|by split].
Qed.

End Flags.

(** The identifier of a version prints back as the name it was set with. *)
Lemma tlsVersion_roundtrip value v n : tlsVersion_Set value v = (None, n) -> tlsVersion_String n = value.
Proof.
  unfold tlsVersion_Set. destruct (tlsVersions !! value) as [m|] eqn:E; [|done]. intros [= <-].
  apply elem_of_list_to_map_2 in E. repeat (apply elem_of_cons in E as [[= -> ->]|E]; [by vm_compute|]). by apply not_elem_of_nil in E.
Qed.

(** ** Certificate pools *)

Record CertEnv {Pool : Type} := mkCertEnv {
  ct_SystemCertPool : result Pool;
  (* the names in a directory; whether a path is a directory; its content *)
  ct_ReadDir : string -> result (list string);
  ct_Stat : string -> result bool;
  ct_ReadFile : string -> result string;
  (* the pool, and whether any certificate was added *)
  ct_AppendCertsFromPEM : Pool -> string -> Pool * bool;
}.
Arguments CertEnv : clear implicits.

Section Pools.
Context {Pool : Type} (Join : string -> string -> string).

Section NewCertPool.
Context (E : CertEnv Pool) (caDir : string).

(** One iteration of the loop of NewCertPool. *)
Definition load_entry (name : string) (st : Pool * nat) : result (Pool * nat) :=
  let file := Join caDir name in
  match ct_Stat E file with
  | inl err => inl err
  | inr true => inr st
  | inr false =>
      match ct_ReadFile E file with
      | inl err => inl (EWrap ("error reading cert file " +:+ fmt_q file +:+ ": ") err "")
      | inr data =>
          let '(pool, added) := ct_AppendCertsFromPEM E st.1 data in
          inr (pool, if added then S st.2 else st.2)
      end
  end.

Fixpoint load_entries (names : list string) (st : Pool * nat) : result (Pool * nat) :=
  match names with
  | [] => inr st
  | name :: names => match load_entry name st with inl err => inl err | inr st => load_entries names st end
  end.

(** func NewCertPool(caDir string, log logr.Logger) *)
Definition NewCertPool : result Pool :=
  match ct_SystemCertPool E with
  | inl err => inl err
  | inr caCertPool =>
      if decide (caDir = EmptyString) then inr caCertPool
      else
        match ct_ReadDir E caDir with
        | inl err => inl err
        | inr dirEntries =>
            match load_entries dirEntries (caCertPool, O) with
            | inl err => inl err
            | inr (pool, count) =>
                if decide (count = O) then inl (ENew ("no certificates found in " +:+ fmt_q caDir)) else inr pool
            end
        end
  end.

End NewCertPool.

(** ** The watcher *)

(** Where its goroutine is: not started, in its select, blocked on sending to
    the channel done, returned; or the process has exited. *)
Inductive watch_loop := NotStarted | Selecting | BlockedSending | LoopEnded | ProcessExited (code : Z).

(** type CertPoolWatcher struct; [cw_spare] is the unused capacity of the
    slice sslCertPaths, [cw_restarts] the calls of restart so far,
    [cw_waiting] the callers of Done that wait for a receiver. *)
Record CertPoolWatcher := mkWatcher {
  cw_generation : Z;
  cw_dir : string;
  cw_sslCertPaths : list string;
  cw_spare : nat;
  cw_pool : option Pool;
  cw_watcher : bool;
  cw_restart : bool;
  cw_loop : watch_loop;
  cw_restarts : nat;
  cw_waiting : nat;
}.

(** func (cpw *CertPoolWatcher) Get() *)
Definition CertPoolWatcher_Get (w : CertPoolWatcher) : result (Pool * Z) :=
  match cw_pool w with
  | None => inl (ENew "no certificate pool available")
  | Some pool => inr (pool, cw_generation w)
  end.

(** func deleteEmptyStrings(p string) bool: what is removed. *)
Definition deleteEmptyStrings (E : CertEnv Pool) (p : string) : bool :=
  bool_decide (p = EmptyString) || match ct_Stat E p with inl _ => true | inr _ => false end.

(** slices.DeleteFunc works in place: what is kept moves to the front and the
    rest of the array is cleared. *)
Definition kept_paths (E : CertEnv Pool) (l : list string) : list string := filter (fun p => deleteEmptyStrings E p = false) l.
Definition delete_in_place (E : CertEnv Pool) (l : list string) : list string :=
  kept_paths E l ++ replicate (length l - length (kept_paths E l)) EmptyString.

(** func NewCertPoolWatcher(caDir, log), with the two variables of the
    environment and the capacity append leaves. *)
Definition NewCertPoolWatcher (E : CertEnv Pool) (caDir sslCertDir sslCertFile : string) (spare : nat) : CertPoolWatcher :=
  let paths := strings_Split (Ascii.ascii_of_nat 58) sslCertDir ++ [sslCertFile] in
  let kept := kept_paths E paths in
  mkWatcher 1 caDir kept (spare + (length paths - length kept)) None false false NotStarted 0 0.

(** The slices of Start: [append(cpw.sslCertPaths, cpw.dir)] uses the array of
    sslCertPaths when there is room in it, and then DeleteFunc rearranges it.
    The paths to watch, and what sslCertPaths holds afterwards. *)
Definition start_paths (E : CertEnv Pool) (w : CertPoolWatcher) : list string * list string :=
  let all := cw_sslCertPaths w ++ [cw_dir w] in
  (kept_paths E all,
   if decide (cw_spare w = O) then cw_sslCertPaths w
   else take (length (cw_sslCertPaths w)) (delete_in_place E all)).

(** func (cpw *CertPoolWatcher) Start(ctx), with the errors of fsnotify. *)
Definition CertPoolWatcher_Start (E : CertEnv Pool) (new_err : option error) (add_err : string -> option error)
    (w : CertPoolWatcher) : option error * CertPoolWatcher :=
  match NewCertPool E (cw_dir w) with
  | inl err => (Some err, mkWatcher (cw_generation w) (cw_dir w) (cw_sslCertPaths w) (cw_spare w) None (cw_watcher w)
                            (cw_restart w) (cw_loop w) (cw_restarts w) (cw_waiting w))
  | inr pool =>
      let '(watchPaths, sslCertPaths) := start_paths E w in
      let started watcher loop :=
        mkWatcher (cw_generation w) (cw_dir w) sslCertPaths (cw_spare w) (Some pool) watcher (cw_restart w) loop
          (cw_restarts w) (cw_waiting w) in
      match watchPaths with
      | [] => (None, started false (cw_loop w))
      | _ =>
          match new_err with
          | Some err => (Some err, started false (cw_loop w))
          | None =>
              match omap add_err watchPaths with
              | err :: _ => (Some err, started false (cw_loop w))
              | [] => (None, started true Selecting)
              end
          end
      end
  end.

(** func (cpw *CertPoolWatcher) checkForRestart(name): how often restart is
    called. *)
Definition checkForRestart (w : CertPoolWatcher) (name : string) : nat :=
  if cw_restart w then length (filter (fun p => strings_Contains name p = true) (cw_sslCertPaths w)) else O.

(** func (cpw *CertPoolWatcher) update(name); an error ends the process. *)
Definition update_pool (E : CertEnv Pool) (restarts : nat) (w : CertPoolWatcher) : CertPoolWatcher :=
  match NewCertPool E (cw_dir w) with
  | inl _ => mkWatcher (cw_generation w) (cw_dir w) (cw_sslCertPaths w) (cw_spare w) (cw_pool w) (cw_watcher w) (cw_restart w)
               (ProcessExited 1) (cw_restarts w + restarts) (cw_waiting w)
  | inr pool => mkWatcher (cw_generation w + 1) (cw_dir w) (cw_sslCertPaths w) (cw_spare w) (Some pool) (cw_watcher w)
                  (cw_restart w) (cw_loop w) (cw_restarts w + restarts) (cw_waiting w)
  end.

Definition in_loop (l : watch_loop) (waiting : nat) (w : CertPoolWatcher) : CertPoolWatcher :=
  mkWatcher (cw_generation w) (cw_dir w) (cw_sslCertPaths w) (cw_spare w) (cw_pool w) (cw_watcher w) (cw_restart w) l
    (cw_restarts w) waiting.

(** What can happen: the goroutine receives an event, and those that
    drainEvents takes with it, an error, the end of the context or the value
    of a caller of Done; or Done is called. *)
Inductive watch_action :=
| WEvent (E : CertEnv Pool) (name : string) (drained : list string)
| WError
| WContextDone
| WReceiveDone
| WCallDone.

Definition watch_step (w : CertPoolWatcher) (a : watch_action) : option CertPoolWatcher :=
  match a with
  | WCallDone =>
      (* func (cpw *CertPoolWatcher) Done(): the send waits for a receiver *)
      if cw_watcher w then Some (in_loop (cw_loop w) (S (cw_waiting w)) w) else Some w
  | _ =>
      match cw_loop w with
      | Selecting =>
          match a with
          | WEvent E name drained => Some (update_pool E (sum_list (map (checkForRestart w) (name :: drained))) w)
          | WError => Some (in_loop (ProcessExited 1) (cw_waiting w) w)
          | WContextDone =>
              (* cpw.Done() in the goroutine itself *)
              Some (in_loop (if cw_watcher w then BlockedSending else Selecting) (cw_waiting w) w)
          | WReceiveDone =>
              match cw_waiting w with O => None | S n => Some (in_loop LoopEnded n w) end
          | WCallDone => None
          end
      | _ => None
      end
  end.

Fixpoint watch_run (acts : list watch_action) (w : CertPoolWatcher) : option CertPoolWatcher :=
  match acts with
  | [] => Some w
  | a :: acts => match watch_step w a with Some w => watch_run acts w | None => None end
  end.

(** func BuildHTTPClient(cpw): the pool the client trusts. *)
Definition BuildHTTPClient (w : CertPoolWatcher) : result Pool :=
  match CertPoolWatcher_Get w with inl err => inl err | inr (pool, _) => inr pool end.

(** ** Properties *)

(** A watcher that has started has a pool for the clients, built by
    NewCertPool from its directory at some moment: that of the last event, as
    the generation counts. *)
Lemma watcher_has_pool E new_err add_err w0 w acts w' :
  CertPoolWatcher_Start E new_err add_err w0 = (None, w) -> watch_run acts w = Some w' ->
  exists E' pool, (E' = E \/ exists name drained, WEvent E' name drained ∈ acts) /\
    NewCertPool E' (cw_dir w0) = inr pool /\ BuildHTTPClient w' = inr pool.
Proof.
  intros Hs Hrun.
  assert (Hw : exists pool, NewCertPool E (cw_dir w0) = inr pool /\ cw_pool w = Some pool /\ cw_dir w = cw_dir w0).
  { unfold CertPoolWatcher_Start in Hs. destruct (NewCertPool E (cw_dir w0)) as [|pool] eqn:Ep; [done|].
    destruct (start_paths E w0) as [[|p ps] ssl]; [by injection Hs as <-; exists pool|].
    destruct new_err; [done|]. destruct (omap add_err (p :: ps)); [|done]. injection Hs as <-. by exists pool. }
  destruct Hw as (pool & Hp & Hcp & Hd). clear Hs. rewrite <- Hd in *. clear Hd w0.
  assert (Hinv : forall acts E w pool, NewCertPool E (cw_dir w) = inr pool -> cw_pool w = Some pool -> watch_run acts w = Some w' ->
    exists E' pool, (E' = E \/ exists name drained, WEvent E' name drained ∈ acts) /\
      NewCertPool E' (cw_dir w) = inr pool /\ cw_pool w' = Some pool).
  { clear. induction acts as [|a acts IH]; intros E w pool Hp Hc Hrun; cbn in Hrun.
    { injection Hrun as <-. exists E, pool. auto. }
    destruct (watch_step w a) as [w1|] eqn:Ew; [|done].
    assert (Hkeep : cw_dir w1 = cw_dir w -> cw_pool w1 = cw_pool w -> exists E' pool,
      (E' = E \/ exists name drained, WEvent E' name drained ∈ a :: acts) /\ NewCertPool E' (cw_dir w) = inr pool /\ cw_pool w' = Some pool).
    { intros Ed Epl. destruct (IH E w1 pool) as (E' & pool' & Hin & H1 & H2); [by rewrite Ed|by rewrite Epl|done|].
      exists E', pool'. rewrite Ed in H1. split; [|done]. destruct Hin as [?|(n & d & Hin)]; [by left|right]. exists n, d. by right. }
    destruct a as [E1 name drained| | | |].
    - cbn in Ew. destruct (cw_loop w) eqn:El; try done. injection Ew as <-. unfold update_pool in *.
      destruct (NewCertPool E1 (cw_dir w)) as [err|pool1] eqn:E1p; [by apply Hkeep|].
      match type of Hrun with watch_run _ ?w1 = _ => destruct (IH E1 w1 pool1 E1p eq_refl Hrun) as (E' & pool' & Hin & H1 & H2) end.
      exists E', pool'. split; [|done].
      right. destruct Hin as [->|(n & d & Hin)]; [exists name, drained; by left|exists n, d; by right].
    - cbn in Ew. destruct (cw_loop w); try done. injection Ew as <-. by apply Hkeep.
    - cbn in Ew. destruct (cw_loop w); try done. injection Ew as <-. by apply Hkeep.
    - cbn in Ew. destruct (cw_loop w); try done. destruct (cw_waiting w); [done|]. injection Ew as <-. by apply Hkeep.
    - cbn in Ew. destruct (cw_watcher w); injection Ew as <-; by apply Hkeep. }
  destruct (Hinv acts E w pool Hp Hcp Hrun) as (E' & pool' & Hin & H1 & H2). exists E', pool'.
  unfold BuildHTTPClient, CertPoolWatcher_Get. by rewrite H2.
Qed.

(** When the context of the manager ends, the goroutine sends to the channel
    only it receives from: it never ends, nothing closes the watcher, and
    whoever calls Done waits for ever. *)
Theorem cancelled_watcher_hangs w w1 acts w2 :
  cw_loop w = Selecting -> cw_watcher w = true -> watch_step w WContextDone = Some w1 -> watch_run acts w1 = Some w2 ->
  cw_loop w2 = BlockedSending /\ (cw_waiting w <= cw_waiting w2)%nat /\ BuildHTTPClient w2 = BuildHTTPClient w.
Proof.
  intros Hl Hw Hst Hrun. cbn in Hst. rewrite Hl, Hw in Hst. injection Hst as <-.
  assert (Hstuck : forall acts w1, cw_loop w1 = BlockedSending -> watch_run acts w1 = Some w2 ->
    cw_loop w2 = BlockedSending /\ (cw_waiting w1 <= cw_waiting w2)%nat /\ BuildHTTPClient w2 = BuildHTTPClient w1).
  { clear. induction acts as [|a acts IH]; intros w1 Hl Hrun; cbn in Hrun; [by injection Hrun as <-|].
    destruct (watch_step w1 a) as [w'|] eqn:Es; [|done]. destruct a; cbn in Es; rewrite ?Hl in Es; try done.
    destruct (cw_watcher w1); injection Es as <-; [|by apply IH].
    destruct (IH (in_loop BlockedSending (S (cw_waiting w1)) w1) eq_refl Hrun) as (H1 & H2 & H3). cbn in H2.
    split; [done|]. split; [lia|]. rewrite H3. done. }
  apply (Hstuck acts (in_loop BlockedSending (cw_waiting w) w) eq_refl Hrun).
Qed.

End Pools.

(** Start can overwrite the paths that call for a restart: when a watched path
    has gone since the watcher was made and the slice has room, the directory
    of the pool takes its place, so that every change of a certificate there
    restarts the process. *)
Lemma start_overwrites_paths (E : CertEnv unit) :
  ct_Stat E "/etc/ssl/extra" = inl (EApi KNotExist "no such file or directory") -> ct_Stat E "/var/certs" = inr true ->
  let w := mkWatcher 1 "/var/certs" ["/etc/ssl/extra"] 1 None false true NotStarted 0 0 in
  start_paths E w = (["/var/certs"], ["/var/certs"]) /\
  checkForRestart (mkWatcher 1 "/var/certs" (start_paths E w).2 1 (Some tt) true true Selecting 0 0) "/var/certs/tls.crt" = 1%nat.
Proof.
  intros H1 H2. cbv zeta.
  assert (Hs : start_paths E (mkWatcher 1 "/var/certs" ["/etc/ssl/extra"] 1 None false true NotStarted 0 0) = (["/var/certs"], ["/var/certs"])).
  { unfold start_paths, delete_in_place, kept_paths, deleteEmptyStrings. cbn [cw_sslCertPaths cw_dir cw_spare app].
    rewrite filter_cons_False; [|rewrite H1; by vm_compute]. rewrite filter_cons_True; [|by rewrite H2]. done. }
  rewrite Hs. split; [done|]. by vm_compute.
Qed.
