(* ===== verification/EngineFactory.v ===== *)
(** * The engine of a revision

    src/internal/operator-controller/controllers/revision_engine_factory.go:
    which service account the engine that rolls a revision out acts as, and
    that it is the one whose permissions the applier checked.

    Making a client and the boxcutter engine are third-party: the client is
    what [client_New] makes of a configuration, and the engine is known by what
    the factory gives it. *)

From Stdlib Require Import Ascii.
From S2P Require Import Prelude GoErrors ApiTypes Phase ExtSteps SecretPacker ObjectInstances PackProps Instances RevisionGen Rbac.
From S2P Require Import BoxApply BoxLogic BoxProps ObjectSet Admission Auth.

Section Factory.
Context {Client : Type} (client_New : rest_Config -> result Client).

(** type defaultRevisionEngineFactory struct, of which the scheme, the caches
    and the mappers are passed on only. *)
Record defaultRevisionEngineFactory := mkFactory { FieldOwnerPrefix : string; BaseConfig : rest_Config }.

(** The arguments of machinery.NewRevisionEngine: the writer, which is also the
    client of the phase validator and of the object engine, and the field owner
    and system prefix of the latter. *)
Record engine := mkEngine { en_Client : Client; en_FieldOwner : string; en_SystemPrefix : string }.

(** The configuration of a client that acts as a service account. *)
Definition scoped_config (base : rest_Config) (namespace serviceAccountName : string) : rest_Config :=
  rc_Wrap (TokenInjecting (mkNN namespace serviceAccountName)) (AnonymousClientConfig base).

(** func (f *defaultRevisionEngineFactory) createScopedClient(namespace, serviceAccountName) *)
Definition createScopedClient (f : defaultRevisionEngineFactory) (namespace serviceAccountName : string) : result Client :=
  match client_New (scoped_config (BaseConfig f) namespace serviceAccountName) with
  | inl err => inl (EWrap ("failed to create client for ServiceAccount " +:+ namespace +:+ "/" +:+ serviceAccountName +:+ ": ") err "")
  | inr c => inr c
  end.

(** func (f *defaultRevisionEngineFactory) CreateRevisionEngine(ctx, rev) *)
Definition CreateRevisionEngine (f : defaultRevisionEngineFactory) (rev : ClusterObjectSet) : result engine :=
  match getServiceAccount rev with
  | inl err => inl err
  | inr (saNamespace, saName) =>
      match createScopedClient f saNamespace saName with
      | inl err => inl err
      | inr scopedClient => inr (mkEngine scopedClient (FieldOwnerPrefix f) (FieldOwnerPrefix f))
      end
  end.

(** func NewDefaultRevisionEngineFactory(...): the token getter only matters by
    being there. *)
Definition NewDefaultRevisionEngineFactory (fieldOwnerPrefix : string) (baseConfig : option rest_Config) (tokenGetter : bool)
    : result defaultRevisionEngineFactory :=
  match baseConfig with
  | None => inl (ENew "baseConfig is required but not provided")
  | Some c => if tokenGetter then inr (mkFactory fieldOwnerPrefix c) else inl (ENew "tokenGetter is required but not provided")
  end.

(** ** Whose rights the engine has *)

(** A name without white space, as Kubernetes' names are. *)
Definition plain_name (s : string) : Prop :=
  s <> EmptyString /\ Forall (fun c => is_space c = false) (String.list_ascii_of_string s).

Lemma trim_left_plain s : Forall (fun c => is_space c = false) (String.list_ascii_of_string s) -> trim_left s = s.
Proof. destruct s as [|c s]; [done|]. cbn. by intros [-> _]%Forall_cons. Qed.

Lemma trim_right_plain s : Forall (fun c => is_space c = false) (String.list_ascii_of_string s) -> trim_right s = s.
Proof.
  induction s as [|c s IH]; [done|]. cbn. intros [Hc Hs]%Forall_cons. rewrite (IH Hs). destruct s; [by rewrite Hc|done].
Qed.

Lemma TrimSpace_plain s : plain_name s -> strings_TrimSpace s = s.
Proof. intros [_ Hs]. unfold strings_TrimSpace. by rewrite trim_left_plain, trim_right_plain by done. Qed.

(** The service account is read from the two annotations. *)
Lemma getServiceAccount_annotations rev ns name :
  m_Annotations (cos_Meta rev) !! ServiceAccountNamespaceKey = Some ns ->
  m_Annotations (cos_Meta rev) !! ServiceAccountNameKey = Some name ->
  plain_name ns -> plain_name name -> getServiceAccount rev = inr (ns, name).
Proof.
  intros Hns Hname Pns Pname. unfold getServiceAccount.
  rewrite decide_False; [|intros He; by rewrite He, lookup_empty in Hns].
  unfold map_get. rewrite Hns, Hname. cbn [default option_map from_option]. unfold id. rewrite !TrimSpace_plain by done.
  by rewrite !decide_False by (by destruct Pns, Pname).
Qed.

(** The revision that is sent keeps the annotations it was generated with. *)
Lemma replaced_annotations rev pack : ca_Annotations (replaceInlineWithRefs rev pack) = ca_Annotations rev.
Proof. by destruct rev. Qed.

End Factory.

Section Rights.
Context {Client : Type} (client_New : rest_Config -> result Client).
Context `{UA : UnstructuredAPI} `{CO : Codec}.
Context {FS : Type} (E : BoxEnv).
Context (gen : FS -> ClusterExtension -> gmap string string -> gmap string string -> result COSAC) `{IG : !InlineGenerator gen}.
Context (preflights : list Preflight) (ns : string).
Context (ext : ClusterExtension) (ol ra : gmap string string) (fs : FS).

(** C39. The engine that rolls a new revision out has no rights but those of
    the service account of the extension: the client it is made with has lost
    the credentials of the manager and carries the tokens of that account,
    which is the user the applier's pre-authorization asked about; and the
    factory fails for such a revision only if the client cannot be made. *)
Theorem engine_acts_as_preauthorized h r t1 rev t2 objs annotations cp f set :
  gen fs ext ol ra = inr (WithCollisionProtection cp (buildClusterObjectSet objs ext annotations)) ->
  Boxcutter_apply E gen preflights ns (Some fs) ext ol ra h = (r, h ++ t1 ++ EvApply rev :: t2) ->
  sa_Revision (ca_Spec rev) = Some (next_revision (revisions_at E ext h)) ->
  plain_name (es_Namespace (ext_Spec ext)) -> plain_name (es_ServiceAccount (ext_Spec ext)) ->
  m_Annotations (cos_Meta set) = ca_Annotations rev ->
  let key := mkNN (es_Namespace (ext_Spec ext)) (es_ServiceAccount (ext_Spec ext)) in
  let config := mkRestConfig false [TokenInjecting key] in
  getUserInfo ext = "system:serviceaccount:" +:+ nn_Namespace key +:+ ":" +:+ nn_Name key /\
  match client_New config with
  | inr c => CreateRevisionEngine client_New f set = inr (mkEngine c (FieldOwnerPrefix f) (FieldOwnerPrefix f))
  | inl err => exists context, CreateRevisionEngine client_New f set = inl (EWrap context err "")
  end.
Proof.
  intros Hg Hrun Hrev Pns Pname Hset. cbv zeta. split; [reflexivity|].
  assert (Hst : stage (next_revision (revisions_at E ext h)) (EvApply rev) = 6%nat) by (cbn; by rewrite decide_True).
  apply (run_created E gen preflights ns ext ol ra fs) in Hrun as (desired & pre & pa & pack & t1' & Hw & -> & _ & Hp & Hc); [|lia].
  destruct Hw as (generated & gvk & Hg' & _ & ->). rewrite Hg in Hg'. injection Hg' as <-.
  apply (creation_apply gen) in Hc as [-> _]. rewrite replaced_annotations in Hset.
  assert (Hsa : getServiceAccount set = inr (es_Namespace (ext_Spec ext), es_ServiceAccount (ext_Spec ext))).
  { apply getServiceAccount_annotations; [..|done|done]; rewrite Hset; cbn; by simplify_map_eq. }
  unfold CreateRevisionEngine, createScopedClient. rewrite Hsa.
  change (scoped_config _ _ _) with (mkRestConfig false [TokenInjecting (mkNN (es_Namespace (ext_Spec ext)) (es_ServiceAccount (ext_Spec ext)))]).
  destruct (client_New _) as [err|c]; [by eexists|done].
Qed.

End Rights.

(** ** Witness *)

Module EngineSamples.

(** The set the API server holds after the sample apply. *)
Definition stored : ClusterObjectSet :=
  mkCOS (mkMeta (default EmptyString (ca_Name (AdmissionSamples.sent 2))) "" "uid" 1 ∅ (ca_Annotations (AdmissionSamples.sent 2)) [] [] 0 None)
    (mkCOSSpec LifecycleStateActive 1 [] 0 [] EmptyString) [].

(** A cluster where a client is the configuration it was made with. *)
Definition factory : defaultRevisionEngineFactory := mkFactory "olm.operatorframework.io" (mkRestConfig true []).

Lemma engine_acts_as_preauthorized_witness :
  CreateRevisionEngine inr factory stored =
    inr (mkEngine (mkRestConfig false [TokenInjecting (mkNN "ns" "sa")]) "olm.operatorframework.io" "olm.operatorframework.io").
Proof.
  eapply proj2, (engine_acts_as_preauthorized inr AdmissionSamples.admitting_env (AdmissionSamples.accounts 2) (IG := AdmissionSamples.accounts_inline 2)
    [] "olmv1-system" Samples.the_ext ∅ ∅ tt [] (AdmissionSamples.account_run 2).1 (take 3 (AdmissionSamples.account_run 2).2)
    (AdmissionSamples.sent 2) (drop 4 (AdmissionSamples.account_run 2).2)
    [sample_sa; sample_sa] ∅ CollisionProtectionPrevent factory stored).
  - reflexivity.
  - exact AdmissionSamples.split2.
  - vm_compute. reflexivity.
  - split; [done|]. by vm_compute; repeat constructor.
  - split; [done|]. by vm_compute; repeat constructor.
  - reflexivity.
Defined.

End EngineSamples.
